(* ===== verification/_CoqProject ===== *)
-Q . S2P
Prelude.v
Abi.v
Bitmap.v
Mem.v
Palloc.v
Trace.v
Ports.v
Input.v
InputKeys.v
Vga.v
Framebuffer.v
Net.v
NetFrames.v
NetPing.v
Paging.v
PagingInit.v
Usercopy.v
Block.v
Ata.v
Pci.v
Kheap.v
Kstack.v
Vnode.v
Simplefs.v
SimplefsData.v
Bootinfo.v
Console.v
Hyperv.v
Vmbus.v
VmbusRing.v
HypervKeyboard.v
Vfs.v
VfsPath.v
VfsFiles.v
VfsBoot.v
VfsHeap.v
Exec.v
Task.v
TaskPath.v
Proc.v
ProcSched.v
ProcLive.v
Tty.v
ProcWait.v
ProcDemo.v
ProcNet.v
Syscall.v
SyscallSafe.v
