(* ===== verification/Prelude.v ===== *)
(** * Riverix: a verification library for the riverix teaching kernel

    Riverix is a small 32-bit kernel in C ([src/src/kernel], headers in [src/include]).  This library translates
    its functions into Rocq functions and proves what makes them correct.  File names below are those of
    [src/src/kernel] unless a directory is given.

    ** How code is modelled

    A C function is a [Definition] or [Fixpoint] of the same name; a loop body, or the part of a long function with a
    meaning of its own, is a definition too.  The static variables of a file are a [Record], and a function
    that changes them takes the record and returns the new one.  A [uint32_t] is a [Z], and every operation
    that can leave its range is wrapped ([u8], [u16], [u32], [⊞], [⊟], [⊠]).  An array or a piece of
    memory is the function from its indices to its cells ([carray]); packed structures are loads and stores at their offsets
    ([Mem]).  A pointer into a table is an index, a null pointer is [None] or 0 as in the code.  Errors are the
    values the code returns.  What an uninitialised local variable holds is an argument ([stack]).

    Code and machines that are not C sources of the kernel are type classes: [PortIO] (the port
    instructions), [Hypervisor], [PciBus], and classes of laws that say what a device promises ([UartLaws],
    [KeyboardLaws], [AtaDrive], [HostLaws], [NetDeviceLaws]).  Components meet at classes as
    well, which the modelled component then implements: [KernelHeap] and its laws (by [Kheap], in [VfsHeap]),
    [BlockDevice] (by the ramdisk and by partitions, in [Block]), [ConsoleIO] and its laws (by the keyboard and the
    screens, in [Tty]), [NetStack] (by [Net], in [ProcNet]), [KernelMachine], [NetInfo].  [NetDevice],
    [DiskDrivers] and [SynthKeyboard] stay parameters of the components above them; concrete
    instances are in the witnesses.

    ** Parts and files

    - Memory.  [Bitmap], [Palloc] ([palloc.c]), [Paging] ([paging.c]), [PagingInit] ([paging_init], [mmio.c]), [Kheap]
      ([kheap.c]), [Kstack] ([kstack.c]), [Usercopy] ([usercopy.c]).  The page allocator keeps its bitmap, its
      counts and its number of free frames consistent under any sequence of calls of clients that keep to three rules
      (no retain at the ceiling of the 16-bit count, no free of address 0 or past 4 GiB); mapping and unmapping change
      one translation and no other; copy-on-write gives a page of its own; the heap hands out disjoint blocks that
      tile it; copies to user memory write what the program then sees, only pages the
      program may write, and no frame that another address space shares.
    - Storage.  [Block] ([block.c], [partition.c], [ramdisk.c]), [Ata] ([ata.c]), [Pci] ([pci.c]), [Simplefs] and [SimplefsData]
      ([simplefs.c]).  A partition of a device that keeps the contract [BlockDevice] keeps it; the
      ATA driver reads and writes exactly the sectors it is asked for; files read back what was written, no
      operation touches the extents of another file.
    - Files.  [Vnode], [Vfs] ([vfs.c]), [VfsPath], [VfsFiles], [VfsBoot] ([storage.c], mounting), [VfsHeap],
      [Bootinfo] ([bootinfo.c]).  Path resolution is a walk; a pipe is a bounded queue of bytes;
      reference counts are the numbers of open files; mounting leaves a consistent system.
    - Processes.  [Exec] ([exec.c]), [Task], [TaskPath], [Proc] ([proc.c], [pit.c]), [ProcSched], [ProcLive], [ProcWait],
      [ProcDemo], [Syscall] ([syscall.c]), [SyscallSafe], [Abi].  The scheduler switches to a runnable task with
      everything that belongs to it, returns, and is fair; exit and wait do what they report, with
      the two exceptions proved in [ProcWait]; no system call gives away rights, and each keeps the task
      table well-formed.
    - Console.  [Ports] ([serial.c], [include/kernel/io.h]), [Input] and [InputKeys] ([input.c]), [Vga] ([vga.c]), [Framebuffer]
      ([framebuffer.c]), [Console] ([console.c]), [Tty].  What is typed is what is read; what is written
      is what the serial line and both screens show.  Keys are those of a US keyboard, given apart from the tables of the
      code.
    - Hyper-V.  [Hyperv] ([platform.c], [hyperv.c]), [Vmbus] and [VmbusRing] ([vmbus.c]), [HypervKeyboard] ([hyperv_keyboard.c]).
      The ring of a channel is a queue of packets; a poll of the keyboard ends and hands over
      every key stroke once and in order.
    - Network.  [Net] ([net.c]), [NetFrames], [NetPing], [ProcNet].  Packets carry the checksums of RFC 1071, frames
      are not read beyond their length, a ping ends by its deadline, succeeds between two hosts that run
      this code (over an idealised card, before tick 2^31), and wakes the task that waits for it.
    - [Trace] ([trace.c]): the ring shows the last records of the log.

    ** Fuel

    Loops with a bound in the code recurse on that bound.  A loop without one has [fuel] and returns [None] when it is
    used up; theorems that a call returns say how much is enough.  Reads of the console and the loops of the
    scheduler need more than the number of characters that wait ([ProcLive], [InputKeys]); the serial transmitter its
    [tx_bound]; a poll of the synthetic keyboard 171 steps, since a ring of 4096 bytes holds at most 170 packets
    of 24 bytes or more, and more than the number of messages that wait; the walk over the memory map one step
    per byte of it; folding a checksum two steps.  Recursion along the disk (directories, copies of the
    image) has fuel for the number of inodes or blocks.

    ** Not modelled

    - [e1000.c] and [ahci.c]: drivers of cards that read and write memory on their own; the network stack and the block
      layer are proved against the interfaces [NetDevice] and [DiskDrivers] instead.
    - [gdt.c], [idt.c], [pic.c], [src/src/boot]: processor tables, interrupt entry and start-up assembly.  [Proc] starts at the
      interrupt frame.
    - [kernel.c], [memory.c], [panic.c]: the order of the initialisation calls, and messages.
    - Messages of components other than the console itself, the saving of the interrupt flag, the translation
      look-aside buffer, and short waits for the bus.
    - Characters and key codes that arrive while a driver reads or writes its ports: the laws of the
      serial chip and of the keyboards ([UartLaws], [KeyboardLaws], [SynthLaws]) let them arrive between calls only.
    - What the hypervisor writes to shared memory is seen when the guest looks for a message; writes in the middle of a
      function are not modelled.
    - User programs and their library ([src/src/user]), the image builder ([src/tools]), build rules, documents, and the
      reference sources in [src/references], which the kernel does not use. *)

From stdpp Require Export base tactics numbers list list_numbers functions relations.
From Stdlib Require Export ZArith Lia.

Local Open Scope Z_scope.

(** ** Machine integers

    A [uintN_t] of the C code is a [Z] in [0, 2^N); every operation that can
    leave the range is followed by its wrap-around. *)

Definition u8 (x : Z) : Z := x mod 256.
Definition u16 (x : Z) : Z := x mod 65536.
Definition u32 (x : Z) : Z := x mod 4294967296.
Definition u64 (x : Z) : Z := x mod 18446744073709551616.

(** [(int32_t)x] and the two's complement reading of a 32-bit word. *)
Definition i32 (x : Z) : Z :=
  if u32 x <? 2147483648 then u32 x else u32 x - 4294967296.

(** [~x] on a 32-bit word. *)
Definition not32 (x : Z) : Z := u32 (Z.lnot x).

Definition is_u8 (x : Z) : Prop := 0 ≤ x < 256.
Definition is_u16 (x : Z) : Prop := 0 ≤ x < 65536.
Definition is_u32 (x : Z) : Prop := 0 ≤ x < 4294967296.
Definition is_u64 (x : Z) : Prop := 0 ≤ x < 18446744073709551616.

Declare Scope c_scope.
Delimit Scope c_scope with c.
Notation "x ⊞ y" := (u32 (x + y)) (at level 50, left associativity) : c_scope.
Notation "x ⊟ y" := (u32 (x - y)) (at level 50, left associativity) : c_scope.
Notation "x ⊠ y" := (u32 (x * y)) (at level 40, left associativity) : c_scope.

(** The boolean value of a C condition [x != 0]. *)
Definition truthy (x : Z) : bool := negb (x =? 0).

(** ** Automation *)

#[global] Arguments Z.testbit : simpl never.

Create HintDb wrap.
Create Rewrite HintDb wrap.
Create Rewrite HintDb arr.

Lemma u8_small x : 0 ≤ x < 256 → u8 x = x.
Proof. apply Z.mod_small. Qed.
Lemma u16_small x : 0 ≤ x < 65536 → u16 x = x.
Proof. apply Z.mod_small. Qed.
Lemma u32_small x : 0 ≤ x < 4294967296 → u32 x = x.
Proof. apply Z.mod_small. Qed.
Lemma u64_small x : 0 ≤ x < 18446744073709551616 → u64 x = x.
Proof. apply Z.mod_small. Qed.

Lemma u8_range x : is_u8 (u8 x).
Proof. apply Z.mod_pos_bound; lia. Qed.
Lemma u16_range x : is_u16 (u16 x).
Proof. apply Z.mod_pos_bound; lia. Qed.
Lemma u32_range x : is_u32 (u32 x).
Proof. apply Z.mod_pos_bound; lia. Qed.
Lemma u64_range x : is_u64 (u64 x).
Proof. apply Z.mod_pos_bound; lia. Qed.

#[export] Hint Resolve u8_range u16_range u32_range u64_range : wrap.
#[export] Hint Rewrite u8_small u16_small u32_small u64_small using lia : wrap.

(** [word_lia] is [lia] after the machine-integer vocabulary is unfolded and the
    divisions and remainders are given their Euclidean equations. *)
Ltac wunfold :=
  unfold is_u8, is_u16, is_u32, is_u64, u8, u16, u32, u64, truthy in *.
Ltac word_lia := wunfold; Z.to_euclidean_division_equations; lia.

(** Turns every boolean comparison in the context into its proposition. *)
Ltac zbool :=
  repeat match goal with
  | H : (_ && _)%bool = true |- _ => apply andb_prop in H as [? ?]
  | H : (_ && _)%bool = false |- _ => apply andb_false_iff in H
  | H : (_ || _)%bool = true |- _ => apply orb_prop in H
  | H : (_ || _)%bool = false |- _ => apply orb_false_iff in H as [? ?]
  | H : negb _ = true |- _ => apply negb_true_iff in H
  | H : negb _ = false |- _ => apply negb_false_iff in H
  | H : (_ <? _) = true |- _ => apply Z.ltb_lt in H
  | H : (_ <? _) = false |- _ => apply Z.ltb_ge in H
  | H : (_ <=? _) = true |- _ => apply Z.leb_le in H
  | H : (_ <=? _) = false |- _ => apply Z.leb_gt in H
  | H : (_ =? _) = true |- _ => apply Z.eqb_eq in H
  | H : (_ =? _) = false |- _ => apply Z.eqb_neq in H
  | H : truthy _ = true |- _ => unfold truthy in H
  | H : truthy _ = false |- _ => unfold truthy in H
  end.

(** Evaluates boolean connectives and projections, and nothing else. *)
Ltac bsimpl := cbn [negb andb orb fst snd].

(** Splits on the condition of an [if] in the goal and normalises it. *)
Ltac case_if :=
  match goal with
  | |- context [if ?b then _ else _] =>
      lazymatch type of b with
      | bool => let E := fresh "E" in destruct b eqn:E; zbool
      | _ => let E := fresh "E" in destruct b as [E|E]
      end
  end.

Lemma not_in_range lo hi x : (lo <=? x) && (x <? hi) = false → x < lo ∨ hi ≤ x.
Proof. intros [?|?]%andb_false_iff; zbool; lia. Qed.

(** The same for an [if] in a hypothesis. *)
Ltac case_if_in H :=
  match type of H with
  | context [if ?b then _ else _] =>
      lazymatch type of b with
      | bool => let E := fresh "E" in destruct b eqn:E; zbool
      | _ => let E := fresh "E" in destruct b as [E|E]
      end
  end.

Lemma pair_fst {A B} (p : A * B) a : p.1 = a → p = (a, p.2).
Proof. intros <-. apply surjective_pairing. Qed.

(** ** C arrays

    A C array is the function from its indices to its cells; [<[i:=v]> a]
    (stdpp's function update) is the assignment [a[i] = v].  That an index
    stays inside the array is a theorem about the code that uses it. *)

Abbreviation carray A := (Z → A) (only parsing).

Lemma arr_get_set {A} (a : carray A) i j v :
  (<[i:=v]> a) j = if decide (i = j) then v else a j.
Proof. reflexivity. Qed.

Lemma arr_get_set_eq {A} (a : carray A) i v : (<[i:=v]> a) i = v.
Proof. apply fn_lookup_insert. Qed.

Lemma arr_get_set_ne {A} (a : carray A) i j v : i ≠ j → (<[i:=v]> a) j = a j.
Proof. apply fn_lookup_insert_ne. Qed.

#[export] Hint Rewrite @arr_get_set_eq : arr.
#[export] Hint Rewrite @arr_get_set_ne using (lia || congruence) : arr.

(** [for (i = lo; i < hi; i++) a[i] = v;] *)
Definition arr_fill {A} (lo hi : Z) (v : A) (a : carray A) : carray A :=
  λ i, if (lo <=? i) && (i <? hi) then v else a i.

(** The cells [a[off .. off+n)] as a list. *)
Definition slice {A} (a : carray A) (off : Z) (n : nat) : list A :=
  a <$> seqZ off (Z.of_nat n).

Lemma slice_length {A} (a : carray A) off n : length (slice a off n) = n.
Proof. unfold slice. rewrite length_fmap, length_seqZ. lia. Qed.

Lemma slice_lookup {A} (a : carray A) off n (i : nat) :
  (i < n)%nat → slice a off n !! i = Some (a (off + Z.of_nat i)).
Proof.
  intros. unfold slice. rewrite list_lookup_fmap, lookup_seqZ_lt by lia. done.
Qed.

Lemma slice_ext {A} (a b : carray A) off n :
  (∀ i, off ≤ i < off + Z.of_nat n → a i = b i) → slice a off n = slice b off n.
Proof.
  intros H. unfold slice. apply list_fmap_ext. intros i x Hx.
  apply lookup_seqZ in Hx as [-> ?]. apply H. lia.
Qed.

(** ** Counted loops *)

(** [for (i = lo; n-- > 0; i++) if (p(i)) return i;] *)
Fixpoint find_first (p : Z → bool) (i : Z) (n : nat) : option Z :=
  match n with
  | O => None
  | S n => if p i then Some i else find_first p (i + 1) n
  end.

(** [for (i = lo; i < hi; i++) if (p(i)) return i;] *)
Definition for_find (lo hi : Z) (p : Z → bool) : option Z :=
  find_first p lo (Z.to_nat (hi - lo)).

Fixpoint iter_from {S : Type} (f : Z → S → S) (i : Z) (n : nat) (s : S) : S :=
  match n with
  | O => s
  | Datatypes.S n => iter_from f (i + 1) n (f i s)
  end.

(** [for (i = lo; i < hi; i++) s = f(i, s);] *)
Definition for_range {S : Type} (lo hi : Z) (f : Z → S → S) (s : S) : S :=
  iter_from f lo (Z.to_nat (hi - lo)) s.

Lemma find_first_Some p i n j :
  find_first p i n = Some j →
  i ≤ j < i + Z.of_nat n ∧ p j = true ∧ ∀ k, i ≤ k < j → p k = false.
Proof.
  revert i. induction n as [|n IH]; intros i; simpl; [done|].
  destruct (p i) eqn:Hp; [intros [= <-]; split_and!; [lia..|done|intros; lia]|].
  intros (?&?&Hk)%IH. split_and!; [lia..|done|].
  intros k ?. destruct (decide (k = i)) as [->|]; [done|]. apply Hk; lia.
Qed.

Lemma find_first_None p i n :
  find_first p i n = None ↔ ∀ k, i ≤ k < i + Z.of_nat n → p k = false.
Proof.
  revert i. induction n as [|n IH]; intros i; simpl.
  - split; [intros; lia|done].
  - destruct (p i) eqn:Hp.
    + split; [done|]. intros Hk. rewrite Hk in Hp by lia. done.
    + rewrite IH. split; intros Hk k ?; [|apply Hk; lia].
      destruct (decide (k = i)) as [->|]; [done|]. apply Hk; lia.
Qed.

Lemma for_find_Some lo hi p j :
  for_find lo hi p = Some j →
  lo ≤ j < hi ∧ p j = true ∧ ∀ k, lo ≤ k < j → p k = false.
Proof.
  unfold for_find. intros (?&?&?)%find_first_Some. split_and!; [lia..|done|done].
Qed.

Lemma for_find_None lo hi p :
  for_find lo hi p = None ↔ ∀ k, lo ≤ k < hi → p k = false.
Proof.
  unfold for_find. rewrite find_first_None. split; intros H k ?; apply H; lia.
Qed.

(** A first match at a known place is what the search returns. *)
Lemma for_find_is lo hi p j :
  lo ≤ j < hi → p j = true → (∀ k, lo ≤ k < j → p k = false) →
  for_find lo hi p = Some j.
Proof.
  intros Hj Hp Hk. destruct (for_find lo hi p) as [i|] eqn:E.
  - apply for_find_Some in E as (?&Hpi&Hki).
    destruct (decide (i < j)); [rewrite Hk in Hpi by lia; done|].
    destruct (decide (j < i)); [rewrite Hki in Hp by lia; done|].
    f_equal. lia.
  - rewrite for_find_None in E. rewrite E in Hp by lia. done.
Qed.

Lemma for_find_ext lo hi p q :
  (∀ k, lo ≤ k < hi → p k = q k) → for_find lo hi p = for_find lo hi q.
Proof.
  intros H. destruct (for_find lo hi q) as [j|] eqn:E.
  - apply for_find_Some in E as (?&?&Hk). apply for_find_is; [lia|by rewrite H by lia|].
    intros k ?. rewrite H by lia. by apply Hk.
  - rewrite for_find_None in *. intros k ?. rewrite H by lia. by apply E.
Qed.

(** The loop rule: an invariant indexed by the loop counter. *)
Lemma iter_from_ind {S} (P : Z → S → Prop) f i n s :
  P i s → (∀ k s, i ≤ k < i + Z.of_nat n → P k s → P (k + 1) (f k s)) →
  P (i + Z.of_nat n) (iter_from f i n s).
Proof.
  revert i s. induction n as [|n IH]; intros i s H0 Hstep; simpl.
  - by rewrite Z.add_0_r.
  - replace (i + Z.of_nat (Datatypes.S n)) with (i + 1 + Z.of_nat n) by lia.
    apply IH; [apply Hstep; [lia|done]|]. intros; apply Hstep; [lia|done].
Qed.

Lemma for_range_ind {S} (P : Z → S → Prop) lo hi f s :
  lo ≤ hi → P lo s → (∀ k s, lo ≤ k < hi → P k s → P (k + 1) (f k s)) →
  P hi (for_range lo hi f s).
Proof.
  intros Hle H0 Hstep. unfold for_range.
  replace hi with (lo + Z.of_nat (Z.to_nat (hi - lo))) at 1 by lia.
  apply iter_from_ind; [done|]. intros; apply Hstep; [lia|done].
Qed.

(** The rule for an invariant that does not mention the counter. *)
Lemma for_range_inv {S} (P : S → Prop) lo hi f s :
  P s → (∀ k s, lo ≤ k < hi → P s → P (f k s)) → P (for_range lo hi f s).
Proof.
  intros H0 Hstep. destruct (decide (lo ≤ hi)).
  - apply (for_range_ind (λ _, P)); auto.
  - unfold for_range. replace (Z.to_nat (hi - lo)) with O by lia. done.
Qed.

Lemma for_range_ext {S} lo hi (f g : Z → S → S) s :
  (∀ k s, lo ≤ k < hi → f k s = g k s) → for_range lo hi f s = for_range lo hi g s.
Proof.
  unfold for_range. intros H. assert (∀ k s, lo ≤ k < lo + Z.of_nat (Z.to_nat (hi - lo)) → f k s = g k s) as H' by (intros; apply H; lia).
  clear H. revert H' s. generalize (Z.to_nat (hi - lo)) as n. intros n. revert lo.
  induction n as [|n IH]; intros lo H s; simpl; [done|]. rewrite H by lia. apply IH. intros; apply H; lia.
Qed.

Lemma for_range_empty {S} lo hi (f : Z → S → S) s : hi ≤ lo → for_range lo hi f s = s.
Proof. intros. unfold for_range. by replace (Z.to_nat (hi - lo)) with O by lia. Qed.

Lemma for_range_step {S} lo hi (f : Z → S → S) s :
  lo < hi → for_range lo hi f s = for_range (lo + 1) hi f (f lo s).
Proof.
  intros. unfold for_range.
  replace (Z.to_nat (hi - lo)) with (Datatypes.S (Z.to_nat (hi - (lo + 1)))) by lia.
  done.
Qed.

(** ** Counting *)

(** How many of [lo .. lo+n) satisfy [p]. *)
Fixpoint count_from (p : Z → bool) (i : Z) (n : nat) : Z :=
  match n with
  | O => 0
  | S n => (if p i then 1 else 0) + count_from p (i + 1) n
  end.

Definition count_range (lo hi : Z) (p : Z → bool) : Z :=
  count_from p lo (Z.to_nat (hi - lo)).

Lemma count_from_bounds p i n : 0 ≤ count_from p i n ≤ Z.of_nat n.
Proof. revert i. induction n as [|n IH]; intros i; simpl; [lia|]. specialize (IH (i+1)). case_match; lia. Qed.

Lemma count_range_bounds lo hi p : lo ≤ hi → 0 ≤ count_range lo hi p ≤ hi - lo.
Proof. intros. unfold count_range. pose proof (count_from_bounds p lo (Z.to_nat (hi - lo))). lia. Qed.

Lemma count_from_ext p q i n :
  (∀ k, i ≤ k < i + Z.of_nat n → p k = q k) → count_from p i n = count_from q i n.
Proof.
  revert i. induction n as [|n IH]; intros i H; simpl; [done|].
  rewrite H by lia. f_equal. apply IH. intros; apply H; lia.
Qed.

Lemma count_range_ext lo hi p q :
  (∀ k, lo ≤ k < hi → p k = q k) → count_range lo hi p = count_range lo hi q.
Proof. intros H. apply count_from_ext. intros; apply H; lia. Qed.

(** Changing the predicate at one place of the range changes the count there. *)
Lemma count_from_point p q i n j :
  i ≤ j < i + Z.of_nat n → (∀ k, k ≠ j → p k = q k) →
  count_from p i n - (if p j then 1 else 0) = count_from q i n - (if q j then 1 else 0).
Proof.
  revert i. induction n as [|n IH]; intros i Hj H; simpl in *; [lia|].
  destruct (decide (i = j)) as [->|Hne].
  - rewrite (count_from_ext p q (j + 1) n); [lia|]. intros; apply H; lia.
  - rewrite (H i) by done. specialize (IH (i + 1) ltac:(lia) H). lia.
Qed.

Lemma count_range_point lo hi p q j :
  lo ≤ j < hi → (∀ k, k ≠ j → p k = q k) →
  count_range lo hi p - (if p j then 1 else 0) = count_range lo hi q - (if q j then 1 else 0).
Proof. intros. apply count_from_point; [lia|done]. Qed.

Lemma count_range_zero lo hi p :
  count_range lo hi p = 0 ↔ ∀ k, lo ≤ k < hi → p k = false.
Proof.
  unfold count_range.
  assert (∀ n i, count_from p i n = 0 ↔ ∀ k, i ≤ k < i + Z.of_nat n → p k = false) as H.
  { induction n as [|n IH]; intros i; simpl; [split; [intros; lia|done]|].
    pose proof (count_from_bounds p (i + 1) n). destruct (p i) eqn:Hp.
    - split; [lia|]. intros Hk. rewrite Hk in Hp by lia. done.
    - rewrite Z.add_0_l, IH. split; intros Hk k ?; [|apply Hk; lia].
      destruct (decide (k = i)) as [->|]; [done|apply Hk; lia]. }
  rewrite H. split; intros Hk k ?; apply Hk; lia.
Qed.

Lemma count_range_snoc lo hi p :
  lo ≤ hi → count_range lo (hi + 1) p = count_range lo hi p + (if p hi then 1 else 0).
Proof.
  intros. unfold count_range.
  assert (∀ n i, count_from p i (S n) = count_from p i n + (if p (i + Z.of_nat n) then 1 else 0))
    as Hs.
  { induction n as [|n IH]; intros i; [simpl; rewrite !Z.add_0_r; lia|].
    change (count_from p i (S (S n))) with ((if p i then 1 else 0) + count_from p (i + 1) (S n)).
    rewrite IH. replace (i + 1 + Z.of_nat n) with (i + Z.of_nat (S n)) by lia. simpl. lia. }
  replace (Z.to_nat (hi + 1 - lo)) with (S (Z.to_nat (hi - lo))) by lia.
  rewrite Hs. by replace (lo + Z.of_nat (Z.to_nat (hi - lo))) with hi by lia.
Qed.

Lemma count_range_app lo mid hi p :
  lo ≤ mid ≤ hi → count_range lo hi p = count_range lo mid p + count_range mid hi p.
Proof.
  intros H. replace hi with (mid + Z.of_nat (Z.to_nat (hi - mid))) by lia.
  induction (Z.to_nat (hi - mid)) as [|n IH].
  - rewrite Z.add_0_r. unfold count_range at 3. rewrite Z.sub_diag. simpl. lia.
  - replace (mid + Z.of_nat (S n)) with (mid + Z.of_nat n + 1) by lia.
    rewrite !count_range_snoc by lia. rewrite IH. lia.
Qed.

Lemma count_range_all lo hi p :
  lo ≤ hi → (∀ k, lo ≤ k < hi → p k = true) → count_range lo hi p = hi - lo.
Proof.
  intros H. replace hi with (lo + Z.of_nat (Z.to_nat (hi - lo))) by lia.
  induction (Z.to_nat (hi - lo)) as [|n IH]; intros Hp.
  - rewrite Z.add_0_r. unfold count_range. rewrite Z.sub_diag. done.
  - replace (lo + Z.of_nat (S n)) with (lo + Z.of_nat n + 1) by lia.
    rewrite count_range_snoc, IH, Hp by (lia || (intros; apply Hp; lia)). lia.
Qed.

Lemma count_range_const lo hi : count_range lo hi (λ _, false) = 0.
Proof. by apply count_range_zero. Qed.

(** ** Bits of a word *)

Lemma i32_small x : -2147483648 ≤ x < 2147483648 → i32 x = x.
Proof.
  intros Hx. unfold i32, u32. destruct (Z.ltb_spec (x mod 4294967296) 2147483648);
    Z.to_euclidean_division_equations; lia.
Qed.

Lemma land_pow2 w k :
  0 ≤ k → (Z.land w (Z.shiftl 1 k) =? 0) = negb (Z.testbit w k).
Proof.
  intros Hk. rewrite Z.shiftl_1_l.
  destruct (Z.eqb_spec (Z.land w (2 ^ k)) 0) as [E|E].
  - symmetry. apply negb_true_iff.
    assert (Z.testbit (Z.land w (2 ^ k)) k = false) as Hb by (rewrite E; apply Z.bits_0).
    rewrite Z.land_spec, Z.pow2_bits_true in Hb by lia. by rewrite andb_true_r in Hb.
  - symmetry. apply negb_false_iff.
    destruct (Z.testbit w k) eqn:Hw; [done|]. exfalso. apply E.
    apply Z.bits_inj'. intros j Hj. rewrite Z.land_spec, Z.bits_0.
    destruct (decide (j = k)) as [->|]; [by rewrite Hw|].
    rewrite Z.pow2_bits_false by lia. apply andb_false_r.
Qed.

Lemma lor_pow2_bits w k j :
  0 ≤ k → Z.testbit (Z.lor w (Z.shiftl 1 k)) j = Z.testbit w j || (j =? k).
Proof.
  intros. rewrite Z.lor_spec, Z.shiftl_1_l. f_equal.
  rewrite Z.pow2_bits_eqb by lia. apply Z.eqb_sym.
Qed.

(** [w & ~(1 << k)] with the complement taken at width [W]. *)
Lemma land_notpow2_bits w k j W :
  0 ≤ k < W → 0 ≤ j < W →
  Z.testbit (Z.land w (Z.lnot (Z.shiftl 1 k) mod 2 ^ W)) j
  = Z.testbit w j && negb (j =? k).
Proof.
  intros. rewrite Z.land_spec, Z.mod_pow2_bits_low, Z.lnot_spec by lia.
  rewrite Z.shiftl_1_l, Z.pow2_bits_eqb by lia. by rewrite (Z.eqb_sym k j).
Qed.

Lemma bits_bound W w : 0 ≤ W → 0 ≤ w → (∀ j, W ≤ j → Z.testbit w j = false) → w < 2 ^ W.
Proof.
  intros HW Hw H. destruct (decide (w = 0)) as [->|]; [apply Z.pow_pos_nonneg; lia|].
  apply Z.log2_lt_pow2; [lia|]. destruct (decide (Z.log2 w < W)); [done|].
  assert (Z.testbit w (Z.log2 w) = false) as Hb by (apply H; lia).
  rewrite Z.bit_log2 in Hb by lia. done.
Qed.

Lemma testbit_above W w j : 0 ≤ w < 2 ^ W → W ≤ j → Z.testbit w j = false.
Proof.
  intros [??] ?. destruct (decide (W < 0)); [rewrite Z.pow_neg_r in *; lia|].
  destruct (decide (w = 0)) as [->|]; [apply Z.bits_0|].
  apply Z.bits_above_log2; [lia|]. pose proof (proj1 (Z.log2_lt_pow2 w W ltac:(lia))). lia.
Qed.

Lemma lor_bound W a b : 0 ≤ W → 0 ≤ a < 2 ^ W → 0 ≤ b < 2 ^ W → 0 ≤ Z.lor a b < 2 ^ W.
Proof.
  intros. split; [apply Z.lor_nonneg; lia|].
  apply bits_bound; [done|apply Z.lor_nonneg; lia|].
  intros j ?. rewrite Z.lor_spec, !(testbit_above W) by done. done.
Qed.

Lemma land_bound W a b : 0 ≤ W → 0 ≤ a < 2 ^ W → 0 ≤ b → 0 ≤ Z.land a b < 2 ^ W.
Proof.
  intros. split; [apply Z.land_nonneg; lia|].
  apply bits_bound; [done|apply Z.land_nonneg; lia|].
  intros j ?. by rewrite Z.land_spec, (testbit_above W a) by done.
Qed.

(** [(v + a - 1) & ~(a - 1)] for a power of two [a] rounds up to a multiple of [a]. *)
Lemma align_mask v k :
  0 ≤ v → 0 ≤ k < 32 → v + 2 ^ k - 1 < 4294967296 →
  Z.land (u32 (u32 (v + 2 ^ k) - 1)) (not32 (2 ^ k - 1)) = (v + 2 ^ k - 1) / 2 ^ k * 2 ^ k.
Proof.
  intros Hv Hk Hs. assert (0 < 2 ^ k) by (apply Z.pow_pos_nonneg; lia).
  assert (u32 (u32 (v + 2 ^ k) - 1) = v + 2 ^ k - 1) as ->.
  { unfold u32. rewrite Zminus_mod_idemp_l. apply Z.mod_small. lia. }
  set (x := v + 2 ^ k - 1) in *. rewrite <- Z.shiftr_div_pow2, <- Z.shiftl_mul_pow2 by lia.
  apply Z.bits_inj'. intros n Hn. rewrite Z.land_spec, Z.shiftl_spec by lia.
  unfold not32, u32. change 4294967296 with (2 ^ 32).
  destruct (decide (n < 32)).
  - rewrite Z.mod_pow2_bits_low, Z.lnot_spec by lia.
    replace (2 ^ k - 1) with (Z.ones k) by (rewrite Z.ones_equiv; lia).
    rewrite Z.testbit_ones by lia. destruct (decide (n < k)).
    + rewrite (Z.testbit_neg_r _ (n - k)) by lia.
      rewrite (proj2 (Z.leb_le 0 n)), (proj2 (Z.ltb_lt n k)) by lia. apply andb_false_r.
    + rewrite Z.shiftr_spec, Z.sub_add by lia.
      rewrite (proj2 (Z.ltb_ge n k)), andb_false_r by lia. apply andb_true_r.
  - rewrite (testbit_above 32 x) by (done || lia). simpl.
    destruct (decide (n < k)); [lia|]. rewrite Z.shiftr_spec, Z.sub_add by lia.
    by rewrite (testbit_above 32 x) by (done || lia).
Qed.
