(* ===== verification/Abi.v ===== *)
(** * Numbers shared with programs ([src/include/shared/syscall_abi.h])

    The numbers of the system calls, of their results and of the trace records, as
    far as the kernel's code uses them. *)

From S2P Require Import Prelude.

Local Open Scope Z_scope.

Definition SYS_NAME_MAX : Z := 32.

(** ** System calls *)

Definition SYS_WRITE : Z := 1.
Definition SYS_GETPID : Z := 2.
Definition SYS_YIELD : Z := 3.
Definition SYS_EXIT : Z := 4.
Definition SYS_WAITPID : Z := 5.
Definition SYS_EXEC : Z := 6.
Definition SYS_FORK : Z := 7.
Definition SYS_OPEN : Z := 8.
Definition SYS_CLOSE : Z := 9.
Definition SYS_READ : Z := 10.
Definition SYS_LSEEK : Z := 11.
Definition SYS_MKDIR : Z := 12.
Definition SYS_UNLINK : Z := 13.
Definition SYS_STAT : Z := 14.
Definition SYS_CHDIR : Z := 15.
Definition SYS_DUP : Z := 16.
Definition SYS_DUP2 : Z := 17.
Definition SYS_SLEEP : Z := 18.
Definition SYS_TICKS : Z := 19.
Definition SYS_EXECV : Z := 20.
Definition SYS_READDIR : Z := 21.
Definition SYS_PROCINFO : Z := 22.
Definition SYS_BOOTINFO : Z := 23.
Definition SYS_GETCWD : Z := 24.
Definition SYS_REINSTALL_ROOTFS : Z := 25.
Definition SYS_GETUID : Z := 26.
Definition SYS_GETGID : Z := 27.
Definition SYS_SETUID : Z := 28.
Definition SYS_SETGID : Z := 29.
Definition SYS_SETSID : Z := 30.
Definition SYS_GETTTY : Z := 31.
Definition SYS_PIPE : Z := 32.
Definition SYS_NETINFO : Z := 33.
Definition SYS_PING4 : Z := 34.
Definition SYS_TRACEINFO : Z := 35.
Definition SYS_TRACEREAD : Z := 36.

(** ** Results of a ping *)

Definition SYS_PING_OK : Z := 0.
Definition SYS_PING_ERR_TIMEOUT : Z := -1.
Definition SYS_PING_ERR_NOT_READY : Z := -3.
Definition SYS_PING_ERR_BUSY : Z := -4.
Definition SYS_PING_ERR_INVALID : Z := -5.

(** ** Trace records *)

Definition SYS_TRACE_CATEGORY_PROC : Z := 3.
Definition SYS_TRACE_CATEGORY_BLOCK : Z := 4.
Definition SYS_TRACE_CATEGORY_NET : Z := 5.
Definition SYS_TRACE_EVENT_PROC_FORK : Z := 3.
Definition SYS_TRACE_EVENT_PROC_EXEC : Z := 4.
Definition SYS_TRACE_EVENT_PROC_EXIT : Z := 5.
Definition SYS_TRACE_EVENT_PROC_PING_BLOCK : Z := 6.
Definition SYS_TRACE_EVENT_PROC_PING_WAKE : Z := 7.
Definition SYS_TRACE_EVENT_BLOCK_STORAGE : Z := 8.
Definition SYS_TRACE_EVENT_BLOCK_ROOTFS : Z := 9.
Definition SYS_TRACE_EVENT_NET_READY : Z := 10.
Definition SYS_TRACE_EVENT_NET_ARP : Z := 11.
Definition SYS_TRACE_EVENT_NET_PING_START : Z := 12.
Definition SYS_TRACE_EVENT_NET_PING_REPLY : Z := 13.
Definition SYS_TRACE_EVENT_NET_PING_TIMEOUT : Z := 14.
