(* ===== verification/Bitmap.v ===== *)
(** * Bitmaps stored in arrays of machine words

    [palloc.c] keeps one bit per page frame in 32-bit words, [simplefs.c] one
    bit per inode and per block in bytes, [kstack.c] one bit per stack slot in
    bytes.  This file has the word-level operations they share, for any width
    [W], and their specification as a set of indices. *)

From S2P Require Import Prelude.

Local Open Scope Z_scope.

Create HintDb bitmap.
Create Rewrite HintDb bitmap.

Section bitmap.
Context (W : Z) (HW : 0 < W).
Implicit Types (bm : carray Z) (i j : Z).

Definition bm_test bm i : bool := truthy (Z.land (bm (i / W)) (Z.shiftl 1 (i mod W))).

Definition bm_set bm i : carray Z :=
  <[i / W := Z.lor (bm (i / W)) (Z.shiftl 1 (i mod W))]> bm.

Definition bm_clear bm i : carray Z :=
  <[i / W := Z.land (bm (i / W)) (Z.lnot (Z.shiftl 1 (i mod W)) mod 2 ^ W)]> bm.

(** Every word of the array fits its width. *)
Definition bm_wf bm : Prop := ∀ w, 0 ≤ bm w < 2 ^ W.

Lemma bm_test_bit bm i : bm_test bm i = Z.testbit (bm (i / W)) (i mod W).
Proof using HW.
  unfold bm_test, truthy. rewrite land_pow2 by (apply Z.mod_pos_bound; lia).
  apply negb_involutive.
Qed.

Lemma same_word_other_bit i j : i ≠ j → i / W = j / W → i mod W ≠ j mod W.
Proof using HW. intros Hne Hd Hm. apply Hne. rewrite (Z.div_mod i W), (Z.div_mod j W) by lia. lia. Qed.

Lemma bm_test_set bm i j : bm_test (bm_set bm i) j = bm_test bm j || (i =? j).
Proof using HW.
  rewrite !bm_test_bit. unfold bm_set. rewrite arr_get_set.
  assert (0 ≤ i mod W) by (apply Z.mod_pos_bound; lia).
  destruct (Z.eqb_spec i j) as [->|Hne].
  - rewrite decide_True, lor_pow2_bits, Z.eqb_refl by done. done.
  - rewrite orb_false_r. case_decide as E; [|done].
    rewrite lor_pow2_bits, E by done. pose proof (same_word_other_bit i j Hne E).
    rewrite (proj2 (Z.eqb_neq _ _)) by lia. by rewrite orb_false_r.
Qed.

Lemma bm_test_clear bm i j : bm_test (bm_clear bm i) j = bm_test bm j && negb (i =? j).
Proof using HW.
  rewrite !bm_test_bit. unfold bm_clear. rewrite arr_get_set.
  assert (0 ≤ i mod W < W) by (apply Z.mod_pos_bound; lia).
  assert (0 ≤ j mod W < W) by (apply Z.mod_pos_bound; lia).
  destruct (Z.eqb_spec i j) as [->|Hne].
  - rewrite decide_True, land_notpow2_bits, Z.eqb_refl by done. done.
  - simpl. rewrite andb_true_r. case_decide as E; [|done].
    rewrite land_notpow2_bits, E by done. pose proof (same_word_other_bit i j Hne E).
    rewrite (proj2 (Z.eqb_neq _ _)) by lia. by rewrite andb_true_r.
Qed.

Lemma bm_set_wf bm i : bm_wf bm → bm_wf (bm_set bm i).
Proof using HW.
  intros H w. unfold bm_set. rewrite arr_get_set. case_decide; [|apply H].
  assert (0 ≤ i mod W < W) by (apply Z.mod_pos_bound; lia).
  apply lor_bound; [lia|apply H|]. rewrite Z.shiftl_1_l. split; [lia|].
  apply Z.pow_lt_mono_r; lia.
Qed.

Lemma bm_clear_wf bm i : bm_wf bm → bm_wf (bm_clear bm i).
Proof using HW.
  intros H w. unfold bm_clear. rewrite arr_get_set. case_decide; [|apply H].
  apply land_bound; [lia|apply H|]. apply Z.mod_pos_bound. apply Z.pow_pos_nonneg; lia.
Qed.

(** All bits set. *)
Lemma bm_test_ones bm i : bm (i / W) = 2 ^ W - 1 → bm_test bm i = true.
Proof using HW.
  intros H. rewrite bm_test_bit, H.
  assert (0 ≤ i mod W < W) by (apply Z.mod_pos_bound; lia).
  replace (2 ^ W - 1) with (Z.ones W) by (rewrite Z.ones_equiv; lia).
  apply Z.ones_spec_low. lia.
Qed.

End bitmap.

#[export] Hint Rewrite bm_test_set bm_test_clear using lia : bitmap.
#[export] Hint Resolve bm_set_wf bm_clear_wf : bitmap.
