(* ===== verification/Mem.v ===== *)
(** * Byte-addressed memory and packed little-endian structures

    Physical memory, disk blocks, packets and ELF images are byte arrays
    ([carray Z]); a field of a packed C structure is a little-endian load or
    store at its offset. *)

From S2P Require Import Prelude.

Local Open Scope Z_scope.

Create HintDb mem.

Section mem.
Implicit Types (m : carray Z) (a b v : Z).

(** The [n]-byte little-endian integer at [a]. *)
Fixpoint load_le (n : nat) m a : Z :=
  match n with
  | O => 0
  | S n => m a + 256 * load_le n m (a + 1)
  end.

Fixpoint store_le (n : nat) m a v : carray Z :=
  match n with
  | O => m
  | S n => store_le n (<[a := v mod 256]> m) (a + 1) (v / 256)
  end.

Definition load8 m a := m a.
Definition load16 := load_le 2.
Definition load32 := load_le 4.
Definition load64 := load_le 8.
Definition store32 := store_le 4.

(** [memcpy]-style loops: [n] bytes of [src] from [s] to [dst] at [d]. *)
Definition copy_bytes (dst : carray Z) (d : Z) (src : carray Z) (s n : Z) : carray Z :=
  λ i, if (d <=? i) && (i <? d + n) then src (s + (i - d)) else dst i.

Definition zero_bytes (dst : carray Z) (d n : Z) : carray Z := arr_fill d (d + n) 0 dst.

Definition bytes_wf m : Prop := ∀ a, is_u8 (m a).

Lemma store_le_other n m a v b : b < a ∨ a + Z.of_nat n ≤ b → store_le n m a v b = m b.
Proof.
  revert m a v. induction n as [|n IH]; intros m a v H; simpl; [done|].
  rewrite IH by lia. rewrite arr_get_set_ne by lia. done.
Qed.

(** A store decides its own bytes and keeps the others. *)
Lemma store_le_agree n m m' a v b : m b = m' b → store_le n m a v b = store_le n m' a v b.
Proof.
  revert m m' a v. induction n as [|n IH]; intros m m' a v H; simpl; [done|].
  apply IH. rewrite !arr_get_set. by case_decide.
Qed.

Lemma load_le_ext n m m' a :
  (∀ b, a ≤ b < a + Z.of_nat n → m b = m' b) → load_le n m a = load_le n m' a.
Proof.
  revert a. induction n as [|n IH]; intros a H; simpl; [done|].
  rewrite H by lia. f_equal. f_equal. apply IH. intros; apply H; lia.
Qed.

Lemma load_store_le_same n m a v :
  load_le n (store_le n m a v) a = v mod 2 ^ (8 * Z.of_nat n).
Proof.
  revert m a v. induction n as [|n IH]; intros m a v; simpl load_le; simpl store_le.
  - by rewrite Z.mod_1_r.
  - rewrite IH, store_le_other, arr_get_set_eq by lia.
    replace (8 * Z.of_nat (S n)) with (8 + 8 * Z.of_nat n) by lia.
    rewrite Z.pow_add_r by lia. change (2 ^ 8) with 256.
    rewrite Z.rem_mul_r; [lia|lia|apply Z.pow_pos_nonneg; lia].
Qed.

Lemma load_store_le_disj n k m a b v :
  b + Z.of_nat k ≤ a ∨ a + Z.of_nat n ≤ b → load_le k (store_le n m a v) b = load_le k m b.
Proof. intros. apply load_le_ext. intros. apply store_le_other. lia. Qed.

Lemma store_le_wf n m a v : bytes_wf m → bytes_wf (store_le n m a v).
Proof.
  revert m a v. induction n as [|n IH]; intros m a v H; simpl; [done|].
  apply IH. intros i. rewrite arr_get_set. case_decide; [apply u8_range|apply H].
Qed.

Lemma insert_wf m a v : bytes_wf m → is_u8 v → bytes_wf (<[a := v]> m).
Proof. intros H Hv i. rewrite arr_get_set. case_decide; [done|apply H]. Qed.

Lemma load_le_range n m a : bytes_wf m → 0 ≤ load_le n m a < 2 ^ (8 * Z.of_nat n).
Proof.
  intros H. revert a. induction n as [|n IH]; intros a; simpl load_le; [done|].
  specialize (IH (a + 1)). specialize (H a). unfold is_u8 in H.
  replace (8 * Z.of_nat (S n)) with (8 + 8 * Z.of_nat n) by lia.
  rewrite Z.pow_add_r by lia. change (2 ^ 8) with 256. lia.
Qed.

Lemma load32_range m a : bytes_wf m → is_u32 (load32 m a).
Proof. apply (load_le_range 4). Qed.
Lemma load64_range m a : bytes_wf m → is_u64 (load64 m a).
Proof. apply (load_le_range 8). Qed.

Lemma load32_store32_same m a v : is_u32 v → load32 (store32 m a v) a = v.
Proof.
  intros. unfold load32, store32. rewrite load_store_le_same.
  apply Z.mod_small. done.
Qed.

Lemma load32_store32_disj m a b v :
  b + 4 ≤ a ∨ a + 4 ≤ b → load32 (store32 m a v) b = load32 m b.
Proof. intros. apply load_store_le_disj. lia. Qed.

Lemma store32_other m a v b : b < a ∨ a + 4 ≤ b → store32 m a v b = m b.
Proof. intros. apply store_le_other. lia. Qed.

Lemma store32_agree m m' a v b : m b = m' b → store32 m a v b = store32 m' a v b.
Proof. apply store_le_agree. Qed.

Lemma load32_ext m m' a :
  (∀ b, a ≤ b < a + 4 → m b = m' b) → load32 m a = load32 m' a.
Proof. intros H. apply (load_le_ext 4). intros; apply H; lia. Qed.

Lemma copy_bytes_in dst d src s n i :
  d ≤ i < d + n → copy_bytes dst d src s n i = src (s + (i - d)).
Proof. intros. unfold copy_bytes. case_if; [done|lia]. Qed.

Lemma copy_bytes_out dst d src s n i :
  i < d ∨ d + n ≤ i → copy_bytes dst d src s n i = dst i.
Proof. intros. unfold copy_bytes. case_if; [lia|done]. Qed.

Lemma copy_bytes_wf dst d src s n :
  bytes_wf dst → bytes_wf src → bytes_wf (copy_bytes dst d src s n).
Proof. intros H1 H2 i. unfold copy_bytes. case_if; auto. Qed.

Lemma zero_bytes_in dst d n i : d ≤ i < d + n → zero_bytes dst d n i = 0.
Proof. intros. unfold zero_bytes, arr_fill. case_if; [done|lia]. Qed.

Lemma zero_bytes_out dst d n i : i < d ∨ d + n ≤ i → zero_bytes dst d n i = dst i.
Proof. intros. unfold zero_bytes, arr_fill. case_if; [lia|done]. Qed.

Lemma zero_bytes_wf dst d n : bytes_wf dst → bytes_wf (zero_bytes dst d n).
Proof. intros H i. unfold zero_bytes, arr_fill. case_if; [done|auto]. Qed.

Lemma load_le_zero n m a : (∀ b, a ≤ b < a + Z.of_nat n → m b = 0) → load_le n m a = 0.
Proof.
  revert a. induction n as [|n IH]; intros a H; simpl; [done|].
  rewrite H, IH; [done|intros; apply H; lia|lia].
Qed.

End mem.

#[export] Hint Resolve store_le_wf copy_bytes_wf zero_bytes_wf : mem.
