(* ===== verification/Palloc.v ===== *)
(** * The physical page allocator ([src/kernel/palloc.c])

    One bit per 4 KiB frame of the 4 GiB physical address space says whether the
    frame is in use; a 16-bit reference count per frame lets copy-on-write
    mappings share a frame.  [palloc] is the file's static state, one definition
    per function of the file.  The multiboot structures are read from physical
    memory ([mem]), as the code does before paging is enabled. *)

From S2P Require Import Prelude Bitmap Mem.

Local Open Scope Z_scope.
Local Open Scope c_scope.

Definition PAGE_SIZE : Z := 4096.
Definition MAX_PHYSICAL_BYTES : Z := 4294967296.
Definition MAX_PAGE_FRAMES : Z := MAX_PHYSICAL_BYTES / PAGE_SIZE.
Definition BITMAP_WORD_BITS : Z := 32.
Definition BITMAP_WORDS : Z := MAX_PAGE_FRAMES / BITMAP_WORD_BITS.

Definition MULTIBOOT_INFO_MEMORY : Z := 1.
Definition MULTIBOOT_INFO_CMDLINE : Z := 4.
Definition MULTIBOOT_INFO_MODS : Z := 8.
Definition MULTIBOOT_INFO_MMAP : Z := 64.
Definition MULTIBOOT_INFO_FRAMEBUFFER : Z := 4096.
Definition MULTIBOOT_MEMORY_AVAILABLE : Z := 1.
Definition sizeof_multiboot_info : Z := 116.
Definition sizeof_multiboot_module : Z := 16.

(** The [rgb] case of [color_info]. *)
Record rgb_info := {
  red_field_position : Z; red_mask_size : Z;
  green_field_position : Z; green_mask_size : Z;
  blue_field_position : Z; blue_mask_size : Z;
}.

Definition no_rgb : rgb_info :=
  {| red_field_position := 0; red_mask_size := 0; green_field_position := 0; green_mask_size := 0;
     blue_field_position := 0; blue_mask_size := 0 |}.

(** The fields of [multiboot_info_t] the kernel reads, and its address. *)
Record multiboot_info := {
  mb_address : Z;
  flags : Z;
  mem_upper : Z;
  cmdline : Z;
  mods_count : Z;
  mods_addr : Z;
  mmap_length : Z;
  mmap_addr : Z;
  framebuffer_addr : Z;
  framebuffer_pitch : Z;
  framebuffer_width : Z;
  framebuffer_height : Z;
  framebuffer_bpp : Z;
  framebuffer_type : Z;
  framebuffer_rgb : rgb_info;
}.

Record palloc := {
  frame_bitmap : carray Z;
  frame_refcounts : carray Z;
  first_unusable_frame : Z;
  total_usable_frames : Z;
  free_frames : Z;
  next_search_frame : Z;
}.

Definition with_bitmap (f : carray Z → carray Z) (st : palloc) : palloc :=
  {| frame_bitmap := f (frame_bitmap st); frame_refcounts := frame_refcounts st;
     first_unusable_frame := first_unusable_frame st;
     total_usable_frames := total_usable_frames st;
     free_frames := free_frames st; next_search_frame := next_search_frame st |}.
Definition with_refcount (frame v : Z) (st : palloc) : palloc :=
  {| frame_bitmap := frame_bitmap st; frame_refcounts := <[frame := v]> (frame_refcounts st);
     first_unusable_frame := first_unusable_frame st;
     total_usable_frames := total_usable_frames st;
     free_frames := free_frames st; next_search_frame := next_search_frame st |}.
Definition with_first_unusable (v : Z) (st : palloc) : palloc :=
  {| frame_bitmap := frame_bitmap st; frame_refcounts := frame_refcounts st;
     first_unusable_frame := v; total_usable_frames := total_usable_frames st;
     free_frames := free_frames st; next_search_frame := next_search_frame st |}.
Definition with_total_usable (v : Z) (st : palloc) : palloc :=
  {| frame_bitmap := frame_bitmap st; frame_refcounts := frame_refcounts st;
     first_unusable_frame := first_unusable_frame st; total_usable_frames := v;
     free_frames := free_frames st; next_search_frame := next_search_frame st |}.
Definition with_free_frames (v : Z) (st : palloc) : palloc :=
  {| frame_bitmap := frame_bitmap st; frame_refcounts := frame_refcounts st;
     first_unusable_frame := first_unusable_frame st;
     total_usable_frames := total_usable_frames st;
     free_frames := v; next_search_frame := next_search_frame st |}.
Definition with_next_search (v : Z) (st : palloc) : palloc :=
  {| frame_bitmap := frame_bitmap st; frame_refcounts := frame_refcounts st;
     first_unusable_frame := first_unusable_frame st;
     total_usable_frames := total_usable_frames st;
     free_frames := free_frames st; next_search_frame := v |}.

(** ** Frame bits *)

Definition frame_word_index (frame : Z) : Z := frame / BITMAP_WORD_BITS.
Definition frame_bit_mask (frame : Z) : Z := Z.shiftl 1 (frame mod BITMAP_WORD_BITS).

Definition frame_is_used (st : palloc) (frame : Z) : bool :=
  truthy (Z.land (frame_bitmap st (frame_word_index frame)) (frame_bit_mask frame)).

Definition mark_frame_used (frame : Z) : palloc → palloc :=
  with_bitmap (λ bm, <[frame_word_index frame :=
    Z.lor (bm (frame_word_index frame)) (frame_bit_mask frame)]> bm).

Definition mark_frame_free (frame : Z) : palloc → palloc :=
  with_bitmap (λ bm, <[frame_word_index frame :=
    Z.land (bm (frame_word_index frame)) (not32 (frame_bit_mask frame))]> bm).

(** ** Ranges *)

Definition clip_range_end (e : Z) : Z :=
  if MAX_PHYSICAL_BYTES <? e then MAX_PHYSICAL_BYTES else e.

Definition align_up_to_page (address : Z) : Z :=
  u32 (u64 (address + PAGE_SIZE - 1) / PAGE_SIZE).
Definition align_down_to_page (address : Z) : Z := u32 (address / PAGE_SIZE).

Definition free_frame_if_used (frame : Z) (st : palloc) : palloc :=
  if frame_is_used st frame then
    let st := with_refcount frame 0 (mark_frame_free frame st) in
    with_free_frames (free_frames st ⊞ 1) st
  else st.

Definition free_range (start e : Z) (st : palloc) : palloc :=
  let first_frame := align_up_to_page start in
  let last_frame := align_down_to_page (clip_range_end e) in
  let st := if first_unusable_frame st <? last_frame
            then with_first_unusable last_frame st else st in
  for_range first_frame last_frame free_frame_if_used st.

Definition reserve_frame_if_free (frame : Z) (st : palloc) : palloc :=
  if negb (frame_is_used st frame) then
    let st := with_refcount frame 1 (mark_frame_used frame st) in
    with_free_frames (free_frames st ⊟ 1) st
  else st.

Definition reserve_range (start e : Z) (st : palloc) : palloc :=
  let first_frame := align_down_to_page start in
  let last_frame := align_up_to_page (clip_range_end e) in
  let last_frame := if first_unusable_frame st <? last_frame
                    then first_unusable_frame st else last_frame in
  for_range first_frame last_frame reserve_frame_if_free st.

Definition reserve_module (mem : carray Z) (mods : Z) (index : Z) (st : palloc) : palloc :=
  let m := mods + sizeof_multiboot_module * index in
  let st := reserve_range (load32 mem m) (load32 mem (m + 4)) st in
  let module_cmdline := load32 mem (m + 8) in
  if truthy module_cmdline
  then reserve_range module_cmdline (module_cmdline ⊞ 256) st else st.

Definition reserve_boot_structures (mem : carray Z) (info : multiboot_info)
    (st : palloc) : palloc :=
  let st := reserve_range (mb_address info) (mb_address info ⊞ sizeof_multiboot_info) st in
  let st := if truthy (Z.land (flags info) MULTIBOOT_INFO_MMAP)
            then reserve_range (mmap_addr info) (mmap_addr info ⊞ mmap_length info) st
            else st in
  let st := if truthy (Z.land (flags info) MULTIBOOT_INFO_CMDLINE) && truthy (cmdline info)
            then reserve_range (cmdline info) (cmdline info ⊞ 256) st else st in
  let st := if truthy (Z.land (flags info) MULTIBOOT_INFO_FRAMEBUFFER)
               && truthy (framebuffer_addr info) && truthy (framebuffer_pitch info)
               && truthy (framebuffer_height info)
            then reserve_range (framebuffer_addr info)
                   (u64 (framebuffer_addr info
                         + u64 (framebuffer_pitch info * framebuffer_height info))) st
            else st in
  if negb (truthy (Z.land (flags info) MULTIBOOT_INFO_MODS)) || (mods_count info =? 0)
  then st
  else
    let st := reserve_range (mods_addr info)
                (mods_addr info ⊞ (mods_count info ⊠ sizeof_multiboot_module)) st in
    for_range 0 (mods_count info) (reserve_module mem (mods_addr info)) st.

(** The walk over the multiboot memory map: entries are [size] (4 bytes, not
    counting itself), [addr], [len] (8 bytes each) and [type].  [None] means the
    fuel ran out. *)
Fixpoint free_memory_map (fuel : nat) (mem : carray Z) (entry e : Z) (st : palloc)
    : option palloc :=
  if entry <? e then
    match fuel with
    | O => None
    | S fuel =>
        let addr := load64 mem (entry + 4) in
        let len := load64 mem (entry + 12) in
        let st := if load32 mem (entry + 20) =? MULTIBOOT_MEMORY_AVAILABLE
                  then free_range addr (u64 (addr + len)) st else st in
        free_memory_map fuel mem (entry ⊞ load32 mem entry ⊞ 4) e st
    end
  else Some st.

Definition palloc_init (fuel : nat) (mem : carray Z) (info : multiboot_info)
    (kernel_start kernel_end : Z) (st : palloc) : option palloc :=
  let st := {| frame_bitmap := arr_fill 0 BITMAP_WORDS 4294967295 (frame_bitmap st);
               frame_refcounts := arr_fill 0 MAX_PAGE_FRAMES 1 (frame_refcounts st);
               first_unusable_frame := 0; total_usable_frames := 0;
               free_frames := 0; next_search_frame := 0 |} in
  let freed :=
    if truthy (Z.land (flags info) MULTIBOOT_INFO_MMAP) then
      free_memory_map fuel mem (mmap_addr info) (mmap_addr info ⊞ mmap_length info) st
    else if truthy (Z.land (flags info) MULTIBOOT_INFO_MEMORY) then
      Some (free_range 1048576 (u64 (1048576 + u64 (mem_upper info * 1024))) st)
    else Some st in
  match freed with
  | None => None
  | Some st =>
      let st := with_total_usable (free_frames st) st in
      let st := reserve_range 0 1048576 st in
      let st := reserve_range kernel_start kernel_end st in
      let st := reserve_boot_structures mem info st in
      Some (with_next_search (align_up_to_page kernel_end) st)
  end.

(** ** Allocation *)

Definition take_frame (frame : Z) (st : palloc) : palloc :=
  let st := with_refcount frame 1 (mark_frame_used frame st) in
  let st := with_free_frames (free_frames st ⊟ 1) st in
  with_next_search (frame ⊞ 1) st.

Definition palloc_alloc_page (st : palloc) : Z * palloc :=
  match for_find (next_search_frame st) (first_unusable_frame st)
          (λ frame, negb (frame_is_used st frame)) with
  | Some frame => (frame ⊠ PAGE_SIZE, take_frame frame st)
  | None =>
      match for_find 0 (next_search_frame st)
              (λ frame, negb (frame_is_used st frame)) with
      | Some frame => (frame ⊠ PAGE_SIZE, take_frame frame st)
      | None => (0, st)
      end
  end.

(** One of the two outer loops of [palloc_alloc_pages]: the inner loop leaves
    [start] on the used frame that broke the run, and the outer loop's increment
    moves past it. *)
Fixpoint find_run (fuel : nat) (st : palloc) (page_count start limit : Z) : option Z :=
  match fuel with
  | O => None
  | S fuel =>
      if start <=? limit then
        match for_find 0 page_count (λ count, frame_is_used st (start ⊞ count)) with
        | Some count => find_run fuel st page_count (start ⊞ count ⊞ 1) limit
        | None => Some start
        end
      else None
  end.

Definition find_run_from (st : palloc) (page_count start limit : Z) : option Z :=
  find_run (Z.to_nat (limit - start + 1)) st page_count start limit.

Definition take_run (start page_count : Z) (st : palloc) : palloc :=
  let st := for_range 0 page_count
              (λ count st, with_refcount (start ⊞ count) 1
                             (mark_frame_used (start ⊞ count) st)) st in
  let st := with_free_frames (free_frames st ⊟ page_count) st in
  with_next_search (start ⊞ page_count) st.

Definition palloc_alloc_pages (page_count : Z) (st : palloc) : Z * palloc :=
  if page_count =? 0 then (0, st)
  else if page_count =? 1 then palloc_alloc_page st
  else if (first_unusable_frame st <? page_count) || (free_frames st <? page_count)
  then (0, st)
  else
    let first := if page_count <=? first_unusable_frame st
                 then find_run_from st page_count (next_search_frame st)
                        (first_unusable_frame st - page_count)
                 else None in
    match first with
    | Some start => (start ⊠ PAGE_SIZE, take_run start page_count st)
    | None =>
        let second := if page_count <=? next_search_frame st
                      then find_run_from st page_count 0
                             (next_search_frame st - page_count)
                      else None in
        match second with
        | Some start => (start ⊠ PAGE_SIZE, take_run start page_count st)
        | None => (0, st)
        end
    end.

(** ** Reference counts *)

Definition palloc_retain_page (physical_address : Z) (st : palloc) : Z * palloc :=
  if truthy (physical_address mod PAGE_SIZE) then (-1, st)
  else
    let frame := physical_address / PAGE_SIZE in
    if first_unusable_frame st <=? frame then (-1, st)
    else if negb (frame_is_used st frame) || (frame_refcounts st frame =? 0) then (-1, st)
    else (0, with_refcount frame (u16 (frame_refcounts st frame + 1)) st).

Definition palloc_free_page (physical_address : Z) (st : palloc) : palloc :=
  if truthy (physical_address mod PAGE_SIZE) then st
  else
    let frame := physical_address / PAGE_SIZE in
    if first_unusable_frame st <=? frame then st
    else if negb (frame_is_used st frame) || (frame_refcounts st frame =? 0) then st
    else
      let st := with_refcount frame (u16 (frame_refcounts st frame - 1)) st in
      if truthy (frame_refcounts st frame) then st
      else
        let st := mark_frame_free frame st in
        let st := with_free_frames (free_frames st ⊞ 1) st in
        if frame <? next_search_frame st then with_next_search frame st else st.

Definition palloc_free_pages_range (physical_address page_count : Z) (st : palloc) : palloc :=
  if truthy (physical_address mod PAGE_SIZE) then st
  else for_range 0 page_count
         (λ index, palloc_free_page (physical_address ⊞ (index ⊠ PAGE_SIZE))) st.

Definition palloc_page_refcount (physical_address : Z) (st : palloc) : Z :=
  if truthy (physical_address mod PAGE_SIZE) then 0
  else
    let frame := physical_address / PAGE_SIZE in
    if (first_unusable_frame st <=? frame) || negb (frame_is_used st frame) then 0
    else frame_refcounts st frame.

Definition palloc_total_usable_pages (st : palloc) : Z := total_usable_frames st.
Definition palloc_free_pages (st : palloc) : Z := free_frames st.
Definition palloc_managed_bytes (st : palloc) : Z := first_unusable_frame st ⊠ PAGE_SIZE.

(** ** The invariant *)

Definition frame_free (st : palloc) (frame : Z) : bool := negb (frame_is_used st frame).

(** The reference count of a frame as its clients see it: 0 for a free frame. *)
Definition frame_refs (st : palloc) (frame : Z) : Z :=
  if frame_is_used st frame then frame_refcounts st frame else 0.

Record palloc_inv (st : palloc) : Prop := {
  inv_words : bm_wf 32 (frame_bitmap st);
  inv_limit : 0 ≤ first_unusable_frame st ≤ MAX_PAGE_FRAMES;
  inv_search : 0 ≤ next_search_frame st ≤ MAX_PAGE_FRAMES;
  inv_above : ∀ f, first_unusable_frame st ≤ f < MAX_PAGE_FRAMES → frame_is_used st f = true;
  inv_count : free_frames st = count_range 0 MAX_PAGE_FRAMES (frame_free st);
  inv_refs : ∀ f, 0 ≤ f < MAX_PAGE_FRAMES →
    if frame_is_used st f then 1 ≤ frame_refcounts st f < 65536
    else frame_refcounts st f = 0;
}.

(** Frame 0 is never handed out: address 0 is the failure value. *)
Definition palloc_ok (st : palloc) : Prop := palloc_inv st ∧ frame_is_used st 0 = true.

(** One step of a client of the allocator that keeps to three rules which the code does not
    check: it retains a page only below the 16-bit ceiling of its count
    ([palloc_retain_wraps] shows the wrap at the ceiling), it never frees physical address 0,
    and it frees ranges that end at or below 4 GiB. *)
Inductive palloc_step : palloc → palloc → Prop :=
| step_alloc_page st : palloc_step st (palloc_alloc_page st).2
| step_alloc_pages n st : is_u32 n → palloc_step st (palloc_alloc_pages n st).2
| step_retain pa st :
    is_u32 pa → frame_refs st (pa / PAGE_SIZE) < 65535 →
    palloc_step st (palloc_retain_page pa st).2
| step_free pa st : is_u32 pa → pa ≠ 0 → palloc_step st (palloc_free_page pa st)
| step_free_range pa n st :
    is_u32 pa → pa ≠ 0 → 0 ≤ n → pa + n * PAGE_SIZE ≤ MAX_PHYSICAL_BYTES →
    palloc_step st (palloc_free_pages_range pa n st).

(** ** Lemmas *)

Create Rewrite HintDb palloc.

Lemma MAX_PAGE_FRAMES_val : MAX_PAGE_FRAMES = 1048576.
Proof. reflexivity. Qed.

Lemma used_mark_used st f g :
  frame_is_used (mark_frame_used f st) g = frame_is_used st g || (f =? g).
Proof. apply (bm_test_set 32). lia. Qed.

Lemma used_mark_free st f g :
  frame_is_used (mark_frame_free f st) g = frame_is_used st g && negb (f =? g).
Proof. apply (bm_test_clear 32). lia. Qed.

Lemma used_with_refcount f v st g : frame_is_used (with_refcount f v st) g = frame_is_used st g.
Proof. reflexivity. Qed.
Lemma used_with_free_frames v st g : frame_is_used (with_free_frames v st) g = frame_is_used st g.
Proof. reflexivity. Qed.
Lemma used_with_next_search v st g : frame_is_used (with_next_search v st) g = frame_is_used st g.
Proof. reflexivity. Qed.
Lemma used_with_first_unusable v st g :
  frame_is_used (with_first_unusable v st) g = frame_is_used st g.
Proof. reflexivity. Qed.

#[export] Hint Rewrite used_mark_used used_mark_free used_with_refcount used_with_free_frames
  used_with_next_search used_with_first_unusable : palloc.

Lemma mark_used_wf f st : bm_wf 32 (frame_bitmap st) → bm_wf 32 (frame_bitmap (mark_frame_used f st)).
Proof. apply (bm_set_wf 32). lia. Qed.
Lemma mark_free_wf f st : bm_wf 32 (frame_bitmap st) → bm_wf 32 (frame_bitmap (mark_frame_free f st)).
Proof. apply (bm_clear_wf 32). lia. Qed.

(** The count of free frames after one frame changes hands. *)
Lemma free_count_mark_used f st :
  0 ≤ f < MAX_PAGE_FRAMES → frame_is_used st f = false →
  count_range 0 MAX_PAGE_FRAMES (frame_free (mark_frame_used f st))
  = count_range 0 MAX_PAGE_FRAMES (frame_free st) - 1.
Proof.
  intros Hf Hu.
  pose proof (count_range_point 0 MAX_PAGE_FRAMES (frame_free (mark_frame_used f st))
                (frame_free st) f Hf) as H.
  unfold frame_free in *. rewrite used_mark_used, Hu, Z.eqb_refl in H. simpl in H.
  rewrite Z.sub_0_r in H. apply H. intros k ?.
  rewrite used_mark_used, (proj2 (Z.eqb_neq f k)), orb_false_r by done. done.
Qed.

Lemma free_count_mark_free f st :
  0 ≤ f < MAX_PAGE_FRAMES → frame_is_used st f = true →
  count_range 0 MAX_PAGE_FRAMES (frame_free (mark_frame_free f st))
  = count_range 0 MAX_PAGE_FRAMES (frame_free st) + 1.
Proof.
  intros Hf Hu.
  pose proof (count_range_point 0 MAX_PAGE_FRAMES (frame_free (mark_frame_free f st))
                (frame_free st) f Hf) as H.
  unfold frame_free in *. rewrite used_mark_free, Hu, Z.eqb_refl in H. simpl in H.
  rewrite Z.sub_0_r in H. rewrite <- H; [lia|]. intros k ?.
  rewrite used_mark_free, (proj2 (Z.eqb_neq f k)), andb_true_r by done. done.
Qed.

Lemma free_count_bounds st : 0 ≤ count_range 0 MAX_PAGE_FRAMES (frame_free st) ≤ MAX_PAGE_FRAMES.
Proof. rewrite <- (Z.sub_0_r MAX_PAGE_FRAMES) at 3. by apply count_range_bounds. Qed.

(** Claiming a free frame below the limit, as [palloc_alloc_page] and
    [reserve_range] do. *)
Definition claim_frame (f : Z) (st : palloc) : palloc :=
  with_free_frames (free_frames st ⊟ 1) (with_refcount f 1 (mark_frame_used f st)).

Lemma claim_frame_inv f st :
  palloc_inv st → 0 ≤ f < first_unusable_frame st → frame_is_used st f = false →
  palloc_inv (claim_frame f st) ∧ free_frames (claim_frame f st) = free_frames st - 1.
Proof.
  intros [Hw Hl Hs Ha Hc Hr] Hf Hu.
  pose proof (free_count_mark_used f st ltac:(lia) Hu) as Hcount.
  pose proof (free_count_bounds (mark_frame_used f st)). pose proof MAX_PAGE_FRAMES_val.
  assert (u32 (free_frames st - 1) = free_frames st - 1) as Hw32 by (apply u32_small; lia).
  split; [|done]. constructor; simpl; [by apply mark_used_wf|done|done|..].
  - intros g ?. unfold claim_frame. autorewrite with palloc. rewrite Ha by lia. done.
  - rewrite Hw32, Hc. symmetry. etrans; [|exact Hcount]. done.
  - intros g ?. unfold claim_frame. autorewrite with palloc. rewrite arr_get_set.
    specialize (Hr g ltac:(lia)). destruct (Z.eqb_spec f g) as [->|].
    + rewrite orb_true_r, decide_True by done. lia.
    + rewrite orb_false_r, decide_False by done. done.
Qed.

(** Releasing a used frame, as [palloc_free_page] and [free_range] do. *)
Definition release_frame (f : Z) (st : palloc) : palloc :=
  with_free_frames (free_frames st ⊞ 1) (with_refcount f 0 (mark_frame_free f st)).

Lemma release_frame_inv f st :
  palloc_inv st → 0 ≤ f < first_unusable_frame st → frame_is_used st f = true →
  palloc_inv (release_frame f st) ∧ free_frames (release_frame f st) = free_frames st + 1.
Proof.
  intros [Hw Hl Hs Ha Hc Hr] Hf Hu.
  pose proof (free_count_mark_free f st ltac:(lia) Hu) as Hcount.
  pose proof (free_count_bounds (mark_frame_free f st)). pose proof MAX_PAGE_FRAMES_val.
  assert (u32 (free_frames st + 1) = free_frames st + 1) as Hw32 by (apply u32_small; lia).
  split; [|done]. constructor; simpl; [by apply mark_free_wf|done|done|..].
  - intros g ?. unfold release_frame. autorewrite with palloc. rewrite Ha by lia.
    rewrite (proj2 (Z.eqb_neq f g)) by lia. done.
  - rewrite Hw32, Hc. symmetry. etrans; [|exact Hcount]. done.
  - intros g ?. unfold release_frame. autorewrite with palloc. rewrite arr_get_set.
    specialize (Hr g ltac:(lia)). destruct (Z.eqb_spec f g) as [->|].
    + rewrite andb_false_r, decide_True by done. done.
    + rewrite andb_true_r, decide_False by done. done.
Qed.

Lemma next_search_inv v st :
  palloc_inv st → 0 ≤ v ≤ MAX_PAGE_FRAMES → palloc_inv (with_next_search v st).
Proof. intros [] ?. by constructor. Qed.

Lemma total_usable_inv v st : palloc_inv st → palloc_inv (with_total_usable v st).
Proof. intros []. by constructor. Qed.

(** *** Ranges and initialisation *)

Lemma clip_range_end_bounds e : 0 ≤ e → 0 ≤ clip_range_end e ≤ MAX_PHYSICAL_BYTES.
Proof. unfold clip_range_end, MAX_PHYSICAL_BYTES. case_if; lia. Qed.

Lemma align_down_clip_bounds e :
  0 ≤ e → 0 ≤ align_down_to_page (clip_range_end e) ≤ MAX_PAGE_FRAMES.
Proof.
  intros. pose proof (clip_range_end_bounds e). pose proof MAX_PAGE_FRAMES_val.
  unfold align_down_to_page, MAX_PHYSICAL_BYTES, PAGE_SIZE in *. word_lia.
Qed.

Lemma align_up_bounds a : 0 ≤ a ≤ MAX_PHYSICAL_BYTES → 0 ≤ align_up_to_page a ≤ MAX_PAGE_FRAMES.
Proof.
  intros. pose proof MAX_PAGE_FRAMES_val.
  unfold align_up_to_page, MAX_PHYSICAL_BYTES, PAGE_SIZE in *. word_lia.
Qed.

Lemma align_up_nonneg a : 0 ≤ align_up_to_page a.
Proof. apply u32_range. Qed.
Lemma align_down_nonneg a : 0 ≤ align_down_to_page a.
Proof. apply u32_range. Qed.

Lemma first_unusable_inv v st :
  palloc_inv st → first_unusable_frame st ≤ v ≤ MAX_PAGE_FRAMES →
  palloc_inv (with_first_unusable v st).
Proof.
  intros [Hw Hl Hs Ha Hc Hr] ?. constructor; simpl; try done; [lia|].
  intros f ?. apply (Ha f). lia.
Qed.

Lemma free_range_inv start e st :
  palloc_inv st → 0 ≤ e →
  palloc_inv (free_range start e st) ∧
  first_unusable_frame (free_range start e st)
  = Z.max (first_unusable_frame st) (align_down_to_page (clip_range_end e)).
Proof.
  intros Hinv He. unfold free_range.
  pose proof (align_down_clip_bounds e He). pose proof (align_up_nonneg start).
  set (last := align_down_to_page (clip_range_end e)) in *.
  set (st1 := if first_unusable_frame st <? last then _ else _).
  assert (palloc_inv st1 ∧ first_unusable_frame st1 = Z.max (first_unusable_frame st) last)
    as [Hinv1 Hfu1].
  { subst st1. case_if; [|split; [done|lia]]. split; [|simpl; lia].
    apply first_unusable_inv; [done|lia]. }
  rewrite <- Hfu1. assert (last ≤ first_unusable_frame st1) by lia.
  apply for_range_inv; [done|]. intros k s Hk [Hs Hfus].
  unfold free_frame_if_used. case_if; [|done]. split; [|done].
  apply (release_frame_inv k s); [done|lia|done].
Qed.

Lemma reserve_range_inv start e st :
  palloc_inv st →
  palloc_inv (reserve_range start e st) ∧
  first_unusable_frame (reserve_range start e st) = first_unusable_frame st.
Proof.
  intros Hinv. unfold reserve_range. pose proof (align_down_nonneg start).
  set (last := if _ <? _ then _ else _).
  assert (last ≤ first_unusable_frame st) by (subst last; case_if; lia).
  apply for_range_inv; [done|]. intros k s Hk [Hs Hfus].
  unfold reserve_frame_if_free. case_if; [|done]. split; [|done].
  apply (claim_frame_inv k s); [done|lia|done].
Qed.

Lemma reserve_module_inv mem mods index st :
  palloc_inv st →
  palloc_inv (reserve_module mem mods index st) ∧
  first_unusable_frame (reserve_module mem mods index st) = first_unusable_frame st.
Proof.
  intros H. unfold reserve_module.
  destruct (reserve_range_inv (load32 mem (mods + sizeof_multiboot_module * index))
              (load32 mem (mods + sizeof_multiboot_module * index + 4)) st H) as [H1 E1].
  case_if; [|done]. rewrite <- E1. by apply reserve_range_inv.
Qed.

Lemma reserve_boot_structures_inv mem info st :
  palloc_inv st →
  palloc_inv (reserve_boot_structures mem info st) ∧
  first_unusable_frame (reserve_boot_structures mem info st) = first_unusable_frame st.
Proof.
  intros H. unfold reserve_boot_structures.
  assert (∀ b s e st', palloc_inv st' ∧ first_unusable_frame st' = first_unusable_frame st →
    palloc_inv (if b : bool then reserve_range s e st' else st') ∧
    first_unusable_frame (if b then reserve_range s e st' else st')
    = first_unusable_frame st) as Hstep.
  { intros [] s e st' [Hi E]; [|done]. rewrite <- E. by apply reserve_range_inv. }
  match goal with |- palloc_inv (if ?c then _ else _) ∧ _ => destruct c end.
  - by do 3 apply Hstep; apply (Hstep true).
  - apply (for_range_inv (λ s, palloc_inv s ∧ first_unusable_frame s = first_unusable_frame st)).
    + apply (Hstep true). by do 3 apply Hstep; apply (Hstep true).
    + intros k s _ [Hs <-]. by apply reserve_module_inv.
Qed.

Lemma free_memory_map_inv fuel mem entry e st st' :
  palloc_inv st → free_memory_map fuel mem entry e st = Some st' → palloc_inv st'.
Proof.
  revert entry st. induction fuel as [|fuel IH]; intros entry st Hinv; simpl;
    (case_if; [|by intros [= <-]]); [done|].
  apply IH. case_if; [|done]. apply free_range_inv; [done|apply u64_range].
Qed.

(** The static storage before [palloc_init] runs. *)
Definition palloc_bss : palloc :=
  {| frame_bitmap := λ _, 0; frame_refcounts := λ _, 0; first_unusable_frame := 0;
     total_usable_frames := 0; free_frames := 0; next_search_frame := 0 |}.

Lemma palloc_blank_inv bm rc :
  bm_wf 32 bm →
  palloc_inv {| frame_bitmap := arr_fill 0 BITMAP_WORDS 4294967295 bm;
                frame_refcounts := arr_fill 0 MAX_PAGE_FRAMES 1 rc;
                first_unusable_frame := 0; total_usable_frames := 0;
                free_frames := 0; next_search_frame := 0 |}.
Proof.
  intros Hbm. set (st := Build_palloc _ _ _ _ _ _).
  assert (∀ f, 0 ≤ f < MAX_PAGE_FRAMES → frame_is_used st f = true) as Hused.
  { intros f Hf. apply (bm_test_ones 32); [lia|].
    simpl. unfold arr_fill. case_if; [done|].
    pose proof MAX_PAGE_FRAMES_val. change BITMAP_WORDS with 32768 in *.
    exfalso. word_lia. }
  constructor; simpl; [|done|done|exact Hused|..].
  - intros w. unfold arr_fill. case_if; [done|apply Hbm].
  - symmetry. apply count_range_zero. intros f ?. unfold frame_free. by rewrite Hused.
  - intros f ?. rewrite Hused by done. unfold arr_fill. case_if; lia.
Qed.

Lemma palloc_init_inv fuel mem info kernel_start kernel_end st st' :
  bm_wf 32 (frame_bitmap st) → is_u32 kernel_end →
  palloc_init fuel mem info kernel_start kernel_end st = Some st' → palloc_inv st'.
Proof.
  intros Hbm Hke. unfold palloc_init.
  pose proof (palloc_blank_inv _ (frame_refcounts st) Hbm) as H0.
  set (st0 := Build_palloc _ _ _ _ _ _) in *.
  match goal with |- match ?x with _ => _ end = _ → _ => destruct x as [st1|] eqn:E1 end; [|done].
  assert (palloc_inv st1) as H1.
  { case_if_in E1; [by eapply free_memory_map_inv in E1|].
    case_if_in E1; injection E1 as <-; [|done]. by apply free_range_inv; [|apply u64_range]. }
  intros [= <-]. apply next_search_inv.
  - apply reserve_boot_structures_inv, reserve_range_inv, reserve_range_inv. by apply total_usable_inv.
  - apply align_up_bounds. unfold MAX_PHYSICAL_BYTES. word_lia.
Qed.

(** *** Allocation *)

(** [n] free frames from [s] on. *)
Definition free_run (st : palloc) (s n : Z) : Prop :=
  ∀ k, s ≤ k < s + n → frame_is_used st k = false.

Lemma take_frame_claim f st : take_frame f st = with_next_search (f ⊞ 1) (claim_frame f st).
Proof. reflexivity. Qed.

Lemma frame_refs_claim f st g :
  frame_refs (claim_frame f st) g = if f =? g then 1 else frame_refs st g.
Proof.
  unfold frame_refs, claim_frame. autorewrite with palloc. simpl. rewrite arr_get_set.
  destruct (Z.eqb_spec f g) as [->|].
  - by rewrite orb_true_r, decide_True.
  - by rewrite orb_false_r, decide_False.
Qed.

Lemma frame_refs_zero st f :
  palloc_inv st → 0 ≤ f < MAX_PAGE_FRAMES → frame_refs st f = 0 ↔ frame_is_used st f = false.
Proof.
  intros H Hf. pose proof (inv_refs st H f Hf) as Hr. unfold frame_refs.
  destruct (frame_is_used st f); split; intros; done || lia.
Qed.

(** What a successful single-frame allocation does. *)
Definition allocates (st : palloc) (pa : Z) (st' : palloc) : Prop :=
  ∃ f, pa = f * PAGE_SIZE ∧ 0 < f < first_unusable_frame st ∧
    frame_is_used st f = false ∧ frame_refs st' f = 1 ∧
    free_frames st' = free_frames st - 1 ∧
    first_unusable_frame st' = first_unusable_frame st ∧
    (∀ g, g ≠ f → frame_refs st' g = frame_refs st g) ∧
    palloc_inv st' ∧ frame_is_used st' 0 = true.

Lemma take_frame_allocates st f :
  palloc_inv st → frame_is_used st 0 = true →
  0 ≤ f < MAX_PAGE_FRAMES → frame_is_used st f = false →
  allocates st (f ⊠ PAGE_SIZE) (take_frame f st).
Proof.
  intros Hinv H0 Hf Hu. pose proof MAX_PAGE_FRAMES_val.
  assert (f < first_unusable_frame st).
  { destruct (decide (f < first_unusable_frame st)); [done|].
    rewrite (inv_above st Hinv) in Hu by lia. done. }
  assert (f ≠ 0) by congruence.
  destruct (claim_frame_inv f st Hinv ltac:(lia) Hu) as [Hinv' Hff].
  exists f. split_and!.
  - unfold PAGE_SIZE. apply u32_small. lia.
  - lia.
  - lia.
  - done.
  - rewrite take_frame_claim. change (frame_refs (claim_frame f st) f = 1).
    by rewrite frame_refs_claim, Z.eqb_refl.
  - done.
  - done.
  - intros g ?. change (frame_refs (claim_frame f st) g = frame_refs st g).
    rewrite frame_refs_claim. case_if; [done|done].
  - rewrite take_frame_claim. apply next_search_inv; [done|]. word_lia.
  - rewrite take_frame_claim. change (frame_is_used (claim_frame f st) 0 = true).
    unfold claim_frame. autorewrite with palloc. by rewrite H0.
Qed.

Lemma alloc_page_cases st :
  palloc_inv st → frame_is_used st 0 = true →
  (free_frames st = 0 ∧ palloc_alloc_page st = (0, st)) ∨
  (0 < free_frames st ∧
   allocates st (palloc_alloc_page st).1 (palloc_alloc_page st).2).
Proof.
  intros Hinv H0. pose proof (inv_search st Hinv). pose proof (inv_limit st Hinv).
  assert (∀ f, 0 ≤ f < MAX_PAGE_FRAMES → frame_is_used st f = false → 0 < free_frames st)
    as Hpos.
  { intros f Hf Hu. rewrite (inv_count st Hinv). pose proof (free_count_bounds st).
    destruct (decide (count_range 0 MAX_PAGE_FRAMES (frame_free st) = 0)) as [E|]; [|lia].
    rewrite count_range_zero in E. specialize (E f Hf). unfold frame_free in E.
    by rewrite Hu in E. }
  unfold palloc_alloc_page.
  destruct (for_find (next_search_frame st) (first_unusable_frame st) _) as [f|] eqn:E1.
  { apply for_find_Some in E1 as (Hf&Hu&_). zbool. right. split; [apply (Hpos f); [lia|done]|].
    apply take_frame_allocates; [done|done|lia|done]. }
  destruct (for_find 0 (next_search_frame st) _) as [f|] eqn:E2.
  { apply for_find_Some in E2 as (Hf&Hu&_). zbool. right. split; [apply (Hpos f); [lia|done]|].
    apply take_frame_allocates; [done|done|lia|done]. }
  left. split; [|done]. rewrite for_find_None in E1, E2.
  rewrite (inv_count st Hinv). apply count_range_zero. intros f Hf.
  destruct (decide (f < next_search_frame st)); [apply E2; lia|].
  destruct (decide (f < first_unusable_frame st)); [apply E1; lia|].
  unfold frame_free. by rewrite (inv_above st Hinv) by lia.
Qed.

Lemma find_run_spec fuel st n start limit :
  0 ≤ start → 0 < n → limit + n ≤ MAX_PAGE_FRAMES → limit - start + 1 ≤ Z.of_nat fuel →
  match find_run fuel st n start limit with
  | Some s => start ≤ s ≤ limit ∧ free_run st s n
  | None => ∀ t, start ≤ t ≤ limit → ¬ free_run st t n
  end.
Proof.
  pose proof MAX_PAGE_FRAMES_val.
  revert start. induction fuel as [|fuel IH]; intros start Hs Hn Hl Hfuel; simpl.
  { intros t ?. lia. }
  case_if; [|intros t ?; lia].
  destruct (for_find 0 n _) as [c|] eqn:Ef.
  - apply for_find_Some in Ef as (Hc&Hu&_).
    rewrite (u32_small (start + c)) in * by lia. rewrite u32_small by lia.
    specialize (IH (start + c + 1) ltac:(lia) Hn Hl ltac:(lia)).
    destruct (find_run fuel st n (start + c + 1) limit) as [s|].
    + destruct IH as [? ?]. split; [lia|done].
    + intros t Ht Hrun. destruct (decide (t ≤ start + c)).
      * rewrite (Hrun (start + c)) in Hu by lia. done.
      * apply (IH t); [lia|done].
  - rewrite for_find_None in Ef. split; [lia|].
    intros k Hk. specialize (Ef (k - start) ltac:(lia)). simpl in Ef.
    replace (start + (k - start)) with k in Ef by lia.
    by rewrite u32_small in Ef by lia.
Qed.

(** The state after the marking loop of [palloc_alloc_pages] has handled the
    first [k] frames from [s]. *)
Definition in_run (s k g : Z) : bool := (s <=? g) && (g <? s + k).

Record marked_run (st : palloc) (s k : Z) (st1 : palloc) : Prop := {
  mr_wf : bm_wf 32 (frame_bitmap st1);
  mr_limit : first_unusable_frame st1 = first_unusable_frame st;
  mr_free : free_frames st1 = free_frames st;
  mr_count : count_range 0 MAX_PAGE_FRAMES (frame_free st1)
             = count_range 0 MAX_PAGE_FRAMES (frame_free st) - k;
  mr_used : ∀ g, frame_is_used st1 g = frame_is_used st g || in_run s k g;
  mr_refs : ∀ g, frame_refcounts st1 g = if in_run s k g then 1 else frame_refcounts st g;
}.

Lemma in_run_0 s g : in_run s 0 g = false.
Proof. unfold in_run. destruct (Z.leb_spec s g), (Z.ltb_spec g (s + 0)); simpl; done || lia. Qed.

Lemma in_run_succ s k g : 0 ≤ k → in_run s (k + 1) g = in_run s k g || (s + k =? g).
Proof.
  intros. unfold in_run.
  destruct (Z.leb_spec s g), (Z.ltb_spec g (s + k)), (Z.eqb_spec (s + k) g),
    (Z.ltb_spec g (s + (k + 1))); simpl; done || lia.
Qed.

Lemma mark_run_spec st s n :
  palloc_inv st → 0 ≤ s → 0 ≤ n → s + n ≤ first_unusable_frame st → free_run st s n →
  marked_run st s n
    (for_range 0 n (λ count st, with_refcount (s ⊞ count) 1
                                  (mark_frame_used (s ⊞ count) st)) st).
Proof.
  intros Hinv Hs Hn Hl Hrun. pose proof MAX_PAGE_FRAMES_val. pose proof (inv_limit st Hinv).
  apply (for_range_ind (marked_run st s)); [lia|..].
  - constructor; [apply Hinv|done|done|lia|..]; intros g; rewrite in_run_0;
      by rewrite ?orb_false_r.
  - intros k st2 Hk [Hwf Hfu Hff Hcnt Hused Hrc]. rewrite u32_small by lia.
    constructor; [by apply mark_used_wf|done|done|..].
    + etrans; [apply (free_count_mark_used (s + k) st2); [lia|]|lia].
      rewrite Hused, Hrun by lia. unfold in_run.
      destruct (Z.leb_spec s (s + k)), (Z.ltb_spec (s + k) (s + k)); done || lia.
    + intros g. autorewrite with palloc. by rewrite Hused, <- orb_assoc, in_run_succ by lia.
    + intros g. simpl. rewrite arr_get_set, Hrc, in_run_succ by lia.
      destruct (Z.eqb_spec (s + k) g); [by rewrite decide_True, orb_true_r|].
      by rewrite decide_False, orb_false_r.
Qed.

(** The effect of [take_run] on a run of free frames. *)
Lemma take_run_spec st s n :
  palloc_inv st → 0 ≤ s → 0 < n → s + n ≤ first_unusable_frame st → free_run st s n →
  palloc_inv (take_run s n st) ∧ free_frames (take_run s n st) = free_frames st - n ∧
  ∀ g, frame_refs (take_run s n st) g = if in_run s n g then 1 else frame_refs st g.
Proof.
  intros Hinv Hs Hn Hl Hrun. pose proof MAX_PAGE_FRAMES_val. pose proof (inv_limit st Hinv).
  destruct (mark_run_spec st s n Hinv Hs ltac:(lia) Hl Hrun) as [Hwf Hfu Hff Hcnt Hused Hrc].
  unfold take_run. set (st1 := for_range _ _ _ _) in *.
  pose proof (free_count_bounds st1). pose proof (inv_count st Hinv).
  assert (u32 (free_frames st1 - n) = free_frames st - n) as Hw32
    by (rewrite u32_small by (pose proof (free_count_bounds st); lia); lia).
  split_and!; [|done|].
  - constructor; simpl; [done|lia|rewrite u32_small; lia|..].
    + intros f ?. change (frame_is_used st1 f = true).
      rewrite Hused, (inv_above st Hinv) by lia. done.
    + rewrite Hw32. change (free_frames st - n = count_range 0 MAX_PAGE_FRAMES (frame_free st1)). lia.
    + intros f ?. change (if frame_is_used st1 f then 1 ≤ frame_refcounts st1 f < 65536
                          else frame_refcounts st1 f = 0).
      rewrite Hused, Hrc. pose proof (inv_refs st Hinv f ltac:(lia)).
      destruct (in_run s n f); [rewrite orb_true_r; lia|by rewrite orb_false_r].
  - intros g. change (frame_refs st1 g = if in_run s n g then 1 else frame_refs st g).
    unfold frame_refs. rewrite Hused, Hrc.
    destruct (in_run s n g); [by rewrite orb_true_r|by rewrite orb_false_r].
Qed.

(** What a successful allocation of [n] contiguous frames does. *)
Definition allocates_run (st : palloc) (n pa : Z) (st' : palloc) : Prop :=
  ∃ s, pa = s * PAGE_SIZE ∧ 0 < s ∧ s + n ≤ first_unusable_frame st ∧ free_run st s n ∧
    free_frames st' = free_frames st - n ∧
    (∀ g, frame_refs st' g = if in_run s n g then 1 else frame_refs st g) ∧
    palloc_inv st' ∧ frame_is_used st' 0 = true.

Lemma take_run_allocates st s n :
  palloc_inv st → frame_is_used st 0 = true → 0 ≤ s → 0 < n →
  s + n ≤ MAX_PAGE_FRAMES → free_run st s n →
  allocates_run st n (s ⊠ PAGE_SIZE) (take_run s n st).
Proof.
  intros Hinv H0 Hs Hn Hl Hrun. pose proof MAX_PAGE_FRAMES_val.
  assert (s + n ≤ first_unusable_frame st).
  { destruct (decide (s + n ≤ first_unusable_frame st)); [done|].
    assert (frame_is_used st (s + n - 1) = true) as Hu by (apply Hinv; lia).
    rewrite Hrun in Hu by lia. done. }
  assert (s ≠ 0). { intros ->. rewrite Hrun in H0 by lia. done. }
  destruct (take_run_spec st s n) as (Hinv'&Hff&Hrefs); try done.
  exists s. split_and!; try done; [|lia|].
  - unfold PAGE_SIZE. apply u32_small. lia.
  - destruct (frame_is_used (take_run s n st) 0) eqn:E; [done|exfalso].
    specialize (Hrefs 0). unfold in_run in Hrefs.
    rewrite (proj2 (Z.leb_gt _ _)) in Hrefs by lia. simpl in Hrefs.
    pose proof (inv_refs st Hinv 0 ltac:(lia)) as Hr. rewrite H0 in Hr.
    unfold frame_refs in Hrefs. rewrite E, H0 in Hrefs. lia.
Qed.

Lemma alloc_pages_cases st n :
  palloc_inv st → frame_is_used st 0 = true → 1 < n →
  (palloc_alloc_pages n st = (0, st) ∧
   (free_frames st < n ∨
    ∀ s, 0 ≤ s → s + n ≤ next_search_frame st ∨ next_search_frame st ≤ s →
         s + n ≤ first_unusable_frame st → ¬ free_run st s n)) ∨
  allocates_run st n (palloc_alloc_pages n st).1 (palloc_alloc_pages n st).2.
Proof.
  intros Hinv H0 Hn. pose proof (inv_search st Hinv). pose proof (inv_limit st Hinv).
  unfold palloc_alloc_pages. do 2 (case_if; [lia|]).
  case_if; [left; split; [done|]; destruct E1; zbool; [right; intros; lia|by left]|].
  rewrite (proj2 (Z.leb_le n (first_unusable_frame st))) by lia.
  pose proof (find_run_spec (Z.to_nat (first_unusable_frame st - n - next_search_frame st + 1))
    st n (next_search_frame st) (first_unusable_frame st - n)
    ltac:(lia) ltac:(lia) ltac:(lia) ltac:(lia)) as Hf1.
  fold (find_run_from st n (next_search_frame st) (first_unusable_frame st - n)) in Hf1.
  destruct (find_run_from st n (next_search_frame st) _) as [s|].
  { right. apply take_run_allocates; try done; lia || tauto. }
  destruct (Z.leb_spec n (next_search_frame st)).
  - pose proof (find_run_spec (Z.to_nat (next_search_frame st - n - 0 + 1))
      st n 0 (next_search_frame st - n) ltac:(lia) ltac:(lia) ltac:(lia) ltac:(lia)) as Hf2.
    fold (find_run_from st n 0 (next_search_frame st - n)) in Hf2.
    destruct (find_run_from st n 0 _) as [s|].
    + right. apply take_run_allocates; try done; lia || tauto.
    + left. split; [done|]. right. intros s ? [?|?] ?; [apply Hf2|apply Hf1]; lia.
  - left. split; [done|]. right. intros s ? [?|?] ?; [lia|apply Hf1; lia].
Qed.

(** *** Reference counting *)

(** The address names a frame in use. *)
Definition live_page (st : palloc) (pa : Z) : bool :=
  (pa mod PAGE_SIZE =? 0) && (pa / PAGE_SIZE <? first_unusable_frame st)
  && frame_is_used st (pa / PAGE_SIZE).

Lemma live_page_refs st pa :
  palloc_inv st → 0 ≤ pa → live_page st pa = true →
  0 ≤ pa / PAGE_SIZE < first_unusable_frame st ∧
  frame_is_used st (pa / PAGE_SIZE) = true ∧
  1 ≤ frame_refcounts st (pa / PAGE_SIZE) < 65536 ∧ pa mod PAGE_SIZE = 0.
Proof.
  intros Hinv Hpa Hl. unfold live_page in Hl. zbool. pose proof (inv_limit st Hinv).
  assert (0 ≤ pa / PAGE_SIZE) by (apply Z.div_pos; unfold PAGE_SIZE; lia).
  pose proof (inv_refs st Hinv (pa / PAGE_SIZE) ltac:(lia)) as Hr.
  rewrite H0 in Hr. split_and!; lia || done.
Qed.

Lemma refcount_inv f v st :
  palloc_inv st → frame_is_used st f = true → 1 ≤ v < 65536 → palloc_inv (with_refcount f v st).
Proof.
  intros [Hw Hl Hs Ha Hc Hr] Hu Hv. constructor; simpl; try done.
  intros g Hg. autorewrite with palloc. rewrite arr_get_set. case_decide; [|by apply Hr].
  subst. by rewrite Hu.
Qed.

Lemma frame_refs_with_refcount f v st g :
  frame_is_used st f = true →
  frame_refs (with_refcount f v st) g = if f =? g then v else frame_refs st g.
Proof.
  intros Hu. unfold frame_refs. autorewrite with palloc. simpl. rewrite arr_get_set.
  destruct (Z.eqb_spec f g) as [->|]; [by rewrite Hu, decide_True|by rewrite decide_False].
Qed.

Lemma retain_page_cases st pa :
  palloc_inv st → 0 ≤ pa →
  palloc_retain_page pa st
  = if live_page st pa
    then (0, with_refcount (pa / PAGE_SIZE)
               (u16 (frame_refcounts st (pa / PAGE_SIZE) + 1)) st)
    else (-1, st).
Proof.
  intros Hinv Hpa. destruct (live_page st pa) eqn:Hl.
  - pose proof (live_page_refs st pa Hinv Hpa Hl) as (?&Hu&?&Hm).
    unfold palloc_retain_page, truthy. rewrite Hm. simpl.
    case_if; [lia|]. rewrite Hu. simpl. case_if; [lia|done].
  - unfold palloc_retain_page, live_page in *. case_if; [done|]. case_if; [done|].
    case_if; [done|]. rewrite E in Hl. simpl in Hl.
    rewrite (proj2 (Z.ltb_lt _ _)) in Hl by lia. simpl in Hl. destruct Hl; congruence.
Qed.

Lemma release_frame_refs f st g :
  frame_refs (release_frame f st) g = if f =? g then 0 else frame_refs st g.
Proof.
  unfold frame_refs, release_frame. autorewrite with palloc. simpl. rewrite arr_get_set.
  destruct (Z.eqb_spec f g) as [->|].
  - by rewrite andb_false_r.
  - by rewrite andb_true_r, decide_False.
Qed.

(** The effect of dropping one reference. *)
Definition drops_ref (st : palloc) (pa : Z) (st' : palloc) : Prop :=
  (∀ g, frame_refs st' g = if pa / PAGE_SIZE =? g then frame_refs st g - 1 else frame_refs st g) ∧
  free_frames st' = free_frames st + (if frame_refs st (pa / PAGE_SIZE) =? 1 then 1 else 0) ∧
  first_unusable_frame st' = first_unusable_frame st ∧ palloc_inv st'.

Lemma free_page_cases st pa :
  palloc_inv st → 0 ≤ pa →
  if live_page st pa then drops_ref st pa (palloc_free_page pa st)
  else palloc_free_page pa st = st.
Proof.
  intros Hinv Hpa. destruct (live_page st pa) eqn:Hl.
  - pose proof (live_page_refs st pa Hinv Hpa Hl) as (Hf&Hu&Hr&Hm).
    unfold palloc_free_page, truthy. rewrite Hm. simpl.
    case_if; [lia|]. rewrite Hu. simpl. case_if; [lia|].
    set (f := pa / PAGE_SIZE) in *. rewrite arr_get_set_eq, u16_small by lia.
    assert (frame_refs st f = frame_refcounts st f) as Hrefs by (unfold frame_refs; by rewrite Hu).
    case_if.
    + unfold drops_ref; fold f. split_and!; [|simpl; rewrite Hrefs; case_if; lia|done|apply refcount_inv; [done|done|lia]].
      intros g. rewrite frame_refs_with_refcount by done. case_if; [subst g; lia|done].
    + pose proof (release_frame_inv f st Hinv ltac:(lia) Hu) as [Hinv' Hff].
      replace (frame_refcounts st f - 1) with 0 by lia.
      match goal with |- drops_ref _ _ (if ?c then with_next_search ?v ?s else _) =>
        assert (drops_ref st pa s) as Hd end.
      { unfold drops_ref; fold f. split_and!; [|simpl; rewrite Hrefs, (proj2 (Z.eqb_eq _ 1)) by lia; exact Hff|done|].
        - intros g. change (frame_refs (release_frame f st) g
            = if f =? g then frame_refs st g - 1 else frame_refs st g).
          rewrite release_frame_refs. case_if; [subst g; lia|done].
        - exact Hinv'. }
      case_if; [|exact Hd]. destruct Hd as (?&?&?&?). split_and!; try done.
      apply next_search_inv; [done|]. pose proof (inv_limit st Hinv). lia.
  - unfold palloc_free_page, live_page in *. case_if; [done|]. case_if; [done|].
    case_if; [done|]. rewrite E in Hl. simpl in Hl.
    rewrite (proj2 (Z.ltb_lt _ _)) in Hl by lia. simpl in Hl. destruct Hl; congruence.
Qed.

(** *** Frame 0 and the reachable states *)

Lemma reserve_range_keeps_used start e st f :
  frame_is_used st f = true → frame_is_used (reserve_range start e st) f = true.
Proof.
  intros H. unfold reserve_range. apply (for_range_inv (λ s, frame_is_used s f = true)); [done|].
  intros k s _ Hs. unfold reserve_frame_if_free. case_if; [|done].
  autorewrite with palloc. by rewrite Hs.
Qed.

(** The first megabyte is reserved, so frame 0 is. *)
Lemma reserve_low_zero st :
  palloc_inv st → frame_is_used (reserve_range 0 1048576 st) 0 = true.
Proof.
  intros Hinv. pose proof (inv_limit st Hinv). unfold reserve_range.
  change (align_down_to_page 0) with 0.
  change (align_up_to_page (clip_range_end 1048576)) with 256.
  destruct (decide (first_unusable_frame st = 0)) as [E|].
  - rewrite E. simpl. apply Hinv. pose proof MAX_PAGE_FRAMES_val. lia.
  - set (last := if _ <? _ then _ else _).
    assert (0 < last) by (subst last; case_if; lia).
    rewrite for_range_step by done.
    apply (for_range_inv (λ s, frame_is_used s 0 = true)).
    + unfold reserve_frame_if_free. case_if; [|done]. autorewrite with palloc. by rewrite orb_true_r.
    + intros k s _ Hs. unfold reserve_frame_if_free. case_if; [|done].
      autorewrite with palloc. by rewrite Hs.
Qed.

Lemma reserve_boot_structures_keeps_used mem info st f :
  frame_is_used st f = true → frame_is_used (reserve_boot_structures mem info st) f = true.
Proof.
  intros H. unfold reserve_boot_structures.
  assert (∀ (b : bool) s e st', frame_is_used st' f = true →
    frame_is_used (if b then reserve_range s e st' else st') f = true) as Hstep.
  { intros [] s e st' ?; [by apply reserve_range_keeps_used|done]. }
  match goal with |- frame_is_used (if ?c then _ else _) _ = _ => destruct c end.
  - do 3 apply Hstep. by apply (Hstep true).
  - apply (for_range_inv (λ s, frame_is_used s f = true)).
    + apply (Hstep true). do 3 apply Hstep. by apply (Hstep true).
    + intros k s _ Hs. unfold reserve_module. apply Hstep. by apply (Hstep true).
Qed.

Lemma palloc_init_ok fuel mem info kernel_start kernel_end st st' :
  bm_wf 32 (frame_bitmap st) → is_u32 kernel_end →
  palloc_init fuel mem info kernel_start kernel_end st = Some st' → palloc_ok st'.
Proof.
  intros Hbm Hke Hi. split; [by eapply palloc_init_inv|].
  revert Hi. unfold palloc_init.
  pose proof (palloc_blank_inv _ (frame_refcounts st) Hbm) as H0.
  set (st0 := Build_palloc _ _ _ _ _ _) in *.
  match goal with |- match ?x with _ => _ end = _ → _ => destruct x as [st1|] eqn:E1 end; [|done].
  assert (palloc_inv st1) as H1.
  { case_if_in E1; [by eapply free_memory_map_inv in E1|].
    case_if_in E1; injection E1 as <-; [|done]. by apply free_range_inv; [|apply u64_range]. }
  intros [= <-]. rewrite used_with_next_search.
  apply reserve_boot_structures_keeps_used, reserve_range_keeps_used, reserve_low_zero.
  by apply total_usable_inv.
Qed.

Lemma free_page_ok st pa : palloc_ok st → 0 < pa → palloc_ok (palloc_free_page pa st).
Proof.
  intros [Hinv H0] Hpa. pose proof (free_page_cases st pa Hinv ltac:(lia)) as H.
  destruct (live_page st pa) eqn:Hl; [|by rewrite H].
  destruct H as (Hrefs&_&Hlim&Hinv'). split; [done|]. pose proof (inv_limit st Hinv).
  destruct (frame_is_used (palloc_free_page pa st) 0) eqn:E; [done|exfalso].
  pose proof (live_page_refs st pa Hinv ltac:(lia) Hl) as (Hf&_&_&Hm).
  specialize (Hrefs 0). unfold PAGE_SIZE, frame_refs in *. rewrite E, H0 in Hrefs.
  pose proof (inv_refs st Hinv 0 ltac:(lia)) as Hr. rewrite H0 in Hr.
  case_if_in Hrefs; [|lia]. word_lia.
Qed.

Lemma palloc_step_ok st st' : palloc_step st st' → palloc_ok st → palloc_ok st'.
Proof.
  intros [st1|n st1 Hn|pa st1 Hpa Hr|pa st1 Hpa Hne|pa n st1 Hpa Hne Hn Hw] [Hinv H0].
  - destruct (alloc_page_cases st1 Hinv H0) as [[_ ->]|[_ (f&?&?&?&?&?&?&?&?&?)]]; by split.
  - destruct (decide (n = 0)) as [->|]; [by split|].
    destruct (decide (n = 1)) as [->|].
    { change (palloc_ok (palloc_alloc_page st1).2).
      destruct (alloc_page_cases st1 Hinv H0) as [[_ ->]|[_ (f&?&?&?&?&?&?&?&?&?)]]; by split. }
    destruct (alloc_pages_cases st1 n Hinv H0) as [[-> _]|(s&?&?&?&?&?&?&?&?)]; [word_lia|by split..].
  - rewrite retain_page_cases by (done || word_lia).
    destruct (live_page st1 pa) eqn:Hl; [|by split].
    pose proof (live_page_refs st1 pa Hinv ltac:(word_lia) Hl) as (Hf&Hu&Hc&_).
    unfold frame_refs in Hr. rewrite Hu in Hr. split; [|done].
    apply refcount_inv; [done|done|]. rewrite u16_small; lia.
  - apply free_page_ok; [by split|word_lia].
  - unfold palloc_free_pages_range. case_if; [by split|].
    apply for_range_inv; [by split|]. intros k s Hk Hs. apply free_page_ok; [done|].
    unfold MAX_PHYSICAL_BYTES, PAGE_SIZE in *. rewrite (u32_small (k * 4096)) by word_lia.
    rewrite u32_small; word_lia.
Qed.

Lemma palloc_steps_ok st st' : rtc palloc_step st st' → palloc_ok st → palloc_ok st'.
Proof. induction 1 as [|? ? ? Hs ? IH]; [done|]. intros. apply IH. by eapply palloc_step_ok. Qed.

Lemma palloc_bss_wf : bm_wf 32 (frame_bitmap palloc_bss).
Proof. intros w. simpl. lia. Qed.

(** *** The memory-map walk *)

(** The addresses of the map entries the walk visits. *)
Fixpoint mmap_entries (fuel : nat) (mem : carray Z) (entry e : Z) : list Z :=
  if entry <? e then
    match fuel with
    | O => []
    | S fuel => entry :: mmap_entries fuel mem (entry ⊞ load32 mem entry ⊞ 4) e
    end
  else [].

Lemma free_memory_map_terminates fuel mem entry e st :
  bytes_wf mem → is_u32 entry → is_u32 e →
  (∀ a, a ∈ mmap_entries fuel mem entry e → a + load32 mem a + 4 < 4294967296) →
  e - entry ≤ Z.of_nat fuel → ∃ st', free_memory_map fuel mem entry e st = Some st'.
Proof.
  intros Hm. revert entry st. induction fuel as [|fuel IH]; intros entry st Hen He Hnw Hf;
    simpl in *; (case_if; [|by eexists]); [lia|].
  pose proof (load32_range mem entry Hm).
  assert (entry + load32 mem entry + 4 < 4294967296) by (apply Hnw; set_solver).
  unfold is_u32 in *. rewrite (u32_small (entry + load32 mem entry)) in * by lia.
  rewrite u32_small in * by lia. apply IH; [lia|lia| |lia]. intros; apply Hnw; set_solver.
Qed.

(** An available region of the memory map that ends at or above 4 GiB. *)
Definition reaches_4gib (mem : carray Z) (entry : Z) : Prop :=
  load32 mem (entry + 20) = MULTIBOOT_MEMORY_AVAILABLE ∧
  MAX_PHYSICAL_BYTES ≤ u64 (load64 mem (entry + 4) + load64 mem (entry + 12)).

Lemma free_range_limit_mono start e st :
  palloc_inv st → 0 ≤ e → first_unusable_frame st ≤ first_unusable_frame (free_range start e st).
Proof. intros H He. destruct (free_range_inv start e st H He) as [_ ->]. lia. Qed.

Lemma free_range_4gib start e st :
  palloc_inv st → MAX_PHYSICAL_BYTES ≤ e →
  first_unusable_frame (free_range start e st) = MAX_PAGE_FRAMES.
Proof.
  intros H He. destruct (free_range_inv start e st H) as [_ ->]; [unfold MAX_PHYSICAL_BYTES in *; lia|].
  pose proof (inv_limit st H).
  replace (clip_range_end e) with MAX_PHYSICAL_BYTES
    by (unfold clip_range_end; case_if; lia).
  change (align_down_to_page MAX_PHYSICAL_BYTES) with MAX_PAGE_FRAMES. lia.
Qed.

Lemma free_memory_map_limit fuel mem entry e st st' :
  palloc_inv st → free_memory_map fuel mem entry e st = Some st' →
  first_unusable_frame st ≤ first_unusable_frame st' ∧
  ((∃ a, a ∈ mmap_entries fuel mem entry e ∧ reaches_4gib mem a) →
   first_unusable_frame st' = MAX_PAGE_FRAMES).
Proof.
  revert entry st. induction fuel as [|fuel IH]; intros entry st Hinv; simpl; case_if; try done.
  1, 3: intros [= <-]; split; [lia|]; by intros (a&Ha%elem_of_nil&_).
  intros Hw. apply IH in Hw as Hw'.
  2: { case_if; [|done]. apply free_range_inv; [done|apply u64_range]. }
  destruct Hw' as [Hmono Hex]. split.
  - case_if_in Hmono; [|done]. etrans; [|exact Hmono]. apply free_range_limit_mono; [done|apply u64_range].
  - intros (a&[->|Ha]%elem_of_cons&Hr); [|apply Hex; by eexists].
    destruct Hr as [Hav Hend]. rewrite Hav in Hmono. simpl in Hmono.
    rewrite free_range_4gib in Hmono by done.
    apply free_memory_map_inv in Hw; [pose proof (inv_limit _ Hw); lia|].
    case_if; [|done]. apply free_range_inv; [done|apply u64_range].
Qed.

Lemma palloc_init_limit fuel mem info kernel_start kernel_end st st' :
  bm_wf 32 (frame_bitmap st) → truthy (Z.land (flags info) MULTIBOOT_INFO_MMAP) = true →
  palloc_init fuel mem info kernel_start kernel_end st = Some st' →
  (∃ a, a ∈ mmap_entries fuel mem (mmap_addr info) (mmap_addr info ⊞ mmap_length info)
        ∧ reaches_4gib mem a) →
  first_unusable_frame st' = MAX_PAGE_FRAMES.
Proof.
  intros Hbm Hflag Hi Hex. revert Hi. unfold palloc_init. rewrite Hflag.
  pose proof (palloc_blank_inv _ (frame_refcounts st) Hbm) as H0.
  destruct (free_memory_map _ _ _ _ _) as [st1|] eqn:E1; [|done].
  pose proof (free_memory_map_inv _ _ _ _ _ _ H0 E1) as H1.
  apply free_memory_map_limit in E1 as [_ E1]; [|done]. intros [= <-]. simpl.
  apply total_usable_inv with (v := free_frames st1) in H1.
  pose proof (reserve_range_inv 0 1048576 _ H1) as [H2 L2].
  pose proof (reserve_range_inv kernel_start kernel_end _ H2) as [H3 L3].
  pose proof (reserve_boot_structures_inv mem info _ H3) as [_ L4].
  rewrite L4, L3, L2. by apply E1.
Qed.

Lemma palloc_init_no_map fuel mem info kernel_start kernel_end st :
  truthy (Z.land (flags info) MULTIBOOT_INFO_MMAP) = false →
  ∃ st', palloc_init fuel mem info kernel_start kernel_end st = Some st'.
Proof. intros Hf. unfold palloc_init. rewrite Hf. case_if; by eexists. Qed.

Lemma palloc_init_returns mem info kernel_start kernel_end st :
  bytes_wf mem → is_u32 (mmap_addr info) → 0 ≤ mmap_length info →
  mmap_addr info + mmap_length info < 4294967296 →
  (∀ a, a ∈ mmap_entries (Z.to_nat (mmap_length info)) mem (mmap_addr info)
              (mmap_addr info + mmap_length info) →
        a + load32 mem a + 4 < 4294967296) →
  ∃ st', palloc_init (Z.to_nat (mmap_length info)) mem info kernel_start kernel_end st = Some st'.
Proof.
  intros Hm Ha Hl Hw Hnw. unfold palloc_init. unfold is_u32 in Ha.
  match goal with |- context [free_memory_map ?f ?m ?a ?e ?s] =>
    destruct (free_memory_map_terminates f m a e s) as [st1 Hst1] end; try done.
  - apply u32_range.
  - intros a. rewrite u32_small by lia. apply Hnw.
  - rewrite u32_small by lia. lia.
  - rewrite Hst1. case_if; [by eexists|]. case_if; by eexists.
Qed.

(** ** Properties *)

(** C1: From the state that [palloc_init] builds, every sequence of allocations,
    retains and frees by clients that keep to the rules of [palloc_step] keeps the
    allocator's invariant: the cached [free_frames] is the number of clear bits, frames at or
    above [first_unusable_frame] stay reserved, a frame's count is 0 exactly when its bit is
    clear, and frame 0 is never released.  The rules: no page is retained when its 16-bit count is
    65535 already, address 0 is not freed, and a freed range does not extend past 4 GiB.
    The code checks none of them; frees of other addresses that are not in use are allowed. *)
Theorem palloc_reachable_ok fuel mem info kernel_start kernel_end st0 st :
  is_u32 kernel_end →
  palloc_init fuel mem info kernel_start kernel_end palloc_bss = Some st0 →
  rtc palloc_step st0 st →
  palloc_ok st.
Proof.
  intros Hke Hi Hs. eapply palloc_steps_ok; [exact Hs|].
  eapply palloc_init_ok; [apply palloc_bss_wf|exact Hke|exact Hi].
Qed.

(** [palloc_alloc_page] is sound and complete: it fails, leaving the state
    alone, exactly when no frame is free; otherwise it returns the address of a
    frame that was free, below the managed limit and not frame 0, which now has
    one reference, and no other frame's count changes. *)
Theorem palloc_alloc_page_spec st :
  palloc_ok st →
  if free_frames st =? 0 then palloc_alloc_page st = (0, st)
  else (palloc_alloc_page st).1 ≠ 0 ∧
       allocates st (palloc_alloc_page st).1 (palloc_alloc_page st).2.
Proof.
  intros [Hinv H0]. destruct (alloc_page_cases st Hinv H0) as [[-> ?]|[? H]]; [done|].
  rewrite (proj2 (Z.eqb_neq _ _)) by lia. split; [|done].
  destruct H as (f&->&?&_). unfold PAGE_SIZE. lia.
Qed.

(** A contiguous allocation of [n > 1] pages either returns the address of
    a run of [n] frames that were all free and are now held once each, touching
    no other frame, or leaves the state alone; and it fails only when fewer than
    [n] frames are free or no free run of [n] frames lies wholly on one side of
    the search cursor. *)
Theorem palloc_alloc_pages_spec st n :
  palloc_ok st → 1 < n →
  (palloc_alloc_pages n st = (0, st) ∧
   (free_frames st < n ∨
    ∀ s, 0 ≤ s → s + n ≤ next_search_frame st ∨ next_search_frame st ≤ s →
         s + n ≤ first_unusable_frame st → ¬ free_run st s n)) ∨
  allocates_run st n (palloc_alloc_pages n st).1 (palloc_alloc_pages n st).2.
Proof. intros [Hinv H0] Hn. by apply alloc_pages_cases. Qed.

(** Reference counting. Retaining a live page below the 16-bit ceiling adds
    one reference to it, and the [palloc_free_page] that follows takes the
    allocator back to the same counts and the same number of free frames. *)
Theorem palloc_retain_free_roundtrip st pa :
  palloc_ok st → is_u32 pa → live_page st pa = true →
  frame_refs st (pa / PAGE_SIZE) < 65535 →
  (palloc_retain_page pa st).1 = 0 ∧
  palloc_page_refcount pa (palloc_retain_page pa st).2 = palloc_page_refcount pa st + 1 ∧
  (∀ g, frame_refs (palloc_free_page pa (palloc_retain_page pa st).2) g = frame_refs st g) ∧
  free_frames (palloc_free_page pa (palloc_retain_page pa st).2) = free_frames st.
Proof.
  intros [Hinv H0] Hpa Hl Hr.
  pose proof (live_page_refs st pa Hinv ltac:(word_lia) Hl) as (Hf&Hu&Hc&Hm).
  rewrite retain_page_cases, Hl by (done || word_lia). simpl.
  unfold frame_refs in Hr. rewrite Hu in Hr. rewrite u16_small by lia.
  set (f := pa / PAGE_SIZE) in *. set (st1 := with_refcount f _ st).
  assert (palloc_inv st1) as Hinv1 by (apply refcount_inv; [done|done|lia]).
  assert (live_page st1 pa = true) as Hl1 by exact Hl.
  assert (∀ g, frame_refs st1 g = if f =? g then frame_refs st g + 1 else frame_refs st g) as Hrefs.
  { intros g. subst st1. rewrite frame_refs_with_refcount by done. case_if; [|done].
    subst g. unfold frame_refs. by rewrite Hu. }
  pose proof (free_page_cases st1 pa Hinv1 ltac:(word_lia)) as Hfree.
  rewrite Hl1 in Hfree. destruct Hfree as (Hfr&Hff&_&_). fold f in Hfr, Hff.
  split_and!; [done|..].
  - unfold palloc_page_refcount. rewrite Hm. fold f. simpl.
    change (frame_is_used st1 f) with (frame_is_used st f). rewrite Hu, arr_get_set_eq. simpl.
    case_if; [lia|done].
  - intros g. rewrite Hfr, Hrefs. case_if; lia.
  - rewrite Hff, Hrefs, Z.eqb_refl. unfold frame_refs at 1. rewrite Hu. case_if; [lia|].
    simpl. lia.
Qed.

(** Why retains stop at the ceiling: the 16-bit count wraps to 0, after which the page counts
    as unreferenced although its bit is set, and freeing it does nothing any more. *)
Lemma palloc_retain_wraps st pa (st' := (palloc_retain_page pa st).2) :
  palloc_inv st → is_u32 pa → live_page st pa = true → frame_refcounts st (pa / PAGE_SIZE) = 65535 →
  palloc_page_refcount pa st' = 0 ∧ frame_is_used st' (pa / PAGE_SIZE) = true ∧ palloc_free_page pa st' = st'.
Proof.
  intros Hinv Hpa Hl Hr. unfold st'. pose proof (live_page_refs st pa Hinv ltac:(word_lia) Hl) as (Hf&Hu&Hc&Hm).
  rewrite retain_page_cases, Hl by (done || word_lia). cbn [snd]. rewrite Hr. change (u16 (65535 + 1)) with 0.
  set (f := pa / PAGE_SIZE) in *. set (st1 := with_refcount f 0 st).
  assert (frame_refcounts st1 f = 0) as H1 by (unfold st1; cbn; by rewrite arr_get_set_eq).
  assert (frame_is_used st1 f = true) as H2 by exact Hu.
  split_and!; [|done|].
  - unfold palloc_page_refcount. rewrite Hm. fold f. change (truthy 0) with false. cbv zeta iota. rewrite H2, H1. by case_if.
  - unfold palloc_free_page. rewrite Hm. fold f. change (truthy 0) with false. cbv zeta iota. rewrite H2, H1. by repeat case_if.
Qed.

(** [palloc_free_page] drops exactly one reference of a live page, giving
    the frame back only when that was the last one, and ignores any other
    address: unaligned, beyond the managed limit, or of a free frame. *)
Theorem palloc_free_page_spec st pa :
  palloc_ok st → is_u32 pa →
  if live_page st pa then drops_ref st pa (palloc_free_page pa st)
  else palloc_free_page pa st = st.
Proof. intros [Hinv _] ?. apply free_page_cases; [done|word_lia]. Qed.

(** Termination of [palloc_init]: when the [size] field of no entry of the
    memory map wraps the entry pointer, walking the map takes at most [mmap_length] steps
    and the initialisation returns. *)
Theorem palloc_init_terminates mem info kernel_start kernel_end st :
  bytes_wf mem → is_u32 (mmap_addr info) → 0 ≤ mmap_length info →
  mmap_addr info + mmap_length info < 4294967296 →
  (∀ a, a ∈ mmap_entries (Z.to_nat (mmap_length info)) mem (mmap_addr info)
              (mmap_addr info + mmap_length info) →
        a + load32 mem a + 4 < 4294967296) →
  ∃ st', palloc_init (Z.to_nat (mmap_length info)) mem info kernel_start kernel_end st = Some st'.
Proof. apply palloc_init_returns. Qed.

(** A memory map with an available region that reaches 4 GiB makes
    [palloc_managed_bytes] report 0 bytes, however many frames are free: the
    product [first_unusable_frame * PAGE_SIZE] is 2^32, which wraps. *)
Theorem palloc_managed_bytes_wraps fuel mem info kernel_start kernel_end st' :
  truthy (Z.land (flags info) MULTIBOOT_INFO_MMAP) = true →
  palloc_init fuel mem info kernel_start kernel_end palloc_bss = Some st' →
  (∃ a, a ∈ mmap_entries fuel mem (mmap_addr info) (mmap_addr info ⊞ mmap_length info)
        ∧ reaches_4gib mem a) →
  palloc_managed_bytes st' = 0.
Proof.
  intros Hf Hi Hex. unfold palloc_managed_bytes.
  by rewrite (palloc_init_limit _ _ _ _ _ _ _ palloc_bss_wf Hf Hi Hex).
Qed.

(** ** Witnesses: a machine with 64 KiB above the first megabyte *)

Definition small_info : multiboot_info :=
  {| mb_address := 36864; flags := MULTIBOOT_INFO_MEMORY; mem_upper := 64; cmdline := 0;
     mods_count := 0; mods_addr := 0; mmap_length := 0; mmap_addr := 0;
     framebuffer_addr := 0; framebuffer_pitch := 0; framebuffer_width := 0; framebuffer_height := 0;
     framebuffer_bpp := 0; framebuffer_type := 0; framebuffer_rgb := no_rgb |}.

Definition small_boot : palloc :=
  match palloc_init 0 (λ _, 0) small_info 1048576 1048576 palloc_bss with
  | Some st => st
  | None => palloc_bss
  end.

Lemma small_boot_init :
  palloc_init 0 (λ _, 0) small_info 1048576 1048576 palloc_bss = Some small_boot.
Proof.
  unfold small_boot.
  destruct (palloc_init_no_map 0 (λ _, 0) small_info 1048576 1048576 palloc_bss eq_refl) as [st ->].
  reflexivity.
Qed.

Lemma small_boot_ok : palloc_ok small_boot.
Proof. eapply palloc_init_ok; [apply palloc_bss_wf|..|apply small_boot_init]. word_lia. Qed.

Lemma palloc_reachable_ok_witness : palloc_ok (palloc_alloc_page small_boot).2.
Proof.
  apply (palloc_reachable_ok 0 (λ _, 0) small_info 1048576 1048576 small_boot).
  - unfold is_u32. lia.
  - apply small_boot_init.
  - apply rtc_once. constructor.
Defined.

Lemma palloc_alloc_page_spec_witness :
  free_frames small_boot = 16 ∧ (palloc_alloc_page small_boot).1 ≠ 0.
Proof.
  pose proof (palloc_alloc_page_spec small_boot small_boot_ok) as H.
  assert (free_frames small_boot = 16) as E by (vm_compute; reflexivity).
  rewrite E in H. split; [exact E|apply H].
Defined.

Lemma palloc_alloc_pages_spec_witness :
  (palloc_alloc_pages 3 small_boot).1 = 256 * PAGE_SIZE ∧
  allocates_run small_boot 3 (palloc_alloc_pages 3 small_boot).1
    (palloc_alloc_pages 3 small_boot).2.
Proof.
  assert ((palloc_alloc_pages 3 small_boot).1 = 256 * PAGE_SIZE) as E by (vm_compute; reflexivity).
  split; [exact E|].
  destruct (palloc_alloc_pages_spec small_boot 3 small_boot_ok) as [[H _]|H]; [lia| |exact H].
  rewrite H in E. discriminate E.
Defined.

(** Frame 256 held once. *)
Definition one_page : palloc := (palloc_alloc_page small_boot).2.

Lemma one_page_ok : palloc_ok one_page.
Proof. apply (palloc_step_ok small_boot); [constructor|apply small_boot_ok]. Qed.

Lemma palloc_retain_free_roundtrip_witness :
  palloc_page_refcount 1048576 (palloc_retain_page 1048576 one_page).2 = 2 ∧
  free_frames (palloc_free_page 1048576 (palloc_retain_page 1048576 one_page).2) = 15.
Proof.
  destruct (palloc_retain_free_roundtrip one_page 1048576 one_page_ok) as (_&H1&_&H2).
  - unfold is_u32. lia.
  - vm_compute; reflexivity.
  - assert (frame_refs one_page (1048576 / PAGE_SIZE) = 1) as -> by (vm_compute; reflexivity). lia.
  - rewrite H1, H2. split; vm_compute; reflexivity.
Defined.

Lemma palloc_free_page_spec_witness :
  live_page one_page 1048576 = true ∧ drops_ref one_page 1048576 (palloc_free_page 1048576 one_page).
Proof.
  pose proof (palloc_free_page_spec one_page 1048576 one_page_ok) as H.
  assert (live_page one_page 1048576 = true) as E by (vm_compute; reflexivity).
  rewrite E in H. split; [exact E|]. apply H. unfold is_u32. lia.
Defined.

(** A memory map at address 4096 with one available region, the gigabyte from
    4 GiB on: a machine whose RAM continues above the 32-bit address space. *)
Definition map_mem : carray Z :=
  λ a, if a =? 4096 then 20 else if a =? 4104 then 1 else if a =? 4111 then 64
       else if a =? 4116 then 1 else 0.

Definition map_info : multiboot_info :=
  {| mb_address := 36864; flags := MULTIBOOT_INFO_MMAP; mem_upper := 0; cmdline := 0;
     mods_count := 0; mods_addr := 0; mmap_length := 24; mmap_addr := 4096;
     framebuffer_addr := 0; framebuffer_pitch := 0; framebuffer_width := 0; framebuffer_height := 0;
     framebuffer_bpp := 0; framebuffer_type := 0; framebuffer_rgb := no_rgb |}.

Lemma map_mem_wf : bytes_wf map_mem.
Proof. intros a. unfold map_mem, is_u8. repeat case_if; lia. Qed.

Lemma map_entries :
  mmap_entries (Z.to_nat (mmap_length map_info)) map_mem (mmap_addr map_info)
    (mmap_addr map_info + mmap_length map_info) = [4096].
Proof. vm_compute. reflexivity. Qed.

Definition map_boot : option palloc :=
  palloc_init (Z.to_nat (mmap_length map_info)) map_mem map_info 1048576 1048576 palloc_bss.

Lemma map_boot_some : ∃ st, map_boot = Some st.
Proof.
  apply (palloc_init_returns map_mem map_info 1048576 1048576 palloc_bss map_mem_wf).
  - unfold is_u32. simpl. lia.
  - simpl. lia.
  - simpl. lia.
  - rewrite map_entries. by intros a ->%list_elem_of_singleton.
Qed.

Lemma palloc_init_terminates_witness : ∃ st, map_boot = Some st.
Proof.
  apply (palloc_init_terminates map_mem map_info 1048576 1048576 palloc_bss map_mem_wf).
  - unfold is_u32. simpl. lia.
  - simpl. lia.
  - simpl. lia.
  - rewrite map_entries. intros a ->%list_elem_of_singleton.
    change (load32 map_mem 4096) with 20. lia.
Defined.

Lemma palloc_managed_bytes_wraps_witness :
  ∃ st, map_boot = Some st ∧ palloc_managed_bytes st = 0.
Proof.
  destruct map_boot as [st|] eqn:E.
  - exists st. split; [reflexivity|].
    apply (palloc_managed_bytes_wraps (Z.to_nat (mmap_length map_info)) map_mem map_info
             1048576 1048576 st); [reflexivity|exact E|].
    exists 4096. split; [|split; vm_compute; discriminate || reflexivity].
    replace (u32 (mmap_addr map_info + mmap_length map_info))
      with (mmap_addr map_info + mmap_length map_info) by reflexivity.
    rewrite map_entries. left.
  - destruct map_boot_some as [st H]. congruence.
Defined.
