(* ===== verification/Trace.v ===== *)
(** * The kernel trace ring ([src/kernel/trace.c])

    A ring of the last [TRACE_CAPACITY] records, numbered by a running sequence.
    The abstract state is the whole history of logged records; the refinement
    theorem says that a read sees exactly the last [TRACE_CAPACITY] of them.
    [pit_ticks()] is read by the logger and is an argument here. *)

From S2P Require Import Prelude.

Local Open Scope Z_scope.
Local Open Scope c_scope.

Definition TRACE_CAPACITY : Z := 256.

Record sys_trace_record := {
  sequence : Z;
  ticks : Z;
  category : Z;
  event : Z;
  arg0 : Z;
  arg1 : Z;
  arg2 : Z;
}.

Record sys_trace_info := {
  capacity : Z;
  count : Z;
  next_sequence : Z;
}.

Record trace := {
  trace_ring : carray sys_trace_record;
  trace_next_sequence : Z;
  trace_count : Z;
  trace_ready : Z;
}.

Definition zero_record : sys_trace_record :=
  {| sequence := 0; ticks := 0; category := 0; event := 0; arg0 := 0; arg1 := 0; arg2 := 0 |}.

Definition trace_init (st : trace) : trace :=
  {| trace_ring := arr_fill 0 TRACE_CAPACITY zero_record (trace_ring st);
     trace_next_sequence := 0; trace_count := 0; trace_ready := 1 |}.

Definition trace_log (now cat ev a0 a1 a2 : Z) (st : trace) : trace :=
  if trace_ready st =? 0 then st
  else
    let slot := trace_next_sequence st mod TRACE_CAPACITY in
    let record := {| sequence := trace_next_sequence st; ticks := now; category := cat;
                     event := ev; arg0 := a0; arg1 := a1; arg2 := a2 |} in
    {| trace_ring := <[slot := record]> (trace_ring st);
       trace_next_sequence := trace_next_sequence st ⊞ 1;
       trace_count := if trace_count st <? TRACE_CAPACITY
                      then trace_count st ⊞ 1 else trace_count st;
       trace_ready := trace_ready st |}.

(** The out-parameter is the cell it points to; [None] is the null pointer. *)
Definition trace_get_info (info : option sys_trace_info) (st : trace)
    : Z * option sys_trace_info :=
  match info with
  | None => (-1, None)
  | Some _ =>
      if trace_ready st =? 0 then (-1, info)
      else (0, Some {| capacity := TRACE_CAPACITY; count := trace_count st;
                       next_sequence := trace_next_sequence st |})
  end.

Definition trace_read (seq : Z) (record : option sys_trace_record) (st : trace)
    : Z * option sys_trace_record :=
  match record with
  | None => (-1, None)
  | Some _ =>
      if trace_ready st =? 0 then (-1, record)
      else if trace_count st =? 0 then (1, record)
      else
        let oldest_sequence :=
          if trace_count st <? trace_next_sequence st
          then trace_next_sequence st ⊟ trace_count st else 0 in
        if (seq <? oldest_sequence) || (trace_next_sequence st <=? seq) then (1, record)
        else (0, Some (trace_ring st (seq mod TRACE_CAPACITY)))
  end.

(** ** The abstract log *)

(** A call of [trace_log]: the clock and the five arguments. *)
Record log_call := { lc_now : Z; lc_cat : Z; lc_ev : Z; lc_a0 : Z; lc_a1 : Z; lc_a2 : Z }.

Definition do_log (st : trace) (c : log_call) : trace :=
  trace_log (lc_now c) (lc_cat c) (lc_ev c) (lc_a0 c) (lc_a1 c) (lc_a2 c) st.

(** The record that the [i]-th call leaves. *)
Definition record_of (i : Z) (c : log_call) : sys_trace_record :=
  {| sequence := i; ticks := lc_now c; category := lc_cat c; event := lc_ev c;
     arg0 := lc_a0 c; arg1 := lc_a1 c; arg2 := lc_a2 c |}.

(** What a reader is promised about a history of calls: the record of call
    [seq] while it is among the last [TRACE_CAPACITY], "no such record" (1)
    otherwise. *)
Definition spec_read (hist : list log_call) (seq : Z) (out : sys_trace_record)
    : Z * option sys_trace_record :=
  match hist !! Z.to_nat seq with
  | Some c => if (Z.of_nat (length hist) - TRACE_CAPACITY <=? seq) && (0 <=? seq)
              then (0, Some (record_of seq c)) else (1, Some out)
  | None => (1, Some out)
  end.

(** The simulation relation between a ring and the history it stands for. *)
Record trace_rep (hist : list log_call) (st : trace) : Prop := {
  rep_ready : trace_ready st = 1;
  rep_next : trace_next_sequence st = Z.of_nat (length hist);
  rep_count : trace_count st = Z.min (Z.of_nat (length hist)) TRACE_CAPACITY;
  rep_ring : ∀ i c, hist !! i = Some c →
    Z.of_nat (length hist) - TRACE_CAPACITY ≤ Z.of_nat i →
    trace_ring st (Z.of_nat i mod TRACE_CAPACITY) = record_of (Z.of_nat i) c;
}.

Lemma trace_init_rep st : trace_rep [] (trace_init st).
Proof. constructor; done. Qed.

Lemma do_log_rep hist st c :
  trace_rep hist st → Z.of_nat (length hist) + 1 < 4294967296 →
  trace_rep (hist ++ [c]) (do_log st c).
Proof.
  intros [Hr Hn Hc Hring] Hlen. unfold TRACE_CAPACITY in *.
  unfold do_log, trace_log. rewrite Hr. simpl.
  constructor; simpl; rewrite ?length_app; simpl.
  - done.
  - rewrite Hn, u32_small by lia. lia.
  - unfold TRACE_CAPACITY. rewrite Hc. case_if; [rewrite u32_small by lia|]; lia.
  - unfold TRACE_CAPACITY. intros i d Hi Hold. rewrite arr_get_set.
    destruct (decide (i = length hist)) as [->|Hne].
    + rewrite list_lookup_middle in Hi by done. injection Hi as ->.
      rewrite Hn, decide_True by done. reflexivity.
    + assert (i < length (hist ++ [c]))%nat as Hlt by (by eapply lookup_lt_Some).
      rewrite length_app in Hlt. simpl in Hlt.
      rewrite lookup_app_l in Hi by lia. rewrite Hn, decide_False by word_lia.
      apply Hring; [done|lia].
Qed.

Lemma logs_rep st calls :
  Z.of_nat (length calls) < 4294967296 →
  trace_rep calls (fold_left do_log calls (trace_init st)).
Proof.
  intros H. induction calls as [|c calls IH] using rev_ind; [apply trace_init_rep|].
  rewrite length_app in H. simpl in H.
  rewrite fold_left_app. simpl. apply do_log_rep; [|lia]. apply IH. lia.
Qed.

Lemma trace_read_rep hist st seq out :
  trace_rep hist st → 0 ≤ seq → Z.of_nat (length hist) < 4294967296 →
  trace_read seq (Some out) st = spec_read hist seq out.
Proof.
  intros [Hr Hn Hc Hring] Hseq Hlen. unfold trace_read, spec_read, TRACE_CAPACITY in *.
  rewrite Hr, Hn, Hc. simpl.
  destruct (hist !! Z.to_nat seq) as [c|] eqn:Hl.
  - pose proof (lookup_lt_Some _ _ _ Hl). case_if; [lia|].
    specialize (Hring _ _ Hl). rewrite Z2Nat.id in Hring by lia.
    destruct (Z.leb_spec (Z.of_nat (length hist) - 256) seq); simpl.
    + rewrite (proj2 (Z.leb_le 0 seq)) by lia. rewrite Hring by lia.
      case_if; [|done]. destruct E0; zbool; [|lia].
      case_if_in H1; [rewrite u32_small in H1 by lia|]; lia.
    + case_if; [done|]. case_if_in H1; [rewrite u32_small in H1 by lia|]; lia.
  - apply lookup_ge_None in Hl. case_if; [done|]. case_if; [done|]. lia.
Qed.

(** ** Properties *)

(** C39: The trace ring refines the full log: after [trace_init] and any sequence
    of fewer than 2^32 log calls, [trace_read] of any sequence number returns the
    very record of that call while it is one of the last 256, and 1 with the
    caller's buffer untouched otherwise; [trace_get_info] reports the number of
    readable records and the length of the log. *)
Theorem trace_refines_log st calls seq out info :
  Z.of_nat (length calls) < 4294967296 → is_u32 seq →
  trace_read seq (Some out) (fold_left do_log calls (trace_init st)) = spec_read calls seq out ∧
  trace_get_info (Some info) (fold_left do_log calls (trace_init st))
  = (0, Some {| capacity := TRACE_CAPACITY;
                count := Z.min (Z.of_nat (length calls)) TRACE_CAPACITY;
                next_sequence := Z.of_nat (length calls) |}).
Proof.
  intros Hlen [Hseq _]. pose proof (logs_rep st calls Hlen) as Hrep. split.
  - by apply trace_read_rep.
  - destruct Hrep as [Hr Hn Hc _]. unfold trace_get_info. by rewrite Hr, Hn, Hc.
Qed.

(** Witness: 300 calls; call 43 has been overwritten, call 44 is the oldest kept. *)
Definition blank_trace : trace :=
  {| trace_ring := λ _, zero_record; trace_next_sequence := 0; trace_count := 0; trace_ready := 0 |}.

Definition three_hundred : list log_call :=
  (λ i, {| lc_now := i; lc_cat := 3; lc_ev := 5; lc_a0 := i; lc_a1 := 0; lc_a2 := 0 |})
    <$> seqZ 0 300.

Lemma trace_refines_log_witness :
  (trace_read 43 (Some zero_record) (fold_left do_log three_hundred (trace_init blank_trace))).1 = 1 ∧
  (trace_read 44 (Some zero_record) (fold_left do_log three_hundred (trace_init blank_trace))).1 = 0.
Proof.
  split.
  - rewrite (proj1 (trace_refines_log blank_trace three_hundred 43 zero_record
      {| capacity := 0; count := 0; next_sequence := 0 |}
      ltac:(vm_compute; reflexivity) ltac:(unfold is_u32; lia))). vm_compute. reflexivity.
  - rewrite (proj1 (trace_refines_log blank_trace three_hundred 44 zero_record
      {| capacity := 0; count := 0; next_sequence := 0 |}
      ltac:(vm_compute; reflexivity) ltac:(unfold is_u32; lia))). vm_compute. reflexivity.
Defined.
