(* ===== verification/Ports.v ===== *)
(** * Input and output ports, and the serial line ([src/include/kernel/io.h], [src/kernel/serial.c])

    The port instructions of the processor are the interface [PortIO].  What the serial
    chip at [COM1] promises is [UartLaws]: its receive queue, the characters it has sent,
    and how long its transmitter stays busy.  With them every loop of the driver ends. *)

From S2P Require Import Prelude.

Local Open Scope Z_scope.
Local Open Scope c_scope.

(** The instructions [in] and [out] on 8, 16 and 32 bits, and the write to port 0x80 that
    waits for the bus. *)
Class PortIO (P : Type) := {
  inb : Z → P → Z * P;
  inw : Z → P → Z * P;
  inl : Z → P → Z * P;
  outb : Z → Z → P → P;
  outw : Z → Z → P → P;
  outl : Z → Z → P → P;
  io_wait : P → P;
}.

Definition COM1 : Z := 1016.

Section serial.
Context {P : Type} `{!PortIO P}.
Implicit Types p : P.

(** [serial_present] is the static of the file. *)
Definition serial_tx_ready (serial_present : bool) p : bool * P :=
  if negb serial_present then (false, p)
  else let '(v, p) := inb (COM1 + 5) p in (truthy (Z.land v 32), p).

Definition serial_available (serial_present : bool) : bool := serial_present.

Definition serial_can_read (serial_present : bool) p : bool * P :=
  if negb serial_present then (false, p)
  else let '(v, p) := inb (COM1 + 5) p in (truthy (Z.land v 1), p).

Definition serial_init p : bool * P :=
  let p := outb (COM1 + 1) 0 p in
  let p := outb (COM1 + 3) 128 p in
  let p := outb (COM1 + 0) 3 p in
  let p := outb (COM1 + 1) 0 p in
  let p := outb (COM1 + 3) 3 p in
  let p := outb (COM1 + 2) 199 p in
  let p := outb (COM1 + 4) 30 p in
  let p := outb (COM1 + 0) 174 p in
  let p := io_wait p in
  let '(probe_value, p) := inb (COM1 + 0) p in
  if negb (probe_value =? 174) then (false, outb (COM1 + 4) 0 p)
  else (true, outb (COM1 + 4) 11 p).

(** [while (!serial_tx_ready());] and [while (!serial_can_read());], which may not end. *)
Fixpoint wait_until (fuel : nat) (test : P → bool * P) p : option P :=
  match fuel with
  | O => None
  | S fuel => let '(b, p) := test p in if b then Some p else wait_until fuel test p
  end.

Definition serial_write_char (fuel : nat) (serial_present : bool) (ch : Z) p : option P :=
  if negb serial_present then Some p
  else p ← wait_until fuel (serial_tx_ready serial_present) p; Some (outb COM1 (u8 ch) p).

Definition serial_read_char (fuel : nat) (serial_present : bool) p : option (Z * P) :=
  if negb serial_present then Some (0, p)
  else p ← wait_until fuel (serial_can_read serial_present) p; Some (inb COM1 p).
End serial.

(** What the chip promises: reading the line status changes nothing but the passing of time;
    its first bit is set exactly when a character waits and its sixth exactly when the transmitter
    is free, which it is after finitely many reads, with a bound on them after each character that
    is sent; reading the data port takes the character that has waited longest.  Characters arrive
    between the calls of the driver: the laws do not let one arrive while it reads or writes the ports. *)
Class UartLaws (P : Type) `{!PortIO P} := {
  rx : P → list Z;
  tx : P → list Z;
  tx_busy : P → nat;
  tx_bound : nat;
  lsr_read p v p' : inb (COM1 + 5) p = (v, p') →
    rx p' = rx p ∧ tx p' = tx p ∧ tx_busy p' = pred (tx_busy p)
    ∧ (Z.land v 1 ≠ 0 ↔ rx p ≠ []) ∧ (Z.land v 32 ≠ 0 ↔ tx_busy p = O);
  data_read p c l : rx p = c :: l →
    ∃ p', inb COM1 p = (c, p') ∧ rx p' = l ∧ tx p' = tx p ∧ tx_busy p' = tx_busy p;
  data_write p c : is_u8 c → tx_busy p = O →
    rx (outb COM1 c p) = rx p ∧ tx (outb COM1 c p) = tx p ++ [c] ∧ (tx_busy (outb COM1 c p) ≤ tx_bound)%nat;
}.

Section laws.
Context {P : Type} `{!PortIO P} `{!UartLaws P}.
Implicit Types p : P.

Lemma can_read_effect p :
  ∃ p', serial_can_read true p = (bool_decide (rx p ≠ []), p') ∧ rx p' = rx p ∧ tx p' = tx p.
Proof.
  unfold serial_can_read. cbn [negb]. destruct (inb _ p) as [v p'] eqn:E. destruct (lsr_read _ _ _ E) as (Hr&Ht&_&Hb&_).
  exists p'. split_and!; [|done|done]. assert (truthy (Z.land v 1) = bool_decide (rx p ≠ [])) as ->; [|done].
  case_bool_decide as Hd; destruct (truthy (Z.land v 1)) eqn:Ev; zbool; try done; [by apply Hb in Hd|by apply Hb in Ev].
Qed.

(** Reading a character that waits. *)
Lemma read_char_effect fuel p c l :
  (0 < fuel)%nat → rx p = c :: l →
  ∃ p', serial_read_char fuel true p = Some (c, p') ∧ rx p' = l ∧ tx p' = tx p.
Proof.
  intros Hf Hr. destruct fuel as [|fuel]; [lia|]. unfold serial_read_char. cbn [negb wait_until].
  destruct (can_read_effect p) as (p1&->&Hr1&Ht1). rewrite Hr, bool_decide_true by done. cbn [mbind option_bind].
  rewrite Hr in Hr1. destruct (data_read p1 c l Hr1) as (p'&->&?&?&_). exists p'. split_and!; congruence.
Qed.

Lemma wait_tx fuel p :
  (tx_busy p < fuel)%nat →
  ∃ p', wait_until fuel (serial_tx_ready true) p = Some p' ∧ rx p' = rx p ∧ tx p' = tx p ∧ tx_busy p' = O.
Proof.
  revert p. induction fuel as [|fuel IH]; intros p Hf; [lia|]. cbn [wait_until]. unfold serial_tx_ready at 1. cbn [negb].
  destruct (inb _ p) as [v p1] eqn:E. destruct (lsr_read _ _ _ E) as (Hr&Ht&Hb&_&Hf6).
  destruct (truthy (Z.land v 32)) eqn:Ev; zbool.
  - apply Hf6 in Ev. exists p1. rewrite Hb, Ev. done.
  - destruct (tx_busy p) as [|m] eqn:Em; [by destruct (proj2 Hf6 eq_refl)|].
    destruct (IH p1) as (p'&->&?&?&?); [lia|]. exists p'. split_and!; congruence.
Qed.

(** A character goes out once the transmitter is free. *)
Lemma write_char_effect fuel p c :
  (tx_busy p < fuel)%nat →
  ∃ p', serial_write_char fuel true c p = Some p' ∧ rx p' = rx p ∧ tx p' = tx p ++ [u8 c] ∧ (tx_busy p' ≤ tx_bound)%nat.
Proof.
  intros Hf. unfold serial_write_char. cbn [negb]. destruct (wait_tx fuel p Hf) as (p1&->&Hr&Ht&Hb). cbn [mbind option_bind].
  destruct (data_write p1 (u8 c) (u8_range c) Hb) as (Hr'&Ht'&?). eexists. split_and!; [done|congruence|congruence|done].
Qed.
End laws.
