(* ===== verification/Input.v ===== *)
(** * Keyboard input ([src/kernel/input.c])

    A queue of characters, filled from the serial line, from the keyboard controller and
    from the synthetic keyboard of a hypervisor.  A character is the byte of a C [char].
    The ports are those of [Ports]; the synthetic keyboard is the interface
    [SynthKeyboard], which hands over scan codes.  Interrupts are off while the queue changes. *)

From S2P Require Import Prelude Ports.

Local Open Scope Z_scope.
Local Open Scope c_scope.

Definition INPUT_QUEUE_CAPACITY : Z := 256.
Definition I8042_DATA_PORT : Z := 96.
Definition I8042_STATUS_PORT : Z := 100.
Definition I8042_COMMAND_PORT : Z := 100.
Definition I8042_STATUS_OUTPUT_FULL : Z := 1.
Definition I8042_STATUS_INPUT_FULL : Z := 2.
Definition I8042_STATUS_AUX_DATA : Z := 32.
Definition I8042_ENABLE_FIRST_PORT : Z := 174.
Definition I8042_KEYBOARD_ENABLE_SCANNING : Z := 244.
Definition I8042_KEYBOARD_ACK : Z := 250.
Definition I8042_PREFIX_E0 : Z := 224.
Definition I8042_PREFIX_E1 : Z := 225.
Definition I8042_RELEASE_MASK : Z := 128.
Definition INPUT_BACKEND_SERIAL : Z := 1.
Definition INPUT_BACKEND_I8042 : Z := 2.
Definition INPUT_BACKEND_HYPERV : Z := 4.

Record input := {
  input_queue : carray Z;
  input_queue_read_index : Z;
  input_queue_write_index : Z;
  input_queue_buffered : Z;
  input_backends : Z;
  i8042_shift : Z;
  i8042_caps_lock : Z;
  i8042_extended_prefix : Z;
}.

Definition with_queue (q : carray Z) (r : Z) (w : Z) (b : Z) (s : input) : input :=
  {| input_queue := q; input_queue_read_index := r; input_queue_write_index := w; input_queue_buffered := b;
     input_backends := input_backends s; i8042_shift := i8042_shift s; i8042_caps_lock := i8042_caps_lock s;
     i8042_extended_prefix := i8042_extended_prefix s |}.
Definition with_backends (v : Z) (s : input) : input :=
  {| input_queue := input_queue s; input_queue_read_index := input_queue_read_index s;
     input_queue_write_index := input_queue_write_index s; input_queue_buffered := input_queue_buffered s;
     input_backends := v; i8042_shift := i8042_shift s; i8042_caps_lock := i8042_caps_lock s;
     i8042_extended_prefix := i8042_extended_prefix s |}.
Definition with_shift (v : Z) (s : input) : input :=
  {| input_queue := input_queue s; input_queue_read_index := input_queue_read_index s;
     input_queue_write_index := input_queue_write_index s; input_queue_buffered := input_queue_buffered s;
     input_backends := input_backends s; i8042_shift := v; i8042_caps_lock := i8042_caps_lock s;
     i8042_extended_prefix := i8042_extended_prefix s |}.
Definition with_caps (v : Z) (s : input) : input :=
  {| input_queue := input_queue s; input_queue_read_index := input_queue_read_index s;
     input_queue_write_index := input_queue_write_index s; input_queue_buffered := input_queue_buffered s;
     input_backends := input_backends s; i8042_shift := i8042_shift s; i8042_caps_lock := v;
     i8042_extended_prefix := i8042_extended_prefix s |}.
Definition with_prefix (v : Z) (s : input) : input :=
  {| input_queue := input_queue s; input_queue_read_index := input_queue_read_index s;
     input_queue_write_index := input_queue_write_index s; input_queue_buffered := input_queue_buffered s;
     input_backends := input_backends s; i8042_shift := i8042_shift s; i8042_caps_lock := i8042_caps_lock s;
     i8042_extended_prefix := v |}.

(** ** The queue *)

Definition input_queue_push_locked (ch : Z) (s : input) : input :=
  if INPUT_QUEUE_CAPACITY <=? input_queue_buffered s then s
  else with_queue (<[input_queue_write_index s := ch]> (input_queue s)) (input_queue_read_index s)
         ((input_queue_write_index s ⊞ 1) mod INPUT_QUEUE_CAPACITY) (input_queue_buffered s ⊞ 1) s.

Definition input_enqueue_char (ch : Z) (s : input) : input := input_queue_push_locked ch s.

(** The caller's variable is there. *)
Definition input_queue_pop_locked (s : input) : option Z * input :=
  if input_queue_buffered s =? 0 then (None, s)
  else (Some (input_queue s (input_queue_read_index s)),
        with_queue (input_queue s) ((input_queue_read_index s ⊞ 1) mod INPUT_QUEUE_CAPACITY) (input_queue_write_index s)
          (input_queue_buffered s ⊟ 1) s).

(** ** Scan codes *)

Definition ascii_is_alpha (ch : Z) : bool := (97 <=? ch) && (ch <=? 122).
Definition ascii_to_upper (ch : Z) : Z := if negb (ascii_is_alpha ch) then ch else ch - (97 - 65).

Definition unshifted_table : list Z := [
    0; 0; 49; 50; 51; 52; 53; 54; 55; 56; 57; 48; 45; 61; 8; 9; 113; 119; 101; 114; 116; 121; 117;
    105; 111; 112; 91; 93; 10; 0; 97; 115; 100; 102; 103; 104; 106; 107; 108; 59; 39; 96; 0; 92;
    122; 120; 99; 118; 98; 110; 109; 44; 46; 47; 0; 0; 0; 32].

Definition shifted_table : list Z := [
    0; 0; 33; 64; 35; 36; 37; 94; 38; 42; 40; 41; 95; 43; 8; 9; 81; 87; 69; 82; 84; 89; 85; 73; 79;
    80; 123; 125; 10; 0; 65; 83; 68; 70; 71; 72; 74; 75; 76; 58; 34; 126; 0; 124; 90; 88; 67; 86;
    66; 78; 77; 60; 62; 63; 0; 0; 0; 32].

Definition i8042_unshifted_char (scancode : Z) : Z := nth (Z.to_nat (Z.land scancode 127)) unshifted_table 0.
Definition i8042_shifted_char (scancode : Z) : Z := nth (Z.to_nat (Z.land scancode 127)) shifted_table 0.

Definition i8042_translate_char (scancode : Z) (s : input) : Z :=
  let base := i8042_unshifted_char scancode in
  if base =? 0 then 0
  else if negb (ascii_is_alpha base) then (if truthy (i8042_shift s) then i8042_shifted_char scancode else base)
  else if truthy (Z.lxor (i8042_shift s) (i8042_caps_lock s)) then ascii_to_upper base
  else base.

(** [!x] of an [int] *)
Definition not_int (x : Z) : Z := if x =? 0 then 1 else 0.

Definition input_process_xt_scancode (scancode : Z) (s : input) : input :=
  let code := Z.land scancode 127 in
  let released := truthy (Z.land scancode I8042_RELEASE_MASK) in
  if (scancode =? I8042_PREFIX_E0) || (scancode =? I8042_PREFIX_E1) then with_prefix 1 s
  else if truthy (i8042_extended_prefix s) then with_prefix 0 s
  else if (code =? 42) || (code =? 54) then with_shift (if released then 0 else 1) s
  else if (code =? 58) && negb released then with_caps (not_int (i8042_caps_lock s)) s
  else if released then s
  else
    let ch := i8042_translate_char code s in
    if ch =? 0 then s else input_enqueue_char ch s.

(** ** Devices *)

(** [hyperv_keyboard.c]: whether the keyboard is there, and the scan codes that have arrived. *)
Class SynthKeyboard (V : Type) := {
  hyperv_keyboard_init : V → bool * list Z * V;
  hyperv_keyboard_poll : V → list Z * V;
}.

Section devices.
Context {P V : Type} `{!PortIO P} `{!SynthKeyboard V}.

(** The statics of [input.c] and [serial.c] with the devices. *)
Record inputsys := { inp : input; serial_present : bool; ports : P; synth : V }.

Definition upd_input (f : input → input) (n : inputsys) : inputsys :=
  {| inp := f (inp n); serial_present := serial_present n; ports := ports n; synth := synth n |}.
Definition set_ports (p : P) (n : inputsys) : inputsys :=
  {| inp := inp n; serial_present := serial_present n; ports := p; synth := synth n |}.
Definition set_synth (v : V) (n : inputsys) : inputsys :=
  {| inp := inp n; serial_present := serial_present n; ports := ports n; synth := v |}.

Fixpoint i8042_wait_input_clear (attempts : nat) (p : P) : bool * P :=
  match attempts with
  | O => (false, p)
  | S attempts =>
      let '(status, p) := inb I8042_STATUS_PORT p in
      if Z.land status I8042_STATUS_INPUT_FULL =? 0 then (true, p)
      else i8042_wait_input_clear attempts (io_wait p)
  end.

Fixpoint i8042_flush_output (attempts : nat) (p : P) : P :=
  match attempts with
  | O => p
  | S attempts =>
      let '(status, p) := inb I8042_STATUS_PORT p in
      if Z.land status I8042_STATUS_OUTPUT_FULL =? 0 then p
      else let '(_, p) := inb I8042_DATA_PORT p in i8042_flush_output attempts (io_wait p)
  end.

Definition i8042_send_command (command : Z) (p : P) : P :=
  let '(clear, p) := i8042_wait_input_clear 4096 p in
  if negb clear then p else io_wait (outb I8042_COMMAND_PORT command p).

Definition i8042_send_data (value : Z) (p : P) : P :=
  let '(clear, p) := i8042_wait_input_clear 4096 p in
  if negb clear then p else io_wait (outb I8042_DATA_PORT value p).

(** The loops of the polls end when the device has nothing more; [None] is a loop that has
    not ended. *)
Fixpoint poll_serial_loop (fuel : nat) (n : inputsys) : option inputsys :=
  match fuel with
  | O => None
  | S fuel' =>
      let '(b, p) := serial_can_read (serial_present n) (ports n) in
      if negb b then Some (set_ports p n)
      else '(c, p) ← serial_read_char fuel (serial_present n) p;
           poll_serial_loop fuel' (upd_input (input_queue_push_locked c) (set_ports p n))
  end.

Definition input_poll_serial (fuel : nat) (n : inputsys) : option inputsys :=
  if Z.land (input_backends (inp n)) INPUT_BACKEND_SERIAL =? 0 then Some n else poll_serial_loop fuel n.

Fixpoint poll_i8042_loop (fuel : nat) (n : inputsys) : option inputsys :=
  match fuel with
  | O => None
  | S fuel =>
      let '(status, p) := inb I8042_STATUS_PORT (ports n) in
      if Z.land status I8042_STATUS_OUTPUT_FULL =? 0 then Some (set_ports p n)
      else
        let '(value, p) := inb I8042_DATA_PORT p in
        let n := set_ports p n in
        poll_i8042_loop fuel
          (if truthy (Z.land status I8042_STATUS_AUX_DATA) then n else upd_input (input_process_xt_scancode value) n)
  end.

Definition input_poll_i8042 (fuel : nat) (n : inputsys) : option inputsys :=
  if Z.land (input_backends (inp n)) INPUT_BACKEND_I8042 =? 0 then Some n else poll_i8042_loop fuel n.

Definition process_codes (codes : list Z) (s : input) : input :=
  foldl (λ s code, input_process_xt_scancode code s) s codes.

Definition add_backend (b : Z) (s : input) : input := with_backends (Z.lor (input_backends s) b) s.

Definition input_init_i8042 (n : inputsys) : inputsys :=
  let '(status, p) := inb I8042_STATUS_PORT (ports n) in
  let n := set_ports p n in
  if status =? 255 then n
  else
    let p := i8042_flush_output 1024 p in
    let p := i8042_send_command I8042_ENABLE_FIRST_PORT p in
    let p := i8042_send_data I8042_KEYBOARD_ENABLE_SCANNING p in
    let '(status, p) := inb I8042_STATUS_PORT p in
    let n := set_ports p n in
    let n := if Z.land status I8042_STATUS_OUTPUT_FULL =? 0 then n
             else let '(response, p) := inb I8042_DATA_PORT p in
                  let n := set_ports p n in
                  if response =? I8042_KEYBOARD_ACK then n else upd_input (input_process_xt_scancode response) n in
    upd_input (add_backend INPUT_BACKEND_I8042) n.

Definition input_init (n : inputsys) : inputsys :=
  let n := upd_input (λ s, {| input_queue := input_queue s; input_queue_read_index := 0; input_queue_write_index := 0;
                              input_queue_buffered := 0; input_backends := 0; i8042_shift := 0; i8042_caps_lock := 0;
                              i8042_extended_prefix := 0 |}) n in
  let n := if serial_available (serial_present n) then upd_input (add_backend INPUT_BACKEND_SERIAL) n else n in
  let n := input_init_i8042 n in
  let '(found, codes, v) := hyperv_keyboard_init (synth n) in
  let n := set_synth v (upd_input (process_codes codes) n) in
  if found then upd_input (add_backend INPUT_BACKEND_HYPERV) n else n.

Definition poll_synth (n : inputsys) : inputsys :=
  let '(codes, v) := hyperv_keyboard_poll (synth n) in
  set_synth v (upd_input (process_codes codes) n).

Definition input_poll (fuel : nat) (n : inputsys) : option inputsys :=
  n ← input_poll_serial fuel n;
  n ← input_poll_i8042 fuel n;
  Some (poll_synth n).

Definition input_try_read_char (fuel : nat) (n : inputsys) : option (option Z * inputsys) :=
  n ← input_poll fuel n;
  let '(c, s) := input_queue_pop_locked (inp n) in
  Some (c, upd_input (λ _, s) n).

Definition input_backend_flags (n : inputsys) : Z := input_backends (inp n).
Definition input_has_backend (n : inputsys) : bool := truthy (input_backends (inp n)).
End devices.

Arguments inputsys : clear implicits.
