(* ===== verification/InputKeys.v ===== *)
(** * Keys, scan codes and the input queue

    The queue of [Input] is a bounded first-in first-out queue that drops what does not
    fit.  Scan codes are decoded into it by a small machine with three flags; typing a text on
    the keyboard puts exactly this text into the queue.  The polls take everything
    that waits at the devices, and end. *)

From S2P Require Import Prelude Ports Input.

Local Open Scope Z_scope.
Local Open Scope c_scope.

(** ** The queue *)

(** The ring holds the list [q]. *)
Record queue_rep (q : list Z) (s : input) : Prop := {
  qr_length : input_queue_buffered s = Z.of_nat (length q);
  qr_bound : (length q ≤ 256)%nat;
  qr_read : 0 ≤ input_queue_read_index s < 256;
  qr_write : input_queue_write_index s = (input_queue_read_index s + Z.of_nat (length q)) mod 256;
  qr_cells : ∀ i c, q !! i = Some c → input_queue s ((input_queue_read_index s + Z.of_nat i) mod 256) = c;
}.

(** What a queue with room for 256 characters holds after [l] has been added. *)
Definition add_chars (q l : list Z) : list Z := take 256 (q ++ l).

Lemma add_chars_nil q s : queue_rep q s → add_chars q [] = q.
Proof. intros []. unfold add_chars. rewrite app_nil_r. by apply take_ge. Qed.

Lemma add_chars_app q l1 l2 : add_chars (add_chars q l1) l2 = add_chars q (l1 ++ l2).
Proof.
  unfold add_chars. rewrite (app_assoc q l1 l2). generalize (q ++ l1) as l. intros l.
  destruct (decide (length l ≤ 256)%nat); [by rewrite (take_ge l) by lia|].
  rewrite take_app_le by (rewrite length_take; lia). rewrite take_app_le by lia. by rewrite take_take, Nat.min_id.
Qed.

Lemma ring_index_inj r i j : 0 ≤ r → 0 ≤ i < 256 → 0 ≤ j < 256 → (r + i) mod 256 = (r + j) mod 256 → i = j.
Proof. intros. word_lia. Qed.

Lemma push_rep q s c : queue_rep q s → queue_rep (add_chars q [c]) (input_queue_push_locked c s).
Proof.
  intros [Hl Hb Hr Hw Hc]. unfold input_queue_push_locked, INPUT_QUEUE_CAPACITY, add_chars. case_if.
  - rewrite take_app_le by lia. rewrite take_ge by lia. by split.
  - rewrite take_ge by (rewrite length_app; simpl; lia). rewrite (u32_small (input_queue_buffered s + 1)) by lia.
    rewrite Hw, u32_small by word_lia.
    split; cbn [with_queue input_queue_buffered input_queue_read_index input_queue_write_index input_queue]; rewrite ?length_app; simpl length; try lia.
    + rewrite Z.add_mod_idemp_l by lia. f_equal. lia.
    + intros i x Hx. destruct (decide (i < length q)%nat).
      * rewrite lookup_app_l in Hx by lia. rewrite arr_get_set_ne; [by apply Hc|].
        intros Heq. apply ring_index_inj in Heq; lia.
      * rewrite lookup_app_r in Hx by lia. apply list_lookup_singleton_Some in Hx as [Hi <-].
        replace i with (length q) by lia. by rewrite arr_get_set_eq.
Qed.

Lemma pop_rep q s :
  queue_rep q s →
  match q with
  | [] => input_queue_pop_locked s = (None, s)
  | c :: q' => ∃ s', input_queue_pop_locked s = (Some c, s') ∧ queue_rep q' s' ∧ input_backends s' = input_backends s
  end.
Proof.
  intros [Hl Hb Hr Hw Hc]. unfold input_queue_pop_locked, INPUT_QUEUE_CAPACITY. rewrite Hl.
  destruct q as [|c q']; [done|]. simpl length in *. rewrite (proj2 (Z.eqb_neq _ _)) by lia.
  pose proof (Hc O c eq_refl) as H0. rewrite Z.add_0_r, Z.mod_small in H0 by lia. rewrite H0.
  eexists. split; [done|]. split; [|done]. rewrite (u32_small (input_queue_read_index s + 1)) by lia.
  split; cbn [with_queue input_queue_buffered input_queue_read_index input_queue_write_index input_queue].
  - rewrite u32_small by lia. lia.
  - lia.
  - word_lia.
  - rewrite Hw, Z.add_mod_idemp_l by lia. f_equal. lia.
  - intros i x Hx. rewrite Z.add_mod_idemp_l by lia.
    replace (input_queue_read_index s + 1 + Z.of_nat i) with (input_queue_read_index s + Z.of_nat (S i)) by lia. by apply Hc.
Qed.

(** ** The decoder *)

(** The flags of the keyboard. *)
Record flags := { shift : Z; caps : Z; prefix : Z }.
#[export] Instance flags_eq_dec : EqDecision flags.
Proof. solve_decision. Defined.

Definition flags_of (s : input) : flags :=
  {| shift := i8042_shift s; caps := i8042_caps_lock s; prefix := i8042_extended_prefix s |}.

Definition blank_input : input :=
  {| input_queue := λ _, 0; input_queue_read_index := 0; input_queue_write_index := 0; input_queue_buffered := 0;
     input_backends := 0; i8042_shift := 0; i8042_caps_lock := 0; i8042_extended_prefix := 0 |}.

Definition with_flags (f : flags) (s : input) : input := with_prefix (prefix f) (with_caps (caps f) (with_shift (shift f) s)).

(** What one scan code does to the flags, and the character it stands for, if any. *)
Definition decode (f : flags) (code : Z) : flags * option Z :=
  let s := with_flags f blank_input in
  let s' := input_process_xt_scancode code s in
  (flags_of s', (input_queue_pop_locked s').1).

Fixpoint decode_all (f : flags) (codes : list Z) : flags * list Z :=
  match codes with
  | [] => (f, [])
  | code :: codes =>
      let '(f, c) := decode f code in
      let '(f, l) := decode_all f codes in
      (f, option_list c ++ l)
  end.

Lemma push_flags c s : flags_of (input_queue_push_locked c s) = flags_of s.
Proof. unfold input_queue_push_locked. by case_if. Qed.
Lemma push_backends c s : input_backends (input_queue_push_locked c s) = input_backends s.
Proof. unfold input_queue_push_locked. by case_if. Qed.

(** A scan code changes the flags as the decoder says and adds its character to the queue. *)
Lemma process_decode code s :
  ∃ s0, input_process_xt_scancode code s = match (decode (flags_of s) code).2 with
                                           | Some c => input_queue_push_locked c s0 | None => s0 end
    ∧ flags_of s0 = (decode (flags_of s) code).1 ∧ input_backends s0 = input_backends s
    ∧ (∀ q, queue_rep q s → queue_rep q s0).
Proof.
  unfold decode, input_process_xt_scancode. cbv zeta.
  assert (i8042_translate_char (Z.land code 127) (with_flags (flags_of s) blank_input) = i8042_translate_char (Z.land code 127) s) as -> by done.
  change (i8042_extended_prefix (with_flags (flags_of s) blank_input)) with (i8042_extended_prefix s).
  assert (∀ s', input_queue_buffered s' = 0 → (input_queue_pop_locked s').1 = None) as Hnone.
  { intros s' Hb. unfold input_queue_pop_locked. by rewrite Hb. }
  assert (∀ f s1, (∀ q, queue_rep q s → queue_rep q s1) → flags_of s1 = flags_of f → input_queue_buffered f = 0 → input_backends s1 = input_backends s →
    ∃ s0, s1 = match (flags_of f, (input_queue_pop_locked f).1).2 with Some c => input_queue_push_locked c s0 | None => s0 end
    ∧ flags_of s0 = (flags_of f, (input_queue_pop_locked f).1).1 ∧ input_backends s0 = input_backends s ∧ (∀ q, queue_rep q s → queue_rep q s0)) as Hstep.
  { intros f s1 Hq Hf Hb Hbk. exists s1. cbn [fst snd]. rewrite Hnone by done. done. }
  case_if; [apply Hstep; try done; by intros q []|]. case_if; [apply Hstep; try done; by intros q []|].
  case_if; [apply Hstep; try done; by intros q []|]. case_if; [apply Hstep; try done; by intros q []|].
  case_if; [apply Hstep; try done; by intros q []|]. case_if; [apply Hstep; try done; by intros q []|].
  exists s. split_and!; done.
Qed.

Lemma process_codes_decode codes s q :
  queue_rep q s →
  let '(f, l) := decode_all (flags_of s) codes in
  queue_rep (add_chars q l) (process_codes codes s) ∧ flags_of (process_codes codes s) = f
  ∧ input_backends (process_codes codes s) = input_backends s.
Proof.
  revert s q. induction codes as [|code codes IH]; intros s q Hq; cbn [decode_all].
  { split_and!; [|done|done]. by rewrite (add_chars_nil q s). }
  destruct (process_decode code s) as (s0&Ep&Ef&Eb&Hq0). destruct (decode (flags_of s) code) as [f c]. cbn [fst snd] in *.
  set (s1 := input_process_xt_scancode code s) in *. change (process_codes (code :: codes) s) with (process_codes codes s1).
  assert (queue_rep (add_chars q (option_list c)) s1 ∧ flags_of s1 = f ∧ input_backends s1 = input_backends s) as (Hq1&Hf1&Hb1).
  { rewrite Ep. destruct c as [c|].
    - split_and!; [by apply push_rep, Hq0|by rewrite push_flags|by rewrite push_backends].
    - change (option_list None) with (@nil Z). rewrite (add_chars_nil q s) by done. split_and!; [by apply Hq0|done|done]. }
  specialize (IH s1 _ Hq1). rewrite Hf1 in IH. destruct (decode_all f codes) as [f' l]. rewrite add_chars_app in IH.
  by rewrite Hb1 in IH.
Qed.

(** ** Typing *)

(** The keyboard itself, independent of the tables of the code: the rows of keys of a US keyboard, each
    with the scan code (set 1) of its first key and the ASCII characters of its keys on the lower
    and the upper level.  The letter keys have the capital letters on the upper level. *)
Definition letters (l : list Z) : list Z * list Z := (l, (λ c, c - 32) <$> l).
Definition keys_join (x y : list Z * list Z) : list Z * list Z := (x.1 ++ y.1, x.2 ++ y.2).

Definition us_rows : list (Z * (list Z * list Z)) :=
  [ (* the digits, minus and equals *)
    (2, (seqZ 49 9 ++ [48; 45; 61], [33; 64; 35; 36; 37; 94; 38; 42; 40; 41; 95; 43]));
    (* backspace, tab *)
    (14, ([8; 9], [8; 9]));
    (* q to p and the brackets *)
    (16, keys_join (letters [113; 119; 101; 114; 116; 121; 117; 105; 111; 112]) ([91; 93], [123; 125]));
    (* enter *)
    (28, ([10], [10]));
    (* a to l, semicolon, apostrophe and grave accent *)
    (30, keys_join (letters [97; 115; 100; 102; 103; 104; 106; 107; 108]) ([59; 39; 96], [58; 34; 126]));
    (* backslash *)
    (43, ([92], [124]));
    (* z to m, comma, full stop and slash *)
    (44, keys_join (letters [122; 120; 99; 118; 98; 110; 109]) ([44; 46; 47], [60; 62; 63]));
    (* the space bar *)
    (57, ([32], [32])) ].

(** The scan code of the key with [c] on the given level. *)
Definition key_of (level : list Z * list Z → list Z) (c : Z) : option Z :=
  head (omap (λ row, (λ x, row.1 + Z.of_nat x.1) <$> list_find (λ x, x = c) (level row.2)) us_rows).

(** The keys that are pressed for a character when caps lock is off: its key, with the
    left shift key around it if the character is on the upper level. *)
Definition keystrokes (c : Z) : option (list Z) :=
  match key_of fst c with
  | Some code => Some [code; code + 128]
  | None =>
      match key_of snd c with
      | Some code => Some [42; code; code + 128; 170]
      | None => None
      end
  end.

(** The characters that can be typed: the printable ones, backspace, tab and the end of the line. *)
Definition typeable : list Z := [8; 9; 10] ++ seqZ 32 95.

Definition swap_case (c : Z) : Z :=
  if (97 <=? c) && (c <=? 122) then c - 32 else if (65 <=? c) && (c <=? 90) then c + 32 else c.

(** Neither shift nor a prefix is pending. *)
Definition at_rest (caps_lock : bool) : flags := {| shift := 0; caps := if caps_lock then 1 else 0; prefix := 0 |}.

(** Every character can be typed, and its keys are decoded to it. *)
Lemma keystrokes_decode caps_lock c :
  c ∈ typeable →
  ∃ codes, keystrokes c = Some codes
    ∧ decode_all (at_rest caps_lock) codes = (at_rest caps_lock, [if caps_lock then swap_case c else c]).
Proof.
  assert (∀ b, forallb (λ c, match keystrokes c with
    | Some codes => bool_decide (decode_all (at_rest b) codes = (at_rest b, [if b then swap_case c else c]))
    | None => false end) typeable = true) as H by (intros []; by vm_compute).
  intros Hc%list_elem_of_In. specialize (H caps_lock). rewrite forallb_forall in H. specialize (H c Hc). cbv beta in H.
  destruct (keystrokes c) as [codes|]; [|done]. exists codes. split; [done|]. by apply bool_decide_eq_true in H.
Qed.

Lemma decode_all_app f l1 l2 :
  decode_all f (l1 ++ l2)
  = ((decode_all (decode_all f l1).1 l2).1, (decode_all f l1).2 ++ (decode_all (decode_all f l1).1 l2).2).
Proof.
  revert f. induction l1 as [|code l1 IH]; intros f; cbn [decode_all app].
  { cbn [fst snd app]. by destruct (decode_all f l2). }
  destruct (decode f code) as [f1 c]. rewrite IH. destruct (decode_all f1 l1) as [f2 l]. cbn [fst snd].
  by rewrite app_assoc.
Qed.

Lemma typed_decode caps_lock text :
  Forall (λ c, c ∈ typeable) text →
  ∃ codes, mapM keystrokes text = Some codes
    ∧ decode_all (at_rest caps_lock) (concat codes) = (at_rest caps_lock, if caps_lock then swap_case <$> text else text).
Proof.
  induction 1 as [|c text Hc Ht (codes&Hm&Hd)]; [exists []; by destruct caps_lock|].
  destruct (keystrokes_decode caps_lock c Hc) as (ks&Hk&Hkd). exists (ks :: codes).
  split; [cbn [mapM mbind option_bind]; by rewrite Hk, Hm|].
  cbn [concat]. rewrite decode_all_app, Hkd. cbn [fst snd]. rewrite Hd. by destruct caps_lock.
Qed.

(** C25: Typing a text on a US keyboard ([us_rows]) puts this text into the input queue.  For every text
    of printable characters, ends of lines, tabs and backspaces there are keys to press and release, with
    the shift key around those of the upper level, whose scan codes add to the queue the characters of the text
    in order, with the case of the letters exchanged when caps lock is on, as far as the
    queue has room; no key is left pending. *)
Theorem input_typed caps_lock text q s :
  Forall (λ c, c ∈ typeable) text → queue_rep q s → flags_of s = at_rest caps_lock →
  ∃ codes, mapM keystrokes text = Some codes
    ∧ queue_rep (add_chars q (if caps_lock then swap_case <$> text else text)) (process_codes (concat codes) s)
    ∧ flags_of (process_codes (concat codes) s) = at_rest caps_lock.
Proof.
  intros Ht Hq Hf. destruct (typed_decode caps_lock text Ht) as (codes&Hm&Hd). exists codes. split; [done|].
  pose proof (process_codes_decode (concat codes) s q Hq) as Hp. rewrite Hf, Hd in Hp. by destruct Hp as (?&?&_).
Qed.

Lemma blank_input_rep : queue_rep [] blank_input.
Proof. split; [done|simpl; lia|done|done|]. by intros []. Qed.

(** The text "Ls -L" and the end of the line. *)
Lemma input_typed_witness :
  ∃ codes, mapM keystrokes [76; 115; 32; 45; 76; 10] = Some codes
    ∧ queue_rep [76; 115; 32; 45; 76; 10] (process_codes (concat codes) blank_input).
Proof.
  destruct (input_typed false [76; 115; 32; 45; 76; 10] [] blank_input) as (codes&Hm&Hq&_);
    [apply (bool_decide_unpack _); by vm_compute|exact blank_input_rep|done|].
  exists codes. split; [exact Hm|exact Hq].
Defined.

(** ** The polls *)

(** What the keyboard controller promises: bytes from the keyboard and, marked, from the mouse wait
    in order; the status port tells whether there is one and whose it is; the data port takes it.
    The controller and the serial chip do not disturb each other.  As in [UartLaws], nothing new arrives
    during the reads and writes of the driver themselves. *)
Class KeyboardLaws (P : Type) `{!PortIO P} `{!UartLaws P} := {
  kbd : P → list (bool * Z);
  status_read p v p' : inb I8042_STATUS_PORT p = (v, p') →
    kbd p' = kbd p ∧ rx p' = rx p ∧ tx p' = tx p
    ∧ (Z.land v I8042_STATUS_OUTPUT_FULL ≠ 0 ↔ kbd p ≠ [])
    ∧ ∀ mouse c l, kbd p = (mouse, c) :: l → (Z.land v I8042_STATUS_AUX_DATA ≠ 0 ↔ mouse = true);
  code_read p mouse c l : kbd p = (mouse, c) :: l →
    ∃ p', inb I8042_DATA_PORT p = (c, p') ∧ kbd p' = l ∧ rx p' = rx p ∧ tx p' = tx p;
  lsr_keeps p : kbd (inb (COM1 + 5) p).2 = kbd p;
  data_keeps p : kbd (inb COM1 p).2 = kbd p;
  write_keeps c p : kbd (outb COM1 c p) = kbd p;
}.

Section polls.
Context {P V : Type} `{!PortIO P} `{!UartLaws P} `{!KeyboardLaws P} `{!SynthKeyboard V}.
Implicit Types n : inputsys P V.

Lemma can_read_kbd p : kbd (serial_can_read true p).2 = kbd p.
Proof. unfold serial_can_read. cbn [negb]. rewrite <- (lsr_keeps p). by destruct (inb _ p). Qed.

Lemma read_char_kbd fuel p c p' l : rx p = c :: l → (0 < fuel)%nat → serial_read_char fuel true p = Some (c, p') → kbd p' = kbd p.
Proof.
  intros Hr Hf. destruct fuel as [|fuel]; [lia|]. unfold serial_read_char. cbn [negb wait_until].
  pose proof (can_read_kbd p) as Hk. destruct (can_read_effect p) as (p1&E&_). rewrite E in *. rewrite Hr, bool_decide_true by done.
  cbn [mbind option_bind snd] in *. intros H%(inj Some). by rewrite <- Hk, <- (data_keeps p1), H.
Qed.

Lemma poll_serial_drains fuel n q :
  serial_present n = true → queue_rep q (inp n) → (length (rx (ports n)) < fuel)%nat →
  ∃ n', poll_serial_loop fuel n = Some n' ∧ rx (ports n') = [] ∧ tx (ports n') = tx (ports n) ∧ kbd (ports n') = kbd (ports n)
    ∧ synth n' = synth n ∧ serial_present n' = serial_present n
    ∧ queue_rep (add_chars q (rx (ports n))) (inp n') ∧ flags_of (inp n') = flags_of (inp n)
    ∧ input_backends (inp n') = input_backends (inp n).
Proof.
  revert n q. induction fuel as [|fuel IH]; intros n q Hs Hq Hf; [lia|]. cbn [poll_serial_loop]. rewrite Hs.
  pose proof (can_read_kbd (ports n)) as Hk. destruct (can_read_effect (ports n)) as (p1&E1&Hr1&Ht1). rewrite E1 in *. cbn [snd] in Hk.
  destruct (rx (ports n)) as [|c l] eqn:Er.
  - rewrite bool_decide_false by naive_solver. exists (set_ports p1 n). split_and!; try done. by rewrite (add_chars_nil q (inp n)).
  - rewrite bool_decide_true by done. cbn [negb].
    destruct (read_char_effect (S fuel) p1 c l ltac:(lia) Hr1) as (p2&E2&Hr2&Ht2).
    pose proof (read_char_kbd (S fuel) p1 c p2 l Hr1 ltac:(lia) E2) as Hk2.
    rewrite E2. cbn [mbind option_bind].
    destruct (IH (upd_input (input_queue_push_locked c) (set_ports p2 n)) (add_chars q [c])) as (n'&En&?&Ht&Hkn&Hsy&Hsp&Hq'&Hfl&Hb).
    + done.
    + by apply push_rep.
    + cbn [upd_input set_ports ports]. rewrite Hr2. simpl in Hf. lia.
    + cbn [upd_input set_ports ports inp synth serial_present] in *. exists n'. rewrite add_chars_app, Hr2 in Hq'.
      rewrite push_flags in Hfl. rewrite push_backends in Hb. split_and!; congruence || done.
Qed.

Definition key_codes (l : list (bool * Z)) : list Z := (filter (λ x, x.1 = false) l).*2.

Lemma poll_i8042_drains fuel n q :
  queue_rep q (inp n) → (length (kbd (ports n)) < fuel)%nat →
  ∃ n', poll_i8042_loop fuel n = Some n' ∧ kbd (ports n') = [] ∧ rx (ports n') = rx (ports n) ∧ tx (ports n') = tx (ports n)
    ∧ synth n' = synth n ∧ serial_present n' = serial_present n
    ∧ inp n' = process_codes (key_codes (kbd (ports n))) (inp n).
Proof.
  revert n q. induction fuel as [|fuel IH]; intros n q Hq Hf; [lia|]. cbn [poll_i8042_loop].
  destruct (inb I8042_STATUS_PORT (ports n)) as [v p1] eqn:E1. destruct (status_read _ _ _ E1) as (Hk1&Hr1&Ht1&Hfull&Haux).
  destruct (kbd (ports n)) as [|[mouse c] l] eqn:Ek.
  - destruct (Z.eqb_spec (Z.land v I8042_STATUS_OUTPUT_FULL) 0) as [_|Hne]; [|by apply Hfull in Hne]. by exists (set_ports p1 n).
  - destruct (Z.eqb_spec (Z.land v I8042_STATUS_OUTPUT_FULL) 0) as [H0|_]; [by destruct (proj2 Hfull)|].
    destruct (code_read p1 mouse c l Hk1) as (p2&->&Hk2&Hr2&Ht2). specialize (Haux mouse c l eq_refl).
    assert (truthy (Z.land v I8042_STATUS_AUX_DATA) = mouse) as ->.
    { unfold truthy. destruct (Z.eqb_spec (Z.land v I8042_STATUS_AUX_DATA) 0), mouse; cbn; naive_solver. }
    set (n1 := if mouse then _ else _).
    assert (ports n1 = p2 ∧ synth n1 = synth n ∧ serial_present n1 = serial_present n
      ∧ inp n1 = if mouse then inp n else input_process_xt_scancode c (inp n)) as (Ep&Es&Esp&Ei) by (unfold n1; by destruct mouse).
    assert (∃ q1, queue_rep q1 (inp n1)) as [q1 Hq1].
    { rewrite Ei. destruct mouse; [by exists q|]. pose proof (process_codes_decode [c] (inp n) q Hq) as H.
      destruct (decode_all _ _). destruct H as [H _]. eexists. exact H. }
    destruct (IH n1 q1 Hq1) as (n'&En&?&Hr&Ht&?&?&Hi); [rewrite Ep, Hk2; simpl in Hf; lia|].
    exists n'. rewrite Ep, Hk2, Hr2, Ht2 in *. split_and!; try congruence. rewrite Hi, Ei. unfold key_codes.
    destruct mouse; [by rewrite filter_cons_False|]. by rewrite filter_cons_True.
Qed.

Definition has_backend n (b : Z) : bool := negb (Z.land (input_backends (inp n)) b =? 0).

(** What waits at the devices that are in use: characters, and scan codes. *)
Definition waiting_chars n : list Z := if has_backend n INPUT_BACKEND_SERIAL then rx (ports n) else [].
Definition waiting_codes n : list Z :=
  (if has_backend n INPUT_BACKEND_I8042 then key_codes (kbd (ports n)) else []) ++ (hyperv_keyboard_poll (synth n)).1.

(** What was at a device that is not in use is still there. *)
Definition left_over n (b : Z) {A} (l : list A) : list A := if has_backend n b then [] else l.

(** The serial line is used only when the chip is there. *)
Definition backends_ok n : Prop := has_backend n INPUT_BACKEND_SERIAL = true → serial_present n = true.

Lemma poll_effect fuel n q :
  backends_ok n → queue_rep q (inp n) → (length (rx (ports n)) < fuel)%nat → (length (kbd (ports n)) < fuel)%nat →
  ∃ n', input_poll fuel n = Some n'
    ∧ queue_rep (add_chars q (waiting_chars n ++ (decode_all (flags_of (inp n)) (waiting_codes n)).2)) (inp n')
    ∧ flags_of (inp n') = (decode_all (flags_of (inp n)) (waiting_codes n)).1
    ∧ input_backends (inp n') = input_backends (inp n) ∧ serial_present n' = serial_present n
    ∧ rx (ports n') = left_over n INPUT_BACKEND_SERIAL (rx (ports n))
    ∧ kbd (ports n') = left_over n INPUT_BACKEND_I8042 (kbd (ports n))
    ∧ tx (ports n') = tx (ports n) ∧ synth n' = (hyperv_keyboard_poll (synth n)).2.
Proof.
  intros Hok Hq Hfr Hfk. unfold input_poll.
  assert (∃ n1, input_poll_serial fuel n = Some n1 ∧ rx (ports n1) = left_over n INPUT_BACKEND_SERIAL (rx (ports n))
    ∧ tx (ports n1) = tx (ports n) ∧ kbd (ports n1) = kbd (ports n) ∧ synth n1 = synth n ∧ serial_present n1 = serial_present n
    ∧ queue_rep (add_chars q (waiting_chars n)) (inp n1) ∧ flags_of (inp n1) = flags_of (inp n)
    ∧ input_backends (inp n1) = input_backends (inp n)) as (n1&->&Hr1&Ht1&Hk1&Hs1&Hp1&Hq1&Hf1&Hb1).
  { unfold input_poll_serial, waiting_chars, left_over, backends_ok, has_backend in *. case_if; cbn [negb] in *.
    - exists n. split_and!; try done. by rewrite (add_chars_nil q (inp n)).
    - destruct (poll_serial_drains fuel n q (Hok eq_refl) Hq Hfr) as (n1&?&?&?&?&?&?&?&?&?). exists n1. by split_and!. }
  cbn [mbind option_bind].
  assert (∃ n2, input_poll_i8042 fuel n1 = Some n2 ∧ kbd (ports n2) = left_over n INPUT_BACKEND_I8042 (kbd (ports n))
    ∧ rx (ports n2) = rx (ports n1) ∧ tx (ports n2) = tx (ports n1) ∧ synth n2 = synth n1 ∧ serial_present n2 = serial_present n1
    ∧ inp n2 = process_codes (if has_backend n INPUT_BACKEND_I8042 then key_codes (kbd (ports n)) else []) (inp n1))
    as (n2&->&Hk2&Hr2&Ht2&Hs2&Hp2&Hi2).
  { unfold input_poll_i8042, left_over, has_backend. rewrite Hb1. case_if; cbn [negb]; [by exists n1|].
    destruct (poll_i8042_drains fuel n1 _ Hq1 ltac:(by rewrite Hk1)) as (n2&?&?&?&?&?&?&Hi). rewrite Hk1 in Hi. by exists n2. }
  cbn [mbind option_bind]. unfold poll_synth. rewrite Hs2, Hs1.
  destruct (hyperv_keyboard_poll (synth n)) as [codes v] eqn:Ev. eexists. split; [done|].
  cbn [set_synth upd_input inp ports serial_present synth].
  assert (process_codes codes (inp n2) = process_codes (waiting_codes n) (inp n1)) as ->.
  { rewrite Hi2. unfold waiting_codes. rewrite Ev. cbn [fst]. unfold process_codes. by rewrite foldl_app. }
  pose proof (process_codes_decode (waiting_codes n) (inp n1) _ Hq1) as Hd. rewrite Hf1 in Hd.
  destruct (decode_all _ _) as [f l]. rewrite add_chars_app in Hd. destruct Hd as (?&?&?). cbn [fst snd]. split_and!; congruence || done.
Qed.

(** C24: A poll of the input devices ends and takes everything.  Behind what is in the queue come the
    characters of the serial line and then those that the scan codes of the keyboard controller, without the bytes of
    the mouse, and of the synthetic keyboard stand for, as far as there is room.  Nothing is left waiting at a
    device that is in use, and a device that is not in use is not touched. *)
Theorem input_poll_drains fuel n q :
  backends_ok n → queue_rep q (inp n) → (length (rx (ports n)) < fuel)%nat → (length (kbd (ports n)) < fuel)%nat →
  ∃ n', input_poll fuel n = Some n'
    ∧ queue_rep (add_chars q (waiting_chars n ++ (decode_all (flags_of (inp n)) (waiting_codes n)).2)) (inp n')
    ∧ rx (ports n') = left_over n INPUT_BACKEND_SERIAL (rx (ports n))
    ∧ kbd (ports n') = left_over n INPUT_BACKEND_I8042 (kbd (ports n)).
Proof. intros. destruct (poll_effect fuel n q) as (n'&?&?&_&_&_&?&?&_); try done. by exists n'. Qed.
End polls.

(** ** A serial chip and a keyboard controller

    Devices that keep these laws: lists of what has arrived, and a transmitter that is
    busy for two reads of its status after every character. *)
Record port_devices := { pd_rx : list Z; pd_tx : list Z; pd_busy : nat; pd_kbd : list (bool * Z) }.

Definition port_in (port : Z) (d : port_devices) : Z * port_devices :=
  if port =? COM1 + 5 then
    ((match pd_rx d with [] => 0 | _ => 1 end) + (match pd_busy d with O => 32 | _ => 0 end),
     {| pd_rx := pd_rx d; pd_tx := pd_tx d; pd_busy := pred (pd_busy d); pd_kbd := pd_kbd d |})
  else if port =? COM1 then
    (default 0 (head (pd_rx d)), {| pd_rx := tail (pd_rx d); pd_tx := pd_tx d; pd_busy := pd_busy d; pd_kbd := pd_kbd d |})
  else if port =? I8042_STATUS_PORT then
    (match pd_kbd d with [] => 0 | (mouse, _) :: _ => if mouse : bool then 33 else 1 end, d)
  else if port =? I8042_DATA_PORT then
    (default 0 (snd <$> head (pd_kbd d)),
     {| pd_rx := pd_rx d; pd_tx := pd_tx d; pd_busy := pd_busy d; pd_kbd := tail (pd_kbd d) |})
  else (255, d).

Definition port_out (port v : Z) (d : port_devices) : port_devices :=
  if port =? COM1 then {| pd_rx := pd_rx d; pd_tx := pd_tx d ++ [v]; pd_busy := 2; pd_kbd := pd_kbd d |} else d.

#[export] Instance port_devices_io : PortIO port_devices :=
  {| inb := port_in; inw := port_in; inl := port_in; outb := port_out; outw := port_out; outl := port_out; io_wait := λ d, d |}.

#[export] Instance port_devices_uart : UartLaws port_devices.
Proof.
  refine {| rx := pd_rx; tx := pd_tx; tx_busy := pd_busy; tx_bound := 2 |}.
  - intros [r t b k] v p' H. cbn in H. injection H as <- <-. cbn. by destruct r, b; cbn; split_and!.
  - intros [r t b k] c l H. cbn in *. subst r. eexists. by split_and!.
  - by intros [r t b k] c _ _.
Defined.

#[export] Instance port_devices_keyboard : KeyboardLaws port_devices.
Proof.
  refine {| kbd := pd_kbd |}.
  - intros [r t b k] v p' H. cbn in H. injection H as <- <-. cbn. split_and!; [done|done|done| |].
    + by destruct k as [|[[] ?] ?]; cbn; split.
    + intros mouse c l ->. by destruct mouse; cbn; split.
  - intros [r t b k] mouse c l H. cbn in *. subst k. eexists. by split_and!.
  - done.
  - done.
  - done.
Defined.

(** A synthetic keyboard that holds the scan codes that have arrived. *)
#[export] Instance list_keyboard : SynthKeyboard (list Z) :=
  {| hyperv_keyboard_init := λ l, (true, [], l); hyperv_keyboard_poll := λ l, (l, []) |}.

(** The serial line brings "ls", the keyboard a key between two bytes of the mouse, and
    the synthetic keyboard the return key. *)
Definition some_devices : inputsys port_devices (list Z) :=
  {| inp := with_backends 7 blank_input; serial_present := true;
     ports := {| pd_rx := [108; 115]; pd_tx := []; pd_busy := 0; pd_kbd := [(true, 9); (false, 30); (true, 3); (false, 158)] |};
     synth := [28; 156] |}.

Lemma input_poll_drains_witness :
  ∃ n', input_poll 5 some_devices = Some n' ∧ queue_rep [108; 115; 97; 10] (inp n')
    ∧ pd_rx (ports n') = [] ∧ pd_kbd (ports n') = [].
Proof.
  destruct (input_poll_drains 5 some_devices []) as (n'&Hp&Hq&Hr&Hk);
    [done|split; [done|simpl; lia|done|done|by intros []]|simpl; lia|simpl; lia|].
  exists n'. split; [exact Hp|]. split; [exact Hq|]. split; [exact Hr|exact Hk].
Defined.
