(* ===== verification/Vga.v ===== *)
(** * The text screen ([src/kernel/vga.c])

    The text buffer of the VGA card, 25 rows of 80 cells, written like a terminal.  The theorem:
    the screen shows the last 25 lines of everything that was written, lines being broken
    at their ends and after 80 characters. *)

From S2P Require Import Prelude.

Local Open Scope Z_scope.

Definition VGA_WIDTH : Z := 80.
Definition VGA_HEIGHT : Z := 25.
Definition VGA_COLOR : Z := 15.

(** [size_t] values; none of them leaves the range of 32 bits. *)
Record vga := { vga_buffer : carray Z; cursor_row : Z; cursor_column : Z }.

(** A [char] is signed. *)
Definition i8 (x : Z) : Z := if u8 x <? 128 then u8 x else u8 x - 256.

Definition vga_entry (ch color : Z) : Z := Z.lor (u16 (i8 ch)) (u16 (Z.shiftl color 8)).

Definition vga_put_entry_at (ch color row column : Z) (b : carray Z) : carray Z :=
  <[row * VGA_WIDTH + column := vga_entry ch color]> b.

Definition vga_clear_row (row : Z) (b : carray Z) : carray Z :=
  for_range 0 VGA_WIDTH (λ column b, vga_put_entry_at 32 VGA_COLOR row column b) b.

Definition vga_scroll (b : carray Z) : carray Z :=
  let b := for_range 1 VGA_HEIGHT (λ row b,
             for_range 0 VGA_WIDTH (λ column b,
               <[(row - 1) * VGA_WIDTH + column := b (row * VGA_WIDTH + column)]> b) b) b in
  vga_clear_row (VGA_HEIGHT - 1) b.

Definition vga_newline (v : vga) : vga :=
  if cursor_row v <? VGA_HEIGHT - 1
  then {| vga_buffer := vga_buffer v; cursor_row := cursor_row v + 1; cursor_column := 0 |}
  else {| vga_buffer := vga_scroll (vga_buffer v); cursor_row := cursor_row v; cursor_column := 0 |}.

Definition vga_init (v : vga) : vga :=
  {| vga_buffer := for_range 0 VGA_HEIGHT vga_clear_row (vga_buffer v); cursor_row := 0; cursor_column := 0 |}.

Definition vga_write_char (ch : Z) (v : vga) : vga :=
  if ch =? 10 then vga_newline v
  else
    let v := {| vga_buffer := vga_put_entry_at ch VGA_COLOR (cursor_row v) (cursor_column v) (vga_buffer v);
                cursor_row := cursor_row v; cursor_column := cursor_column v + 1 |} in
    if VGA_WIDTH <=? cursor_column v then vga_newline v else v.

(** ** The effect of the loops *)

(** The cell at row [r] and column [c]. *)
Definition cell (b : carray Z) (r c : Z) : Z := b (r * VGA_WIDTH + c).
Definition blank_cell : Z := vga_entry 32 VGA_COLOR.

Lemma cell_set b r c v r' c' :
  0 ≤ c < 80 → 0 ≤ c' < 80 →
  cell (<[r * VGA_WIDTH + c := v]> b) r' c' = if decide (r = r' ∧ c = c') then v else cell b r' c'.
Proof.
  intros Hc Hc'. unfold cell, VGA_WIDTH. rewrite arr_get_set. destruct (decide (r = r' ∧ c = c')) as [[-> ->]|Hne].
  - by rewrite decide_True.
  - by rewrite decide_False by lia.
Qed.

Lemma clear_row_cell row b r c :
  0 ≤ c < 80 → cell (vga_clear_row row b) r c = if decide (r = row) then blank_cell else cell b r c.
Proof.
  intros Hc. unfold vga_clear_row.
  pose proof (for_range_ind (λ i b', ∀ c, 0 ≤ c < 80 → cell b' r c = if decide (r = row ∧ c < i) then blank_cell else cell b r c)
    0 VGA_WIDTH (λ column b, vga_put_entry_at 32 VGA_COLOR row column b) b) as H. cbv beta in H.
  rewrite H; [|done| |intros k b' Hk IH c' Hc'|done].
  - destruct (decide (r = row)); [rewrite decide_True by (unfold VGA_WIDTH; lia)|rewrite decide_False by tauto]; done.
  - intros c' Hc'. by rewrite decide_False by lia.
  - unfold vga_put_entry_at. unfold VGA_WIDTH in Hk. rewrite cell_set by lia. rewrite IH by done.
    destruct (decide (row = r ∧ k = c')), (decide (r = row ∧ c' < k)), (decide (r = row ∧ c' < k + 1)); try done; exfalso; lia.
Qed.

Lemma copy_row_cell row b r c :
  0 ≤ c < 80 →
  cell (for_range 0 VGA_WIDTH (λ column b, <[(row - 1) * VGA_WIDTH + column := b (row * VGA_WIDTH + column)]> b) b) r c
  = if decide (r = row - 1) then cell b row c else cell b r c.
Proof.
  intros Hc.
  pose proof (for_range_ind (λ i b', ∀ r c, 0 ≤ c < 80 → cell b' r c = if decide (r = row - 1 ∧ c < i) then cell b row c else cell b r c)
    0 VGA_WIDTH (λ column b, <[(row - 1) * VGA_WIDTH + column := b (row * VGA_WIDTH + column)]> b) b) as H. cbv beta in H.
  rewrite H; [|done| |intros k b' Hk IH r' c' Hc'|done].
  - destruct (decide (r = row - 1)); [rewrite decide_True by (unfold VGA_WIDTH; lia)|rewrite decide_False by tauto]; done.
  - intros r' c' Hc'. by rewrite decide_False by lia.
  - unfold VGA_WIDTH in Hk. rewrite cell_set by lia. fold (cell b' row k). rewrite !IH by lia. rewrite (decide_False (P := row = row - 1 ∧ _)) by lia.
    destruct (decide (row - 1 = r' ∧ k = c')) as [[-> ->]|]; [by rewrite decide_True by lia|].
    destruct (decide (r' = row - 1 ∧ c' < k)), (decide (r' = row - 1 ∧ c' < k + 1)); try done; exfalso; lia.
Qed.

(** Scrolling moves every row up by one and clears the last. *)
Lemma scroll_cell b r c :
  0 ≤ r < 25 → 0 ≤ c < 80 → cell (vga_scroll b) r c = if decide (r = 24) then blank_cell else cell b (r + 1) c.
Proof.
  intros Hr Hc. unfold vga_scroll. rewrite clear_row_cell by done. change (VGA_HEIGHT - 1) with 24. destruct (decide (r = 24)); [done|].
  set (body := λ row b, for_range 0 VGA_WIDTH _ b).
  pose proof (for_range_ind (λ i b', ∀ r, 0 ≤ r < 25 → cell b' r c = if decide (r + 1 < i) then cell b (r + 1) c else cell b r c)
    1 VGA_HEIGHT body b) as H. cbv beta in H. rewrite H; [|done| |intros k b' Hk IH r' Hr'|done].
  - by rewrite decide_True by (unfold VGA_HEIGHT; lia).
  - intros r' Hr'. by rewrite decide_False by lia.
  - unfold body. rewrite copy_row_cell by done. unfold VGA_HEIGHT in Hk. destruct (decide (r' = k - 1)) as [->|Hne].
    + rewrite IH by lia. rewrite decide_False by lia. rewrite decide_True by lia. f_equal. lia.
    + rewrite IH by done. destruct (decide (r' + 1 < k)), (decide (r' + 1 < k + 1)); try done; lia.
Qed.

(** ** What the screen shows *)

(** Finished lines and the line that is being written. *)
Definition text := (list (list Z) * list Z)%type.

Definition write_text (t : text) (ch : Z) : text :=
  let '(lines, line) := t in
  if ch =? 10 then (lines ++ [line], [])
  else if decide (length (line ++ [ch]) < 80)%nat then (lines, line ++ [ch])
  else (lines ++ [line ++ [ch]], []).

Definition layout (bytes : list Z) : text := foldl write_text ([], []) bytes.

(** The character at column [c] of line [i], a space where there is none. *)
Definition char_at (t : text) (i c : Z) : Z := default 32 ((t.1 ++ [t.2]) !! Z.to_nat i ≫= λ line, line !! Z.to_nat c).

(** The screen shows the last 25 lines of [t]. *)
Record shows (t : text) (v : vga) : Prop := {
  sh_column : cursor_column v = Z.of_nat (length t.2) ∧ (length t.2 < 80)%nat;
  sh_row : cursor_row v = Z.min (Z.of_nat (length t.1)) 24;
  sh_cells : ∀ r c, 0 ≤ r < 25 → 0 ≤ c < 80 →
    cell (vga_buffer v) r c = vga_entry (char_at t (Z.of_nat (length t.1) - cursor_row v + r) c) VGA_COLOR;
}.

Lemma char_at_line lines line i c :
  0 ≤ i → char_at (lines, line) i c
  = if decide (i = Z.of_nat (length lines)) then default 32 (line !! Z.to_nat c)
    else default 32 (lines !! Z.to_nat i ≫= λ l, l !! Z.to_nat c).
Proof.
  intros Hi. unfold char_at. cbn [fst snd]. destruct (decide (i = Z.of_nat (length lines))) as [->|Hne].
  - rewrite Nat2Z.id, lookup_app_r, Nat.sub_diag by lia. done.
  - destruct (decide (i < Z.of_nat (length lines))).
    + by rewrite lookup_app_l by lia.
    + rewrite lookup_app_r by lia. rewrite list_lookup_singleton. destruct (_ - _)%nat eqn:E; [lia|].
      by rewrite lookup_ge_None_2 by lia.
Qed.

Lemma char_at_newline lines line i c : 0 ≤ i → char_at (lines ++ [line], []) i c = char_at (lines, line) i c.
Proof.
  intros Hi. unfold char_at. cbn [fst snd]. destruct (decide (i ≤ Z.of_nat (length lines))).
  - rewrite (lookup_app_l (lines ++ [line])) by (rewrite length_app; simpl; lia). done.
  - rewrite lookup_app_r by (rewrite length_app; simpl; lia). rewrite (lookup_ge_None_2 (lines ++ [line])) by (rewrite length_app; simpl; lia).
    rewrite list_lookup_singleton. by case_match.
Qed.

(** The end of a line, wherever the cursor is in it. *)
Lemma newline_shows lines line v :
  cursor_row v = Z.min (Z.of_nat (length lines)) 24 →
  (∀ r c, 0 ≤ r < 25 → 0 ≤ c < 80 →
    cell (vga_buffer v) r c = vga_entry (char_at (lines, line) (Z.of_nat (length lines) - cursor_row v + r) c) VGA_COLOR) →
  shows (lines ++ [line], []) (vga_newline v).
Proof.
  intros Hr Hc. unfold vga_newline, VGA_HEIGHT. destruct (cursor_row v <? 25 - 1) eqn:E; zbool.
  - split; cbn [cursor_column cursor_row vga_buffer fst snd]; rewrite ?length_app; simpl length; [split; lia|lia|].
    intros r c Hrr Hcc. rewrite Hc by done. rewrite char_at_newline by lia. do 2 f_equal. lia.
  - split; cbn [cursor_column cursor_row vga_buffer fst snd]; rewrite ?length_app; simpl length; [split; lia|lia|].
    intros r c Hrr Hcc. rewrite scroll_cell by done. rewrite char_at_newline by lia. case_decide as Hd.
    + rewrite char_at_line by lia. rewrite decide_False by lia. by rewrite lookup_ge_None_2 by lia.
    + rewrite Hc by lia. do 2 f_equal. lia.
Qed.

Lemma write_char_shows t v ch : shows t v → shows (write_text t ch) (vga_write_char ch v).
Proof.
  destruct t as [lines line]. intros [[Hc Hl] Hr Hcells]. cbn [fst snd] in *. unfold write_text, vga_write_char.
  destruct (ch =? 10); [by apply newline_shows|].
  set (v1 := {| vga_buffer := _; cursor_row := _; cursor_column := _ |}).
  assert (∀ r c, 0 ≤ r < 25 → 0 ≤ c < 80 →
    cell (vga_buffer v1) r c = vga_entry (char_at (lines, line ++ [ch]) (Z.of_nat (length lines) - cursor_row v1 + r) c) VGA_COLOR) as H1.
  { intros r c Hrr Hcc. cbn [vga_buffer cursor_row v1]. unfold vga_put_entry_at. rewrite cell_set by lia.
    rewrite Hcells, !char_at_line by lia. case_decide as Hd.
    - destruct Hd as [<- <-]. rewrite decide_True by lia. rewrite Hc, Nat2Z.id, lookup_app_r, Nat.sub_diag by lia. done.
    - case_decide; [|done]. destruct (decide (c < cursor_column v)); [by rewrite lookup_app_l by lia|].
      rewrite !lookup_ge_None_2 by (rewrite ?length_app; simpl; lia). done. }
  unfold VGA_WIDTH. cbn [cursor_column v1]. rewrite Hc. destruct (decide (length (line ++ [ch]) < 80)%nat) as [Hlt|Hge]; rewrite length_app in *; simpl in *.
  - rewrite (proj2 (Z.leb_gt _ _)) by lia. split; cbn [fst snd cursor_column v1]; [rewrite length_app; simpl; lia|done|done].
  - rewrite (proj2 (Z.leb_le _ _)) by lia. by apply newline_shows.
Qed.

Lemma init_shows v : shows ([], []) (vga_init v).
Proof.
  split; [by split; [|simpl; lia]|done|]. intros r c Hr Hc. cbn [vga_init vga_buffer cursor_row fst length Z.of_nat].
  assert (∀ i, 0 ≤ i → char_at ([], []) i c = 32) as Hblank.
  { intros i Hi. rewrite char_at_line by done. case_decide; [done|]. by rewrite lookup_nil. }
  rewrite Hblank by lia.
  pose proof (for_range_ind (λ i b, ∀ r, 0 ≤ r < i → cell b r c = blank_cell) 0 VGA_HEIGHT vga_clear_row (vga_buffer v)) as H. cbv beta in H.
  apply H; [done|lia| |done]. intros k b Hk IH r' Hr'. rewrite clear_row_cell by done. case_decide; [done|]. apply IH. lia.
Qed.

(** C22: The text screen works as a terminal.  After it is cleared and any bytes are written, it shows the
    last 25 lines of them, a line ending at a newline or after its 80th character, padded with
    spaces; the cursor is behind the last character. *)
Theorem vga_shows_text bytes v : shows (layout bytes) (foldl (λ v ch, vga_write_char ch v) (vga_init v) bytes).
Proof.
  unfold layout. assert (∀ t v, shows t v → shows (foldl write_text t bytes) (foldl (λ v ch, vga_write_char ch v) v bytes)) as H.
  { induction bytes as [|ch bytes IH]; intros t v' Hs; [done|]. cbn [foldl]. by apply IH, write_char_shows. }
  apply H, init_shows.
Qed.

(** A byte above 127 is a negative [char]: its sign bits overwrite the colour of the cell. *)
Lemma entry_color ch : is_u8 ch → Z.shiftr (vga_entry ch VGA_COLOR) 8 = if ch <? 128 then VGA_COLOR else 255.
Proof.
  intros Hch. unfold vga_entry, i8, VGA_COLOR. change (u16 (Z.shiftl 15 8)) with 3840. rewrite Z.shiftr_lor.
  change (Z.shiftr 3840 8) with 15. rewrite Z.shiftr_div_pow2 by lia. change (2 ^ 8) with 256. rewrite u8_small by done.
  destruct (ch <? 128) eqn:E; zbool; unfold is_u8 in Hch.
  - rewrite u16_small by lia. by rewrite Z.div_small by lia.
  - replace (u16 (ch - 256)) with (ch - 256 + 65536) by word_lia.
    replace ((ch - 256 + 65536) / 256) with 255 by (apply (Z.div_unique _ _ _ ch); lia). done.
Qed.
