(* ===== verification/Framebuffer.v ===== *)
(** * The framebuffer console ([src/kernel/framebuffer.c], [src/include/kernel/framebuffer_font.h])

    A terminal drawn with an 8 by 16 font into the pixels of the video memory.  The theorems: the pixels
    show, glyph by glyph, what an abstract terminal holds, and no byte outside the video memory is written.
    The video memory is read and written at the virtual addresses at which the MMIO window
    shows it. *)

From S2P Require Import Prelude.

Local Open Scope Z_scope.
Local Open Scope c_scope.

Definition FRAMEBUFFER_FONT_WIDTH : Z := 8.
Definition FRAMEBUFFER_FONT_HEIGHT : Z := 16.
Definition FRAMEBUFFER_FONT_GLYPHS : Z := 128.

Definition framebuffer_font_8x16 : list Z := [
  0; 0; 0; 126; 129; 153; 165; 161; 165; 153; 129; 126; 0; 0; 0; 0; 0; 0; 0; 126; 129; 185; 165;
  185; 169; 165; 129; 126; 0; 0; 0; 0; 0; 0; 60; 67; 66; 70; 74; 82; 98; 66; 194; 60; 0; 0; 0; 0;
  0; 0; 251; 85; 85; 81; 0; 0; 0; 0; 0; 0; 0; 0; 0; 0; 0; 0; 0; 0; 16; 56; 124; 254; 124; 56; 16;
  0; 0; 0; 0; 0; 0; 0; 0; 0; 68; 56; 68; 68; 68; 56; 68; 0; 0; 0; 0; 0; 0; 0; 16; 16; 16; 16; 0; 0;
  16; 16; 16; 16; 0; 0; 0; 0; 0; 0; 0; 0; 0; 0; 24; 60; 60; 24; 0; 0; 0; 0; 0; 0; 36; 36; 0; 0; 0;
  0; 0; 0; 0; 0; 0; 0; 0; 0; 0; 0; 60; 0; 0; 0; 0; 0; 0; 0; 0; 0; 0; 0; 0; 0; 0; 0; 0; 56; 4; 24;
  4; 4; 56; 0; 0; 0; 0; 0; 0; 0; 0; 0; 8; 16; 0; 0; 0; 0; 0; 0; 0; 0; 0; 0; 0; 0; 0; 0; 0; 0; 0; 0;
  0; 0; 0; 0; 0; 0; 0; 0; 16; 16; 32; 0; 0; 16; 48; 16; 16; 16; 56; 0; 0; 0; 0; 0; 0; 0; 0; 0; 0;
  224; 16; 96; 18; 228; 8; 16; 34; 70; 138; 30; 2; 2; 0; 0; 16; 8; 0; 60; 66; 66; 66; 126; 66; 66;
  66; 66; 0; 0; 0; 0; 8; 16; 0; 60; 66; 66; 66; 126; 66; 66; 66; 66; 0; 0; 0; 0; 24; 36; 0; 60; 66;
  66; 66; 126; 66; 66; 66; 66; 0; 0; 0; 0; 50; 76; 0; 60; 66; 66; 66; 126; 66; 66; 66; 66; 0; 0; 0;
  0; 0; 0; 36; 36; 36; 36; 36; 36; 36; 0; 36; 36; 0; 0; 0; 0; 0; 0; 126; 146; 146; 146; 146; 114;
  18; 18; 18; 18; 0; 0; 0; 0; 0; 56; 68; 64; 48; 72; 68; 68; 36; 24; 4; 68; 56; 0; 0; 0; 16; 8; 0;
  126; 64; 64; 64; 120; 64; 64; 64; 126; 0; 0; 0; 0; 24; 36; 0; 126; 64; 64; 64; 120; 64; 64; 64;
  126; 0; 0; 0; 0; 0; 0; 16; 56; 84; 16; 16; 16; 16; 16; 16; 16; 0; 0; 0; 0; 0; 0; 16; 16; 16; 16;
  16; 16; 16; 84; 56; 16; 0; 0; 0; 0; 0; 0; 0; 0; 0; 8; 4; 254; 4; 8; 0; 0; 0; 0; 0; 0; 0; 0; 0; 0;
  0; 32; 64; 254; 64; 32; 0; 0; 0; 0; 0; 0; 36; 36; 0; 126; 64; 64; 64; 120; 64; 64; 64; 126; 0; 0;
  0; 0; 32; 16; 0; 56; 16; 16; 16; 16; 16; 16; 16; 56; 0; 0; 0; 0; 8; 16; 0; 56; 16; 16; 16; 16;
  16; 16; 16; 56; 0; 0; 0; 0; 24; 36; 0; 56; 16; 16; 16; 16; 16; 16; 16; 56; 0; 0; 0; 0; 0; 0; 0;
  0; 0; 0; 0; 0; 0; 0; 0; 0; 0; 0; 0; 0; 0; 0; 16; 16; 16; 16; 16; 16; 16; 0; 16; 16; 0; 0; 0; 0;
  0; 36; 36; 36; 0; 0; 0; 0; 0; 0; 0; 0; 0; 0; 0; 0; 0; 0; 36; 36; 36; 126; 36; 36; 126; 36; 36;
  36; 0; 0; 0; 0; 0; 16; 16; 124; 146; 144; 144; 124; 18; 18; 146; 124; 16; 16; 0; 0; 0; 0; 100;
  148; 104; 8; 16; 16; 32; 44; 82; 76; 0; 0; 0; 0; 0; 0; 24; 36; 36; 24; 48; 74; 68; 68; 68; 58; 0;
  0; 0; 0; 0; 16; 16; 16; 0; 0; 0; 0; 0; 0; 0; 0; 0; 0; 0; 0; 0; 0; 8; 16; 32; 32; 32; 32; 32; 32;
  16; 8; 0; 0; 0; 0; 0; 0; 32; 16; 8; 8; 8; 8; 8; 8; 16; 32; 0; 0; 0; 0; 0; 0; 0; 0; 0; 36; 24;
  126; 24; 36; 0; 0; 0; 0; 0; 0; 0; 0; 0; 0; 0; 16; 16; 124; 16; 16; 0; 0; 0; 0; 0; 0; 0; 0; 0; 0;
  0; 0; 0; 0; 0; 0; 16; 16; 32; 0; 0; 0; 0; 0; 0; 0; 0; 0; 0; 126; 0; 0; 0; 0; 0; 0; 0; 0; 0; 0; 0;
  0; 0; 0; 0; 0; 0; 0; 16; 16; 0; 0; 0; 0; 0; 0; 4; 4; 8; 8; 16; 16; 32; 32; 64; 64; 0; 0; 0; 0; 0;
  0; 60; 66; 66; 70; 74; 82; 98; 66; 66; 60; 0; 0; 0; 0; 0; 0; 8; 24; 40; 8; 8; 8; 8; 8; 8; 62; 0;
  0; 0; 0; 0; 0; 60; 66; 66; 2; 4; 8; 16; 32; 64; 126; 0; 0; 0; 0; 0; 0; 60; 66; 66; 2; 28; 2; 2;
  66; 66; 60; 0; 0; 0; 0; 0; 0; 2; 6; 10; 18; 34; 66; 126; 2; 2; 2; 0; 0; 0; 0; 0; 0; 126; 64; 64;
  64; 124; 2; 2; 2; 66; 60; 0; 0; 0; 0; 0; 0; 28; 32; 64; 64; 124; 66; 66; 66; 66; 60; 0; 0; 0; 0;
  0; 0; 126; 2; 2; 4; 4; 8; 8; 16; 16; 16; 0; 0; 0; 0; 0; 0; 60; 66; 66; 66; 60; 66; 66; 66; 66;
  60; 0; 0; 0; 0; 0; 0; 60; 66; 66; 66; 66; 62; 2; 2; 4; 56; 0; 0; 0; 0; 0; 0; 0; 0; 0; 16; 16; 0;
  0; 0; 16; 16; 0; 0; 0; 0; 0; 0; 0; 0; 0; 16; 16; 0; 0; 0; 16; 16; 32; 0; 0; 0; 0; 0; 0; 4; 8; 16;
  32; 64; 32; 16; 8; 4; 0; 0; 0; 0; 0; 0; 0; 0; 0; 126; 0; 0; 126; 0; 0; 0; 0; 0; 0; 0; 0; 0; 0;
  64; 32; 16; 8; 4; 8; 16; 32; 64; 0; 0; 0; 0; 0; 0; 60; 66; 66; 66; 4; 8; 8; 0; 8; 8; 0; 0; 0; 0;
  0; 0; 124; 130; 158; 162; 162; 162; 166; 154; 128; 126; 0; 0; 0; 0; 0; 0; 60; 66; 66; 66; 66;
  126; 66; 66; 66; 66; 0; 0; 0; 0; 0; 0; 124; 66; 66; 66; 124; 66; 66; 66; 66; 124; 0; 0; 0; 0; 0;
  0; 60; 66; 66; 64; 64; 64; 64; 66; 66; 60; 0; 0; 0; 0; 0; 0; 120; 68; 66; 66; 66; 66; 66; 66; 68;
  120; 0; 0; 0; 0; 0; 0; 126; 64; 64; 64; 120; 64; 64; 64; 64; 126; 0; 0; 0; 0; 0; 0; 126; 64; 64;
  64; 120; 64; 64; 64; 64; 64; 0; 0; 0; 0; 0; 0; 60; 66; 66; 64; 64; 78; 66; 66; 66; 60; 0; 0; 0;
  0; 0; 0; 66; 66; 66; 66; 126; 66; 66; 66; 66; 66; 0; 0; 0; 0; 0; 0; 56; 16; 16; 16; 16; 16; 16;
  16; 16; 56; 0; 0; 0; 0; 0; 0; 14; 4; 4; 4; 4; 4; 4; 68; 68; 56; 0; 0; 0; 0; 0; 0; 66; 68; 72; 80;
  96; 96; 80; 72; 68; 66; 0; 0; 0; 0; 0; 0; 64; 64; 64; 64; 64; 64; 64; 64; 64; 126; 0; 0; 0; 0; 0;
  0; 130; 198; 170; 146; 146; 130; 130; 130; 130; 130; 0; 0; 0; 0; 0; 0; 66; 66; 66; 98; 82; 74;
  70; 66; 66; 66; 0; 0; 0; 0; 0; 0; 60; 66; 66; 66; 66; 66; 66; 66; 66; 60; 0; 0; 0; 0; 0; 0; 124;
  66; 66; 66; 66; 124; 64; 64; 64; 64; 0; 0; 0; 0; 0; 0; 60; 66; 66; 66; 66; 66; 66; 66; 74; 60; 2;
  0; 0; 0; 0; 0; 124; 66; 66; 66; 66; 124; 80; 72; 68; 66; 0; 0; 0; 0; 0; 0; 60; 66; 64; 64; 60; 2;
  2; 66; 66; 60; 0; 0; 0; 0; 0; 0; 254; 16; 16; 16; 16; 16; 16; 16; 16; 16; 0; 0; 0; 0; 0; 0; 66;
  66; 66; 66; 66; 66; 66; 66; 66; 60; 0; 0; 0; 0; 0; 0; 66; 66; 66; 66; 66; 36; 36; 36; 24; 24; 0;
  0; 0; 0; 0; 0; 130; 130; 130; 130; 130; 146; 146; 170; 198; 130; 0; 0; 0; 0; 0; 0; 66; 66; 36;
  36; 24; 24; 36; 36; 66; 66; 0; 0; 0; 0; 0; 0; 130; 130; 68; 68; 40; 16; 16; 16; 16; 16; 0; 0; 0;
  0; 0; 0; 126; 2; 2; 4; 8; 16; 32; 64; 64; 126; 0; 0; 0; 0; 0; 0; 56; 32; 32; 32; 32; 32; 32; 32;
  32; 56; 0; 0; 0; 0; 0; 0; 64; 64; 32; 32; 16; 16; 8; 8; 4; 4; 0; 0; 0; 0; 0; 0; 56; 8; 8; 8; 8;
  8; 8; 8; 8; 56; 0; 0; 0; 0; 0; 16; 40; 68; 0; 0; 0; 0; 0; 0; 0; 0; 0; 0; 0; 0; 0; 0; 0; 0; 0; 0;
  0; 0; 0; 0; 0; 0; 0; 126; 0; 0; 16; 8; 0; 0; 0; 0; 0; 0; 0; 0; 0; 0; 0; 0; 0; 0; 0; 0; 0; 0; 0;
  60; 2; 62; 66; 66; 66; 62; 0; 0; 0; 0; 0; 0; 64; 64; 64; 124; 66; 66; 66; 66; 66; 124; 0; 0; 0;
  0; 0; 0; 0; 0; 0; 60; 66; 64; 64; 64; 66; 60; 0; 0; 0; 0; 0; 0; 2; 2; 2; 62; 66; 66; 66; 66; 66;
  62; 0; 0; 0; 0; 0; 0; 0; 0; 0; 60; 66; 66; 126; 64; 64; 60; 0; 0; 0; 0; 0; 0; 14; 16; 16; 124;
  16; 16; 16; 16; 16; 16; 0; 0; 0; 0; 0; 0; 0; 0; 0; 62; 66; 66; 66; 66; 66; 62; 2; 2; 60; 0; 0; 0;
  64; 64; 64; 124; 66; 66; 66; 66; 66; 66; 0; 0; 0; 0; 0; 0; 16; 16; 0; 48; 16; 16; 16; 16; 16; 56;
  0; 0; 0; 0; 0; 0; 4; 4; 0; 12; 4; 4; 4; 4; 4; 4; 68; 68; 56; 0; 0; 0; 64; 64; 64; 66; 68; 72;
  112; 72; 68; 66; 0; 0; 0; 0; 0; 0; 48; 16; 16; 16; 16; 16; 16; 16; 16; 56; 0; 0; 0; 0; 0; 0; 0;
  0; 0; 252; 146; 146; 146; 146; 146; 146; 0; 0; 0; 0; 0; 0; 0; 0; 0; 124; 66; 66; 66; 66; 66; 66;
  0; 0; 0; 0; 0; 0; 0; 0; 0; 60; 66; 66; 66; 66; 66; 60; 0; 0; 0; 0; 0; 0; 0; 0; 0; 124; 66; 66;
  66; 66; 66; 124; 64; 64; 64; 0; 0; 0; 0; 0; 0; 62; 66; 66; 66; 66; 66; 62; 2; 2; 2; 0; 0; 0; 0;
  0; 0; 94; 96; 64; 64; 64; 64; 64; 0; 0; 0; 0; 0; 0; 0; 0; 0; 62; 64; 64; 60; 2; 2; 124; 0; 0; 0;
  0; 0; 0; 16; 16; 16; 124; 16; 16; 16; 16; 16; 14; 0; 0; 0; 0; 0; 0; 0; 0; 0; 66; 66; 66; 66; 66;
  66; 62; 0; 0; 0; 0; 0; 0; 0; 0; 0; 66; 66; 66; 36; 36; 24; 24; 0; 0; 0; 0; 0; 0; 0; 0; 0; 130;
  130; 146; 146; 146; 146; 124; 0; 0; 0; 0; 0; 0; 0; 0; 0; 66; 66; 36; 24; 36; 66; 66; 0; 0; 0; 0;
  0; 0; 0; 0; 0; 66; 66; 66; 66; 66; 66; 62; 2; 2; 60; 0; 0; 0; 0; 0; 0; 126; 4; 8; 16; 32; 64;
  126; 0; 0; 0; 0; 0; 0; 12; 16; 16; 16; 32; 16; 16; 16; 16; 12; 0; 0; 0; 0; 0; 0; 16; 16; 16; 16;
  16; 16; 16; 16; 16; 16; 0; 0; 0; 0; 0; 0; 48; 8; 8; 8; 4; 8; 8; 8; 8; 48; 0; 0; 0; 0; 0; 0; 0; 0;
  0; 0; 98; 146; 140; 0; 0; 0; 0; 0; 0; 0; 68; 68; 0; 56; 16; 16; 16; 16; 16; 16; 16; 56; 0; 0; 0; 0].

(** The statics that [framebuffer_init] sets. *)
Record fb_mode := {
  framebuffer_base : Z;
  framebuffer_pitch : Z;
  framebuffer_width : Z;
  framebuffer_height : Z;
  framebuffer_bytes_per_pixel : Z;
  framebuffer_columns : Z;
  framebuffer_rows : Z;
  framebuffer_foreground : Z;
  framebuffer_background : Z;
  framebuffer_red_field_position : Z;
  framebuffer_red_mask_size : Z;
  framebuffer_green_field_position : Z;
  framebuffer_green_mask_size : Z;
  framebuffer_blue_field_position : Z;
  framebuffer_blue_mask_size : Z;
  framebuffer_ready : bool;
}.

Record framebuffer := {
  mode : fb_mode;
  framebuffer_cursor_row : Z;
  framebuffer_cursor_column : Z;
  video : carray Z;
}.

(** Shifts by 32 or more, which C leaves undefined, do not occur for the masks of a 32-bit pixel. *)
Definition scale_channel (value mask_size : Z) : Z :=
  if mask_size =? 0 then 0
  else if 8 <=? mask_size then u32 (Z.shiftl value (mask_size ⊟ 8))
  else
    let max_value := u32 (Z.shiftl 1 mask_size) ⊟ 1 in
    (value ⊠ max_value) / 255.

Definition framebuffer_pack_color (red green blue : Z) (m : fb_mode) : Z :=
  let pixel := 0 in
  let pixel := Z.lor pixel (u32 (Z.shiftl (scale_channel red (framebuffer_red_mask_size m)) (framebuffer_red_field_position m))) in
  let pixel := Z.lor pixel (u32 (Z.shiftl (scale_channel green (framebuffer_green_mask_size m)) (framebuffer_green_field_position m))) in
  Z.lor pixel (u32 (Z.shiftl (scale_channel blue (framebuffer_blue_mask_size m)) (framebuffer_blue_field_position m))).

Definition framebuffer_write_pixel (m : fb_mode) (x y pixel : Z) (v : carray Z) : carray Z :=
  let address := framebuffer_base m ⊞ (y ⊠ framebuffer_pitch m) ⊞ (x ⊠ framebuffer_bytes_per_pixel m) in
  for_range 0 (framebuffer_bytes_per_pixel m) (λ byte_index v,
    <[address ⊞ byte_index := u8 (Z.land (Z.shiftr pixel (byte_index ⊠ 8)) 255)]> v) v.

Definition framebuffer_clear_rows (m : fb_mode) (start_y row_count : Z) (v : carray Z) : carray Z :=
  for_range start_y (Z.min (start_y ⊞ row_count) (framebuffer_height m)) (λ y v,
    for_range 0 (framebuffer_width m) (λ x v, framebuffer_write_pixel m x y (framebuffer_background m) v) v) v.

(** A loop whose body starts with [if (stop) break;]. *)
Fixpoint loop_until {S : Type} (turns : nat) (i : Z) (stop : Z → bool) (f : Z → S → S) (s : S) : S :=
  match turns with
  | O => s
  | Datatypes.S turns => if stop i then s else loop_until turns (i + 1) stop f (f i s)
  end.

Definition framebuffer_draw_glyph (m : fb_mode) (cell_row cell_column ch : Z) (v : carray Z) : carray Z :=
  let glyph_index := if FRAMEBUFFER_FONT_GLYPHS <=? ch then 63 else ch in
  let glyph := glyph_index ⊠ FRAMEBUFFER_FONT_HEIGHT in
  let pixel_y := cell_row ⊠ FRAMEBUFFER_FONT_HEIGHT in
  let pixel_x := cell_column ⊠ FRAMEBUFFER_FONT_WIDTH in
  loop_until (Z.to_nat FRAMEBUFFER_FONT_HEIGHT) 0 (λ row, framebuffer_height m <=? pixel_y ⊞ row) (λ row v,
    let bits := nth (Z.to_nat (glyph + row)) framebuffer_font_8x16 0 in
    loop_until (Z.to_nat FRAMEBUFFER_FONT_WIDTH) 0 (λ column, framebuffer_width m <=? pixel_x ⊞ column) (λ column v,
      let color := if truthy (Z.land bits (u8 (Z.shiftr 128 column)))
                   then framebuffer_foreground m else framebuffer_background m in
      framebuffer_write_pixel m (pixel_x ⊞ column) (pixel_y ⊞ row) color v) v) v.

Definition framebuffer_scroll (m : fb_mode) (v : carray Z) : carray Z :=
  if negb (framebuffer_ready m) || (framebuffer_height m <=? FRAMEBUFFER_FONT_HEIGHT) then v
  else
    let bytes_to_move := framebuffer_pitch m ⊠ (framebuffer_height m ⊟ FRAMEBUFFER_FONT_HEIGHT) in
    let v := for_range 0 bytes_to_move (λ target_index v,
               let source_index := target_index ⊞ (framebuffer_pitch m ⊠ FRAMEBUFFER_FONT_HEIGHT) in
               <[framebuffer_base m ⊞ target_index := v (framebuffer_base m ⊞ source_index)]> v) v in
    framebuffer_clear_rows m (framebuffer_height m ⊟ FRAMEBUFFER_FONT_HEIGHT) FRAMEBUFFER_FONT_HEIGHT v.

Definition with_screen (row column : Z) (v : carray Z) (f : framebuffer) : framebuffer :=
  {| mode := mode f; framebuffer_cursor_row := row; framebuffer_cursor_column := column; video := v |}.

Definition framebuffer_newline (f : framebuffer) : framebuffer :=
  if framebuffer_cursor_row f ⊞ 1 <? framebuffer_rows (mode f)
  then with_screen (framebuffer_cursor_row f ⊞ 1) 0 (video f) f
  else with_screen (framebuffer_cursor_row f) 0 (framebuffer_scroll (mode f) (video f)) f.

Definition framebuffer_reset_mode : fb_mode :=
  {| framebuffer_base := 0; framebuffer_pitch := 0; framebuffer_width := 0; framebuffer_height := 0;
     framebuffer_bytes_per_pixel := 0; framebuffer_columns := 0; framebuffer_rows := 0; framebuffer_foreground := 0;
     framebuffer_background := 0; framebuffer_red_field_position := 0; framebuffer_red_mask_size := 0;
     framebuffer_green_field_position := 0; framebuffer_green_mask_size := 0; framebuffer_blue_field_position := 0;
     framebuffer_blue_mask_size := 0; framebuffer_ready := false |}.

Definition framebuffer_reset_state (f : framebuffer) : framebuffer :=
  {| mode := framebuffer_reset_mode; framebuffer_cursor_row := 0; framebuffer_cursor_column := 0; video := video f |}.

Definition framebuffer_available (f : framebuffer) : bool := framebuffer_ready (mode f).

(** The end of [framebuffer_write_char]: a character with a glyph. *)
Definition framebuffer_put (ch : Z) (f : framebuffer) : framebuffer :=
  let f := with_screen (framebuffer_cursor_row f) (framebuffer_cursor_column f ⊞ 1)
             (framebuffer_draw_glyph (mode f) (framebuffer_cursor_row f) (framebuffer_cursor_column f) (u8 ch) (video f)) f in
  if framebuffer_columns (mode f) <=? framebuffer_cursor_column f then framebuffer_newline f else f.

(** The call for a space in the branch of the tab is not recursive: a space has a glyph. *)
Definition framebuffer_write_char (ch : Z) (f : framebuffer) : framebuffer :=
  if negb (framebuffer_ready (mode f)) then f
  else if ch =? 13 then with_screen (framebuffer_cursor_row f) 0 (video f) f
  else if ch =? 10 then framebuffer_newline f
  else if ch =? 9 then
    let spaces := 4 ⊟ (framebuffer_cursor_column f mod 4) in
    for_range 0 spaces (λ _ f, framebuffer_put 32 f) f
  else framebuffer_put ch f.

Lemma for_range_shift {S : Type} d lo hi (f : Z → S → S) s :
  for_range lo hi f s = for_range (d + lo) (d + hi) (λ i, f (i - d)) s.
Proof.
  unfold for_range. replace (d + hi - (d + lo)) with (hi - lo) by lia. generalize (Z.to_nat (hi - lo)) as n. intros n.
  revert lo s. induction n as [|n IH]; intros lo s; cbn [iter_from]; [done|]. rewrite IH.
  replace (d + lo - d) with lo by lia. by replace (d + (lo + 1)) with (d + lo + 1) by lia.
Qed.

(** ** Pixels *)

(** A mode for which the console is proved correct.  [framebuffer_init] sets [mo_ready], the depth and
    the numbers of columns and rows; it does not check the rest, which a boot loader is trusted
    with: the lines of the picture do not overlap ([mo_pitch]), the picture lies in
    the address space ([mo_end]), and it has more than 16 pixel lines ([mo_height]; a picture
    of 16 lines is never scrolled). *)
Record mode_ok (m : fb_mode) : Prop := {
  mo_ready : framebuffer_ready m = true;
  mo_base : 0 ≤ framebuffer_base m;
  mo_end : framebuffer_base m + framebuffer_pitch m * framebuffer_height m ≤ 4294967296;
  mo_pitch : framebuffer_width m * framebuffer_bytes_per_pixel m ≤ framebuffer_pitch m;
  mo_bpp : 2 ≤ framebuffer_bytes_per_pixel m ≤ 4;
  mo_columns : framebuffer_columns m = framebuffer_width m / 8 ∧ 0 < framebuffer_columns m;
  mo_rows : framebuffer_rows m = framebuffer_height m / 16 ∧ 0 < framebuffer_rows m;
  mo_height : 16 < framebuffer_height m;
}.

(** The picture as a range of addresses. *)
Definition in_picture (m : fb_mode) (a : Z) : Prop :=
  framebuffer_base m ≤ a < framebuffer_base m + framebuffer_pitch m * framebuffer_height m.

Definition address (m : fb_mode) (x y : Z) : Z :=
  framebuffer_base m + y * framebuffer_pitch m + x * framebuffer_bytes_per_pixel m.
Definition pixel (m : fb_mode) (v : carray Z) (x y : Z) : list Z :=
  (λ k, v (address m x y + k)) <$> seqZ 0 (framebuffer_bytes_per_pixel m).
Definition pixel_bytes (m : fb_mode) (p : Z) : list Z :=
  (λ k, u8 (Z.shiftr p (k * 8))) <$> seqZ 0 (framebuffer_bytes_per_pixel m).

Definition on_picture (m : fb_mode) (x y : Z) : Prop := 0 ≤ x < framebuffer_width m ∧ 0 ≤ y < framebuffer_height m.

(** Two states of the video memory that differ only in the picture. *)
Definition same_outside (m : fb_mode) (v v' : carray Z) : Prop := ∀ a, ¬ in_picture m a → v' a = v a.

Lemma same_outside_refl m v : same_outside m v v.
Proof. done. Qed.
Lemma same_outside_trans m v1 v2 v3 : same_outside m v1 v2 → same_outside m v2 v3 → same_outside m v1 v3.
Proof. intros H1 H2 a Ha. by rewrite H2, H1. Qed.

Section pixels.
Context (m : fb_mode) (Hm : mode_ok m).
Implicit Types v : carray Z.

Local Abbreviation W := (framebuffer_width m).
Local Abbreviation Ht := (framebuffer_height m).
Local Abbreviation B := (framebuffer_bytes_per_pixel m).
Local Abbreviation pitch := (framebuffer_pitch m).

Lemma width_pos : 8 ≤ W.
Proof. destruct (mo_columns m Hm) as [-> Hc]. destruct (decide (W < 8)); [|lia]. destruct (decide (0 ≤ W)); [by rewrite Z.div_small in Hc by lia|].
  assert (W / 8 < 0) by (apply Z.div_lt_upper_bound; lia). lia. Qed.

Lemma pitch_bound : 16 ≤ pitch < 4294967296.
Proof.
  pose proof width_pos. destruct Hm as [_ Hb He Hp [? ?] _ _ Hh]. split; [nia|].
  assert (pitch * 17 ≤ pitch * Ht) by (apply Z.mul_le_mono_nonneg_l; nia). nia.
Qed.

Lemma address_bound x y k :
  on_picture m x y → 0 ≤ k < B →
  0 ≤ y * pitch ∧ 0 ≤ x * B ∧ x * B + k < pitch ∧ y * pitch + pitch ≤ pitch * Ht ∧ in_picture m (address m x y + k).
Proof.
  intros [Hx Hy] Hk. pose proof pitch_bound. destruct Hm as [_ Hb He Hp [? ?] _ _ Hh].
  assert ((x + 1) * B ≤ W * B) by (apply Z.mul_le_mono_nonneg_r; lia).
  assert ((y + 1) * pitch ≤ Ht * pitch) by (apply Z.mul_le_mono_nonneg_r; lia).
  assert (0 ≤ x * B) by (apply Z.mul_nonneg_nonneg; lia). assert (0 ≤ y * pitch) by (apply Z.mul_nonneg_nonneg; lia).
  unfold in_picture, address. lia.
Qed.

(** The bytes of different pixels lie at different addresses. *)
Lemma address_inj x y k x' y' k' :
  on_picture m x y → 0 ≤ k < B → on_picture m x' y' → 0 ≤ k' < B →
  address m x y + k = address m x' y' + k' → x = x' ∧ y = y' ∧ k = k'.
Proof.
  intros Hxy Hk Hxy' Hk' E. destruct (address_bound x y k Hxy Hk) as (?&?&?&_). destruct (address_bound x' y' k' Hxy' Hk') as (?&?&?&_).
  pose proof pitch_bound. unfold address in E.
  assert (y = y') as <-.
  { apply (Z.div_mod_unique pitch y y' (x * B + k) (x' * B + k')); [left; lia|left; lia|lia]. }
  destruct (Z.div_mod_unique B x x' k k'); [left; lia|left; lia|lia|]. lia.
Qed.

Lemma write_pixel_address x y k :
  on_picture m x y → 0 ≤ k < B →
  framebuffer_base m ⊞ (y ⊠ pitch) ⊞ (x ⊠ B) ⊞ k = address m x y + k.
Proof.
  intros Hxy Hk. destruct (address_bound x y k Hxy Hk) as (?&?&?&?&?). destruct Hm as [_ Hb He _ _ _ _ _].
  unfold in_picture, address in *.
  rewrite (u32_small (y * pitch)), (u32_small (x * B)) by lia.
  rewrite (u32_small (framebuffer_base m + y * pitch)) by lia. rewrite (u32_small (_ + x * B)) by lia. apply u32_small. lia.
Qed.

Lemma write_pixel_at x y p v a :
  on_picture m x y →
  framebuffer_write_pixel m x y p v a
  = if decide (address m x y ≤ a < address m x y + B) then u8 (Z.shiftr p ((a - address m x y) * 8)) else v a.
Proof.
  intros Hxy. unfold framebuffer_write_pixel. cbv zeta. pose proof (mo_bpp m Hm) as HB.
  set (body := λ byte_index v, _).
  pose proof (for_range_ind (λ k v', ∀ a, v' a = if decide (address m x y ≤ a < address m x y + k) then u8 (Z.shiftr p ((a - address m x y) * 8)) else v a)
    0 B body v) as Hi. cbv beta in Hi. rewrite Hi; [done|lia| |].
  - intros a'. by rewrite decide_False by lia.
  - intros k v' Hk IH a'. unfold body. rewrite write_pixel_address by done. rewrite arr_get_set, IH.
    destruct (decide (address m x y + k = a')) as [<-|Hne].
    + rewrite decide_True by lia. rewrite Z.add_simpl_l, u32_small by lia.
      change 255 with (Z.ones 8). rewrite Z.land_ones by lia. change (2 ^ 8) with 256. unfold u8. by rewrite Z.mod_mod.
    + destruct (decide (_ ≤ a' < _ + k)), (decide (_ ≤ a' < _ + (k + 1))); try done; lia.
Qed.

Lemma write_pixel_pixel x y p v x' y' :
  on_picture m x y → on_picture m x' y' →
  pixel m (framebuffer_write_pixel m x y p v) x' y' = if decide (x = x' ∧ y = y') then pixel_bytes m p else pixel m v x' y'.
Proof.
  intros Hxy Hxy'. destruct (decide (x = x' ∧ y = y')) as [[<- <-]|Hne]; unfold pixel, pixel_bytes; apply list_fmap_ext; intros i k Hk;
    apply list_elem_of_lookup_2 in Hk; apply elem_of_seqZ in Hk; rewrite write_pixel_at by done.
  - rewrite decide_True by lia. do 3 f_equal. lia.
  - rewrite decide_False; [done|]. intros Ha. apply Hne.
    destruct (address_inj x y (address m x' y' + k - address m x y) x' y' k) as (?&?&_); try done; lia.
Qed.

Lemma write_pixel_outside x y p v : on_picture m x y → same_outside m v (framebuffer_write_pixel m x y p v).
Proof.
  intros Hxy a Ha. rewrite write_pixel_at by done. rewrite decide_False; [done|]. intros Hr. apply Ha.
  replace a with (address m x y + (a - address m x y)) by lia. apply address_bound; [done|lia].
Qed.

(** The video memory changes from [v] to [v'] only in the picture, where it then shows [F]. *)
Definition paints v (F : Z → Z → list Z) v' : Prop :=
  same_outside m v v' ∧ ∀ x y, on_picture m x y → pixel m v' x y = F x y.

Lemma paints_ext v F G v' : paints v F v' → (∀ x y, on_picture m x y → F x y = G x y) → paints v G v'.
Proof. intros [Ho Hp] HFG. split; [done|]. intros x y Hxy. by rewrite Hp, HFG. Qed.

Lemma paints_refl v : paints v (pixel m v) v.
Proof. split; [apply same_outside_refl|done]. Qed.

Lemma paints_step v F v1 v2 G : paints v F v1 → paints v1 G v2 → paints v G v2.
Proof. intros [Ho Hp] [Ho' Hp']. split; [by eapply same_outside_trans|done]. Qed.

(** A loop over pixels of one row. *)
Lemma row_loop v y lo hi (color : Z → Z) :
  0 ≤ lo → lo ≤ hi ≤ W → 0 ≤ y < Ht →
  paints v (λ x' y', if decide (y' = y ∧ lo ≤ x' < hi) then pixel_bytes m (color x') else pixel m v x' y')
    (for_range lo hi (λ x v, framebuffer_write_pixel m x y (color x) v) v).
Proof.
  intros Hlo Hhi Hy.
  pose proof (for_range_ind (λ i v', paints v (λ x' y', if decide (y' = y ∧ lo ≤ x' < i) then pixel_bytes m (color x') else pixel m v x' y') v')
    lo hi (λ x v, framebuffer_write_pixel m x y (color x) v) v) as Hi. apply Hi; clear Hi; [lia| |].
  - eapply paints_ext; [apply paints_refl|]. intros x' y' _. cbv beta. by rewrite decide_False by lia.
  - intros k v' Hk [Ho Hp]. assert (on_picture m k y) as Hky by (split; lia). split.
    + eapply same_outside_trans; [exact Ho|by apply write_pixel_outside].
    + intros x' y' Hxy. rewrite write_pixel_pixel by done. rewrite Hp by done.
      destruct (decide (k = x' ∧ y = y')) as [[-> ->]|]; [by rewrite decide_True by lia|].
      destruct (decide (y' = y ∧ lo ≤ x' < k)), (decide (y' = y ∧ lo ≤ x' < k + 1)); try done; lia.
Qed.

(** A loop over rows that each paint one row of pixels. *)
Lemma rows_loop v lo hi xlo xhi (color : Z → Z → Z) (body : Z → carray Z → carray Z) :
  0 ≤ lo → lo ≤ hi ≤ Ht → 
  (∀ y v, lo ≤ y < hi → paints v (λ x' y', if decide (y' = y ∧ xlo ≤ x' < xhi) then pixel_bytes m (color x' y) else pixel m v x' y') (body y v)) →
  paints v (λ x' y', if decide (lo ≤ y' < hi ∧ xlo ≤ x' < xhi) then pixel_bytes m (color x' y') else pixel m v x' y') (for_range lo hi body v).
Proof.
  intros Hlo Hhi Hb.
  pose proof (for_range_ind (λ i v', paints v (λ x' y', if decide (lo ≤ y' < i ∧ xlo ≤ x' < xhi) then pixel_bytes m (color x' y') else pixel m v x' y') v')
    lo hi body v) as Hi. apply Hi; clear Hi; [lia| |].
  - eapply paints_ext; [apply paints_refl|]. intros x' y' _. cbv beta. by rewrite decide_False by lia.
  - intros k v' Hk Hv. eapply paints_step; [exact Hv|]. eapply paints_ext; [by apply Hb|]. intros x' y' Hxy. cbv beta.
    rewrite (proj2 Hv) by done. destruct (decide (y' = k ∧ xlo ≤ x' < xhi)) as [[-> ?]|]; [by rewrite decide_True by lia|].
    destruct (decide (lo ≤ y' < k ∧ _)), (decide (lo ≤ y' < k + 1 ∧ _)); try done; lia.
Qed.

Lemma height_bound : 16 < Ht < 4294967296.
Proof. pose proof pitch_bound. destruct Hm as [_ ? ? _ _ _ _ ?]. nia. Qed.
Lemma width_bound : 8 ≤ W < 4294967296.
Proof. pose proof pitch_bound. pose proof width_pos. destruct Hm as [_ _ _ ? [? ?] _ _ _]. nia. Qed.

Lemma clear_rows_paints v start count :
  0 ≤ start → 0 ≤ count → start + count ≤ Ht →
  paints v (λ x' y', if decide (start ≤ y' < start + count) then pixel_bytes m (framebuffer_background m) else pixel m v x' y')
    (framebuffer_clear_rows m start count v).
Proof.
  intros Hs Hc He. pose proof height_bound. pose proof width_bound. unfold framebuffer_clear_rows.
  rewrite u32_small, Z.min_l by lia.
  eapply paints_ext; [apply (rows_loop v start (start + count) 0 W (λ _ _, framebuffer_background m)); [lia|lia|]|].
  - intros y v' Hy. apply (row_loop v' y 0 W (λ _, framebuffer_background m)); lia.
  - intros x' y' [Hx' Hy']. cbv beta. destruct (decide (start ≤ y' < start + count)); [by rewrite decide_True|by rewrite decide_False by lia].
Qed.

(** ** Glyphs *)

(** The color of the pixel in row [r] and column [c] of a glyph. *)
Definition glyph_color (ch r c : Z) : Z :=
  let bits := nth (Z.to_nat ((if FRAMEBUFFER_FONT_GLYPHS <=? ch then 63 else ch) * 16 + r)) framebuffer_font_8x16 0 in
  if truthy (Z.land bits (u8 (Z.shiftr 128 c))) then framebuffer_foreground m else framebuffer_background m.

Lemma blank_glyph r c : 0 ≤ r < 16 → glyph_color 32 r c = framebuffer_background m.
Proof.
  intros Hr. unfold glyph_color. change (FRAMEBUFFER_FONT_GLYPHS <=? 32) with false. cbv beta iota zeta.
  assert (∀ r, r ∈ seqZ 0 16 → nth (Z.to_nat (32 * 16 + r)) framebuffer_font_8x16 0 = 0) as Hrow.
  { apply Forall_forall. vm_compute. by repeat constructor. }
  rewrite Hrow by (apply elem_of_seqZ; lia). by rewrite Z.land_0_l.
Qed.

Lemma loop_until_never {S} n i stop (f : Z → S → S) s :
  (∀ k, i ≤ k < i + Z.of_nat n → stop k = false) → loop_until n i stop f s = for_range i (i + Z.of_nat n) f s.
Proof.
  revert i s. induction n as [|n IH]; intros i s Hs; [by rewrite for_range_empty by lia|].
  cbn [loop_until]. rewrite Hs, for_range_step by lia. rewrite IH by (intros; apply Hs; lia). f_equal. lia.
Qed.

Local Abbreviation R := (framebuffer_rows m).
Local Abbreviation C := (framebuffer_columns m).

Lemma cells_bound : 0 < R ∧ R * 16 ≤ Ht ∧ Ht < R * 16 + 16 ∧ 0 < C ∧ C * 8 ≤ W ∧ W < C * 8 + 8.
Proof.
  destruct (mo_rows m Hm) as [-> ?], (mo_columns m Hm) as [-> ?].
  pose proof (Z.div_mod Ht 16 ltac:(lia)). pose proof (Z.div_mod W 8 ltac:(lia)).
  pose proof (Z.mod_pos_bound Ht 16 ltac:(lia)). pose proof (Z.mod_pos_bound W 8 ltac:(lia)). lia.
Qed.

Lemma draw_glyph_paints v row column ch :
  0 ≤ row < R → 0 ≤ column < C → is_u8 ch →
  paints v (λ x y, if decide (y / 16 = row ∧ x / 8 = column) then pixel_bytes m (glyph_color ch (y mod 16) (x mod 8)) else pixel m v x y)
    (framebuffer_draw_glyph m row column ch v).
Proof.
  intros Hr Hc Hch. pose proof height_bound. pose proof width_bound. destruct cells_bound as (?&?&?&?&?&?). unfold is_u8 in Hch.
  unfold framebuffer_draw_glyph. cbv zeta. change FRAMEBUFFER_FONT_HEIGHT with 16. change FRAMEBUFFER_FONT_WIDTH with 8.
  rewrite (u32_small (row * 16)), (u32_small (column * 8)) by lia. set (g := if _ <=? ch then 63 else ch).
  assert (0 ≤ g < 256) by (unfold g; case_if; lia). rewrite (u32_small (g * 16)) by lia.
  rewrite loop_until_never by (intros k Hk; apply Z.leb_gt; rewrite u32_small; lia).
  change (0 + Z.of_nat (Z.to_nat 16)) with 16.
  set (color := λ x y, glyph_color ch (y - row * 16) (x - column * 8)).
  rewrite (for_range_shift (row * 16) 0 16).
  eapply paints_ext; [apply (rows_loop v (row * 16 + 0) (row * 16 + 16) (column * 8) (column * 8 + 8) color); [lia|lia|]|].
  - intros y v' Hy. rewrite loop_until_never by (intros k Hk; apply Z.leb_gt; rewrite u32_small; lia).
    change (0 + Z.of_nat (Z.to_nat 8)) with 8. rewrite (for_range_shift (column * 8) 0 8).
    rewrite (for_range_ext _ _ _ (λ x v, framebuffer_write_pixel m x y (color x y) v)).
    + replace (column * 8 + 0) with (column * 8) by lia. apply (row_loop v' y (column * 8) (column * 8 + 8) (λ x, color x y)); lia.
    + intros x v'' Hx. rewrite !u32_small by lia. unfold color, glyph_color. f_equal; lia.
  - intros x y [Hx Hy]. cbv beta. destruct (decide (y / 16 = row ∧ x / 8 = column)) as [[<- <-]|Hne].
    + rewrite decide_True by (Z.to_euclidean_division_equations; lia). unfold color. do 2 f_equal; rewrite Z.mod_eq; lia.
    + rewrite decide_False; [done|]. intros Hin. apply Hne. Z.to_euclidean_division_equations. lia.
Qed.

Lemma scroll_move v a :
  let n := pitch * (Ht - 16) in
  for_range 0 n (λ i v, <[framebuffer_base m ⊞ i := v (framebuffer_base m ⊞ (i ⊞ (pitch ⊠ 16)))]> v) v a
  = if decide (framebuffer_base m ≤ a < framebuffer_base m + n) then v (a + pitch * 16) else v a.
Proof.
  intros n. pose proof height_bound. pose proof pitch_bound. destruct Hm as [_ Hb He _ _ _ _ _].
  assert (n + pitch * 16 = pitch * Ht) as Hn by (unfold n; lia). assert (0 ≤ n) by (unfold n; nia).
  set (body := λ i v, _).
  pose proof (for_range_ind (λ i v', ∀ a, v' a = if decide (framebuffer_base m ≤ a < framebuffer_base m + i) then v (a + pitch * 16) else v a)
    0 n body v) as Hi. cbv beta in Hi. apply Hi; [done| |].
  - intros a'. by rewrite decide_False by lia.
  - intros k v' Hk IH a'. unfold body. rewrite (u32_small (pitch * 16)) by lia. rewrite (u32_small (k + _)) by lia.
    rewrite (u32_small (framebuffer_base m + k)) by lia. rewrite (u32_small (framebuffer_base m + (k + _))) by lia.
    rewrite arr_get_set, !IH. destruct (decide (framebuffer_base m + k = a')) as [<-|Hne].
    + rewrite decide_False by lia. rewrite decide_True by lia. f_equal. lia.
    + destruct (decide (_ ≤ a' < _ + k)), (decide (_ ≤ a' < _ + (k + 1))); try done; lia.
Qed.

Lemma scroll_paints v :
  paints v (λ x y, if decide (y < Ht - 16) then pixel m v x (y + 16) else pixel_bytes m (framebuffer_background m)) (framebuffer_scroll m v).
Proof.
  pose proof height_bound. pose proof pitch_bound. unfold framebuffer_scroll. rewrite (mo_ready m Hm). change FRAMEBUFFER_FONT_HEIGHT with 16.
  rewrite (proj2 (Z.leb_gt _ _)) by lia. cbn [negb orb]. cbv zeta. rewrite (u32_small (Ht - 16)) by lia.
  assert (0 ≤ pitch * (Ht - 16) < 4294967296) by (destruct Hm as [_ ? ? _ _ _ _ _]; nia). rewrite (u32_small (pitch * _)) by lia.
  set (v1 := for_range 0 _ _ v).
  assert (paints v (λ x y, if decide (y < Ht - 16) then pixel m v x (y + 16) else pixel m v x y) v1) as Hv1.
  { split.
    - intros a Ha. unfold v1. rewrite scroll_move. rewrite decide_False; [done|]. unfold in_picture in Ha. nia.
    - intros x y Hxy. destruct (decide (y < Ht - 16)) as [Hlt|Hge]; apply list_fmap_ext; intros i k Hk;
        apply list_elem_of_lookup_2 in Hk; apply elem_of_seqZ in Hk; unfold v1; rewrite scroll_move;
        destruct (address_bound x y k Hxy ltac:(lia)) as (?&?&?&?&?); unfold in_picture, address in *.
      + rewrite decide_True; [f_equal; lia|]. assert ((y + 1) * pitch ≤ (Ht - 16) * pitch) by (apply Z.mul_le_mono_nonneg_r; lia). lia.
      + rewrite decide_False; [done|]. assert ((Ht - 16) * pitch ≤ y * pitch) by (apply Z.mul_le_mono_nonneg_r; lia). lia. }
  eapply paints_step; [exact Hv1|]. eapply paints_ext; [apply clear_rows_paints; lia|]. intros x y Hxy. cbv beta.
  destruct Hxy as [? ?]. destruct (decide (y < Ht - 16)).
  - rewrite decide_False by lia. rewrite (proj2 Hv1) by done. by rewrite decide_True.
  - by rewrite decide_True by lia.
Qed.
End pixels.

(** ** The terminal *)

(** A grid of characters with a cursor. *)
Record terminal := { t_row : Z; t_column : Z; t_char : Z → Z → Z }.

Definition blank_terminal : terminal := {| t_row := 0; t_column := 0; t_char := λ _ _, 32 |}.

Section terminal.
Context (rows columns : Z).

(** The next row; behind the last one the text moves up and a row of spaces appears. *)
Definition term_newline (t : terminal) : terminal :=
  if decide (t_row t + 1 < rows) then {| t_row := t_row t + 1; t_column := 0; t_char := t_char t |}
  else {| t_row := t_row t; t_column := 0; t_char := λ r c, if decide (r = rows - 1) then 32 else t_char t (r + 1) c |}.

Definition term_put (ch : Z) (t : terminal) : terminal :=
  let t := {| t_row := t_row t; t_column := t_column t + 1;
              t_char := λ r c, if decide (r = t_row t ∧ c = t_column t) then ch else t_char t r c |} in
  if decide (columns ≤ t_column t) then term_newline t else t.

(** Carriage return, end of line, tab, and characters with a glyph. *)
Definition term_write (ch : Z) (t : terminal) : terminal :=
  if ch =? 13 then {| t_row := t_row t; t_column := 0; t_char := t_char t |}
  else if ch =? 10 then term_newline t
  else if ch =? 9 then Nat.iter (Z.to_nat (4 - t_column t mod 4)) (term_put 32) t
  else term_put ch t.
End terminal.

(** The color of a pixel of the picture that shows the terminal. *)
Definition term_color (m : fb_mode) (t : terminal) (x y : Z) : Z :=
  if decide (x / 8 < framebuffer_columns m ∧ y / 16 < framebuffer_rows m)
  then glyph_color m (t_char t (y / 16) (x / 8)) (y mod 16) (x mod 8)
  else framebuffer_background m.

Record displays (t : terminal) (f : framebuffer) : Prop := {
  di_mode : mode_ok (mode f);
  di_row : framebuffer_cursor_row f = t_row t ∧ 0 ≤ t_row t < framebuffer_rows (mode f);
  di_column : framebuffer_cursor_column f = t_column t ∧ 0 ≤ t_column t < framebuffer_columns (mode f);
  di_pixels : ∀ x y, on_picture (mode f) x y → pixel (mode f) (video f) x y = pixel_bytes (mode f) (term_color (mode f) t x y);
}.

(** One step of the console against one step of the terminal. *)
Definition follows (f : framebuffer) (t' : terminal) (f' : framebuffer) : Prop :=
  displays t' f' ∧ mode f' = mode f ∧ same_outside (mode f) (video f) (video f').

Lemma follows_trans f t1 f1 t2 f2 : follows f t1 f1 → follows f1 t2 f2 → follows f t2 f2.
Proof.
  intros (_&Hm&Ho) (Hd&Hm'&Ho'). split; [done|]. split; [congruence|].
  rewrite Hm in Ho'. by eapply same_outside_trans.
Qed.

(** Pixels and colors are the same when the terminal moves up by a row. *)
Lemma scrolled_color m t x y :
  mode_ok m → on_picture m x y → t_row t + 1 = framebuffer_rows m →
  (if decide (y < framebuffer_height m - 16) then term_color m t x (y + 16) else framebuffer_background m)
  = term_color m (term_newline (framebuffer_rows m) t) x y.
Proof.
  intros Hm [Hx Hy] Ht. destruct (cells_bound m Hm) as (?&?&?&?&?&?). unfold term_newline.
  rewrite (decide_False (P := t_row t + 1 < framebuffer_rows m)) by lia. unfold term_color. cbn [t_char].
  replace ((y + 16) / 16) with (y / 16 + 1) by (Z.to_euclidean_division_equations; lia).
  replace ((y + 16) mod 16) with (y mod 16) by (Z.to_euclidean_division_equations; lia).
  assert (0 ≤ y mod 16 < 16) by (apply Z.mod_pos_bound; lia).
  destruct (decide (y / 16 = framebuffer_rows m - 1)) as [E|E].
  - rewrite blank_glyph by done. rewrite (decide_False (P := _ ∧ y / 16 + 1 < _)) by lia. by repeat case_decide.
  - destruct (decide (x / 8 < framebuffer_columns m ∧ y / 16 < framebuffer_rows m)).
    + assert (y < framebuffer_height m - 16) by (Z.to_euclidean_division_equations; lia). rewrite decide_True by done. by rewrite decide_True by lia.
    + rewrite (decide_False (P := _ ∧ y / 16 + 1 < _)) by lia. by case_decide.
Qed.

(** The end of a line, with the cursor possibly behind the last column. *)
Lemma newline_follows t f :
  mode_ok (mode f) → framebuffer_cursor_row f = t_row t → 0 ≤ t_row t < framebuffer_rows (mode f) →
  (∀ x y, on_picture (mode f) x y → pixel (mode f) (video f) x y = pixel_bytes (mode f) (term_color (mode f) t x y)) →
  follows f (term_newline (framebuffer_rows (mode f)) t) (framebuffer_newline f).
Proof.
  intros Hm Hr Hrr Hp. pose proof (cells_bound _ Hm) as (?&?&?&?&?&?). pose proof (height_bound _ Hm).
  unfold framebuffer_newline. rewrite Hr, u32_small by lia.
  destruct (t_row t + 1 <? framebuffer_rows (mode f)) eqn:E; zbool.
  - unfold term_newline. rewrite decide_True by done. split; [|by split; [|apply same_outside_refl]].
    split; cbn [with_screen framebuffer_cursor_row framebuffer_cursor_column video mode t_row t_column]; [done|split; [done|lia]|split; [done|lia]|done].
  - destruct (scroll_paints _ Hm (video f)) as [Ho Hs]. split; [|by split].
    split; cbn [with_screen framebuffer_cursor_row framebuffer_cursor_column video mode]; [done|..].
    + unfold term_newline. rewrite decide_False by lia. done.
    + unfold term_newline. rewrite decide_False by lia. cbn [t_column]. split; [done|lia].
    + intros x y Hxy. rewrite Hs by done. rewrite <- scrolled_color by (done || lia). destruct Hxy as [? ?]. case_decide; [|done].
      apply Hp. split; lia.
Qed.

Lemma put_follows ch t f :
  is_u8 ch → displays t f → follows f (term_put (framebuffer_rows (mode f)) (framebuffer_columns (mode f)) ch t) (framebuffer_put ch f).
Proof.
  intros Hch [Hm [Hr Hrr] [Hc Hcc] Hp]. pose proof (cells_bound _ Hm) as (?&?&?&?&?&?). pose proof (width_bound _ Hm).
  unfold framebuffer_put, term_put. rewrite u8_small by done. rewrite Hr, Hc. rewrite (u32_small (t_column t + 1)) by lia.
  set (t1 := {| t_row := t_row t; t_column := t_column t + 1; t_char := _ |}). set (f1 := with_screen _ _ _ f).
  destruct (draw_glyph_paints _ Hm (video f) (t_row t) (t_column t) ch Hrr Hcc Hch) as [Ho Hg].
  assert (∀ x y, on_picture (mode f) x y → pixel (mode f) (video f1) x y = pixel_bytes (mode f) (term_color (mode f) t1 x y)) as Hp1.
  { intros x y Hxy. cbn [f1 with_screen video]. rewrite Hg by done. unfold term_color. cbn [t1 t_char].
    destruct (decide (y / 16 = t_row t ∧ x / 8 = t_column t)) as [[Hy Hx]|Hne].
    - by rewrite decide_True by lia.
    - rewrite Hp by done. unfold term_color. done. }
  change (t_column t1) with (t_column t + 1). change (framebuffer_cursor_column f1) with (t_column t + 1). change (mode f1) with (mode f).
  destruct (framebuffer_columns (mode f) <=? t_column t + 1) eqn:E; zbool.
  - rewrite decide_True by done. destruct (newline_follows t1 f1) as (Hd&Hmo&Ho1); try done.
    split; [done|]. split; [done|]. by eapply same_outside_trans.
  - rewrite decide_False by lia. split; [|done]. split; [done|split; [done|exact Hrr]|split; [done|change (0 ≤ t_column t + 1 < framebuffer_columns (mode f)); lia]|exact Hp1].
Qed.

Lemma write_char_follows ch t f :
  is_u8 ch → displays t f → follows f (term_write (framebuffer_rows (mode f)) (framebuffer_columns (mode f)) ch t) (framebuffer_write_char ch f).
Proof.
  intros Hch Hd. pose proof Hd as [Hm [Hr Hrr] [Hc Hcc] Hp]. unfold framebuffer_write_char, term_write. rewrite (mo_ready _ Hm). cbn [negb].
  destruct (ch =? 13); [split; [|by split]; split; [done|done|split; [done|cbn; lia]|done]|].
  destruct (ch =? 10); [by apply newline_follows|]. destruct (ch =? 9); [|by apply put_follows].
  cbv zeta. rewrite Hc. pose proof (Z.mod_pos_bound (t_column t) 4 ltac:(lia)). rewrite u32_small by lia.
  unfold for_range. rewrite Z.sub_0_r. generalize (Z.to_nat (4 - t_column t mod 4)) as n. generalize 0 as i.
  intros i n. clear -Hd. revert i t f Hd. induction n as [|n IH]; intros i t f Hd; [by split; [|split]|].
  rewrite Nat.iter_succ_r. cbn [iter_from]. pose proof (put_follows 32 t f ltac:(done) Hd) as Hf. pose proof Hf as (Hd1&Hm1&_).
  eapply follows_trans; [exact Hf|]. specialize (IH (i + 1) _ _ Hd1). by rewrite Hm1 in IH.
Qed.

(** What [framebuffer_init] leaves: a picture in the color of the background. *)
Lemma cleared_displays m v :
  mode_ok m →
  displays blank_terminal {| mode := m; framebuffer_cursor_row := 0; framebuffer_cursor_column := 0;
                             video := framebuffer_clear_rows m 0 (framebuffer_height m) v |}.
Proof.
  intros Hm. pose proof (cells_bound m Hm) as (?&?&?&?&?&?). split; [done|split; [done|cbn; lia]..|]. cbn [mode video]. intros x y Hxy.
  pose proof (height_bound m Hm). destruct (clear_rows_paints m Hm v 0 (framebuffer_height m)) as [_ Hp]; [lia..|].
  rewrite Hp by done. destruct Hxy as [? ?]. rewrite decide_True by lia. f_equal. unfold term_color. cbn [blank_terminal t_char].
  rewrite blank_glyph by (apply Z.mod_pos_bound; lia). by case_decide.
Qed.

(** C21: The framebuffer console is a terminal.  After its picture is cleared and any bytes
    are written, every pixel has the color that the glyph of its cell of the abstract
    terminal has there, the background outside the cells; the cursors agree, and no
    byte of the address space outside the picture has changed. *)
Theorem framebuffer_refines_terminal m v bytes :
  mode_ok m → Forall is_u8 bytes →
  let f := {| mode := m; framebuffer_cursor_row := 0; framebuffer_cursor_column := 0;
              video := framebuffer_clear_rows m 0 (framebuffer_height m) v |} in
  let f' := foldl (λ f ch, framebuffer_write_char ch f) f bytes in
  displays (foldl (λ t ch, term_write (framebuffer_rows m) (framebuffer_columns m) ch t) blank_terminal bytes) f'
  ∧ same_outside m v (video f').
Proof.
  intros Hm Hb f f'. pose proof (cleared_displays m v Hm) as Hd. fold f in Hd.
  assert (same_outside m v (video f)) as Ho.
  { pose proof (height_bound m Hm). by apply (clear_rows_paints m Hm v 0 (framebuffer_height m)); lia. }
  assert (mode f = m) as Hmode by done. clearbody f. unfold f'. clear f'. revert Hd Ho Hmode. generalize blank_terminal as t.
  revert f. induction Hb as [|ch bytes Hch Hb IH]; intros f t Hd Ho Hmode; [done|].
  cbn [foldl]. destruct (write_char_follows ch t f Hch Hd) as (Hd1&Hm1&Ho1). rewrite Hmode in *.
  apply IH; [done| |congruence]. by eapply same_outside_trans.
Qed.

(** A picture of 24 by 34 pixels of 4 bytes, three cells by two: the text scrolls. *)
Definition small_mode : fb_mode :=
  {| framebuffer_base := 4096; framebuffer_pitch := 100; framebuffer_width := 24; framebuffer_height := 34;
     framebuffer_bytes_per_pixel := 4; framebuffer_columns := 3; framebuffer_rows := 2; framebuffer_foreground := 15265009;
     framebuffer_background := 1053206; framebuffer_red_field_position := 16; framebuffer_red_mask_size := 8;
     framebuffer_green_field_position := 8; framebuffer_green_mask_size := 8; framebuffer_blue_field_position := 0;
     framebuffer_blue_mask_size := 8; framebuffer_ready := true |}.

Lemma small_mode_ok : mode_ok small_mode.
Proof. by split; cbn. Qed.

Lemma framebuffer_refines_terminal_witness :
  let t := foldl (λ t ch, term_write 2 3 ch t) blank_terminal [97; 10; 98; 99; 100; 13; 101] in
  t_char t 0 0 = 98 ∧ t_char t 0 2 = 100 ∧ t_char t 1 0 = 101 ∧ t_char t 1 1 = 32 ∧
  displays t (foldl (λ f ch, framebuffer_write_char ch f)
    {| mode := small_mode; framebuffer_cursor_row := 0; framebuffer_cursor_column := 0;
       video := framebuffer_clear_rows small_mode 0 34 (λ _, 0) |} [97; 10; 98; 99; 100; 13; 101]).
Proof.
  intros t. split; [reflexivity|]. split; [reflexivity|]. split; [reflexivity|]. split; [reflexivity|].
  apply (framebuffer_refines_terminal small_mode (λ _, 0) [97; 10; 98; 99; 100; 13; 101]);
    [exact small_mode_ok|apply (bool_decide_unpack _); by vm_compute].
Defined.
