(* ===== verification/Net.v ===== *)
(** * The network stack ([src/kernel/net.c])

    Ethernet frames with ARP and ICMP echo over IPv4, one entry of ARP cache and one
    ping at a time.  A frame is a byte array; the fields of its packed headers are loads
    and stores at their offsets, byte-swapped where they are big-endian.  The card
    ([e1000.c]) is reached through the interface [NetDevice]; the clock is an argument.
    This file has the definitions; [NetFrames] and [NetPing] have the theorems. *)

From S2P Require Import Prelude Abi Mem Trace.

Local Open Scope Z_scope.
Local Open Scope c_scope.

Definition NET_ETH_TYPE_ARP : Z := 2054.
Definition NET_ETH_TYPE_IPV4 : Z := 2048.
Definition NET_ARP_REQUEST : Z := 1.
Definition NET_ARP_REPLY : Z := 2.
Definition NET_ARP_HW_ETHERNET : Z := 1.
Definition NET_IPV4_PROTOCOL_ICMP : Z := 1.
Definition NET_ICMP_ECHO_REPLY : Z := 0.
Definition NET_ICMP_ECHO_REQUEST : Z := 8.
Definition NET_IPV4_VERSION_IHL : Z := 69.
Definition NET_FRAME_BUFFER_BYTES : Z := 1600.
Definition NET_QEMU_IPV4 : Z := 167772687.
Definition NET_QEMU_NETMASK : Z := 4294967040.
Definition NET_QEMU_GATEWAY : Z := 167772674.
Definition NET_PING_RETRY_TICKS : Z := 20.
Definition NET_PING_DEFAULT_TIMEOUT : Z := 100.

Definition sizeof_net_eth_header : Z := 14.
Definition sizeof_net_arp_packet : Z := 28.
Definition sizeof_net_ipv4_header : Z := 20.
Definition sizeof_net_icmp_echo : Z := 8.
Definition sizeof_sys_netinfo : Z := 48.

Inductive net_ping_stage := NET_PING_STAGE_IDLE | NET_PING_STAGE_ARP | NET_PING_STAGE_ECHO.

#[export] Instance net_ping_stage_eq_dec : EqDecision net_ping_stage.
Proof. solve_decision. Defined.

Record net_ping_state := {
  active : Z;
  completed : Z;
  owner_pid : Z;
  destination_ipv4 : Z;
  next_hop_ipv4 : Z;
  deadline_tick : Z;
  next_action_tick : Z;
  identifier : Z;
  echo_sequence : Z;
  attempts : Z;
  stage : net_ping_stage;
  result : Z;
}.

Record net_state := {
  ready : Z;
  mac : list Z;
  ipv4_addr : Z;
  ipv4_netmask : Z;
  ipv4_gateway : Z;
  arp_valid : Z;
  arp_mac : list Z;
  arp_ipv4 : Z;
  rx_packets : Z;
  tx_packets : Z;
  next_ping_identifier : Z;
  ping : net_ping_state;
}.

Definition no_ping : net_ping_state :=
  {| active := 0; completed := 0; owner_pid := 0; destination_ipv4 := 0; next_hop_ipv4 := 0;
     deadline_tick := 0; next_action_tick := 0; identifier := 0; echo_sequence := 0; attempts := 0;
     stage := NET_PING_STAGE_IDLE; result := 0 |}.

Definition ping_completed_with (c : Z) (r : Z) (p : net_ping_state) : net_ping_state :=
  {| active := active p; completed := c; owner_pid := owner_pid p; destination_ipv4 := destination_ipv4 p;
     next_hop_ipv4 := next_hop_ipv4 p; deadline_tick := deadline_tick p;
     next_action_tick := next_action_tick p; identifier := identifier p; echo_sequence := echo_sequence p;
     attempts := attempts p; stage := stage p; result := r |}.
Definition ping_at_stage (s : net_ping_stage) (a : Z) (t : Z) (p : net_ping_state) : net_ping_state :=
  {| active := active p; completed := completed p; owner_pid := owner_pid p;
     destination_ipv4 := destination_ipv4 p; next_hop_ipv4 := next_hop_ipv4 p;
     deadline_tick := deadline_tick p; next_action_tick := t; identifier := identifier p;
     echo_sequence := echo_sequence p; attempts := a; stage := s; result := result p |}.

Definition with_ready (v : Z) (s : net_state) : net_state :=
  {| ready := v; mac := mac s; ipv4_addr := ipv4_addr s; ipv4_netmask := ipv4_netmask s;
     ipv4_gateway := ipv4_gateway s; arp_valid := arp_valid s; arp_mac := arp_mac s; arp_ipv4 := arp_ipv4 s;
     rx_packets := rx_packets s; tx_packets := tx_packets s; next_ping_identifier := next_ping_identifier s;
     ping := ping s |}.
Definition with_mac (v : list Z) (s : net_state) : net_state :=
  {| ready := ready s; mac := v; ipv4_addr := ipv4_addr s; ipv4_netmask := ipv4_netmask s;
     ipv4_gateway := ipv4_gateway s; arp_valid := arp_valid s; arp_mac := arp_mac s; arp_ipv4 := arp_ipv4 s;
     rx_packets := rx_packets s; tx_packets := tx_packets s; next_ping_identifier := next_ping_identifier s;
     ping := ping s |}.
Definition with_arp (valid : Z) (addr : Z) (m : list Z) (s : net_state) : net_state :=
  {| ready := ready s; mac := mac s; ipv4_addr := ipv4_addr s; ipv4_netmask := ipv4_netmask s;
     ipv4_gateway := ipv4_gateway s; arp_valid := valid; arp_mac := m; arp_ipv4 := addr;
     rx_packets := rx_packets s; tx_packets := tx_packets s; next_ping_identifier := next_ping_identifier s;
     ping := ping s |}.
Definition with_rx (v : Z) (s : net_state) : net_state :=
  {| ready := ready s; mac := mac s; ipv4_addr := ipv4_addr s; ipv4_netmask := ipv4_netmask s;
     ipv4_gateway := ipv4_gateway s; arp_valid := arp_valid s; arp_mac := arp_mac s; arp_ipv4 := arp_ipv4 s;
     rx_packets := v; tx_packets := tx_packets s; next_ping_identifier := next_ping_identifier s;
     ping := ping s |}.
Definition with_tx (v : Z) (s : net_state) : net_state :=
  {| ready := ready s; mac := mac s; ipv4_addr := ipv4_addr s; ipv4_netmask := ipv4_netmask s;
     ipv4_gateway := ipv4_gateway s; arp_valid := arp_valid s; arp_mac := arp_mac s; arp_ipv4 := arp_ipv4 s;
     rx_packets := rx_packets s; tx_packets := v; next_ping_identifier := next_ping_identifier s;
     ping := ping s |}.
Definition with_next_identifier (v : Z) (s : net_state) : net_state :=
  {| ready := ready s; mac := mac s; ipv4_addr := ipv4_addr s; ipv4_netmask := ipv4_netmask s;
     ipv4_gateway := ipv4_gateway s; arp_valid := arp_valid s; arp_mac := arp_mac s; arp_ipv4 := arp_ipv4 s;
     rx_packets := rx_packets s; tx_packets := tx_packets s; next_ping_identifier := v; ping := ping s |}.
Definition with_ping (v : net_ping_state) (s : net_state) : net_state :=
  {| ready := ready s; mac := mac s; ipv4_addr := ipv4_addr s; ipv4_netmask := ipv4_netmask s;
     ipv4_gateway := ipv4_gateway s; arp_valid := arp_valid s; arp_mac := arp_mac s; arp_ipv4 := arp_ipv4 s;
     rx_packets := rx_packets s; tx_packets := tx_packets s; next_ping_identifier := next_ping_identifier s;
     ping := v |}.

(** ** Bytes *)

Definition net_bswap16 (value : Z) : Z := u16 (Z.lor (Z.shiftl value 8) (Z.shiftr value 8)).

Definition net_bswap32 (value : Z) : Z :=
  Z.lor (Z.lor (Z.lor (u32 (Z.shiftl (Z.land value 255) 24)) (u32 (Z.shiftl (Z.land value 65280) 8)))
               (Z.shiftr (Z.land value 16711680) 8))
        (Z.shiftr (Z.land value 4278190080) 24).

Definition net_htons := net_bswap16.
Definition net_ntohs := net_bswap16.
Definition net_htonl := net_bswap32.
Definition net_ntohl := net_bswap32.

(** The big-endian fields of the headers. *)
Definition put16 (m : carray Z) (a value : Z) : carray Z := store_le 2 m a (net_htons value).
Definition put32 (m : carray Z) (a value : Z) : carray Z := store_le 4 m a (net_htonl value).
Definition get16 (m : carray Z) (a : Z) : Z := net_ntohs (load16 m a).
Definition get32 (m : carray Z) (a : Z) : Z := net_ntohl (load32 m a).

(** A hardware address is the list of its six bytes. *)
Definition put_mac (m : carray Z) (a : Z) (addr : list Z) : carray Z :=
  copy_bytes m a (λ i, nth (Z.to_nat i) addr 0) 0 6.
Definition get_mac (m : carray Z) (a : Z) : list Z := slice m a 6.

Definition broadcast_mac : list Z := [255; 255; 255; 255; 255; 255].
Definition zero_mac : list Z := [0; 0; 0; 0; 0; 0].

Definition mac_equal (left right : list Z) : bool :=
  match for_find 0 6 (λ i, negb (nth (Z.to_nat i) left 0 =? nth (Z.to_nat i) right 0)) with
  | Some _ => false
  | None => true
  end.

Definition mac_is_broadcast (addr : list Z) : bool :=
  match for_find 0 6 (λ i, negb (nth (Z.to_nat i) addr 0 =? 255)) with
  | Some _ => false
  | None => true
  end.

(** The Internet checksum of [length] bytes at [base].  Two rounds of folding are enough
    for any 32-bit sum ([fold_carries_spec] of [NetFrames]). *)
Definition add_words (m : carray Z) (base length : Z) : Z :=
  for_range 0 (length / 2)
    (λ k sum, sum ⊞ Z.lor (u32 (Z.shiftl (m (base + 2 * k)) 8)) (m (base + 2 * k + 1))) 0.

Fixpoint fold_carries (fuel : nat) (sum : Z) : Z :=
  match fuel with
  | O => sum
  | S fuel =>
      if truthy (Z.shiftr sum 16) then fold_carries fuel (Z.land sum 65535 ⊞ Z.shiftr sum 16) else sum
  end.

Definition checksum16 (m : carray Z) (base length : Z) : Z :=
  let sum := add_words m base length in
  let sum := if truthy (Z.land length 1) then sum ⊞ u32 (Z.shiftl (m (base + length - 1)) 8) else sum in
  u16 (not32 (fold_carries 2 sum)).

(** ** The card *)

(** What the stack uses of [e1000.c].  [e1000_get_mac] gives no address when it fails;
    [e1000_transmit] takes the bytes of the frame; [e1000_receive] fills a buffer of the
    given capacity. *)
Class NetDevice (D : Type) := {
  e1000_init : D → Z * D;
  e1000_get_mac : D → option (list Z);
  e1000_transmit : list Z → D → Z * D;
  e1000_receive : carray Z → Z → D → Z * carray Z * D;
}.

Section net.
Context {D : Type} `{!NetDevice D}.

(** The static [net_state], the card and the trace ring. *)
Record netsys := { ns : net_state; nic : D; log : trace }.

Definition upd (f : net_state → net_state) (n : netsys) : netsys :=
  {| ns := f (ns n); nic := nic n; log := log n |}.
Definition upd_ping (f : net_ping_state → net_ping_state) : netsys → netsys :=
  upd (λ s, with_ping (f (ping s)) s).
Definition with_nic (d : D) (n : netsys) : netsys := {| ns := ns n; nic := d; log := log n |}.
Definition log_net (now event a0 a1 a2 : Z) (n : netsys) : netsys :=
  {| ns := ns n; nic := nic n; log := trace_log now SYS_TRACE_CATEGORY_NET event a0 a1 a2 (log n) |}.

Definition route_next_hop (s : net_state) (destination : Z) : Z :=
  if Z.land destination (ipv4_netmask s) =? Z.land (ipv4_addr s) (ipv4_netmask s) then destination
  else ipv4_gateway s.

Definition arp_cache_matches (s : net_state) (addr : Z) : bool :=
  truthy (arp_valid s) && (arp_ipv4 s =? addr).

Definition arp_cache_store (addr : Z) (m : list Z) (s : net_state) : net_state := with_arp 1 addr m s.

Definition ping_complete (r : Z) : netsys → netsys :=
  upd_ping (λ p, if (active p =? 0) || truthy (completed p) then p else ping_completed_with 1 r p).

(** ** Sending *)

Definition send_frame (frame : carray Z) (length : Z) (n : netsys) : Z * netsys :=
  let '(r, d) := e1000_transmit (slice frame 0 (Z.to_nat length)) (nic n) in
  let n := with_nic d n in
  (r, if 0 <? r then upd (λ s, with_tx (tx_packets s ⊞ 1) s) n else n).

(** The frame [send_arp] builds: an Ethernet header at 0 and an ARP packet at 14. *)
Definition arp_frame (s : net_state) (opcode : Z) (destination_mac : list Z) (target_ipv4 : Z) (target_mac : list Z)
    : carray Z :=
  let f := zero_bytes (λ _, 0) 0 42 in
  let f := put_mac f 0 destination_mac in
  let f := put_mac f 6 (mac s) in
  let f := put16 f 12 NET_ETH_TYPE_ARP in
  let f := put16 f 14 NET_ARP_HW_ETHERNET in
  let f := put16 f 16 NET_ETH_TYPE_IPV4 in
  let f := <[18 := 6]> f in
  let f := <[19 := 4]> f in
  let f := put16 f 20 opcode in
  let f := put_mac f 22 (mac s) in
  let f := put32 f 28 (ipv4_addr s) in
  let f := put_mac f 32 target_mac in
  put32 f 38 target_ipv4.

Definition send_arp (opcode : Z) (destination_mac : list Z) (target_ipv4 : Z) (target_mac : list Z) (n : netsys)
    : Z * netsys :=
  send_frame (arp_frame (ns n) opcode destination_mac target_ipv4 target_mac)
    (sizeof_net_eth_header + sizeof_net_arp_packet) n.

Definition send_arp_request (target_ipv4 : Z) : netsys → Z * netsys :=
  send_arp NET_ARP_REQUEST broadcast_mac target_ipv4 zero_mac.

Definition send_arp_reply (destination_mac : list Z) (target_ipv4 : Z) : netsys → Z * netsys :=
  send_arp NET_ARP_REPLY destination_mac target_ipv4 destination_mac.

(** The frame [send_icmp] builds: an Ethernet header at 0, an IPv4 header at 14, an echo
    header at 34 and its payload at 42.  The payload is a place in memory. *)
Definition icmp_headers (s : net_state) (destination : Z) (destination_mac : list Z) (seq total_length : Z)
    : carray Z :=
  let f := zero_bytes (λ _, 0) 0 58 in
  let f := put_mac f 0 destination_mac in
  let f := put_mac f 6 (mac s) in
  let f := put16 f 12 NET_ETH_TYPE_IPV4 in
  let f := <[14 := NET_IPV4_VERSION_IHL]> f in
  let f := <[15 := 0]> f in
  let f := put16 f 16 (u16 total_length) in
  let f := put16 f 18 seq in
  let f := store_le 2 f 20 0 in
  let f := <[22 := 64]> f in
  let f := <[23 := NET_IPV4_PROTOCOL_ICMP]> f in
  let f := put32 f 26 (ipv4_addr s) in
  let f := put32 f 30 destination in
  put16 f 24 (checksum16 f 14 sizeof_net_ipv4_header).

Definition icmp_frame (s : net_state) (type destination : Z) (destination_mac : list Z) (ident seq : Z)
    (payload : option (carray Z * Z)) (payload_length : Z) : carray Z :=
  let f := icmp_headers s destination destination_mac seq
             (sizeof_net_ipv4_header + sizeof_net_icmp_echo + payload_length) in
  let f := <[34 := type]> f in
  let f := <[35 := 0]> f in
  let f := put16 f 38 ident in
  let f := put16 f 40 seq in
  let f := match payload with
           | Some (m, a) => if truthy payload_length then copy_bytes f 42 m a payload_length else f
           | None => f
           end in
  put16 f 36 (checksum16 f 34 (sizeof_net_icmp_echo + payload_length)).

Definition send_icmp (type destination : Z) (destination_mac : list Z) (ident seq : Z)
    (payload : option (carray Z * Z)) (payload_length : Z) (n : netsys) : Z * netsys :=
  if 16 <? payload_length then (-1, n)
  else send_frame (icmp_frame (ns n) type destination destination_mac ident seq payload payload_length)
         (sizeof_net_eth_header + (sizeof_net_ipv4_header + sizeof_net_icmp_echo + payload_length)) n.

(** The text "riverix" with its final zero. *)
Definition echo_payload : carray Z := λ i, nth (Z.to_nat i) [114; 105; 118; 101; 114; 105; 120; 0] 0.

Definition send_icmp_echo_request (destination : Z) (destination_mac : list Z) (ident seq : Z) : netsys → Z * netsys :=
  send_icmp NET_ICMP_ECHO_REQUEST destination destination_mac ident seq (Some (echo_payload, 0)) 8.

Definition send_icmp_echo_reply (destination : Z) (destination_mac : list Z) (ident seq : Z)
    (payload : option (carray Z * Z)) (payload_length : Z) : netsys → Z * netsys :=
  send_icmp NET_ICMP_ECHO_REPLY destination destination_mac ident seq payload payload_length.

(** ** Receiving *)

Definition arp_acceptable (m : carray Z) (a length : Z) : bool :=
  negb ((length <? sizeof_net_arp_packet) || negb (get16 m a =? NET_ARP_HW_ETHERNET)
        || negb (get16 m (a + 2) =? NET_ETH_TYPE_IPV4) || negb (m (a + 4) =? 6) || negb (m (a + 5) =? 4)).

(** What [process_arp] does with the fields of an acceptable packet. *)
Definition arp_received (now opcode : Z) (sender_mac : list Z) (sender_ipv4 target_ipv4 : Z) (n : netsys) : netsys :=
  let n := upd (arp_cache_store sender_ipv4 sender_mac) n in
  let n := log_net now SYS_TRACE_EVENT_NET_ARP sender_ipv4 target_ipv4 opcode n in
  let p := ping (ns n) in
  let n := if truthy (active p) && (completed p =? 0) && bool_decide (stage p = NET_PING_STAGE_ARP)
              && (sender_ipv4 =? next_hop_ipv4 p) && (opcode =? NET_ARP_REPLY)
           then upd_ping (ping_at_stage NET_PING_STAGE_ECHO 0 0) n else n in
  if (opcode =? NET_ARP_REQUEST) && (target_ipv4 =? ipv4_addr (ns n))
  then (send_arp_reply sender_mac sender_ipv4 n).2 else n.

(** The ARP packet at [a] in the frame [m]. *)
Definition process_arp (now : Z) (m : carray Z) (a length : Z) (n : netsys) : netsys :=
  if negb (arp_acceptable m a length) then n
  else arp_received now (get16 m (a + 6)) (get_mac m (a + 8)) (get32 m (a + 14)) (get32 m (a + 24)) n.

(** What [process_icmp] does with an echo packet: its type, where it came from, its
    identifier and sequence number, and its payload. *)
Definition icmp_received (now type source_ipv4 : Z) (source_mac : list Z) (ident seq : Z)
    (payload : carray Z * Z) (payload_length : Z) (n : netsys) : netsys :=
  let p := ping (ns n) in
  if (type =? NET_ICMP_ECHO_REPLY) && truthy (active p) && (completed p =? 0)
     && bool_decide (stage p = NET_PING_STAGE_ECHO) && (source_ipv4 =? destination_ipv4 p)
     && (ident =? identifier p) && (seq =? echo_sequence p)
  then ping_complete SYS_PING_OK
         (log_net now SYS_TRACE_EVENT_NET_PING_REPLY (destination_ipv4 p) ident seq n)
  else if type =? NET_ICMP_ECHO_REQUEST
  then (send_icmp_echo_reply source_ipv4 source_mac ident seq (Some payload) payload_length n).2
  else n.

(** The Ethernet header is at [eth], the IPv4 header at [ip], its payload at [a]. *)
Definition process_icmp (now : Z) (m : carray Z) (eth ip a payload_length : Z) (n : netsys) : netsys :=
  if payload_length <? sizeof_net_icmp_echo then n
  else icmp_received now (m a) (get32 m (ip + 12)) (get_mac m (eth + 6)) (get16 m (a + 4)) (get16 m (a + 6))
         (m, a + sizeof_net_icmp_echo) (payload_length ⊟ sizeof_net_icmp_echo) n.

Definition process_ipv4 (now : Z) (m : carray Z) (eth a length : Z) (n : netsys) : netsys :=
  if length <? sizeof_net_ipv4_header then n
  else if negb (Z.shiftr (m a) 4 =? 4) then n
  else
    let header_length := Z.land (m a) 15 ⊠ 4 in
    if (header_length <? sizeof_net_ipv4_header) || (length <? header_length) then n
    else
      let total_length := get16 m (a + 2) in
      if (total_length <? header_length) || (length <? total_length) then n
      else if negb (get32 m (a + 16) =? ipv4_addr (ns n)) then n
      else if m (a + 9) =? NET_IPV4_PROTOCOL_ICMP
      then process_icmp now m eth a (a + header_length) (total_length ⊟ header_length) n
      else n.

Definition process_frame (now : Z) (m : carray Z) (length : Z) (n : netsys) : netsys :=
  if length <? sizeof_net_eth_header then n
  else if negb (mac_equal (get_mac m 0) (mac (ns n))) && negb (mac_is_broadcast (get_mac m 0)) then n
  else
    let ethertype := get16 m 12 in
    if ethertype =? NET_ETH_TYPE_ARP
    then process_arp now m sizeof_net_eth_header (length ⊟ sizeof_net_eth_header) n
    else if ethertype =? NET_ETH_TYPE_IPV4
    then process_ipv4 now m 0 sizeof_net_eth_header (length ⊟ sizeof_net_eth_header) n
    else n.

(** ** Pings *)

(** What [drive_ping] sends at the stage of the ping: nothing, or a frame and its result. *)
Definition ping_send (n : netsys) : option (Z * netsys) :=
  let p := ping (ns n) in
  match stage p with
  | NET_PING_STAGE_ARP => Some (send_arp_request (next_hop_ipv4 p) n)
  | NET_PING_STAGE_ECHO =>
      if arp_cache_matches (ns n) (next_hop_ipv4 p)
      then Some (send_icmp_echo_request (destination_ipv4 p) (arp_mac (ns n)) (identifier p) (echo_sequence p) n)
      else None
  | NET_PING_STAGE_IDLE => None
  end.

Definition drive_ping (now : Z) (n : netsys) : netsys :=
  let p := ping (ns n) in
  if (active p =? 0) || truthy (completed p) then n
  else if 0 <=? i32 (now ⊟ deadline_tick p)
  then ping_complete SYS_PING_ERR_TIMEOUT
         (log_net now SYS_TRACE_EVENT_NET_PING_TIMEOUT (destination_ipv4 p) (attempts p) 0 n)
  else if i32 (now ⊟ next_action_tick p) <? 0 then n
  else match ping_send n with
       | None => n
       | Some (r, n) =>
           if r <? 0 then n
           else upd_ping (λ p, ping_at_stage (stage p) (attempts p ⊞ 1) (now ⊞ NET_PING_RETRY_TICKS) p) n
       end.

Definition net_init (now : Z) (n : netsys) : Z * netsys :=
  let n := upd (λ _, {| ready := 0; mac := zero_mac; ipv4_addr := NET_QEMU_IPV4; ipv4_netmask := NET_QEMU_NETMASK;
                        ipv4_gateway := NET_QEMU_GATEWAY; arp_valid := 0; arp_mac := zero_mac; arp_ipv4 := 0;
                        rx_packets := 0; tx_packets := 0; next_ping_identifier := 1; ping := no_ping |}) n in
  let '(r, d) := e1000_init (nic n) in
  let n := with_nic d n in
  if negb (r =? 0) then (-1, n)
  else match e1000_get_mac d with
       | None => (-1, n)
       | Some m =>
           let n := upd (λ s, with_ready 1 (with_mac m s)) n in
           (0, log_net now SYS_TRACE_EVENT_NET_READY (ipv4_addr (ns n)) (ipv4_gateway (ns n)) 0 n)
       end.

(** The receive loop; [frame] is the buffer on the stack. *)
Fixpoint poll_loop (budget : nat) (now : Z) (frame : carray Z) (n : netsys) : netsys :=
  match budget with
  | O => n
  | S budget =>
      let '(r, frame, d) := e1000_receive frame NET_FRAME_BUFFER_BYTES (nic n) in
      let n := with_nic d n in
      if r =? 0 then n
      else if r <? 0 then poll_loop budget now frame n
      else
        let n := upd (λ s, with_rx (rx_packets s ⊞ 1) s) n in
        poll_loop budget now frame (process_frame now frame (u32 r) n)
  end.

(** The buffer is not initialised; [process_frame_local] of [NetFrames] shows that its
    contents do not matter. *)
Definition net_poll (now : Z) (n : netsys) : netsys :=
  if ready (ns n) =? 0 then n
  else drive_ping now (poll_loop 8 now (λ _, 0) n).

Definition net_ready (n : netsys) : bool := truthy (ready (ns n)).

(** The structure [sys_netinfo_t] behind the pointer, byte by byte. *)
Definition net_get_info (info : option (carray Z)) (n : netsys) : Z * option (carray Z) :=
  match info with
  | None => (-1, None)
  | Some m =>
      let s := ns n in
      let m := zero_bytes m 0 sizeof_sys_netinfo in
      let m := store32 m 0 (ready s) in
      let m := put_mac m 4 (mac s) in
      let m := store32 m 12 (ipv4_addr s) in
      let m := store32 m 16 (ipv4_netmask s) in
      let m := store32 m 20 (ipv4_gateway s) in
      let m := store32 m 24 (arp_valid s) in
      let m := put_mac m 28 (arp_mac s) in
      let m := store32 m 36 (arp_ipv4 s) in
      let m := store32 m 40 (rx_packets s) in
      (0, Some (store32 m 44 (tx_packets s)))
  end.

Definition ping_timeout (timeout_ticks : Z) : Z :=
  if truthy timeout_ticks then timeout_ticks else NET_PING_DEFAULT_TIMEOUT.

Definition new_ping (now requester_pid destination timeout_ticks : Z) (s : net_state) : net_ping_state :=
  let next_hop := route_next_hop s destination in
  {| active := 1; completed := 0; owner_pid := requester_pid; destination_ipv4 := destination;
     next_hop_ipv4 := next_hop; deadline_tick := now ⊞ ping_timeout timeout_ticks; next_action_tick := 0;
     identifier := next_ping_identifier s; echo_sequence := 1; attempts := 0;
     stage := if arp_cache_matches s next_hop then NET_PING_STAGE_ECHO else NET_PING_STAGE_ARP; result := 0 |}.

Definition net_ping4_start (now requester_pid destination timeout_ticks : Z) (n : netsys) : Z * netsys :=
  if ready (ns n) =? 0 then (SYS_PING_ERR_NOT_READY, n)
  else if (requester_pid =? 0) || (destination =? 0) then (SYS_PING_ERR_INVALID, n)
  else if truthy (active (ping (ns n))) && (completed (ping (ns n)) =? 0) then (SYS_PING_ERR_BUSY, n)
  else
    let n := upd (λ s, with_next_identifier (u16 (next_ping_identifier s + 1))
                         (with_ping (new_ping now requester_pid destination timeout_ticks s) s)) n in
    let n := log_net now SYS_TRACE_EVENT_NET_PING_START destination (next_hop_ipv4 (ping (ns n)))
               (ping_timeout timeout_ticks) n in
    (0, drive_ping now n).

(** The status and, with status 1, the result. *)
Definition net_ping4_poll_result (requester_pid : Z) (n : netsys) : Z * Z * netsys :=
  let p := ping (ns n) in
  if (active p =? 0) || negb (owner_pid p =? requester_pid) then (-1, 0, n)
  else if completed p =? 0 then (0, 0, n)
  else (1, result p, upd_ping (λ _, no_ping) n).

End net.

Arguments netsys : clear implicits.
