(* ===== verification/NetFrames.v ===== *)
(** * Frames of the network stack

    What is written into a header field is read back from it; the checksums of the
    packets that are sent verify; a received frame is never read beyond its length; and
    frames built by one host are understood by another. *)

From S2P Require Import Prelude Abi Mem Trace Net.

Local Open Scope Z_scope.
Local Open Scope c_scope.

Create Rewrite HintDb frame.

(** ** Big-endian fields *)

Lemma lor_disjoint a b k : 0 ≤ k → 0 ≤ b < 2 ^ k → Z.lor (a * 2 ^ k) b = a * 2 ^ k + b.
Proof.
  intros Hk Hb. assert (Z.land (a * 2 ^ k) b = 0) as Hd.
  { apply Z.bits_inj'; intros i Hi. rewrite Z.land_spec, Z.bits_0.
    destruct (decide (i < k)); [by rewrite Z.mul_pow2_bits_low by lia|].
    rewrite (testbit_above k b i) by lia. apply andb_false_r. }
  by rewrite Z.add_nocarry_lxor, Z.lxor_lor.
Qed.

Lemma land_byte v k : 0 ≤ k → Z.land v (255 * 2 ^ k) = (v / 2 ^ k) mod 256 * 2 ^ k.
Proof.
  intros Hk. apply Z.bits_inj'; intros i Hi. rewrite Z.land_spec. destruct (decide (i < k)).
  - rewrite !Z.mul_pow2_bits_low by lia. apply andb_false_r.
  - change 255 with (Z.ones 8). change 256 with (2 ^ 8).
    rewrite <- Z.land_ones, <- !Z.shiftl_mul_pow2, <- Z.shiftr_div_pow2 by lia.
    rewrite !Z.shiftl_spec, Z.land_spec, Z.shiftr_spec by lia. by replace (i - k + k) with i by lia.
Qed.

Lemma net_bswap16_bytes v : is_u16 v → net_bswap16 v = v mod 256 * 256 + v / 256.
Proof.
  intros. unfold net_bswap16. rewrite Z.shiftl_mul_pow2, Z.shiftr_div_pow2 by lia.
  rewrite (lor_disjoint v (v / 2 ^ 8) 8) by word_lia. word_lia.
Qed.

Lemma lor_bytes b0 b1 b2 b3 :
  0 ≤ b0 < 256 → 0 ≤ b1 < 256 → 0 ≤ b2 < 256 → 0 ≤ b3 < 256 →
  Z.lor (Z.lor (Z.lor (u32 (Z.shiftl b0 24)) (u32 (Z.shiftl (b1 * 256) 8))) (Z.shiftr (b2 * 65536) 8))
    (Z.shiftr (b3 * 16777216) 24)
  = b0 * 16777216 + b1 * 65536 + b2 * 256 + b3.
Proof.
  intros. rewrite !Z.shiftl_mul_pow2, !Z.shiftr_div_pow2, !u32_small by lia.
  replace (b2 * 65536) with (b2 * 256 * 2 ^ 8) by lia. replace (b1 * 256 * 2 ^ 8) with (b1 * 2 ^ 16) by lia.
  change 16777216 with (2 ^ 24). rewrite !Z.div_mul by lia.
  rewrite (lor_disjoint b0) by lia.
  replace (b0 * 2 ^ 24 + b1 * 2 ^ 16) with ((b0 * 256 + b1) * 2 ^ 16) by lia. rewrite lor_disjoint by lia.
  replace ((b0 * 256 + b1) * 2 ^ 16 + b2 * 256) with ((b0 * 65536 + b1 * 256 + b2) * 2 ^ 8) by lia.
  rewrite lor_disjoint by lia. lia.
Qed.

Lemma net_bswap32_bytes v :
  is_u32 v →
  net_bswap32 v = v mod 256 * 16777216 + v / 256 mod 256 * 65536 + v / 65536 mod 256 * 256 + v / 16777216.
Proof.
  intros Hv. unfold net_bswap32.
  change (Z.land v 255) with (Z.land v (255 * 2 ^ 0)). change (Z.land v 65280) with (Z.land v (255 * 2 ^ 8)).
  change (Z.land v 16711680) with (Z.land v (255 * 2 ^ 16)). change (Z.land v 4278190080) with (Z.land v (255 * 2 ^ 24)).
  rewrite (land_byte v 0), (land_byte v 8), (land_byte v 16), (land_byte v 24) by lia.
  change (2 ^ 0) with 1. change (2 ^ 8) with 256. change (2 ^ 16) with 65536. change (2 ^ 24) with 16777216.
  rewrite (Z.mod_small (v / 16777216)) by (unfold is_u32 in Hv; Z.to_euclidean_division_equations; lia).
  rewrite Z.div_1_r, Z.mul_1_r. assert (0 ≤ v / 16777216 < 256) as H3 by (unfold is_u32 in Hv; Z.to_euclidean_division_equations; lia).
  pose proof (Z.mod_pos_bound v 256 ltac:(lia)) as H0. pose proof (Z.mod_pos_bound (v / 256) 256 ltac:(lia)) as H1.
  pose proof (Z.mod_pos_bound (v / 65536) 256 ltac:(lia)) as H2.
  by apply lor_bytes.
Qed.

Lemma net_bswap16_range v : is_u16 v → is_u16 (net_bswap16 v).
Proof. intros. rewrite net_bswap16_bytes by done. word_lia. Qed.

Lemma net_bswap16_involutive v : is_u16 v → net_bswap16 (net_bswap16 v) = v.
Proof. intros Hv. rewrite !net_bswap16_bytes by (try apply net_bswap16_range; done). word_lia. Qed.

Lemma net_bswap32_range v : is_u32 v → is_u32 (net_bswap32 v).
Proof. intros. rewrite net_bswap32_bytes by done. word_lia. Qed.

Lemma bytes32 b0 b1 b2 b3 (v := b3 * 16777216 + b2 * 65536 + b1 * 256 + b0) :
  0 ≤ b0 < 256 → 0 ≤ b1 < 256 → 0 ≤ b2 < 256 → 0 ≤ b3 < 256 →
  v mod 256 = b0 ∧ v / 256 mod 256 = b1 ∧ v / 65536 mod 256 = b2 ∧ v / 16777216 = b3.
Proof.
  intros H0 H1 H2 H3. split_and!.
  - symmetry. apply (Z.mod_unique _ _ (b3 * 65536 + b2 * 256 + b1)); lia.
  - rewrite <- (Z.div_unique v 256 (b3 * 65536 + b2 * 256 + b1) b0) by lia.
    symmetry. apply (Z.mod_unique _ _ (b3 * 256 + b2)); lia.
  - rewrite <- (Z.div_unique v 65536 (b3 * 256 + b2) (b1 * 256 + b0)) by lia.
    symmetry. apply (Z.mod_unique _ _ b3); lia.
  - symmetry. apply (Z.div_unique v 16777216 b3 (b2 * 65536 + b1 * 256 + b0)); lia.
Qed.

Lemma split_bytes32 v :
  is_u32 v →
  ∃ b0 b1 b2 b3, 0 ≤ b0 < 256 ∧ 0 ≤ b1 < 256 ∧ 0 ≤ b2 < 256 ∧ 0 ≤ b3 < 256
    ∧ v = b3 * 16777216 + b2 * 65536 + b1 * 256 + b0.
Proof.
  intros. exists (v mod 256), (v / 256 mod 256), (v / 65536 mod 256), (v / 16777216). split_and!; word_lia.
Qed.

Lemma net_bswap32_involutive v : is_u32 v → net_bswap32 (net_bswap32 v) = v.
Proof.
  intros Hv. rewrite net_bswap32_bytes by (by apply net_bswap32_range). rewrite net_bswap32_bytes by done.
  destruct (split_bytes32 v Hv) as (b0&b1&b2&b3&H0&H1&H2&H3&->).
  destruct (bytes32 b0 b1 b2 b3 H0 H1 H2 H3) as (->&->&->&->).
  destruct (bytes32 b3 b2 b1 b0 H3 H2 H1 H0) as (->&->&->&->). lia.
Qed.

Lemma get16_put16 m a v : is_u16 v → get16 (put16 m a v) a = v.
Proof.
  intros Hv. unfold get16, put16, load16. rewrite load_store_le_same.
  change (2 ^ (8 * Z.of_nat 2)) with 65536. rewrite Z.mod_small by exact (net_bswap16_range v Hv).
  exact (net_bswap16_involutive v Hv).
Qed.

Lemma get32_put32 m a v : is_u32 v → get32 (put32 m a v) a = v.
Proof.
  intros Hv. unfold get32, put32, load32. rewrite load_store_le_same.
  change (2 ^ (8 * Z.of_nat 4)) with 4294967296. rewrite Z.mod_small by exact (net_bswap32_range v Hv).
  exact (net_bswap32_involutive v Hv).
Qed.

Lemma put16_other m a v b : b < a ∨ a + 2 ≤ b → put16 m a v b = m b.
Proof. intros. apply store_le_other. lia. Qed.
Lemma put32_other m a v b : b < a ∨ a + 4 ≤ b → put32 m a v b = m b.
Proof. intros. apply store_le_other. lia. Qed.
Lemma put_mac_other m a l b : b < a ∨ a + 6 ≤ b → put_mac m a l b = m b.
Proof. intros. apply copy_bytes_out. lia. Qed.

Lemma get16_ext m m' a : m a = m' a → m (a + 1) = m' (a + 1) → get16 m a = get16 m' a.
Proof. intros H0 H1. unfold get16, load16. simpl. by rewrite H0, H1. Qed.
Lemma get32_ext m m' a : (∀ i, a ≤ i < a + 4 → m i = m' i) → get32 m a = get32 m' a.
Proof. intros H. unfold get32. by rewrite (load32_ext m m'). Qed.
Lemma get_mac_ext m m' a : (∀ i, a ≤ i < a + 6 → m i = m' i) → get_mac m a = get_mac m' a.
Proof. intros H. apply slice_ext. intros; apply H; lia. Qed.

Lemma get_put_mac m a l : length l = 6%nat → get_mac (put_mac m a l) a = l.
Proof.
  intros Hl. apply list_eq. intros i. destruct (decide (i < 6)%nat).
  - unfold get_mac. rewrite slice_lookup by done. unfold put_mac. rewrite copy_bytes_in by lia.
    replace (0 + (a + Z.of_nat i - a)) with (Z.of_nat i) by lia. rewrite Nat2Z.id.
    destruct (lookup_lt_is_Some_2 l i ltac:(lia)) as [x Hx]. by rewrite (nth_lookup_Some _ _ _ _ Hx).
  - rewrite !lookup_ge_None_2; [done|lia|]. unfold get_mac. rewrite slice_length. lia.
Qed.

Lemma mac_equal_refl l : mac_equal l l = true.
Proof. unfold mac_equal. by replace (for_find _ _ _) with (@None Z) by (symmetry; apply for_find_None; intros; by rewrite Z.eqb_refl). Qed.

Lemma mac_equal_spec l r : length l = 6%nat → length r = 6%nat → mac_equal l r = true ↔ l = r.
Proof.
  intros Hl Hr. split; [|intros ->; apply mac_equal_refl]. unfold mac_equal. case_match eqn:E; [done|]. intros _.
  rewrite for_find_None in E. apply list_eq. intros i. destruct (decide (i < 6)%nat); [|rewrite !lookup_ge_None_2 by lia; done].
  specialize (E (Z.of_nat i) ltac:(lia)). zbool. rewrite Nat2Z.id in E.
  destruct (lookup_lt_is_Some_2 l i ltac:(lia)) as [x Hx], (lookup_lt_is_Some_2 r i ltac:(lia)) as [y Hy].
  rewrite (nth_lookup_Some _ _ _ _ Hx), (nth_lookup_Some _ _ _ _ Hy) in E. by rewrite Hx, Hy, E.
Qed.

(** ** Checksums *)

(** The sum of the first [n] big-endian words at [base], and of [length] bytes with a
    zero behind an odd last byte. *)
Fixpoint word_sum (m : carray Z) (base : Z) (n : nat) : Z :=
  match n with
  | O => 0
  | S n => word_sum m base n + (256 * m (base + 2 * Z.of_nat n) + m (base + 2 * Z.of_nat n + 1))
  end.

Definition byte_sum (m : carray Z) (base length : Z) : Z :=
  word_sum m base (Z.to_nat (length / 2)) + (if truthy (length mod 2) then 256 * m (base + length - 1) else 0).

(** The bytes that a checksum reads. *)
Definition bytes_in (m : carray Z) (base length : Z) : Prop := ∀ i, base ≤ i < base + length → is_u8 (m i).

Lemma word_sum_bound m base n : bytes_in m base (2 * Z.of_nat n) → 0 ≤ word_sum m base n ≤ 65535 * Z.of_nat n.
Proof.
  induction n as [|n IH]; intros Hm; cbn [word_sum]; [lia|].
  pose proof (Hm (base + 2 * Z.of_nat n) ltac:(lia)) as H0. pose proof (Hm (base + 2 * Z.of_nat n + 1) ltac:(lia)) as H1.
  specialize (IH ltac:(intros i ?; apply Hm; lia)). unfold is_u8 in *. lia.
Qed.

Lemma word_sum_ext m m' base n :
  (∀ i, base ≤ i < base + 2 * Z.of_nat n → m i = m' i) → word_sum m base n = word_sum m' base n.
Proof.
  induction n as [|n IH]; intros H; cbn [word_sum]; [done|]. rewrite IH, !H; [done|lia|lia|intros; apply H; lia].
Qed.

Lemma byte_sum_ext m m' base length :
  0 ≤ length → (∀ i, base ≤ i < base + length → m i = m' i) → byte_sum m base length = byte_sum m' base length.
Proof.
  intros Hl H. unfold byte_sum. rewrite (word_sum_ext m m') by (intros; apply H; word_lia).
  case_if; [|done]. rewrite H by word_lia. done.
Qed.

Lemma add_words_sum m base length :
  0 ≤ length ≤ 65536 → bytes_in m base length → add_words m base length = word_sum m base (Z.to_nat (length / 2)).
Proof.
  intros Hl Hm. unfold add_words.
  pose proof (for_range_ind (λ k sum, sum = word_sum m base (Z.to_nat k)) 0 (length / 2)
    (λ k sum, sum ⊞ Z.lor (u32 (Z.shiftl (m (base + 2 * k)) 8)) (m (base + 2 * k + 1))) 0) as Hr.
  apply Hr; clear Hr; [word_lia|done|].
  intros k sum Hk ->. replace (Z.to_nat (k + 1)) with (S (Z.to_nat k)) by lia. cbn [word_sum].
  assert (2 * (length / 2) ≤ length) as Hd by word_lia. rewrite Z2Nat.id by lia.
  pose proof (Hm (base + 2 * k) ltac:(lia)) as H0. pose proof (Hm (base + 2 * k + 1) ltac:(lia)) as H1. unfold is_u8 in *.
  pose proof (word_sum_bound m base (Z.to_nat k) ltac:(intros i ?; apply Hm; lia)) as Hb.
  rewrite Z.shiftl_mul_pow2, (u32_small (_ * _)) by lia. rewrite lor_disjoint by lia. rewrite u32_small; lia.
Qed.

(** Folding a 32-bit sum twice gives its residue modulo 65535, as 65535 unless the sum is 0. *)
Lemma fold_carries_spec s :
  is_u32 s → fold_carries 2 s = if decide (s = 0) then 0 else 1 + (s - 1) mod 65535.
Proof.
  intros Hs. assert (∀ x, is_u32 x → Z.land x 65535 ⊞ Z.shiftr x 16 = x mod 65536 + x / 65536) as Hstep.
  { intros x Hx. change 65535 with (Z.ones 16). rewrite Z.land_ones, Z.shiftr_div_pow2 by lia. word_lia. }
  cbn [fold_carries]. rewrite (Hstep s) by done.
  rewrite (Hstep (s mod 65536 + s / 65536)) by word_lia. unfold truthy. rewrite !Z.shiftr_div_pow2 by lia. change (2 ^ 16) with 65536.
  destruct (s / 65536 =? 0) eqn:Es; zbool; cbn [negb].
  - case_decide; [done|]. word_lia.
  - rewrite decide_False by (intros ->; done).
    assert (s = 65536 * (s / 65536) + s mod 65536) as Ed by (apply Z.div_mod; lia).
    pose proof (Z.mod_pos_bound s 65536 ltac:(lia)) as Hlo. assert (0 < s / 65536 < 65536) as Hhi by word_lia.
    set (hi := s / 65536) in *. set (lo := s mod 65536) in *. clearbody hi lo. subst s.
    replace (65536 * hi + lo - 1) with (hi + lo - 1 + hi * 65535) by lia. rewrite Z.mod_add by lia.
    destruct ((lo + hi) / 65536 =? 0) eqn:Ef; zbool; cbn [negb]; word_lia.
Qed.

Lemma byte_sum_bound m base length : 0 ≤ length ≤ 65536 → bytes_in m base length → is_u32 (byte_sum m base length).
Proof.
  intros Hl Hm. unfold byte_sum. assert (2 * (length / 2) + length mod 2 = length ∧ 0 ≤ length mod 2 < 2) as [Hd Hr] by word_lia.
  pose proof (word_sum_bound m base (Z.to_nat (length / 2)) ltac:(intros i ?; apply Hm; lia)) as Hb.
  case_if; [|unfold is_u32; lia]. pose proof (Hm (base + length - 1) ltac:(lia)) as H1. unfold is_u8, is_u32 in *. lia.
Qed.

(** The checksum in closed form. *)
Lemma checksum16_sum m base length :
  0 ≤ length ≤ 65536 → bytes_in m base length →
  checksum16 m base length
  = 65535 - (if decide (byte_sum m base length = 0) then 0 else 1 + (byte_sum m base length - 1) mod 65535).
Proof.
  intros Hl Hm. unfold checksum16. rewrite add_words_sum by done.
  assert (truthy (Z.land length 1) = truthy (length mod 2)) as -> by (by change 1 with (Z.ones 1); rewrite Z.land_ones by lia).
  pose proof (byte_sum_bound m base length Hl Hm) as Hb.
  assert ((if truthy (length mod 2)
           then word_sum m base (Z.to_nat (length / 2)) ⊞ u32 (Z.shiftl (m (base + length - 1)) 8)
           else word_sum m base (Z.to_nat (length / 2))) = byte_sum m base length) as ->.
  { unfold byte_sum in *. case_if; [|lia]. pose proof (Hm (base + length - 1) ltac:(word_lia)) as H1. unfold is_u8 in H1.
    rewrite Z.shiftl_mul_pow2, (u32_small (_ * _)) by lia. rewrite u32_small; [lia|]. unfold is_u32 in Hb. lia. }
  rewrite fold_carries_spec by done.
  assert (∀ x, 0 ≤ x ≤ 65535 → u16 (not32 x) = 65535 - x) as -> by (intros; unfold not32; rewrite Z.lnot_eq_pred_opp; word_lia).
  - done.
  - case_decide; [lia|]. pose proof (Z.mod_pos_bound (byte_sum m base length - 1) 65535 ltac:(lia)). lia.
Qed.

Lemma checksum16_ext m m' base length :
  0 ≤ length → (∀ i, base ≤ i < base + length → m i = m' i) → checksum16 m base length = checksum16 m' base length.
Proof.
  intros Hl H. unfold checksum16.
  assert (add_words m base length = add_words m' base length) as ->.
  { unfold add_words. apply for_range_ext. intros k sum Hk. rewrite !H by word_lia. done. }
  change (Z.land length 1) with (Z.land length (Z.ones 1)). rewrite Z.land_ones by lia. change (2 ^ 1) with 2. case_if; [|done]. by rewrite H by word_lia.
Qed.

Lemma checksum16_range m base length : is_u16 (checksum16 m base length).
Proof. unfold checksum16. apply u16_range. Qed.

Lemma word_sum_put m base n k v :
  is_u16 v → (k < n)%nat → m (base + 2 * Z.of_nat k) = 0 → m (base + 2 * Z.of_nat k + 1) = 0 →
  word_sum (put16 m (base + 2 * Z.of_nat k) v) base n = word_sum m base n + v.
Proof.
  intros Hv Hk H0 H1. induction n as [|n IH]; [lia|]. cbn [word_sum]. destruct (decide (k = n)) as [->|].
  - rewrite (word_sum_ext (put16 _ _ _) m) by (intros; rewrite put16_other by lia; done).
    rewrite H0, H1. unfold put16, net_htons. rewrite net_bswap16_bytes by done. cbn [store_le].
    rewrite arr_get_set_ne, arr_get_set_eq by lia. rewrite arr_get_set_eq. word_lia.
  - rewrite IH by lia. rewrite !put16_other by lia. lia.
Qed.

Lemma byte_sum_put m base length k v :
  is_u16 v → 0 ≤ length → 2 * Z.of_nat k + 2 ≤ length →
  m (base + 2 * Z.of_nat k) = 0 → m (base + 2 * Z.of_nat k + 1) = 0 →
  byte_sum (put16 m (base + 2 * Z.of_nat k) v) base length = byte_sum m base length + v.
Proof.
  intros Hv Hl Hk H0 H1. unfold byte_sum. rewrite word_sum_put by (done || word_lia).
  case_if; [|lia]. rewrite put16_other by word_lia. lia.
Qed.

Lemma put16_bytes m a v base length : bytes_in m base length → bytes_in (put16 m a v) base length.
Proof.
  intros Hm i Hi. unfold put16. cbn [store_le]. rewrite !arr_get_set. repeat case_decide; [apply u8_range..|by apply Hm].
Qed.

(** A packet whose checksum field, an even number of bytes behind its start, was filled
    with its checksum has checksum 0. *)
Lemma checksum16_verifies m base length k :
  0 ≤ length ≤ 65534 → bytes_in m base length → 2 * Z.of_nat k + 2 ≤ length →
  m (base + 2 * Z.of_nat k) = 0 → m (base + 2 * Z.of_nat k + 1) = 0 →
  checksum16 (put16 m (base + 2 * Z.of_nat k) (checksum16 m base length)) base length = 0.
Proof.
  intros Hl Hm Hk H0 H1. pose proof (checksum16_range m base length) as Hc.
  rewrite checksum16_sum by (try apply put16_bytes; done || lia). rewrite byte_sum_put by (done || lia).
  pose proof (checksum16_sum m base length ltac:(lia) Hm) as Ec. pose proof (byte_sum_bound m base length ltac:(lia) Hm) as Hb.
  generalize dependent (byte_sum m base length). generalize (checksum16 m base length). clear. intros c b Ec Hb.
  unfold is_u32 in Hb. case_decide as Eb.
  - subst. rewrite decide_False by lia. done.
  - pose proof (Z.mod_pos_bound (b - 1) 65535 ltac:(lia)) as Hr. rewrite decide_False by lia.
    replace (b + c - 1) with (65534 + (b - 1) / 65535 * 65535) by (pose proof (Z.div_mod (b - 1) 65535); lia).
    rewrite Z.mod_add by lia. done.
Qed.

(** *** The Internet checksum of RFC 1071

    Its definition, on a list of bytes and independent of the code: the one's complement sum of the
    16-bit words in network order, where the carry out of each addition is added back
    in, and an odd last byte is the high byte of a word.  A receiver accepts a message
    when the sum with the checksum field included is all ones. *)
Definition ones_add (x y : Z) : Z := if 65536 <=? x + y then x + y - 65535 else x + y.

Fixpoint ones_sum (l : list Z) : Z :=
  match l with
  | [] => 0
  | [b] => 256 * b
  | b1 :: b2 :: l => ones_add (256 * b1 + b2) (ones_sum l)
  end.

(** The one's complement form of a sum of words. *)
Definition ones_residue (s : Z) : Z := if decide (s = 0) then 0 else 1 + (s - 1) mod 65535.

Lemma ones_add_residue x s :
  0 ≤ x < 65536 → 0 ≤ s → ones_add x (ones_residue s) = ones_residue (x + s).
Proof.
  intros Hx Hs. unfold ones_add, ones_residue. case_decide.
  - subst s. rewrite (proj2 (Z.leb_gt _ _)), Z.add_0_r by lia. case_decide; [lia|]. rewrite Z.mod_small; lia.
  - rewrite (decide_False (P := x + s = 0)) by lia. pose proof (Z.mod_pos_bound (s - 1) 65535 ltac:(lia)) as Hr.
    assert (s - 1 = 65535 * ((s - 1) / 65535) + (s - 1) mod 65535) as Hd by (apply Z.div_mod; lia).
    set (q := (s - 1) / 65535) in *. set (r := (s - 1) mod 65535) in *. clearbody q r.
    replace (x + s - 1) with (x + r + q * 65535) by lia. rewrite Z.mod_add by lia.
    destruct (Z.leb_spec 65536 (x + (1 + r))).
    + rewrite (Z.mod_eq (x + r)) by lia. assert ((x + r) / 65535 = 1) as -> by word_lia. lia.
    + rewrite Z.mod_small; lia.
Qed.

Lemma word_sum_front m base n :
  word_sum m base (S n) = 256 * m base + m (base + 1) + word_sum m (base + 2) n.
Proof.
  induction n as [|n IH].
  - cbn [word_sum]. change (2 * Z.of_nat 0) with 0. rewrite Z.add_0_r. lia.
  - set (k := S n) in *. cbn [word_sum]. rewrite IH. unfold k. cbn [word_sum].
    replace (base + 2 * Z.of_nat (S n)) with (base + 2 + 2 * Z.of_nat n) by lia. lia.
Qed.

Lemma byte_sum_front m base n :
  0 ≤ n → byte_sum m base (2 + n) = 256 * m base + m (base + 1) + byte_sum m (base + 2) n.
Proof.
  intros Hn. unfold byte_sum. replace (Z.to_nat ((2 + n) / 2)) with (S (Z.to_nat (n / 2))) by word_lia.
  rewrite word_sum_front. replace ((2 + n) mod 2) with (n mod 2) by word_lia.
  case_if; [|lia]. replace (base + (2 + n) - 1) with (base + 2 + n - 1) by lia. lia.
Qed.

Lemma ones_sum_slice m n : ∀ base,
  bytes_in m base (Z.of_nat n) → Z.of_nat n ≤ 65536 →
  ones_sum (slice m base n) = ones_residue (byte_sum m base (Z.of_nat n)).
Proof.
  induction n as [n IH] using lt_wf_ind. intros base Hm Hl. unfold slice in *.
  destruct n as [|[|n]]; [done| |].
  - pose proof (Hm base ltac:(lia)) as H0. unfold is_u8 in H0. change (Z.of_nat 1) with 1.
    rewrite seqZ_cons by lia. rewrite seqZ_nil by lia. cbn [fmap list_fmap ones_sum].
    unfold byte_sum, ones_residue. change (truthy (1 mod 2)) with true. change (word_sum m base (Z.to_nat (1 / 2))) with 0.
    cbv iota. rewrite Z.add_0_l. replace (base + 1 - 1) with base by lia.
    case_decide; [lia|]. rewrite Z.mod_small; lia.
  - replace (Z.of_nat (S (S n))) with (2 + Z.of_nat n) in * by lia.
    rewrite seqZ_cons, seqZ_cons by lia.
    replace (Z.pred (Z.pred (2 + Z.of_nat n))) with (Z.of_nat n) by lia. replace (Z.succ (Z.succ base)) with (base + 2) by lia.
    replace (Z.succ base) with (base + 1) by lia. cbn [fmap list_fmap ones_sum].
    pose proof (Hm base ltac:(lia)) as H0. pose proof (Hm (base + 1) ltac:(lia)) as H1. unfold is_u8 in *.
    assert (bytes_in m (base + 2) (Z.of_nat n)) as Hm' by (intros i Hi; apply Hm; lia).
    pose proof (byte_sum_bound m (base + 2) (Z.of_nat n) ltac:(lia) Hm') as Hb. unfold is_u32 in Hb.
    change (m <$> seqZ ?b (Z.of_nat n)) with (slice m b n). unfold slice.
    rewrite (IH n) by (lia || done). rewrite ones_add_residue, byte_sum_front by lia. done.
Qed.

(** [checksum16] computes the Internet checksum. *)
Lemma checksum16_rfc1071 m base (n : nat) :
  Z.of_nat n ≤ 65536 → bytes_in m base (Z.of_nat n) →
  checksum16 m base (Z.of_nat n) = 65535 - ones_sum (slice m base n).
Proof. intros Hl Hm. rewrite ones_sum_slice, checksum16_sum by (done || lia). done. Qed.

(** What a receiver of a message with a filled-in field computes. *)
Lemma checksum16_accepted m base length :
  0 ≤ length ≤ 65536 → bytes_in m base length → checksum16 m base length = 0 →
  ones_sum (slice m base (Z.to_nat length)) = 65535.
Proof.
  intros Hl Hm H. rewrite <- (Z2Nat.id length) in H by lia. rewrite checksum16_rfc1071 in H by (rewrite Z2Nat.id; (done || lia)). lia.
Qed.

(** ** Fields of a frame that is being built *)

Lemma put16_get16 m a v b : b + 2 ≤ a ∨ a + 2 ≤ b → get16 (put16 m a v) b = get16 m b.
Proof. intros. apply get16_ext; apply put16_other; lia. Qed.
Lemma put32_get16 m a v b : b + 2 ≤ a ∨ a + 4 ≤ b → get16 (put32 m a v) b = get16 m b.
Proof. intros. apply get16_ext; apply put32_other; lia. Qed.
Lemma put_mac_get16 m a l b : b + 2 ≤ a ∨ a + 6 ≤ b → get16 (put_mac m a l) b = get16 m b.
Proof. intros. apply get16_ext; apply put_mac_other; lia. Qed.
Lemma insert_get16 m a v b : a < b ∨ b + 2 ≤ a → get16 (<[a := v]> m) b = get16 m b.
Proof. intros. apply get16_ext; apply arr_get_set_ne; lia. Qed.
Lemma store_get16 m a v b : b + 2 ≤ a ∨ a + 2 ≤ b → get16 (store_le 2 m a v) b = get16 m b.
Proof. intros. apply get16_ext; apply store_le_other; lia. Qed.
Lemma copy_get16 m d src s n b : b + 2 ≤ d ∨ d + n ≤ b → get16 (copy_bytes m d src s n) b = get16 m b.
Proof. intros. apply get16_ext; apply copy_bytes_out; lia. Qed.

Lemma put16_get32 m a v b : b + 4 ≤ a ∨ a + 2 ≤ b → get32 (put16 m a v) b = get32 m b.
Proof. intros. apply get32_ext. intros. apply put16_other. lia. Qed.
Lemma put32_get32 m a v b : b + 4 ≤ a ∨ a + 4 ≤ b → get32 (put32 m a v) b = get32 m b.
Proof. intros. apply get32_ext. intros. apply put32_other. lia. Qed.
Lemma put_mac_get32 m a l b : b + 4 ≤ a ∨ a + 6 ≤ b → get32 (put_mac m a l) b = get32 m b.
Proof. intros. apply get32_ext. intros. apply put_mac_other. lia. Qed.
Lemma insert_get32 m a v b : a < b ∨ b + 4 ≤ a → get32 (<[a := v]> m) b = get32 m b.
Proof. intros. apply get32_ext. intros. apply arr_get_set_ne. lia. Qed.
Lemma copy_get32 m d src s n b : b + 4 ≤ d ∨ d + n ≤ b → get32 (copy_bytes m d src s n) b = get32 m b.
Proof. intros. apply get32_ext. intros. apply copy_bytes_out. lia. Qed.

Lemma put16_get_mac m a v b : b + 6 ≤ a ∨ a + 2 ≤ b → get_mac (put16 m a v) b = get_mac m b.
Proof. intros. apply get_mac_ext. intros. apply put16_other. lia. Qed.
Lemma put32_get_mac m a v b : b + 6 ≤ a ∨ a + 4 ≤ b → get_mac (put32 m a v) b = get_mac m b.
Proof. intros. apply get_mac_ext. intros. apply put32_other. lia. Qed.
Lemma put_mac_get_mac m a l b : b + 6 ≤ a ∨ a + 6 ≤ b → get_mac (put_mac m a l) b = get_mac m b.
Proof. intros. apply get_mac_ext. intros. apply put_mac_other. lia. Qed.
Lemma insert_get_mac m a v b : a < b ∨ b + 6 ≤ a → get_mac (<[a := v]> m) b = get_mac m b.
Proof. intros. apply get_mac_ext. intros. apply arr_get_set_ne. lia. Qed.
Lemma store_get_mac m a v b : b + 6 ≤ a ∨ a + 2 ≤ b → get_mac (store_le 2 m a v) b = get_mac m b.
Proof. intros. apply get_mac_ext. intros. apply store_le_other. lia. Qed.
Lemma copy_get_mac m d src s n b : b + 6 ≤ d ∨ d + n ≤ b → get_mac (copy_bytes m d src s n) b = get_mac m b.
Proof. intros. apply get_mac_ext. intros. apply copy_bytes_out. lia. Qed.

#[export] Hint Rewrite put16_get16 put32_get16 put_mac_get16 insert_get16 store_get16 copy_get16
  put16_get32 put32_get32 put_mac_get32 insert_get32 copy_get32
  put16_get_mac put32_get_mac put_mac_get_mac insert_get_mac store_get_mac copy_get_mac
  put16_other put32_other put_mac_other copy_bytes_out using lia : frame.
#[export] Hint Rewrite get16_put16 get32_put32 get_put_mac using (assumption || (unfold is_u16, is_u32 in *; lia)) : frame.
#[export] Hint Rewrite @arr_get_set_eq : frame.
#[export] Hint Rewrite @arr_get_set_ne store_le_other using lia : frame.

(** A host with proper addresses. *)
Record host (s : net_state) : Prop := {
  host_mac : length (mac s) = 6%nat;
  host_bytes : Forall is_u8 (mac s);
  host_ipv4 : is_u32 (ipv4_addr s);
}.

Lemma arp_frame_fields s opcode dmac tip tmac (f := arp_frame s opcode dmac tip tmac) :
  host s → is_u16 opcode → is_u32 tip → length dmac = 6%nat →
  get_mac f 0 = dmac ∧ get16 f 12 = NET_ETH_TYPE_ARP ∧ get16 f 14 = NET_ARP_HW_ETHERNET ∧ get16 f 16 = NET_ETH_TYPE_IPV4
  ∧ f 18 = 6 ∧ f 19 = 4 ∧ get16 f 20 = opcode ∧ get_mac f 22 = mac s ∧ get32 f 28 = ipv4_addr s ∧ get32 f 38 = tip.
Proof.
  intros [Hm _ Hi] Ho Ht Hd. unfold f, arp_frame, NET_ETH_TYPE_ARP, NET_ARP_HW_ETHERNET, NET_ETH_TYPE_IPV4.
  split_and!; by autorewrite with frame.
Qed.

Lemma icmp_frame_fields s type destination dmac ident seq m a pl
    (f := icmp_frame s type destination dmac ident seq (Some (m, a)) pl) :
  host s → is_u32 destination → is_u16 ident → is_u16 seq → length dmac = 6%nat → 0 ≤ pl ≤ 16 →
  get_mac f 0 = dmac ∧ get_mac f 6 = mac s ∧ get16 f 12 = NET_ETH_TYPE_IPV4 ∧ f 14 = NET_IPV4_VERSION_IHL
  ∧ get16 f 16 = 28 + pl ∧ f 23 = NET_IPV4_PROTOCOL_ICMP ∧ get32 f 26 = ipv4_addr s ∧ get32 f 30 = destination
  ∧ f 34 = type ∧ get16 f 38 = ident ∧ get16 f 40 = seq ∧ ∀ i, 0 ≤ i < pl → f (42 + i) = m (a + i).
Proof.
  intros [Hm _ Hi] Hdst Hid Hsq Hd Hpl. unfold f, icmp_frame. pose proof (checksum16_range) as Hc.
  unfold icmp_headers, NET_ETH_TYPE_IPV4, sizeof_net_ipv4_header, sizeof_net_icmp_echo.
  rewrite (u16_small (20 + 8 + pl)) by lia.
  destruct (truthy pl) eqn:Epl; zbool; split_and!; try (by autorewrite with frame).
  - intros i ?. rewrite put16_other, copy_bytes_in by lia. f_equal. lia.
  - intros i ?. lia.
Qed.

(** ** The checksums of the packets that are sent *)

Lemma zero_frame_bytes k base length : bytes_in (zero_bytes (λ _, 0) 0 k) base length.
Proof. intros i _. unfold zero_bytes, arr_fill. by case_if. Qed.
Lemma put32_bytes m a v base length : bytes_in m base length → bytes_in (put32 m a v) base length.
Proof.
  intros Hm i Hi. unfold put32. cbn [store_le]. rewrite !arr_get_set. repeat case_decide; [apply u8_range..|by apply Hm].
Qed.
Lemma store16_bytes m a v base length : bytes_in m base length → bytes_in (store_le 2 m a v) base length.
Proof.
  intros Hm i Hi. cbn [store_le]. rewrite !arr_get_set. repeat case_decide; [apply u8_range..|by apply Hm].
Qed.
Lemma insert_bytes m a v base length : is_u8 v → bytes_in m base length → bytes_in (<[a := v]> m) base length.
Proof. intros Hv Hm i Hi. rewrite arr_get_set. case_decide; [done|by apply Hm]. Qed.
Lemma nth_bytes l i : Forall is_u8 l → is_u8 (nth i l 0).
Proof.
  intros Hl. destruct (nth_in_or_default i l 0) as [Hin| ->]; [|done].
  rewrite Forall_forall in Hl. apply Hl. by apply list_elem_of_In.
Qed.
Lemma put_mac_bytes m a l base length : Forall is_u8 l → bytes_in m base length → bytes_in (put_mac m a l) base length.
Proof.
  intros Hl Hm i Hi. unfold put_mac, copy_bytes. case_if; [by apply nth_bytes|by apply Hm].
Qed.
Lemma copy_bytes_bytes m d src s k base length :
  bytes_in src s k → bytes_in m base length → bytes_in (copy_bytes m d src s k) base length.
Proof. intros Hs Hm i Hi. unfold copy_bytes. case_if; [apply Hs; lia|by apply Hm]. Qed.

Lemma constant_bytes : is_u8 0 ∧ is_u8 4 ∧ is_u8 6 ∧ is_u8 64 ∧ is_u8 NET_IPV4_VERSION_IHL ∧ is_u8 NET_IPV4_PROTOCOL_ICMP.
Proof. by vm_compute. Qed.

Ltac frame_bytes :=
  repeat first [apply put16_bytes | apply put32_bytes | apply store16_bytes | apply put_mac_bytes; [assumption|]
               | apply copy_bytes_bytes; [assumption|] | apply insert_bytes; [first [assumption|apply constant_bytes]|]
               | apply zero_frame_bytes].

(** The checksums of an echo packet as the code itself computes them. *)
Lemma icmp_frame_sums s type destination dmac ident seq m a pl
    (f := icmp_frame s type destination dmac ident seq (Some (m, a)) pl) :
  host s → Forall is_u8 dmac → is_u8 type → 0 ≤ pl ≤ 16 → bytes_in m a pl →
  (checksum16 f 14 sizeof_net_ipv4_header = 0 ∧ checksum16 f 34 (sizeof_net_icmp_echo + pl) = 0) ∧
  bytes_in f 14 sizeof_net_ipv4_header ∧ bytes_in f 34 (sizeof_net_icmp_echo + pl).
Proof.
  intros [_ Hm _] Hd Hty Hpl Hp. unfold f, icmp_frame. cbv zeta. unfold sizeof_net_icmp_echo.
  set (h := icmp_headers _ _ _ _ _).
  assert (∀ k, bytes_in h 0 k) as Hh by (intros k; unfold h, icmp_headers; frame_bytes).
  assert (checksum16 h 14 sizeof_net_ipv4_header = 0 ∧ h 36 = 0 ∧ h 37 = 0) as (Hip&H36&H37).
  { unfold h, icmp_headers. split_and!; [|by autorewrite with frame..].
    apply (checksum16_verifies _ 14 20 5); [done| |done|by autorewrite with frame..]. frame_bytes. }
  match goal with |- (_ ∧ checksum16 (put16 _ _ (checksum16 ?x _ _)) _ _ = 0) ∧ _ => set (g := x) end.
  assert (g 36 = 0 ∧ g 37 = 0 ∧ (∀ i, 14 ≤ i < 34 → g i = h i) ∧ bytes_in g 34 (8 + pl)) as (G36&G37&Gi&Gb).
  { unfold g. destruct (truthy pl); split_and!; try (autorewrite with frame; done);
      try (intros i ?; autorewrite with frame; done); frame_bytes; intros i Hi; apply (Hh 100); lia. }
  split; [split|split].
  - rewrite <- Hip. symmetry. apply checksum16_ext; [done|].
    intros i Hi. change sizeof_net_ipv4_header with 20 in Hi. rewrite put16_other by lia. by rewrite Gi by lia.
  - apply (checksum16_verifies _ 34 (8 + pl) 1); [lia|done|lia|done..].
  - apply put16_bytes. intros i Hi. change sizeof_net_ipv4_header with 20 in Hi. rewrite Gi by lia. apply (Hh 100). lia.
  - by apply put16_bytes.
Qed.

(** C13: Every echo packet the stack sends carries correct Internet checksums in the sense
    of RFC 1071: the one's complement sum of the 16-bit words of its IPv4 header, and the one
    of its ICMP message with its payload of up to 16 bytes (an odd last byte included), are all
    ones, and the receiving side of this stack computes 0 for both, whatever the addresses,
    numbers and payload. *)
Theorem icmp_frame_checksums s type destination dmac ident seq m a pl
    (f := icmp_frame s type destination dmac ident seq (Some (m, a)) pl) :
  host s → Forall is_u8 dmac → is_u8 type → 0 ≤ pl ≤ 16 → bytes_in m a pl →
  ones_sum (slice f 14 (Z.to_nat sizeof_net_ipv4_header)) = 65535 ∧
  ones_sum (slice f 34 (Z.to_nat (sizeof_net_icmp_echo + pl))) = 65535 ∧
  checksum16 f 14 sizeof_net_ipv4_header = 0 ∧ checksum16 f 34 (sizeof_net_icmp_echo + pl) = 0.
Proof.
  intros Hs Hd Hty Hpl Hp. destruct (icmp_frame_sums s type destination dmac ident seq m a pl) as ([H1 H2]&B1&B2); [done..|].
  split_and!; [apply checksum16_accepted; done| |done|done].
  apply checksum16_accepted; [unfold sizeof_net_icmp_echo; lia|done|done].
Qed.

(** ** What a receiver reads *)

(** Computes the sums of constants that are offsets of fields. *)
Ltac offsets :=
  repeat match goal with
  | |- context [Zpos ?a + Zpos ?b] => let c := eval compute in (Zpos a + Zpos b) in change (Zpos a + Zpos b) with c
  | |- context [0 + Zpos ?b] => change (0 + Zpos b) with (Zpos b)
  end.

Definition agrees (m f : carray Z) (k : Z) : Prop := ∀ i, 0 ≤ i < k → m i = f i.

Section receive.
Context {D : Type} `{!NetDevice D}.
Implicit Types n : netsys D.

Definition accepts n (dmac : list Z) : Prop := dmac = mac (ns n) ∨ dmac = broadcast_mac.

Lemma accepted n dmac :
  accepts n dmac → negb (mac_equal dmac (mac (ns n))) && negb (mac_is_broadcast dmac) = false.
Proof. intros [->| ->]; [by rewrite mac_equal_refl|]. by rewrite andb_false_r. Qed.

(** An ARP packet of another host is read as that host wrote it. *)
Lemma process_frame_arp now m len s opcode dmac tip tmac n :
  host s → is_u16 opcode → is_u32 tip → length dmac = 6%nat → accepts n dmac →
  42 ≤ len < 4294967296 → agrees m (arp_frame s opcode dmac tip tmac) 42 →
  process_frame now m len n = arp_received now opcode (mac s) (ipv4_addr s) tip n.
Proof.
  intros Hs Ho Ht Hd Ha Hl Hm. destruct (arp_frame_fields s opcode dmac tip tmac Hs Ho Ht Hd) as (F0&F1&F2&F3&F4&F5&F6&F7&F8&F9).
  rewrite <- (get_mac_ext m) in F0, F7 by (intros; apply Hm; lia).
  rewrite <- (get16_ext m) in F1, F2, F3, F6 by (apply Hm; lia).
  rewrite <- (get32_ext m) in F8, F9 by (intros; apply Hm; lia). rewrite <- Hm in F4, F5 by lia.
  unfold process_frame. rewrite F0, F1, accepted by done. unfold sizeof_net_eth_header.
  rewrite (proj2 (Z.ltb_ge len 14)), Z.eqb_refl, u32_small by lia.
  unfold process_arp, arp_acceptable. offsets. rewrite F2, F3, F4, F5, F6, F7, F8, F9.
  unfold sizeof_net_arp_packet. by rewrite (proj2 (Z.ltb_ge (len - 14) 28)) by lia.
Qed.

(** An echo packet of another host is read as that host wrote it. *)
Lemma process_frame_icmp now m len s type ident seq pm pa pl n :
  host s → host (ns n) → is_u16 ident → is_u16 seq → 0 ≤ pl ≤ 16 → 42 + pl ≤ len < 4294967296 →
  agrees m (icmp_frame s type (ipv4_addr (ns n)) (mac (ns n)) ident seq (Some (pm, pa)) pl) (42 + pl) →
  process_frame now m len n = icmp_received now type (ipv4_addr s) (mac s) ident seq (m, 42) pl n
  ∧ ∀ i, 0 ≤ i < pl → m (42 + i) = pm (pa + i).
Proof.
  intros Hs Hn Hid Hsq Hpl Hl Hm.
  destruct (icmp_frame_fields s type (ipv4_addr (ns n)) (mac (ns n)) ident seq pm pa pl Hs) as (F0&F1&F2&F3&F4&F5&F6&F7&F8&F9&F10&F11);
    [apply Hn|done|done|apply Hn|done|].
  rewrite <- (get_mac_ext m) in F0, F1 by (intros; apply Hm; lia).
  rewrite <- (get16_ext m) in F2, F4, F9, F10 by (apply Hm; lia).
  rewrite <- (get32_ext m) in F6, F7 by (intros; apply Hm; lia). rewrite <- Hm in F3, F5, F8 by lia.
  split; [|intros i ?; rewrite Hm by lia; by apply F11].
  unfold process_frame. rewrite F0, F2, accepted by (by left). unfold sizeof_net_eth_header.
  rewrite (proj2 (Z.ltb_ge len 14)), u32_small by lia.
  change (NET_ETH_TYPE_IPV4 =? NET_ETH_TYPE_ARP) with false. rewrite Z.eqb_refl. cbv iota.
  unfold process_ipv4. offsets. rewrite F3, F4, F5, F7. unfold sizeof_net_ipv4_header.
  change (Z.land NET_IPV4_VERSION_IHL 15 ⊠ 4) with 20. change (negb (Z.shiftr NET_IPV4_VERSION_IHL 4 =? 4)) with false.
  rewrite (proj2 (Z.ltb_ge (len - 14) 20)), (proj2 (Z.ltb_ge (28 + pl) 20)), (proj2 (Z.ltb_ge (len - 14) (28 + pl))) by lia.
  rewrite !Z.eqb_refl. change (20 <? 20) with false. cbn [orb negb].
  unfold process_icmp, sizeof_net_icmp_echo. rewrite (u32_small (28 + pl - 20)) by lia.
  rewrite (proj2 (Z.ltb_ge (28 + pl - 20) 8)), u32_small by lia.  offsets.
  rewrite F8, F6, F1, F9, F10. by replace (28 + pl - 20 - 8) with pl by lia.
Qed.

(** ** Nothing beyond the length of a frame is read *)

Lemma icmp_frame_local s type destination dmac ident seq m m' a pl :
  0 ≤ pl →
  (∀ i, a ≤ i < a + pl → m i = m' i) →
  ∀ i, icmp_frame s type destination dmac ident seq (Some (m, a)) pl i
       = icmp_frame s type destination dmac ident seq (Some (m', a)) pl i.
Proof.
  intros Hpl H i. unfold icmp_frame. cbv zeta. case_if; [|done].
  assert (∀ f k, copy_bytes f 42 m a pl k = copy_bytes f 42 m' a pl k) as Hc.
  { intros f k. unfold copy_bytes. case_if; [|done]. apply H. lia. }
  rewrite (checksum16_ext _ (copy_bytes _ 42 m' a pl) 34 _) by (done || (intros; apply Hc) || (unfold sizeof_net_icmp_echo; lia)).
  apply store_le_agree. apply Hc.
Qed.

Lemma send_icmp_local type destination dmac ident seq m m' a pl n :
  0 ≤ pl →
  (∀ i, a ≤ i < a + pl → m i = m' i) →
  send_icmp type destination dmac ident seq (Some (m, a)) pl n = send_icmp type destination dmac ident seq (Some (m', a)) pl n.
Proof.
  intros Hpl H. unfold send_icmp. case_if; [done|]. unfold send_frame.
  by rewrite (slice_ext _ (icmp_frame (ns n) type destination dmac ident seq (Some (m', a)) pl)) by (intros; by apply icmp_frame_local).
Qed.

Lemma process_arp_local now m m' a length n :
  (∀ i, a ≤ i < a + length → m i = m' i) → process_arp now m a length n = process_arp now m' a length n.
Proof.
  intros H. unfold process_arp, arp_acceptable, sizeof_net_arp_packet. destruct (length <? 28) eqn:El; [done|]. zbool.
  rewrite !(get16_ext m m') by (apply H; lia). rewrite !(get32_ext m m') by (intros; apply H; lia).
  rewrite !(get_mac_ext m m') by (intros; apply H; lia). by rewrite !H by lia.
Qed.

Lemma process_icmp_local now m m' eth ip a length n :
  (∀ i, eth ≤ i < eth + 14 → m i = m' i) → (∀ i, ip ≤ i < ip + 20 → m i = m' i) → is_u32 length →
  (∀ i, a ≤ i < a + length → m i = m' i) →
  process_icmp now m eth ip a length n = process_icmp now m' eth ip a length n.
Proof.
  intros He Hi Hl H. unfold process_icmp, sizeof_net_icmp_echo. destruct (length <? 8) eqn:El; [done|]. zbool.
  rewrite !(get16_ext m m') by (apply H; lia). rewrite !(get32_ext m m') by (intros; apply Hi; lia).
  rewrite !(get_mac_ext m m') by (intros; apply He; lia). rewrite H by lia.
  unfold icmp_received, send_icmp_echo_reply.
  by rewrite (send_icmp_local _ _ _ _ _ m m') by first [apply u32_range|intros; apply H; word_lia].
Qed.

Lemma process_ipv4_local now m m' eth a length n :
  (∀ i, eth ≤ i < eth + 14 → m i = m' i) → is_u32 length → (∀ i, a ≤ i < a + length → m i = m' i) →
  process_ipv4 now m eth a length n = process_ipv4 now m' eth a length n.
Proof.
  intros He Hl H. unfold process_ipv4, sizeof_net_ipv4_header. destruct (length <? 20) eqn:El; [done|]. zbool.
  rewrite !(get16_ext m m') by (apply H; lia). rewrite !(get32_ext m m') by (intros; apply H; lia). rewrite !(H a), (H (a + 9)) by lia.
  do 4 (case_if; [done|]). case_if; [|done].
  apply process_icmp_local; [done|intros; apply H; lia|apply u32_range|].
  pose proof (u32_range (Z.land (m' a) 15 * 4)) as Hr. set (hl := Z.land (m' a) 15 ⊠ 4) in *. set (tl := get16 m' (a + 2)) in *.
  intros i Hi. apply H. rewrite u32_small in Hi; unfold is_u32 in *; lia.
Qed.

(** C11: A received frame is never read beyond its length: two buffers that hold the same
    first [length] bytes have the same effect, replies to the network included, whatever
    the lengths and offsets inside the packet claim. *)
Theorem process_frame_in_bounds now m m' length n :
  is_u32 length → agrees m m' length → process_frame now m length n = process_frame now m' length n.
Proof.
  intros Hl H. unfold process_frame. change sizeof_net_eth_header with 14. destruct (length <? 14) eqn:El; [done|]. zbool.
  unfold is_u32 in Hl. rewrite !(get_mac_ext m m'), !(get16_ext m m') by (intros; apply H; lia).
  destruct (negb _ && _); [done|]. rewrite u32_small by lia.
  destruct (_ =? NET_ETH_TYPE_ARP); [apply process_arp_local; intros; apply H; lia|].
  destruct (_ =? NET_ETH_TYPE_IPV4); [|done].
  apply process_ipv4_local; [intros; apply H; lia|unfold is_u32; lia|intros; apply H; lia].
Qed.

End receive.
