(* ===== verification/NetPing.v ===== *)
(** * Pings

    The state of the network stack keeps its invariant under every operation; a ping
    completes by its deadline, and with success only on the echo reply it waits for; and
    between two hosts running this code a ping succeeds. *)

From S2P Require Import Prelude Abi Mem Trace Net NetFrames.

Local Open Scope Z_scope.
Local Open Scope c_scope.

(** ** The invariant *)

(** The promises of the card: a hardware address has six bytes, and what it puts into a
    buffer are bytes. *)
Class NetDeviceLaws (D : Type) `{!NetDevice D} := {
  get_mac_wf d m : e1000_get_mac d = Some m → length m = 6%nat ∧ Forall is_u8 m;
  receive_wf f capacity d r f' d' : e1000_receive f capacity d = (r, f', d') → bytes_wf f → bytes_wf f';
}.

(** A pending or finished ping. *)
Record ping_ok (p : net_ping_state) : Prop := {
  po_active : active p = 1;
  po_owner : owner_pid p ≠ 0;
  po_destination : is_u32 (destination_ipv4 p) ∧ destination_ipv4 p ≠ 0;
  po_next_hop : is_u32 (next_hop_ipv4 p);
  po_deadline : is_u32 (deadline_tick p);
  po_action : is_u32 (next_action_tick p);
  po_identifier : is_u16 (identifier p);
  po_sequence : echo_sequence p = 1;
  po_stage : stage p ≠ NET_PING_STAGE_IDLE;
  po_result : (completed p = 0 ∧ result p = 0)
              ∨ (completed p = 1 ∧ (result p = SYS_PING_OK ∨ result p = SYS_PING_ERR_TIMEOUT));
}.

Record net_ok (s : net_state) : Prop := {
  no_host : host s;
  no_gateway : is_u32 (ipv4_gateway s);
  no_arp_valid : arp_valid s = 0 ∨ arp_valid s = 1;
  no_arp_mac : length (arp_mac s) = 6%nat ∧ Forall is_u8 (arp_mac s);
  no_arp_ipv4 : is_u32 (arp_ipv4 s);
  no_rx : is_u32 (rx_packets s);
  no_tx : is_u32 (tx_packets s);
  no_identifier : is_u16 (next_ping_identifier s);
  no_ping_ok : ping s = no_ping ∨ ping_ok (ping s);
}.

Section invariant.
Context {D : Type} `{!NetDevice D} `{!NetDeviceLaws D}.
Implicit Types n : netsys D.

Definition pings_ok (p : net_ping_state) : Prop := p = no_ping ∨ ping_ok p.

Lemma upd_ping_ok f n : pings_ok (f (ping (ns n))) → net_ok (ns n) → net_ok (ns (upd_ping f n)).
Proof. intros Hf [[]]. by split. Qed.

Lemma ping_complete_ok r n :
  r = SYS_PING_OK ∨ r = SYS_PING_ERR_TIMEOUT → net_ok (ns n) → net_ok (ns (ping_complete r n)).
Proof.
  intros Hr Hn. apply upd_ping_ok; [|done]. destruct (no_ping_ok _ Hn) as [->|Hk]; [by left|right].
  case_if; [done|]. destruct Hk. split; try done. by right.
Qed.

(** A pending ping moves to another stage. *)
Lemma stage_ok st a t p : truthy (active p) = true → st ≠ NET_PING_STAGE_IDLE → is_u32 t → pings_ok p → pings_ok (ping_at_stage st a t p).
Proof. intros Hact Hst Ht [->|[]]; [done|]. right. by split. Qed.

Lemma send_frame_ns f len n :
  ∃ tx, is_u32 tx ∧ (ns (send_frame f len n).2 = ns n ∨ ns (send_frame f len n).2 = with_tx tx (ns n)).
Proof.
  exists (tx_packets (ns n) ⊞ 1). split; [apply u32_range|]. unfold send_frame. destruct (e1000_transmit _ _) as [r d]. cbn [snd].
  case_if; [by right|by left].
Qed.

Lemma send_frame_ok f len n : net_ok (ns n) → net_ok (ns (send_frame f len n).2).
Proof.
  intros H. destruct (send_frame_ns f len n) as (tx&Ht&[->| ->]); [done|]. destruct H as [[]]. by split.
Qed.

Lemma send_icmp_ok type destination dmac ident seq p pl n :
  net_ok (ns n) → net_ok (ns (send_icmp type destination dmac ident seq p pl n).2).
Proof. intros. unfold send_icmp. case_if; [done|]. by apply send_frame_ok. Qed.

Lemma get16_range m a : bytes_wf m → is_u16 (get16 m a).
Proof. intros. apply net_bswap16_range. by apply (load_le_range 2). Qed.
Lemma get32_range m a : bytes_wf m → is_u32 (get32 m a).
Proof. intros. apply net_bswap32_range. by apply load32_range. Qed.
Lemma get_mac_bytes m a : bytes_wf m → length (get_mac m a) = 6%nat ∧ Forall is_u8 (get_mac m a).
Proof. intros Hm. split; [apply slice_length|]. unfold get_mac, slice. apply Forall_fmap, Forall_true. intros. apply Hm. Qed.

Lemma process_arp_ok now m a len n : bytes_wf m → net_ok (ns n) → net_ok (ns (process_arp now m a len n)).
Proof.
  intros Hm Hn. unfold process_arp. case_if; [done|]. unfold arp_received.
  set (n1 := log_net _ _ _ _ _ (upd _ n)).
  assert (net_ok (ns n1)) as H1.
  { destruct Hn as [[]]. split; try done; cbn; [by right|by apply get_mac_bytes|by apply get32_range]. }
  assert (∀ st, st ≠ NET_PING_STAGE_IDLE → truthy (active (ping (ns n1))) = true → net_ok (ns (upd_ping (ping_at_stage st 0 0) n1))) as H2.
  { intros. apply upd_ping_ok; [|done]. apply stage_ok; [done|done|done|apply H1]. }
  generalize dependent n1. intros n1 H1 H2.
  assert (net_ok (ns (if truthy (active (ping (ns n1))) && (completed (ping (ns n1)) =? 0)
    && bool_decide (stage (ping (ns n1)) = NET_PING_STAGE_ARP) && (get32 m (a + 14) =? next_hop_ipv4 (ping (ns n1)))
    && (get16 m (a + 6) =? NET_ARP_REPLY) then upd_ping (ping_at_stage NET_PING_STAGE_ECHO 0 0) n1 else n1))) as H3.
  { destruct (truthy (active _)) eqn:Ea; [|done]. case_if; [by apply H2|done]. }
  case_if; [by apply send_frame_ok|done].
Qed.

Lemma process_frame_ok now m len n : bytes_wf m → net_ok (ns n) → net_ok (ns (process_frame now m len n)).
Proof.
  intros Hm Hn. unfold process_frame. case_if; [done|]. case_if; [done|]. case_if; [by apply process_arp_ok|].
  case_if; [|done]. unfold process_ipv4. do 5 (case_if; [done|]). case_if; [|done].
  unfold process_icmp. case_if; [done|]. unfold icmp_received.
  case_if; [apply ping_complete_ok; [by left|done]|]. case_if; [|done]. by apply send_icmp_ok.
Qed.

Lemma ping_send_ok n r n' :
  ping_send n = Some (r, n') → net_ok (ns n) → net_ok (ns n') ∧ ping (ns n') = ping (ns n).
Proof.
  assert (∀ o f len, o = Some (send_frame f len n) → o = Some (r, n') → net_ok (ns n) → net_ok (ns n') ∧ ping (ns n') = ping (ns n)) as Hs.
  { intros o f len -> [= Hsf] Hn. pose proof (f_equal snd Hsf) as Hs'. cbn in Hs'. subst n'. split; [by apply send_frame_ok|].
    by destruct (send_frame_ns f len n) as (tx&_&[->| ->]). }
  unfold ping_send. destruct (stage _); [done|by eapply Hs|]. case_if; [by eapply Hs|done].
Qed.

Lemma drive_ping_ok now n : net_ok (ns n) → net_ok (ns (drive_ping now n)).
Proof.
  intros Hn. unfold drive_ping. destruct ((active (ping (ns n)) =? 0) || _) eqn:Ea; [done|].
  case_if; [apply ping_complete_ok; [by right|done]|]. case_if; [done|].
  destruct (ping_send n) as [[r n']|] eqn:Es; [|done]. destruct (ping_send_ok n r n' Es Hn) as [Hn' Ep]. case_if; [done|].
  apply upd_ping_ok; [|done]. rewrite Ep. zbool. pose proof (no_ping_ok _ Hn) as [Hp|Hp]; [by rewrite Hp in *|].
  right. destruct Hp. split; try done. apply u32_range.
Qed.

Lemma poll_loop_ok budget now frame n : bytes_wf frame → net_ok (ns n) → net_ok (ns (poll_loop budget now frame n)).
Proof.
  revert frame n. induction budget as [|budget IH]; intros frame n Hf Hn; cbn [poll_loop]; [done|].
  destruct (e1000_receive _ _ _) as [[r frame'] d] eqn:Er. pose proof (receive_wf _ _ _ _ _ _ Er Hf) as Hf'.
  case_if; [done|]. case_if; [by apply IH|]. apply IH; [done|]. apply process_frame_ok; [done|].
  destruct Hn as [[]]. split; try done. apply u32_range.
Qed.

Lemma net_poll_ok now n : net_ok (ns n) → net_ok (ns (net_poll now n)).
Proof. intros. unfold net_poll. case_if; [done|]. by apply drive_ping_ok, poll_loop_ok. Qed.

Lemma route_next_hop_range s destination : net_ok s → is_u32 destination → is_u32 (route_next_hop s destination).
Proof. intros [] ?. unfold route_next_hop. by case_if. Qed.

Lemma net_ping4_start_ok now pid destination timeout n :
  is_u32 destination → net_ok (ns n) → net_ok (ns (net_ping4_start now pid destination timeout n).2).
Proof.
  intros Hd Hn. unfold net_ping4_start. do 3 (case_if; [done|]). apply drive_ping_ok.
  pose proof (route_next_hop_range _ destination Hn Hd) as Hr. destruct Hn as [[]]. split; try done; [apply u16_range|right].
  split; try done; [apply u32_range|cbn; by case_if|by left].
Qed.

Lemma net_ping4_poll_result_ok pid n : net_ok (ns n) → net_ok (ns (net_ping4_poll_result pid n).2).
Proof. intros Hn. unfold net_ping4_poll_result. do 2 (case_if; [done|]). apply upd_ping_ok; [by left|done]. Qed.

Lemma net_init_ok now n : net_ok (ns (net_init now n).2).
Proof.
  unfold net_init. destruct (e1000_init _) as [r d].
  assert (∀ x, length x = 6%nat ∧ Forall is_u8 x → ∀ b, net_ok {| ready := b; mac := x; ipv4_addr := NET_QEMU_IPV4;
    ipv4_netmask := NET_QEMU_NETMASK; ipv4_gateway := NET_QEMU_GATEWAY; arp_valid := 0; arp_mac := zero_mac; arp_ipv4 := 0;
    rx_packets := 0; tx_packets := 0; next_ping_identifier := 1; ping := no_ping |}) as H.
  { intros x [] b. split; try done; [by left|split; [done|]|by left]. by repeat constructor. }
  case_if; [apply H; split; [done|by repeat constructor]|].
  destruct (e1000_get_mac d) eqn:Eg; [|apply H; split; [done|by repeat constructor]]. apply H. by apply get_mac_wf in Eg.
Qed.

(** The calls of the rest of the kernel, at any time and in any order, once the stack has
    been initialised. *)
Inductive net_reachable : netsys D → Prop :=
  | nr_init now n : net_reachable (net_init now n).2
  | nr_poll now n : net_reachable n → net_reachable (net_poll now n)
  | nr_start now pid destination timeout n :
      is_u32 destination → net_reachable n → net_reachable (net_ping4_start now pid destination timeout n).2
  | nr_result pid n : net_reachable n → net_reachable (net_ping4_poll_result pid n).2.

Lemma reachable_net_ok n : net_reachable n → net_ok (ns n).
Proof.
  induction 1; [apply net_init_ok|by apply net_poll_ok|by apply net_ping4_start_ok|by apply net_ping4_poll_result_ok].
Qed.

(** C15: Whatever frames arrive and whatever calls are made, the state of the network stack
    is well formed: addresses and counters keep their widths, the cached hardware address
    has six bytes, and the ping is either absent, with every field zero, or has an owner
    and a destination, is waiting for an ARP or an echo reply, and is pending or finished
    with success or a timeout. *)
Theorem net_reachable_ok n : net_reachable n → net_ok (ns n).
Proof. apply reachable_net_ok. Qed.

End invariant.

(** ** How a ping ends *)

Section completion.
Context {D : Type} `{!NetDevice D}.
Implicit Types n : netsys D.

Definition pending (s : net_state) : Prop := active (ping s) ≠ 0 ∧ completed (ping s) = 0.

(** What no event changes while a ping exists. *)
Definition same_ping (p p' : net_ping_state) : Prop :=
  active p' = active p ∧ owner_pid p' = owner_pid p ∧ destination_ipv4 p' = destination_ipv4 p
  ∧ next_hop_ipv4 p' = next_hop_ipv4 p ∧ deadline_tick p' = deadline_tick p ∧ identifier p' = identifier p
  ∧ echo_sequence p' = echo_sequence p.

#[local] Instance same_ping_preorder : PreOrder same_ping.
Proof.
  unfold same_ping. split; [by intros ?|].
  intros p q r (?&?&?&?&?&?&?) (?&?&?&?&?&?&?). split_and!; congruence.
Qed.

Lemma ping_complete_same r n : same_ping (ping (ns n)) (ping (ns (ping_complete r n))).
Proof. cbn. by case_if. Qed.

Lemma ping_complete_pending r n :
  pending (ns n) → completed (ping (ns (ping_complete r n))) = 1 ∧ result (ping (ns (ping_complete r n))) = r.
Proof. intros [Ha Hc]. cbn. rewrite Hc, orb_false_r. by rewrite (proj2 (Z.eqb_neq _ _) Ha). Qed.

Lemma send_frame_ping f len n : ping (ns (send_frame f len n).2) = ping (ns n).
Proof. by destruct (send_frame_ns f len n) as (tx&_&[->| ->]). Qed.

Lemma send_icmp_ping type destination dmac ident seq p pl n :
  ping (ns (send_icmp type destination dmac ident seq p pl n).2) = ping (ns n).
Proof. unfold send_icmp. case_if; [done|]. apply send_frame_ping. Qed.

(** An ARP packet does not complete a ping. *)
Lemma process_arp_ping now m a len n (p' := ping (ns (process_arp now m a len n))) :
  same_ping (ping (ns n)) p' ∧ completed p' = completed (ping (ns n)) ∧ result p' = result (ping (ns n)).
Proof.
  unfold p', process_arp. case_if; [done|]. unfold arp_received.
  assert (∀ c n1 sm si, same_ping (ping (ns n)) (ping (ns n1)) ∧ completed (ping (ns n1)) = completed (ping (ns n))
    ∧ result (ping (ns n1)) = result (ping (ns n)) →
    same_ping (ping (ns n)) (ping (ns (if c : bool then (send_arp_reply sm si n1).2 else n1)))
    ∧ completed (ping (ns (if c then (send_arp_reply sm si n1).2 else n1))) = completed (ping (ns n))
    ∧ result (ping (ns (if c then (send_arp_reply sm si n1).2 else n1))) = result (ping (ns n))) as Hs.
  { intros c n1 sm si H. destruct c; [|done]. unfold send_arp_reply, send_arp. by rewrite send_frame_ping. }
  apply Hs. by case_if.
Qed.

(** The frame [m] of length [len] is the echo reply the ping of [s] waits for. *)
Definition echo_reply_for (s : net_state) (m : carray Z) (len : Z) : Prop :=
  let header := Z.land (m 14) 15 * 4 in
  34 ≤ len ∧ (mac_equal (get_mac m 0) (mac s) = true ∨ mac_is_broadcast (get_mac m 0) = true)
  ∧ get16 m 12 = NET_ETH_TYPE_IPV4 ∧ Z.shiftr (m 14) 4 = 4
  ∧ 20 ≤ header ∧ header + 8 ≤ get16 m 16 ≤ len - 14
  ∧ get32 m 30 = ipv4_addr s ∧ m 23 = NET_IPV4_PROTOCOL_ICMP ∧ get32 m 26 = destination_ipv4 (ping s)
  ∧ m (14 + header) = NET_ICMP_ECHO_REPLY
  ∧ get16 m (14 + header + 4) = identifier (ping s) ∧ get16 m (14 + header + 6) = echo_sequence (ping s).

Lemma icmp_received_ping now type src smac ident seq pay pl n (p' := ping (ns (icmp_received now type src smac ident seq pay pl n))) :
  same_ping (ping (ns n)) p'
  ∧ (p' = ping (ns n)
     ∨ pending (ns n) ∧ completed p' = 1 ∧ result p' = SYS_PING_OK ∧ stage (ping (ns n)) = NET_PING_STAGE_ECHO
       ∧ type = NET_ICMP_ECHO_REPLY ∧ src = destination_ipv4 (ping (ns n)) ∧ ident = identifier (ping (ns n))
       ∧ seq = echo_sequence (ping (ns n))).
Proof.
  unfold p', icmp_received. destruct (_ && (seq =? _)) eqn:Ec.
  - zbool. rewrite bool_decide_eq_true in *. unfold truthy in *. zbool. subst.
    match goal with |- context [ping_complete ?r ?x] => set (n1 := x) end.
    assert (pending (ns n1)) as Hpend by done. destruct (ping_complete_pending SYS_PING_OK n1 Hpend).
    split; [apply (ping_complete_same SYS_PING_OK n1)|]. right. by split_and!.
  - case_if; [|by split; [|left]]. unfold send_icmp_echo_reply. rewrite send_icmp_ping. by split; [|left].
Qed.

(** C12: A frame completes a pending ping exactly with success, and only when it is the
    echo reply the ping waits for: an IPv4 packet to this host from the pinged address,
    whose headers fit into the frame, carrying an ICMP echo reply with the identifier and
    sequence number of the ping. No frame changes whom or what the ping is for. *)
Theorem process_frame_completes now m len n (p' := ping (ns (process_frame now m len n))) :
  is_u32 len → bytes_wf m → pending (ns n) →
  same_ping (ping (ns n)) p'
  ∧ (completed p' = 0 ∨ completed p' = 1 ∧ result p' = SYS_PING_OK ∧ stage (ping (ns n)) = NET_PING_STAGE_ECHO
                        ∧ echo_reply_for (ns n) m len).
Proof.
  intros Hl Hm [Ha Hc]. unfold p', process_frame. change sizeof_net_eth_header with 14.
  case_if; [by split; [|left]|]. case_if; [by split; [|left]|]. case_if.
  { destruct (process_arp_ping now m 14 (len ⊟ 14) n) as (?&->&_). split; [done|by left]. }
  case_if; [|by split; [|left]]. unfold process_ipv4. change sizeof_net_ipv4_header with 20.
  unfold is_u32 in Hl. rewrite u32_small by lia.
  assert (0 ≤ Z.land (m 14) 15 ≤ 15) as Hh by (change 15 with (Z.ones 4) at 1 2; rewrite Z.land_ones by lia; word_lia).
  rewrite (u32_small (Z.land (m 14) 15 * 4)) by lia.
  do 5 (case_if; [by split; [|left]|]). case_if; [|by split; [|left]]. unfold process_icmp. change sizeof_net_icmp_echo with 8.
  case_if; [by split; [|left]|]. pose proof (get16_range m 16 Hm) as H16. unfold is_u16 in H16.
  change (14 + 2) with 16 in *. rewrite (u32_small (get16 m 16 - _)) in * by lia.
  match goal with |- context [icmp_received now ?ty ?src ?sm ?id ?sq ?pay ?pl n] =>
    destruct (icmp_received_ping now ty src sm id sq pay pl n) as [Hs [->|(_&->&->&->&Ht&Hsrc&Hid&Hsq)]] end;
    (split; [done|]); [by left|right].
  split_and!; [done..|]. unfold echo_reply_for.
  rewrite !negb_false_iff in *. split_and!; try done; lia.
Qed.

(** The echo reply that a pending ping waits for completes it. *)
Lemma process_frame_reply now m len n (p' := ping (ns (process_frame now m len n))) :
  is_u32 len → bytes_wf m → pending (ns n) → stage (ping (ns n)) = NET_PING_STAGE_ECHO → echo_reply_for (ns n) m len →
  completed p' = 1 ∧ result p' = SYS_PING_OK.
Proof.
  intros Hl Hm [Ha Hc] Hst (Hlen&Hmac&Htype&Hver&Hhl&[Htl1 Htl2]&Hdst&Hproto&Hsrc&Hrep&Hid&Hsq).
  pose proof (get16_range m 16 Hm) as H16. unfold is_u16, is_u32 in *.
  assert (0 ≤ Z.land (m 14) 15 ≤ 15) as Hh by (change 15 with (Z.ones 4) at 1 2; rewrite Z.land_ones by lia; word_lia).
  unfold p', process_frame. change sizeof_net_eth_header with 14. rewrite (proj2 (Z.ltb_ge len 14)) by lia.
  assert (negb (mac_equal (get_mac m 0) (mac (ns n))) && negb (mac_is_broadcast (get_mac m 0)) = false) as ->
    by (destruct Hmac as [->| ->]; [done|by rewrite andb_false_r]).
  rewrite Htype. change (NET_ETH_TYPE_IPV4 =? NET_ETH_TYPE_ARP) with false. rewrite Z.eqb_refl. cbv iota.
  unfold process_ipv4. change sizeof_net_ipv4_header with 20. cbv zeta. change (14 + 2) with 16. change (14 + 16) with 30. change (14 + 9) with 23.
  rewrite (u32_small (len - 14)), (u32_small (Z.land (m 14) 15 * 4)) by lia.
  rewrite Hver, Hdst, Hproto, !Z.eqb_refl. cbn [negb].
  rewrite (proj2 (Z.ltb_ge (len - 14) 20)), (proj2 (Z.ltb_ge _ 20)), (proj2 (Z.ltb_ge (len - 14) _)),
    (proj2 (Z.ltb_ge (get16 m 16) _)), (proj2 (Z.ltb_ge (len - 14) _)) by lia. cbn [orb].
  unfold process_icmp. change sizeof_net_icmp_echo with 8. change (14 + 12) with 26. rewrite (u32_small (get16 m 16 - _)) by lia.
  rewrite (proj2 (Z.ltb_ge _ 8)) by lia. unfold icmp_received. cbv zeta. rewrite Hrep, Hsrc, Hid, Hsq, Hst, Hc, !Z.eqb_refl.
  assert (truthy (active (ping (ns n))) = true) as -> by (unfold truthy; by rewrite (proj2 (Z.eqb_neq _ _) Ha)).
  rewrite bool_decide_true by done. cbn [andb]. by apply ping_complete_pending.
Qed.

(** Among the frames that a poll takes from the card is the echo reply that the ping waits for. *)
Fixpoint reply_arrives (budget : nat) (now : Z) (frame : carray Z) n : Prop :=
  match budget with
  | O => False
  | S budget =>
      let '(r, frame, d) := e1000_receive frame NET_FRAME_BUFFER_BYTES (nic n) in
      if r =? 0 then False
      else if r <? 0 then reply_arrives budget now frame (with_nic d n)
      else
        let n := upd (λ s, with_rx (rx_packets s ⊞ 1) s) (with_nic d n) in
        (pending (ns n) ∧ stage (ping (ns n)) = NET_PING_STAGE_ECHO ∧ echo_reply_for (ns n) frame (u32 r))
        ∨ reply_arrives budget now frame (process_frame now frame (u32 r) n)
  end.

(** ** Deadlines *)

(** A ping that has ended stays as it ended until its owner asks. *)
Definition keeps_end (p p' : net_ping_state) : Prop :=
  same_ping p p' ∧ (completed p ≠ 0 → completed p' = completed p ∧ result p' = result p).

#[local] Instance keeps_end_preorder : PreOrder keeps_end.
Proof.
  split; [by intros p|]. intros p q r [Hs1 H1] [Hs2 H2]. split; [by transitivity q|].
  intros Hp. destruct (H1 Hp) as [Hc Hr]. destruct H2 as [Hc2 Hr2]; [congruence|]. split; congruence.
Qed.

Lemma process_frame_keeps now m len n : keeps_end (ping (ns n)) (ping (ns (process_frame now m len n))).
Proof.
  unfold process_frame. do 2 (case_if; [done|]). case_if.
  { destruct (process_arp_ping now m sizeof_net_eth_header (len ⊟ sizeof_net_eth_header) n) as (?&?&?). by split. }
  case_if; [|done]. unfold process_ipv4. do 5 (case_if; [done|]). case_if; [|done].
  unfold process_icmp. case_if; [done|].
  match goal with |- context [icmp_received now ?ty ?src ?sm ?id ?sq ?pay ?pl n] =>
    destruct (icmp_received_ping now ty src sm id sq pay pl n) as [Hs Hc] end.
  split; [done|]. intros Hne. destruct Hc as [->|([_ ?]&_)]; [done|lia].
Qed.

Lemma ping_send_ping n r n' : ping_send n = Some (r, n') → ping (ns n') = ping (ns n).
Proof.
  intros Hsend. assert (ping (ns (default (0, n) (ping_send n)).2) = ping (ns n)) as Hp; [|by rewrite Hsend in Hp].
  unfold ping_send. destruct (stage _); [done|apply send_frame_ping|].
  case_if; [apply send_icmp_ping|done].
Qed.

Lemma drive_ping_keeps now n : keeps_end (ping (ns n)) (ping (ns (drive_ping now n))).
Proof.
  unfold drive_ping. destruct ((active (ping (ns n)) =? 0) || _) eqn:Ea; [done|]. zbool.
  case_if; [split; [apply (ping_complete_same SYS_PING_ERR_TIMEOUT (log_net _ _ _ _ _ n))|done]|]. case_if; [done|].
  destruct (ping_send n) as [[r n']|] eqn:Es; [|done]. apply ping_send_ping in Es. case_if; [by rewrite Es|].
  split; cbn; rewrite Es; done.
Qed.

Lemma poll_loop_keeps budget now frame n : keeps_end (ping (ns n)) (ping (ns (poll_loop budget now frame n))).
Proof.
  revert frame n. induction budget as [|budget IH]; intros frame n; cbn [poll_loop]; [done|].
  destruct (e1000_receive _ _ _) as [[r frame'] d]. case_if; [done|]. case_if; [apply (IH frame' (with_nic d n))|].
  etransitivity; [|apply IH]. exact (process_frame_keeps now frame' (u32 r) (upd (λ s, with_rx (rx_packets s ⊞ 1) s) (with_nic d n))).
Qed.

Definition expired (now : Z) (p : net_ping_state) : Prop := 0 ≤ i32 (now ⊟ deadline_tick p).

Lemma drive_ping_expired now n :
  active (ping (ns n)) ≠ 0 → expired now (ping (ns n)) → completed (ping (ns (drive_ping now n))) ≠ 0.
Proof.
  intros Ha He. destruct (decide (completed (ping (ns n)) = 0)) as [Hc|Hc].
  - unfold drive_ping. rewrite Hc, (proj2 (Z.eqb_neq _ _) Ha), (proj2 (Z.leb_le _ _) He). change (truthy 0) with false. cbn [orb].
    set (n1 := log_net _ _ _ _ _ n). destruct (ping_complete_pending SYS_PING_ERR_TIMEOUT n1) as [-> _]; done.
  - destruct (drive_ping_keeps now n) as [_ Hk]. destruct (Hk Hc) as [-> _]. done.
Qed.

Lemma poll_loop_reply `{!NetDeviceLaws D} budget now frame n (p' := ping (ns (poll_loop budget now frame n))) :
  bytes_wf frame → reply_arrives budget now frame n → completed p' = 1 ∧ result p' = SYS_PING_OK.
Proof.
  unfold p'. clear p'. revert frame n. induction budget as [|budget IH]; intros frame n Hf; cbn [poll_loop reply_arrives]; [done|].
  destruct (e1000_receive _ _ _) as [[r frame'] d] eqn:Er. pose proof (receive_wf _ _ _ _ _ _ Er Hf) as Hf'.
  case_if; [done|]. case_if; [by apply IH|]. cbv zeta. set (n1 := upd _ (with_nic d n)). intros [(Hp&Hst&Hr)|H]; [|by apply IH].
  destruct (process_frame_reply now frame' (u32 r) n1) as [Hc Hres]; [apply u32_range|done..|].
  destruct (poll_loop_keeps budget now frame' (process_frame now frame' (u32 r) n1)) as [_ Hk].
  rewrite Hc, Hres in Hk. apply Hk. done.
Qed.

(** A poll that takes the echo reply from the card ends the ping with success, even after its deadline. *)
Lemma net_poll_reply `{!NetDeviceLaws D} now n :
  ready (ns n) ≠ 0 → reply_arrives 8 now (λ _, 0) n →
  same_ping (ping (ns n)) (ping (ns (net_poll now n))) ∧
  completed (ping (ns (net_poll now n))) = 1 ∧ result (ping (ns (net_poll now n))) = SYS_PING_OK.
Proof.
  intros Hr Ha. unfold net_poll. rewrite (proj2 (Z.eqb_neq _ _) Hr).
  destruct (poll_loop_keeps 8 now (λ _, 0) n) as [Hs _]. destruct (poll_loop_reply 8 now (λ _, 0) n) as [Hc Hres]; [done..|].
  set (n1 := poll_loop _ _ _ _) in *. clearbody n1. destruct (drive_ping_keeps now n1) as [Hs1 Hk].
  split; [by transitivity (ping (ns n1))|]. rewrite Hc, Hres in Hk. by apply Hk.
Qed.

(** A poll at or after the deadline of a ping ends it. *)
Lemma net_poll_expired now n :
  ready (ns n) ≠ 0 → active (ping (ns n)) ≠ 0 → expired now (ping (ns n)) →
  same_ping (ping (ns n)) (ping (ns (net_poll now n))) ∧ completed (ping (ns (net_poll now n))) ≠ 0.
Proof.
  intros Hr Ha He. unfold net_poll. rewrite (proj2 (Z.eqb_neq _ _) Hr).
  destruct (poll_loop_keeps 8 now (λ _, 0) n) as [Hs _]. set (n1 := poll_loop _ _ _ _) in *. clearbody n1.
  assert (active (ping (ns n1)) ≠ 0) as Ha1 by (by destruct Hs as (->&_)).
  assert (expired now (ping (ns n1))) as He1 by (unfold expired in *; by destruct Hs as (_&_&_&_&->&_)).
  split; [|by apply drive_ping_expired]. etransitivity; [done|apply drive_ping_keeps].
Qed.

End completion.

(** C14: Every ping of a reachable network stack ends by its deadline: a poll at or after it
    leaves the ping finished, with success or a timeout, and its owner's next question takes
    the result and leaves no ping behind, so that another one can start. *)
Theorem ping_ends_by_deadline {D : Type} `{!NetDevice D} `{!NetDeviceLaws D} now (n : netsys D) (n' := net_poll now n) :
  net_reachable n → ready (ns n) ≠ 0 → active (ping (ns n)) ≠ 0 → expired now (ping (ns n)) →
  ∃ r, (r = SYS_PING_OK ∨ r = SYS_PING_ERR_TIMEOUT)
    ∧ net_ping4_poll_result (owner_pid (ping (ns n))) n' = (1, r, upd_ping (λ _, no_ping) n').
Proof.
  intros Hn Hr Ha He. destruct (net_poll_expired now n Hr Ha He) as [(Hact&Hown&_) Hc]. fold n' in Hact, Hown, Hc.
  assert (net_ok (ns n')) as Hok.
  { apply net_poll_ok. by apply reachable_net_ok. }
  destruct (no_ping_ok _ Hok) as [Hp|Hp]; [rewrite Hp in Hact; cbn in Hact; congruence|].
  destruct (po_result _ Hp) as [[? _]|[_ Hres]]; [done|]. exists (result (ping (ns n'))). split; [done|].
  unfold net_ping4_poll_result. rewrite (po_active _ Hp), Hown, Z.eqb_refl, (proj2 (Z.eqb_neq _ _) Hc). done.
Qed.

(** ** Two hosts *)

(** A card as a pair of queues of frames: an idealisation of [e1000.c], whose descriptor rings are not
    modelled, that loses nothing and never fails to send.  Like [e1000_transmit] it pads short frames
    with zeros to 60 bytes. *)
Record wire := { address : list Z; inbox : list (list Z); outbox : list (list Z) }.

Definition padded (frame : list Z) : list Z := frame ++ replicate (60 - length frame) 0.

Definition fill_buffer (f : carray Z) (bytes : list Z) : carray Z :=
  copy_bytes f 0 (λ i, nth (Z.to_nat i) bytes 0) 0 (Z.of_nat (length bytes)).

#[export] Instance wire_device : NetDevice wire := {|
  e1000_init w := (0, w);
  e1000_get_mac w := Some (address w);
  e1000_transmit frame w :=
    (Z.of_nat (length frame), {| address := address w; inbox := inbox w; outbox := outbox w ++ [padded frame] |});
  e1000_receive f capacity w :=
    match inbox w with
    | [] => (0, f, w)
    | x :: rest =>
        let w := {| address := address w; inbox := rest; outbox := outbox w |} in
        if capacity <? Z.of_nat (length x) then (-1, f, w) else (Z.of_nat (length x), fill_buffer f x, w)
    end;
|}.

(** The frames one host has sent arrive at the other. *)
Definition arrive (from to : netsys wire) : netsys wire :=
  with_nic {| address := address (nic to); inbox := outbox (nic from); outbox := [] |} to.

Lemma slice_nth (f : carray Z) k i : (i < k)%nat → nth i (slice f 0 k) 0 = f (Z.of_nat i).
Proof. intros. by rewrite (nth_lookup_Some _ _ _ _ (slice_lookup f 0 k i ltac:(done))). Qed.

Lemma fill_padded buf f (k : nat) : agrees (fill_buffer buf (padded (slice f 0 k))) f (Z.of_nat k).
Proof.
  intros i Hi. unfold fill_buffer, padded. rewrite copy_bytes_in by (rewrite length_app, slice_length; lia).
  rewrite app_nth1 by (rewrite slice_length; lia). rewrite slice_nth by lia. f_equal. lia.
Qed.

Lemma padded_length f (k : nat) : Z.of_nat (length (padded (slice f 0 k))) = Z.max 60 (Z.of_nat k).
Proof. unfold padded. rewrite length_app, length_replicate, slice_length. lia. Qed.

Lemma send_frame_inbox f len (n : netsys wire) : inbox (nic (send_frame f len n).2) = inbox (nic n).
Proof. unfold send_frame. cbn. by case_if. Qed.

Lemma process_frame_inbox now m len (n : netsys wire) : inbox (nic (process_frame now m len n)) = inbox (nic n).
Proof.
  unfold process_frame. do 2 (case_if; [done|]). case_if.
  { unfold process_arp. case_if; [done|]. unfold arp_received, send_arp_reply, send_arp.
    case_if; rewrite ?send_frame_inbox; by case_if. }
  case_if; [|done]. unfold process_ipv4. do 5 (case_if; [done|]). case_if; [|done]. unfold process_icmp. case_if; [done|].
  unfold icmp_received. case_if; [done|]. case_if; [|done]. unfold send_icmp_echo_reply, send_icmp. case_if; [done|].
  by rewrite send_frame_inbox.
Qed.

(** What the receive loop counts before it looks at a frame. *)
Definition received (n : netsys wire) : netsys wire :=
  upd (λ s, with_rx (rx_packets s ⊞ 1) s)
    (with_nic {| address := address (nic n); inbox := []; outbox := outbox (nic n) |} n).

Lemma received_host n : host (ns n) → host (ns (received n)).
Proof. by intros []. Qed.

(** A poll of a host at which the [k]-byte frame [f] has arrived. *)
Lemma poll_one now (n : netsys wire) f (k : nat) :
  ready (ns n) ≠ 0 → (k ≤ 1600)%nat → inbox (nic n) = [padded (slice f 0 k)] →
  ∃ m, agrees m f (Z.of_nat k)
    ∧ net_poll now n = drive_ping now (process_frame now m (Z.max 60 (Z.of_nat k)) (received n)).
Proof.
  intros Hr Hk Hin. eexists. split; [apply (fill_padded (λ _, 0))|]. unfold net_poll. rewrite (proj2 (Z.eqb_neq _ _) Hr). f_equal.
  cbn [poll_loop]. unfold e1000_receive at 1. cbn [wire_device]. rewrite Hin. rewrite padded_length.
  rewrite (proj2 (Z.ltb_ge NET_FRAME_BUFFER_BYTES _)) by (unfold NET_FRAME_BUFFER_BYTES; lia).
  rewrite (proj2 (Z.eqb_neq _ 0)), (proj2 (Z.ltb_ge _ 0)), u32_small by lia. fold (received n).
  set (n1 := process_frame _ _ _ (received n)). assert (inbox (nic n1) = []) as Hin1 by apply process_frame_inbox.
  unfold e1000_receive. cbn [wire_device]. rewrite Hin1. cbn [Z.eqb]. by destruct n1.
Qed.

(** The host after it has put a [k]-byte frame on the wire. *)
Definition sent (f : carray Z) (k : nat) (n : netsys wire) : netsys wire :=
  upd (λ s, with_tx (tx_packets s ⊞ 1) s)
    (with_nic {| address := address (nic n); inbox := inbox (nic n);
                 outbox := outbox (nic n) ++ [padded (slice f 0 k)] |} n).

Lemma send_frame_wire f (k : nat) n : (0 < k)%nat → send_frame f (Z.of_nat k) n = (Z.of_nat k, sent f k n).
Proof.
  intros Hk. unfold send_frame. cbn. rewrite slice_length, Nat2Z.id. by rewrite (proj2 (Z.ltb_lt 0 _)) by lia.
Qed.

Definition same_host (s s' : net_state) : Prop := ready s' = ready s ∧ mac s' = mac s ∧ ipv4_addr s' = ipv4_addr s.

Lemma same_host_host s s' : same_host s s' → host s → host s'.
Proof. intros (_&Em&Ei) []. split; by rewrite ?Em, ?Ei. Qed.

(** The frame [f] is what a host with the addresses of [s] has put on the wire. *)
Definition on_wire (n : netsys wire) (f : carray Z) (k : nat) : Prop := outbox (nic n) = [padded (slice f 0 k)].

Lemma on_wire_sent f k n : outbox (nic n) = [] → on_wire (sent f k n) f k.
Proof. intros Hout. unfold on_wire. cbn [sent upd nic with_nic outbox]. by rewrite Hout. Qed.

Lemma on_wire_upd_ping g n f k : on_wire n f k → on_wire (upd_ping g n) f k.
Proof. done. Qed.

(** The ping of [s] waits at stage [st] for the host [b], due to send at [due]. *)
Record waiting (s b : net_state) (pid deadline id due : Z) (st : net_ping_stage) : Prop := {
  w_active : active (ping s) = 1;
  w_pending : completed (ping s) = 0;
  w_owner : owner_pid (ping s) = pid;
  w_destination : destination_ipv4 (ping s) = ipv4_addr b;
  w_next_hop : next_hop_ipv4 (ping s) = ipv4_addr b;
  w_deadline : deadline_tick (ping s) = deadline;
  w_action : next_action_tick (ping s) = due;
  w_identifier : identifier (ping s) = id;
  w_sequence : echo_sequence (ping s) = 1;
  w_stage : stage (ping s) = st;
}.

(** A ping that is due sends its frame. *)
Lemma drive_ping_due now n b pid deadline id due st n' k :
  waiting (ns n) b pid deadline id due st → i32 (now ⊟ deadline) < 0 → 0 ≤ i32 (now ⊟ due) →
  ping_send n = Some (Z.of_nat k, n') → ping (ns n') = ping (ns n) →
  drive_ping now n
  = upd_ping (λ p, ping_at_stage (stage p) (attempts p ⊞ 1) (now ⊞ NET_PING_RETRY_TICKS) p) n'.
Proof.
  intros [Ha Hc _ _ _ Hd Hn _ _ _] Ht Hdue Hs Hp. unfold drive_ping. rewrite Ha, Hc, Hd, Hn, Hs.
  change ((1 =? 0) || truthy 0) with false. cbv iota.
  rewrite (proj2 (Z.leb_gt 0 _)), (proj2 (Z.ltb_ge (i32 (now ⊟ due)) 0)), (proj2 (Z.ltb_ge (Z.of_nat k) 0)) by lia. done.
Qed.

Section exchange.
Context (b : net_state) (pid deadline id : Z).

Lemma start_asks now timeout (a : netsys wire) (a1 := (net_ping4_start now pid (ipv4_addr b) timeout a).2) :
  ready (ns a) ≠ 0 → ¬ pending (ns a) → pid ≠ 0 → ipv4_addr b ≠ 0 →
  route_next_hop (ns a) (ipv4_addr b) = ipv4_addr b → arp_cache_matches (ns a) (ipv4_addr b) = false →
  0 ≤ now < 2147483648 → i32 (now ⊟ (now ⊞ ping_timeout timeout)) < 0 → outbox (nic a) = [] →
  same_host (ns a) (ns a1)
  ∧ waiting (ns a1) b pid (now ⊞ ping_timeout timeout) (next_ping_identifier (ns a)) (now ⊞ NET_PING_RETRY_TICKS) NET_PING_STAGE_ARP
  ∧ on_wire a1 (arp_frame (ns a) NET_ARP_REQUEST broadcast_mac (ipv4_addr b) zero_mac) 42.
Proof.
  intros Hr Hidle Hpid Hip Hroute Hcache Hnow Ht Hout. unfold a1, net_ping4_start.
  rewrite (proj2 (Z.eqb_neq _ _) Hr), (proj2 (Z.eqb_neq _ _) Hpid), (proj2 (Z.eqb_neq _ _) Hip). cbn [orb].
  replace (truthy (active (ping (ns a))) && (completed (ping (ns a)) =? 0)) with false.
  2: { symmetry. apply not_true_iff_false. intros [? ?]%andb_prop. zbool. by apply Hidle. }
  cbn [snd]. set (n1 := log_net _ _ _ _ _ _).
  assert (waiting (ns n1) b pid (now ⊞ ping_timeout timeout) (next_ping_identifier (ns a)) 0 NET_PING_STAGE_ARP) as Hw.
  { split; try done; cbn; [by rewrite Hroute..|]. by rewrite Hroute, Hcache. }
  rewrite (drive_ping_due now n1 _ _ _ _ _ _ (sent (arp_frame (ns a) NET_ARP_REQUEST broadcast_mac (ipv4_addr b) zero_mac) 42 n1) 42 Hw Ht).
  - destruct Hw. split_and!; [done|by split|by apply on_wire_upd_ping, on_wire_sent].
  - rewrite Z.sub_0_r, u32_small by lia. rewrite i32_small; lia.
  - unfold ping_send. destruct Hw as [_ _ _ _ Hh _ _ _ _ Hst]. rewrite Hst, Hh. done.
  - done.
Qed.

(** The host that is asked answers. *)
Lemma asked_answers now s (n : netsys wire) (n' := net_poll now n) :
  host s → host (ns n) → ready (ns n) ≠ 0 → active (ping (ns n)) = 0 → outbox (nic n) = [] →
  inbox (nic n) = [padded (slice (arp_frame s NET_ARP_REQUEST broadcast_mac (ipv4_addr (ns n)) zero_mac) 0 42)] →
  same_host (ns n) (ns n') ∧ active (ping (ns n')) = 0
  ∧ ∃ s', same_host (ns n) s' ∧ on_wire n' (arp_frame s' NET_ARP_REPLY (mac s) (ipv4_addr s) (mac s)) 42.
Proof.
  intros Hs Hn Hr Hidle Hout Hin. destruct (poll_one now n _ 42 Hr ltac:(lia) Hin) as (m&Hm&Hpoll). unfold n'. rewrite Hpoll.
  rewrite (process_frame_arp now m (Z.max 60 (Z.of_nat 42)) s NET_ARP_REQUEST broadcast_mac (ipv4_addr (ns n)) zero_mac (received n));
    [|done|done|apply Hn|done|by right|done|done].
  unfold arp_received. cbv zeta. set (n1 := log_net _ _ _ _ _ _).
  assert (active (ping (ns n1)) = 0) as Hidle1 by done. rewrite Hidle1. change (truthy 0) with false. cbn [andb].
  change (ipv4_addr (ns n1)) with (ipv4_addr (ns n)). rewrite !Z.eqb_refl. cbn [andb]. unfold send_arp_reply, send_arp.
  rewrite (send_frame_wire _ 42) by lia. cbn [snd]. unfold drive_ping. change (ping (ns (sent ?f 42 n1))) with (ping (ns n1)).
  rewrite Hidle1. change ((0 =? 0) || _) with true. cbv iota. split_and!; [done..|].
  exists (ns n1). split; [done|]. by apply on_wire_sent.
Qed.

(** The answer lets the ping send its echo request. *)
Lemma answered_pings now s due (n : netsys wire) (n' := net_poll now n) :
  host s → host (ns n) → ipv4_addr s = ipv4_addr b → ready (ns n) ≠ 0 → outbox (nic n) = [] →
  waiting (ns n) b pid deadline id due NET_PING_STAGE_ARP → 0 ≤ now < 2147483648 → i32 (now ⊟ deadline) < 0 →
  inbox (nic n) = [padded (slice (arp_frame s NET_ARP_REPLY (mac (ns n)) (ipv4_addr (ns n)) (mac (ns n))) 0 42)] →
  same_host (ns n) (ns n') ∧ waiting (ns n') b pid deadline id (now ⊞ NET_PING_RETRY_TICKS) NET_PING_STAGE_ECHO
  ∧ ∃ s', same_host (ns n) s'
    ∧ on_wire n' (icmp_frame s' NET_ICMP_ECHO_REQUEST (ipv4_addr b) (mac s) id 1 (Some (echo_payload, 0)) 8) 50.
Proof.
  intros Hs Hn Eb Hr Hout Hw Hnow Ht Hin. destruct (poll_one now n _ 42 Hr ltac:(lia) Hin) as (m&Hm&Hpoll). unfold n'. rewrite Hpoll.
  rewrite (process_frame_arp now m (Z.max 60 (Z.of_nat 42)) s NET_ARP_REPLY (mac (ns n)) (ipv4_addr (ns n)) (mac (ns n)) (received n));
    [|done|done|apply Hn|apply Hn|by left|done|done].
  unfold arp_received. cbv zeta. set (n1 := log_net _ _ _ _ _ _). destruct Hw as [Ha Hc Ho Hd Hh Hdl Hna Hid Hsq Hst].
  change (ping (ns n1)) with (ping (ns n)). rewrite Ha, Hc, Hst, Hh, Eb, (Z.eqb_refl (ipv4_addr b)).
  change (truthy 1 && (0 =? 0) && bool_decide (NET_PING_STAGE_ARP = NET_PING_STAGE_ARP) && true && (NET_ARP_REPLY =? NET_ARP_REPLY)) with true.
  change (NET_ARP_REPLY =? NET_ARP_REQUEST) with false. cbn [andb]. set (n2 := upd_ping _ n1).
  assert (waiting (ns n2) b pid deadline id 0 NET_PING_STAGE_ECHO) as Hw by (by split).
  set (f := icmp_frame (ns n2) NET_ICMP_ECHO_REQUEST (ipv4_addr b) (mac s) id 1 (Some (echo_payload, 0)) 8).
  rewrite (drive_ping_due now n2 _ _ _ _ _ _ (sent f 50 n2) 50 Hw Ht).
  - destruct Hw. split_and!; [done|by split|]. exists (ns n2). split; [done|]. by apply on_wire_upd_ping, on_wire_sent.
  - rewrite Z.sub_0_r, u32_small by lia. rewrite i32_small; lia.
  - unfold ping_send. destruct Hw as [_ _ _ -> -> _ _ -> -> ->]. unfold arp_cache_matches.
    change (arp_valid (ns n2)) with 1. change (arp_ipv4 (ns n2)) with (ipv4_addr s). change (arp_mac (ns n2)) with (mac s).
    rewrite Eb, Z.eqb_refl. done.
  - done.
Qed.

(** The pinged host echoes. *)
Lemma pinged_echoes now s (n : netsys wire) (n' := net_poll now n) :
  host s → host (ns n) → ready (ns n) ≠ 0 → active (ping (ns n)) = 0 → outbox (nic n) = [] → is_u16 id →
  inbox (nic n) = [padded (slice (icmp_frame s NET_ICMP_ECHO_REQUEST (ipv4_addr (ns n)) (mac (ns n)) id 1 (Some (echo_payload, 0)) 8) 0 50)] →
  ∃ s' m, same_host (ns n) s'
    ∧ on_wire n' (icmp_frame s' NET_ICMP_ECHO_REPLY (ipv4_addr s) (mac s) id 1 (Some (m, 42)) 8) 50.
Proof.
  intros Hs Hn Hr Hidle Hout Hid Hin. destruct (poll_one now n _ 50 Hr ltac:(lia) Hin) as (m&Hm&Hpoll). unfold n'. rewrite Hpoll.
  destruct (process_frame_icmp now m (Z.max 60 (Z.of_nat 50)) s NET_ICMP_ECHO_REQUEST id 1 echo_payload 0 8 (received n)) as [-> _];
    [done|by apply received_host|done|done|done|done|done|].
  unfold icmp_received. change (NET_ICMP_ECHO_REQUEST =? NET_ICMP_ECHO_REPLY) with false. cbn [andb]. cbv zeta. rewrite Z.eqb_refl.
  unfold send_icmp_echo_reply, send_icmp. change (16 <? 8) with false. cbv iota.
  rewrite (send_frame_wire _ 50) by lia. cbn [snd]. unfold drive_ping. change (ping (ns (sent ?f 50 (received n)))) with (ping (ns n)).
  rewrite Hidle. change ((0 =? 0) || _) with true. cbv iota. exists (ns (received n)), m. split; [done|].
  by apply on_wire_sent.
Qed.

(** The echo completes the ping. *)
Lemma echoed_succeeds now s m0 a0 due (n : netsys wire) (n' := net_poll now n) :
  host s → host (ns n) → ipv4_addr s = ipv4_addr b → ready (ns n) ≠ 0 → is_u16 id →
  waiting (ns n) b pid deadline id due NET_PING_STAGE_ECHO →
  inbox (nic n) = [padded (slice (icmp_frame s NET_ICMP_ECHO_REPLY (ipv4_addr (ns n)) (mac (ns n)) id 1 (Some (m0, a0)) 8) 0 50)] →
  net_ping4_poll_result pid n' = (1, SYS_PING_OK, upd_ping (λ _, no_ping) n').
Proof.
  intros Hs Hn Eb Hr Hid Hw Hin. destruct (poll_one now n _ 50 Hr ltac:(lia) Hin) as (m&Hm&Hpoll). unfold n'. rewrite Hpoll.
  destruct (process_frame_icmp now m (Z.max 60 (Z.of_nat 50)) s NET_ICMP_ECHO_REPLY id 1 m0 a0 8 (received n)) as [-> _];
    [done|by apply received_host|done|done|done|done|done|].
  destruct Hw as [Ha Hc Ho Hd Hh Hdl Hna Hi Hsq Hst].
  unfold icmp_received. cbv zeta. change (ping (ns (received n))) with (ping (ns n)). rewrite Ha, Hc, Hst, Hd, Eb, Hi, Hsq, !Z.eqb_refl.
  change (true && truthy 1 && true && bool_decide (NET_PING_STAGE_ECHO = NET_PING_STAGE_ECHO) && true && true && true) with true. cbv iota.
  set (n1 := log_net _ _ _ _ _ _).
  assert (pending (ns n1)) as Hpend by (split; [change (active (ping (ns n)) ≠ 0); lia|done]).
  destruct (ping_complete_pending SYS_PING_OK n1 Hpend) as [Hcc Hrr]. pose proof (ping_complete_same SYS_PING_OK n1) as (Hact&Hown&_).
  set (n2 := ping_complete _ _) in *. clearbody n2.
  assert (drive_ping now n2 = n2) as ->. { unfold drive_ping. rewrite Hcc, orb_true_r. done. }
  unfold net_ping4_poll_result. rewrite Hact, Hown, Hcc, Hrr. change (active (ping (ns n1))) with (active (ping (ns n))).
  change (owner_pid (ping (ns n1))) with (owner_pid (ping (ns n))). rewrite Ha, Ho, Z.eqb_refl. done.
Qed.

End exchange.

(** C10: A ping between two hosts [a] and [b] that both run this code succeeds: the question for
    the hardware address, the answer, the echo request and the echo reply, each carried to the
    other host and handled by its next poll, end with the result [SYS_PING_OK] for the
    process that asked.  The conditions: both stacks are ready and well formed, neither host has a
    ping of its own under way, [b] is on the network of [a] (it is its own next hop), [a] has no hardware
    address of [b] cached and nothing in its outbox, the answer to the question comes before
    the deadline, and the deadline comes before tick 2^31 (a ping that starts later sends
    nothing, see [late_ping_sends_nothing]).  The card is the pair of queues [wire]. *)
Theorem ping_succeeds pid timeout t0 t1 t2 t3 t4 (a b : netsys wire)
    (a1 := (net_ping4_start t0 pid (ipv4_addr (ns b)) timeout a).2)
    (b1 := net_poll t1 (arrive a1 b)) (a2 := net_poll t2 (arrive b1 a1))
    (b2 := net_poll t3 (arrive a2 b1)) (a3 := net_poll t4 (arrive b2 a2)) :
  net_ok (ns a) → net_ok (ns b) → ready (ns a) ≠ 0 → ready (ns b) ≠ 0 → ¬ pending (ns a) → active (ping (ns b)) = 0 →
  pid ≠ 0 → ipv4_addr (ns b) ≠ 0 → route_next_hop (ns a) (ipv4_addr (ns b)) = ipv4_addr (ns b) →
  arp_cache_matches (ns a) (ipv4_addr (ns b)) = false → outbox (nic a) = [] →
  0 ≤ t0 ≤ t2 → t2 < t0 + ping_timeout timeout < 2147483648 →
  net_ping4_poll_result pid a3 = (1, SYS_PING_OK, upd_ping (λ _, no_ping) a3).
Proof.
  intros Ha Hb Hra Hrb Hidle Hidleb Hpid Hip Hroute Hcache Hout Ht Htt.
  assert (∀ t, t0 ≤ t ≤ t2 → i32 (t ⊟ (t0 ⊞ ping_timeout timeout)) < 0) as Hlate.
  { intros t Hx. rewrite (u32_small (t0 + _)) by lia. generalize dependent (ping_timeout timeout). intros T ?. unfold i32. case_if; word_lia. }
  destruct (start_asks (ns b) pid t0 timeout a) as (Sa1&Wa1&Oa1); try done; [lia|apply Hlate; lia|]. fold a1 in Sa1, Wa1, Oa1.
  destruct (asked_answers t1 (ns a) (arrive a1 b)) as (Sb1&Ib1&s1&Ss1&Ob1);
    [apply Ha|apply Hb|done|done|done|exact Oa1|]. fold b1 in Sb1, Ib1, Ob1.
  assert (host (ns a1)) as Ha1 by (apply (same_host_host (ns a)); [done|apply Ha]).
  assert (host s1) as Hs1 by (apply (same_host_host (ns b)); [done|apply Hb]).
  destruct Sa1 as (Ra1&Ma1&Ia1), Ss1 as (Rs1&Ms1&Is1).
  destruct (answered_pings (ns b) pid (t0 ⊞ ping_timeout timeout) (next_ping_identifier (ns a)) t2 s1 (t0 ⊞ NET_PING_RETRY_TICKS) (arrive b1 a1))
    as (Sa2&Wa2&s2&Ss2&Oa2); [done|done|by rewrite Is1|by change (ready (ns a1) ≠ 0); rewrite Ra1|done|exact Wa1|lia|apply Hlate; lia| |].
  { change (ns (arrive b1 a1)) with (ns a1). rewrite Ma1, Ia1. exact Ob1. }
  fold a2 in Sa2, Wa2, Oa2. destruct Sb1 as (Rb1&Mb1&Ipb1).
  assert (host s2) as Hs2 by (by apply (same_host_host (ns a1))).
  destruct (pinged_echoes (next_ping_identifier (ns a)) t3 s2 (arrive a2 b1)) as (s3&m3&Ss3&Ob2);
    [done|by apply (same_host_host (ns b)); [|apply Hb]|by change (ready (ns b1) ≠ 0); rewrite Rb1|done|done|apply Ha| |].
  { change (ns (arrive a2 b1)) with (ns b1). rewrite Ipb1, Mb1, <- Ms1. exact Oa2. }
  fold b2 in Ob2. destruct Ss2 as (Rs2&Ms2&Is2), Ss3 as (Rs3&Ms3&Is3), Sa2 as (Ra2&Ma2&Ia2).
  apply (echoed_succeeds (ns b) pid (t0 ⊞ ping_timeout timeout) (next_ping_identifier (ns a)) t4 s3 m3 42 (t2 ⊞ NET_PING_RETRY_TICKS) (arrive b2 a2));
    [|by apply (same_host_host (ns a1))|by rewrite Is3; change (ipv4_addr (ns b1) = ipv4_addr (ns b)); rewrite Ipb1|by change (ready (ns a2) ≠ 0); rewrite Ra2; change (ready (ns a1) ≠ 0); rewrite Ra1|apply Ha|exact Wa2|].
  - apply (same_host_host (ns b1)); [done|]. by apply (same_host_host (ns b)); [|apply Hb].
  - change (ns (arrive b2 a2)) with (ns a2). rewrite Ia2, Ma2, <- Is2, <- Ms2. exact Ob2.
Qed.

(** ** Late pings *)

Lemma drive_ping_late {D : Type} `{!NetDevice D} now (n : netsys D) :
  2147483648 ≤ now < 4294967296 → next_action_tick (ping (ns n)) = 0 →
  nic (drive_ping now n) = nic n ∧ next_action_tick (ping (ns (drive_ping now n))) = 0.
Proof.
  intros Hnow Ha. unfold drive_ping. case_if; [done|]. case_if.
  { split; [done|]. cbn. by case_if. }
  rewrite Ha, Z.sub_0_r, u32_small by lia. case_if; [done|]. exfalso. unfold i32 in *. rewrite u32_small in * by lia.
  rewrite (proj2 (Z.ltb_ge now 2147483648)) in * by lia. lia.
Qed.

(** A ping that is started when the tick counter has its top bit set sends nothing, at
    once or in any later poll before the counter wraps: the next action is due at tick 0,
    which the signed comparison takes to lie in the future.  The ping can only time out. *)
Theorem late_ping_sends_nothing {D : Type} `{!NetDevice D} now pid destination timeout (n : netsys D)
    (n' := (net_ping4_start now pid destination timeout n).2) :
  2147483648 ≤ now < 4294967296 → ready (ns n) ≠ 0 → pid ≠ 0 → destination ≠ 0 → ¬ pending (ns n) →
  active (ping (ns n')) = 1 ∧ nic n' = nic n ∧ ∀ later, now ≤ later < 4294967296 → nic (drive_ping later n') = nic n.
Proof.
  intros Hnow Hr Hp Hd Hidle. unfold n', net_ping4_start.
  rewrite (proj2 (Z.eqb_neq _ _) Hr), (proj2 (Z.eqb_neq _ _) Hp), (proj2 (Z.eqb_neq _ _) Hd). cbn [orb].
  replace (truthy (active (ping (ns n))) && (completed (ping (ns n)) =? 0)) with false.
  2: { symmetry. apply not_true_iff_false. intros [? ?]%andb_prop. zbool. by apply Hidle. }
  cbn [snd]. set (n1 := log_net _ _ _ _ _ _). destruct (drive_ping_late now n1 Hnow eq_refl) as [Hn Ha].
  split_and!; [|done|].
  - pose proof (drive_ping_keeps now n1) as [(->&_) _]. done.
  - intros later Hl. destruct (drive_ping_late later (drive_ping now n1) ltac:(lia) Ha) as [-> _]. done.
Qed.

(** ** Witnesses *)

(** A card that receives the same broadcast frame again and again. *)
Definition test_mac : list Z := [82; 84; 0; 18; 52; 86].

#[export] Instance chatty_card : NetDevice unit := {|
  e1000_init d := (0, d);
  e1000_get_mac _ := Some test_mac;
  e1000_transmit frame d := (Z.of_nat (length frame), d);
  e1000_receive f _ d := (20, fill_buffer f (replicate 20 255), d);
|}.

Lemma fill_buffer_bytes f l : Forall is_u8 l → bytes_wf f → bytes_wf (fill_buffer f l).
Proof. intros Hl Hf i. unfold fill_buffer, copy_bytes. case_if; [by apply nth_bytes|apply Hf]. Qed.

#[export] Instance chatty_card_laws : NetDeviceLaws unit.
Proof.
  split.
  - intros d m [= <-]. split; [done|]. by repeat constructor.
  - intros f capacity d r f' d' [= <- <- <-] Hf. apply fill_buffer_bytes; [by repeat constructor|done].
Qed.

Definition zero_net : net_state :=
  {| ready := 0; mac := zero_mac; ipv4_addr := 0; ipv4_netmask := 0; ipv4_gateway := 0; arp_valid := 0; arp_mac := zero_mac;
     arp_ipv4 := 0; rx_packets := 0; tx_packets := 0; next_ping_identifier := 0; ping := no_ping |}.

Definition chatty_net : netsys unit := (net_init 0 {| ns := zero_net; nic := tt; log := blank_trace |}).2.
Definition chatty_ping : netsys unit := (net_ping4_start 7 3 NET_QEMU_GATEWAY 5 chatty_net).2.

Lemma chatty_reachable : net_reachable chatty_ping.
Proof. apply nr_start; [done|]. apply nr_init. Qed.

Lemma net_reachable_ok_witness : net_ok (ns (net_poll 8 chatty_ping)).
Proof. apply net_reachable_ok. apply nr_poll, chatty_reachable. Defined.

Lemma ping_ends_by_deadline_witness :
  ∃ r, (r = SYS_PING_OK ∨ r = SYS_PING_ERR_TIMEOUT)
    ∧ net_ping4_poll_result 3 (net_poll 12 chatty_ping) = (1, r, upd_ping (λ _, no_ping) (net_poll 12 chatty_ping)).
Proof.
  exact (ping_ends_by_deadline 12 chatty_ping chatty_reachable ltac:(by vm_compute) ltac:(by vm_compute) ltac:(by vm_compute)).
Defined.

Lemma late_ping_sends_nothing_witness :
  nic (net_ping4_start 2147483650 3 NET_QEMU_GATEWAY 5 chatty_net).2 = nic chatty_net.
Proof.
  refine (proj1 (proj2 (late_ping_sends_nothing 2147483650 3 NET_QEMU_GATEWAY 5 chatty_net _ _ _ _ _))); [lia|by vm_compute|done|done|].
  intros [Ha _]. by vm_compute in Ha.
Defined.

(** The echo reply of the gateway to the ping of [chatty_net], and the frame that is not one. *)
Lemma process_frame_completes_witness :
  completed (ping (ns (process_frame 9 (fill_buffer (λ _, 0) (replicate 20 255)) 20 chatty_ping))) = 0
  ∨ echo_reply_for (ns chatty_ping) (fill_buffer (λ _, 0) (replicate 20 255)) 20.
Proof.
  destruct (process_frame_completes 9 (fill_buffer (λ _, 0) (replicate 20 255)) 20 chatty_ping) as [_ [H|(_&_&_&H)]];
    [done| |by vm_compute|by left|by right].
  by apply fill_buffer_bytes; [by repeat constructor|].
Defined.

Definition wire_host (m : list Z) (addr : Z) : netsys wire :=
  upd (λ s, {| ready := 1; mac := m; ipv4_addr := addr; ipv4_netmask := NET_QEMU_NETMASK; ipv4_gateway := NET_QEMU_GATEWAY;
               arp_valid := 0; arp_mac := zero_mac; arp_ipv4 := 0; rx_packets := 0; tx_packets := 0;
               next_ping_identifier := 1; ping := no_ping |})
    {| ns := zero_net; nic := {| address := m; inbox := []; outbox := [] |}; log := blank_trace |}.

Definition host_a : netsys wire := wire_host test_mac NET_QEMU_IPV4.
Definition host_b : netsys wire := wire_host [82; 85; 10; 0; 2; 2] NET_QEMU_GATEWAY.

Lemma wire_host_ok m addr : length m = 6%nat → Forall is_u8 m → is_u32 addr → net_ok (ns (wire_host m addr)).
Proof. intros. split; try done; [by left|split; [done|]; by repeat constructor|by left]. Qed.

Lemma ping_succeeds_witness :
  let a1 := (net_ping4_start 10 3 (ipv4_addr (ns host_b)) 0 host_a).2 in
  let b1 := net_poll 11 (arrive a1 host_b) in
  let a2 := net_poll 12 (arrive b1 a1) in
  let b2 := net_poll 13 (arrive a2 b1) in
  let a3 := net_poll 14 (arrive b2 a2) in
  (net_ping4_poll_result 3 a3).1 = (1, SYS_PING_OK).
Proof.
  intros a1 b1 a2 b2 a3.
  assert (net_ok (ns host_a) ∧ net_ok (ns host_b)) as [Ha Hb] by (split; apply wire_host_ok; try done; by repeat constructor).
  unfold a3, b2, a2, b1, a1.
  rewrite (ping_succeeds 3 0 10 11 12 13 14 host_a host_b Ha Hb); try done. by intros [].
Defined.

(** An echo request to the gateway. *)
Lemma icmp_frame_checksums_witness :
  let f := icmp_frame (ns host_a) NET_ICMP_ECHO_REQUEST NET_QEMU_GATEWAY [82; 85; 10; 0; 2; 2] 1 1 (Some (echo_payload, 0)) 8 in
  ones_sum (slice f 14 (Z.to_nat sizeof_net_ipv4_header)) = 65535 ∧
  ones_sum (slice f 34 (Z.to_nat (sizeof_net_icmp_echo + 8))) = 65535 ∧
  checksum16 f 14 sizeof_net_ipv4_header = 0 ∧ checksum16 f 34 (sizeof_net_icmp_echo + 8) = 0.
Proof.
  apply icmp_frame_checksums; [apply wire_host_ok; [done|by repeat constructor|done]|by repeat constructor|done|done|].
  intros i Hi. apply nth_bytes. by repeat constructor.
Defined.

Lemma process_frame_in_bounds_witness :
  process_frame 9 (λ _, 255) 20 chatty_ping = process_frame 9 (λ i, if i <? 20 then 255 else 0) 20 chatty_ping.
Proof.
  apply process_frame_in_bounds; [done|]. intros i Hi. cbv beta. by rewrite (proj2 (Z.ltb_lt i 20)) by lia.
Defined.
