(* ===== verification/Paging.v ===== *)
(** * Page tables ([src/kernel/paging.c])

    Two-level 32-bit page tables kept in physical memory.  [vm] is physical
    memory as bytes, the frame allocator, the two static variables of the file,
    and the two control registers it uses.  A page directory or table is the
    array of 32-bit little-endian words in its frame.  The code reaches frames
    through the direct map at [KERNEL_DIRECT_MAP_BASE]; the model reads and writes
    the frame itself.  The TLB is not modelled: [invlpg] has no effect here. *)

From S2P Require Import Prelude Mem Palloc.

Local Open Scope Z_scope.
Local Open Scope c_scope.

Definition PAGE_PRESENT : Z := 1.
Definition PAGE_WRITABLE : Z := 2.
Definition PAGE_USER : Z := 4.
Definition PAGE_CACHE_DISABLE : Z := 16.
Definition PAGE_COPY_ON_WRITE : Z := 512.
Definition KERNEL_DIRECT_MAP_BASE : Z := 3221225472.
Definition KERNEL_MMIO_BASE : Z := 4143972352.
Definition KERNEL_MMIO_LIMIT : Z := 4152360960.
Definition KERNEL_HEAP_BASE : Z := 4160749568.
Definition KERNEL_HEAP_LIMIT : Z := 4227858432.
Definition KERNEL_STACK_BASE : Z := 4227858432.
Definition KERNEL_RECURSIVE_PT_BASE : Z := 4290772992.
Definition KERNEL_STACK_LIMIT : Z := KERNEL_RECURSIVE_PT_BASE.
Definition USER_VIRT_BASE : Z := 4194304.
Definition USER_VIRT_LIMIT : Z := KERNEL_DIRECT_MAP_BASE.

Definition PAGE_DIRECTORY_ENTRIES : Z := 1024.
Definition PAGE_TABLE_ENTRIES : Z := 1024.
Definition PAGE_FLAGS : Z := Z.lor PAGE_PRESENT PAGE_WRITABLE.
Definition PAGE_TABLE_SPAN : Z := PAGE_TABLE_ENTRIES * PAGE_SIZE.
Definition RECURSIVE_DIRECTORY_INDEX : Z := 1023.
Definition DIRECT_MAP_DIRECTORY_INDEX : Z := 768.
Definition MMIO_DIRECTORY_INDEX_START : Z := Z.shiftr KERNEL_MMIO_BASE 22.
Definition MMIO_DIRECTORY_INDEX_END : Z := Z.shiftr KERNEL_MMIO_LIMIT 22.
Definition HEAP_DIRECTORY_INDEX_START : Z := Z.shiftr KERNEL_HEAP_BASE 22.
Definition HEAP_DIRECTORY_INDEX_END : Z := Z.shiftr KERNEL_HEAP_LIMIT 22.
Definition STACK_DIRECTORY_INDEX_START : Z := Z.shiftr KERNEL_STACK_BASE 22.
Definition STACK_DIRECTORY_INDEX_END : Z := Z.shiftr KERNEL_STACK_LIMIT 22.
Definition DIRECT_MAP_MAX_BYTES : Z :=
  (HEAP_DIRECTORY_INDEX_START - DIRECT_MAP_DIRECTORY_INDEX) * PAGE_TABLE_SPAN.
Definition KERNEL_SHARED_LOW_DIRECTORY_COUNT : Z := 1.
Definition PAGE_FRAME_MASK : Z := 4294963200.

Record vm := {
  pmem : carray Z;
  frames : palloc;
  kernel_page_directory_phys : Z;
  direct_map_limit : Z;
  cr3 : Z;
  paging_enabled : bool;
}.

Definition with_pmem (m : carray Z) (s : vm) : vm :=
  {| pmem := m; frames := frames s;
     kernel_page_directory_phys := kernel_page_directory_phys s;
     direct_map_limit := direct_map_limit s; cr3 := cr3 s;
     paging_enabled := paging_enabled s |}.
Definition with_frames (p : palloc) (s : vm) : vm :=
  {| pmem := pmem s; frames := p;
     kernel_page_directory_phys := kernel_page_directory_phys s;
     direct_map_limit := direct_map_limit s; cr3 := cr3 s;
     paging_enabled := paging_enabled s |}.
Definition with_kernel_directory (d : Z) (s : vm) : vm :=
  {| pmem := pmem s; frames := frames s; kernel_page_directory_phys := d;
     direct_map_limit := direct_map_limit s; cr3 := cr3 s;
     paging_enabled := paging_enabled s |}.
Definition with_direct_map_limit (l : Z) (s : vm) : vm :=
  {| pmem := pmem s; frames := frames s;
     kernel_page_directory_phys := kernel_page_directory_phys s;
     direct_map_limit := l; cr3 := cr3 s; paging_enabled := paging_enabled s |}.
(** [mov %cr3] *)
Definition paging_load_directory (d : Z) (s : vm) : vm :=
  {| pmem := pmem s; frames := frames s;
     kernel_page_directory_phys := kernel_page_directory_phys s;
     direct_map_limit := direct_map_limit s; cr3 := d;
     paging_enabled := paging_enabled s |}.
(** Sets the paging bit of [cr0]. *)
Definition paging_enable_bit (s : vm) : vm :=
  {| pmem := pmem s; frames := frames s;
     kernel_page_directory_phys := kernel_page_directory_phys s;
     direct_map_limit := direct_map_limit s; cr3 := cr3 s; paging_enabled := true |}.

Definition paging_alloc_page (s : vm) : Z * vm :=
  let r := palloc_alloc_page (frames s) in (r.1, with_frames r.2 s).

Definition paging_current_directory_phys (s : vm) : Z := cr3 s.

Definition align_up (value alignment : Z) : Z :=
  Z.land (value ⊞ alignment ⊟ 1) (not32 (alignment - 1)).

Definition page_directory_index (virtual_address : Z) : Z := Z.shiftr virtual_address 22.
Definition page_table_index (virtual_address : Z) : Z :=
  Z.land (Z.shiftr virtual_address 12) 1023.

(** [table[index]] of the directory or table in frame [table], and its update. *)
Definition entry_at (m : carray Z) (table index : Z) : Z := load32 m (table + 4 * index).
Definition set_entry (table index v : Z) (s : vm) : vm :=
  with_pmem (store32 (pmem s) (table + 4 * index) v) s.

Definition frame_of (entry : Z) : Z := Z.land entry PAGE_FRAME_MASK.

Definition zero_page (physical_address : Z) (s : vm) : vm :=
  with_pmem (zero_bytes (pmem s) physical_address PAGE_SIZE) s.
Definition copy_page_bytes (destination_physical source_physical : Z) (s : vm) : vm :=
  with_pmem (copy_bytes (pmem s) destination_physical (pmem s) source_physical PAGE_SIZE) s.

Definition paging_entry_flags (fl : Z) : Z := Z.lor fl PAGE_PRESENT.

(** [true] for success. *)
Fixpoint prepare_tables (n : nat) (page_directory index : Z) (s : vm) : bool * vm :=
  match n with
  | O => (true, s)
  | S n =>
      if truthy (Z.land (entry_at (pmem s) page_directory index) PAGE_PRESENT)
      then prepare_tables n page_directory (index + 1) s
      else
        let '(table_phys, s) := paging_alloc_page s in
        if table_phys =? 0 then (false, s)
        else
          let s := zero_page table_phys s in
          let s := set_entry page_directory index (Z.lor table_phys PAGE_FLAGS) s in
          prepare_tables n page_directory (index + 1) s
  end.

Definition paging_prepare_shared_tables (page_directory start_index end_index : Z) (s : vm)
    : bool * vm :=
  prepare_tables (Z.to_nat (end_index - start_index)) page_directory start_index s.

(** The inner loop of [paging_init], with its [break]. *)
Fixpoint fill_direct_table (n : nat) (page_table_phys directory_offset entry_index : Z)
    (s : vm) : vm :=
  match n with
  | O => s
  | S n =>
      let physical_address := directory_offset ⊞ (entry_index ⊠ PAGE_SIZE) in
      if direct_map_limit s <=? physical_address then s
      else fill_direct_table n page_table_phys directory_offset (entry_index + 1)
             (set_entry page_table_phys entry_index (Z.lor physical_address PAGE_FLAGS) s)
  end.

Fixpoint map_direct_tables (n : nat) (page_directory table_index : Z) (s : vm) : bool * vm :=
  match n with
  | O => (true, s)
  | S n =>
      let '(page_table_phys, s) := paging_alloc_page s in
      let directory_offset := table_index ⊠ PAGE_TABLE_SPAN in
      if page_table_phys =? 0 then (false, s)
      else
        let s := zero_page page_table_phys s in
        let s := fill_direct_table (Z.to_nat PAGE_TABLE_ENTRIES) page_table_phys
                   directory_offset 0 s in
        let s := set_entry page_directory table_index (Z.lor page_table_phys PAGE_FLAGS) s in
        let s := set_entry page_directory (DIRECT_MAP_DIRECTORY_INDEX + table_index)
                   (Z.lor page_table_phys PAGE_FLAGS) s in
        map_direct_tables n page_directory (table_index + 1) s
  end.

Definition paging_init (s : vm) : vm :=
  let s := with_direct_map_limit (align_up (palloc_managed_bytes (frames s)) PAGE_SIZE) s in
  if direct_map_limit s =? 0 then s
  else
    let s := if DIRECT_MAP_MAX_BYTES <? direct_map_limit s
             then with_direct_map_limit DIRECT_MAP_MAX_BYTES s else s in
    let page_table_count := align_up (direct_map_limit s) PAGE_TABLE_SPAN / PAGE_TABLE_SPAN in
    let '(dir, s) := paging_alloc_page s in
    let s := with_kernel_directory dir s in
    if dir =? 0 then s
    else
      let s := zero_page dir s in
      let '(ok, s) := map_direct_tables (Z.to_nat page_table_count) dir 0 s in
      if negb ok then s
      else
        let '(ok, s) := paging_prepare_shared_tables dir HEAP_DIRECTORY_INDEX_START
                          HEAP_DIRECTORY_INDEX_END s in
        if negb ok then s
        else
          let '(ok, s) := paging_prepare_shared_tables dir MMIO_DIRECTORY_INDEX_START
                            MMIO_DIRECTORY_INDEX_END s in
          if negb ok then s
          else
            let '(ok, s) := paging_prepare_shared_tables dir STACK_DIRECTORY_INDEX_START
                              STACK_DIRECTORY_INDEX_END s in
            if negb ok then s
            else
              let s := set_entry dir RECURSIVE_DIRECTORY_INDEX (Z.lor dir PAGE_FLAGS) s in
              paging_enable_bit (paging_load_directory dir s).

Definition paging_phys_to_virt (physical_address : Z) : Z :=
  KERNEL_DIRECT_MAP_BASE ⊞ physical_address.
Definition paging_virt_to_phys (virtual_address : Z) : Z :=
  virtual_address ⊟ KERNEL_DIRECT_MAP_BASE.

Definition copy_directory_entry (from to index : Z) (s : vm) : vm :=
  set_entry to index (entry_at (pmem s) from index) s.

Definition paging_create_address_space (s : vm) : Z * vm :=
  let '(directory_phys, s) := paging_alloc_page s in
  if directory_phys =? 0 then (0, s)
  else
    let s := zero_page directory_phys s in
    let kernel := kernel_page_directory_phys s in
    let s := for_range 0 KERNEL_SHARED_LOW_DIRECTORY_COUNT
               (copy_directory_entry kernel directory_phys) s in
    let s := for_range DIRECT_MAP_DIRECTORY_INDEX RECURSIVE_DIRECTORY_INDEX
               (copy_directory_entry kernel directory_phys) s in
    let s := set_entry directory_phys RECURSIVE_DIRECTORY_INDEX
               (Z.lor directory_phys PAGE_FLAGS) s in
    (directory_phys, s).

Definition release_directory_entry (kernel directory_phys index : Z) (s : vm) : vm :=
  let entry := entry_at (pmem s) directory_phys index in
  if negb (truthy (Z.land entry PAGE_PRESENT)) then s
  else if frame_of (entry_at (pmem s) kernel index) =? frame_of entry then s
  else
    let s := with_frames (palloc_free_page (frame_of entry) (frames s)) s in
    set_entry directory_phys index 0 s.

Definition paging_destroy_address_space (directory_phys : Z) (s : vm) : vm :=
  if (directory_phys =? 0) || (directory_phys =? kernel_page_directory_phys s) then s
  else
    let s := for_range 0 RECURSIVE_DIRECTORY_INDEX
               (release_directory_entry (kernel_page_directory_phys s) directory_phys) s in
    with_frames (palloc_free_page directory_phys (frames s)) s.

Definition paging_switch_directory (directory_phys : Z) (s : vm) : vm :=
  if directory_phys =? 0 then s
  else if cr3 s =? directory_phys then s
  else paging_load_directory directory_phys s.

(** ** Lookup *)

Definition paging_resolve_physical_in (directory_phys virtual_address : Z) (s : vm) : Z :=
  if directory_phys =? 0 then 0
  else
    let directory_entry := entry_at (pmem s) directory_phys (page_directory_index virtual_address) in
    if negb (truthy (Z.land directory_entry PAGE_PRESENT)) then 0
    else
      let page_entry := entry_at (pmem s) (frame_of directory_entry)
                          (page_table_index virtual_address) in
      if negb (truthy (Z.land page_entry PAGE_PRESENT)) then 0
      else frame_of page_entry.

(** [Some (physical address, flags)] for a return value of 0, [None] for -1. *)
Definition paging_lookup_page_in (directory_phys virtual_address : Z) (s : vm)
    : option (Z * Z) :=
  if directory_phys =? 0 then None
  else
    let directory_entry := entry_at (pmem s) directory_phys (page_directory_index virtual_address) in
    if negb (truthy (Z.land directory_entry PAGE_PRESENT)) then None
    else
      let page_entry := entry_at (pmem s) (frame_of directory_entry)
                          (page_table_index virtual_address) in
      if negb (truthy (Z.land page_entry PAGE_PRESENT)) then None
      else Some (frame_of page_entry, Z.land page_entry (not32 PAGE_FRAME_MASK)).

(** ** Mapping *)

Definition paging_map_page_in (directory_phys virtual_address physical_address fl : Z) (s : vm)
    : Z * vm :=
  if truthy (Z.land virtual_address (PAGE_SIZE - 1))
     || truthy (Z.land physical_address (PAGE_SIZE - 1)) then (-1, s)
  else
    let directory_index := page_directory_index virtual_address in
    let table_index := page_table_index virtual_address in
    if directory_phys =? 0 then (-1, s)
    else
      let directory_entry := entry_at (pmem s) directory_phys directory_index in
      let finish (s : vm) :=
        let table := frame_of (entry_at (pmem s) directory_phys directory_index) in
        (0, set_entry table table_index (Z.lor physical_address (paging_entry_flags fl)) s) in
      if negb (truthy (Z.land directory_entry PAGE_PRESENT)) then
        let '(page_table_phys, s) := paging_alloc_page s in
        let directory_flags := Z.lor PAGE_PRESENT PAGE_WRITABLE in
        if page_table_phys =? 0 then (-1, s)
        else
          let directory_flags := if truthy (Z.land fl PAGE_USER)
                                 then Z.lor directory_flags PAGE_USER else directory_flags in
          let s := zero_page page_table_phys s in
          finish (set_entry directory_phys directory_index
                    (Z.lor page_table_phys directory_flags) s)
      else if truthy (Z.land fl PAGE_USER)
              && negb (truthy (Z.land directory_entry PAGE_USER)) then
        if (directory_index <? KERNEL_SHARED_LOW_DIRECTORY_COUNT)
           || (DIRECT_MAP_DIRECTORY_INDEX <=? directory_index) then (-1, s)
        else finish (set_entry directory_phys directory_index
                       (Z.lor directory_entry PAGE_USER) s)
      else finish s.

Definition paging_map_page (virtual_address physical_address fl : Z) (s : vm) : Z * vm :=
  paging_map_page_in (paging_current_directory_phys s) virtual_address physical_address fl s.

Definition paging_unmap_page_in (directory_phys virtual_address : Z) (s : vm) : vm :=
  if (directory_phys =? 0) || truthy (Z.land virtual_address (PAGE_SIZE - 1)) then s
  else
    let directory_entry := entry_at (pmem s) directory_phys (page_directory_index virtual_address) in
    if negb (truthy (Z.land directory_entry PAGE_PRESENT)) then s
    else set_entry (frame_of directory_entry) (page_table_index virtual_address) 0 s.

Definition paging_unmap_page (virtual_address : Z) (s : vm) : vm :=
  paging_unmap_page_in (paging_current_directory_phys s) virtual_address s.

Definition paging_unmap_pages_in (directory_phys virtual_address page_count : Z) (s : vm) : vm :=
  for_range 0 page_count
    (λ index, paging_unmap_page_in directory_phys (virtual_address ⊞ (index ⊠ PAGE_SIZE))) s.

(** The loop of [paging_map_pages_in] over the pages not yet mapped. *)
Fixpoint map_pages (directory_phys virtual_address index : Z) (physical_pages : list Z)
    (fl : Z) (s : vm) : Z * vm :=
  match physical_pages with
  | [] => (0, s)
  | pa :: rest =>
      let '(r, s) := paging_map_page_in directory_phys
                       (virtual_address ⊞ (index ⊠ PAGE_SIZE)) pa fl s in
      if truthy r then (-1, paging_unmap_pages_in directory_phys virtual_address index s)
      else map_pages directory_phys virtual_address (index + 1) rest fl s
  end.

(** [physical_pages] with its count is a list; [None] is the null pointer. *)
Definition paging_map_pages_in (directory_phys virtual_address : Z)
    (physical_pages : option (list Z)) (fl : Z) (s : vm) : Z * vm :=
  match physical_pages with
  | None => (-1, s)
  | Some pages => map_pages directory_phys virtual_address 0 pages fl s
  end.

Definition paging_map_pages (virtual_address : Z) (physical_pages : option (list Z)) (fl : Z)
    (s : vm) : Z * vm :=
  paging_map_pages_in (paging_current_directory_phys s) virtual_address physical_pages fl s.
Definition paging_unmap_pages (virtual_address page_count : Z) (s : vm) : vm :=
  paging_unmap_pages_in (paging_current_directory_phys s) virtual_address page_count s.

Definition paging_range_present_in (directory_phys virtual_address page_count required_flags : Z)
    (s : vm) : bool :=
  match for_find 0 page_count (λ index,
    match paging_lookup_page_in directory_phys (virtual_address ⊞ (index ⊠ PAGE_SIZE)) s with
    | None => true
    | Some (_, page_flags) => negb (Z.land page_flags required_flags =? required_flags)
    end) with
  | Some _ => false
  | None => true
  end.

(** ** User ranges *)

(** [while (current_page < end_address) { if (!ok(current_page)) return 0; ... }] *)
Fixpoint user_pages_ok (fuel : nat) (ok : Z → bool) (current_page end_address : Z) : bool :=
  if current_page <? end_address then
    match fuel with
    | O => false
    | S fuel =>
        if ok current_page
        then user_pages_ok fuel ok (current_page ⊞ PAGE_SIZE) end_address else false
    end
  else true.

Definition PRESENT_USER : Z := Z.lor PAGE_PRESENT PAGE_USER.

Definition user_page_mapped (directory_phys : Z) (s : vm) (current_page : Z) : bool :=
  let directory_entry := entry_at (pmem s) directory_phys (page_directory_index current_page) in
  if negb (Z.land directory_entry PRESENT_USER =? PRESENT_USER) then false
  else
    let page_entry := entry_at (pmem s) (frame_of directory_entry) (page_table_index current_page) in
    Z.land page_entry PRESENT_USER =? PRESENT_USER.

Definition page_floor (virtual_address : Z) : Z :=
  Z.land virtual_address (not32 (PAGE_SIZE - 1)).

(** The fuel: a user range spans at most 2^20 pages. *)
Definition user_range_ok (ok : Z → bool) (directory_phys virtual_address length : Z) : bool :=
  if directory_phys =? 0 then false
  else if length =? 0 then true
  else
    let end_address := virtual_address ⊞ length in
    if end_address <? virtual_address then false
    else if (virtual_address <? USER_VIRT_BASE) || (USER_VIRT_LIMIT <? end_address) then false
    else user_pages_ok (Z.to_nat (end_address - page_floor virtual_address)) ok
           (page_floor virtual_address) end_address.

Definition paging_user_range_mapped_in (directory_phys virtual_address length : Z) (s : vm) : bool :=
  user_range_ok (user_page_mapped directory_phys s) directory_phys virtual_address length.

Definition user_page_writable (directory_phys : Z) (s : vm) (current_page : Z) : bool :=
  match paging_lookup_page_in directory_phys current_page s with
  | None => false
  | Some (_, page_flags) =>
      truthy (Z.land page_flags PAGE_USER)
      && truthy (Z.land page_flags (Z.lor PAGE_WRITABLE PAGE_COPY_ON_WRITE))
  end.

Definition paging_user_range_writable_in (directory_phys virtual_address length : Z) (s : vm) : bool :=
  user_range_ok (user_page_writable directory_phys s) directory_phys virtual_address length.

Definition paging_user_range_mapped (virtual_address length : Z) (s : vm) : bool :=
  paging_user_range_mapped_in (paging_current_directory_phys s) virtual_address length s.
Definition paging_user_range_writable (virtual_address length : Z) (s : vm) : bool :=
  paging_user_range_writable_in (paging_current_directory_phys s) virtual_address length s.

(** ** Copy on write *)

Definition COW_FLAGS : Z := Z.lor (Z.lor PAGE_PRESENT PAGE_USER) PAGE_COPY_ON_WRITE.

Definition paging_resolve_copy_on_write_in (directory_phys virtual_address : Z) (s : vm)
    : Z * vm :=
  let page_virtual := page_floor virtual_address in
  match paging_lookup_page_in directory_phys page_virtual s with
  | None => (-1, s)
  | Some (physical_page, page_flags) =>
      if negb (Z.land page_flags COW_FLAGS =? COW_FLAGS)
         || truthy (Z.land page_flags PAGE_WRITABLE) then (-1, s)
      else
        let writable_flags :=
          Z.land (Z.lor page_flags PAGE_WRITABLE) (not32 PAGE_COPY_ON_WRITE) in
        let refcount := palloc_page_refcount physical_page (frames s) in
        if refcount =? 0 then (-1, s)
        else if refcount =? 1 then
          let '(r, s) := paging_map_page_in directory_phys page_virtual physical_page
                           writable_flags s in
          if truthy r then (-1, s) else (0, s)
        else
          let '(new_page, s) := paging_alloc_page s in
          if new_page =? 0 then (-1, s)
          else
            let s := copy_page_bytes new_page physical_page s in
            let '(r, s) := paging_map_page_in directory_phys page_virtual new_page
                             writable_flags s in
            if truthy r then (-1, with_frames (palloc_free_page new_page (frames s)) s)
            else (0, with_frames (palloc_free_page physical_page (frames s)) s)
  end.

(** ** Entries *)

Create Rewrite HintDb paging.

Lemma aligned_low_bits pa k : pa mod PAGE_SIZE = 0 → 0 ≤ k < 12 → Z.testbit pa k = false.
Proof.
  intros Hm Hk. rewrite <- (Z.mod_pow2_bits_low pa 12) by lia.
  change (2 ^ 12) with PAGE_SIZE. rewrite Hm. apply Z.bits_0.
Qed.

Lemma low_mask x : 0 ≤ x → Z.land x (PAGE_SIZE - 1) = x mod PAGE_SIZE.
Proof. intros. change (PAGE_SIZE - 1) with (Z.ones 12). apply Z.land_ones. lia. Qed.

Lemma frame_of_floor e : is_u32 e → frame_of e = PAGE_SIZE * (e / PAGE_SIZE).
Proof.
  intros He. unfold frame_of. rewrite Z.mul_comm.
  change PAGE_SIZE with (2 ^ 12). rewrite <- Z.shiftr_div_pow2, <- Z.shiftl_mul_pow2 by lia.
  change PAGE_FRAME_MASK with (Z.shiftl (Z.ones 20) 12).
  apply Z.bits_inj'. intros n Hn. rewrite Z.land_spec, !Z.shiftl_spec by lia.
  destruct (decide (n < 12)); [rewrite !(Z.testbit_neg_r _ (n - 12)) by lia; apply andb_false_r|].
  rewrite Z.shiftr_spec, Z.sub_add, Z.testbit_ones by lia.
  destruct (decide (n < 32)).
  - rewrite (proj2 (Z.leb_le _ _)), (proj2 (Z.ltb_lt _ _)) by lia. apply andb_true_r.
  - by rewrite (testbit_above 32 e) by (unfold is_u32 in He; lia).
Qed.

Lemma frame_of_aligned e : is_u32 e → frame_of e mod PAGE_SIZE = 0.
Proof. intros. rewrite frame_of_floor, Z.mul_comm, Z.mod_mul by done. done. Qed.

Lemma frame_of_range e : is_u32 e → is_u32 (frame_of e).
Proof. intros. rewrite frame_of_floor by done. unfold PAGE_SIZE. word_lia. Qed.

Lemma flag_set e k : 0 ≤ k → truthy (Z.land e (Z.shiftl 1 k)) = Z.testbit e k.
Proof. intros. unfold truthy. rewrite land_pow2 by lia. apply negb_involutive. Qed.

Lemma present_bit e : truthy (Z.land e PAGE_PRESENT) = Z.testbit e 0.
Proof. apply (flag_set e 0). lia. Qed.
Lemma writable_bit e : truthy (Z.land e PAGE_WRITABLE) = Z.testbit e 1.
Proof. apply (flag_set e 1). lia. Qed.
Lemma user_bit e : truthy (Z.land e PAGE_USER) = Z.testbit e 2.
Proof. apply (flag_set e 2). lia. Qed.
Lemma cow_bit e : truthy (Z.land e PAGE_COPY_ON_WRITE) = Z.testbit e 9.
Proof. apply (flag_set e 9). lia. Qed.

#[export] Hint Rewrite present_bit writable_bit user_bit cow_bit : paging.

(** An entry is a frame address and twelve flag bits. *)
Lemma entry_add pa fl :
  pa mod PAGE_SIZE = 0 → 0 ≤ fl < PAGE_SIZE → Z.lor pa fl = pa + fl.
Proof.
  intros Hpa Hfl.
  assert (Z.land pa fl = 0) as H0.
  { apply Z.bits_inj'. intros n Hn. rewrite Z.land_spec, Z.bits_0.
    destruct (decide (n < 12)); [by rewrite aligned_low_bits by (done || lia)|].
    rewrite (testbit_above 12 fl) by (unfold PAGE_SIZE in *; lia). apply andb_false_r. }
  by rewrite Z.add_nocarry_lxor, Z.lxor_lor by done.
Qed.

Lemma entry_range pa fl :
  is_u32 pa → pa mod PAGE_SIZE = 0 → 0 ≤ fl < PAGE_SIZE → is_u32 (Z.lor pa fl).
Proof. intros. rewrite entry_add by done. unfold PAGE_SIZE in *. word_lia. Qed.

Lemma entry_frame pa fl :
  is_u32 pa → pa mod PAGE_SIZE = 0 → 0 ≤ fl < PAGE_SIZE → frame_of (Z.lor pa fl) = pa.
Proof.
  intros. rewrite frame_of_floor by (by apply entry_range). rewrite entry_add by done.
  unfold PAGE_SIZE in *. word_lia.
Qed.

Lemma entry_flags pa fl :
  is_u32 pa → pa mod PAGE_SIZE = 0 → 0 ≤ fl < PAGE_SIZE →
  Z.land (Z.lor pa fl) (not32 PAGE_FRAME_MASK) = fl.
Proof.
  intros. change (not32 PAGE_FRAME_MASK) with (PAGE_SIZE - 1).
  rewrite entry_add, low_mask by (done || (unfold PAGE_SIZE in *; word_lia)).
  unfold PAGE_SIZE in *. word_lia.
Qed.

Lemma entry_bit pa fl k :
  pa mod PAGE_SIZE = 0 → 0 ≤ k < 12 → Z.testbit (Z.lor pa fl) k = Z.testbit fl k.
Proof. intros. by rewrite Z.lor_spec, aligned_low_bits by done. Qed.

Lemma page_indices va :
  is_u32 va →
  page_directory_index va = va / PAGE_TABLE_SPAN ∧
  page_table_index va = va / PAGE_SIZE mod PAGE_TABLE_ENTRIES.
Proof.
  intros. unfold page_directory_index, page_table_index.
  rewrite !Z.shiftr_div_pow2 by lia. split; [done|].
  change 1023 with (Z.ones 10). by rewrite Z.land_ones by lia.
Qed.

Lemma page_indices_range va :
  is_u32 va →
  0 ≤ page_directory_index va < PAGE_DIRECTORY_ENTRIES ∧
  0 ≤ page_table_index va < PAGE_TABLE_ENTRIES.
Proof.
  intros. rewrite (proj1 (page_indices va ltac:(done))), (proj2 (page_indices va ltac:(done))).
  unfold PAGE_DIRECTORY_ENTRIES, PAGE_TABLE_SPAN, PAGE_TABLE_ENTRIES, PAGE_SIZE in *. word_lia.
Qed.

(** The two indices determine the page. *)
Lemma page_indices_inj va va' :
  is_u32 va → is_u32 va' → page_directory_index va = page_directory_index va' →
  page_table_index va = page_table_index va' → va / PAGE_SIZE = va' / PAGE_SIZE.
Proof.
  intros H H'. destruct (page_indices va H) as [-> ->], (page_indices va' H') as [-> ->].
  unfold PAGE_TABLE_SPAN, PAGE_TABLE_ENTRIES, PAGE_SIZE. word_lia.
Qed.

Section entries.
Implicit Types (s : vm) (t i v : Z).

Lemma entry_u32 s t i : bytes_wf (pmem s) → is_u32 (entry_at (pmem s) t i).
Proof. apply load32_range. Qed.

Lemma entry_set_same s t i v : is_u32 v → entry_at (pmem (set_entry t i v s)) t i = v.
Proof. apply load32_store32_same. Qed.

Lemma entry_set_other s t t' i i' v :
  t mod PAGE_SIZE = 0 → t' mod PAGE_SIZE = 0 → 0 ≤ i < 1024 → 0 ≤ i' < 1024 →
  (t, i) ≠ (t', i') → entry_at (pmem (set_entry t i v s)) t' i' = entry_at (pmem s) t' i'.
Proof.
  intros Ht Ht' Hi Hi' Hne. apply load32_store32_disj.
  destruct (decide (t = t')) as [->|]; [assert (i ≠ i') by congruence; lia|].
  unfold PAGE_SIZE in *. word_lia.
Qed.

(** A store to an entry stays inside its table. *)
Lemma set_entry_outside s t i v b :
  t mod PAGE_SIZE = 0 → 0 ≤ i < 1024 → b / PAGE_SIZE * PAGE_SIZE ≠ t →
  pmem (set_entry t i v s) b = pmem s b.
Proof. intros. apply store32_other. unfold PAGE_SIZE in *. word_lia. Qed.

Lemma zero_page_entry s t i : 0 ≤ i < 1024 → entry_at (pmem (zero_page t s)) t i = 0.
Proof.
  intros. apply (load_le_zero 4). intros b ?. apply zero_bytes_in. unfold PAGE_SIZE. lia.
Qed.

Lemma zero_page_outside s t b :
  t mod PAGE_SIZE = 0 → b / PAGE_SIZE * PAGE_SIZE ≠ t → pmem (zero_page t s) b = pmem s b.
Proof. intros. apply zero_bytes_out. unfold PAGE_SIZE in *. word_lia. Qed.

(** An entry reads the same wherever its frame does. *)
Lemma entry_ext (m m' : carray Z) t i :
  t mod PAGE_SIZE = 0 → 0 ≤ i < 1024 →
  (∀ b, b / PAGE_SIZE * PAGE_SIZE = t → m b = m' b) → entry_at m t i = entry_at m' t i.
Proof.
  intros Ht Hi H. apply load32_ext. intros b ?. apply H.
  unfold PAGE_SIZE in *. word_lia.
Qed.

Lemma set_entry_wf s t i v : bytes_wf (pmem s) → bytes_wf (pmem (set_entry t i v s)).
Proof. apply store_le_wf. Qed.

End entries.

(** ** Address spaces *)

Definition present (e : Z) : bool := Z.testbit e 0.

(** The frame of the page table that directory entry [i] points to. *)
Definition table_of (s : vm) (dir i : Z) : Z := frame_of (entry_at (pmem s) dir i).

Record vm_ok (s : vm) : Prop := {
  vm_bytes : bytes_wf (pmem s);
  vm_frames : palloc_ok (frames s);
}.

(** A frame that the allocator has handed out. *)
Definition held (s : vm) (pa : Z) : Prop :=
  is_u32 pa ∧ 0 < pa ∧ live_page (frames s) pa = true.

(** A directory: its own frame and the frames of its tables are held, and no
    table lies in the directory's frame (entry 1023 is the recursive one). *)
Record space_ok (s : vm) (dir : Z) : Prop := {
  space_dir : held s dir;
  space_tables : ∀ i, 0 ≤ i < RECURSIVE_DIRECTORY_INDEX →
    present (entry_at (pmem s) dir i) = true →
    held s (table_of s dir i) ∧ table_of s dir i ≠ dir;
}.

(** No other entry of the directory uses the table of entry [i]. *)
Definition own_table (s : vm) (dir i : Z) : Prop :=
  present (entry_at (pmem s) dir i) = true →
  ∀ j, 0 ≤ j < RECURSIVE_DIRECTORY_INDEX → j ≠ i →
    present (entry_at (pmem s) dir j) = true → table_of s dir j ≠ table_of s dir i.

Section spaces.
Implicit Types (s : vm) (dir va pa fl : Z).

Lemma held_aligned s pa : held s pa → pa mod PAGE_SIZE = 0.
Proof. intros (_&_&H). unfold live_page in H. by zbool. Qed.

Lemma lookup_eq s dir va :
  bytes_wf (pmem s) → dir ≠ 0 →
  paging_lookup_page_in dir va s =
    let de := entry_at (pmem s) dir (page_directory_index va) in
    let pe := entry_at (pmem s) (frame_of de) (page_table_index va) in
    if present de && present pe
    then Some (frame_of pe, Z.land pe (not32 PAGE_FRAME_MASK)) else None.
Proof.
  intros Hwf Hd. unfold paging_lookup_page_in, present. autorewrite with paging.
  rewrite (proj2 (Z.eqb_neq dir 0)) by done. simpl.
  destruct (Z.testbit (entry_at (pmem s) dir _) 0); simpl; [|done].
  by destruct (Z.testbit (entry_at (pmem s) (frame_of _) _) 0).
Qed.

Lemma resolve_lookup s dir va :
  paging_resolve_physical_in dir va s
  = match paging_lookup_page_in dir va s with Some (p, _) => p | None => 0 end.
Proof. unfold paging_resolve_physical_in, paging_lookup_page_in. repeat case_if; done. Qed.

(** A lookup depends only on the directory entry and the table it names. *)
Lemma lookup_same s s' dir va :
  bytes_wf (pmem s) → bytes_wf (pmem s') → dir ≠ 0 →
  entry_at (pmem s') dir (page_directory_index va)
    = entry_at (pmem s) dir (page_directory_index va) →
  (present (entry_at (pmem s) dir (page_directory_index va)) = true →
   entry_at (pmem s') (table_of s dir (page_directory_index va)) (page_table_index va)
   = entry_at (pmem s) (table_of s dir (page_directory_index va)) (page_table_index va)) →
  paging_lookup_page_in dir va s' = paging_lookup_page_in dir va s.
Proof.
  intros Hw Hw' Hd He Ht. rewrite !lookup_eq by done. simpl. rewrite He.
  destruct (present (entry_at (pmem s) dir _)) eqn:Hp; [|done]. simpl.
  unfold table_of in Ht. by rewrite Ht.
Qed.

(** Allocation, from the allocator's specification. *)
Lemma alloc_cases s :
  vm_ok s →
  (free_frames (frames s) = 0 ∧ paging_alloc_page s = (0, s)) ∨
  ∃ pa s', paging_alloc_page s = (pa, s') ∧ allocates (frames s) pa (frames s') ∧
    s' = with_frames (frames s') s ∧ vm_ok s' ∧ held s' pa ∧ ¬ held s pa ∧
    (∀ p, held s p → held s' p).
Proof.
  intros [Hw [Hinv H0]]. unfold paging_alloc_page.
  destruct (alloc_page_cases (frames s) Hinv H0) as [[? Hz]|[? Ha]].
  - left. split; [done|]. rewrite Hz. by destruct s.
  - right. eexists _, _. split; [reflexivity|]. simpl. split; [done|]. split; [done|].
    destruct Ha as (f&->&Hf&Hu&Hr&_&Hlim&Hg&Hinv'&H0').
    pose proof (inv_limit _ Hinv). pose proof MAX_PAGE_FRAMES_val.
    assert (f * PAGE_SIZE / PAGE_SIZE = f) as Hdiv by (apply Z.div_mul; done).
    unfold held, live_page; simpl. rewrite Hdiv, Z.mod_mul, Hlim by done.
    split; [by split|]. split_and!; [unfold PAGE_SIZE; word_lia|unfold PAGE_SIZE; lia| | |].
    + rewrite (proj2 (Z.ltb_lt f _)) by lia. simpl.
      unfold frame_refs in Hr. destruct (frame_is_used (palloc_alloc_page _).2 f); [done|lia].
    + rewrite Hu, !andb_false_r. by intros (_&_&?).
    + intros p (?&?&[[Hl1 Hl2]%andb_prop Hl3]%andb_prop). split_and!; [done..|].
      rewrite Hl1, Hl2. simpl. apply Z.ltb_lt in Hl2.
      assert (p / PAGE_SIZE ≠ f) as Hpf by congruence.
      assert (1 ≤ frame_refs (palloc_alloc_page (frames s)).2 (p / PAGE_SIZE)) as Hx.
      { rewrite (Hg _ Hpf). unfold frame_refs. rewrite Hl3.
        pose proof (inv_refs _ Hinv (p / PAGE_SIZE)) as Hy. rewrite Hl3 in Hy.
        apply Hy. unfold PAGE_SIZE in *. word_lia. }
      unfold frame_refs in Hx. destruct (frame_is_used (palloc_alloc_page _).2 (p / PAGE_SIZE)); [done|lia].
Qed.

(** Directory entry [i] has been given a table: [s1] differs from [s] in that
    entry and, when the table is new, in its frame, which is zeroed. *)
Record prepared s dir (i : Z) (s1 : vm) : Prop := {
  prep_ok : vm_ok s1;
  prep_held : ∀ p, held s p → held s1 p;
  prep_others : ∀ j, 0 ≤ j < 1024 → j ≠ i →
    entry_at (pmem s1) dir j = entry_at (pmem s) dir j;
  prep_present : present (entry_at (pmem s1) dir i) = true;
  prep_table : held s1 (table_of s1 dir i) ∧ table_of s1 dir i ≠ dir;
  prep_content : ∀ k, 0 ≤ k < 1024 →
    entry_at (pmem s1) (table_of s1 dir i) k
    = if present (entry_at (pmem s) dir i) then entry_at (pmem s) (table_of s dir i) k else 0;
  prep_fresh : if present (entry_at (pmem s) dir i)
    then table_of s1 dir i = table_of s dir i else ¬ held s (table_of s1 dir i);
  prep_frames : if present (entry_at (pmem s) dir i)
    then frames s1 = frames s else allocates (frames s) (table_of s1 dir i) (frames s1);
  prep_outside : ∀ b, b / PAGE_SIZE * PAGE_SIZE ≠ dir →
    b / PAGE_SIZE * PAGE_SIZE ≠ table_of s1 dir i → pmem s1 b = pmem s b;
  prep_regs : cr3 s1 = cr3 s ∧ kernel_page_directory_phys s1 = kernel_page_directory_phys s ∧
    direct_map_limit s1 = direct_map_limit s ∧ paging_enabled s1 = paging_enabled s;
}.

Lemma prepared_refl s dir i :
  vm_ok s → space_ok s dir → 0 ≤ i < RECURSIVE_DIRECTORY_INDEX →
  present (entry_at (pmem s) dir i) = true → prepared s dir i s.
Proof.
  intros Hok Hsp Hi Hp. split; rewrite ?Hp; auto. by apply (space_tables s dir Hsp).
Qed.

(** The branch that adds the user bit to a present directory entry. *)
Lemma prepared_user s dir i :
  vm_ok s → space_ok s dir → 0 ≤ i < RECURSIVE_DIRECTORY_INDEX →
  present (entry_at (pmem s) dir i) = true →
  prepared s dir i (set_entry dir i (Z.lor (entry_at (pmem s) dir i) PAGE_USER) s).
Proof.
  intros Hok Hsp Hi Hp. unfold RECURSIVE_DIRECTORY_INDEX in *.
  set (e := entry_at (pmem s) dir i) in *.
  assert (is_u32 e) as He by (apply entry_u32, Hok).
  assert (is_u32 (Z.lor e PAGE_USER)) as He' by (apply (lor_bound 32); done || lia).
  pose proof (held_aligned s dir (space_dir s dir Hsp)) as Hd.
  destruct (space_tables s dir Hsp i ltac:(done) Hp) as [Ht Htd].
  assert (frame_of (Z.lor e PAGE_USER) = frame_of e) as Hf.
  { unfold frame_of. rewrite Z.land_lor_distr_l. change (Z.land PAGE_USER _) with 0.
    apply Z.lor_0_r. }
  set (s1 := set_entry dir i (Z.lor e PAGE_USER) s).
  assert (table_of s1 dir i = table_of s dir i) as Ht1.
  { unfold table_of, s1. rewrite entry_set_same by done. apply Hf. }
  split; rewrite ?Ht1; fold e; rewrite ?Hp; auto.
  - split; [apply set_entry_wf|]; apply Hok.
  - intros j ??. apply entry_set_other; done || lia || congruence.
  - unfold s1. rewrite entry_set_same by done. unfold present in *.
    rewrite Z.lor_spec, Hp. done.
  - intros k ?. apply held_aligned in Ht. apply entry_set_other; done || lia || congruence.
  - intros b ??. apply set_entry_outside; done || lia.
Qed.

(** The branch that allocates a table. *)
Lemma prepared_fresh s s' dir i t fl :
  vm_ok s → space_ok s dir → 0 ≤ i < RECURSIVE_DIRECTORY_INDEX →
  present (entry_at (pmem s) dir i) = false →
  vm_ok s' → allocates (frames s) t (frames s') → held s' t → ¬ held s t → (∀ p, held s p → held s' p) →
  s' = with_frames (frames s') s → 0 ≤ fl < PAGE_SIZE → Z.testbit fl 0 = true →
  prepared s dir i (set_entry dir i (Z.lor t fl) (zero_page t s')).
Proof.
  intros Hok Hsp Hi Hp Hok' Ha Ht Hnt Hmono Hs' Hfl Hb. unfold RECURSIVE_DIRECTORY_INDEX in *.
  pose proof (held_aligned s dir (space_dir s dir Hsp)) as Hd.
  pose proof (held_aligned s' t Ht) as Hta. pose proof Ht as [Htu _].
  assert (t ≠ dir) as Htd by (intros ->; apply Hnt, Hsp).
  assert (is_u32 (Z.lor t fl)) as He by (by apply entry_range).
  set (s1 := set_entry dir i (Z.lor t fl) (zero_page t s')).
  assert (entry_at (pmem s1) dir i = Z.lor t fl) as Hent by (by apply entry_set_same).
  assert (table_of s1 dir i = t) as Ht1 by (unfold table_of; rewrite Hent; by apply entry_frame).
  assert (pmem s' = pmem s) as Hpm by (rewrite Hs'; done).
  split; rewrite ?Ht1, ?Hp; auto.
  - split; [|apply Hok']. apply set_entry_wf, zero_bytes_wf, Hok'.
  - intros j ??. unfold s1. rewrite entry_set_other by (done || lia || congruence).
    apply entry_ext; [done..|]. intros b Hb'. rewrite zero_page_outside by (done || congruence).
    by rewrite Hpm.
  - unfold present. rewrite Hent, entry_bit by (done || lia). done.
  - intros k ?. unfold s1. rewrite entry_set_other by (done || lia || congruence).
    by apply zero_page_entry.
  - intros b ??. unfold s1. rewrite set_entry_outside, zero_page_outside by (done || lia).
    by rewrite Hpm.
  - unfold s1. simpl. rewrite Hs'. done.
Qed.

Section prepared.
Context s dir i s1
  (Hok : vm_ok s) (Hsp : space_ok s dir) (Hi : 0 ≤ i < RECURSIVE_DIRECTORY_INDEX)
  (Hprep : prepared s dir i s1).

Lemma prepared_entry j :
  0 ≤ j < RECURSIVE_DIRECTORY_INDEX → j ≠ i →
  entry_at (pmem s1) dir j = entry_at (pmem s) dir j.
Proof. unfold RECURSIVE_DIRECTORY_INDEX. intros. apply Hprep; [lia|done]. Qed.

Lemma prepared_table_of j :
  0 ≤ j < RECURSIVE_DIRECTORY_INDEX → j ≠ i → table_of s1 dir j = table_of s dir j.
Proof. intros. unfold table_of. by rewrite prepared_entry. Qed.

Lemma prepared_space : space_ok s1 dir.
Proof.
  split; [apply Hprep, Hsp|]. intros j Hj. destruct (decide (j = i)) as [->|].
  - intros _. apply Hprep.
  - rewrite prepared_entry, prepared_table_of by done. intros Hp.
    destruct (space_tables s dir Hsp j Hj Hp). split; [by apply Hprep|done].
Qed.

(** A table that entry [j] had before is not the one entry [i] has now. *)
Lemma prepared_apart j :
  0 ≤ j < RECURSIVE_DIRECTORY_INDEX → j ≠ i →
  (own_table s dir i ∨ own_table s dir j) →
  present (entry_at (pmem s) dir j) = true → table_of s dir j ≠ table_of s1 dir i.
Proof.
  intros Hj Hne Hown Hpj Heq. pose proof (prep_fresh _ _ _ _ Hprep) as Hf.
  destruct (present (entry_at (pmem s) dir i)) eqn:Hpi.
  - rewrite Hf in Heq. destruct Hown as [Ho|Ho].
    + by apply (Ho Hpi j Hj Hne Hpj).
    + by apply (Ho Hpj i Hi ltac:(congruence) Hpi).
  - apply Hf. rewrite <- Heq. by apply (space_tables s dir Hsp j).
Qed.

Lemma prepared_own j : 0 ≤ j < RECURSIVE_DIRECTORY_INDEX → own_table s dir j → own_table s1 dir j.
Proof.
  intros Hj Hown Hpj k Hk Hkj Hpk. destruct (decide (j = i)) as [->|Hji].
  - rewrite prepared_table_of by done. rewrite prepared_entry in Hpk by done.
    apply prepared_apart; auto.
  - rewrite prepared_entry in Hpj by done. rewrite (prepared_table_of j) by done.
    destruct (decide (k = i)) as [->|Hki]; [apply not_eq_sym, prepared_apart; auto|].
    rewrite prepared_entry in Hpk by done. rewrite prepared_table_of by done. by apply Hown.
Qed.

(** Giving an entry a table maps nothing. *)
Lemma prepared_lookup va :
  own_table s dir i → is_u32 va → page_directory_index va < RECURSIVE_DIRECTORY_INDEX →
  paging_lookup_page_in dir va s1 = paging_lookup_page_in dir va s.
Proof.
  intros Hown Hva Hlt. pose proof (page_indices_range va Hva) as [Hr1 Hr2].
  pose proof Hok as [Hw _]. pose proof (prep_ok _ _ _ _ Hprep) as [Hw1 _].
  pose proof (space_dir s dir Hsp) as (_&Hd0&_).
  destruct (decide (page_directory_index va = i)) as [Heq|Hne].
  - rewrite !lookup_eq by (done || lia). cbv zeta. rewrite Heq.
    rewrite (prep_present _ _ _ _ Hprep).
    pose proof (prep_content _ _ _ _ Hprep (page_table_index va) ltac:(done)) as Hc.
    unfold table_of in Hc. rewrite Hc. by destruct (present (entry_at (pmem s) dir i)).
  - apply lookup_same; [done|done|lia| |].
    + apply prepared_entry; [lia|done].
    + intros Hp. destruct (space_tables s dir Hsp (page_directory_index va) ltac:(lia) Hp).
      apply entry_ext; [by apply (held_aligned s)|done|]. intros b Hb.
      apply (prep_outside _ _ _ _ Hprep); rewrite Hb; [done|].
      apply prepared_apart; [lia|auto..].
Qed.

End prepared.

(** What a successful [paging_map_page_in] does to the address space. *)
Record maps s dir va pa fl (s' : vm) : Prop := {
  maps_ok : vm_ok s';
  maps_space : space_ok s' dir;
  maps_held : ∀ p, held s p → held s' p;
  maps_own : ∀ j, 0 ≤ j < RECURSIVE_DIRECTORY_INDEX → own_table s dir j → own_table s' dir j;
  maps_page : paging_lookup_page_in dir va s' = Some (pa, Z.lor fl PAGE_PRESENT);
  maps_others : ∀ va', is_u32 va' → page_directory_index va' < RECURSIVE_DIRECTORY_INDEX →
    va' / PAGE_SIZE ≠ va / PAGE_SIZE →
    paging_lookup_page_in dir va' s' = paging_lookup_page_in dir va' s;
  maps_outside : ∀ b, b / PAGE_SIZE * PAGE_SIZE ≠ dir →
    b / PAGE_SIZE * PAGE_SIZE ≠ table_of s' dir (page_directory_index va) →
    pmem s' b = pmem s b;
  maps_dir : ∀ j, 0 ≤ j < 1024 → j ≠ page_directory_index va →
    entry_at (pmem s') dir j = entry_at (pmem s) dir j;
  maps_table : if present (entry_at (pmem s) dir (page_directory_index va))
    then table_of s' dir (page_directory_index va) = table_of s dir (page_directory_index va) ∧
         frames s' = frames s
    else ¬ held s (table_of s' dir (page_directory_index va)) ∧
         allocates (frames s) (table_of s' dir (page_directory_index va)) (frames s');
  maps_regs : cr3 s' = cr3 s ∧ kernel_page_directory_phys s' = kernel_page_directory_phys s ∧
    direct_map_limit s' = direct_map_limit s ∧ paging_enabled s' = paging_enabled s;
}.

(** The store of the page entry, after the directory entry has its table. *)
Lemma store_maps s dir va pa fl s1 :
  vm_ok s → space_ok s dir → is_u32 va →
  page_directory_index va < RECURSIVE_DIRECTORY_INDEX →
  own_table s dir (page_directory_index va) →
  is_u32 pa → pa mod PAGE_SIZE = 0 → 0 ≤ fl < PAGE_SIZE →
  prepared s dir (page_directory_index va) s1 →
  maps s dir va pa fl
    (set_entry (table_of s1 dir (page_directory_index va)) (page_table_index va)
       (Z.lor pa (paging_entry_flags fl)) s1).
Proof.
  intros Hok Hsp Hva Hlt Hown Hpa Hpm Hfl Hprep.
  pose proof (page_indices_range va Hva) as [Hr1 Hr2].
  set (i := page_directory_index va) in *. set (k := page_table_index va) in *.
  assert (0 ≤ i < RECURSIVE_DIRECTORY_INDEX) as Hi by lia.
  pose proof (prepared_space s dir i s1 Hsp Hprep) as Hsp1.
  pose proof (prepared_own s dir i s1 Hsp Hi Hprep) as Hown1.
  pose proof (prep_table _ _ _ _ Hprep) as [Ht Htd]. set (t := table_of s1 dir i) in *.
  pose proof (held_aligned _ _ Ht) as Hta.
  pose proof (held_aligned _ _ (space_dir _ _ Hsp1)) as Hda.
  pose proof (space_dir _ _ Hsp1) as (_&Hd0&_).
  assert (0 ≤ paging_entry_flags fl < PAGE_SIZE) as Hfl'
    by (apply (lor_bound 12); [lia|done|unfold PAGE_PRESENT; lia]).
  assert (is_u32 (Z.lor pa (paging_entry_flags fl))) as He by (by apply entry_range).
  set (s2 := set_entry t k _ s1).
  assert (∀ j, 0 ≤ j < 1024 → entry_at (pmem s2) dir j = entry_at (pmem s1) dir j) as Hdir
    by (intros; apply entry_set_other; done || congruence).
  assert (∀ j, 0 ≤ j < 1024 → table_of s2 dir j = table_of s1 dir j) as Htab
    by (intros; unfold table_of; by rewrite Hdir).
  assert (RECURSIVE_DIRECTORY_INDEX = 1023) as HR by done.
  assert (vm_ok s2) as Hok2 by (split; [apply set_entry_wf|]; apply Hprep).
  split.
  - done.
  - split; [apply Hsp1|]. intros j ?. rewrite Hdir, Htab by lia. by apply Hsp1.
  - apply Hprep.
  - intros j Hj Ho Hpj l Hl ? Hpl. rewrite Hdir in Hpj, Hpl by lia. rewrite !Htab by lia.
    by apply (Hown1 j Hj Ho Hpj).
  - rewrite lookup_eq by (apply Hok2 || lia). cbv zeta. fold i k.
    rewrite Hdir by lia. rewrite (prep_present _ _ _ _ Hprep).
    change (frame_of (entry_at (pmem s1) dir i)) with t.
    unfold s2. rewrite entry_set_same by done. unfold present.
    rewrite entry_bit by (done || lia). unfold paging_entry_flags in *.
    rewrite (Z.lor_spec fl PAGE_PRESENT 0), orb_true_r. simpl.
    by rewrite entry_frame, entry_flags by done.
  - intros va' Hva' Hlt' Hne. rewrite <- (prepared_lookup s dir i s1) by done.
    pose proof (page_indices_range va' Hva') as [Hr1' Hr2'].
    apply lookup_same; [apply Hprep|apply Hok2|lia|by apply Hdir|].
    intros Hp. apply entry_set_other; [done| |done..|].
    + apply (held_aligned s1). by apply (space_tables s1 dir Hsp1 (page_directory_index va') ltac:(lia) Hp).
    + intros [= Heq1 Heq2]. destruct (decide (page_directory_index va' = i)) as [Heq|Hn].
      * apply Hne, page_indices_inj; [done..|by rewrite <- Heq2].
      * apply (Hown1 i Hi Hown (prep_present _ _ _ _ Hprep) (page_directory_index va')
                 ltac:(lia) Hn Hp). by rewrite <- Heq1.
  - intros b Hb. fold i. rewrite Htab by lia. intros Hb'.
    unfold s2. rewrite set_entry_outside by (done || congruence).
    by apply Hprep.
  - intros j Hj Hji. rewrite Hdir by done. by apply Hprep.
  - fold i. rewrite Htab by lia. pose proof (prep_fresh _ _ _ _ Hprep) as Hf.
    pose proof (prep_frames _ _ _ _ Hprep) as Hf'.
    destruct (present (entry_at (pmem s) dir i)); by split.
  - apply Hprep.
Qed.

(** Why [paging_map_page_in] refuses. *)
Definition map_refused s dir va pa fl : Prop :=
  let e := entry_at (pmem s) dir (page_directory_index va) in
  va mod PAGE_SIZE ≠ 0 ∨ pa mod PAGE_SIZE ≠ 0 ∨
  (present e = false ∧ free_frames (frames s) = 0) ∨
  (Z.testbit fl 2 = true ∧ present e = true ∧ Z.testbit e 2 = false ∧
   (page_directory_index va < KERNEL_SHARED_LOW_DIRECTORY_COUNT ∨
    DIRECT_MAP_DIRECTORY_INDEX ≤ page_directory_index va)).

Lemma map_page_cases s dir va pa fl :
  vm_ok s → space_ok s dir → is_u32 va → is_u32 pa →
  page_directory_index va < RECURSIVE_DIRECTORY_INDEX →
  (map_refused s dir va pa fl ∧ paging_map_page_in dir va pa fl s = (-1, s)) ∨
  (va mod PAGE_SIZE = 0 ∧ pa mod PAGE_SIZE = 0 ∧
   ∃ s1, prepared s dir (page_directory_index va) s1 ∧
     paging_map_page_in dir va pa fl s
     = (0, set_entry (table_of s1 dir (page_directory_index va)) (page_table_index va)
             (Z.lor pa (paging_entry_flags fl)) s1)).
Proof.
  intros Hok Hsp Hva Hpa Hlt. pose proof (page_indices_range va Hva) as [Hr1 _].
  pose proof (space_dir _ _ Hsp) as (_&Hd0&_).
  unfold paging_map_page_in, map_refused. autorewrite with paging.
  rewrite !low_mask by word_lia. unfold truthy, present.
  destruct (Z.eqb_spec (va mod PAGE_SIZE) 0); [|left; bsimpl; auto].
  destruct (Z.eqb_spec (pa mod PAGE_SIZE) 0); [|left; bsimpl; auto]. bsimpl.
  rewrite (proj2 (Z.eqb_neq dir 0)) by lia.
  destruct (Z.testbit (entry_at _ dir _) 0) eqn:Hp; bsimpl.
  - destruct (Z.testbit fl 2) eqn:Hu; bsimpl; [|right; split_and!; [done..|]].
    + destruct (Z.testbit (entry_at _ dir _) 2) eqn:Hu'; bsimpl;
        [right; split_and!; [done..|]|].
      * eexists. split; [apply prepared_refl; [done..|lia|done]|done].
      * case_if; [left|right; split_and!; [done..|]].
        -- split; [|done]. do 3 right. split_and!; [done..|].
           destruct E; zbool; auto.
        -- eexists. split; [apply prepared_user; [done..|lia|done]|done].
    + eexists. split; [apply prepared_refl; [done..|lia|done]|done].
  - destruct (alloc_cases s Hok) as [[Hz ->]|(t&s'&->&Ha&Hs'&Hok'&Hh&Hnh&Hm)].
    + left. rewrite Z.eqb_refl. split; [auto|done].
    + right. split_and!; [done..|]. pose proof Hh as (_&Ht0&_).
      rewrite (proj2 (Z.eqb_neq t 0)) by lia. eexists. split; [|reflexivity].
      apply prepared_fresh; try done; [lia|..]; by case_if.
Qed.

(** ** Unmapping *)

Lemma unmap_cases s dir va :
  vm_ok s → space_ok s dir → is_u32 va → va mod PAGE_SIZE = 0 →
  page_directory_index va < RECURSIVE_DIRECTORY_INDEX →
  own_table s dir (page_directory_index va) →
  let s' := paging_unmap_page_in dir va s in
  vm_ok s' ∧ space_ok s' dir ∧ frames s' = frames s ∧
  (∀ j, 0 ≤ j < 1024 → entry_at (pmem s') dir j = entry_at (pmem s) dir j) ∧
  paging_lookup_page_in dir va s' = None ∧
  (∀ va', is_u32 va' → page_directory_index va' < RECURSIVE_DIRECTORY_INDEX →
     va' / PAGE_SIZE ≠ va / PAGE_SIZE →
     paging_lookup_page_in dir va' s' = paging_lookup_page_in dir va' s) ∧
  (∀ b, b / PAGE_SIZE * PAGE_SIZE ≠ table_of s dir (page_directory_index va) →
     pmem s' b = pmem s b).
Proof.
  intros Hok Hsp Hva Hal Hlt Hown. pose proof (page_indices_range va Hva) as [Hr1 Hr2].
  pose proof (space_dir _ _ Hsp) as (_&Hd0&_).
  pose proof (held_aligned _ _ (space_dir _ _ Hsp)) as Hda.
  assert (RECURSIVE_DIRECTORY_INDEX = 1023) as HR by done.
  unfold paging_unmap_page_in. autorewrite with paging. rewrite low_mask, Hal by word_lia.
  rewrite (proj2 (Z.eqb_neq dir 0)) by lia. simpl.
  set (i := page_directory_index va) in *. set (k := page_table_index va) in *.
  destruct (Z.testbit (entry_at (pmem s) dir i) 0) eqn:Hp; simpl.
  2:{ split_and!; try done. rewrite lookup_eq by (apply Hok || lia). cbv zeta. fold i.
      unfold present. by rewrite Hp. }
  destruct (space_tables s dir Hsp i ltac:(lia) Hp) as [Ht Htd].
  change (frame_of (entry_at (pmem s) dir i)) with (table_of s dir i).
  set (t := table_of s dir i) in *. set (s' := set_entry t k 0 s).
  pose proof (held_aligned _ _ Ht) as Hta.
  assert (∀ j, 0 ≤ j < 1024 → entry_at (pmem s') dir j = entry_at (pmem s) dir j) as Hdir
    by (intros; apply entry_set_other; done || congruence).
  assert (vm_ok s') as Hok' by (split; [apply set_entry_wf|]; apply Hok).
  split_and!; try done.
  - split; [apply Hsp|]. intros j Hj. unfold table_of. rewrite Hdir by lia. by apply Hsp.
  - rewrite lookup_eq by (apply Hok' || lia). cbv zeta. fold i k. rewrite Hdir by lia.
    change (frame_of (entry_at (pmem s) dir i)) with t.
    unfold s'. rewrite entry_set_same by done. unfold present at 2. by rewrite andb_false_r.
  - intros va' Hva' Hlt' Hne. pose proof (page_indices_range va' Hva') as [Hr1' Hr2'].
    apply lookup_same; [apply Hok|apply Hok'|lia|by apply Hdir|].
    intros Hp'. destruct (space_tables s dir Hsp (page_directory_index va') ltac:(lia) Hp').
    apply entry_set_other; [done|by apply (held_aligned s)|done..|].
    intros [= Heq1 Heq2]. destruct (decide (page_directory_index va' = i)) as [Heq|Hn].
    + apply Hne, page_indices_inj; [done..|by rewrite <- Heq2].
    + apply (Hown Hp (page_directory_index va') ltac:(lia) Hn Hp'). by rewrite <- Heq1.
  - intros b Hb. apply set_entry_outside; done || congruence.
Qed.

(** ** Copy on write *)

(** The flags the page gets: writable, no longer copy-on-write. *)
Definition writable_flags fl : Z := Z.land (Z.lor fl PAGE_WRITABLE) (not32 PAGE_COPY_ON_WRITE).

Lemma writable_flags_bits fl k :
  0 ≤ fl < PAGE_SIZE → 0 ≤ k < 12 →
  Z.testbit (writable_flags fl) k = (Z.testbit fl k || (k =? 1)) && negb (k =? 9).
Proof.
  intros. unfold writable_flags.
  change (not32 PAGE_COPY_ON_WRITE) with (Z.lnot (Z.shiftl 1 9) mod 2 ^ 32).
  rewrite land_notpow2_bits by lia. f_equal. apply (lor_pow2_bits fl 1). lia.
Qed.

Lemma writable_flags_range fl : 0 ≤ fl < PAGE_SIZE → 0 ≤ writable_flags fl < PAGE_SIZE.
Proof.
  intros. apply (land_bound 12); [lia| |by vm_compute]. apply (lor_bound 12); [lia|done|done].
Qed.

Lemma lookup_Some s dir va pp fl :
  vm_ok s → dir ≠ 0 → paging_lookup_page_in dir va s = Some (pp, fl) →
  present (entry_at (pmem s) dir (page_directory_index va)) = true ∧
  is_u32 pp ∧ pp mod PAGE_SIZE = 0 ∧ 0 ≤ fl < PAGE_SIZE ∧ Z.testbit fl 0 = true.
Proof.
  intros [Hw _] Hd. rewrite lookup_eq by done. cbv zeta.
  destruct (present (entry_at (pmem s) dir _)); [|done]. simpl.
  set (e := entry_at _ (frame_of _) _). assert (is_u32 e) as He by (by apply entry_u32).
  destruct (present e) eqn:Hp; [|done]. intros [= <- <-].
  change (not32 PAGE_FRAME_MASK) with (PAGE_SIZE - 1).
  rewrite low_mask by (unfold is_u32 in He; lia).
  split; [done|]. split; [by apply frame_of_range|]. split; [by apply frame_of_aligned|].
  split; [by apply Z.mod_pos_bound|]. by rewrite (Z.mod_pow2_bits_low e 12).
Qed.

(** A change of memory outside the frames in use leaves the address space alone. *)
Lemma space_unchanged s s' dir :
  vm_ok s → space_ok s dir → vm_ok s' → (∀ p, held s p → held s' p) →
  (∀ b, held s (b / PAGE_SIZE * PAGE_SIZE) → pmem s' b = pmem s b) →
  space_ok s' dir ∧
  (∀ j, 0 ≤ j < 1024 → entry_at (pmem s') dir j = entry_at (pmem s) dir j) ∧
  (∀ va, is_u32 va → page_directory_index va < RECURSIVE_DIRECTORY_INDEX →
     paging_lookup_page_in dir va s' = paging_lookup_page_in dir va s).
Proof.
  intros Hok Hsp Hok' Hm Hmem. pose proof (space_dir _ _ Hsp) as (_&Hd0&_).
  pose proof (held_aligned _ _ (space_dir _ _ Hsp)) as Hda.
  assert (RECURSIVE_DIRECTORY_INDEX = 1023) as HR by done.
  assert (∀ j, 0 ≤ j < 1024 → entry_at (pmem s') dir j = entry_at (pmem s) dir j) as Hdir.
  { intros j ?. apply entry_ext; [done..|]. intros b <-. apply Hmem, Hsp. }
  split_and!; [|done|].
  - split; [apply Hm, Hsp|]. intros j Hj. unfold table_of. rewrite Hdir by lia. intros Hp.
    destruct (space_tables s dir Hsp j Hj Hp). split; [by apply Hm|done].
  - intros va Hva Hlt. pose proof (page_indices_range va Hva) as [Hr1 Hr2].
    apply lookup_same; [apply Hok|apply Hok'|lia|by apply Hdir|]. intros Hp.
    destruct (space_tables s dir Hsp (page_directory_index va) ltac:(lia) Hp) as [Ht _].
    apply entry_ext; [by apply (held_aligned s)|done|]. intros b Hb.
    apply Hmem. rewrite Hb. done.
Qed.

Lemma own_table_entries s s' dir i :
  0 ≤ i < RECURSIVE_DIRECTORY_INDEX →
  (∀ j, 0 ≤ j < 1024 → entry_at (pmem s') dir j = entry_at (pmem s) dir j) →
  own_table s dir i → own_table s' dir i.
Proof.
  assert (RECURSIVE_DIRECTORY_INDEX = 1023) as HR by done.
  intros Hi He Hown. unfold own_table, table_of. rewrite He by lia.
  intros Hp j Hj ?. rewrite He by lia. by apply Hown.
Qed.

(** Remapping a user page whose table exists cannot fail. *)
Lemma map_present s dir va pa fl :
  vm_ok s → space_ok s dir → is_u32 va → is_u32 pa →
  va mod PAGE_SIZE = 0 → pa mod PAGE_SIZE = 0 → 0 ≤ fl < PAGE_SIZE →
  KERNEL_SHARED_LOW_DIRECTORY_COUNT ≤ page_directory_index va < DIRECT_MAP_DIRECTORY_INDEX →
  present (entry_at (pmem s) dir (page_directory_index va)) = true →
  own_table s dir (page_directory_index va) →
  ∃ s', paging_map_page_in dir va pa fl s = (0, s') ∧ maps s dir va pa fl s'.
Proof.
  intros Hok Hsp Hva Hpa Hal Hpal Hfl Hi Hp Hown.
  assert (page_directory_index va < RECURSIVE_DIRECTORY_INDEX)
    by (unfold DIRECT_MAP_DIRECTORY_INDEX, RECURSIVE_DIRECTORY_INDEX in *; lia).
  destruct (map_page_cases s dir va pa fl) as [[Href _]|(_&_&s1&Hprep&Heq)]; [done..| |].
  - exfalso. unfold map_refused in Href. cbv zeta in Href. rewrite Hp in Href.
    destruct Href as [?|[?|[[? _]|(_&_&_&?)]]]; done || lia.
  - eexists. split; [exact Heq|]. by apply store_maps.
Qed.

Lemma held_free s pa :
  vm_ok s → held s pa → 1 < frame_refs (frames s) (pa / PAGE_SIZE) →
  let s' := with_frames (palloc_free_page pa (frames s)) s in
  vm_ok s' ∧ (∀ p, held s p → held s' p) ∧
  drops_ref (frames s) pa (palloc_free_page pa (frames s)).
Proof.
  intros [Hw [Hinv H0]] (Hpu&Hp0&Hl) Hrefs.
  pose proof (free_page_cases (frames s) pa Hinv ltac:(lia)) as Hd. rewrite Hl in Hd.
  pose proof Hd as (Hg&_&Hlim&Hinv'). pose proof (inv_limit _ Hinv). pose proof MAX_PAGE_FRAMES_val.
  assert (∀ f, 0 ≤ f < MAX_PAGE_FRAMES → frame_is_used (frames s) f = true →
            frame_is_used (palloc_free_page pa (frames s)) f = true) as Hused.
  { intros f Hf Hu. specialize (Hg f).
    pose proof (inv_refs _ Hinv f Hf) as Hr. rewrite Hu in Hr.
    assert (1 ≤ frame_refs (palloc_free_page pa (frames s)) f) as Hx.
    { rewrite Hg. unfold frame_refs in *. rewrite Hu. case_if; [|lia]. subst f.
      rewrite Hu in Hrefs. lia. }
    unfold frame_refs in Hx. destruct (frame_is_used (palloc_free_page _ _) f); [done|lia]. }
  split_and!; [split; [done|split; [done|]]| |done].
  - apply Hused; [lia|done].
  - intros p (Hu&Hp&[[Hl1 Hl2]%andb_prop Hl3]%andb_prop). split_and!; [done..|].
    unfold live_page. simpl. rewrite Hl1, Hlim, Hl2. simpl. zbool.
    apply Hused; [unfold PAGE_SIZE in *; word_lia|done].
Qed.

Lemma page_floor_frame va : page_floor va = frame_of va.
Proof. reflexivity. Qed.

Lemma page_floor_indices va :
  is_u32 va →
  is_u32 (page_floor va) ∧ page_floor va mod PAGE_SIZE = 0 ∧
  page_floor va / PAGE_SIZE = va / PAGE_SIZE ∧
  page_directory_index (page_floor va) = page_directory_index va ∧
  page_table_index (page_floor va) = page_table_index va.
Proof.
  intros Hva. rewrite page_floor_frame.
  assert (is_u32 (frame_of va)) as Hf by (by apply frame_of_range).
  assert (frame_of va / PAGE_SIZE = va / PAGE_SIZE) as Hd.
  { rewrite frame_of_floor by done. rewrite Z.mul_comm. by apply Z.div_mul. }
  split_and!; [done|by apply frame_of_aligned|done|..].
  - destruct (page_indices va Hva) as [-> _], (page_indices _ Hf) as [-> _].
    change PAGE_TABLE_SPAN with (PAGE_SIZE * PAGE_TABLE_ENTRIES).
    rewrite <- !Z.div_div by done. by rewrite Hd.
  - destruct (page_indices va Hva) as [_ ->], (page_indices _ Hf) as [_ ->]. by rewrite Hd.
Qed.

Lemma page_refcount_held s pa :
  held s pa → palloc_page_refcount pa (frames s) = frame_refs (frames s) (pa / PAGE_SIZE).
Proof.
  intros (_&_&[[H1 H2]%andb_prop H3]%andb_prop). unfold palloc_page_refcount, frame_refs, truthy.
  zbool. rewrite H1, H3. simpl. by rewrite (proj2 (Z.leb_gt _ _)) by lia.
Qed.

(** The outcome of a write fault on a copy-on-write page [page] of [dir] that
    was backed by frame [pp]: it is now backed by [np] and writable, and holds
    the same bytes; the rest of the address space, and every frame but the page tables
    and a new [np], are as before. *)
Record cow_resolved s dir page pp fl (np : Z) (s' : vm) : Prop := {
  cow_ok : vm_ok s';
  cow_space : space_ok s' dir;
  cow_own : ∀ j, 0 ≤ j < RECURSIVE_DIRECTORY_INDEX → own_table s dir j → own_table s' dir j;
  cow_held : ∀ p, held s p → held s' p;
  cow_frame : held s' np;
  cow_tables : ∀ j, 0 ≤ j < RECURSIVE_DIRECTORY_INDEX →
    present (entry_at (pmem s') dir j) = true →
    present (entry_at (pmem s) dir j) = true ∧ table_of s' dir j = table_of s dir j;
  cow_page : paging_lookup_page_in dir page s' = Some (np, writable_flags fl);
  cow_bytes : ∀ o, 0 ≤ o < PAGE_SIZE → pmem s' (np + o) = pmem s (pp + o);
  cow_others : ∀ va', is_u32 va' → page_directory_index va' < RECURSIVE_DIRECTORY_INDEX →
    va' / PAGE_SIZE ≠ page / PAGE_SIZE →
    paging_lookup_page_in dir va' s' = paging_lookup_page_in dir va' s;
  cow_outside : ∀ b, b / PAGE_SIZE * PAGE_SIZE ≠ dir →
    b / PAGE_SIZE * PAGE_SIZE ≠ table_of s dir (page_directory_index page) →
    (np ≠ pp → b / PAGE_SIZE * PAGE_SIZE ≠ np) → pmem s' b = pmem s b;
}.

Section cow.
Context s dir va pp fl
  (Hok : vm_ok s) (Hsp : space_ok s dir) (Hva : is_u32 va)
  (Hi : KERNEL_SHARED_LOW_DIRECTORY_COUNT ≤ page_directory_index va < DIRECT_MAP_DIRECTORY_INDEX)
  (Hown : own_table s dir (page_directory_index va))
  (Hlk : paging_lookup_page_in dir (page_floor va) s = Some (pp, fl))
  (Hheld : held s pp) (Hpd : pp ≠ dir)
  (Hpt : pp ≠ table_of s dir (page_directory_index va)).

Lemma cow_facts :
  present (entry_at (pmem s) dir (page_directory_index va)) = true ∧
  is_u32 pp ∧ pp mod PAGE_SIZE = 0 ∧ 0 ≤ fl < PAGE_SIZE.
Proof.
  pose proof (space_dir _ _ Hsp) as (_&Hd0&_).
  pose proof (page_floor_indices va Hva) as (_&_&_&Hpi&_).
  rewrite <- Hpi. destruct (lookup_Some s dir _ pp fl Hok ltac:(lia) Hlk) as (?&?&?&?&_). done.
Qed.

Lemma cow_flags_present :
  Z.testbit fl 0 = true → Z.lor (writable_flags fl) PAGE_PRESENT = writable_flags fl.
Proof.
  intros Hb. destruct cow_facts as (_&_&_&Hfl). pose proof (writable_flags_range fl Hfl).
  apply Z.bits_inj'. intros k Hk. rewrite (lor_pow2_bits _ 0) by lia.
  destruct (Z.eqb_spec k 0) as [->|]; [|apply orb_false_r].
  rewrite writable_flags_bits by (done || lia). by rewrite Hb.
Qed.

Lemma cow_promote :
  Z.testbit fl 0 = true →
  ∃ s', paging_map_page_in dir (page_floor va) pp (writable_flags fl) s = (0, s') ∧
    cow_resolved s dir (page_floor va) pp fl pp s' ∧ frames s' = frames s.
Proof.
  intros Hb. destruct cow_facts as (Hp&Hpu&Hpm&Hfl).
  pose proof (page_floor_indices va Hva) as (Hf1&Hf2&Hf3&Hf4&Hf5).
  destruct (map_present s dir (page_floor va) pp (writable_flags fl)) as (s'&Heq&Hm);
    rewrite ?Hf4; try done; [by apply writable_flags_range|].
  pose proof (maps_table _ _ _ _ _ _ Hm) as Ht. rewrite Hf4, Hp in Ht. destruct Ht as [Ht Hfr].
  exists s'. split_and!; [done| |done].
  assert (∀ b, b / PAGE_SIZE * PAGE_SIZE ≠ dir →
    b / PAGE_SIZE * PAGE_SIZE ≠ table_of s dir (page_directory_index va) → pmem s' b = pmem s b)
    as Hout by (intros; apply (maps_outside _ _ _ _ _ _ Hm); rewrite ?Hf4, ?Ht; done).
  split; try apply Hm.
  - exact Hheld.
  - intros j Hj. destruct (decide (j = page_directory_index va)) as [->|]; [done|].
    unfold table_of. unfold RECURSIVE_DIRECTORY_INDEX in Hj.
    rewrite (maps_dir _ _ _ _ _ _ Hm) by (lia || congruence). done.
  - rewrite (maps_page _ _ _ _ _ _ Hm), cow_flags_present; done.
  - intros o Ho.
    assert ((pp + o) / PAGE_SIZE * PAGE_SIZE = pp) as Hb' by (unfold PAGE_SIZE in *; word_lia).
    apply Hout; rewrite Hb'; done.
  - rewrite Hf4. intros b ?? _. by apply Hout.
Qed.

(** The state after the copy into the new frame. *)
Lemma cow_copy s1 np :
  s1 = with_frames (frames s1) s → vm_ok s1 → held s1 np → ¬ held s np →
  (∀ p, held s p → held s1 p) →
  let s2 := copy_page_bytes np pp s1 in
  vm_ok s2 ∧ space_ok s2 dir ∧
  (∀ j, 0 ≤ j < 1024 → entry_at (pmem s2) dir j = entry_at (pmem s) dir j) ∧
  (∀ va, is_u32 va → page_directory_index va < RECURSIVE_DIRECTORY_INDEX →
     paging_lookup_page_in dir va s2 = paging_lookup_page_in dir va s) ∧
  (∀ o, 0 ≤ o < PAGE_SIZE → pmem s2 (np + o) = pmem s (pp + o)) ∧
  (∀ b, b / PAGE_SIZE * PAGE_SIZE ≠ np → pmem s2 b = pmem s b).
Proof.
  intros Hs1 Hok1 Hn Hnn Hmono s2. pose proof (held_aligned _ _ Hn) as Hna.
  assert (pmem s1 = pmem s) as Hpm by (rewrite Hs1; done).
  assert (∀ b, b / PAGE_SIZE * PAGE_SIZE ≠ np → pmem s2 b = pmem s b) as Hout.
  { intros b Hb. unfold s2, copy_page_bytes. simpl. rewrite Hpm. apply copy_bytes_out.
    unfold PAGE_SIZE in *. word_lia. }
  assert (vm_ok s2) as Hok2 by (split; [apply copy_bytes_wf|]; apply Hok1).
  destruct (space_unchanged s s2 dir) as (?&?&?); [done..| |].
  { intros b Hb. apply Hout. intros Heq. by rewrite Heq in Hb. }
  split_and!; try done.
  intros o Ho. unfold s2, copy_page_bytes. simpl. rewrite copy_bytes_in by lia. rewrite Hpm.
  f_equal. lia.
Qed.

Lemma cow_split s1 np :
  Z.testbit fl 0 = true → 1 < frame_refs (frames s) (pp / PAGE_SIZE) →
  s1 = with_frames (frames s1) s → allocates (frames s) np (frames s1) → vm_ok s1 →
  held s1 np → ¬ held s np → (∀ p, held s p → held s1 p) →
  ∃ s3, paging_map_page_in dir (page_floor va) np (writable_flags fl)
          (copy_page_bytes np pp s1) = (0, s3) ∧
    let s4 := with_frames (palloc_free_page pp (frames s3)) s3 in
    cow_resolved s dir (page_floor va) pp fl np s4 ∧ vm_ok s4 ∧
    frame_refs (frames s4) (np / PAGE_SIZE) = 1 ∧
    ∀ g, g ≠ np / PAGE_SIZE → frame_refs (frames s4) g
         = frame_refs (frames s) g - (if g =? pp / PAGE_SIZE then 1 else 0).
Proof.
  intros Hb Hrefs Hs1 Ha Hok1 Hn Hnn Hmono.
  destruct (cow_copy s1 np) as (Hok2&Hsp2&He2&Hlk2&Hby2&Hout2); [done..|].
  set (s2 := copy_page_bytes np pp s1) in *.
  destruct cow_facts as (Hp&Hpu&Hpm&Hfl). pose proof Hn as (Hnu&Hn0&_).
  pose proof (held_aligned _ _ Hn) as Hna.
  pose proof (page_floor_indices va Hva) as (Hf1&Hf2&Hf3&Hf4&Hf5).
  assert (RECURSIVE_DIRECTORY_INDEX = 1023) as HR by done.
  assert (DIRECT_MAP_DIRECTORY_INDEX = 768 ∧ KERNEL_SHARED_LOW_DIRECTORY_COUNT = 1) as [HD HK] by done.
  assert (table_of s2 dir (page_directory_index va) = table_of s dir (page_directory_index va))
    as Htab by (unfold table_of; rewrite He2 by lia; done).
  destruct (map_present s2 dir (page_floor va) np (writable_flags fl)) as (s3&Heq&Hm);
    rewrite ?Hf4; try done; [by apply writable_flags_range|by rewrite He2 by lia| |].
  { apply (own_table_entries s); [lia|done..]. }
  pose proof (maps_table _ _ _ _ _ _ Hm) as Ht. rewrite Hf4, He2, Hp in Ht by lia.
  destruct Ht as [Ht Hfr]. rewrite Htab in Ht.
  exists s3. split; [done|]. intros s4.
  assert (np ≠ pp) as Hnp by (intros ->; done).
  destruct Ha as (f&Hnf&Hf&_&Hr1&_&_&Hg&_).
  assert (np / PAGE_SIZE = f) as Hnd by (rewrite Hnf; by apply Z.div_mul).
  assert (f ≠ pp / PAGE_SIZE) as Hfp by (unfold PAGE_SIZE in *; word_lia).
  assert (frames s3 = frames s1) as Hfr3 by (rewrite Hfr; done).
  destruct (held_free s3 pp) as (Hok4&Hheld4&Hdrop).
  { apply Hm. } { apply Hm, Hmono, Hheld. } { by rewrite Hfr3, Hg by done. }
  split_and!; [|done|..].
  - assert (∀ b, b / PAGE_SIZE * PAGE_SIZE ≠ dir →
      b / PAGE_SIZE * PAGE_SIZE ≠ table_of s dir (page_directory_index va) →
      pmem s3 b = pmem s2 b)
      as Hout by (intros; apply (maps_outside _ _ _ _ _ _ Hm); rewrite ?Hf4, ?Ht; done).
    assert (held s4 np) as Hn4 by (apply Hheld4, Hm, Hn).
    split; try done.
    + split; [apply Hheld4, Hm|]. intros j Hj Hpj.
      destruct (space_tables s3 dir (maps_space _ _ _ _ _ _ Hm) j Hj Hpj).
      split; [by apply Hheld4|done].
    + intros j Hj Ho. apply (maps_own _ _ _ _ _ _ Hm j Hj).
      by apply (own_table_entries s).
    + intros p Hp'. by apply Hheld4, Hm, Hmono.
    + intros j Hj. change (pmem s4) with (pmem s3). change (table_of s4) with (table_of s3).
      destruct (decide (j = page_directory_index va)) as [->|]; [done|].
      unfold table_of. rewrite (maps_dir _ _ _ _ _ _ Hm), He2 by (lia || congruence). done.
    + change (paging_lookup_page_in dir (page_floor va) s3 = Some (np, writable_flags fl)).
      rewrite (maps_page _ _ _ _ _ _ Hm), cow_flags_present; done.
    + intros o Ho. simpl. rewrite <- Hby2 by done.
      assert ((np + o) / PAGE_SIZE * PAGE_SIZE = np) as Hb' by (unfold PAGE_SIZE in *; word_lia).
      apply Hout; rewrite Hb'; intros ->; apply Hnn; [apply Hsp|].
      apply (space_tables s dir Hsp); [lia|done].
    + intros va' ???. rewrite <- Hlk2 by done. by apply (maps_others _ _ _ _ _ _ Hm).
    + rewrite Hf4. intros b ?? Hbn. simpl. rewrite Hout by done. by apply Hout2, Hbn.
  - destruct Hdrop as (Hd&_). simpl. rewrite Hd, Hnd, Hfr3.
    rewrite (proj2 (Z.eqb_neq (pp / PAGE_SIZE) f)) by lia. done.
  - intros g Hgn. destruct Hdrop as (Hd&_). simpl. rewrite Hd, Hfr3, Hg by lia.
    rewrite Z.eqb_sym. case_if; lia.
Qed.

End cow.
End spaces.

Lemma resolve_cow_outcome s dir va pp fl :
  vm_ok s → space_ok s dir → is_u32 va →
  KERNEL_SHARED_LOW_DIRECTORY_COUNT ≤ page_directory_index va < DIRECT_MAP_DIRECTORY_INDEX →
  own_table s dir (page_directory_index va) →
  paging_lookup_page_in dir (page_floor va) s = Some (pp, fl) →
  held s pp → pp ≠ dir → pp ≠ table_of s dir (page_directory_index va) →
  Z.testbit fl 0 = true → Z.testbit fl 2 = true → Z.testbit fl 9 = true →
  Z.testbit fl 1 = false →
  let '(r, s') := paging_resolve_copy_on_write_in dir va s in
  if palloc_page_refcount pp (frames s) =? 1 then
    r = 0 ∧ cow_resolved s dir (page_floor va) pp fl pp s' ∧ frames s' = frames s
  else if free_frames (frames s) =? 0 then r = -1 ∧ s' = s
  else r = 0 ∧ ∃ np, ¬ held s np ∧ cow_resolved s dir (page_floor va) pp fl np s' ∧
         frame_refs (frames s') (np / PAGE_SIZE) = 1 ∧
         ∀ g, g ≠ np / PAGE_SIZE →
           frame_refs (frames s') g
           = frame_refs (frames s) g - (if g =? pp / PAGE_SIZE then 1 else 0).
Proof.
  intros Hok Hsp Hva Hi Hown Hlk Hheld Hpd Hpt Hb0 Hb2 Hb9 Hb1.
  unfold paging_resolve_copy_on_write_in. rewrite Hlk.
  assert ((Z.land fl COW_FLAGS =? COW_FLAGS) = true) as ->.
  { apply Z.eqb_eq. change COW_FLAGS with
      (Z.lor (Z.lor (Z.shiftl 1 0) (Z.shiftl 1 2)) (Z.shiftl 1 9)).
    apply Z.bits_inj'. intros k _. rewrite Z.land_spec, !lor_pow2_bits by lia.
    rewrite Z.shiftl_1_l, Z.pow2_bits_eqb by lia. rewrite (Z.eqb_sym 0 k).
    destruct (Z.eqb_spec k 0) as [->|]; [by rewrite Hb0|].
    destruct (Z.eqb_spec k 2) as [->|]; [by rewrite Hb2|].
    destruct (Z.eqb_spec k 9) as [->|]; [by rewrite Hb9|]. apply andb_false_r. }
  rewrite writable_bit, Hb1. bsimpl. change (Z.land (Z.lor fl PAGE_WRITABLE) _) with (writable_flags fl).
  pose proof (page_refcount_held s pp Hheld) as Hrc. rewrite Hrc.
  assert (1 ≤ frame_refs (frames s) (pp / PAGE_SIZE)) as Hge.
  { destruct Hheld as (?&?&Hl), Hok as [_ [Hinv _]].
    destruct (live_page_refs (frames s) pp Hinv ltac:(lia) Hl) as (_&Hu&?&_).
    unfold frame_refs. rewrite Hu. lia. }
  rewrite (proj2 (Z.eqb_neq _ 0)) by lia.
  destruct (Z.eqb_spec (frame_refs (frames s) (pp / PAGE_SIZE)) 1) as [H1|H1].
  - destruct (cow_promote s dir va pp fl) as (s'&->&Hc&Hf); done.
  - destruct (alloc_cases s Hok) as [[-> ->]|(np&s1&->&Ha&Hs1&Hok1&Hn&Hnn&Hm)]; [done|].
    pose proof Hn as (_&Hn0&_). rewrite (proj2 (Z.eqb_neq np 0)) by lia.
    destruct (cow_split s dir va pp fl Hok Hsp Hva Hi Hown Hlk Hheld Hpt s1 np)
      as (s3&->&Hc&_&Hr&Hg); [done|lia|done..|].
    destruct (Z.eqb_spec (free_frames (frames s)) 0) as [Hz|Hz].
    + exfalso. destruct Ha as (f&_&Hf&Hu&_).
      destruct Hok as [_ [Hinv _]]. pose proof (inv_limit _ Hinv).
      rewrite (inv_count _ Hinv), count_range_zero in Hz.
      specialize (Hz f ltac:(lia)). unfold frame_free in Hz. by rewrite Hu in Hz.
    + split; [done|]. by exists np.
Qed.

(** ** User ranges *)

(** Byte [a] lies on a page that both levels mark present and user-accessible. *)
Definition user_mapped (s : vm) (dir a : Z) : Prop :=
  let de := entry_at (pmem s) dir (page_directory_index a) in
  let pe := entry_at (pmem s) (frame_of de) (page_table_index a) in
  (Z.testbit de 0 = true ∧ Z.testbit de 2 = true) ∧
  Z.testbit pe 0 = true ∧ Z.testbit pe 2 = true.

(** Byte [a] lies on a user page that is writable or copy-on-write. *)
Definition user_writable (s : vm) (dir a : Z) : Prop :=
  ∃ pa fl, paging_lookup_page_in dir a s = Some (pa, fl) ∧ Z.testbit fl 2 = true ∧
    (Z.testbit fl 1 = true ∨ Z.testbit fl 9 = true).

Lemma two_bits e m k1 k2 :
  0 ≤ k1 → 0 ≤ k2 → m = Z.lor (Z.shiftl 1 k1) (Z.shiftl 1 k2) →
  (Z.land e m =? m) = Z.testbit e k1 && Z.testbit e k2.
Proof.
  intros H1 H2 ->. set (m := Z.lor _ _).
  assert (∀ k, Z.testbit m k = (k =? k1) || (k =? k2)) as Hm.
  { intros k. unfold m. rewrite lor_pow2_bits by done. f_equal.
    rewrite Z.shiftl_1_l, Z.pow2_bits_eqb by done. apply Z.eqb_sym. }
  destruct (Z.eqb_spec (Z.land e m) m) as [E|E].
  - symmetry. rewrite <- E in Hm.
    pose proof (Hm k1) as Ha. pose proof (Hm k2) as Hb.
    rewrite Z.land_spec, Z.eqb_refl in Ha, Hb. rewrite orb_true_r in Hb. simpl in Ha.
    apply andb_prop in Ha as [-> _]. by apply andb_prop in Hb as [-> _].
  - symmetry. destruct (Z.testbit e k1) eqn:E1, (Z.testbit e k2) eqn:E2; try done.
    exfalso. apply E, Z.bits_inj'. intros k Hk. rewrite Z.land_spec, Hm.
    destruct (Z.eqb_spec k k1) as [->|]; [by rewrite E1|].
    destruct (Z.eqb_spec k k2) as [->|]; [by rewrite E2|]. apply andb_false_r.
Qed.

Lemma user_page_mapped_spec s dir a :
  is_u32 a → user_page_mapped dir s (page_floor a) = true ↔ user_mapped s dir a.
Proof.
  intros Ha. pose proof (page_floor_indices a Ha) as (_&_&_&H1&H2).
  unfold user_page_mapped, user_mapped. rewrite H1, H2.
  rewrite !(two_bits _ PRESENT_USER 0 2) by done.
  destruct (Z.testbit _ 0), (Z.testbit (entry_at _ dir _) 2); simpl; rewrite ?andb_true_iff;
    naive_solver.
Qed.

Lemma user_page_writable_spec s dir a :
  is_u32 a → user_page_writable dir s (page_floor a) = true ↔ user_writable s dir a.
Proof.
  intros Ha. pose proof (page_floor_indices a Ha) as (_&_&_&H1&H2).
  unfold user_page_writable, user_writable.
  assert (paging_lookup_page_in dir (page_floor a) s = paging_lookup_page_in dir a s) as ->
    by (unfold paging_lookup_page_in; rewrite H1, H2; done).
  destruct (paging_lookup_page_in dir a s) as [[pa fl]|]; [|naive_solver].
  rewrite user_bit.
  assert (truthy (Z.land fl (Z.lor PAGE_WRITABLE PAGE_COPY_ON_WRITE))
          = Z.testbit fl 1 || Z.testbit fl 9) as ->.
  { unfold truthy. rewrite Z.land_lor_distr_r.
    rewrite <- writable_bit, <- cow_bit. unfold truthy.
    destruct (Z.eqb_spec (Z.lor (Z.land fl PAGE_WRITABLE) (Z.land fl PAGE_COPY_ON_WRITE)) 0)
      as [E|E].
    - apply Z.lor_eq_0_iff in E as [-> ->]. done.
    - destruct (Z.eqb_spec (Z.land fl PAGE_WRITABLE) 0) as [Hz|]; [|done].
      rewrite Hz, Z.lor_0_l in E. by rewrite (proj2 (Z.eqb_neq _ 0) E). }
  rewrite andb_true_iff, orb_true_iff. naive_solver.
Qed.

(** The page walk visits the page of every byte of the range, and its fuel is enough. *)
Lemma user_pages_ok_spec ok n p e :
  0 ≤ p → p mod PAGE_SIZE = 0 → e ≤ USER_VIRT_LIMIT → e - p ≤ Z.of_nat n →
  user_pages_ok n ok p e = true ↔ ∀ a, p ≤ a < e → ok (page_floor a) = true.
Proof.
  revert p. induction n as [|n IH]; intros p Hp Hal He Hn; simpl.
  - case_if; [lia|]. split; [intros; lia|done].
  - case_if; [|split; [intros; lia|done]].
    unfold USER_VIRT_LIMIT, KERNEL_DIRECT_MAP_BASE in *.
    rewrite u32_small by (unfold PAGE_SIZE; lia).
    assert (∀ a, p ≤ a < p + PAGE_SIZE → is_u32 a → page_floor a = p) as Hfl.
    { intros a Ha Hu. rewrite page_floor_frame, frame_of_floor by done.
      unfold PAGE_SIZE in *. word_lia. }
    assert (page_floor p = p) as Hpp by (apply Hfl; [unfold PAGE_SIZE; lia|word_lia]).
    assert (∀ a, p ≤ a < e → is_u32 a) as Hu by (intros; unfold is_u32; lia).
    destruct (ok p) eqn:Hok.
    + rewrite IH by (unfold PAGE_SIZE in *; word_lia). split.
      * intros H a Ha. destruct (decide (a < p + PAGE_SIZE)); [|apply H; lia].
        rewrite Hfl; [done|lia|apply Hu; lia].
      * intros H a Ha. apply H. unfold PAGE_SIZE in *; lia.
    + split; [done|]. intros H. rewrite <- Hpp in Hok. rewrite H in Hok by lia. done.
Qed.

Lemma user_range_ok_spec (ok : Z → bool) (P : Z → Prop) dir va len :
  is_u32 va → is_u32 len → dir ≠ 0 → (∀ a, is_u32 a → ok (page_floor a) = true ↔ P a) →
  user_range_ok ok dir va len = true ↔
    len = 0 ∨ (USER_VIRT_BASE ≤ va ∧ va + len ≤ USER_VIRT_LIMIT ∧
               ∀ a, va ≤ a < va + len → P a).
Proof.
  intros Hva Hlen Hd Hok. unfold user_range_ok.
  rewrite (proj2 (Z.eqb_neq dir 0)) by done.
  case_if; [naive_solver|].
  unfold USER_VIRT_BASE, USER_VIRT_LIMIT, KERNEL_DIRECT_MAP_BASE in *.
  case_if; [split; [done|intros [?|(?&?&_)]; word_lia]|].
  assert (va ⊞ len = va + len) as -> by word_lia.
  case_if; [split; [done|intros [?|(?&?&_)]; lia]|].
  pose proof (page_floor_indices va Hva) as (Hu&Hal&_).
  assert (page_floor va ≤ va < page_floor va + PAGE_SIZE) as Hb.
  { rewrite page_floor_frame, frame_of_floor by done. unfold PAGE_SIZE. word_lia. }
  rewrite user_pages_ok_spec; [|word_lia|done|done|lia].
  assert (∀ a, va ≤ a < va + len → is_u32 a) as Hu32 by (intros; unfold is_u32 in *; lia).
  split.
  - intros HH. right. split_and!; [lia..|]. intros a Ha. apply Hok; [by apply Hu32|].
    apply HH. lia.
  - intros [?|(_&_&HH)] a Ha; [done|]. destruct (decide (va ≤ a)).
    + apply Hok; [apply Hu32; lia|]. apply HH. lia.
    + assert (page_floor a = page_floor va) as ->.
      { rewrite !page_floor_frame, !frame_of_floor by (done || word_lia).
        rewrite page_floor_frame, frame_of_floor in * by done. unfold PAGE_SIZE in *. word_lia. }
      apply Hok; [done|]. apply HH. unfold is_u32 in *. lia.
Qed.

(** ** Creating and destroying address spaces *)

(** What [s'] shares with [s] when only frame [d] of memory was written. *)
Record wrote_frame (d : Z) (s s' : vm) : Prop := {
  wrote_outside : ∀ b, b / PAGE_SIZE * PAGE_SIZE ≠ d → pmem s' b = pmem s b;
  wrote_bytes : bytes_wf (pmem s) → bytes_wf (pmem s');
  wrote_rest : s' = with_pmem (pmem s') s;
}.

Lemma wrote_frame_refl d s : wrote_frame d s s.
Proof. split; [done|done|by destruct s]. Qed.

Lemma wrote_frame_trans d s1 s2 s3 :
  wrote_frame d s1 s2 → wrote_frame d s2 s3 → wrote_frame d s1 s3.
Proof.
  intros [H1 H2 H3] [H1' H2' H3']. split; [|auto|rewrite H3', H3; done].
  intros b Hb. by rewrite H1', H1.
Qed.

Lemma wrote_set_entry d i v s :
  d mod PAGE_SIZE = 0 → 0 ≤ i < 1024 → wrote_frame d s (set_entry d i v s).
Proof.
  intros. split; [|apply set_entry_wf|done]. intros. by apply set_entry_outside.
Qed.

Lemma wrote_zero_page d s : d mod PAGE_SIZE = 0 → wrote_frame d s (zero_page d s).
Proof. intros. split; [|apply zero_bytes_wf|done]. intros. by apply zero_page_outside. Qed.

Lemma wrote_entry d s s' t i :
  wrote_frame d s s' → t mod PAGE_SIZE = 0 → 0 ≤ i < 1024 → t ≠ d →
  entry_at (pmem s') t i = entry_at (pmem s) t i.
Proof. intros H ???. apply entry_ext; [done..|]. intros b Hb. apply H. by rewrite Hb. Qed.

Lemma copy_entries_spec from to lo hi s :
  bytes_wf (pmem s) → from mod PAGE_SIZE = 0 → to mod PAGE_SIZE = 0 → from ≠ to →
  0 ≤ lo ≤ hi → hi ≤ 1024 →
  let s' := for_range lo hi (copy_directory_entry from to) s in
  wrote_frame to s s' ∧
  ∀ i, 0 ≤ i < 1024 → entry_at (pmem s') to i
    = if (lo <=? i) && (i <? hi) then entry_at (pmem s) from i else entry_at (pmem s) to i.
Proof.
  intros Hw Hf Ht Hne Hlo Hhi.
  apply (for_range_ind (λ k s', wrote_frame to s s' ∧
    ∀ i, 0 ≤ i < 1024 → entry_at (pmem s') to i
      = if (lo <=? i) && (i <? k) then entry_at (pmem s) from i else entry_at (pmem s) to i));
    [lia|split; [apply wrote_frame_refl|]|].
  - intros i ?. case_if; [lia|done].
  - intros k s' Hk [Hwr He]. unfold copy_directory_entry. split.
    + eapply wrote_frame_trans; [done|]. apply wrote_set_entry; [done|lia].
    + intros i Hi. destruct (decide (i = k)) as [->|].
      * rewrite entry_set_same by (apply entry_u32, Hwr, Hw).
        rewrite (wrote_entry to s s') by (done || lia). case_if; [done|].
        destruct E; zbool; lia.
      * rewrite entry_set_other by (done || lia || congruence). rewrite He by done.
        repeat case_if; try done; destruct E || destruct E0; zbool; lia.
Qed.

Definition shared_with_kernel (i : Z) : bool :=
  (i <? KERNEL_SHARED_LOW_DIRECTORY_COUNT) ||
  ((DIRECT_MAP_DIRECTORY_INDEX <=? i) && (i <? RECURSIVE_DIRECTORY_INDEX)).

Definition create_spec (s : vm) (d : Z) (s' : vm) : Prop :=
  allocates (frames s) d (frames s') ∧ vm_ok s' ∧ held s' d ∧ ¬ held s d ∧
  (∀ p, held s p → held s' p) ∧
  (∀ b, b / PAGE_SIZE * PAGE_SIZE ≠ d → pmem s' b = pmem s b) ∧
  kernel_page_directory_phys s' = kernel_page_directory_phys s ∧
  ∀ i, 0 ≤ i < 1024 → entry_at (pmem s') d i
    = if shared_with_kernel i then entry_at (pmem s) (kernel_page_directory_phys s) i
      else if i =? RECURSIVE_DIRECTORY_INDEX then Z.lor d PAGE_FLAGS else 0.

Lemma create_cases s :
  vm_ok s → held s (kernel_page_directory_phys s) →
  (free_frames (frames s) = 0 ∧ paging_create_address_space s = (0, s)) ∨
  ∃ d s', paging_create_address_space s = (d, s') ∧ create_spec s d s'.
Proof.
  intros Hok Hk. unfold paging_create_address_space.
  destruct (alloc_cases s Hok) as [[Hz ->]|(d&s1&->&Ha&Hs1&Hok1&Hd&Hnd&Hm)]; [by left|right].
  pose proof Hd as (Hdu&Hd0&_). rewrite (proj2 (Z.eqb_neq d 0)) by lia.
  pose proof (held_aligned _ _ Hd) as Hda. pose proof (held_aligned _ _ Hk) as Hka.
  set (K := kernel_page_directory_phys s) in *.
  assert (K ≠ d) as Hkd by (intros E; by rewrite E in Hk).
  assert (pmem s1 = pmem s) as Hpm by (rewrite Hs1; done).
  assert (kernel_page_directory_phys (zero_page d s1) = K) as -> by (rewrite Hs1; done).
  set (s2 := zero_page d s1).
  pose proof (wrote_zero_page d s1 Hda) as Hw2. fold s2 in Hw2.
  assert (bytes_wf (pmem s2)) as Hb2 by (apply Hw2, Hok1).
  destruct (copy_entries_spec K d 0 KERNEL_SHARED_LOW_DIRECTORY_COUNT s2) as [Hw3 He3];
    [done..|unfold KERNEL_SHARED_LOW_DIRECTORY_COUNT; lia|done|].
  set (s3 := for_range 0 _ _ s2) in *. clearbody s3.
  destruct (copy_entries_spec K d DIRECT_MAP_DIRECTORY_INDEX RECURSIVE_DIRECTORY_INDEX s3)
    as [Hw4 He4]; [by apply Hw3|done..|].
  set (s4 := for_range DIRECT_MAP_DIRECTORY_INDEX _ _ s3) in *. clearbody s4.
  set (s5 := set_entry d _ _ s4).
  pose proof (wrote_frame_trans d s1 s2 s3 Hw2 Hw3) as Hw13.
  assert (wrote_frame d s1 s5) as Hw5.
  { eapply wrote_frame_trans; [exact (wrote_frame_trans d s1 s3 s4 Hw13 Hw4)|].
    by apply wrote_set_entry. }
  assert (is_u32 (Z.lor d PAGE_FLAGS)) as He by (by apply entry_range).
  exists d, s5. split; [done|]. pose proof (wrote_rest _ _ _ Hw5) as Hs5.
  unfold create_spec. split_and!; [by rewrite Hs5|split; [apply Hw5, Hok1|rewrite Hs5; apply Hok1]|..].
  - by rewrite Hs5.
  - done.
  - intros p Hp. rewrite Hs5. by apply Hm.
  - intros b Hb. by rewrite (wrote_outside _ _ _ Hw5), Hpm.
  - rewrite Hs5, Hs1. done.
  - intros i Hi. unfold s5. destruct (Z.eqb_spec i RECURSIVE_DIRECTORY_INDEX) as [->|].
    { by rewrite entry_set_same. }
    rewrite entry_set_other by (done || congruence). rewrite He4 by done.
    rewrite (wrote_entry d s1 s3) by done.
    unfold shared_with_kernel. rewrite Hpm, He3 by done. unfold s2.
    rewrite zero_page_entry, (wrote_entry d s1 (zero_page d s1)) by done. rewrite Hpm.
    rewrite (proj2 (Z.leb_le 0 i)) by lia. bsimpl.
    destruct (_ <=? i) eqn:E1, (i <? RECURSIVE_DIRECTORY_INDEX); bsimpl; rewrite ?orb_true_r, ?orb_false_r; try done.
Qed.

(** Directory entry [i] points to a table that the kernel directory does not share. *)
Definition private_table (s : vm) (dir i : Z) : bool :=
  present (entry_at (pmem s) dir i) &&
  negb (table_of s (kernel_page_directory_phys s) i =? table_of s dir i).

(** How many private tables with an index below [k] lie in frame [g]. *)
Definition private_in_frame (s : vm) (dir k g : Z) : Z :=
  count_range 0 k (λ i, private_table s dir i && (table_of s dir i / PAGE_SIZE =? g)).

Section destroy.
Context s dir
  (Hok : vm_ok s) (Hsp : space_ok s dir) (Hk : held s (kernel_page_directory_phys s))
  (Hkd : kernel_page_directory_phys s ≠ dir)
  (Hdist : ∀ i j, 0 ≤ i < RECURSIVE_DIRECTORY_INDEX → 0 ≤ j < RECURSIVE_DIRECTORY_INDEX →
     i ≠ j → private_table s dir i = true → private_table s dir j = true →
     table_of s dir i ≠ table_of s dir j).

#[local] Abbreviation K := (kernel_page_directory_phys s).

(** After the entries below [k] have been released. *)
Record released (k : Z) (s' : vm) : Prop := {
  rel_inv : palloc_inv (frames s');
  rel_limit : first_unusable_frame (frames s') = first_unusable_frame (frames s);
  rel_outside : ∀ b, b / PAGE_SIZE * PAGE_SIZE ≠ dir → pmem s' b = pmem s b;
  rel_entries : ∀ j, k ≤ j < 1024 → entry_at (pmem s') dir j = entry_at (pmem s) dir j;
  rel_refs : ∀ g, frame_refs (frames s') g = frame_refs (frames s) g - private_in_frame s dir k g;
}.

Lemma held_used (st : palloc) pa :
  palloc_inv st → is_u32 pa → pa mod PAGE_SIZE = 0 → pa / PAGE_SIZE < first_unusable_frame st →
  1 ≤ frame_refs st (pa / PAGE_SIZE) → live_page st pa = true.
Proof.
  intros Hinv Hu Hm Hl Hr. unfold live_page. rewrite Hm.
  rewrite (proj2 (Z.ltb_lt _ _)) by done. unfold frame_refs in Hr.
  destruct (frame_is_used st _); [done|lia].
Qed.

Lemma held_refs pa : held s pa →
  is_u32 pa ∧ pa mod PAGE_SIZE = 0 ∧ pa / PAGE_SIZE < first_unusable_frame (frames s) ∧
  1 ≤ frame_refs (frames s) (pa / PAGE_SIZE).
Proof.
  intros Hh. pose proof (held_aligned _ _ Hh). destruct Hh as (Hu&H0&Hl).
  destruct Hok as [_ [Hinv _]].
  destruct (live_page_refs _ pa Hinv ltac:(lia) Hl) as (?&Hused&?&_).
  split_and!; [word_lia..|done|lia|]. unfold frame_refs. rewrite Hused. lia.
Qed.

Lemma private_in_frame_own k i :
  0 ≤ k ≤ i → i < RECURSIVE_DIRECTORY_INDEX → private_table s dir i = true →
  private_in_frame s dir k (table_of s dir i / PAGE_SIZE) = 0.
Proof.
  intros Hki Hi Hp. apply count_range_zero. intros j Hj.
  destruct (private_table s dir j) eqn:Hpj; [|done]. apply Z.eqb_neq.
  assert (∀ m, 0 ≤ m < RECURSIVE_DIRECTORY_INDEX → private_table s dir m = true →
    table_of s dir m mod PAGE_SIZE = 0) as Hal.
  { intros m Hm Hpm. apply andb_prop in Hpm as [Hpm _]. apply (held_aligned s).
    by apply (space_tables s dir Hsp m). }
  pose proof (Hal i ltac:(lia) Hp). pose proof (Hal j ltac:(lia) Hpj).
  pose proof (Hdist i j ltac:(lia) ltac:(lia) ltac:(lia) Hp Hpj).
  unfold PAGE_SIZE in *. word_lia.
Qed.

Lemma release_step k s' :
  0 ≤ k < RECURSIVE_DIRECTORY_INDEX → released k s' →
  released (k + 1) (release_directory_entry K dir k s').
Proof.
  intros Hk' [Hinv Hlim Hout Hent Hrefs].
  pose proof (held_aligned _ _ Hk) as Hka. pose proof (held_aligned _ _ (space_dir _ _ Hsp)) as Hda.
  assert (RECURSIVE_DIRECTORY_INDEX = 1023) as HR by done.
  assert (entry_at (pmem s') K k = entry_at (pmem s) K k) as HeK.
  { apply entry_ext; [done|lia|]. intros b Hb. apply Hout. rewrite Hb. done. }
  unfold release_directory_entry. rewrite present_bit, Hent, HeK by lia.
  assert (∀ g, private_in_frame s dir (k + 1) g = private_in_frame s dir k g +
    (if private_table s dir k && (table_of s dir k / PAGE_SIZE =? g) then 1 else 0)) as Hcount
    by (intros; apply count_range_snoc; lia).
  fold (table_of s K k) (table_of s dir k).
  destruct (private_table s dir k) eqn:Hpriv.
  2:{ assert (released (k + 1) s') as Hrel.
      { split; try done; [intros; apply Hent; lia|]. intros g. rewrite Hrefs, Hcount. bsimpl. lia. }
      apply andb_false_iff in Hpriv. unfold present in Hpriv.
      destruct (Z.testbit _ 0); bsimpl; [|done].
      destruct Hpriv as [?|Hf%negb_false_iff]; [done|]. by rewrite Hf. }
  pose proof Hpriv as [Hp Hf]%andb_prop. unfold present in Hp. rewrite Hp. bsimpl.
  apply negb_true_iff in Hf. rewrite Hf.
  destruct (space_tables s dir Hsp k Hk' Hp) as [Ht Htd].
  set (t := table_of s dir k) in *.
  destruct (held_refs t Ht) as (Htu&Hta&Htl&Htr).
  assert (live_page (frames s') t = true) as Hlive.
  { apply held_used; try done; [by rewrite Hlim|]. rewrite Hrefs.
    pose proof (private_in_frame_own k k ltac:(lia) ltac:(lia) Hpriv) as Hz. fold t in Hz. lia. }
  pose proof (free_page_cases (frames s') t Hinv ltac:(word_lia)) as Hd. rewrite Hlive in Hd.
  destruct Hd as (Hg&_&Hlim'&Hinv').
  split; simpl; try done; [by rewrite Hlim'|..].
  - intros b Hb. rewrite <- Hout by done. apply store32_other. unfold PAGE_SIZE in *. word_lia.
  - intros j Hj. rewrite <- Hent by lia. apply (entry_set_other s'); try done; [lia..|]; intros [= ?]; lia.
  - intros g. rewrite Hg, Hrefs, Hcount. bsimpl. case_if; lia.
Qed.

Lemma released_all :
  released RECURSIVE_DIRECTORY_INDEX
    (for_range 0 RECURSIVE_DIRECTORY_INDEX (release_directory_entry K dir) s).
Proof.
  apply for_range_ind; [done| |apply release_step].
  destruct Hok as [_ [Hinv _]]. split; try done.
  intros g. unfold private_in_frame, count_range. simpl. lia.
Qed.

End destroy.

(** ** Properties *)

(** C4: Mapping a page either refuses and leaves the machine alone (an address that
    is not page aligned, no frame for a new table, or a user mapping under a
    kernel-shared directory entry), or it succeeds: the page then translates to
    the given frame and flags, every other page of the address space translates as
    before, memory outside the directory and that one table is untouched, and a
    new table is a freshly allocated frame. *)
Theorem paging_map_page_spec s dir va pa fl :
  vm_ok s → space_ok s dir → is_u32 va → is_u32 pa → 0 ≤ fl < PAGE_SIZE →
  page_directory_index va < RECURSIVE_DIRECTORY_INDEX →
  own_table s dir (page_directory_index va) →
  (map_refused s dir va pa fl ∧ paging_map_page_in dir va pa fl s = (-1, s)) ∨
  ∃ s', paging_map_page_in dir va pa fl s = (0, s') ∧ maps s dir va pa fl s'.
Proof.
  intros Hok Hsp Hva Hpa Hfl Hlt Hown.
  destruct (map_page_cases s dir va pa fl) as [|(_&?&s1&Hprep&Heq)]; [done..|by left|].
  right. eexists. split; [exact Heq|]. by apply store_maps.
Qed.

(** Unmapping undoes a mapping: after a page is mapped and unmapped again, it
    translates to nothing, every other page translates as it did
    before the two calls, and the allocator has lost at most a page-table frame. *)
Theorem paging_map_unmap_roundtrip s dir va pa fl s' :
  vm_ok s → space_ok s dir → is_u32 va → is_u32 pa → 0 ≤ fl < PAGE_SIZE →
  page_directory_index va < RECURSIVE_DIRECTORY_INDEX →
  own_table s dir (page_directory_index va) →
  paging_map_page_in dir va pa fl s = (0, s') →
  let s'' := paging_unmap_page_in dir va s' in
  paging_lookup_page_in dir va s'' = None ∧
  (∀ va', is_u32 va' → page_directory_index va' < RECURSIVE_DIRECTORY_INDEX →
     va' / PAGE_SIZE ≠ va / PAGE_SIZE →
     paging_lookup_page_in dir va' s'' = paging_lookup_page_in dir va' s) ∧
  (frames s'' = frames s ∨
   allocates (frames s) (table_of s'' dir (page_directory_index va)) (frames s'')).
Proof.
  intros Hok Hsp Hva Hpa Hfl Hlt Hown Hmap.
  pose proof (page_indices_range va Hva) as [Hr1 _].
  destruct (map_page_cases s dir va pa fl) as [[_ Heq]|(Hal&Hpal&s1&Hprep&Heq)];
    [done..|congruence|].
  assert (maps s dir va pa fl s') as Hm.
  { rewrite Heq in Hmap. injection Hmap as <-. by apply store_maps. }
  destruct (unmap_cases s' dir va) as (?&?&Hfr&He&Hn&Ho&_); try done; [apply Hm..| |].
  { apply (maps_own _ _ _ _ _ _ Hm); [lia|done]. }
  split_and!; [done| |].
  - intros va' ???. rewrite Ho by done. by apply (maps_others _ _ _ _ _ _ Hm).
  - unfold table_of. rewrite Hfr, He by (unfold PAGE_DIRECTORY_ENTRIES in *; lia).
    pose proof (maps_table _ _ _ _ _ _ Hm) as Ht.
    destruct (present _); [left|right]; apply Ht.
Qed.

(** C32: Resolving a write fault on a user page marked copy-on-write.  When
    the frame is held once it is kept and the page becomes writable; when it is
    shared and memory is left, the page gets a new frame with the same bytes,
    the shared frame keeps its bytes and loses one reference; when memory is out,
    the call fails and changes nothing.  All other pages keep their translation. *)
Theorem paging_cow_spec s dir va pp fl :
  vm_ok s → space_ok s dir → is_u32 va →
  KERNEL_SHARED_LOW_DIRECTORY_COUNT ≤ page_directory_index va < DIRECT_MAP_DIRECTORY_INDEX →
  own_table s dir (page_directory_index va) →
  paging_lookup_page_in dir (page_floor va) s = Some (pp, fl) →
  held s pp → pp ≠ dir → pp ≠ table_of s dir (page_directory_index va) →
  Z.testbit fl 0 = true → Z.testbit fl 2 = true → Z.testbit fl 9 = true →
  Z.testbit fl 1 = false →
  let '(r, s') := paging_resolve_copy_on_write_in dir va s in
  if palloc_page_refcount pp (frames s) =? 1 then
    r = 0 ∧ cow_resolved s dir (page_floor va) pp fl pp s' ∧ frames s' = frames s
  else if free_frames (frames s) =? 0 then r = -1 ∧ s' = s
  else r = 0 ∧ ∃ np, ¬ held s np ∧ cow_resolved s dir (page_floor va) pp fl np s' ∧
         frame_refs (frames s') (np / PAGE_SIZE) = 1 ∧
         ∀ g, g ≠ np / PAGE_SIZE →
           frame_refs (frames s') g
           = frame_refs (frames s) g - (if g =? pp / PAGE_SIZE then 1 else 0).
Proof. intros. by apply resolve_cow_outcome. Qed.

(** C33: The user-pointer checks are exact.  [paging_user_range_mapped_in] accepts
    a range just when it is empty or lies wholly inside the user half without
    wrapping and every byte of it is on a present page that both table levels
    open to user code; [paging_user_range_writable_in] is the same for pages that
    are writable or copy-on-write.  The page walk always terminates. *)
Theorem paging_user_range_spec s dir va len :
  is_u32 va → is_u32 len → dir ≠ 0 →
  (paging_user_range_mapped_in dir va len s = true ↔
     len = 0 ∨ (USER_VIRT_BASE ≤ va ∧ va + len ≤ USER_VIRT_LIMIT ∧
                ∀ a, va ≤ a < va + len → user_mapped s dir a)) ∧
  (paging_user_range_writable_in dir va len s = true ↔
     len = 0 ∨ (USER_VIRT_BASE ≤ va ∧ va + len ≤ USER_VIRT_LIMIT ∧
                ∀ a, va ≤ a < va + len → user_writable s dir a)).
Proof.
  intros. split; apply user_range_ok_spec; try done; intros.
  - by apply user_page_mapped_spec.
  - by apply user_page_writable_spec.
Qed.

(** A new address space has the kernel's half and nothing else: unless no frame
    is left (then nothing changes), the new directory is a fresh frame, every
    address the kernel shares translates as in the kernel directory, no user address
    translates at all, and no byte outside the new frame has changed. *)
Theorem paging_create_address_space_spec s :
  vm_ok s → space_ok s (kernel_page_directory_phys s) →
  let '(d, s') := paging_create_address_space s in
  if free_frames (frames s) =? 0 then d = 0 ∧ s' = s
  else allocates (frames s) d (frames s') ∧
    (∀ va, is_u32 va → shared_with_kernel (page_directory_index va) = true →
       paging_lookup_page_in d va s' = paging_lookup_page_in (kernel_page_directory_phys s) va s) ∧
    (∀ va, USER_VIRT_BASE ≤ va < USER_VIRT_LIMIT → paging_lookup_page_in d va s' = None) ∧
    (∀ b, b / PAGE_SIZE * PAGE_SIZE ≠ d → pmem s' b = pmem s b).
Proof.
  intros Hok Hsp. pose proof (space_dir _ _ Hsp) as Hk. pose proof Hk as (_&Hk0&_).
  destruct (create_cases s Hok Hk) as [[-> ->]|(d&s'&->&Hc)]; [done|].
  destruct Hc as (Ha&Hok'&Hd&Hnd&Hm&Hout&_&Hent). pose proof Hd as (_&Hd0&_).
  rewrite (proj2 (Z.eqb_neq (free_frames _) 0)).
  2:{ intros Hz. destruct Ha as (f&_&Hf&Hu&_), Hok as [_ [Hinv _]]. pose proof (inv_limit _ Hinv).
      rewrite (inv_count _ Hinv), count_range_zero in Hz.
      specialize (Hz f ltac:(lia)). unfold frame_free in Hz. by rewrite Hu in Hz. }
  split_and!; [done| | |done].
  - intros va Hva Hsh. pose proof (page_indices_range va Hva) as [Hr1 Hr2].
    rewrite !lookup_eq by (apply Hok || apply Hok' || lia). cbv zeta.
    rewrite Hent, Hsh by done.
    destruct (present _) eqn:Hp; [|done]. bsimpl.
    assert (page_directory_index va < RECURSIVE_DIRECTORY_INDEX) as Hlt.
    { unfold shared_with_kernel, KERNEL_SHARED_LOW_DIRECTORY_COUNT, RECURSIVE_DIRECTORY_INDEX in *.
      zbool. destruct Hsh; zbool; lia. }
    destruct (space_tables s _ Hsp (page_directory_index va) ltac:(lia) Hp) as [Ht _].
    unfold table_of in Ht.
    set (t := frame_of _) in *.
    assert (entry_at (pmem s') t (page_table_index va) = entry_at (pmem s) t (page_table_index va))
      as ->; [|done].
    apply entry_ext; [by apply (held_aligned s)|done|]. intros b Hb. apply Hout. rewrite Hb.
    intros E. by rewrite E in Ht.
  - intros va Hva. unfold USER_VIRT_BASE, USER_VIRT_LIMIT, KERNEL_DIRECT_MAP_BASE in Hva.
    assert (is_u32 va) as Hu by (unfold is_u32; lia).
    pose proof (page_indices_range va Hu) as [Hr1 Hr2].
    rewrite lookup_eq by (apply Hok' || lia). cbv zeta. rewrite Hent by done.
    assert (1 ≤ page_directory_index va < 768) as Hi.
    { destruct (page_indices va Hu) as [-> _].
      unfold PAGE_TABLE_SPAN, PAGE_TABLE_ENTRIES, PAGE_SIZE. word_lia. }
    unfold shared_with_kernel, KERNEL_SHARED_LOW_DIRECTORY_COUNT, RECURSIVE_DIRECTORY_INDEX,
      DIRECT_MAP_DIRECTORY_INDEX.
    rewrite (proj2 (Z.ltb_ge _ 1)), (proj2 (Z.leb_gt 768 _)), (proj2 (Z.eqb_neq _ 1023)) by lia.
    done.
Qed.

(** Destroying an address space drops exactly one reference to each of its private
    page tables and one to its directory, touches no other count, keeps the
    allocator's invariant, and writes only to the directory's frame. *)
Theorem paging_destroy_spec s dir :
  vm_ok s → space_ok s dir → held s (kernel_page_directory_phys s) →
  kernel_page_directory_phys s ≠ dir →
  (∀ i j, 0 ≤ i < RECURSIVE_DIRECTORY_INDEX → 0 ≤ j < RECURSIVE_DIRECTORY_INDEX →
     i ≠ j → private_table s dir i = true → private_table s dir j = true →
     table_of s dir i ≠ table_of s dir j) →
  let s' := paging_destroy_address_space dir s in
  palloc_inv (frames s') ∧
  (∀ b, b / PAGE_SIZE * PAGE_SIZE ≠ dir → pmem s' b = pmem s b) ∧
  ∀ g, frame_refs (frames s') g = frame_refs (frames s) g
       - private_in_frame s dir RECURSIVE_DIRECTORY_INDEX g
       - (if dir / PAGE_SIZE =? g then 1 else 0).
Proof.
  intros Hok Hsp Hk Hkd Hdist.
  destruct (held_refs s Hok dir (space_dir _ _ Hsp)) as (Hdu&Hda&Hdl&Hdr).
  pose proof (space_dir _ _ Hsp) as (_&Hd0&_).
  unfold paging_destroy_address_space.
  rewrite (proj2 (Z.eqb_neq dir 0)), (proj2 (Z.eqb_neq dir _)) by (done || lia). bsimpl.
  pose proof (released_all s dir Hok Hsp Hk Hkd Hdist) as Hrel. revert Hrel.
  generalize (for_range 0 RECURSIVE_DIRECTORY_INDEX (release_directory_entry (kernel_page_directory_phys s) dir) s).
  intros s1 [Hinv Hlim Hout _ Hrefs].
  assert (private_in_frame s dir RECURSIVE_DIRECTORY_INDEX (dir / PAGE_SIZE) = 0) as Hz.
  { apply count_range_zero. intros j Hj. destruct (private_table s dir j) eqn:Hp; [|done].
    apply andb_prop in Hp as [Hp _]. destruct (space_tables s dir Hsp j Hj Hp) as [Ht Hne].
    apply Z.eqb_neq. apply held_aligned in Ht. unfold PAGE_SIZE in *. word_lia. }
  assert (live_page (frames s1) dir = true) as Hlive.
  { apply held_used; try done; [by rewrite Hlim|]. rewrite Hrefs, Hz. lia. }
  pose proof (free_page_cases (frames s1) dir Hinv ltac:(lia)) as Hd. rewrite Hlive in Hd.
  destruct Hd as (Hg&_&_&Hinv'). split_and!; [done|done|].
  intros g. simpl. rewrite Hg, Hrefs. case_if; lia.
Qed.

(** ** Witnesses *)

(** Zeroed memory with frame 256 held as the kernel directory. *)
Definition w_vm : vm :=
  {| pmem := λ _, 0; frames := one_page; kernel_page_directory_phys := 1048576;
     direct_map_limit := 1179648; cr3 := 1048576; paging_enabled := true |}.

Lemma w_vm_ok : vm_ok w_vm.
Proof. split; [done|apply one_page_ok]. Qed.

Lemma w_vm_space : space_ok w_vm 1048576.
Proof.
  split; [|done]. split_and!; [done|done|]. vm_compute. reflexivity.
Qed.

Lemma w_vm_own i : own_table w_vm 1048576 i.
Proof. done. Qed.

Lemma paging_map_page_spec_witness :
  ∃ s', paging_map_page_in 1048576 4194304 1228800 7 w_vm = (0, s') ∧
        maps w_vm 1048576 4194304 1228800 7 s'.
Proof.
  destruct (paging_map_page_spec w_vm 1048576 4194304 1228800 7) as [[H _]|H].
  - apply w_vm_ok.
  - apply w_vm_space.
  - unfold is_u32. lia.
  - unfold is_u32. lia.
  - unfold PAGE_SIZE. lia.
  - reflexivity.
  - apply w_vm_own.
  - exfalso. destruct H as [H|[H|[[_ H]|(_&H&_)]]]; [by apply H..| |discriminate H].
    vm_compute in H. discriminate H.
  - exact H.
Defined.

Lemma paging_map_unmap_roundtrip_witness :
  paging_lookup_page_in 1048576 4194304
    (paging_unmap_page_in 1048576 4194304 (paging_map_page_in 1048576 4194304 1228800 7 w_vm).2)
  = None.
Proof.
  destruct (paging_map_unmap_roundtrip w_vm 1048576 4194304 1228800 7
    (paging_map_page_in 1048576 4194304 1228800 7 w_vm).2) as [H _].
  - apply w_vm_ok.
  - apply w_vm_space.
  - unfold is_u32. lia.
  - unfold is_u32. lia.
  - unfold PAGE_SIZE. lia.
  - reflexivity.
  - apply w_vm_own.
  - apply pair_fst. vm_compute. reflexivity.
  - exact H.
Defined.

Lemma paging_create_address_space_spec_witness :
  paging_lookup_page_in (paging_create_address_space w_vm).1 4194304
    (paging_create_address_space w_vm).2 = None.
Proof.
  pose proof (paging_create_address_space_spec w_vm w_vm_ok w_vm_space) as H.
  destruct (paging_create_address_space w_vm) as [d s'].
  assert (free_frames (frames w_vm) = 15) as E by (vm_compute; reflexivity).
  rewrite E in H. apply H. unfold USER_VIRT_BASE, USER_VIRT_LIMIT, KERNEL_DIRECT_MAP_BASE. lia.
Defined.

(** The address space created from [w_vm], at frame 257. *)
Definition w_child : vm := (paging_create_address_space w_vm).2.

Lemma w_child_spec : create_spec w_vm 1052672 w_child.
Proof.
  destruct (create_cases w_vm w_vm_ok (space_dir _ _ w_vm_space)) as [[H _]|(d&s'&Heq&Hc)].
  - vm_compute in H. discriminate H.
  - assert (d = 1052672) as ->.
    { change d with (d, s').1. rewrite <- Heq. vm_compute. reflexivity. }
    unfold w_child. by rewrite Heq.
Qed.

Lemma w_child_absent i :
  0 ≤ i < RECURSIVE_DIRECTORY_INDEX → entry_at (pmem w_child) 1052672 i = 0.
Proof.
  intros Hi. unfold RECURSIVE_DIRECTORY_INDEX in *.
  destruct w_child_spec as (_&_&_&_&_&_&_&He). rewrite He by lia.
  rewrite (proj2 (Z.eqb_neq i RECURSIVE_DIRECTORY_INDEX)) by (unfold RECURSIVE_DIRECTORY_INDEX; lia).
  by destruct (shared_with_kernel i).
Qed.

Lemma paging_destroy_spec_witness :
  frame_refs (frames (paging_destroy_address_space 1052672 w_child)) 257
  = frame_refs (frames w_child) 257 - 1.
Proof.
  destruct w_child_spec as (_&Hok&Hd&_&Hm&_&Hk&_).
  destruct (paging_destroy_spec w_child 1052672) as (_&_&H).
  - exact Hok.
  - split; [exact Hd|]. intros i Hi. rewrite w_child_absent by exact Hi. intros H. discriminate H.
  - rewrite Hk. apply Hm, w_vm_space.
  - rewrite Hk. discriminate.
  - intros i j Hi _ _ Hp. unfold private_table in Hp. rewrite w_child_absent in Hp by exact Hi.
    discriminate Hp.
  - rewrite H.
    assert (private_in_frame w_child 1052672 RECURSIVE_DIRECTORY_INDEX 257 = 0) as ->.
    { apply count_range_zero. intros i Hi. unfold private_table. by rewrite w_child_absent. }
    change (1052672 / PAGE_SIZE =? 257) with true. cbv iota. lia.
Defined.

(** Frame 257 shared by two holders and mapped copy-on-write at the first user page. *)
Definition w_shared : vm :=
  with_frames (palloc_retain_page 1052672 (palloc_alloc_page one_page).2).2 w_vm.

Lemma w_shared_ok : vm_ok w_shared.
Proof.
  split; [done|]. apply (palloc_step_ok (palloc_alloc_page one_page).2).
  - apply step_retain; [done|].
    assert (frame_refs (palloc_alloc_page one_page).2 (1052672 / PAGE_SIZE) = 1) as -> by (vm_compute; reflexivity).
    lia.
  - apply (palloc_step_ok one_page); [constructor|apply one_page_ok].
Qed.

Lemma w_shared_space : space_ok w_shared 1048576.
Proof. split; [|done]. split_and!; [done|done|]. vm_compute. reflexivity. Qed.

Definition w_cow : vm := (paging_map_page_in 1048576 4194304 1052672 517 w_shared).2.

Lemma w_cow_maps : maps w_shared 1048576 4194304 1052672 517 w_cow.
Proof.
  destruct (map_page_cases w_shared 1048576 4194304 1052672 517) as [[_ E]|(_&_&s1&Hp&E)];
    [apply w_shared_ok|apply w_shared_space|done|done|done|..].
  - exfalso. assert ((paging_map_page_in 1048576 4194304 1052672 517 w_shared).1 = 0) as H
      by (vm_compute; reflexivity). rewrite E in H. discriminate H.
  - unfold w_cow. rewrite E. cbn [snd].
    assert (own_table w_shared 1048576 (page_directory_index 4194304)) as Hown.
    { intros H. discriminate H. }
    assert (is_u32 4194304 ∧ is_u32 1052672 ∧ 0 ≤ 517 < PAGE_SIZE) as (H1&H2&H3)
      by (unfold is_u32, PAGE_SIZE; lia).
    exact (store_maps w_shared 1048576 4194304 1052672 517 s1 w_shared_ok w_shared_space
             H1 eq_refl Hown H2 eq_refl H3 Hp).
Qed.

Lemma paging_cow_spec_witness :
  let '(r, s') := paging_resolve_copy_on_write_in 1048576 4194500 w_cow in
  r = 0 ∧ ∃ np, ¬ held w_cow np ∧ cow_resolved w_cow 1048576 4194304 1052672 517 np s' ∧
    frame_refs (frames s') (np / PAGE_SIZE) = 1.
Proof.
  pose proof w_cow_maps as [Hok Hsp Hheld Hown Hpage _ _ _ _].
  pose proof (paging_cow_spec w_cow 1048576 4194500 1052672 517 Hok Hsp) as H.
  change (page_floor 4194500) with 4194304 in H.
  change (page_directory_index 4194500) with 1 in H.
  assert (held w_shared 1052672) as Hh.
  { refine (conj _ (conj _ _)); [unfold is_u32; lia|lia|vm_compute; reflexivity]. }
  assert (palloc_page_refcount 1052672 (frames w_cow) = 2) as E1 by (vm_compute; reflexivity).
  assert (free_frames (frames w_cow) = 13) as E2 by (vm_compute; reflexivity).
  rewrite E1, E2 in H.
  destruct (paging_resolve_copy_on_write_in 1048576 4194500 w_cow) as [r s'].
  destruct H as (Hr&np&Hn&Hc&Hf&_); try reflexivity.
  - unfold is_u32. lia.
  - unfold KERNEL_SHARED_LOW_DIRECTORY_COUNT, DIRECT_MAP_DIRECTORY_INDEX. lia.
  - apply Hown; [unfold RECURSIVE_DIRECTORY_INDEX; lia|]. intros H. discriminate H.
  - apply Hheld, Hh.
  - discriminate.
  - vm_compute. discriminate.
  - split; [exact Hr|]. exists np. split_and!; assumption.
Defined.

Lemma paging_user_range_spec_witness :
  paging_user_range_mapped_in 1048576 4194400 100 w_cow = true ∧
  user_mapped w_cow 1048576 4194450.
Proof.
  assert (paging_user_range_mapped_in 1048576 4194400 100 w_cow = true) as E
    by (vm_compute; reflexivity).
  split; [exact E|].
  destruct (paging_user_range_spec w_cow 1048576 4194400 100) as [H _].
  - unfold is_u32. lia.
  - unfold is_u32. lia.
  - discriminate.
  - apply H in E as [E|(_&_&E)]; [discriminate E|]. apply E. lia.
Defined.
