(* ===== verification/PagingInit.v ===== *)
(** * Bringing up paging ([paging_init] of [src/kernel/paging.c]) and the MMIO
    window ([src/kernel/mmio.c])

    The theorems here justify how the rest of the development reads physical
    memory: after [paging_init] every frame below the direct-map limit is
    visible at [KERNEL_DIRECT_MAP_BASE] plus its address. *)

From S2P Require Import Prelude Mem Palloc Paging.

Local Open Scope Z_scope.
Local Open Scope c_scope.

(** ** [mmio.c] *)

Definition align_down (value alignment : Z) : Z := Z.land value (not32 (alignment - 1)).

(** [for (offset = 0; offset < map_length; offset += PAGE_SIZE)]; [map_length] is a
    multiple of the page size, so the loop makes [map_length / PAGE_SIZE] turns.
    [true] when every page was mapped. *)
Fixpoint mmio_map_loop (turns : nat) (virtual_base physical_base offset map_length : Z) (s : vm)
    : bool * vm :=
  if offset <? map_length then
    match turns with
    | O => (false, s)
    | S turns =>
        let '(r, s) := paging_map_page (virtual_base ⊞ offset) (physical_base ⊞ offset)
                         (Z.lor PAGE_WRITABLE PAGE_CACHE_DISABLE) s in
        if truthy r then (false, s)
        else mmio_map_loop turns virtual_base physical_base (offset ⊞ PAGE_SIZE) map_length s
    end
  else (true, s).

(** [mmio_next_virtual] is the state: the result is the virtual address (0 on
    failure), its new value and the machine. *)
Definition mmio_map_region (physical_address length mmio_next_virtual : Z) (s : vm)
    : Z * Z * vm :=
  if length =? 0 then (0, mmio_next_virtual, s)
  else
    let physical_base := align_down physical_address PAGE_SIZE in
    let physical_end := align_up (physical_address ⊞ length) PAGE_SIZE in
    if physical_end <? physical_base then (0, mmio_next_virtual, s)
    else
      let map_length := physical_end ⊟ physical_base in
      if KERNEL_MMIO_LIMIT <? mmio_next_virtual ⊞ map_length then (0, mmio_next_virtual, s)
      else
        let virtual_base := mmio_next_virtual in
        let '(ok, s) := mmio_map_loop (Z.to_nat (map_length / PAGE_SIZE)) virtual_base
                          physical_base 0 map_length s in
        if negb ok then (0, mmio_next_virtual, s)
        else (virtual_base ⊞ (physical_address ⊟ physical_base),
              mmio_next_virtual ⊞ map_length, s).

(** A region that is mapped lies in the window. *)
Lemma mmio_map_region_bounds physical_address length next s va next' s' :
  0 ≤ physical_address → 0 ≤ length ≤ KERNEL_MMIO_LIMIT - KERNEL_MMIO_BASE → physical_address + length + 4095 < 4294967296 →
  KERNEL_MMIO_BASE ≤ next ≤ KERNEL_MMIO_LIMIT →
  mmio_map_region physical_address length next s = (va, next', s') → va ≠ 0 →
  KERNEL_MMIO_BASE ≤ va ∧ va + length ≤ KERNEL_MMIO_LIMIT.
Proof.
  intros Hp Hl Hs Hn. unfold mmio_map_region. cbv zeta.
  assert (align_down physical_address PAGE_SIZE = PAGE_SIZE * (physical_address / PAGE_SIZE)) as -> by (apply frame_of_floor; split; lia).
  rewrite (u32_small (physical_address + length)) by lia.
  assert (align_up (physical_address + length) PAGE_SIZE = (physical_address + length + PAGE_SIZE - 1) / PAGE_SIZE * PAGE_SIZE) as ->.
  { change PAGE_SIZE with (2 ^ 12). apply align_mask; lia. }
  unfold KERNEL_MMIO_LIMIT, KERNEL_MMIO_BASE in *. change PAGE_SIZE with 4096.
  set (lo := 4096 * (physical_address / 4096)). set (hi := (physical_address + length + 4096 - 1) / 4096 * 4096).
  assert (lo ≤ physical_address < lo + 4096 ∧ physical_address + length ≤ hi < physical_address + length + 4096 ∧ 0 ≤ lo) as (?&?&?)
    by (unfold lo, hi; Z.to_euclidean_division_equations; lia).
  clearbody lo hi. case_if; [by intros [= <- <- <-]|]. case_if; [by intros [= <- <- <-]|]. rewrite (u32_small (hi - lo)) by lia.
  rewrite (u32_small (next + (hi - lo))) by lia. case_if; [by intros [= <- <- <-]|].
  destruct (mmio_map_loop _ _ _ _ _ _) as [ok s1]. case_if; [by intros [= <- <- <-]|]. intros [= <- <- <-] _.
  rewrite (u32_small (physical_address - lo)) by lia. rewrite u32_small by lia. lia.
Qed.

(** ** The direct map *)

(** Table [t] maps the [j]-th 4 MiB of physical memory, up to [limit]. *)
Definition direct_table (m : carray Z) (t j limit : Z) : Prop :=
  ∀ k, 0 ≤ k < PAGE_TABLE_ENTRIES →
    entry_at m t k = let pa := j * PAGE_TABLE_SPAN + k * PAGE_SIZE in
                     if pa <? limit then Z.lor pa PAGE_FLAGS else 0.

Lemma align_up_pow2 v k :
  0 ≤ v → 0 ≤ k < 32 → v + 2 ^ k - 1 < 4294967296 →
  align_up v (2 ^ k) = (v + 2 ^ k - 1) / 2 ^ k * 2 ^ k.
Proof. apply align_mask. Qed.

Lemma fill_direct_table_spec n t j e s :
  Z.of_nat n = PAGE_TABLE_ENTRIES - e → 0 ≤ e → 0 ≤ j < 1024 → t mod PAGE_SIZE = 0 →
  let s' := fill_direct_table n t (j * PAGE_TABLE_SPAN) e s in
  wrote_frame t s s' ∧
  ∀ k, 0 ≤ k < PAGE_TABLE_ENTRIES → entry_at (pmem s') t k =
    let pa := j * PAGE_TABLE_SPAN + k * PAGE_SIZE in
    if (e <=? k) && (pa <? direct_map_limit s) then Z.lor pa PAGE_FLAGS
    else entry_at (pmem s) t k.
Proof.
  revert e s. induction n as [|n IH]; intros e s Hn He Hj Ht; cbn [fill_direct_table].
  - split; [apply wrote_frame_refl|]. intros k Hk. case_if; [lia|done].
  - assert (PAGE_TABLE_ENTRIES = 1024 ∧ PAGE_TABLE_SPAN = 4194304 ∧ PAGE_SIZE = 4096)
      as (HE&HS&HP) by done.
    assert (j * PAGE_TABLE_SPAN ⊞ (e ⊠ PAGE_SIZE) = j * PAGE_TABLE_SPAN + e * PAGE_SIZE) as ->
      by word_lia.
    set (pa := j * PAGE_TABLE_SPAN + e * PAGE_SIZE).
    case_if.
    + split; [apply wrote_frame_refl|]. intros k Hk. cbv zeta. case_if; [lia|done].
    + assert (is_u32 (Z.lor pa PAGE_FLAGS)) as Hu.
      { apply entry_range; [word_lia| |done]. unfold pa. word_lia. }
      set (s1 := set_entry t e (Z.lor pa PAGE_FLAGS) s).
      destruct (IH (e + 1) s1 ltac:(lia) ltac:(lia) Hj Ht) as [Hw Hent].
      split; [eapply wrote_frame_trans; [|done]; apply wrote_set_entry; [done|lia]|].
      intros k Hk. rewrite Hent by done. cbv zeta.
      change (direct_map_limit s1) with (direct_map_limit s).
      destruct (decide (k = e)) as [->|Hne].
      * unfold s1. rewrite entry_set_same by done. fold pa.
        rewrite (proj2 (Z.leb_gt (e + 1) e)), (proj2 (Z.leb_le e e)), (proj2 (Z.ltb_lt pa _)) by lia.
        done.
      * unfold s1. rewrite entry_set_other by (done || lia || congruence).
        destruct (Z.leb_spec e k), (Z.leb_spec (e + 1) k); done || lia.
Qed.

(** While memory is left, allocation succeeds and takes one frame. *)
Lemma alloc_ok s :
  vm_ok s → 0 < free_frames (frames s) →
  ∃ pa s', paging_alloc_page s = (pa, s') ∧ pa ≠ 0 ∧ s' = with_frames (frames s') s ∧
    vm_ok s' ∧ held s' pa ∧ ¬ held s pa ∧ (∀ p, held s p → held s' p) ∧
    free_frames (frames s') = free_frames (frames s) - 1.
Proof.
  intros Hok Hf. destruct (alloc_cases s Hok) as [[Hz _]|(pa&s'&Heq&Ha&Hs'&Hok'&Hh&Hn&Hm)]; [lia|].
  exists pa, s'. pose proof Hh as (_&H0&_). destruct Ha as (f&_&_&_&_&Hfree&_).
  split_and!; try done. lia.
Qed.

(** The machine state between the loops of [paging_init]: the first [k] direct
    tables exist under both of their directory entries. *)
Record direct_inv (D L F k : Z) (s : vm) : Prop := {
  di_ok : vm_ok s;
  di_dir : held s D;
  di_limit : direct_map_limit s = L;
  di_kernel : kernel_page_directory_phys s = D;
  di_tables : ∀ j, 0 ≤ j < k → ∃ t, held s t ∧ t ≠ D ∧
    entry_at (pmem s) D j = Z.lor t PAGE_FLAGS ∧
    entry_at (pmem s) D (DIRECT_MAP_DIRECTORY_INDEX + j) = Z.lor t PAGE_FLAGS ∧
    direct_table (pmem s) t j L;
  di_free : F ≤ free_frames (frames s);
}.

(** [s'] keeps the direct tables of [s] when it keeps the frames in use, the
    directory aside, and those entries of the directory. *)
Lemma direct_tables_kept D L F F' k s s' :
  direct_inv D L F k s → vm_ok s' → (∀ p, held s p → held s' p) →
  (∀ b, held s (b / PAGE_SIZE * PAGE_SIZE) → b / PAGE_SIZE * PAGE_SIZE ≠ D →
        pmem s' b = pmem s b) →
  (∀ j, 0 ≤ j < k → entry_at (pmem s') D j = entry_at (pmem s) D j ∧
     entry_at (pmem s') D (DIRECT_MAP_DIRECTORY_INDEX + j)
     = entry_at (pmem s) D (DIRECT_MAP_DIRECTORY_INDEX + j)) →
  direct_map_limit s' = L → kernel_page_directory_phys s' = D →
  F' ≤ free_frames (frames s') → direct_inv D L F' k s'.
Proof.
  intros [Hok Hd Hl Hk Ht Hf] Hok' Hm Hmem He Hl' Hk' Hf'. split; auto.
  intros j Hj. destruct (Ht j Hj) as (t&Hh&Hne&H1&H2&H3). destruct (He j Hj) as [E1 E2].
  exists t. rewrite E1, E2. split_and!; auto.
  intros e Hee. rewrite <- (H3 e Hee). apply entry_ext; [by apply (held_aligned s)|done|].
  intros b Hb. apply Hmem; by rewrite Hb.
Qed.

Lemma direct_step D L F k s :
  direct_inv D L F k s → 0 ≤ k < 224 → 0 < F →
  ∃ t s', paging_alloc_page s = (t, s') ∧ t ≠ 0 ∧
    let s1 := fill_direct_table (Z.to_nat PAGE_TABLE_ENTRIES) t (k ⊠ PAGE_TABLE_SPAN) 0
                (zero_page t s') in
    direct_inv D L (F - 1) (k + 1)
      (set_entry D (DIRECT_MAP_DIRECTORY_INDEX + k) (Z.lor t PAGE_FLAGS)
         (set_entry D k (Z.lor t PAGE_FLAGS) s1)).
Proof.
  intros Hinv Hk HF. pose proof Hinv as [Hok Hd Hl Hkd Ht Hf].
  destruct (alloc_ok s Hok ltac:(lia)) as (t&s'&Heq&Ht0&Hs'&Hok'&Hh&Hn&Hm&Hfree).
  exists t, s'. split_and!; [done..|]. intros s1.
  pose proof (held_aligned _ _ Hh) as Hta. pose proof (held_aligned _ _ Hd) as Hda.
  pose proof Hh as [Htu _].
  assert (t ≠ D) as HtD by (intros ->; done).
  assert (k ⊠ PAGE_TABLE_SPAN = k * PAGE_TABLE_SPAN) as Hspan
    by (apply u32_small; unfold PAGE_TABLE_SPAN, PAGE_TABLE_ENTRIES, PAGE_SIZE; lia).
  unfold s1 in *. rewrite Hspan. clear s1.
  destruct (fill_direct_table_spec (Z.to_nat PAGE_TABLE_ENTRIES) t k 0 (zero_page t s'))
    as [Hw Hent]; [done|done|lia|done|].
  set (s1 := fill_direct_table _ _ _ _ _) in *. clearbody s1.
  assert (wrote_frame t s' s1) as Hw1 by (eapply wrote_frame_trans; [by apply wrote_zero_page|done]).
  assert (is_u32 (Z.lor t PAGE_FLAGS)) as Hu by (by apply entry_range).
  assert (DIRECT_MAP_DIRECTORY_INDEX = 768) as HDM by done.
  assert (pmem s' = pmem s) as Hpm by (rewrite Hs'; done).
  set (s2 := set_entry D k _ s1). set (s3 := set_entry D _ _ s2).
  assert (wrote_frame D s1 s3) as Hw3.
  { eapply wrote_frame_trans; apply wrote_set_entry; done || lia. }
  pose proof (wrote_rest _ _ _ Hw1) as Hs1. pose proof (wrote_rest _ _ _ Hw3) as Hs3.
  assert (∀ j, 0 ≤ j < 1024 → entry_at (pmem s3) D j =
    if (j =? k) || (j =? DIRECT_MAP_DIRECTORY_INDEX + k) then Z.lor t PAGE_FLAGS
    else entry_at (pmem s) D j) as HD3.
  { intros j Hj. unfold s3. destruct (Z.eqb_spec j (DIRECT_MAP_DIRECTORY_INDEX + k)) as [->|].
    { rewrite orb_true_r. by apply entry_set_same. }
    rewrite entry_set_other by (done || lia || congruence). unfold s2.
    destruct (Z.eqb_spec j k) as [->|]; [by apply entry_set_same|]. bsimpl.
    rewrite entry_set_other by (done || lia || congruence).
    rewrite (wrote_entry t s') by done. by rewrite Hpm. }
  assert (direct_inv D L (F - 1) k s3) as Hkept.
  { apply (direct_tables_kept D L F (F - 1) k s s3 Hinv).
    - split; [apply Hw3, Hw1, Hok'|]. rewrite Hs3, Hs1. apply Hok'.
    - intros p Hp. rewrite Hs3, Hs1. by apply Hm.
    - intros b Hb HbD. rewrite (wrote_outside _ _ _ Hw3), (wrote_outside _ _ _ Hw1), Hpm; [done| |done].
      intros E. by rewrite E in Hb.
    - intros j Hj. rewrite !HD3 by lia. split; (case_if; [lia|done]).
    - rewrite Hs3, Hs1, Hs'. done.
    - rewrite Hs3, Hs1, Hs'. done.
    - rewrite Hs3, Hs1. simpl. lia. }
  destruct Hkept as [? ? ? ? Ht' ?]. split; try done.
  intros j Hj. destruct (decide (j = k)) as [->|]; [|apply Ht'; lia].
  exists t. rewrite !HD3, !Z.eqb_refl, orb_true_r by lia. split_and!; [|done..|].
  - rewrite Hs3, Hs1. done.
  - intros e He. rewrite (wrote_entry D s1) by done. rewrite Hent by done. cbv zeta.
    rewrite zero_page_entry, (proj2 (Z.leb_le 0 e)) by (done || lia). bsimpl.
    assert (direct_map_limit (zero_page t s') = L) as -> by (rewrite Hs'; done). done.
Qed.

Lemma map_direct_tables_spec D L n k F s :
  direct_inv D L F k s → 0 ≤ k → k + Z.of_nat n ≤ 224 → Z.of_nat n ≤ F →
  ∃ s', map_direct_tables n D k s = (true, s') ∧
    direct_inv D L (F - Z.of_nat n) (k + Z.of_nat n) s'.
Proof.
  revert k F s. induction n as [|n IH]; intros k F s Hinv Hk Hn HF; cbn [map_direct_tables].
  - exists s. rewrite !Z.add_0_r, Z.sub_0_r. done.
  - destruct (direct_step D L F k s Hinv ltac:(lia) ltac:(lia)) as (t&s'&->&Ht0&Hstep).
    cbv zeta in Hstep |- *. rewrite (proj2 (Z.eqb_neq t 0)) by done.
    destruct (IH _ _ _ Hstep ltac:(lia) ltac:(lia) ltac:(lia)) as (s2&->&Hinv2).
    exists s2. split; [done|].
    replace (F - Z.of_nat (S n)) with (F - 1 - Z.of_nat n) by lia.
    by replace (k + Z.of_nat (S n)) with (k + 1 + Z.of_nat n) by lia.
Qed.

(** What [paging_prepare_shared_tables] does to the directory [D] over [lo .. hi). *)
Record shared_prepared (D lo hi : Z) (s s' : vm) : Prop := {
  sp_ok : vm_ok s';
  sp_held : ∀ p, held s p → held s' p;
  sp_outside : ∀ b, held s (b / PAGE_SIZE * PAGE_SIZE) → b / PAGE_SIZE * PAGE_SIZE ≠ D →
    pmem s' b = pmem s b;
  sp_kept : ∀ j, 0 ≤ j < 1024 → ¬ (lo ≤ j < hi) ∨ present (entry_at (pmem s) D j) = true →
    entry_at (pmem s') D j = entry_at (pmem s) D j;
  sp_present : ∀ j, lo ≤ j < hi → present (entry_at (pmem s') D j) = true;
  sp_regs : direct_map_limit s' = direct_map_limit s ∧
    kernel_page_directory_phys s' = kernel_page_directory_phys s;
  sp_free : free_frames (frames s) - (hi - lo) ≤ free_frames (frames s');
}.

Lemma prepare_tables_spec n D i s :
  vm_ok s → held s D → 0 ≤ i → i + Z.of_nat n ≤ 1024 → Z.of_nat n ≤ free_frames (frames s) →
  ∃ s', prepare_tables n D i s = (true, s') ∧ shared_prepared D i (i + Z.of_nat n) s s'.
Proof.
  revert i s. induction n as [|n IH]; intros i s Hok Hd Hi Hn Hf; cbn [prepare_tables].
  - exists s. split; [done|]. split; try done; intros; lia.
  - pose proof (held_aligned _ _ Hd) as Hda. rewrite present_bit.
    destruct (Z.testbit (entry_at (pmem s) D i) 0) eqn:Hp.
    + destruct (IH (i + 1) s Hok Hd) as (s'&->&[H1 H2 H3 H4 H5 H6 H7]); [lia..|].
      exists s'. split; [done|]. split; try done; [|intros j Hj|lia].
      * intros j Hj Hor. apply H4; [done|]. destruct (decide (j = i)) as [->|]; [by right|].
        destruct Hor; [left; lia|by right].
      * destruct (decide (j = i)) as [->|]; [|apply H5; lia].
        rewrite H4 by (lia || by right). done.
    + destruct (alloc_ok s Hok ltac:(lia)) as (t&s'&->&Ht0&Hs'&Hok'&Hh&Hnh&Hm&Hfree).
      rewrite (proj2 (Z.eqb_neq t 0)) by done.
      pose proof (held_aligned _ _ Hh) as Hta. pose proof Hh as [Htu _].
      assert (t ≠ D) as HtD by (intros ->; done).
      assert (is_u32 (Z.lor t PAGE_FLAGS)) as Hu by (by apply entry_range).
      assert (pmem s' = pmem s) as Hpm by (rewrite Hs'; done).
      set (s1 := zero_page t s'). set (s2 := set_entry D i _ s1).
      pose proof (wrote_zero_page t s' Hta) as Hw1. fold s1 in Hw1.
      assert (wrote_frame D s1 s2) as Hw2 by (apply wrote_set_entry; [done|lia]).
      assert (vm_ok s2) as Hok2 by (split; [apply Hw2, Hw1, Hok'|apply Hok']).
      assert (∀ j, 0 ≤ j < 1024 → j ≠ i → entry_at (pmem s2) D j = entry_at (pmem s) D j) as He2.
      { intros j ??. unfold s2. rewrite entry_set_other by (done || lia || congruence).
        rewrite (wrote_entry t s') by done. by rewrite Hpm. }
      destruct (IH (i + 1) s2 Hok2 (Hm _ Hd)) as (s3&->&[H1 H2 H3 H4 H5 H6 H7]);
        [lia|lia|simpl; lia|].
      assert (∀ p, held s p → held s2 p) as Hm2 by exact Hm.
      exists s3. split; [done|]. split; try done.
      * intros p Hp'. by apply H2, Hm2.
      * intros b Hb HbD. rewrite H3 by (done || by apply Hm2).
        rewrite (wrote_outside _ _ _ Hw2), (wrote_outside _ _ _ Hw1), Hpm; [done| |done].
        intros E. by rewrite E in Hb.
      * intros j Hj Hor. assert (j ≠ i) as Hji.
        { intros ->. destruct Hor as [?|Hx]; [lia|]. unfold present in Hx. congruence. }
        rewrite H4 by (done || (rewrite He2 by done; destruct Hor; [left; lia|by right])).
        by apply He2.
      * intros j Hj. destruct (decide (j = i)) as [->|]; [|apply H5; lia].
        rewrite H4 by (lia || (left; lia)). unfold s2. rewrite entry_set_same by done.
        unfold present. by rewrite entry_bit by done.
      * destruct H6 as [H6 H6']. split; [rewrite H6|rewrite H6']; unfold s2, s1; simpl; rewrite Hs'; done.
      * simpl in H7. lia.
Qed.

Lemma shared_prepared_direct D L F k lo hi s s' :
  direct_inv D L F k s → k ≤ 224 → shared_prepared D lo hi s s' →
  direct_inv D L (F - (hi - lo)) k s'.
Proof.
  intros Hinv Hk [H1 H2 H3 H4 H5 [H6 H6'] H7]. pose proof Hinv as [? ? ? ? Ht ?].
  assert (DIRECT_MAP_DIRECTORY_INDEX = 768) as HDM by done.
  apply (direct_tables_kept D L F _ k s s' Hinv); auto; [|congruence|congruence|lia].
  intros j Hj. destruct (Ht j Hj) as (t&Hh&_&E1&E2&_). pose proof (held_aligned _ _ Hh) as Hta.
  split; (apply H4; [lia|right]); rewrite ?E1, ?E2; unfold present; by rewrite entry_bit.
Qed.

(** A page table for every started 4 MiB, at most 224 of them. *)
Lemma direct_map_size N :
  0 < N < 1048576 →
  let L := Z.min (N * PAGE_SIZE) DIRECT_MAP_MAX_BYTES in
  let L0 := align_up (N ⊠ PAGE_SIZE) PAGE_SIZE in
  let count := align_up L PAGE_TABLE_SPAN / PAGE_TABLE_SPAN in
  L0 ≠ 0 ∧ (if DIRECT_MAP_MAX_BYTES <? L0 then DIRECT_MAP_MAX_BYTES else L0) = L ∧
  0 ≤ count ≤ 224 ∧ L ≤ count * PAGE_TABLE_SPAN.
Proof.
  intros HN L L0 count.
  assert (PAGE_SIZE = 4096 ∧ PAGE_TABLE_SPAN = 4194304 ∧ DIRECT_MAP_MAX_BYTES = 939524096)
    as (HP&HS&HM) by done.
  assert (L0 = N * PAGE_SIZE) as HL0.
  { unfold L0. rewrite u32_small by lia. change PAGE_SIZE with (2 ^ 12) at 2.
    rewrite align_up_pow2 by lia. change (2 ^ 12) with 4096. word_lia. }
  assert (count = (L + 4194304 - 1) / 4194304) as Hc.
  { unfold count. change PAGE_TABLE_SPAN with (2 ^ 22).
    rewrite align_up_pow2 by lia. rewrite Z.div_mul by done. done. }
  rewrite HL0, Hc. unfold L. split_and!; [lia|case_if; lia|word_lia..].
Qed.

Lemma page_floor_split pa :
  is_u32 pa →
  pa / PAGE_TABLE_SPAN * PAGE_TABLE_SPAN + pa / PAGE_SIZE mod PAGE_TABLE_ENTRIES * PAGE_SIZE
  = page_floor pa.
Proof.
  intros. rewrite page_floor_frame, frame_of_floor by done.
  change PAGE_TABLE_SPAN with (PAGE_SIZE * PAGE_TABLE_ENTRIES). rewrite <- Z.div_div by done.
  pose proof (Z.div_mod (pa / PAGE_SIZE) PAGE_TABLE_ENTRIES ltac:(done)).
  unfold PAGE_SIZE, PAGE_TABLE_ENTRIES in *. lia.
Qed.

Lemma direct_lookup D L F k s pa i :
  direct_inv D L F k s → L ≤ k * PAGE_TABLE_SPAN → k ≤ 224 → 0 ≤ pa < L →
  (∀ t, entry_at (pmem s) D (pa / PAGE_TABLE_SPAN) = Z.lor t PAGE_FLAGS →
    entry_at (pmem s) D (DIRECT_MAP_DIRECTORY_INDEX + pa / PAGE_TABLE_SPAN) = Z.lor t PAGE_FLAGS →
    entry_at (pmem s) D (page_directory_index i) = Z.lor t PAGE_FLAGS) →
  page_table_index i = page_table_index pa →
  paging_lookup_page_in D i s = Some (page_floor pa, PAGE_FLAGS).
Proof.
  intros [Hok Hd Hl Hk Ht _] HL Hk' Hpa Hi Hti.
  assert (PAGE_SIZE = 4096 ∧ PAGE_TABLE_SPAN = 4194304 ∧ PAGE_TABLE_ENTRIES = 1024)
    as (HP&HS&HE) by done.
  assert (is_u32 pa) as Hpu by (unfold is_u32; lia).
  pose proof Hd as (_&Hd0&_).
  destruct (Ht (pa / PAGE_TABLE_SPAN)) as (t&Hh&HtD&E1&E2&E3);
    [split; [by apply Z.div_pos; lia|apply Z.div_lt_upper_bound; lia]|].
  pose proof (held_aligned _ _ Hh) as Hta. pose proof Hh as [Htu _].
  rewrite lookup_eq by (apply Hok || lia). cbv zeta. rewrite (Hi t E1 E2).
  rewrite entry_frame, Hti by done. destruct (page_indices pa Hpu) as [_ ->].
  rewrite E3 by (by apply Z.mod_pos_bound). cbv zeta. rewrite page_floor_split by done.
  pose proof (page_floor_indices pa Hpu) as (Hfu&Hfa&_).
  assert (page_floor pa ≤ pa).
  { rewrite page_floor_frame, frame_of_floor by done. by apply Z.mul_div_le. }
  rewrite (proj2 (Z.ltb_lt _ L)) by lia. unfold present.
  rewrite !entry_bit by done. bsimpl. rewrite entry_frame, entry_flags by done. done.
Qed.

Lemma phys_to_virt_indices pa :
  0 ≤ pa < DIRECT_MAP_MAX_BYTES →
  page_directory_index (paging_phys_to_virt pa)
    = DIRECT_MAP_DIRECTORY_INDEX + pa / PAGE_TABLE_SPAN ∧
  page_table_index (paging_phys_to_virt pa) = page_table_index pa.
Proof.
  intros Hpa. assert (DIRECT_MAP_MAX_BYTES = 939524096) as HM by done.
  unfold paging_phys_to_virt. rewrite u32_small by (unfold KERNEL_DIRECT_MAP_BASE; lia).
  assert (is_u32 pa ∧ is_u32 (KERNEL_DIRECT_MAP_BASE + pa)) as [H1 H2]
    by (unfold is_u32, KERNEL_DIRECT_MAP_BASE; lia).
  destruct (page_indices _ H1) as [_ ->], (page_indices _ H2) as [-> ->].
  change KERNEL_DIRECT_MAP_BASE with (DIRECT_MAP_DIRECTORY_INDEX * PAGE_TABLE_SPAN) at 1.
  change KERNEL_DIRECT_MAP_BASE with (768 * PAGE_TABLE_ENTRIES * PAGE_SIZE).
  rewrite !Z.div_add_l by done. split; [done|].
  rewrite Z.add_comm. by rewrite Z.mod_add.
Qed.

(** The state with the kernel directory allocated, before the first table. *)
Lemma init_directory s L :
  vm_ok s → 0 < free_frames (frames s) →
  let s0 := with_direct_map_limit L s in
  ∃ D s1, paging_alloc_page s0 = (D, s1) ∧ D ≠ 0 ∧
    direct_inv D L (free_frames (frames s) - 1) 0 (zero_page D (with_kernel_directory D s1)).
Proof.
  intros Hok Hf s0. assert (vm_ok s0) as Hok0 by (split; apply Hok).
  destruct (alloc_ok s0 Hok0 Hf) as (D&s1&Heq&HD0&Hs1&Hok1&Hh&_&_&Hfree).
  exists D, s1. split_and!; [done..|]. pose proof (held_aligned _ _ Hh) as HDa.
  split.
  - split; [apply zero_bytes_wf|]; apply Hok1.
  - exact Hh.
  - change (direct_map_limit s1 = L). rewrite Hs1. done.
  - done.
  - intros; lia.
  - simpl. rewrite Hfree. simpl. lia.
Qed.

(** The three shared regions, the recursive entry and the control registers. *)
Lemma init_finish D L F k s :
  direct_inv D L F k s → 0 ≤ k ≤ 224 → 33 ≤ F →
  ∃ s1 s2 s3,
    paging_prepare_shared_tables D HEAP_DIRECTORY_INDEX_START HEAP_DIRECTORY_INDEX_END s = (true, s1) ∧
    paging_prepare_shared_tables D MMIO_DIRECTORY_INDEX_START MMIO_DIRECTORY_INDEX_END s1 = (true, s2) ∧
    paging_prepare_shared_tables D STACK_DIRECTORY_INDEX_START STACK_DIRECTORY_INDEX_END s2 = (true, s3) ∧
    let s4 := set_entry D RECURSIVE_DIRECTORY_INDEX (Z.lor D PAGE_FLAGS) s3 in
    direct_inv D L 0 k s4 ∧
    ∀ i, HEAP_DIRECTORY_INDEX_START ≤ i < HEAP_DIRECTORY_INDEX_END ∨
         MMIO_DIRECTORY_INDEX_START ≤ i < MMIO_DIRECTORY_INDEX_END ∨
         STACK_DIRECTORY_INDEX_START ≤ i < STACK_DIRECTORY_INDEX_END →
      present (entry_at (pmem s4) D i) = true.
Proof.
  intros Hinv Hk HF. unfold paging_prepare_shared_tables.
  assert (HEAP_DIRECTORY_INDEX_START = 992 ∧ HEAP_DIRECTORY_INDEX_END = 1008 ∧
    MMIO_DIRECTORY_INDEX_START = 988 ∧ MMIO_DIRECTORY_INDEX_END = 990 ∧
    STACK_DIRECTORY_INDEX_START = 1008 ∧ STACK_DIRECTORY_INDEX_END = 1023 ∧
    RECURSIVE_DIRECTORY_INDEX = 1023 ∧ DIRECT_MAP_DIRECTORY_INDEX = 768)
    as (HH1&HH2&HM1&HM2&HS1&HS2&HR&HD) by done.
  assert (∀ lo hi F s, direct_inv D L F k s → 0 ≤ lo ≤ hi → hi ≤ 1024 → hi - lo ≤ F →
    ∃ s', prepare_tables (Z.to_nat (hi - lo)) D lo s = (true, s') ∧
      shared_prepared D lo hi s s' ∧ direct_inv D L (F - (hi - lo)) k s') as Hprep.
  { intros lo hi F0 s0 Hi0 Hlo Hhi HF0. pose proof Hi0 as [Hok0 Hd0 _ _ _ Hf0].
    destruct (prepare_tables_spec (Z.to_nat (hi - lo)) D lo s0) as (s'&Heq&Hsp); [done..|lia|lia|lia|].
    replace (lo + Z.of_nat (Z.to_nat (hi - lo))) with hi in Hsp by lia.
    exists s'. split_and!; [done..|]. eapply shared_prepared_direct; [done|lia|done]. }
  destruct (Hprep HEAP_DIRECTORY_INDEX_START HEAP_DIRECTORY_INDEX_END F s Hinv) as (s1&E1&P1&I1); [lia..|].
  destruct (Hprep MMIO_DIRECTORY_INDEX_START MMIO_DIRECTORY_INDEX_END _ s1 I1) as (s2&E2&P2&I2); [lia..|].
  destruct (Hprep STACK_DIRECTORY_INDEX_START STACK_DIRECTORY_INDEX_END _ s2 I2) as (s3&E3&P3&I3); [lia..|].
  clear Hprep. exists s1, s2, s3. split; [exact E1|]. split; [exact E2|]. split; [exact E3|]. cbv zeta. set (s4 := set_entry D RECURSIVE_DIRECTORY_INDEX _ s3).
  pose proof I3 as [Hok3 Hd3 Hl3 Hk3 _ Hf3]. pose proof (held_aligned _ _ Hd3) as HDa.
  assert (∀ j, 0 ≤ j < 1023 → entry_at (pmem s4) D j = entry_at (pmem s3) D j) as H4.
  { intros j Hj. apply entry_set_other; try done; [lia|]. intros [= ?]. lia. }
  split.
  - apply (direct_tables_kept D L _ 0 k s3 s4 I3); try done.
    + split; [apply set_entry_wf|]; apply Hok3.
    + intros b _ Hb. by apply set_entry_outside.
    + intros j Hj. split; apply H4; lia.
    + simpl. lia.
  - assert (∀ j, 0 ≤ j < 1023 → present (entry_at (pmem s1) D j) = true →
      present (entry_at (pmem s2) D j) = true) as K2.
    { intros j Hj Hp. by rewrite (sp_kept _ _ _ _ _ P2) by (lia || by right). }
    assert (∀ j, 0 ≤ j < 1023 → present (entry_at (pmem s2) D j) = true →
      present (entry_at (pmem s3) D j) = true) as K3.
    { intros j Hj Hp. by rewrite (sp_kept _ _ _ _ _ P3) by (lia || by right). }
    intros i Hi. rewrite H4 by lia. destruct Hi as [Hi|[Hi|Hi]].
    + apply K3, K2, (sp_present _ _ _ _ _ P1); lia.
    + apply K3, (sp_present _ _ _ _ _ P2); lia.
    + apply (sp_present _ _ _ _ _ P3); lia.
Qed.

Definition shared_region (i : Z) : Prop :=
  HEAP_DIRECTORY_INDEX_START ≤ i < HEAP_DIRECTORY_INDEX_END ∨
  MMIO_DIRECTORY_INDEX_START ≤ i < MMIO_DIRECTORY_INDEX_END ∨
  STACK_DIRECTORY_INDEX_START ≤ i < STACK_DIRECTORY_INDEX_END.

Lemma paging_init_result s :
  vm_ok s → 0 < first_unusable_frame (frames s) < 1048576 → 258 ≤ free_frames (frames s) →
  let s' := paging_init s in
  let D := kernel_page_directory_phys s' in
  let L := Z.min (first_unusable_frame (frames s) * PAGE_SIZE) DIRECT_MAP_MAX_BYTES in
  (∃ k, k ≤ 224 ∧ L ≤ k * PAGE_TABLE_SPAN ∧ direct_inv D L 0 k s') ∧
  paging_enabled s' = true ∧ cr3 s' = D ∧
  ∀ i, shared_region i → present (entry_at (pmem s') D i) = true.
Proof.
  intros Hok HN Hfree. pose proof (direct_map_size _ HN) as (HL0&HL&Hc&HLc).
  unfold paging_init. cbv zeta in *.
  set (L := Z.min _ _) in *. set (count := _ / _) in *.
  change (palloc_managed_bytes (frames s)) with (first_unusable_frame (frames s) ⊠ PAGE_SIZE).
  cbn [direct_map_limit with_direct_map_limit]. rewrite (proj2 (Z.eqb_neq _ 0)) by exact HL0.
  match goal with |- context [if DIRECT_MAP_MAX_BYTES <? ?l then ?a else ?b] =>
    assert ((if DIRECT_MAP_MAX_BYTES <? l then a else b) = with_direct_map_limit L s) as ->
  end.
  { rewrite <- HL. by destruct (_ <? _). }
  destruct (init_directory s L Hok) as (D&s1&->&HD0&I1); [lia|].
  rewrite (proj2 (Z.eqb_neq D 0)) by done. cbn [direct_map_limit with_direct_map_limit].
  fold count.
  destruct (map_direct_tables_spec D L (Z.to_nat count) 0 _ _ I1) as (s2&->&I2); [lia..|].
  bsimpl. rewrite Z.add_0_l, Z2Nat.id in I2 by lia.
  destruct (init_finish D L _ count s2 I2) as (s3&s4&s5&->&E2&E3&I5&Hpres); [lia..|].
  bsimpl. rewrite E2. bsimpl. rewrite E3. bsimpl.
  set (s6 := set_entry D _ _ s5) in *. pose proof I5 as [Hok6 Hd6 Hl6 Hk6 Ht6 Hf6].
  clearbody s6. cbn [kernel_page_directory_phys paging_enable_bit paging_load_directory].
  rewrite Hk6. split_and!; [|done|done|exact Hpres].
  exists count. split_and!; [lia|done|]. split; [split; apply Hok6|done..].
Qed.

(** ** Properties *)

(** When the machine has memory to manage (fewer than 2^20 frames, 258 of them
    free), [paging_init] succeeds: paging is on with the
    kernel directory loaded, the direct map covers the managed bytes up to
    [DIRECT_MAP_MAX_BYTES], each of its bytes is visible both at its own address and
    at [paging_phys_to_virt] of it, and the heap, MMIO and stack regions have
    their page tables. *)
Theorem paging_init_direct_map s :
  vm_ok s → 0 < first_unusable_frame (frames s) < 1048576 → 258 ≤ free_frames (frames s) →
  let s' := paging_init s in
  let D := kernel_page_directory_phys s' in
  vm_ok s' ∧ held s' D ∧ paging_enabled s' = true ∧ cr3 s' = D ∧
  direct_map_limit s'
    = Z.min (first_unusable_frame (frames s) * PAGE_SIZE) DIRECT_MAP_MAX_BYTES ∧
  (∀ pa, 0 ≤ pa < direct_map_limit s' →
     paging_lookup_page_in D pa s' = Some (page_floor pa, PAGE_FLAGS) ∧
     paging_lookup_page_in D (paging_phys_to_virt pa) s' = Some (page_floor pa, PAGE_FLAGS)) ∧
  ∀ i, shared_region i → present (entry_at (pmem s') D i) = true.
Proof.
  intros Hok HN Hfree s' D.
  destruct (paging_init_result s Hok HN Hfree) as ((k&Hk&HLk&Hinv)&Hon&Hcr3&Hpres).
  fold s' in Hinv, Hon, Hcr3, Hpres. fold D in Hinv, Hcr3, Hpres. clearbody s'.
  pose proof Hinv as [Hok' Hd Hl _ _ _]. split_and!; try apply Hok'; try done; try apply Hd.
  rewrite Hl. intros pa Hpa.
  assert (is_u32 pa) as Hpu by (change DIRECT_MAP_MAX_BYTES with 939524096 in *; unfold is_u32; lia).
  destruct (phys_to_virt_indices pa ltac:(lia)) as [Hv1 Hv2].
  split; apply (direct_lookup D _ 0 k s' pa _ Hinv); try done.
  - intros t E _. by destruct (page_indices pa Hpu) as [-> _].
  - intros t _ E. by rewrite Hv1.
Qed.

(** The kernel's windows collide on machines with much memory.  With more than
    880 MiB managed, the direct map already covers the MMIO window, so its first
    page translates to the RAM frame at 880 MiB before any device is mapped
    there; and the virtual address of each byte past the direct map's end is an
    address of the kernel heap, although the allocator hands out frames there. *)
Theorem paging_windows_collide s o :
  vm_ok s → 225281 ≤ first_unusable_frame (frames s) < 1048576 →
  258 ≤ free_frames (frames s) → 0 ≤ o < KERNEL_HEAP_LIMIT - KERNEL_HEAP_BASE →
  paging_lookup_page_in (kernel_page_directory_phys (paging_init s)) KERNEL_MMIO_BASE (paging_init s)
    = Some (922746880, PAGE_FLAGS) ∧
  paging_phys_to_virt (DIRECT_MAP_MAX_BYTES + o) = KERNEL_HEAP_BASE + o.
Proof.
  intros Hok HN Hfree Ho.
  destruct (paging_init_result s Hok ltac:(lia) Hfree) as ((k&Hk&HLk&Hinv)&_).
  revert Hinv. generalize (paging_init s) as s'. intros s' Hinv. split.
  - change 922746880 with (page_floor 922746880).
    apply (direct_lookup _ _ 0 k s' 922746880 _ Hinv); try done.
    change DIRECT_MAP_MAX_BYTES with 939524096. unfold PAGE_SIZE. lia.
  - unfold paging_phys_to_virt. change DIRECT_MAP_MAX_BYTES with 939524096.
    unfold KERNEL_DIRECT_MAP_BASE, KERNEL_HEAP_BASE, KERNEL_HEAP_LIMIT in *.
    rewrite u32_small by lia. lia.
Qed.

(** ** Witnesses: a machine with 300000 frames, of which 32 to 543 are free *)

Definition big_frames : palloc :=
  {| frame_bitmap := λ w, if (1 <=? w) && (w <? 17) then 0 else 4294967295;
     frame_refcounts := λ f, if (32 <=? f) && (f <? 544) then 0 else 1;
     first_unusable_frame := 300000; total_usable_frames := 512; free_frames := 512;
     next_search_frame := 0 |}.

Lemma big_frames_used f :
  0 ≤ f → frame_is_used big_frames f = negb ((32 <=? f) && (f <? 544)).
Proof.
  intros Hf. unfold frame_is_used, frame_word_index, big_frames, BITMAP_WORD_BITS. simpl.
  destruct ((1 <=? f / 32) && (f / 32 <? 17)) eqn:E.
  - zbool. rewrite (proj2 (Z.leb_le 32 f)), (proj2 (Z.ltb_lt f 544)) by word_lia. done.
  - assert (((32 <=? f) && (f <? 544)) = false) as ->.
    { apply andb_false_iff in E. apply andb_false_iff. destruct E; zbool; [left|right].
      - apply Z.leb_gt. word_lia.
      - apply Z.ltb_ge. word_lia. }
    unfold frame_bit_mask, BITMAP_WORD_BITS, truthy.
    assert (0 ≤ f mod 32 < 32) by (apply Z.mod_pos_bound; lia).
    rewrite land_pow2 by lia. change 4294967295 with (Z.ones 32).
    rewrite Z.ones_spec_low by lia. done.
Qed.

Lemma big_frames_ok : palloc_ok big_frames.
Proof.
  pose proof MAX_PAGE_FRAMES_val as HM. split; [|by rewrite big_frames_used].
  split; simpl; [|lia|lia|..].
  - intros w. simpl. case_if; done.
  - intros f Hf. rewrite big_frames_used by lia. rewrite (proj2 (Z.ltb_ge f 544)) by lia.
    by rewrite andb_false_r.
  - rewrite (count_range_app 0 32), (count_range_app 32 544) by lia.
    assert (∀ k, 0 ≤ k → frame_free big_frames k = (32 <=? k) && (k <? 544)) as Hfree.
    { intros k Hk. unfold frame_free. by rewrite big_frames_used, negb_involutive. }
    assert (count_range 0 32 (frame_free big_frames) = 0) as ->.
    { apply count_range_zero. intros k Hk. rewrite Hfree by lia.
      apply andb_false_iff. left. apply Z.leb_gt. lia. }
    assert (count_range 544 MAX_PAGE_FRAMES (frame_free big_frames) = 0) as ->.
    { apply count_range_zero. intros k Hk. rewrite Hfree by lia.
      apply andb_false_iff. right. apply Z.ltb_ge. lia. }
    rewrite (count_range_all 32 544); [lia|lia|]. intros k Hk. rewrite Hfree by lia.
    apply andb_true_iff. split; [apply Z.leb_le|apply Z.ltb_lt]; lia.
  - intros f Hf. rewrite big_frames_used by lia. by destruct ((32 <=? f) && (f <? 544)).
Qed.

Definition big_vm : vm :=
  {| pmem := λ _, 0; frames := big_frames; kernel_page_directory_phys := 0;
     direct_map_limit := 0; cr3 := 0; paging_enabled := false |}.

Lemma big_vm_ok : vm_ok big_vm.
Proof. split; [done|apply big_frames_ok]. Qed.

Lemma paging_init_direct_map_witness : paging_enabled (paging_init big_vm) = true.
Proof.
  destruct (paging_init_direct_map big_vm big_vm_ok) as (_&_&H&_).
  - simpl. lia.
  - simpl. lia.
  - exact H.
Defined.

Lemma paging_windows_collide_witness :
  paging_phys_to_virt (DIRECT_MAP_MAX_BYTES + 0) = KERNEL_HEAP_BASE + 0.
Proof.
  destruct (paging_windows_collide big_vm 0 big_vm_ok) as [_ H].
  - simpl. lia.
  - simpl. lia.
  - unfold KERNEL_HEAP_LIMIT, KERNEL_HEAP_BASE. lia.
  - exact H.
Defined.
