(* ===== verification/Usercopy.v ===== *)
(** * Copying between kernel buffers and user memory ([src/kernel/usercopy.c])

    A kernel buffer is a byte array of its own; user memory is what the page
    tables of an address space reach in physical memory.  The specification is
    stated over [vbyte], the byte a user program sees at a virtual address. *)

From S2P Require Import Prelude Mem Palloc Paging.

Local Open Scope Z_scope.
Local Open Scope c_scope.

Definition min_u32 (left right : Z) : Z := if left <? right then left else right.

(** The turn's chunk: what is left of the copy and of the page. *)
Definition copy_chunk (virtual_address length copied : Z) : Z :=
  min_u32 (length ⊟ copied) (PAGE_SIZE ⊟ Z.land virtual_address (PAGE_SIZE - 1)).

Definition page_byte (physical_page virtual_address : Z) : Z :=
  physical_page ⊞ Z.land virtual_address (PAGE_SIZE - 1).

(** The loop of [user_copy_from_in]; each turn copies at least one byte, so
    [length] turns are enough. *)
Fixpoint copy_from_loop (fuel : nat) (directory_phys : Z) (dst : carray Z)
    (source_address length copied : Z) (s : vm) : Z * carray Z :=
  if copied <? length then
    match fuel with
    | O => (-1, dst)
    | S fuel =>
        let virtual_address := source_address ⊞ copied in
        match paging_lookup_page_in directory_phys virtual_address s with
        | None => (-1, dst)
        | Some (physical_page, page_flags) =>
            if negb (truthy (Z.land page_flags PAGE_USER)) then (-1, dst)
            else
              let chunk := copy_chunk virtual_address length copied in
              copy_from_loop fuel directory_phys
                (copy_bytes dst copied (pmem s) (page_byte physical_page virtual_address) chunk)
                source_address length (copied ⊞ chunk) s
        end
    end
  else (0, dst).

(** The result and the buffer; [None] is a null destination. *)
Definition user_copy_from_in (directory_phys : Z) (destination : option (carray Z))
    (source_address length : Z) (s : vm) : Z * option (carray Z) :=
  match destination with
  | None => (-1, None)
  | Some dst =>
      let '(r, dst) := copy_from_loop (Z.to_nat length) directory_phys dst source_address
                         length 0 s in
      (r, Some dst)
  end.

Definition USER_WRITABLE : Z := Z.lor PAGE_USER PAGE_WRITABLE.

(** The page a turn of [user_copy_to_in] writes to, after copy-on-write has
    been resolved; [None] for the early [return -1]. *)
Definition writable_page (directory_phys virtual_address : Z) (s : vm) : option Z * vm :=
  match paging_lookup_page_in directory_phys virtual_address s with
  | None => (None, s)
  | Some (physical_page, page_flags) =>
      if negb (truthy (Z.land page_flags PAGE_USER)) then (None, s)
      else if negb (truthy (Z.land page_flags PAGE_WRITABLE)) then
        if negb (truthy (Z.land page_flags PAGE_COPY_ON_WRITE)) then (None, s)
        else
          let '(r, s) := paging_resolve_copy_on_write_in directory_phys virtual_address s in
          if truthy r then (None, s)
          else
            match paging_lookup_page_in directory_phys virtual_address s with
            | None => (None, s)
            | Some (physical_page, page_flags) =>
                if negb (Z.land page_flags USER_WRITABLE =? USER_WRITABLE) then (None, s)
                else (Some physical_page, s)
            end
      else (Some physical_page, s)
  end.

Fixpoint copy_to_loop (fuel : nat) (directory_phys : Z) (src : carray Z)
    (destination_address length copied : Z) (s : vm) : Z * vm :=
  if copied <? length then
    match fuel with
    | O => (-1, s)
    | S fuel =>
        let virtual_address := destination_address ⊞ copied in
        let '(page, s) := writable_page directory_phys virtual_address s in
        match page with
        | None => (-1, s)
        | Some physical_page =>
            let chunk := copy_chunk virtual_address length copied in
            copy_to_loop fuel directory_phys src destination_address length (copied ⊞ chunk)
              (with_pmem (copy_bytes (pmem s) (page_byte physical_page virtual_address)
                            src copied chunk) s)
        end
    end
  else (0, s).

Definition user_copy_to_in (directory_phys destination_address : Z) (source : option (carray Z))
    (length : Z) (s : vm) : Z * vm :=
  match source with
  | None => (-1, s)
  | Some src => copy_to_loop (Z.to_nat length) directory_phys src destination_address length 0 s
  end.

(** The byte-wise loop of [user_copy_string_from_in]. *)
Fixpoint copy_string_loop (fuel : nat) (directory_phys : Z) (dst : carray Z)
    (source_address max_length index : Z) (s : vm) : Z * carray Z :=
  match fuel with
  | O => (-1, <[max_length - 1 := 0]> dst)
  | S fuel =>
      (* [&destination[index]] with length 1 *)
      let '(r, cell) := copy_from_loop 1 directory_phys (λ i, dst (index + i))
                          (source_address ⊞ index) 1 0 s in
      if truthy r then (-1, dst)
      else
        let dst := <[index := cell 0]> dst in
        if dst index =? 0 then (0, dst)
        else copy_string_loop fuel directory_phys dst source_address max_length (index + 1) s
  end.

Definition user_copy_string_from_in (directory_phys : Z) (destination : option (carray Z))
    (source_address max_length : Z) (s : vm) : Z * option (carray Z) :=
  match destination with
  | None => (-1, None)
  | Some dst =>
      if max_length =? 0 then (-1, Some dst)
      else
        let '(r, dst) := copy_string_loop (Z.to_nat max_length) directory_phys dst
                           source_address max_length 0 s in
        (r, Some dst)
  end.

Definition user_copy_from (destination : option (carray Z)) (source_address length : Z) (s : vm) :=
  user_copy_from_in (paging_current_directory_phys s) destination source_address length s.
Definition user_copy_to (destination_address : Z) (source : option (carray Z)) (length : Z) (s : vm) :=
  user_copy_to_in (paging_current_directory_phys s) destination_address source length s.
Definition user_copy_string_from (destination : option (carray Z))
    (source_address max_length : Z) (s : vm) :=
  user_copy_string_from_in (paging_current_directory_phys s) destination source_address max_length s.

(** ** What a user program sees *)

(** The byte at virtual address [a], when its page is present and user-accessible. *)
Definition vbyte (s : vm) (dir a : Z) : option Z :=
  match paging_lookup_page_in dir a s with
  | Some (pp, fl) => if Z.testbit fl 2 then Some (pmem s (pp + a mod PAGE_SIZE)) else None
  | None => None
  end.

Lemma page_byte_eq pp va :
  is_u32 pp → pp mod PAGE_SIZE = 0 → is_u32 va → page_byte pp va = pp + va mod PAGE_SIZE.
Proof.
  intros. unfold page_byte. rewrite low_mask by word_lia. apply u32_small.
  unfold PAGE_SIZE in *. word_lia.
Qed.

Lemma copy_chunk_eq va length copied :
  is_u32 va → is_u32 length → 0 ≤ copied < length →
  copy_chunk va length copied = Z.min (length - copied) (PAGE_SIZE - va mod PAGE_SIZE).
Proof.
  intros. unfold copy_chunk, min_u32. rewrite low_mask by word_lia.
  assert (0 ≤ va mod PAGE_SIZE < PAGE_SIZE) by (by apply Z.mod_pos_bound).
  unfold PAGE_SIZE in *. rewrite !u32_small by word_lia. case_if; lia.
Qed.

(** Addresses on one page have one translation. *)
Lemma lookup_page s dir a b :
  is_u32 a → is_u32 b → a / PAGE_SIZE = b / PAGE_SIZE →
  paging_lookup_page_in dir a s = paging_lookup_page_in dir b s.
Proof.
  intros Ha Hb E.
  destruct (page_indices a Ha) as [H1 H2], (page_indices b Hb) as [H3 H4].
  assert (page_directory_index a = page_directory_index b) as Hd.
  { rewrite H1, H3. change PAGE_TABLE_SPAN with (PAGE_SIZE * PAGE_TABLE_ENTRIES).
    rewrite <- !Z.div_div by done. by rewrite E. }
  assert (page_table_index a = page_table_index b) as Ht by (by rewrite H2, H4, E).
  unfold paging_lookup_page_in. by rewrite Hd, Ht.
Qed.

Lemma chunk_page va k :
  is_u32 va → 0 ≤ k < PAGE_SIZE - va mod PAGE_SIZE →
  (va + k) / PAGE_SIZE = va / PAGE_SIZE ∧ (va + k) mod PAGE_SIZE = va mod PAGE_SIZE + k.
Proof. intros. unfold PAGE_SIZE in *. word_lia. Qed.

Section from.
Context s dir (Hok : vm_ok s) (Hd : dir ≠ 0) source_address length
  (Hsrc : is_u32 source_address) (Hlen : is_u32 length)
  (Hend : source_address + length ≤ 4294967296).

(** One turn: the chunk's bytes arrive. *)
Lemma from_turn dst copied pp fl :
  0 ≤ copied < length →
  paging_lookup_page_in dir (source_address + copied) s = Some (pp, fl) → Z.testbit fl 2 = true →
  let va := source_address + copied in
  let chunk := copy_chunk va length copied in
  let dst' := copy_bytes dst copied (pmem s) (page_byte pp va) chunk in
  0 < chunk ≤ length - copied ∧
  (∀ k, copied ≤ k < copied + chunk → vbyte s dir (source_address + k) = Some (dst' k)) ∧
  (∀ k, k < copied ∨ copied + chunk ≤ k → dst' k = dst k).
Proof.
  intros Hc Hl Hu va chunk dst'. fold va in Hl. destruct (lookup_Some s dir va pp fl Hok Hd Hl) as (_&Hpu&Hpm&_).
  assert (is_u32 va) as Hva by (unfold is_u32 in *; lia).
  assert (0 ≤ va mod PAGE_SIZE < PAGE_SIZE) as Hmod by (by apply Z.mod_pos_bound).
  assert (chunk = Z.min (length - copied) (PAGE_SIZE - va mod PAGE_SIZE)) as Hch
    by (by apply copy_chunk_eq).
  split_and!; [lia|lia| |].
  - intros k Hk. destruct (chunk_page va (k - copied) Hva ltac:(lia)) as [E1 E2].
    replace (va + (k - copied)) with (source_address + k) in * by (unfold va; lia).
    unfold vbyte. rewrite (lookup_page s dir (source_address + k) va), Hl, Hu, E2; try done.
    2: unfold is_u32 in *; lia.
    f_equal. unfold dst'. rewrite copy_bytes_in by lia. rewrite page_byte_eq by done. f_equal. lia.
  - intros k Hk. by apply copy_bytes_out.
Qed.

Lemma copy_from_loop_spec n dst copied :
  0 ≤ copied ≤ length → length - copied ≤ Z.of_nat n →
  let '(r, dst') := copy_from_loop n dir dst source_address length copied s in
  (∀ k, k < copied ∨ length ≤ k → dst' k = dst k) ∧
  ((r = 0 ∧ ∀ k, copied ≤ k < length → vbyte s dir (source_address + k) = Some (dst' k)) ∨
   (r = -1 ∧ ∃ k, copied ≤ k < length ∧ vbyte s dir (source_address + k) = None)).
Proof.
  revert dst copied. induction n as [|n IH]; intros dst copied Hc Hn; cbn [copy_from_loop].
  - case_if; [lia|]. split; [done|]. left. split; [done|]. intros; lia.
  - case_if; [|split; [done|]; left; split; [done|]; intros; lia].
    assert (source_address ⊞ copied = source_address + copied) as ->
      by (apply u32_small; unfold is_u32 in *; lia).
    destruct (paging_lookup_page_in dir (source_address + copied) s) as [[pp fl]|] eqn:Hl.
    2:{ split; [done|]. right. split; [done|]. exists copied. split; [lia|].
        unfold vbyte. by rewrite Hl. }
    rewrite user_bit. destruct (Z.testbit fl 2) eqn:Hu; bsimpl.
    2:{ split; [done|]. right. split; [done|]. exists copied. split; [lia|].
        unfold vbyte. by rewrite Hl, Hu. }
    destruct (from_turn dst copied pp fl ltac:(lia) Hl Hu) as (Hch&Hin&Hout).
    set (chunk := copy_chunk _ _ _) in *. set (dst1 := copy_bytes _ _ _ _ _) in *.
    rewrite (u32_small (copied + chunk)) by (unfold is_u32 in *; lia).
    specialize (IH dst1 (copied + chunk) ltac:(lia) ltac:(lia)).
    destruct (copy_from_loop _ _ _ _ _ _ _) as [r dst']. destruct IH as [Hkeep Hres].
    split.
    + intros k Hk. rewrite Hkeep by lia. apply Hout. lia.
    + destruct Hres as [[-> Hall]|[-> (k&Hk&Hk')]]; [left|right].
      * split; [done|]. intros k Hk. destruct (decide (copied + chunk ≤ k)); [apply Hall; lia|].
        rewrite Hin by lia. by rewrite Hkeep by lia.
      * split; [done|]. exists k. split; [lia|done].
Qed.
End from.

(** ** Writing *)

(** User addresses. *)
Definition in_user (va : Z) : Prop := USER_VIRT_BASE ≤ va < USER_VIRT_LIMIT.

(** An address space as [exec] and [fork] build it: the user half has its own page
    tables, and its pages are held frames, none of them a page table of this
    address space and no two of them the same. *)
Record user_space (s : vm) (dir : Z) : Prop := {
  us_ok : vm_ok s;
  us_space : space_ok s dir;
  us_own : ∀ i, KERNEL_SHARED_LOW_DIRECTORY_COUNT ≤ i < DIRECT_MAP_DIRECTORY_INDEX →
    own_table s dir i;
  us_data : ∀ va pp fl, in_user va → paging_lookup_page_in dir va s = Some (pp, fl) →
    held s pp ∧ pp ≠ dir ∧
    ∀ i, 0 ≤ i < RECURSIVE_DIRECTORY_INDEX → present (entry_at (pmem s) dir i) = true →
      pp ≠ table_of s dir i;
  us_inj : ∀ va va' pp fl fl', in_user va → in_user va' →
    paging_lookup_page_in dir va s = Some (pp, fl) →
    paging_lookup_page_in dir va' s = Some (pp, fl') → va / PAGE_SIZE = va' / PAGE_SIZE;
}.

(** A copy to address [a] writes to frame [pp] itself: the page is open to user code,
    and either writable or copy-on-write in a frame that nobody else refers to. *)
Definition writes_in_place (s : vm) (dir a pp : Z) : Prop :=
  ∃ fl, paging_lookup_page_in dir a s = Some (pp, fl) ∧ Z.testbit fl 2 = true ∧
    (Z.testbit fl 1 = true ∨
     Z.testbit fl 9 = true ∧ palloc_page_refcount pp (frames s) = 1).

(** A frame in use that a copy to the addresses from [lo] below [hi] must not change: neither
    the directory, nor one of its tables, nor a frame that an address of the range
    writes in place.  A frame that a copy-on-write page shares is such a frame. *)
Record out_of_reach (s : vm) (dir lo hi f : Z) : Prop := {
  oor_held : held s f;
  oor_dir : f ≠ dir;
  oor_tables : ∀ i, 0 ≤ i < RECURSIVE_DIRECTORY_INDEX →
    present (entry_at (pmem s) dir i) = true → f ≠ table_of s dir i;
  oor_pages : ∀ a, lo ≤ a < hi → ¬ writes_in_place s dir a f;
}.

Definition same_frame (s s' : vm) (f : Z) : Prop :=
  ∀ o, 0 ≤ o < PAGE_SIZE → pmem s' (f + o) = pmem s (f + o).

(** What one turn at [va] leaves alone: which pages can be written, and the frames
    that are out of reach of a range with [va] in it. *)
Record keeps_others (dir va : Z) (s s' : vm) : Prop := {
  ko_writable : ∀ a, in_user a → user_writable s' dir a ↔ user_writable s dir a;
  ko_reach : ∀ lo hi f, USER_VIRT_BASE ≤ lo → lo ≤ va < hi → hi ≤ USER_VIRT_LIMIT →
    out_of_reach s dir lo hi f → out_of_reach s' dir lo hi f ∧ same_frame s s' f;
}.

Lemma keeps_others_refl dir va s : keeps_others dir va s s.
Proof. split; [done|]. intros lo hi f _ _ _ H. by split; [|intros o _]. Qed.

Lemma keeps_others_trans dir va s1 s2 s3 :
  keeps_others dir va s1 s2 → keeps_others dir va s2 s3 → keeps_others dir va s1 s3.
Proof.
  intros [Hw Hr] [Hw' Hr']. split; [intros a Ha; by rewrite Hw', Hw|].
  intros lo hi f H1 H2 H3 H. destruct (Hr lo hi f H1 H2 H3 H) as [H' E].
  destruct (Hr' lo hi f H1 H2 H3 H') as [H'' E']. split; [done|]. intros o Ho. by rewrite E', E.
Qed.

Lemma out_of_reach_narrow s dir lo hi lo' f :
  lo ≤ lo' → out_of_reach s dir lo hi f → out_of_reach s dir lo' hi f.
Proof. intros Hl [H1 H2 H3 H4]. split; [done..|]. intros a Ha. apply H4. lia. Qed.

Lemma in_user_facts va :
  in_user va → is_u32 va ∧
  KERNEL_SHARED_LOW_DIRECTORY_COUNT ≤ page_directory_index va < DIRECT_MAP_DIRECTORY_INDEX ∧
  page_directory_index va < RECURSIVE_DIRECTORY_INDEX.
Proof.
  unfold in_user, USER_VIRT_BASE, USER_VIRT_LIMIT, KERNEL_DIRECT_MAP_BASE. intros H.
  assert (is_u32 va) as Hu by (unfold is_u32; lia).
  destruct (page_indices va Hu) as [-> _].
  unfold KERNEL_SHARED_LOW_DIRECTORY_COUNT, DIRECT_MAP_DIRECTORY_INDEX, RECURSIVE_DIRECTORY_INDEX,
    PAGE_TABLE_SPAN, PAGE_TABLE_ENTRIES, PAGE_SIZE. word_lia.
Qed.

Lemma in_user_floor va : in_user va → in_user (page_floor va).
Proof.
  intros H. pose proof (in_user_facts va H) as [Hu _]. revert H.
  rewrite page_floor_frame. unfold in_user. rewrite frame_of_floor by done.
  unfold USER_VIRT_BASE, USER_VIRT_LIMIT, KERNEL_DIRECT_MAP_BASE, PAGE_SIZE. word_lia.
Qed.

(** Resolving copy-on-write on a user page keeps the address space well formed
    and changes no byte that its user program sees. *)
Lemma cow_user_space s s' dir va pp fl np :
  user_space s dir → in_user va → paging_lookup_page_in dir va s = Some (pp, fl) →
  0 ≤ fl < PAGE_SIZE → Z.testbit fl 2 = true →
  cow_resolved s dir (page_floor va) pp fl np s' → (np = pp ∨ ¬ held s np) →
  user_space s' dir ∧ ∀ a, in_user a → vbyte s' dir a = vbyte s dir a.
Proof.
  intros [Hok Hsp Hown Hdata Hinj] Hva Hlk Hfl Hu Hc Hnp.
  pose proof (in_user_facts va Hva) as (Hvu&Hvi&_).
  pose proof (page_floor_indices va Hvu) as (Hf1&Hf2&Hf3&Hf4&_).
  assert (KERNEL_SHARED_LOW_DIRECTORY_COUNT = 1 ∧ DIRECT_MAP_DIRECTORY_INDEX = 768 ∧
    RECURSIVE_DIRECTORY_INDEX = 1023) as (HK&HD&HR) by done.
  destruct (Hdata va pp fl Hva Hlk) as (Hpp&Hpd&Hpt).
  pose proof (space_dir _ _ Hsp) as (_&Hd0&_).
  assert (∀ a, is_u32 a → a / PAGE_SIZE = va / PAGE_SIZE →
    paging_lookup_page_in dir a s' = Some (np, writable_flags fl)) as Hsame.
  { intros a Ha E. rewrite (lookup_page s' dir a (page_floor va)) by (done || congruence).
    apply Hc. }
  assert (∀ a, in_user a → a / PAGE_SIZE ≠ va / PAGE_SIZE →
    paging_lookup_page_in dir a s' = paging_lookup_page_in dir a s) as Hother.
  { intros a Ha E. apply (in_user_facts a) in Ha as (?&_&?).
    apply (cow_others _ _ _ _ _ _ _ Hc); [done|done|congruence]. }
  assert (np ≠ dir ∧ ∀ i, 0 ≤ i < RECURSIVE_DIRECTORY_INDEX →
    present (entry_at (pmem s') dir i) = true → np ≠ table_of s' dir i) as [Hnd Hnt].
  { split; [destruct Hnp as [->|Hn]; [done|intros ->; by apply Hn, Hsp]|].
    intros i Hi Hp. destruct (cow_tables _ _ _ _ _ _ _ Hc i Hi Hp) as [Hp' ->].
    destruct Hnp as [->|Hn]; [by apply Hpt|]. intros ->.
    by apply Hn, (space_tables s dir Hsp i Hi Hp'). }
  split.
  - split; [apply Hc|apply Hc|..].
    + intros i Hi. apply (cow_own _ _ _ _ _ _ _ Hc); [lia|by apply Hown].
    + intros a p f Ha. destruct (decide (a / PAGE_SIZE = va / PAGE_SIZE)) as [E|E].
      * rewrite Hsame by (done || by apply in_user_facts). intros [= <- <-].
        split; [exact (cow_frame _ _ _ _ _ _ _ Hc)|by split].
      * rewrite Hother by done. intros Hl. destruct (Hdata a p f Ha Hl) as (H1&H2&H3).
        split; [by apply (cow_held _ _ _ _ _ _ _ Hc)|]. split; [done|].
        intros i Hi Hp. destruct (cow_tables _ _ _ _ _ _ _ Hc i Hi Hp) as [Hp' ->]. by apply H3.
    + intros a b p f f' Ha Hb.
      destruct (decide (a / PAGE_SIZE = va / PAGE_SIZE)) as [E|E],
        (decide (b / PAGE_SIZE = va / PAGE_SIZE)) as [E'|E']; [congruence|..].
      * rewrite Hsame, (Hother b) by (done || by apply in_user_facts). intros [= <- <-] Hl.
        destruct Hnp as [->|Hn]; [|exfalso; exact (Hn (proj1 (Hdata b np f' Hb Hl)))].
        by rewrite <- (Hinj va b pp fl f' Hva Hb Hlk Hl) in E'.
      * rewrite (Hsame b), (Hother a) by (done || by apply in_user_facts). intros Hl [= <- <-].
        destruct Hnp as [->|Hn]; [|exfalso; exact (Hn (proj1 (Hdata a np f Ha Hl)))].
        by rewrite (Hinj a va pp f fl Ha Hva Hl Hlk) in E.
      * rewrite !Hother by done. by apply Hinj.
  - intros a Ha. unfold vbyte. pose proof (in_user_facts a Ha) as (Hau&_).
    assert (0 ≤ a mod PAGE_SIZE < PAGE_SIZE) as Hm by (by apply Z.mod_pos_bound).
    destruct (decide (a / PAGE_SIZE = va / PAGE_SIZE)) as [E|E].
    + rewrite Hsame, (lookup_page s dir a va), Hlk by done.
      rewrite writable_flags_bits, Hu by (done || lia). bsimpl. f_equal.
      by apply (cow_bytes _ _ _ _ _ _ _ Hc).
    + rewrite Hother by done. destruct (paging_lookup_page_in dir a s) as [[p f]|] eqn:Hl; [|done].
      destruct (Hdata a p f Ha Hl) as (H1&H2&H3). pose proof (held_aligned _ _ H1) as Hpa.
      destruct (Z.testbit f 2); [|done]. f_equal.
      assert ((p + a mod PAGE_SIZE) / PAGE_SIZE * PAGE_SIZE = p) as Eb
        by (unfold PAGE_SIZE in *; word_lia).
      destruct (lookup_Some s dir va pp fl Hok ltac:(lia) Hlk) as (Hpres&_).
      apply (cow_outside _ _ _ _ _ _ _ Hc); rewrite Eb; [done| |].
      * rewrite Hf4. apply H3; [lia|done].
      * intros Hne ->. destruct Hnp as [->|Hn]; [done|by apply Hn].
Qed.

(** What the allocator counts after copy-on-write has been resolved: nothing has
    changed and the page keeps its only frame, or the page has a new frame [np]. *)
Definition cow_counts (s s' : vm) (pp np : Z) : Prop :=
  np = pp ∧ palloc_page_refcount pp (frames s) = 1 ∧ frames s' = frames s ∨
  ¬ held s np ∧ ∀ g, g ≠ np / PAGE_SIZE →
    frame_refs (frames s') g = frame_refs (frames s) g - (if g =? pp / PAGE_SIZE then 1 else 0).

Lemma cow_counts_other s s' pp np f :
  cow_counts s s' pp np → held s f → held s' f → held s pp → held s' np → f ≠ pp →
  palloc_page_refcount f (frames s') = palloc_page_refcount f (frames s).
Proof.
  intros Hc Hf Hf' Hp Hn' Hne. pose proof (held_aligned _ _ Hf) as Af. pose proof (held_aligned _ _ Hp) as Ap.
  pose proof (held_aligned _ _ Hn') as An. destruct Hc as [(_&_&->)|[Hn Hg]]; [done|].
  assert (f / PAGE_SIZE ≠ np / PAGE_SIZE) as Hfn.
  { intros E. apply Hn. assert (np = f) as -> by (unfold PAGE_SIZE in *; word_lia). done. }
  rewrite !page_refcount_held, Hg by done.
  case_if; [|lia]. exfalso. apply Hne. zbool. unfold PAGE_SIZE in *. word_lia.
Qed.

Lemma cow_keeps_others s s' dir va pp fl np :
  user_space s dir → in_user va → paging_lookup_page_in dir va s = Some (pp, fl) →
  0 ≤ fl < PAGE_SIZE → Z.testbit fl 2 = true → Z.testbit fl 9 = true →
  cow_resolved s dir (page_floor va) pp fl np s' → cow_counts s s' pp np →
  keeps_others dir va s s'.
Proof.
  intros [Hok Hsp Hown Hdata Hinj] Hva Hlk Hfl Hu H9 Hc Hn.
  pose proof (in_user_facts va Hva) as (Hvu&Hvi&_).
  pose proof (page_floor_indices va Hvu) as (Hf1&Hf2&Hf3&Hf4&_).
  destruct (Hdata va pp fl Hva Hlk) as (Hpp&Hpd&Hpt).
  destruct (lookup_Some s dir va pp fl Hok ltac:(pose proof (space_dir _ _ Hsp) as (_&?&_); lia) Hlk) as (Hpres&_).
  assert (∀ a, in_user a → a / PAGE_SIZE = va / PAGE_SIZE →
    paging_lookup_page_in dir a s' = Some (np, writable_flags fl) ∧
    paging_lookup_page_in dir a s = Some (pp, fl)) as Hsame.
  { intros a Ha E. apply in_user_facts in Ha as (Ha&_).
    rewrite (lookup_page s' dir a (page_floor va)), (lookup_page s dir a va) by (done || congruence). by split; [apply Hc|]. }
  assert (∀ a, in_user a → a / PAGE_SIZE ≠ va / PAGE_SIZE →
    paging_lookup_page_in dir a s' = paging_lookup_page_in dir a s) as Hother.
  { intros a Ha E. apply in_user_facts in Ha as (?&_&?).
    apply (cow_others _ _ _ _ _ _ _ Hc); [done|done|congruence]. }
  split.
  - intros a Ha. unfold user_writable. destruct (decide (a / PAGE_SIZE = va / PAGE_SIZE)) as [E|E]; [|by rewrite Hother].
    destruct (Hsame a Ha E) as [-> ->]. split; intros _; [by exists pp, fl; eauto|].
    exists np, (writable_flags fl). rewrite !writable_flags_bits, Hu by (done || lia). split_and!; [done|done|left; by rewrite orb_true_r].
  - intros lo hi f Hlo Hin Hhi [Hh Hfd Hft Hfp].
    assert (f ≠ np) as Hfn.
    { destruct Hn as [(->&H1&_)|[Hn _]]; [|by intros ->]. intros ->. apply (Hfp va Hin). exists fl. eauto. }
    split; [split|].
    + by apply (cow_held _ _ _ _ _ _ _ Hc).
    + done.
    + intros i Hi Hp. destruct (cow_tables _ _ _ _ _ _ _ Hc i Hi Hp) as [Hp' ->]. by apply Hft.
    + intros a Ha (fl'&Hl&Hb&Hor). assert (in_user a) as Hau by (unfold in_user; lia).
      destruct (decide (a / PAGE_SIZE = va / PAGE_SIZE)) as [E|E]; [destruct (Hsame a Hau E); congruence|].
      rewrite Hother in Hl by done. apply (Hfp a Ha). exists fl'. split_and!; [done..|].
      rewrite <- (cow_counts_other s s' pp np f Hn Hh (cow_held _ _ _ _ _ _ _ Hc f Hh) Hpp (cow_frame _ _ _ _ _ _ _ Hc)); [done|].
      intros ->. by apply E, (Hinj a va pp fl' fl).
    + intros o Ho. pose proof (held_aligned _ _ Hh).
      assert ((f + o) / PAGE_SIZE * PAGE_SIZE = f) as E by (unfold PAGE_SIZE in *; word_lia).
      apply (cow_outside _ _ _ _ _ _ _ Hc); rewrite E; [done| |done].
      rewrite Hf4. apply Hft; [|done]. unfold KERNEL_SHARED_LOW_DIRECTORY_COUNT, DIRECT_MAP_DIRECTORY_INDEX, RECURSIVE_DIRECTORY_INDEX in *. lia.
Qed.

Lemma writable_page_cases s dir va :
  user_space s dir → in_user va →
  let '(page, s') := writable_page dir va s in
  user_space s' dir ∧ (∀ a, in_user a → vbyte s' dir a = vbyte s dir a) ∧
  match page with
  | Some pp => (∃ fl, paging_lookup_page_in dir va s' = Some (pp, fl) ∧
                  Z.testbit fl 2 = true ∧ Z.testbit fl 1 = true) ∧
               user_writable s dir va ∧ keeps_others dir va s s'
  | None => s' = s ∧ (¬ user_writable s dir va ∨ free_frames (frames s) = 0)
  end.
Proof.
  intros Hus Hva. pose proof Hus as [Hok Hsp Hown Hdata Hinj].
  pose proof (in_user_facts va Hva) as (Hvu&Hvi&_).
  pose proof (page_floor_indices va Hvu) as (Hf1&Hf2&Hf3&Hf4&_).
  pose proof (space_dir _ _ Hsp) as (_&Hd0&_).
  unfold writable_page.
  destruct (paging_lookup_page_in dir va s) as [[pp fl]|] eqn:Hlk.
  2:{ split_and!; [done..|]. left. intros (?&?&?&_). congruence. }
  rewrite user_bit, writable_bit, cow_bit.
  destruct (Z.testbit fl 2) eqn:Hu; bsimpl.
  2:{ split_and!; [done..|]. left. intros (?&?&?&?&_). congruence. }
  destruct (Z.testbit fl 1) eqn:Hw; bsimpl.
  { split_and!; [done..|by exists fl|exists pp, fl; eauto|apply keeps_others_refl]. }
  destruct (Z.testbit fl 9) eqn:Hc; bsimpl.
  2:{ split_and!; [done..|]. left. intros (?&?&?&?&[]); congruence. }
  assert (user_writable s dir va) as Huw by (exists pp, fl; eauto).
  destruct (lookup_Some s dir va pp fl Hok ltac:(lia) Hlk) as (Hpres&_&_&Hfl&Hb0).
  destruct (Hdata va pp fl Hva Hlk) as (Hpp&Hpd&Hpt).
  assert (paging_lookup_page_in dir (page_floor va) s = Some (pp, fl)) as Hlkf
    by (rewrite (lookup_page s dir (page_floor va) va); done).
  assert (∀ np s', cow_resolved s dir (page_floor va) pp fl np s' → cow_counts s s' pp np →
    user_space s' dir ∧ (∀ a, in_user a → vbyte s' dir a = vbyte s dir a) ∧
    paging_lookup_page_in dir va s' = Some (np, writable_flags fl) ∧ keeps_others dir va s s') as Hres.
  { intros np s' Hr Hnp. pose proof (cow_keeps_others s s' dir va pp fl np Hus Hva Hlk Hfl Hu Hc Hr Hnp).
    destruct (cow_user_space s s' dir va pp fl np) as [H1 H2]; try done.
    { destruct Hnp as [(->&_)|[? _]]; auto. }
    split_and!; [done..| |done]. rewrite (lookup_page s' dir va (page_floor va)) by done. apply Hr. }
  assert (Z.land (writable_flags fl) USER_WRITABLE = USER_WRITABLE) as Hflags.
  { apply Z.eqb_eq. rewrite (two_bits _ _ 1 2) by done.
    rewrite !writable_flags_bits by (done || lia). by rewrite Hu, orb_true_r. }
  assert (Z.testbit (writable_flags fl) 2 = true ∧ Z.testbit (writable_flags fl) 1 = true) as [Hw2 Hw1]
    by (rewrite !writable_flags_bits, Hu, orb_true_r by (done || lia); done).
  pose proof (resolve_cow_outcome s dir va pp fl Hok Hsp Hvu Hvi (Hown _ Hvi) Hlkf Hpp Hpd) as Hout.
  assert (0 ≤ page_directory_index va < RECURSIVE_DIRECTORY_INDEX) as Hrange
    by (unfold KERNEL_SHARED_LOW_DIRECTORY_COUNT, DIRECT_MAP_DIRECTORY_INDEX,
          RECURSIVE_DIRECTORY_INDEX in *; lia).
  specialize (Hout (Hpt _ Hrange Hpres) Hb0 Hu Hc Hw).
  destruct (paging_resolve_copy_on_write_in dir va s) as [r s'].
  destruct (Z.eqb_spec (palloc_page_refcount pp (frames s)) 1) as [H1r|_].
  - destruct Hout as (->&Hr&Hfs). destruct (Hres pp s' Hr) as (H1&H2&Hl&Hk); [by left|].
    change (truthy 0) with false. cbv iota. rewrite Hl, Hflags, Z.eqb_refl. bsimpl.
    split_and!; [done..|by exists (writable_flags fl)|done|done].
  - destruct (Z.eqb_spec (free_frames (frames s)) 0); [destruct Hout as [-> ->]; split_and!; by auto|].
    destruct Hout as (->&np&Hn&Hr&_&Hg). destruct (Hres np s' Hr) as (H1&H2&Hl&Hk); [by right|].
    change (truthy 0) with false. cbv iota. rewrite Hl, Hflags, Z.eqb_refl. bsimpl.
    split_and!; [done..|by exists (writable_flags fl)|done|done].
Qed.

(** Writing bytes of one user page, the state [s'], changes that page only; the
    address space stays well formed. *)
Section write.
Context s dir va pp fl (src : carray Z) (from n : Z)
  (Hus : user_space s dir) (Hsrc : bytes_wf src) (Hva : in_user va)
  (Hlk : paging_lookup_page_in dir va s = Some (pp, fl)) (Hu : Z.testbit fl 2 = true)
  (Hn : 0 ≤ n ≤ PAGE_SIZE - va mod PAGE_SIZE).
Let s' := with_pmem (copy_bytes (pmem s) (pp + va mod PAGE_SIZE) src from n) s.

Lemma write_outside b : b / PAGE_SIZE * PAGE_SIZE ≠ pp → pmem s' b = pmem s b.
Proof.
  pose proof (held_aligned _ _ (proj1 (us_data _ _ Hus va pp fl Hva Hlk))) as Hpa.
  assert (0 ≤ va mod PAGE_SIZE < PAGE_SIZE) as Hm by (by apply Z.mod_pos_bound).
  intros Hb. apply copy_bytes_out. unfold PAGE_SIZE in *. word_lia.
Qed.

Lemma write_dir i : 0 ≤ i < 1024 → entry_at (pmem s') dir i = entry_at (pmem s) dir i.
Proof.
  pose proof (held_aligned _ _ (space_dir _ _ (us_space _ _ Hus))) as Hda.
  destruct (us_data _ _ Hus va pp fl Hva Hlk) as (_&Hpd&_).
  intros Hi. apply entry_ext; [done..|]. intros b Hb. apply write_outside. congruence.
Qed.

Lemma write_table i : 0 ≤ i < 1024 → table_of s' dir i = table_of s dir i.
Proof. intros. unfold table_of. by rewrite write_dir. Qed.

Lemma write_lookup a : in_user a → paging_lookup_page_in dir a s' = paging_lookup_page_in dir a s.
Proof.
  intros Ha. apply (in_user_facts a) in Ha as (Hau&_&Hai). destruct Hus as [Hok Hsp Hown Hdata Hinj].
  destruct (Hdata va pp fl Hva Hlk) as (Hpp&Hpd&Hpt). pose proof (space_dir _ _ Hsp) as (_&Hd0&_).
  pose proof (page_indices_range a Hau) as [Hr1 Hr2].
  apply lookup_same; [apply Hok|apply copy_bytes_wf; [apply Hok|done]|lia|by apply write_dir|]. intros Hp.
  destruct (space_tables s dir Hsp (page_directory_index a) ltac:(lia) Hp) as [Ht _].
  apply entry_ext; [by apply (held_aligned s)|done|]. intros b Hb. apply write_outside. rewrite Hb.
  apply not_eq_sym, Hpt; [lia|done].
Qed.

Lemma write_user_space : user_space s' dir.
Proof.
  assert (RECURSIVE_DIRECTORY_INDEX = 1023 ∧ DIRECT_MAP_DIRECTORY_INDEX = 768 ∧
    KERNEL_SHARED_LOW_DIRECTORY_COUNT = 1) as (HR&HD&HK) by done.
  pose proof write_dir as Hdir. pose proof write_table as Htab. pose proof write_lookup as Hl.
  destruct Hus as [Hok Hsp Hown Hdata Hinj]. split.
  - split; [apply copy_bytes_wf; [apply Hok|done]|apply Hok].
  - split; [apply Hsp|]. intros i Hi. rewrite Hdir, Htab by lia. apply Hsp. lia.
  - intros i Hi. apply (own_table_entries s); [lia|done|by apply Hown].
  - intros a p f Ha. rewrite Hl by done. intros H. destruct (Hdata a p f Ha H) as (H1&H2&H3).
    split; [done|]. split; [done|]. intros i Hi. rewrite Hdir, Htab by lia. by apply H3.
  - intros a b p f f' Ha Hb. rewrite !Hl by done. by apply Hinj.
Qed.

Lemma write_vbyte a :
  in_user a → vbyte s' dir a =
    if decide (va ≤ a < va + n) then Some (src (from + (a - va))) else vbyte s dir a.
Proof.
  intros Ha. pose proof (in_user_facts a Ha) as (Hau&_). pose proof (in_user_facts va Hva) as (Hvu&_).
  assert (0 ≤ a mod PAGE_SIZE < PAGE_SIZE) as Hma by (by apply Z.mod_pos_bound).
  unfold vbyte. rewrite write_lookup by done.
  destruct (decide (a / PAGE_SIZE = va / PAGE_SIZE)) as [E|E].
  - rewrite (lookup_page s dir a va), Hlk, Hu by done.
    assert (a - va = a mod PAGE_SIZE - va mod PAGE_SIZE) as Hoff
      by (unfold PAGE_SIZE in *; word_lia).
    unfold s', copy_bytes. simpl. case_decide.
    + f_equal. case_if; [f_equal; lia|]. destruct E0; zbool; lia.
    + f_equal. case_if; [lia|done].
  - case_decide as Hin.
    { exfalso. apply E. replace a with (va + (a - va)) by lia.
      apply chunk_page; [done|lia]. }
    destruct (paging_lookup_page_in dir a s) as [[p f]|] eqn:Hla; [|done].
    destruct (Z.testbit f 2); [|done]. f_equal. apply write_outside.
    destruct (us_data _ _ Hus a p f Ha Hla) as (Hp&_). pose proof (held_aligned _ _ Hp) as Hp'.
    assert ((p + a mod PAGE_SIZE) / PAGE_SIZE * PAGE_SIZE = p) as ->
      by (unfold PAGE_SIZE in *; word_lia).
    intros ->. by apply E, (us_inj _ _ Hus a va pp f fl).
Qed.

Lemma write_keeps_others : Z.testbit fl 1 = true → keeps_others dir va s s'.
Proof.
  assert (RECURSIVE_DIRECTORY_INDEX = 1023) as HR by done. intros Hw. split.
  - intros a Ha. unfold user_writable. by rewrite write_lookup.
  - intros lo hi f Hlo Hin Hhi [Hh Hfd Hft Hfp].
    assert (f ≠ pp) as Hne by (intros ->; apply (Hfp va Hin); exists fl; eauto).
    split; [split; [done|done|..]|].
    + intros i Hi. rewrite write_dir, write_table by lia. by apply Hft.
    + intros a Ha. unfold writes_in_place. rewrite write_lookup by (unfold in_user; lia). by apply Hfp.
    + intros o Ho. apply write_outside. pose proof (held_aligned _ _ Hh). unfold PAGE_SIZE in *. word_lia.
Qed.
End write.

(** Arithmetic with the bounds of the user half. *)
Ltac user_lia :=
  unfold in_user, is_u32, USER_VIRT_BASE, USER_VIRT_LIMIT, KERNEL_DIRECT_MAP_BASE, PAGE_SIZE in *; lia.

Section to.
Context (dir : Z) (src : carray Z) (Hsrc : bytes_wf src) (dst len : Z)
  (Hlen : 0 ≤ len) (Hlo : USER_VIRT_BASE ≤ dst) (Hhi : dst + len ≤ USER_VIRT_LIMIT).

(** The outcome of a copy whose first [copied] bytes are there in state [s]: it ends after [k]
    bytes, all on pages that could be written, and changes nothing else that this or
    another address space sees; it fails only at a page that cannot be written, or
    without a free frame for a shared one. *)
Definition to_outcome (s : vm) (copied r : Z) (s' : vm) (k : Z) : Prop :=
  copied ≤ k ≤ len ∧
  (r = 0 ∧ k = len ∨
   r = -1 ∧ k < len ∧ (¬ user_writable s dir (dst + k) ∨ free_frames (frames s') = 0)) ∧
  (∀ a, dst + copied ≤ a < dst + k → user_writable s dir a) ∧
  (∀ a, in_user a → vbyte s' dir a =
     if decide (dst + copied ≤ a < dst + k) then Some (src (a - dst)) else vbyte s dir a) ∧
  (∀ f, out_of_reach s dir (dst + copied) (dst + k) f → held s' f ∧ same_frame s s' f).

Lemma to_stop s copied r :
  0 ≤ copied ≤ len →
  r = 0 ∧ copied = len ∨
  r = -1 ∧ copied < len ∧ (¬ user_writable s dir (dst + copied) ∨ free_frames (frames s) = 0) →
  to_outcome s copied r s copied.
Proof.
  intros Hc Hr. split_and!; [lia|lia|done|intros; lia|..].
  - intros a _. case_decide; [lia|done].
  - intros f Hf. split; [apply Hf|by intros o _].
Qed.

(** A turn copies [chunk] bytes to one page and goes on in state [s2]. *)
Lemma to_turn s s2 copied chunk r s' k (va := dst + copied) :
  0 ≤ copied → 0 < chunk → chunk ≤ PAGE_SIZE - va mod PAGE_SIZE →
  user_writable s dir va → keeps_others dir va s s2 →
  (∀ a, in_user a → vbyte s2 dir a =
     if decide (va ≤ a < va + chunk) then Some (src (copied + (a - va))) else vbyte s dir a) →
  to_outcome s2 (copied + chunk) r s' k → to_outcome s copied r s' k.
Proof.
  intros Hc0 Hch Hpg Huw [Hkw Hkr] Hb (Hk&Hr&Hw&Hb'&Ho).
  assert (∀ a, dst ≤ a < dst + len → in_user a) as Hin by (intros a Ha; unfold in_user; lia).
  assert (in_user va) as Hva by (apply Hin; unfold va; lia).
  pose proof (in_user_facts va Hva) as (Hvu&_).
  split_and!; [lia|lia| | |..].
  - destruct Hr as [?|(?&?&Hx)]; [by left|right; split_and!; [done..|]].
    rewrite <- Hkw by (apply Hin; lia). done.
  - intros a Ha. destruct (decide (a < va + chunk)) as [Hl|Hl].
    + destruct Huw as (pp&fl&Hlk&Hbits). exists pp, fl. split; [|done].
      rewrite (lookup_page s dir a va); [done|apply in_user_facts, Hin; lia|done|].
      replace a with (va + (a - va)) by lia. apply chunk_page; [done|unfold va in *; lia].
    + apply Hkw; [apply Hin; lia|]. apply Hw. unfold va in *. lia.
  - intros a Ha. rewrite Hb' by done. case_decide as H1; [case_decide; [done|lia]|].
    rewrite Hb by done. unfold va in *. case_decide as H2.
    + case_decide; [f_equal; f_equal; lia|lia].
    + case_decide; [lia|done].
  - intros f Hf. destruct (Hkr (dst + copied) (dst + k) f) as [Hf2 Hs2]; [lia|unfold va; lia|lia|done|].
    destruct (Ho f) as [Hh Hs']; [apply (out_of_reach_narrow _ _ (dst + copied)); [lia|done]|].
    split; [done|]. intros o Hoo. by rewrite Hs', Hs2.
Qed.

Lemma copy_to_loop_spec n copied s :
  user_space s dir → 0 ≤ copied ≤ len → len - copied ≤ Z.of_nat n →
  let '(r, s') := copy_to_loop n dir src dst len copied s in
  user_space s' dir ∧ ∃ k, to_outcome s copied r s' k.
Proof.
  revert copied s. induction n as [|n IH]; intros copied s Hus Hc Hn; cbn [copy_to_loop].
  - case_if; [lia|]. split; [done|]. exists copied. apply to_stop; lia.
  - case_if; [|split; [done|]; exists copied; apply to_stop; lia].
    assert (dst ⊞ copied = dst + copied) as -> by (apply u32_small; user_lia).
    set (va := dst + copied).
    assert (in_user va) as Hva by (unfold va; user_lia).
    pose proof (in_user_facts va Hva) as (Hvu&_).
    pose proof (writable_page_cases s dir va Hus Hva) as Hwp.
    destruct (writable_page dir va s) as [[pp|] s1]; destruct Hwp as (Hus1&Hb1&Hpage).
    2:{ destruct Hpage as [-> Hwhy]. split; [done|]. exists copied. apply to_stop; [done|]. right. split_and!; [done|lia|done]. }
    destruct Hpage as ((fl&Hlk&Hu&Hw)&Huw&Hko).
    assert (is_u32 len) as Hlu by user_lia.
    assert (copy_chunk va len copied = Z.min (len - copied) (PAGE_SIZE - va mod PAGE_SIZE)) as Hch
      by (apply copy_chunk_eq; [done|done|lia]).
    assert (0 ≤ va mod PAGE_SIZE < PAGE_SIZE) as Hm by (by apply Z.mod_pos_bound).
    set (chunk := copy_chunk va len copied) in *.
    destruct (us_data _ _ Hus1 va pp fl Hva Hlk) as (Hpp&_). pose proof (held_aligned _ _ Hpp) as Hpa.
    rewrite page_byte_eq by (done || apply Hpp).
    rewrite (u32_small (copied + chunk)) by user_lia.
    assert (0 ≤ chunk ≤ PAGE_SIZE - va mod PAGE_SIZE) as Hcb by lia.
    specialize (IH (copied + chunk) _ (write_user_space s1 dir va pp fl src copied chunk Hus1 Hsrc Hva Hlk Hcb) ltac:(lia) ltac:(lia)).
    destruct (copy_to_loop _ _ _ _ _ _ _) as [r s']. destruct IH as (Hus'&k&Hk).
    split; [done|]. exists k. revert Hk. apply to_turn; [lia|lia|fold va; lia|done|..]; fold va.
    + eapply keeps_others_trans; [exact Hko|]. by apply (write_keeps_others s1 dir va pp fl).
    + intros a Ha. rewrite (write_vbyte s1 dir va pp fl) by done. case_decide; [done|by apply Hb1].
Qed.

End to.

(** One byte, as [user_copy_string_from_in] fetches it. *)
Lemma copy_one s dir (cell : carray Z) a :
  vm_ok s → dir ≠ 0 → is_u32 a →
  match vbyte s dir a with
  | Some c => ∃ cell', copy_from_loop 1 dir cell a 1 0 s = (0, cell') ∧ cell' 0 = c
  | None => ∃ cell', copy_from_loop 1 dir cell a 1 0 s = (-1, cell')
  end.
Proof.
  intros Hok Hd Ha.
  pose proof (copy_from_loop_spec s dir Hok Hd a 1 Ha ltac:(done) ltac:(unfold is_u32 in *; lia)
    1 cell 0 ltac:(lia) ltac:(lia)) as H.
  destruct (copy_from_loop 1 dir cell a 1 0 s) as [r cell']. destruct H as [_ H].
  destruct H as [[-> H]|[-> (k&Hk&H)]].
  - specialize (H 0 ltac:(lia)). rewrite Z.add_0_r in H. rewrite H. by exists cell'.
  - replace (a + k) with a in H by lia. rewrite H. by exists cell'.
Qed.

(** The outcome of fetching a string of at most [max_length] bytes. *)
Definition string_outcome (s : vm) (dir source max_length index : Z) (r : Z) (dst' : carray Z) : Prop :=
  (∃ n, index ≤ n < max_length ∧ r = 0 ∧
     (∀ k, index ≤ k < n → dst' k ≠ 0 ∧ vbyte s dir (source + k) = Some (dst' k)) ∧
     dst' n = 0 ∧ vbyte s dir (source + n) = Some 0) ∨
  (r = -1 ∧ ∃ n, index ≤ n ≤ max_length ∧
     (∀ k, index ≤ k < n → ∃ c, c ≠ 0 ∧ vbyte s dir (source + k) = Some c) ∧
     if n =? max_length then dst' (max_length - 1) = 0 else vbyte s dir (source + n) = None).

Lemma copy_string_loop_spec s dir dst source max_length n index :
  vm_ok s → dir ≠ 0 → 0 ≤ source → source + max_length ≤ 4294967296 →
  0 ≤ index → index + Z.of_nat n = max_length → 0 < max_length →
  let '(r, dst') := copy_string_loop n dir dst source max_length index s in
  string_outcome s dir source max_length index r dst' ∧
  (∀ k, k < index ∨ max_length ≤ k → k ≠ max_length - 1 → dst' k = dst k).
Proof.
  intros Hok Hd Hs Hend. revert dst index. induction n as [|n IH]; intros dst index Hi Hn Hpos;
    cbn [copy_string_loop].
  - split; [|intros; by rewrite arr_get_set_ne]. right. split; [done|]. exists max_length.
    split_and!; [lia|lia|intros; lia|]. rewrite Z.eqb_refl. apply arr_get_set_eq.
  - assert (source ⊞ index = source + index) as -> by (apply u32_small; lia).
    pose proof (copy_one s dir (λ i, dst (index + i)) (source + index) Hok Hd
      ltac:(unfold is_u32; lia)) as H1.
    destruct (vbyte s dir (source + index)) as [c|] eqn:Hv; destruct H1 as (cell&->&H1) || destruct H1 as (cell&->).
    2:{ split; [|done]. right. split; [done|]. exists index.
        rewrite (proj2 (Z.eqb_neq index max_length)) by lia. split_and!; [lia|lia|intros; lia|done]. }
    change (truthy 0) with false. cbv iota. rewrite arr_get_set_eq, H1.
    destruct (Z.eqb_spec c 0) as [->|Hc].
    { split; [|intros; by rewrite arr_get_set_ne by lia]. left. exists index.
      split_and!; [lia|lia|done|intros; lia|apply arr_get_set_eq|done]. }
    specialize (IH (<[index := c]> dst) (index + 1) ltac:(lia) ltac:(lia) Hpos).
    destruct (copy_string_loop _ _ _ _ _ _ _) as [r dst']. destruct IH as [Ho Hkeep].
    split; [|intros k ??; rewrite Hkeep by lia; by rewrite arr_get_set_ne by lia].
    destruct Ho as [(m&Hm&->&Hk&H0&Hz)|[-> (m&Hm&Hk&Hlast)]].
    + left. exists m. split_and!; [lia|lia|done| |done|done]. intros k Hk'.
      destruct (decide (k = index)) as [->|]; [|apply Hk; lia].
      assert (dst' index = c) as -> by (rewrite Hkeep by lia; apply arr_get_set_eq). done.
    + right. split; [done|]. exists m. split_and!; [lia|lia| |done]. intros k Hk'.
      destruct (decide (k = index)) as [->|]; [by exists c|apply Hk; lia].
Qed.

(** ** Properties *)

(** Copying out of user memory: the call succeeds exactly when every byte of
    the range is on a present user page, and the buffer then holds the bytes the
    user program sees there; it writes nothing past the requested length.  The
    loop's fuel, one turn per byte, is never exhausted. *)
Theorem user_copy_from_spec s dir dst source_address length :
  vm_ok s → dir ≠ 0 → is_u32 source_address → is_u32 length →
  source_address + length ≤ 4294967296 →
  ∃ r dst', user_copy_from_in dir (Some dst) source_address length s = (r, Some dst') ∧
    (∀ k, k < 0 ∨ length ≤ k → dst' k = dst k) ∧
    ((r = 0 ∧ ∀ k, 0 ≤ k < length → vbyte s dir (source_address + k) = Some (dst' k)) ∨
     (r = -1 ∧ ∃ k, 0 ≤ k < length ∧ vbyte s dir (source_address + k) = None)).
Proof.
  intros Hok Hd Hs Hl He.
  pose proof (copy_from_loop_spec s dir Hok Hd source_address length Hs Hl He
    (Z.to_nat length) dst 0) as H. unfold is_u32 in Hl.
  unfold user_copy_from_in. destruct (copy_from_loop _ _ _ _ _ _ _) as [r dst'].
  exists r, dst'. split; [done|]. apply H; lia.
Qed.

(** C5: Copying into user memory of a well-formed address space.  On success the
    user program sees exactly the source bytes in the range and its old bytes
    everywhere else; on failure the same holds for a proper prefix of [k] bytes, and either
    the page of the next byte cannot be written or no frame is left to unshare it.  Only
    user pages that are writable or copy-on-write are written.  A frame in use that the
    address space does not own, in particular the frame of a copy-on-write page that
    others refer to, stays in use and keeps every byte, so that no other address space sees the
    copy; the page tables and the pages written in place are the only frames in use that change.
    The address space stays well formed. *)
Theorem user_copy_to_spec s dir destination src length :
  user_space s dir → bytes_wf src → 0 ≤ length →
  USER_VIRT_BASE ≤ destination → destination + length ≤ USER_VIRT_LIMIT →
  let '(r, s') := user_copy_to_in dir destination (Some src) length s in
  user_space s' dir ∧
  ∃ k, 0 ≤ k ≤ length ∧
    (r = 0 ∧ k = length ∨
     r = -1 ∧ k < length ∧
       (¬ user_writable s dir (destination + k) ∨ free_frames (frames s') = 0)) ∧
    (∀ a, destination ≤ a < destination + k → user_writable s dir a) ∧
    (∀ a, in_user a → vbyte s' dir a =
       if decide (destination ≤ a < destination + k) then Some (src (a - destination))
       else vbyte s dir a) ∧
    (∀ f, out_of_reach s dir destination (destination + k) f → held s' f ∧ same_frame s s' f).
Proof.
  intros Hus Hsrc Hl Hlo Hhi. unfold user_copy_to_in.
  pose proof (copy_to_loop_spec dir src Hsrc destination length Hl Hlo Hhi
    (Z.to_nat length) 0 s Hus ltac:(lia) ltac:(lia)) as H.
  destruct (copy_to_loop _ _ _ _ _ _ _) as [r s']. destruct H as (H1&k&H).
  unfold to_outcome in H. rewrite Z.add_0_r in H. split; [done|]. by exists k.
Qed.

(** Fetching a string: the call succeeds exactly when a zero byte is reached
    within [max_length] readable bytes, and the buffer then holds the string and
    its terminator; otherwise it fails, having met an unreadable byte first or, when
    all bytes are readable and non-zero, having terminated the buffer. *)
Theorem user_copy_string_spec s dir dst source_address max_length :
  vm_ok s → dir ≠ 0 → 0 ≤ source_address → 0 < max_length →
  source_address + max_length ≤ 4294967296 →
  ∃ r dst', user_copy_string_from_in dir (Some dst) source_address max_length s = (r, Some dst') ∧
    string_outcome s dir source_address max_length 0 r dst' ∧
    ∀ k, k < 0 ∨ max_length ≤ k → dst' k = dst k.
Proof.
  intros Hok Hd Hs Hm He. unfold user_copy_string_from_in.
  rewrite (proj2 (Z.eqb_neq max_length 0)) by lia.
  pose proof (copy_string_loop_spec s dir dst source_address max_length (Z.to_nat max_length) 0
    Hok Hd Hs He ltac:(lia) ltac:(lia) Hm) as H.
  destruct (copy_string_loop _ _ _ _ _ _ _) as [r dst']. destruct H as [Ho Hk].
  exists r, dst'. split_and!; [done|done|]. intros k ?. apply Hk; lia.
Qed.

(** ** Witnesses: one user page, copy-on-write and shared *)

Lemma w_shared_unmapped a : paging_lookup_page_in 1048576 a w_shared = None.
Proof. reflexivity. Qed.

Lemma w_cow_lookup a pp fl :
  in_user a → paging_lookup_page_in 1048576 a w_cow = Some (pp, fl) →
  a / PAGE_SIZE = 4194304 / PAGE_SIZE ∧ pp = 1052672.
Proof.
  intros Ha Hl. pose proof w_cow_maps as Hm. pose proof (in_user_facts a Ha) as (Hu&_&Hi).
  destruct (decide (a / PAGE_SIZE = 4194304 / PAGE_SIZE)) as [E|E].
  - split; [exact E|]. rewrite (lookup_page w_cow 1048576 a 4194304) in Hl by (exact E || exact Hu || (unfold is_u32; lia)).
    rewrite (maps_page _ _ _ _ _ _ Hm) in Hl. congruence.
  - rewrite (maps_others _ _ _ _ _ _ Hm) in Hl by assumption.
    rewrite w_shared_unmapped in Hl. discriminate Hl.
Qed.

Lemma w_cow_table i :
  0 ≤ i < RECURSIVE_DIRECTORY_INDEX → present (entry_at (pmem w_cow) 1048576 i) = true →
  i = 1.
Proof.
  intros Hi Hp. destruct (decide (i = 1)) as [|Hne]; [assumption|].
  unfold RECURSIVE_DIRECTORY_INDEX in Hi.
  rewrite (maps_dir _ _ _ _ _ _ w_cow_maps) in Hp by (exact Hne || lia). discriminate Hp.
Qed.

Lemma w_cow_user_space : user_space w_cow 1048576.
Proof.
  pose proof w_cow_maps as Hm. split.
  - exact (maps_ok _ _ _ _ _ _ Hm).
  - exact (maps_space _ _ _ _ _ _ Hm).
  - intros i Hi. apply (maps_own _ _ _ _ _ _ Hm).
    + unfold KERNEL_SHARED_LOW_DIRECTORY_COUNT, DIRECT_MAP_DIRECTORY_INDEX,
        RECURSIVE_DIRECTORY_INDEX in *. lia.
    + intros H. discriminate H.
  - intros a pp fl Ha Hl. destruct (w_cow_lookup a pp fl Ha Hl) as [_ ->].
    split; [|split; [discriminate|]].
    + apply (maps_held _ _ _ _ _ _ Hm). refine (conj _ (conj _ _)); [unfold is_u32; lia|lia|].
      vm_compute. reflexivity.
    + intros i Hi Hp. rewrite (w_cow_table i Hi Hp). vm_compute. discriminate.
  - intros a b pp fl fl' Ha Hb Hla Hlb.
    destruct (w_cow_lookup a pp fl Ha Hla) as [-> _]. by destruct (w_cow_lookup b pp fl' Hb Hlb) as [-> _].
Qed.

Lemma user_copy_from_spec_witness :
  ∃ r dst', user_copy_from_in 1048576 (Some (λ _, 7)) 4194400 10 w_cow = (r, Some dst') ∧ dst' 10 = 7.
Proof.
  destruct (user_copy_from_spec w_cow 1048576 (λ _, 7) 4194400 10) as (r&dst'&H1&H2&_).
  - exact (maps_ok _ _ _ _ _ _ w_cow_maps).
  - discriminate.
  - unfold is_u32. lia.
  - unfold is_u32. lia.
  - lia.
  - exists r, dst'. split; [exact H1|]. apply H2. lia.
Defined.

(** The frame of the page is shared, so a copy to the page does not reach it. *)
Lemma w_cow_out_of_reach lo hi :
  USER_VIRT_BASE ≤ lo → hi ≤ USER_VIRT_LIMIT → out_of_reach w_cow 1048576 lo hi 1052672.
Proof.
  intros Hlo Hhi. pose proof w_cow_maps as Hm. split.
  - apply (maps_held _ _ _ _ _ _ Hm). refine (conj _ (conj _ _)); [unfold is_u32; lia|lia|].
    vm_compute. reflexivity.
  - discriminate.
  - intros i Hi Hp. rewrite (w_cow_table i Hi Hp). vm_compute. discriminate.
  - intros a Ha (fl&Hl&_&Hor). assert (in_user a) as Hau by (unfold in_user; lia).
    destruct (w_cow_lookup a _ fl Hau Hl) as [E _].
    rewrite (lookup_page w_cow 1048576 a 4194304) in Hl by (exact E || apply in_user_facts, Hau || (unfold is_u32; lia)).
    rewrite (maps_page _ _ _ _ _ _ Hm) in Hl. injection Hl as <-.
    destruct Hor as [H|[_ H]]; vm_compute in H; discriminate H.
Qed.

Lemma user_copy_to_spec_witness :
  user_space (user_copy_to_in 1048576 4194400 (Some (λ _, 65)) 5 w_cow).2 1048576 ∧
  same_frame w_cow (user_copy_to_in 1048576 4194400 (Some (λ _, 65)) 5 w_cow).2 1052672.
Proof.
  pose proof (user_copy_to_spec w_cow 1048576 4194400 (λ _, 65) 5 w_cow_user_space) as H.
  destruct (user_copy_to_in 1048576 4194400 (Some (λ _, 65)) 5 w_cow) as [r s'].
  destruct H as (H&k&Hk&_&_&_&Ho).
  - intros a. unfold is_u8. lia.
  - lia.
  - unfold USER_VIRT_BASE. lia.
  - unfold USER_VIRT_LIMIT, KERNEL_DIRECT_MAP_BASE. lia.
  - split; [exact H|]. apply Ho, w_cow_out_of_reach.
    + unfold USER_VIRT_BASE. lia.
    + unfold USER_VIRT_LIMIT, KERNEL_DIRECT_MAP_BASE. lia.
Defined.

Lemma user_copy_string_spec_witness :
  ∃ r dst', user_copy_string_from_in 1048576 (Some (λ _, 7)) 4194400 16 w_cow = (r, Some dst') ∧
    string_outcome w_cow 1048576 4194400 16 0 r dst'.
Proof.
  destruct (user_copy_string_spec w_cow 1048576 (λ _, 7) 4194400 16) as (r&dst'&H1&H2&_).
  - exact (maps_ok _ _ _ _ _ _ w_cow_maps).
  - discriminate.
  - lia.
  - lia.
  - lia.
  - exists r, dst'. split; [exact H1|exact H2].
Defined.
