(* ===== verification/Block.v ===== *)
(** * The block layer ([src/kernel/block.c]), the GPT root partition
    ([src/kernel/partition.c]) and the boot-module ramdisk ([src/kernel/ramdisk.c])

    A device's [read] and [write] are the function pointers of the C structure,
    closed over the device's context; [St] is the state of the storage below.
    [BlockDevice] is the contract a device keeps: its blocks are a byte array,
    reads return it and writes update it.  The ramdisk meets it, and a partition
    of a device that meets it meets it. *)

From S2P Require Import Prelude Mem Palloc.
From Stdlib Require Import String Ascii.

Local Open Scope Z_scope.
Local Open Scope c_scope.

(** The bytes of a C string constant. *)
Definition c_bytes (s : string) : list Z :=
  (λ c, Z.of_N (N_of_ascii c)) <$> list_ascii_of_string s.

Definition BLOCK_MAX_DEVICES : Z := 8.
Definition BLOCK_MAX_CONTROLLERS : Z := 4.
Definition BLOCK_TRANSPORT_UNKNOWN : Z := 0.
Definition BLOCK_TRANSPORT_ATA_PIO : Z := 1.
Definition BLOCK_TRANSPORT_AHCI : Z := 2.

Record block_controller := { controller_name : option (list Z); transport : Z }.

(** The context and parent pointers are inside the two operations.  An operation takes
    the block index, the block count and the buffer; a read returns the
    status and the buffer, a write the status and the storage. *)
Record block_device (St : Type) := {
  name : option (list Z);
  block_size : Z;
  block_count : Z;
  read_only : Z;
  read : option (Z → Z → carray Z → St → Z * carray Z);
  write : option (Z → Z → carray Z → St → Z * St);
  controller : option block_controller;
}.
Arguments name {_}.
Arguments block_size {_}.
Arguments block_count {_}.
Arguments read_only {_}.
Arguments read {_}.
Arguments write {_}.
Arguments controller {_}.

(** [string_equals]; a null string has length 0. *)
Definition string_equals (left right : option (list Z)) : bool :=
  bool_decide (default [] left = default [] right).

Definition block_transport_name (t : Z) : list Z :=
  if t =? BLOCK_TRANSPORT_ATA_PIO then c_bytes "ata-pio"
  else if t =? BLOCK_TRANSPORT_AHCI then c_bytes "ahci" else c_bytes "unknown".

Section registry.
Context {St : Type}.

Record block_state := {
  devices : carray (option (block_device St));
  controllers : carray (option block_controller);
}.

Definition block_init (b : block_state) : block_state :=
  {| devices := arr_fill 0 BLOCK_MAX_DEVICES None (devices b);
     controllers := arr_fill 0 BLOCK_MAX_CONTROLLERS None (controllers b) |}.

(** The registration loops: the first index that is free or holds the name. *)
Definition slot_for {A} (tbl : carray (option A)) (limit : Z) (nm : A → option (list Z))
    (new_name : option (list Z)) : option Z :=
  for_find 0 limit (λ i, match tbl i with
                         | None => true
                         | Some d => string_equals (nm d) new_name
                         end).

Definition block_register_controller (c : option block_controller) (b : block_state)
    : Z * block_state :=
  match c with
  | None => (-1, b)
  | Some c =>
      if match controller_name c with None => true | _ => false end then (-1, b)
      else
        match slot_for (controllers b) BLOCK_MAX_CONTROLLERS controller_name (controller_name c) with
        | Some i =>
            match controllers b i with
            | None => (0, {| devices := devices b; controllers := <[i := Some c]> (controllers b) |})
            | Some _ => (-1, b)
            end
        | None => (-1, b)
        end
  end.

Definition block_register (device : option (block_device St)) (b : block_state) : Z * block_state :=
  match device with
  | None => (-1, b)
  | Some d =>
      if match name d with None => true | _ => false end
         || (block_size d =? 0) || (block_count d =? 0)
         || match read d with None => true | _ => false end then (-1, b)
      else if (read_only d =? 0) && match write d with None => true | _ => false end then (-1, b)
      else
        match slot_for (devices b) BLOCK_MAX_DEVICES name (name d) with
        | Some i =>
            match devices b i with
            | None => (0, {| devices := <[i := Some d]> (devices b); controllers := controllers b |})
            | Some _ => (-1, b)
            end
        | None => (-1, b)
        end
  end.

Definition block_find (nm : option (list Z)) (b : block_state) : option (block_device St) :=
  match for_find 0 BLOCK_MAX_DEVICES (λ i,
          match devices b i with
          | None => false
          | Some d => string_equals (name d) nm
          end) with
  | Some i => devices b i
  | None => None
  end.

(** [None] is a null device or buffer. *)
Definition block_read (device : option (block_device St)) (block_index count : Z)
    (buffer : option (carray Z)) (s : St) : Z * option (carray Z) :=
  match device, buffer with
  | Some d, Some buf =>
      if count =? 0 then (-1, buffer)
      else if (block_count d <=? block_index) || (block_count d ⊟ block_index <? count)
      then (-1, buffer)
      else match read d with
           | Some op => let '(r, buf) := op block_index count buf s in (r, Some buf)
           | None => (-1, buffer)
           end
  | _, _ => (-1, buffer)
  end.

Definition block_write (device : option (block_device St)) (block_index count : Z)
    (buffer : option (carray Z)) (s : St) : Z * St :=
  match device, buffer with
  | Some d, Some buf =>
      if (count =? 0) || truthy (read_only d)
         || match write d with None => true | _ => false end then (-1, s)
      else if (block_count d <=? block_index) || (block_count d ⊟ block_index <? count)
      then (-1, s)
      else match write d with
           | Some op => op block_index count buf s
           | None => (-1, s)
           end
  | _, _ => (-1, s)
  end.

(** ** Partitions *)

(** [partition_context_t]; [None] is a null parent. *)
Record partition_context := {
  parent : option (block_device St);
  start_block : Z;
  partition_blocks : Z;
}.

Definition partition_read (context : option partition_context) (block_index count : Z)
    (buffer : carray Z) (s : St) : Z * carray Z :=
  match context with
  | None => (-1, buffer)
  | Some c =>
      match parent c with
      | None => (-1, buffer)
      | Some p =>
          if (partition_blocks c <=? block_index) || (partition_blocks c ⊟ block_index <? count)
          then (-1, buffer)
          else
            let '(r, b) := block_read (Some p) (start_block c ⊞ block_index) count (Some buffer) s in
            (r, default buffer b)
      end
  end.

Definition partition_write (context : option partition_context) (block_index count : Z)
    (buffer : carray Z) (s : St) : Z * St :=
  match context with
  | None => (-1, s)
  | Some c =>
      match parent c with
      | None => (-1, s)
      | Some p =>
          if (partition_blocks c <=? block_index) || (partition_blocks c ⊟ block_index <? count)
          then (-1, s)
          else block_write (Some p) (start_block c ⊞ block_index) count (Some buffer) s
      end
  end.

End registry.
Arguments block_state : clear implicits.
Arguments partition_context : clear implicits.

(** ** GPT *)

Definition GPT_HEADER_BLOCK : Z := 1.
Definition GPT_SIGNATURE_LOW : Z := 541673029.
Definition GPT_SIGNATURE_HIGH : Z := 1414676816.
Definition GPT_ENTRY_NAME_CHARS : Z := 36.
Definition GPT_MAX_ENTRY_SIZE : Z := 512.
Definition GPT_MAX_SCAN_ENTRIES : Z := 128.
Definition sizeof_gpt_entry : Z := 128.

(** The fields of [gpt_header_t] and [gpt_partition_entry_t] that the code reads. *)
Record gpt_header := { signature : Z; entry_lba : Z; entry_count : Z; entry_size : Z }.

Definition gpt_header_at (block : carray Z) : gpt_header :=
  {| signature := load64 block 0; entry_lba := load64 block 72;
     entry_count := load32 block 80; entry_size := load32 block 84 |}.

Definition guid_is_zero (block : carray Z) (guid : Z) : bool :=
  match for_find 0 16 (λ i, negb (block (guid + i) =? 0)) with Some _ => false | None => true end.

Definition first_lba (block : carray Z) (entry : Z) : Z := load64 block (entry + 32).
Definition last_lba (block : carray Z) (entry : Z) : Z := load64 block (entry + 40).
Definition name_char (block : carray Z) (entry i : Z) : Z := load16 block (entry + 56 + 2 * i).

Fixpoint name_equals_from (block : carray Z) (entry index : Z) (ascii_name : list Z) : bool :=
  match ascii_name with
  | [] => (index <? GPT_ENTRY_NAME_CHARS) && (name_char block entry index =? 0)
  | c :: rest =>
      if GPT_ENTRY_NAME_CHARS <=? index then false
      else if negb (name_char block entry index =? c) then false
      else name_equals_from block entry (index + 1) rest
  end.

Definition gpt_entry_name_equals (block : carray Z) (entry : Z) (ascii_name : list Z) : bool :=
  name_equals_from block entry 0 ascii_name.

Section rootfs.
Context {St : Type}.

(** The scan loop of [partition_register_rootfs], from entry [entry_index] on:
    [block] is the static [entry_block] and [current] the index of the block it
    holds.  [Some entry] is the place of the rootfs entry in the buffer returned
    with it; [None] is the early error return or the end of the scan. *)
Fixpoint scan_entries (n : nat) (disk : block_device St) (header : gpt_header)
    (entries_per_block entry_index current : Z) (block : carray Z) (s : St)
    : option Z * carray Z :=
  match n with
  | O => (None, block)
  | S n =>
      let entry_block_index := entry_index / entries_per_block in
      let entry_slot := entry_index mod entries_per_block in
      let '(r, current, block) :=
        if negb (entry_block_index =? current) then
          let '(r, b) := block_read (Some disk) (u32 (entry_lba header) ⊞ entry_block_index) 1
                           (Some block) s in
          (r, entry_block_index, default block b)
        else (0, current, block) in
      if truthy r then (None, block)
      else
        let entry := entry_slot ⊠ entry_size header in
        if guid_is_zero block entry
           || negb (gpt_entry_name_equals block entry (c_bytes "riverix-rootfs"))
        then scan_entries n disk header entries_per_block (entry_index + 1) current block s
        else (Some entry, block)
  end.

(** The device that [partition_register_rootfs] registers. *)
Definition rootfs_partition_device (disk : block_device St) (device_name : list Z)
    (context : partition_context St) : block_device St :=
  {| name := Some device_name; block_size := block_size disk;
     block_count := partition_blocks context; read_only := read_only disk;
     read := Some (partition_read (Some context));
     write := if read_only disk =? 0 then Some (partition_write (Some context)) else None;
     controller := controller disk |}.

(** The status, the registry, and the context and device when they were set up. *)
Definition partition_register_rootfs (disk : option (block_device St)) (device_name : option (list Z))
    (entry_block : carray Z) (b : block_state St) (s : St) : Z * block_state St :=
  match disk, device_name with
  | Some disk, Some device_name =>
      if negb (block_size disk =? 512) then (-1, b)
      else
        let '(r, blk) := block_read (Some disk) GPT_HEADER_BLOCK 1 (Some entry_block) s in
        let block := default entry_block blk in
        if truthy r then (-1, b)
        else
          let header := gpt_header_at block in
          if negb (u32 (signature header) =? GPT_SIGNATURE_LOW)
             || negb (u32 (Z.shiftr (signature header) 32) =? GPT_SIGNATURE_HIGH) then (-1, b)
          else if (entry_size header <? sizeof_gpt_entry) || (GPT_MAX_ENTRY_SIZE <? entry_size header)
                  || truthy (512 mod entry_size header) then (-1, b)
          else
            let entries_per_block := 512 / entry_size header in
            let count := if GPT_MAX_SCAN_ENTRIES <? entry_count header
                         then GPT_MAX_SCAN_ENTRIES else entry_count header in
            match scan_entries (Z.to_nat count) disk header entries_per_block 0 4294967295 block s with
            | (None, _) => (-1, b)
            | (Some entry, block) =>
                if (last_lba block entry <? first_lba block entry)
                   || (block_count disk <=? last_lba block entry) then (-1, b)
                else
                  let context :=
                    {| parent := Some disk; start_block := u32 (first_lba block entry);
                       partition_blocks :=
                         u32 (u64 (u64 (last_lba block entry - first_lba block entry) + 1)) |} in
                  let '(r, b) := block_register
                                   (Some (rootfs_partition_device disk device_name context)) b in
                  if truthy r then (-1, b) else (0, b)
            end
  | _, _ => (-1, b)
  end.

End rootfs.

(** ** Ramdisk *)

Definition SIMPLEFS_BLOCK_SIZE : Z := 512.

(** [ramdisk_context_t]: [base] is a physical address, read through the direct map. *)
Record ramdisk_context := { base : Z; byte_length : Z }.

(** A ramdisk only reads memory. *)
Definition ramdisk_read (context : option ramdisk_context) (size : Z)
    (block_index count : Z) (buffer : carray Z) (mem : carray Z) : Z * carray Z :=
  let offset := block_index ⊠ size in
  let length := count ⊠ size in
  match context with
  | None => (-1, buffer)
  | Some c =>
      if byte_length c <? offset ⊞ length then (-1, buffer)
      else (0, copy_bytes buffer 0 mem (base c + offset) length)
  end.

(** The C string at [a], of at most [fuel] bytes. *)
Fixpoint string_at (fuel : nat) (mem : carray Z) (a : Z) : option (list Z) :=
  match fuel with
  | O => None
  | S fuel => if mem a =? 0 then Some [] else (mem a ::.) <$> string_at fuel mem (a + 1)
  end.

Definition string_contains (text pattern : list Z) : bool :=
  match pattern with
  | [] => true
  | _ =>
      if (Datatypes.length text <? Datatypes.length pattern)%nat then false
      else match for_find 0 (Z.of_nat (Datatypes.length text) - Z.of_nat (Datatypes.length pattern) + 1) (λ start,
                   bool_decide (take (Datatypes.length pattern) (drop (Z.to_nat start) text) = pattern)) with
           | Some _ => true
           | None => false
           end
  end.

Definition mod_start (mem : carray Z) (modules index : Z) : Z := load32 mem (modules + 16 * index).
Definition mod_end (mem : carray Z) (modules index : Z) : Z := load32 mem (modules + 16 * index + 4).
Definition mod_cmdline (mem : carray Z) (modules index : Z) : Z :=
  load32 mem (modules + 16 * index + 8).

(** The module whose command line names the root file system; [None] when a
    command line does not end within [fuel] bytes. *)
Fixpoint find_rootfs_module (n : nat) (fuel : nat) (mem : carray Z) (modules index : Z)
    : option (option Z) :=
  match n with
  | O => Some None
  | S n =>
      let cmdline := mod_cmdline mem modules index in
      if cmdline =? 0 then find_rootfs_module n fuel mem modules (index + 1)
      else match string_at fuel mem cmdline with
           | None => None
           | Some text =>
               if string_contains text (c_bytes "rootfs") then Some (Some index)
               else find_rootfs_module n fuel mem modules (index + 1)
           end
  end.

(** [memory] is the memory in the state of the storage. *)
Definition rootfs_ramdisk {St} (memory : St → carray Z) (device_name : list Z) (context : ramdisk_context)
    : block_device St :=
  {| name := Some device_name; block_size := SIMPLEFS_BLOCK_SIZE;
     block_count := byte_length context / SIMPLEFS_BLOCK_SIZE; read_only := 1;
     read := Some (λ i n buffer s, ramdisk_read (Some context) SIMPLEFS_BLOCK_SIZE i n buffer (memory s));
     write := None; controller := None |}.

Definition ramdisk_register_rootfs {St} (memory : St → carray Z) (fuel : nat) (info : option multiboot_info)
    (device_name : option (list Z)) (storage : St) (b : block_state St) : option (Z * block_state St) :=
  let mem := memory storage in
  match info, device_name with
  | Some info, Some device_name =>
      if negb (truthy (Z.land (flags info) MULTIBOOT_INFO_MODS)) || (mods_count info =? 0)
      then Some (-1, b)
      else
        match find_rootfs_module (Z.to_nat (mods_count info)) fuel mem (mods_addr info) 0 with
        | None => None
        | Some found =>
            let module := default 0 found in
            let s := mod_start mem (mods_addr info) module in
            let e := mod_end mem (mods_addr info) module in
            if e <=? s then Some (-1, b)
            else
              let context := {| base := s; byte_length := e ⊟ s |} in
              if truthy (byte_length context mod SIMPLEFS_BLOCK_SIZE) then Some (-1, b)
              else Some (block_register (Some (rootfs_ramdisk memory device_name context)) b)
        end
  | _, _ => Some (-1, b)
  end.

(** ** The contract of a block device *)

(** [view] is the device's contents.  An operation may fail, but a
    successful read returns the contents, a successful write stores the buffer,
    and neither reaches outside the blocks it was given. *)
Class BlockDevice {St : Type} (d : block_device St) (view : St → carray Z) : Prop := {
  bd_size : block_size d = SIMPLEFS_BLOCK_SIZE;
  bd_count : 0 < block_count d < 4294967296;
  bd_read : ∃ op, read d = Some op ∧ ∀ i n buf s,
    0 ≤ i → 0 < n → i + n ≤ block_count d →
    ((op i n buf s).1 = 0 →
     ∀ k, (op i n buf s).2 k
          = copy_bytes buf 0 (view s) (i * SIMPLEFS_BLOCK_SIZE) (n * SIMPLEFS_BLOCK_SIZE) k) ∧
    ∀ k, k < 0 ∨ n * SIMPLEFS_BLOCK_SIZE ≤ k → (op i n buf s).2 k = buf k;
  bd_write : ∀ op, write d = Some op → ∀ i n buf s,
    0 ≤ i → 0 < n → i + n ≤ block_count d →
    ((op i n buf s).1 = 0 →
     ∀ k, view (op i n buf s).2 k
          = copy_bytes (view s) (i * SIMPLEFS_BLOCK_SIZE) buf 0 (n * SIMPLEFS_BLOCK_SIZE) k) ∧
    ∀ k, k < i * SIMPLEFS_BLOCK_SIZE ∨ (i + n) * SIMPLEFS_BLOCK_SIZE ≤ k →
      view (op i n buf s).2 k = view s k;
}.

Section contract.
Context {St : Type} (d : block_device St) (view : St → carray Z) {Hd : BlockDevice d view}.
Implicit Types (s : St) (buf : carray Z).

(** The two checks of [block_read] and [block_write] are the exact range test. *)
Lemma range_checked i n :
  0 ≤ i → 0 < n →
  ((block_count d <=? i) || (block_count d ⊟ i <? n)) = negb (bool_decide (i + n ≤ block_count d)).
Proof using Hd.
  intros Hi Hn. pose proof bd_count. destruct (Z.leb_spec (block_count d) i).
  - rewrite bool_decide_eq_false_2 by lia. done.
  - rewrite u32_small by lia. destruct (Z.ltb_spec (block_count d - i) n).
    + by rewrite bool_decide_eq_false_2 by lia.
    + by rewrite bool_decide_eq_true_2 by lia.
Qed.

Lemma block_read_cases i n buf s :
  0 ≤ i → 0 ≤ n →
  ∃ r buf', block_read (Some d) i n (Some buf) s = (r, Some buf') ∧
    (r = 0 → 0 < n ∧ i + n ≤ block_count d ∧ ∀ k, buf' k
       = copy_bytes buf 0 (view s) (i * SIMPLEFS_BLOCK_SIZE) (n * SIMPLEFS_BLOCK_SIZE) k) ∧
    ∀ k, k < 0 ∨ n * SIMPLEFS_BLOCK_SIZE ≤ k → buf' k = buf k.
Proof using Hd.
  intros Hi Hn. unfold block_read. case_if; [eexists _, _; split_and!; [done|lia|done]|].
  rewrite range_checked by lia. case_bool_decide as Hr; bsimpl.
  2:{ eexists _, _. split_and!; [done|lia|done]. }
  destruct bd_read as (op&->&Hop). destruct (Hop i n buf s) as [Hok Hkeep]; [lia..|].
  destruct (op i n buf s) as [r buf']. exists r, buf'. split_and!; [done| |done].
  intros ->. split_and!; [lia|lia|by apply Hok].
Qed.

Lemma block_write_cases i n buf s :
  0 ≤ i → 0 ≤ n →
  let '(r, s') := block_write (Some d) i n (Some buf) s in
  (r = 0 → 0 < n ∧ i + n ≤ block_count d ∧ read_only d = 0 ∧ ∀ k, view s' k
     = copy_bytes (view s) (i * SIMPLEFS_BLOCK_SIZE) buf 0 (n * SIMPLEFS_BLOCK_SIZE) k) ∧
  ∀ k, k < i * SIMPLEFS_BLOCK_SIZE ∨ (i + n) * SIMPLEFS_BLOCK_SIZE ≤ k ∨
       block_count d * SIMPLEFS_BLOCK_SIZE ≤ k → view s' k = view s k.
Proof using Hd.
  intros Hi Hn. unfold block_write. case_if; [split; [lia|done]|].
  rewrite range_checked by lia. case_bool_decide as Hr; bsimpl; [|split; [lia|done]].
  destruct (write d) as [op|] eqn:Hw; [|done].
  destruct (bd_write op Hw i n buf s) as [Hok Hkeep]; [lia..|].
  destruct (op i n buf s) as [r s']. split.
  - intros ->. split_and!; [lia..| |by apply Hok].
    destruct (Z.eqb_spec (read_only d) 0); [done|]. unfold truthy in *. zbool. lia.
  - intros k Hk. apply Hkeep. unfold SIMPLEFS_BLOCK_SIZE in *. lia.
Qed.

End contract.

(** A partition of a device keeps the contract, shifted by its start. *)
Definition partition_view {St} (view : St → carray Z) (start : Z) : St → carray Z :=
  λ s k, view s (start * SIMPLEFS_BLOCK_SIZE + k).

Section partition.
Context {St : Type} (disk : block_device St) (view : St → carray Z) {Hd : BlockDevice disk view}
  (nm : list Z) (start count : Z)
  (Hs : 0 ≤ start) (Hc : 0 < count) (Hend : start + count ≤ block_count disk).

Let context := {| parent := Some disk; start_block := start; partition_blocks := count |}.
Let part := rootfs_partition_device disk nm context.

Lemma partition_read_eq i n buf s :
  0 ≤ i → 0 < n → i + n ≤ count →
  (partition_read (Some context) i n buf s).1 = (block_read (Some disk) (start + i) n (Some buf) s).1 ∧
  (partition_read (Some context) i n buf s).2
  = default buf (block_read (Some disk) (start + i) n (Some buf) s).2.
Proof using Hd Hs Hend.
  intros. pose proof (bd_count (d := disk)). unfold partition_read. cbn [parent start_block partition_blocks context].
  rewrite u32_small, (u32_small (start + i)) by lia.
  rewrite (proj2 (Z.leb_gt _ _)), (proj2 (Z.ltb_ge _ _)) by lia. bsimpl.
  by destruct (block_read (Some disk) (start + i) n (Some buf) s).
Qed.

Lemma partition_write_eq i n buf s :
  0 ≤ i → 0 < n → i + n ≤ count →
  partition_write (Some context) i n buf s = block_write (Some disk) (start + i) n (Some buf) s.
Proof using Hd Hs Hend.
  intros. pose proof (bd_count (d := disk)). unfold partition_write. cbn [parent start_block partition_blocks context].
  rewrite u32_small, (u32_small (start + i)) by lia.
  by rewrite (proj2 (Z.leb_gt _ _)), (proj2 (Z.ltb_ge _ _)) by lia.
Qed.

#[export] Instance partition_device : BlockDevice part (partition_view view start).
Proof using Hd Hs Hc Hend.
  pose proof (bd_count (d := disk)). unfold SIMPLEFS_BLOCK_SIZE in *. split.
  - apply (bd_size (d := disk)).
  - simpl. lia.
  - eexists. split; [reflexivity|]. intros i n buf s Hi Hn Hin. change (block_count part) with count in Hin.
    destruct (partition_read_eq i n buf s Hi Hn Hin) as [-> ->].
    destruct (block_read_cases disk view (start + i) n buf s) as (r&b&->&Hok&Hk); [lia..|]. simpl.
    split; [|done]. intros ->. destruct Hok as (_&_&Hb); [done|]. intros k. rewrite Hb.
    unfold copy_bytes, partition_view, SIMPLEFS_BLOCK_SIZE. case_if; [f_equal; lia|done].
  - change (write part) with (if read_only disk =? 0 then Some (partition_write (Some context)) else None).
    case_if; [|done]. intros op [= <-] i n buf s Hi Hn Hin. change (block_count part) with count in Hin.
    rewrite partition_write_eq by done.
    pose proof (block_write_cases disk view (start + i) n buf s ltac:(lia) ltac:(lia)) as Hw.
    destruct (block_write (Some disk) (start + i) n (Some buf) s) as [r s']. destruct Hw as [Hw Hk]. simpl. split.
    + intros ->. destruct Hw as (_&_&_&Hv); [done|]. intros k. unfold partition_view. rewrite Hv.
      unfold copy_bytes, SIMPLEFS_BLOCK_SIZE. repeat case_if; done || lia || (f_equal; lia).
    + intros k Hk'. apply Hk. unfold SIMPLEFS_BLOCK_SIZE in *. lia.
Qed.

End partition.

(** The ramdisk keeps the contract; its contents are the module's bytes. *)
#[export] Instance ramdisk_device {St} (memory : St → carray Z) nm c :
  0 < byte_length c < 4294967296 → byte_length c mod SIMPLEFS_BLOCK_SIZE = 0 →
  BlockDevice (rootfs_ramdisk memory nm c) (λ s k, memory s (base c + k)).
Proof.
  intros Hl Hm. unfold SIMPLEFS_BLOCK_SIZE in *. split.
  - done.
  - simpl. unfold SIMPLEFS_BLOCK_SIZE. word_lia.
  - eexists. split; [reflexivity|]. intros i n buf mem Hi Hn Hin.
    change (block_count (rootfs_ramdisk memory nm c)) with (byte_length c / 512) in Hin.
    unfold ramdisk_read, SIMPLEFS_BLOCK_SIZE.
    assert ((i + n) * 512 ≤ byte_length c) as Hb by word_lia.
    rewrite (u32_small (i * 512)), (u32_small (n * 512)), u32_small by lia. rewrite (proj2 (Z.ltb_ge _ _)) by lia. simpl.
    unfold copy_bytes. split; intros; case_if; done || lia || (f_equal; lia).
  - done.
Qed.

(** ** The registry *)

Section registry_props.
Context {St : Type}.
Implicit Types (b : block_state St) (d : block_device St).

(** The table is filled from the front and no name occurs twice. *)
Record registry_ok b : Prop := {
  reg_dense : ∀ i j, 0 ≤ i < j → j < BLOCK_MAX_DEVICES → devices b i = None → devices b j = None;
  reg_names : ∀ i j d e, 0 ≤ i < BLOCK_MAX_DEVICES → 0 ≤ j < BLOCK_MAX_DEVICES →
    devices b i = Some d → devices b j = Some e → string_equals (name d) (name e) = true → i = j;
}.

Lemma string_equals_sym x y : string_equals x y = string_equals y x.
Proof. unfold string_equals. apply bool_decide_ext. naive_solver. Qed.

Lemma string_equals_trans x y z :
  string_equals x y = true → string_equals y z = string_equals x z.
Proof. unfold string_equals. intros H. apply bool_decide_eq_true in H as ->. done. Qed.

Lemma block_init_ok b : registry_ok (block_init b).
Proof.
  assert (∀ i, 0 ≤ i < BLOCK_MAX_DEVICES → devices (block_init b) i = None) as H.
  { intros i Hi. simpl. unfold arr_fill. case_if; [done|]. lia. }
  split; intros.
  - apply H. lia.
  - rewrite H in * by done. done.
Qed.

Definition valid_device d : bool :=
  negb (match name d with None => true | _ => false end
        || (block_size d =? 0) || (block_count d =? 0)
        || match read d with None => true | _ => false end)
  && negb ((read_only d =? 0) && match write d with None => true | _ => false end).

(** Some registered device has this name. *)
Definition name_taken b (nm : option (list Z)) : Prop :=
  ∃ i d, 0 ≤ i < BLOCK_MAX_DEVICES ∧ devices b i = Some d ∧ string_equals (name d) nm = true.

Lemma block_register_cases b d :
  registry_ok b →
  (block_register (Some d) b = (-1, b) ∧
   (valid_device d = false ∨ name_taken b (name d) ∨
    ∀ i, 0 ≤ i < BLOCK_MAX_DEVICES → devices b i ≠ None)) ∨
  (valid_device d = true ∧ ¬ name_taken b (name d) ∧
   ∃ i, 0 ≤ i < BLOCK_MAX_DEVICES ∧ devices b i = None ∧
     (∀ j, 0 ≤ j < i → devices b j ≠ None) ∧
     block_register (Some d) b
     = (0, {| devices := <[i := Some d]> (devices b); controllers := controllers b |})).
Proof.
  intros [Hdense Hnames]. unfold block_register, valid_device.
  destruct (_ || match read d with None => true | _ => false end); bsimpl; [by left; auto|].
  destruct ((read_only d =? 0) && _); bsimpl; [by left; auto|]. unfold slot_for.
  destruct (for_find _ _ _) as [i|] eqn:E.
  - apply for_find_Some in E as (Hi&Hp&Hbefore).
    destruct (devices b i) as [e|] eqn:Hdi.
    { left. split; [done|]. right; left. by exists i, e. }
    right. split_and!; [done| |].
    + intros (j&e&Hj&Hdj&Heq). destruct (decide (j < i)).
      * specialize (Hbefore j ltac:(lia)). rewrite Hdj in Hbefore. congruence.
      * destruct (decide (j = i)) as [->|]; [congruence|].
        rewrite (Hdense i j) in Hdj by (done || lia). done.
    + exists i. split_and!; [lia|lia|done| |done].
      intros j Hj Hnone. specialize (Hbefore j Hj). by rewrite Hnone in Hbefore.
  - left. split; [done|]. right; right. intros i Hi Hnone.
    rewrite for_find_None in E. specialize (E i Hi). by rewrite Hnone in E.
Qed.

Lemma block_find_None b nm : block_find nm b = None ↔ ¬ name_taken b nm.
Proof.
  unfold block_find, name_taken. destruct (for_find _ _ _) as [i|] eqn:E.
  - apply for_find_Some in E as (Hi&Hp&_). destruct (devices b i) as [d|] eqn:Hd; [|done].
    split; [done|]. intros Hn. exfalso. apply Hn. by exists i, d.
  - split; [|done]. intros _ (i&d&Hi&Hd&Hs). rewrite for_find_None in E. specialize (E i Hi).
    rewrite Hd in E. congruence.
Qed.

Lemma block_find_Some b nm i d :
  registry_ok b → 0 ≤ i < BLOCK_MAX_DEVICES → devices b i = Some d →
  string_equals (name d) nm = true → block_find nm b = Some d.
Proof.
  intros [_ Hnames] Hi Hd Hs. unfold block_find.
  erewrite for_find_is; [exact Hd|done|by rewrite Hd|].
  intros k Hk. destruct (devices b k) as [e|] eqn:Hk'; [|done].
  destruct (string_equals (name e) nm) eqn:Hs'; [|done].
  assert (k = i); [|lia]. apply (Hnames k i e d); [lia|done|done|done|].
  rewrite string_equals_sym in Hs'. rewrite (string_equals_trans nm (name e) (name d) Hs').
  by rewrite string_equals_sym.
Qed.

(** Filling the first free slot with a new name. *)
Lemma registered_ok b d i :
  registry_ok b → ¬ name_taken b (name d) → 0 ≤ i < BLOCK_MAX_DEVICES → devices b i = None →
  (∀ j, 0 ≤ j < i → devices b j ≠ None) →
  registry_ok {| devices := <[i := Some d]> (devices b); controllers := controllers b |}.
Proof.
  intros [Hdense Hnames] Hnt Hi Hnone Hbefore. split; simpl.
  - intros j k Hjk Hk. rewrite !arr_get_set.
    case_decide as E1; [done|]. intros Hj. case_decide as E2; [|by apply (Hdense j k)].
    subst k. exfalso. by apply (Hbefore j).
  - intros j k e f Hj Hk. rewrite !arr_get_set.
    case_decide as E1; case_decide as E2; [congruence|..].
    + intros [= <-] Hf Hs. exfalso. apply Hnt. exists k, f. by rewrite string_equals_sym.
    + intros He [= <-] Hs. exfalso. apply Hnt. by exists j, e.
    + by apply Hnames.
Qed.

Lemma registered_find b d b' :
  registry_ok b → block_register (Some d) b = (0, b') →
  registry_ok b' ∧ block_find (name d) b' = Some d.
Proof.
  intros Hok Hr.
  destruct (block_register_cases b d Hok) as [[E _]|(_&Hnt&i&Hi&Hnone&Hbefore&E)]; [congruence|].
  rewrite E in Hr. injection Hr as <-. pose proof (registered_ok b d i Hok Hnt Hi Hnone Hbefore) as Hok'.
  split; [done|]. apply (block_find_Some _ _ i); [done|done|apply arr_get_set_eq|].
  by apply bool_decide_eq_true.
Qed.

End registry_props.

Section gpt.
Context {St : Type} (disk : block_device St) (view : St → carray Z) {Hd : BlockDevice disk view}
  (s : St) (Hview : bytes_wf (view s)).

Lemma block_read_wf i n buf r buf' :
  0 ≤ i → 0 ≤ n → bytes_wf buf → block_read (Some disk) i n (Some buf) s = (r, buf') →
  r = 0 → bytes_wf (default buf buf').
Proof using Hd Hview.
  intros Hi Hn Hb Hr ->.
  destruct (block_read_cases disk view i n buf s Hi Hn) as (r'&b&Heq&Hok&_).
  rewrite Heq in Hr. injection Hr as -> <-. destruct (Hok eq_refl) as (_&_&Hk).
  intros k. simpl. rewrite Hk. by apply copy_bytes_wf.
Qed.

Lemma scan_entries_wf n header epb index current block entry block' :
  bytes_wf block → 0 ≤ index → 0 < epb →
  scan_entries n disk header epb index current block s = (Some entry, block') → bytes_wf block'.
Proof using Hd Hview.
  revert index current block. induction n as [|n IH]; intros index current block Hb Hi He; [done|].
  cbn [scan_entries].
  assert (∀ r c b, (if negb (index / epb =? current)
    then let '(r, b) := block_read (Some disk) (u32 (entry_lba header) ⊞ index / epb) 1 (Some block) s
         in (r, index / epb, default block b)
    else (0, current, block)) = (r, c, b) → r = 0 → bytes_wf b) as Hread.
  { intros r c b. case_if; [|by intros [= <- <- <-]].
    destruct (block_read (Some disk) _ 1 (Some block) s) as [r' b'] eqn:Hr. intros [= <- <- <-] ->.
    eapply block_read_wf in Hr; [done| |lia|done|done]. pose proof (u32_range (u32 (entry_lba header) + index / epb)).
    word_lia. }
  destruct (if negb (index / epb =? current) then _ else _) as [[r c] b] eqn:E.
  specialize (Hread r c b eq_refl). unfold truthy. destruct (Z.eqb_spec r 0); bsimpl; [|done].
  case_if; [|by intros [= _ <-]; apply Hread]. apply IH; [by apply Hread|lia|done].
Qed.

(** What a successful [partition_register_rootfs] has done. *)
Lemma partition_register_cases nm entry_block b b' :
  bytes_wf entry_block →
  partition_register_rootfs (Some disk) (Some nm) entry_block b s = (0, b') →
  ∃ start count, 0 ≤ start ∧ 0 < count ∧ start + count ≤ block_count disk ∧
    block_register (Some (rootfs_partition_device disk nm
      {| parent := Some disk; start_block := start; partition_blocks := count |})) b = (0, b').
Proof using Hd Hview.
  intros Hb. unfold partition_register_rootfs. case_if; [done|].
  destruct (block_read (Some disk) _ 1 (Some entry_block) s) as [r blk] eqn:Hr.
  cbv zeta. destruct (truthy r) eqn:Et; [done|].
  assert (bytes_wf (default entry_block blk)) as Hwf.
  { eapply block_read_wf; [| |exact Hb|exact Hr|]; [done|done|]. zbool. done. }
  set (block := default entry_block blk) in *. clearbody block.
  case_if; [done|]. case_if; [done|].
  destruct (scan_entries _ _ _ _ _ _ _ _) as [[entry|] block'] eqn:Hs; [|done].
  assert (bytes_wf block') as Hwf'.
  { eapply scan_entries_wf; [exact Hwf|done| |exact Hs].
    unfold sizeof_gpt_entry, GPT_MAX_ENTRY_SIZE in *.
    apply Z.div_str_pos. lia. }
  case_if; [done|]. destruct (block_register _ _) as [r' b1] eqn:Hreg.
  unfold truthy. destruct (Z.eqb_spec r' 0) as [->|]; bsimpl; [|done]. intros [= <-].
  pose proof (bd_count (d := disk)).
  pose proof (load64_range block' (entry + 32) Hwf') as H32.
  unfold first_lba, last_lba, is_u64 in *.
  exists (load64 block' (entry + 32)), (load64 block' (entry + 40) - load64 block' (entry + 32) + 1).
  split_and!; [lia..|]. rewrite <- Hreg. do 4 f_equal; [by rewrite u32_small by lia|].
  rewrite u64_small, u64_small, u32_small by (lia || (rewrite u64_small; lia)).
  rewrite ?u64_small by lia. done.
Qed.

End gpt.

(** ** Properties *)

(** Registering a device.  Starting from an empty table and over any
    registrations, a call either refuses and changes nothing (a malformed device, a
    name already in use, or a full table), or the device can from then on be found
    under its name and every other name finds what it found before. *)
Theorem block_register_find {St} (b : block_state St) (d : block_device St) :
  registry_ok b →
  let '(r, b') := block_register (Some d) b in
  registry_ok b' ∧
  ((r = -1 ∧ b' = b ∧
    (valid_device d = false ∨ block_find (name d) b ≠ None ∨
     ∀ i, 0 ≤ i < BLOCK_MAX_DEVICES → devices b i ≠ None)) ∨
   (r = 0 ∧ valid_device d = true ∧ block_find (name d) b = None ∧ block_find (name d) b' = Some d ∧
    ∀ nm, string_equals (name d) nm = false → block_find nm b' = block_find nm b)).
Proof.
  intros Hok. destruct (block_register_cases b d Hok) as [[-> Hwhy]|(Hv&Hnt&i&Hi&Hnone&Hbefore&->)].
  { split; [done|]. left. split_and!; [done..|].
    destruct Hwhy as [|[Ht|]]; [by left| |by do 2 right]. right; left.
    intros Hn%block_find_None. done. }
  pose proof (registered_ok b d i Hok Hnt Hi Hnone Hbefore) as Hok'.
  set (b' := {| devices := _; controllers := _ |}) in *.
  split; [done|]. right. split_and!; [done|done|by apply block_find_None| |].
  - apply (block_find_Some b' _ i); [done|done|apply arr_get_set_eq|].
    unfold string_equals. by apply bool_decide_eq_true.
  - intros nm Hne. destruct (block_find nm b) as [e|] eqn:Hf.
    + unfold block_find in Hf. destruct (for_find _ _ _) as [j|] eqn:Ef; [|done].
      apply for_find_Some in Ef as (Hj&Hp&_). rewrite Hf in Hp.
      apply (block_find_Some b' nm j); [done|done| |done].
      unfold b'. simpl. rewrite arr_get_set_ne; [done|]. intros ->. congruence.
    + apply block_find_None. apply block_find_None in Hf. intros (j&e&Hj&He&Hs).
      unfold b' in He. simpl in He. rewrite arr_get_set in He. case_decide as E.
      * injection He as <-. congruence.
      * apply Hf. by exists j, e.
Qed.

(** C40: A partition of a well-behaved disk is a well-behaved device whose block 0 is
    the partition's first block, and no write through it, in range or not,
    changes a byte of the disk outside the partition. *)
Theorem partition_contract {St} (disk : block_device St) view nm start count :
  BlockDevice disk view → 0 ≤ start → 0 < count → start + count ≤ block_count disk →
  let part := rootfs_partition_device disk nm
                {| parent := Some disk; start_block := start; partition_blocks := count |} in
  BlockDevice part (partition_view view start) ∧
  ∀ i n buf s k, 0 ≤ i → 0 ≤ n →
    k < start * SIMPLEFS_BLOCK_SIZE ∨ (start + count) * SIMPLEFS_BLOCK_SIZE ≤ k →
    view (block_write (Some part) i n (Some buf) s).2 k = view s k.
Proof.
  intros Hd Hs Hc Hend part. pose proof (partition_device disk view nm start count Hs Hc Hend) as Hp.
  split; [done|]. intros i n buf s k Hi Hn Hk.
  pose proof (block_write_cases part (partition_view view start) i n buf s Hi Hn) as Hw.
  destruct (block_write (Some part) i n (Some buf) s) as [r s']. destruct Hw as [_ Hw].
  specialize (Hw (k - start * SIMPLEFS_BLOCK_SIZE)). unfold partition_view in Hw.
  replace (start * SIMPLEFS_BLOCK_SIZE + (k - start * SIMPLEFS_BLOCK_SIZE)) with k in Hw by lia.
  apply Hw. change (block_count part) with count. unfold SIMPLEFS_BLOCK_SIZE in *. lia.
Qed.

(** When [partition_register_rootfs] succeeds, the name finds a device that is
    a partition of the disk lying wholly inside it, so that it keeps the block
    contract with the partition's bytes as its contents. *)
Theorem partition_register_rootfs_spec {St} (disk : block_device St) view nm entry_block b s b' :
  BlockDevice disk view → bytes_wf (view s) → registry_ok b → bytes_wf entry_block →
  partition_register_rootfs (Some disk) (Some nm) entry_block b s = (0, b') →
  ∃ start part, block_find (Some nm) b' = Some part ∧
    0 ≤ start ∧ start + block_count part ≤ block_count disk ∧
    BlockDevice part (partition_view view start).
Proof.
  intros Hd Hv Hok Hb Hr.
  destruct (partition_register_cases disk view s Hv nm entry_block b b' Hb Hr)
    as (start&count&Hs&Hc&Hend&Hreg).
  exists start. eexists. split_and!; [|done| |by apply partition_device]; [|done].
  exact (proj2 (registered_find b _ b' Hok Hreg)).
Qed.

(** When [ramdisk_register_rootfs] succeeds, the name finds a read-only device
    whose contents are exactly the bytes of one of the boot modules. *)
Theorem ramdisk_register_rootfs_spec {St} (memory : St → carray Z) fuel info nm storage b b' :
  let mem := memory storage in
  bytes_wf mem → registry_ok b →
  ramdisk_register_rootfs memory fuel (Some info) (Some nm) storage b = Some (0, b') →
  ∃ m dev, block_find (Some nm) b' = Some dev ∧ read_only dev = 1 ∧
    block_count dev * SIMPLEFS_BLOCK_SIZE
      = mod_end mem (mods_addr info) m - mod_start mem (mods_addr info) m ∧
    BlockDevice dev (λ s k, memory s (mod_start mem (mods_addr info) m + k)).
Proof.
  intros mem Hmem Hok. unfold ramdisk_register_rootfs. fold mem. case_if; [done|].
  destruct (find_rootfs_module _ _ _ _ _) as [found|]; [|done].
  set (m := default 0 found). cbv zeta. case_if; [done|].
  pose proof (load32_range mem (mods_addr info + 16 * m) Hmem) as Hs.
  pose proof (load32_range mem (mods_addr info + 16 * m + 4) Hmem) as He.
  unfold is_u32, mod_start, mod_end in *. cbn [byte_length].
  rewrite (u32_small (load32 _ _ - _)) by lia.
  unfold truthy. case_if; [done|]. intros Hr. apply (inj Some) in Hr.
  destruct (registered_find b _ b' Hok Hr) as [_ Hfind].
  exists m. eexists. split; [exact Hfind|]. split; [done|]. split.
  - simpl. unfold SIMPLEFS_BLOCK_SIZE in *. word_lia.
  - apply (ramdisk_device memory nm {| base := _; byte_length := _ |}); simpl; [lia|done].
Qed.

(** ** Witnesses: a disk of 64 blocks in an array *)

Definition mem_disk : block_device (carray Z) :=
  {| name := Some (c_bytes "hda"); block_size := 512; block_count := 64; read_only := 0;
     read := Some (λ i n buf s, (0, copy_bytes buf 0 s (i * 512) (n * 512)));
     write := Some (λ i n buf s, (0, copy_bytes s (i * 512) buf 0 (n * 512)));
     controller := None |}.

#[export] Instance mem_disk_device : BlockDevice mem_disk (λ s, s).
Proof.
  split; [done|simpl; lia|..].
  - eexists. split; [reflexivity|]. intros i n buf s ???. simpl. split; [done|].
    intros k Hk. apply copy_bytes_out. unfold SIMPLEFS_BLOCK_SIZE in *. lia.
  - intros op [= <-] i n buf s ???. simpl. split; [done|].
    intros k Hk. apply copy_bytes_out. unfold SIMPLEFS_BLOCK_SIZE in *. lia.
Qed.

Definition no_devices {St} : block_state St := {| devices := λ _, None; controllers := λ _, None |}.

Lemma no_devices_ok {St} : registry_ok (no_devices (St := St)).
Proof. split; done. Qed.

Lemma block_register_find_witness :
  block_find (Some (c_bytes "hda")) (block_register (Some mem_disk) no_devices).2 = Some mem_disk.
Proof.
  pose proof (block_register_find no_devices mem_disk no_devices_ok) as H.
  assert ((block_register (Some mem_disk) no_devices).1 = 0) as E by (vm_compute; reflexivity).
  destruct (block_register (Some mem_disk) no_devices) as [r b'].
  destruct H as [_ [(H&_)|(_&_&_&H&_)]]; [simpl in E; congruence|exact H].
Defined.

Lemma partition_contract_witness :
  (block_write (Some (rootfs_partition_device mem_disk (c_bytes "root")
     {| parent := Some mem_disk; start_block := 8; partition_blocks := 16 |}))
     3 1 (Some (λ _, 9)) (λ _, 0)).2 100 = 0.
Proof.
  destruct (partition_contract mem_disk (λ s, s) (c_bytes "root") 8 16 mem_disk_device) as [_ H].
  - lia.
  - lia.
  - simpl. lia.
  - apply H; [lia|lia|]. unfold SIMPLEFS_BLOCK_SIZE. lia.
Defined.

(** The UTF-16 spelling of an ASCII name. *)
Fixpoint write_name (m : carray Z) (a : Z) (l : list Z) : carray Z :=
  match l with
  | [] => m
  | c :: l => write_name (<[a := c]> m) (a + 2) l
  end.

(** A GPT whose first entry, in block 2, is the root partition, blocks 8 to 23. *)
Definition gpt_image : carray Z :=
  let m := store_le 8 (λ _, 0) 512 (GPT_SIGNATURE_LOW + 4294967296 * GPT_SIGNATURE_HIGH) in
  let m := store_le 8 m (512 + 72) 2 in
  let m := store32 m (512 + 80) 1 in
  let m := store32 m (512 + 84) 128 in
  let m := <[1024 := 1]> m in
  let m := store_le 8 m (1024 + 32) 8 in
  let m := store_le 8 m (1024 + 40) 23 in
  write_name m (1024 + 56) (c_bytes "riverix-rootfs").

Lemma write_name_wf m a l : bytes_wf m → Forall is_u8 l → bytes_wf (write_name m a l).
Proof.
  intros Hm Hl. revert m a Hm. induction Hl as [|c l Hc Hl IH]; intros m a Hm; simpl; [done|].
  apply IH. by apply insert_wf.
Qed.

Lemma gpt_image_wf : bytes_wf gpt_image.
Proof.
  unfold gpt_image. apply write_name_wf.
  - repeat (apply store_le_wf || apply insert_wf); done.
  - repeat constructor; unfold is_u8; simpl; lia.
Qed.

Lemma partition_register_rootfs_spec_witness :
  ∃ start part, block_find (Some (c_bytes "root"))
      (partition_register_rootfs (Some mem_disk) (Some (c_bytes "root")) (λ _, 0) no_devices gpt_image).2
    = Some part ∧ 0 ≤ start ∧ start + block_count part ≤ block_count mem_disk.
Proof.
  destruct (partition_register_rootfs_spec mem_disk (λ s, s) (c_bytes "root") (λ _, 0) no_devices
    gpt_image (partition_register_rootfs (Some mem_disk) (Some (c_bytes "root")) (λ _, 0) no_devices gpt_image).2
    mem_disk_device) as (start&part&H1&H2&H3&_).
  - apply gpt_image_wf.
  - apply no_devices_ok.
  - intros a. unfold is_u8. lia.
  - apply pair_fst. vm_compute. reflexivity.
  - exists start, part. split; [exact H1|]. split; assumption.
Defined.

(** One module of 1024 bytes at 8192, described at 4096, without a command line. *)
Definition module_mem : carray Z :=
  store32 (store32 (λ _, 0) 4096 8192) 4100 9216.

Definition module_info : multiboot_info :=
  {| mb_address := 0; flags := MULTIBOOT_INFO_MODS; mem_upper := 0; cmdline := 0;
     mods_count := 1; mods_addr := 4096; mmap_length := 0; mmap_addr := 0;
     framebuffer_addr := 0; framebuffer_pitch := 0; framebuffer_width := 0; framebuffer_height := 0;
     framebuffer_bpp := 0; framebuffer_type := 0; framebuffer_rgb := no_rgb |}.

Lemma ramdisk_register_rootfs_spec_witness :
  ∃ b' m dev, ramdisk_register_rootfs (λ s, s) 10 (Some module_info) (Some (c_bytes "root")) module_mem no_devices
      = Some (0, b') ∧
    block_find (Some (c_bytes "root")) b' = Some dev ∧
    BlockDevice dev (λ st k, st (mod_start module_mem (mods_addr module_info) m + k)).
Proof.
  assert (∃ b', ramdisk_register_rootfs (λ s, s) 10 (Some module_info) (Some (c_bytes "root")) module_mem no_devices
    = Some (0, b')) as [b' E] by (eexists; reflexivity).
  destruct (ramdisk_register_rootfs_spec (λ s, s) 10 module_info (c_bytes "root") module_mem no_devices b')
    as (m&dev&H1&_&_&H2).
  - unfold module_mem. repeat apply store_le_wf. intros a. unfold is_u8. lia.
  - apply no_devices_ok.
  - exact E.
  - exists b', m, dev. split; [exact E|]. split; [exact H1|exact H2].
Defined.
