(* ===== verification/Ata.v ===== *)
(** * The ATA disk driver ([src/kernel/ata.c])

    Programmed input and output over the ports of [Ports].  What a working drive promises is
    [AtaDrive]: its sectors are a byte array, a command starts the transfer of a range of
    them, and each sector is moved word by word once the drive is no longer busy.  With it
    reads and writes of the driver are those of a byte array, and start-up registers the drive. *)

From S2P Require Import Prelude Mem Palloc Ports Block.
From Stdlib Require Import String.

Local Open Scope Z_scope.
Local Open Scope c_scope.

Definition ATA_PRIMARY_IO : Z := 0x1F0.
Definition ATA_PRIMARY_CONTROL : Z := 0x3F6.
Definition ATA_REG_DATA : Z := 0.
Definition ATA_REG_SECTOR_COUNT : Z := 2.
Definition ATA_REG_LBA_LOW : Z := 3.
Definition ATA_REG_LBA_MID : Z := 4.
Definition ATA_REG_LBA_HIGH : Z := 5.
Definition ATA_REG_DRIVE_HEAD : Z := 6.
Definition ATA_REG_STATUS : Z := 7.
Definition ATA_REG_COMMAND : Z := 7.
Definition ATA_STATUS_ERR : Z := 1.
Definition ATA_STATUS_DRQ : Z := 8.
Definition ATA_STATUS_DF : Z := 32.
Definition ATA_STATUS_DRDY : Z := 64.
Definition ATA_STATUS_BSY : Z := 128.
Definition ATA_CMD_READ_SECTORS : Z := 0x20.
Definition ATA_CMD_WRITE_SECTORS : Z := 0x30.
Definition ATA_CMD_IDENTIFY : Z := 0xEC.
Definition ATA_DRIVE_MASTER : Z := 0xE0.
Definition ATA_IDENTIFY_WORDS : Z := 256.
Definition ATA_POLL_LIMIT : nat := Z.to_nat 1000000.

Record ata_device_context := { io_base : Z; control_base : Z }.

Section ata.
Context {P : Type} `{!PortIO P}.
Implicit Types (context : ata_device_context) (p : P).

Definition register context (reg : Z) : Z := u16 (io_base context + reg).

Definition ata_status context p : Z * P := inb (register context ATA_REG_STATUS) p.

Definition ata_delay_400ns context p : P :=
  let p := (inb (control_base context) p).2 in
  let p := (inb (control_base context) p).2 in
  let p := (inb (control_base context) p).2 in
  (inb (control_base context) p).2.

Fixpoint wait_not_busy (attempts : nat) context p : Z * P :=
  match attempts with
  | O => (-1, p)
  | S attempts =>
      let '(status, p) := ata_status context p in
      if (status =? 0) || (status =? 0xFF) then (-1, p)
      else if Z.land status ATA_STATUS_BSY =? 0 then (0, p)
      else wait_not_busy attempts context p
  end.
Definition ata_wait_not_busy context p : Z * P := wait_not_busy ATA_POLL_LIMIT context p.

Fixpoint wait_ready (attempts : nat) context p : Z * P :=
  match attempts with
  | O => (-1, p)
  | S attempts =>
      let '(status, p) := ata_status context p in
      if truthy (Z.land status ATA_STATUS_BSY) then wait_ready attempts context p
      else if truthy (Z.land status (Z.lor ATA_STATUS_ERR ATA_STATUS_DF)) then (-1, p)
      else if truthy (Z.land status ATA_STATUS_DRQ) then (0, p)
      else wait_ready attempts context (if Z.land status ATA_STATUS_DRDY =? 0 then io_wait p else p)
  end.
Definition ata_wait_ready context p : Z * P := wait_ready ATA_POLL_LIMIT context p.

Definition ata_identify context (words : carray Z) p : Z * carray Z * P :=
  let '(r, p) := ata_wait_not_busy context p in
  if truthy r then (-1, words, p)
  else
    let p := outb (register context ATA_REG_DRIVE_HEAD) ATA_DRIVE_MASTER p in
    let p := ata_delay_400ns context p in
    let p := outb (register context ATA_REG_SECTOR_COUNT) 0 p in
    let p := outb (register context ATA_REG_LBA_LOW) 0 p in
    let p := outb (register context ATA_REG_LBA_MID) 0 p in
    let p := outb (register context ATA_REG_LBA_HIGH) 0 p in
    let p := outb (register context ATA_REG_COMMAND) ATA_CMD_IDENTIFY p in
    let '(status, p) := ata_status context p in
    if (status =? 0) || (status =? 0xFF) then (-1, words, p)
    else
      let '(mid, p) := inb (register context ATA_REG_LBA_MID) p in
      if truthy mid then (-1, words, p)
      else
        let '(high, p) := inb (register context ATA_REG_LBA_HIGH) p in
        if truthy high then (-1, words, p)
        else
          let '(r, p) := ata_wait_ready context p in
          if truthy r then (-1, words, p)
          else
            let '(words, p) := for_range 0 ATA_IDENTIFY_WORDS (λ index '(words, p),
              let '(v, p) := inw (register context ATA_REG_DATA) p in (<[index := v]> words, p)) (words, p) in
            (0, words, ata_delay_400ns context p).

(** The words of one sector, at [base] of the buffer. *)
Definition move_sector context (command base : Z) (bytes : carray Z) p : carray Z * P :=
  if command =? ATA_CMD_READ_SECTORS then
    for_range 0 256 (λ word_index '(bytes, p),
      let '(v, p) := inw (register context ATA_REG_DATA) p in (store_le 2 bytes (base + word_index * 2) v, p)) (bytes, p)
  else
    (bytes, for_range 0 256 (λ word_index p, outw (register context ATA_REG_DATA) (load16 bytes (base + word_index * 2)) p) p).

Fixpoint move_sectors (count : nat) context (command base : Z) (bytes : carray Z) p : Z * carray Z * P :=
  match count with
  | O => (0, bytes, p)
  | S count =>
      let '(r, p) := ata_wait_ready context p in
      if truthy r then (-1, bytes, p)
      else
        let '(bytes, p) := move_sector context command base bytes p in
        move_sectors count context command (base + 512) bytes (ata_delay_400ns context p)
  end.

(** The command for [chunk_count] sectors from [lba] on. *)
Definition issue_command context (lba chunk_count command : Z) p : P :=
  let p := outb (register context ATA_REG_DRIVE_HEAD) (u8 (Z.lor ATA_DRIVE_MASTER (Z.land (Z.shiftr lba 24) 15))) p in
  let p := ata_delay_400ns context p in
  let p := outb (register context ATA_REG_SECTOR_COUNT) chunk_count p in
  let p := outb (register context ATA_REG_LBA_LOW) (u8 (Z.land lba 255)) p in
  let p := outb (register context ATA_REG_LBA_MID) (u8 (Z.land (Z.shiftr lba 8) 255)) p in
  let p := outb (register context ATA_REG_LBA_HIGH) (u8 (Z.land (Z.shiftr lba 16) 255)) p in
  outb (register context ATA_REG_COMMAND) command p.

(** The loop over chunks of at most 255 sectors; every turn moves one sector at least, so
    [fuel = block_count] is enough. *)
Fixpoint transfer_chunks (fuel : nat) context (lba remaining base : Z) (bytes : carray Z) (command : Z) p : Z * carray Z * P :=
  if remaining =? 0 then (0, bytes, p)
  else match fuel with
  | O => (-1, bytes, p)
  | S fuel =>
      let chunk_count := if 255 <? remaining then 255 else u8 remaining in
      let '(r, p) := ata_wait_not_busy context p in
      if truthy r then (-1, bytes, p)
      else
        let p := issue_command context lba chunk_count command p in
        let '(r, bytes, p) := move_sectors (Z.to_nat chunk_count) context command base bytes p in
        if truthy r then (-1, bytes, p)
        else transfer_chunks fuel context (lba ⊞ chunk_count) (remaining ⊟ chunk_count) (base + chunk_count * 512) bytes command p
  end.

Definition ata_transfer context (block_index block_count : Z) (buffer : carray Z) (command : Z) p : Z * carray Z * P :=
  transfer_chunks (Z.to_nat block_count) context block_index block_count 0 buffer command p.

Definition ata_read context (block_index block_count : Z) (buffer : carray Z) p : Z * carray Z * P :=
  ata_transfer context block_index block_count buffer ATA_CMD_READ_SECTORS p.
Definition ata_write context (block_index block_count : Z) (buffer : carray Z) p : Z * P :=
  let '(r, _, p) := ata_transfer context block_index block_count buffer ATA_CMD_WRITE_SECTORS p in (r, p).

(** The statics of the file with the ports; [ata0_blocks] is the size of [ata0_device]. *)
Record ata_sys := { ata_initialized : Z; ata0_blocks : Z; ata_ports : P }.

Implicit Types s : ata_sys.

Definition set_ata_ports p s : ata_sys :=
  {| ata_initialized := ata_initialized s; ata0_blocks := ata0_blocks s; ata_ports := p |}.

Definition primary : ata_device_context := {| io_base := ATA_PRIMARY_IO; control_base := ATA_PRIMARY_CONTROL |}.
Definition ata0_controller : block_controller :=
  {| controller_name := Some (c_bytes "ata-ctl0"); transport := BLOCK_TRANSPORT_ATA_PIO |}.

(** A block device hands the state of the storage on when it is written to, and not when it is read. *)
Definition ata0_device (sector_count : Z) : block_device ata_sys :=
  {| name := Some (c_bytes "ata0"); block_size := 512; block_count := sector_count; read_only := 0;
     read := Some (λ i n buffer s, (ata_read primary i n buffer (ata_ports s)).1);
     write := Some (λ i n buffer s, let '(r, p) := ata_write primary i n buffer (ata_ports s) in (r, set_ata_ports p s));
     controller := Some ata0_controller |}.

(** [stack] is the uninitialised array for the answer. *)
Definition ata_init (stack : carray Z) (b : block_state ata_sys) s : Z * block_state ata_sys * ata_sys :=
  if truthy (ata_initialized s) then (if truthy (ata0_blocks s) then 0 else -1, b, s)
  else
    let '(r, words, p) := ata_identify primary stack (ata_ports s) in
    let s := {| ata_initialized := 1; ata0_blocks := ata0_blocks s; ata_ports := p |} in
    if truthy r then (-1, b, s)
    else
      let sector_count := Z.lor (u32 (Z.shiftl (words 61) 16)) (words 60) in
      if sector_count =? 0 then (-1, b, s)
      else
        let '(r, b) := block_register_controller (Some ata0_controller) b in
        if truthy r then (-1, b, s)
        else
          let s := {| ata_initialized := 1; ata0_blocks := sector_count; ata_ports := p |} in
          let '(r, b) := block_register (Some (ata0_device sector_count)) b in
          if truthy r then (-1, b, s) else (0, b, s).
End ata.
Arguments ata_sys : clear implicits.

(** ** What a drive promises *)

(** Nothing, or the next word of a sector with [left] sectors to go. *)
Inductive ata_phase :=
| Idle
| DataIn (lba left word : Z)
| DataOut (lba left word : Z)
| Identity (word : Z).

Record taskfile := { tf_count : Z; tf_low : Z; tf_mid : Z; tf_high : Z; tf_head : Z }.

Definition lba_of (t : taskfile) : Z := tf_low t + 256 * tf_mid t + 65536 * tf_high t + 16777216 * (tf_head t mod 16).

Definition set_register (reg v : Z) (t : taskfile) : taskfile :=
  {| tf_count := if reg =? 2 then v else tf_count t; tf_low := if reg =? 3 then v else tf_low t;
     tf_mid := if reg =? 4 then v else tf_mid t; tf_high := if reg =? 5 then v else tf_high t;
     tf_head := if reg =? 6 then v else tf_head t |}.

(** Behind the last word of a sector comes the next sector. *)
Definition next_word (ph : Z → Z → Z → ata_phase) (lba left word : Z) : ata_phase :=
  if word <? 255 then ph lba left (word + 1) else if left =? 1 then Idle else ph (lba + 1) (left - 1) 0.

Section kept.
Context {P : Type} (disk : P → carray Z) (task : P → taskfile) (phase : P → ata_phase) (busy : P → nat).
Definition keeps (p p' : P) : Prop :=
  (∀ k, disk p' k = disk p k) ∧ task p' = task p ∧ phase p' = phase p ∧ (busy p' ≤ busy p)%nat.
End kept.

(** A drive that works.  [busy] counts for how many looks at its status it stays busy. *)
Class AtaDrive (P : Type) `{!PortIO P} := {
  disk : P → carray Z;
  drive_sectors : Z;
  identity : Z → Z;
  task : P → taskfile;
  phase : P → ata_phase;
  busy : P → nat;
  sectors_range : 0 < drive_sectors ≤ 268435456;
  identity_sectors : is_u16 (identity 60) ∧ is_u16 (identity 61) ∧ identity 60 + 65536 * identity 61 = drive_sectors;
  busy_limit p : (Z.of_nat (busy p) < 1000000);
  disk_bytes p : bytes_wf (disk p);
  status_law p :
    let '(v, p') := inb 0x1F7 p in
    keeps disk task phase busy p p' ∧ busy p' = pred (busy p) ∧ v ≠ 0 ∧ v ≠ 255 ∧
    (if decide (busy p = O) then Z.land v 128 = 0 ∧ Z.land v 33 = 0 ∧ (phase p ≠ Idle → Z.land v 8 ≠ 0) else Z.land v 128 ≠ 0);
  control_law p : keeps disk task phase busy p (inb 0x3F6 p).2;
  wait_law p : keeps disk task phase busy p (io_wait p);
  register_law reg v p :
    phase p = Idle → busy p = O → 2 ≤ reg ≤ 6 →
    let p' := outb (0x1F0 + reg) v p in
    (∀ k, disk p' k = disk p k) ∧ task p' = set_register reg v (task p) ∧ phase p' = Idle ∧ busy p' = O;
  command_law v p :
    phase p = Idle → busy p = O → Z.land (tf_head (task p)) 0xF0 = 0xE0 →
    let p' := outb 0x1F7 v p in
    (∀ k, disk p' k = disk p k) ∧
    (v = 0x20 → 0 < tf_count (task p) → lba_of (task p) + tf_count (task p) ≤ drive_sectors →
       phase p' = DataIn (lba_of (task p)) (tf_count (task p)) 0) ∧
    (v = 0x30 → 0 < tf_count (task p) → lba_of (task p) + tf_count (task p) ≤ drive_sectors →
       phase p' = DataOut (lba_of (task p)) (tf_count (task p)) 0) ∧
    (v = 0xEC → phase p' = Identity 0);
  signature_law reg p :
    phase p = Identity 0 → reg = 4 ∨ reg = 5 → (inb (0x1F0 + reg) p).1 = 0 ∧ keeps disk task phase busy p (inb (0x1F0 + reg) p).2;
  data_in_law p lba left word :
    phase p = DataIn lba left word → busy p = O →
    let '(v, p') := inw 0x1F0 p in
    v = load16 (disk p) (lba * 512 + word * 2) ∧ (∀ k, disk p' k = disk p k) ∧ phase p' = next_word DataIn lba left word
    ∧ (word < 255 → busy p' = O);
  data_out_law v p lba left word :
    phase p = DataOut lba left word → busy p = O →
    let p' := outw 0x1F0 v p in
    (∀ k, disk p' k = store_le 2 (disk p) (lba * 512 + word * 2) v k) ∧ phase p' = next_word DataOut lba left word
    ∧ (word < 255 → busy p' = O);
  identity_law p word :
    phase p = Identity word → busy p = O →
    let '(v, p') := inw 0x1F0 p in
    v = identity word ∧ (∀ k, disk p' k = disk p k)
    ∧ phase p' = (if word <? 255 then Identity (word + 1) else Idle) ∧ (word < 255 → busy p' = O);
}.

Section drive.
Context {P : Type} `{!PortIO P} `{!AtaDrive P}.
Implicit Types p : P.

Local Abbreviation kept := (keeps disk task phase busy).

Lemma drive_kept_trans p1 p2 p3 : kept p1 p2 → kept p2 p3 → kept p1 p3.
Proof.
  intros (D1&T1&F1&B1) (D2&T2&F2&B2). split_and!; [|by rewrite T2|by rewrite F2|lia]. intros k. by rewrite D2.
Qed.

Lemma kept_busy p p' : kept p p' → busy p = O → busy p' = O.
Proof. intros (_&_&_&?). lia. Qed.

Lemma delay_kept p : kept p (ata_delay_400ns primary p).
Proof.
  unfold ata_delay_400ns. change (control_base primary) with 0x3F6.
  eapply drive_kept_trans; [apply control_law|]. eapply drive_kept_trans; [apply control_law|].
  eapply drive_kept_trans; [apply control_law|]. apply control_law.
Qed.

Lemma wait_not_busy_ok attempts p :
  (busy p < attempts)%nat → ∃ p', wait_not_busy attempts primary p = (0, p') ∧ kept p p' ∧ busy p' = O.
Proof.
  revert p. induction attempts as [|attempts IH]; intros p Hb; [lia|]. cbn [wait_not_busy]. unfold ata_status.
  change (register primary ATA_REG_STATUS) with 0x1F7. pose proof (status_law p) as Hs. destruct (inb 0x1F7 p) as [v p1].
  destruct Hs as (Hk&Hp&H0&H255&Hv). rewrite (proj2 (Z.eqb_neq _ _) H0), (proj2 (Z.eqb_neq _ _) H255). cbn [orb]. unfold ATA_STATUS_BSY.
  case_decide as Hz.
  - destruct Hv as (->&_). eexists. split_and!; [done|done|]. lia.
  - rewrite (proj2 (Z.eqb_neq _ _) Hv). destruct (IH p1) as (p'&E&Hk'&Hb'); [lia|]. exists p'. split_and!; [done|by eapply drive_kept_trans|done].
Qed.

Lemma wait_ready_ok attempts p :
  phase p ≠ Idle → (busy p < attempts)%nat → ∃ p', wait_ready attempts primary p = (0, p') ∧ kept p p' ∧ busy p' = O.
Proof.
  revert p. induction attempts as [|attempts IH]; intros p Hph Hb; [lia|]. cbn [wait_ready]. unfold ata_status.
  change (register primary ATA_REG_STATUS) with 0x1F7. pose proof (status_law p) as Hs. destruct (inb 0x1F7 p) as [v p1].
  destruct Hs as (Hk&Hp&_&_&Hv). change (Z.lor ATA_STATUS_ERR ATA_STATUS_DF) with 33. unfold ATA_STATUS_BSY, ATA_STATUS_DRQ, truthy.
  case_decide as Hz.
  - destruct Hv as (->&->&Hd). cbn [Z.eqb negb]. rewrite (proj2 (Z.eqb_neq _ _) (Hd Hph)). eexists. split_and!; [done|done|lia].
  - rewrite (proj2 (Z.eqb_neq _ _) Hv). cbn [negb]. destruct (IH p1) as (p'&E&Hk'&Hb'); [by destruct Hk as (_&_&->&_)|lia|].
    exists p'. split_and!; [done|by eapply drive_kept_trans|done].
Qed.

Lemma poll_limit p : (busy p < ATA_POLL_LIMIT)%nat.
Proof. pose proof (busy_limit p). unfold ATA_POLL_LIMIT. lia. Qed.

(** ** Reading *)

Definition after_sector (ph : Z → Z → Z → ata_phase) (lba left : Z) : ata_phase :=
  if left =? 1 then Idle else ph (lba + 1) (left - 1) 0.

(** The words of a sector reach the buffer. *)
Lemma read_sector base bytes p lba left :
  phase p = DataIn lba left 0 → busy p = O →
  ∃ bytes' p', move_sector primary ATA_CMD_READ_SECTORS base bytes p = (bytes', p')
    ∧ (∀ k, bytes' k = copy_bytes bytes base (disk p) (lba * 512) 512 k)
    ∧ (∀ k, disk p' k = disk p k) ∧ phase p' = after_sector DataIn lba left.
Proof.
  intros Hph Hb. unfold move_sector. change (ATA_CMD_READ_SECTORS =? ATA_CMD_READ_SECTORS) with true. cbv iota.
  change (register primary ATA_REG_DATA) with 0x1F0.
  set (f := λ _ _, _).
  pose proof (for_range_ind (λ w (s : carray Z * P),
    (∀ k, s.1 k = copy_bytes bytes base (disk p) (lba * 512) (w * 2) k) ∧ (∀ k, disk s.2 k = disk p k)
    ∧ phase s.2 = (if w <? 256 then DataIn lba left w else after_sector DataIn lba left) ∧ (w < 256 → busy s.2 = O)) 0 256 f (bytes, p)) as Hi.
  destruct Hi as (Hby&Hd&Hp&_); [lia| | |].
  - split_and!; [|done|done|done]. intros k. unfold copy_bytes. case_if; [lia|done].
  - intros w [by1 p1] Hw (Hby&Hd&Hp1&Hb1). cbn [fst snd] in *. rewrite (proj2 (Z.ltb_lt w 256)) in Hp1 by lia. unfold f.
    pose proof (data_in_law p1 lba left w Hp1 (Hb1 ltac:(lia))) as Hl. destruct (inw 0x1F0 p1) as [v p2]. destruct Hl as (->&Hd2&Hp2&Hb2). cbn [fst snd].
    split_and!.
    + intros k. destruct (decide (base + w * 2 ≤ k < base + w * 2 + 2)) as [Hk|Hk].
      * rewrite copy_bytes_in by lia. assert (k = base + w * 2 ∨ k = base + w * 2 + 1) as Hk2 by lia.
        pose proof (disk_bytes p1 (lba * 512 + w * 2)) as Hx0. pose proof (disk_bytes p1 (lba * 512 + w * 2 + 1)) as Hx1.
        rewrite !Hd in Hx0, Hx1. cbn [store_le]. unfold load16. cbn [load_le]. rewrite !Hd.
        destruct Hk2 as [-> | ->]; [rewrite arr_get_set_ne by lia|]; rewrite arr_get_set_eq.
        -- replace (lba * 512 + (base + w * 2 - base)) with (lba * 512 + w * 2) by lia. word_lia.
        -- replace (lba * 512 + (base + w * 2 + 1 - base)) with (lba * 512 + w * 2 + 1) by lia. word_lia.
      * rewrite store_le_other by lia. rewrite Hby. unfold copy_bytes. repeat case_if; lia || done.
    + intros k. by rewrite Hd2.
    + rewrite Hp2. unfold next_word. destruct (Z.ltb_spec w 255).
      * by rewrite (proj2 (Z.ltb_lt (w + 1) 256)) by lia.
      * by rewrite (proj2 (Z.ltb_ge (w + 1) 256)) by lia.
    + intros ?. apply Hb2. lia.
  - destruct (for_range 0 256 f (bytes, p)) as [bytes' p']. eexists _, _. split; [reflexivity|]. done.
Qed.

(** Sector after sector. *)
Lemma read_sectors count base bytes p lba :
  phase p = (match count with O => Idle | _ => DataIn lba (Z.of_nat count) 0 end) →
  ∃ bytes' p', move_sectors count primary ATA_CMD_READ_SECTORS base bytes p = (0, bytes', p')
    ∧ (∀ k, bytes' k = copy_bytes bytes base (disk p) (lba * 512) (Z.of_nat count * 512) k)
    ∧ (∀ k, disk p' k = disk p k) ∧ phase p' = Idle.
Proof.
  revert base bytes p lba. induction count as [|count IH]; intros base bytes p lba Hph; cbn [move_sectors].
  { eexists _, _. split_and!; [done| |done|done]. intros k. unfold copy_bytes. case_if; [lia|done]. }
  destruct (wait_ready_ok ATA_POLL_LIMIT p) as (p1&E1&(D1&_&F1&_)&B1); [by rewrite Hph|apply poll_limit|].
  unfold ata_wait_ready. rewrite E1. change (truthy 0) with false. cbv iota.
  destruct (read_sector base bytes p1 lba (Z.of_nat (S count))) as (bytes1&p2&->&Hby&D2&F2); [by rewrite F1|done|].
  destruct (delay_kept p2) as (D3&_&F3&_).
  destruct (IH (base + 512) bytes1 (ata_delay_400ns primary p2) (lba + 1)) as (bytes'&p'&->&Hby'&D'&F').
  { rewrite F3, F2. unfold after_sector. destruct count; [done|]. rewrite (proj2 (Z.eqb_neq _ _)) by lia. f_equal. lia. }
  eexists _, _. split_and!; [done| | |done].
  - intros k. rewrite Hby'. destruct (decide (base + 512 ≤ k < base + 512 + Z.of_nat count * 512)).
    + rewrite !copy_bytes_in, D3, D2, D1 by lia. f_equal. lia.
    + rewrite copy_bytes_out, Hby by lia. destruct (decide (base ≤ k < base + 512)).
      * rewrite !copy_bytes_in by lia. apply D1.
      * by rewrite !copy_bytes_out by lia.
  - intros k. by rewrite D', D3, D2, D1.
Qed.

(** ** Writing *)

Lemma write_sector base bytes p lba left :
  phase p = DataOut lba left 0 → busy p = O → bytes_wf bytes →
  ∃ p', move_sector primary ATA_CMD_WRITE_SECTORS base bytes p = (bytes, p')
    ∧ (∀ k, disk p' k = copy_bytes (disk p) (lba * 512) bytes base 512 k) ∧ phase p' = after_sector DataOut lba left.
Proof.
  intros Hph Hb Hwf. unfold move_sector. change (ATA_CMD_WRITE_SECTORS =? ATA_CMD_READ_SECTORS) with false. cbv iota.
  change (register primary ATA_REG_DATA) with 0x1F0.
  set (f := λ _ _, outw _ _ _).
  pose proof (for_range_ind (λ w (p1 : P),
    (∀ k, disk p1 k = copy_bytes (disk p) (lba * 512) bytes base (w * 2) k)
    ∧ phase p1 = (if w <? 256 then DataOut lba left w else after_sector DataOut lba left) ∧ (w < 256 → busy p1 = O)) 0 256 f p) as Hi.
  destruct Hi as (Hd&Hp&_); [lia| | |].
  - split_and!; [|done|done]. intros k. unfold copy_bytes. case_if; [lia|done].
  - intros w p1 Hw (Hd&Hp1&Hb1). rewrite (proj2 (Z.ltb_lt w 256)) in Hp1 by lia. unfold f.
    destruct (data_out_law (load16 bytes (base + w * 2)) p1 lba left w Hp1 (Hb1 ltac:(lia))) as (Hd2&Hp2&Hb2). split_and!.
    + intros k. rewrite Hd2. destruct (decide (lba * 512 + w * 2 ≤ k < lba * 512 + w * 2 + 2)) as [Hk|Hk].
      * rewrite copy_bytes_in by lia. assert (k = lba * 512 + w * 2 ∨ k = lba * 512 + w * 2 + 1) as Hk2 by lia.
        pose proof (Hwf (base + w * 2)) as Hx0. pose proof (Hwf (base + w * 2 + 1)) as Hx1.
        cbn [store_le]. unfold load16. cbn [load_le].
        destruct Hk2 as [-> | ->]; [rewrite arr_get_set_ne by lia|]; rewrite arr_get_set_eq.
        -- replace (base + (lba * 512 + w * 2 - lba * 512)) with (base + w * 2) by lia. word_lia.
        -- replace (base + (lba * 512 + w * 2 + 1 - lba * 512)) with (base + w * 2 + 1) by lia. word_lia.
      * rewrite store_le_other by lia. rewrite Hd. unfold copy_bytes. repeat case_if; lia || done.
    + rewrite Hp2. unfold next_word. destruct (Z.ltb_spec w 255).
      * by rewrite (proj2 (Z.ltb_lt (w + 1) 256)) by lia.
      * by rewrite (proj2 (Z.ltb_ge (w + 1) 256)) by lia.
    + intros ?. apply Hb2. lia.
  - eexists. split; [reflexivity|]. done.
Qed.

Lemma write_sectors count base bytes p lba :
  bytes_wf bytes → phase p = (match count with O => Idle | _ => DataOut lba (Z.of_nat count) 0 end) →
  ∃ p', move_sectors count primary ATA_CMD_WRITE_SECTORS base bytes p = (0, bytes, p')
    ∧ (∀ k, disk p' k = copy_bytes (disk p) (lba * 512) bytes base (Z.of_nat count * 512) k) ∧ phase p' = Idle.
Proof.
  intros Hwf. revert base p lba. induction count as [|count IH]; intros base p lba Hph; cbn [move_sectors].
  { eexists. split_and!; [done| |done]. intros k. unfold copy_bytes. case_if; [lia|done]. }
  destruct (wait_ready_ok ATA_POLL_LIMIT p) as (p1&E1&(D1&_&F1&_)&B1); [by rewrite Hph|apply poll_limit|].
  unfold ata_wait_ready. rewrite E1. change (truthy 0) with false. cbv iota.
  destruct (write_sector base bytes p1 lba (Z.of_nat (S count))) as (p2&->&D2&F2); [by rewrite F1|done|done|].
  destruct (delay_kept p2) as (D3&_&F3&_).
  destruct (IH (base + 512) (ata_delay_400ns primary p2) (lba + 1)) as (p'&->&D'&F').
  { rewrite F3, F2. unfold after_sector. destruct count; [done|]. rewrite (proj2 (Z.eqb_neq _ _)) by lia. f_equal. lia. }
  eexists. split_and!; [done| |done].
  intros k. rewrite D'. destruct (decide ((lba + 1) * 512 ≤ k < (lba + 1) * 512 + Z.of_nat count * 512)).
  - rewrite !copy_bytes_in by lia. f_equal. lia.
  - rewrite copy_bytes_out, D3, D2 by lia. destruct (decide (lba * 512 ≤ k < lba * 512 + 512)).
    + by rewrite !copy_bytes_in by lia.
    + rewrite !copy_bytes_out by lia. apply D1.
Qed.

(** ** Commands *)

(** The drive register selects the drive and has the top bits of the address. *)
Lemma head_register lba :
  0 ≤ lba < 268435456 →
  let v := u8 (Z.lor ATA_DRIVE_MASTER (Z.land (Z.shiftr lba 24) 15)) in Z.land v 0xF0 = 0xE0 ∧ v mod 16 = lba / 16777216.
Proof.
  intros Hl. rewrite Z.shiftr_div_pow2 by done. change (2 ^ 24) with 16777216.
  assert (0 ≤ lba / 16777216 < 16) as Hh by word_lia. revert Hh. generalize (lba / 16777216) as h. intros h Hh.
  assert (h ∈ seqZ 0 16) as Hin by (apply elem_of_seqZ; lia). revert Hin. clear Hh. cbn -[Z.lor Z.land u8].
  repeat setoid_rewrite elem_of_cons. rewrite elem_of_nil. intros Hin. repeat destruct Hin as [->|Hin]; done.
Qed.

Lemma low_registers lba :
  0 ≤ lba < 268435456 →
  u8 (Z.land lba 255) + 256 * u8 (Z.land (Z.shiftr lba 8) 255) + 65536 * u8 (Z.land (Z.shiftr lba 16) 255)
  + 16777216 * (lba / 16777216) = lba.
Proof.
  intros Hl. change 255 with (Z.ones 8). rewrite !Z.land_ones, !Z.shiftr_div_pow2 by done.
  change (2 ^ 8) with 256. change (2 ^ 16) with 65536. unfold u8. rewrite !Z.mod_mod by done. word_lia.
Qed.

(** A command starts the transfer it asks for. *)
Lemma issue_command_ok lba count command p :
  phase p = Idle → busy p = O → 0 ≤ lba → 0 < count → lba + count ≤ drive_sectors →
  let p' := issue_command primary lba count command p in
  (∀ k, disk p' k = disk p k)
  ∧ (command = ATA_CMD_READ_SECTORS → phase p' = DataIn lba count 0)
  ∧ (command = ATA_CMD_WRITE_SECTORS → phase p' = DataOut lba count 0).
Proof.
  intros Hp Hb Hl Hc Hle. pose proof sectors_range as Hsr.
  destruct (head_register lba ltac:(lia)) as [Hh1 Hh2]. pose proof (low_registers lba ltac:(lia)) as Hlow.
  unfold issue_command. cbv zeta.
  change (register primary ATA_REG_DRIVE_HEAD) with (0x1F0 + 6). change (register primary ATA_REG_SECTOR_COUNT) with (0x1F0 + 2).
  change (register primary ATA_REG_LBA_LOW) with (0x1F0 + 3). change (register primary ATA_REG_LBA_MID) with (0x1F0 + 4).
  change (register primary ATA_REG_LBA_HIGH) with (0x1F0 + 5). change (register primary ATA_REG_COMMAND) with 0x1F7.
  set (head := u8 (Z.lor _ _)) in *. set (low := u8 (Z.land lba 255)) in *. set (mid := u8 (Z.land (Z.shiftr lba 8) 255)) in *.
  set (high := u8 (Z.land (Z.shiftr lba 16) 255)) in *.
  destruct (register_law 6 head p Hp Hb ltac:(lia)) as (D1&T1&F1&B1). set (p1 := outb (0x1F0 + 6) head p) in *.
  destruct (delay_kept p1) as (D2&T2&F2&B2). set (p2 := ata_delay_400ns primary p1) in *.
  assert (busy p2 = O) as B2' by lia. rewrite F1 in F2.
  destruct (register_law 2 count p2 F2 B2' ltac:(lia)) as (D3&T3&F3&B3). set (p3 := outb (0x1F0 + 2) count p2) in *.
  destruct (register_law 3 low p3 F3 B3 ltac:(lia)) as (D4&T4&F4&B4). set (p4 := outb (0x1F0 + 3) low p3) in *.
  destruct (register_law 4 mid p4 F4 B4 ltac:(lia)) as (D5&T5&F5&B5). set (p5 := outb (0x1F0 + 4) mid p4) in *.
  destruct (register_law 5 high p5 F5 B5 ltac:(lia)) as (D6&T6&F6&B6). set (p6 := outb (0x1F0 + 5) high p5) in *.
  assert (tf_head (task p6) = head ∧ tf_count (task p6) = count ∧ lba_of (task p6) = lba) as (E1&E2&E3).
  { rewrite T6, T5, T4, T3, T2, T1. split_and!; [done|done|]. unfold lba_of. cbn [set_register tf_low tf_mid tf_high tf_head Z.eqb Pos.eqb].
    rewrite Hh2. exact Hlow. }
  clearbody p1 p2 p3 p4 p5 p6. clear T1 T2 T3 T4 T5 T6.
  destruct (command_law command p6 F6 B6) as (D7&Hr&Hw&_); [by rewrite E1|]. rewrite E2, E3 in *. split_and!.
  - intros k. by rewrite D7, D6, D5, D4, D3, D2, D1.
  - intros ->. by apply Hr.
  - intros ->. by apply Hw.
Qed.

(** ** Transfers *)

Lemma read_chunks fuel lba remaining base bytes p :
  phase p = Idle → 0 ≤ lba → 0 ≤ remaining ≤ Z.of_nat fuel → lba + remaining ≤ drive_sectors →
  ∃ bytes' p', transfer_chunks fuel primary lba remaining base bytes ATA_CMD_READ_SECTORS p = (0, bytes', p')
    ∧ (∀ k, bytes' k = copy_bytes bytes base (disk p) (lba * 512) (remaining * 512) k) ∧ (∀ k, disk p' k = disk p k) ∧ phase p' = Idle.
Proof.
  revert lba remaining base bytes p. induction fuel as [|fuel IH]; intros lba remaining base bytes p Hp Hl Hr Hle; cbn [transfer_chunks];
    (destruct (Z.eqb_spec remaining 0) as [->|Hne];
      [eexists _, _; split_and!; [done| |done|done]; intros k; by rewrite copy_bytes_out by lia|]); [lia|].
  pose proof sectors_range as Hsr. set (chunk := if 255 <? remaining then 255 else u8 remaining).
  assert (0 < chunk ≤ remaining ∧ chunk ≤ 255) as [Hc Hc2] by (unfold chunk; case_if; [lia|rewrite u8_small; lia]).
  destruct (wait_not_busy_ok ATA_POLL_LIMIT p (poll_limit p)) as (p1&E1&(D1&_&F1&_)&B1). unfold ata_wait_not_busy. rewrite E1. change (truthy 0) with false. cbv iota.
  destruct (issue_command_ok lba chunk ATA_CMD_READ_SECTORS p1) as (D2&F2&_); [by rewrite F1|done|lia|lia|lia|].
  destruct (read_sectors (Z.to_nat chunk) base bytes (issue_command primary lba chunk ATA_CMD_READ_SECTORS p1) lba) as (bytes1&p3&->&Hb3&D3&F3).
  { rewrite F2 by done. destruct (Z.to_nat chunk) eqn:En; [lia|]. f_equal. lia. }
  change (truthy 0) with false. cbv iota. rewrite !u32_small by lia.
  destruct (IH (lba + chunk) (remaining - chunk) (base + chunk * 512) bytes1 p3 F3) as (bytes'&p'&->&Hb'&D'&F'); [lia..|].
  eexists _, _. split_and!; [done| | |done].
  - intros k. rewrite Hb'. destruct (decide (base + chunk * 512 ≤ k < base + chunk * 512 + (remaining - chunk) * 512)).
    + rewrite !copy_bytes_in, D3, D2, D1 by lia. f_equal. lia.
    + rewrite copy_bytes_out, Hb3 by lia. destruct (decide (base ≤ k < base + chunk * 512)).
      * rewrite !copy_bytes_in, D2, D1 by lia. done.
      * by rewrite !copy_bytes_out by lia.
  - intros k. by rewrite D', D3, D2, D1.
Qed.

Lemma write_chunks fuel lba remaining base bytes p :
  bytes_wf bytes → phase p = Idle → 0 ≤ lba → 0 ≤ remaining ≤ Z.of_nat fuel → lba + remaining ≤ drive_sectors →
  ∃ p', transfer_chunks fuel primary lba remaining base bytes ATA_CMD_WRITE_SECTORS p = (0, bytes, p')
    ∧ (∀ k, disk p' k = copy_bytes (disk p) (lba * 512) bytes base (remaining * 512) k) ∧ phase p' = Idle.
Proof.
  intros Hwf. revert lba remaining base p. induction fuel as [|fuel IH]; intros lba remaining base p Hp Hl Hr Hle; cbn [transfer_chunks];
    (destruct (Z.eqb_spec remaining 0) as [->|Hne];
      [eexists; split_and!; [done| |done]; intros k; by rewrite copy_bytes_out by lia|]); [lia|].
  pose proof sectors_range as Hsr. set (chunk := if 255 <? remaining then 255 else u8 remaining).
  assert (0 < chunk ≤ remaining ∧ chunk ≤ 255) as [Hc Hc2] by (unfold chunk; case_if; [lia|rewrite u8_small; lia]).
  destruct (wait_not_busy_ok ATA_POLL_LIMIT p (poll_limit p)) as (p1&E1&(D1&_&F1&_)&B1). unfold ata_wait_not_busy. rewrite E1. change (truthy 0) with false. cbv iota.
  destruct (issue_command_ok lba chunk ATA_CMD_WRITE_SECTORS p1) as (D2&_&F2); [by rewrite F1|done|lia|lia|lia|].
  destruct (write_sectors (Z.to_nat chunk) base bytes (issue_command primary lba chunk ATA_CMD_WRITE_SECTORS p1) lba Hwf) as (p3&->&D3&F3).
  { rewrite F2 by done. destruct (Z.to_nat chunk) eqn:En; [lia|]. f_equal. lia. }
  change (truthy 0) with false. cbv iota. rewrite !u32_small by lia.
  destruct (IH (lba + chunk) (remaining - chunk) (base + chunk * 512) p3 F3) as (p'&->&D'&F'); [lia..|].
  eexists. split_and!; [done| |done].
  intros k. rewrite D'. destruct (decide ((lba + chunk) * 512 ≤ k < (lba + chunk) * 512 + (remaining - chunk) * 512)).
  - rewrite !copy_bytes_in by lia. f_equal. lia.
  - rewrite copy_bytes_out, D3 by lia. destruct (decide (lba * 512 ≤ k < lba * 512 + chunk * 512)).
    + rewrite !copy_bytes_in by lia. done.
    + by rewrite !copy_bytes_out, D2, D1 by lia.
Qed.

(** ** Identification *)

Lemma identify_rest words p p7 :
  (∀ k, disk p7 k = disk p k) → phase p7 = Identity 0 →
  ∃ words' p',
    (let '(status, p) := ata_status primary p7 in
     if (status =? 0) || (status =? 0xFF) then (-1, words, p)
     else
      let '(mid, p) := inb (0x1F0 + 4) p in
      if truthy mid then (-1, words, p)
      else
        let '(high, p) := inb (0x1F0 + 5) p in
        if truthy high then (-1, words, p)
        else
          let '(r, p) := wait_ready ATA_POLL_LIMIT primary p in
          if truthy r then (-1, words, p)
          else
            let '(words, p) := for_range 0 ATA_IDENTIFY_WORDS (λ index '(words, p),
              let '(v, p) := inw (register primary ATA_REG_DATA) p in (<[index := v]> words, p)) (words, p) in
            (0, words, ata_delay_400ns primary p)) = (0, words', p')
    ∧ (∀ i, 0 ≤ i < 256 → words' i = identity i) ∧ (∀ k, disk p' k = disk p k) ∧ phase p' = Idle.
Proof.
  intros D7 F7. unfold ata_status. change (register primary ATA_REG_STATUS) with 0x1F7. pose proof (status_law p7) as Hst.
  destruct (inb 0x1F7 p7) as [v p8]. destruct Hst as ((D8&_&F8&_)&_&H0&H255&_). rewrite (proj2 (Z.eqb_neq _ _) H0), (proj2 (Z.eqb_neq _ _) H255).
  cbn [orb]. rewrite F7 in F8. destruct (signature_law 4 p8 F8 ltac:(by left)) as (E9&D9&_&F9&_). destruct (inb (0x1F0 + 4) p8) as [mid p9].
  cbn [fst snd] in *. subst mid. change (truthy 0) with false. cbv iota. rewrite F8 in F9.
  destruct (signature_law 5 p9 F9 ltac:(by right)) as (E10&D10&_&F10&_). destruct (inb (0x1F0 + 5) p9) as [high p10].
  cbn [fst snd] in *. subst high. change (truthy 0) with false. cbv iota. rewrite F9 in F10.
  destruct (wait_ready_ok ATA_POLL_LIMIT p10) as (p11&->&(D11&_&F11&_)&B11); [by rewrite F10|apply poll_limit|].
  change (truthy 0) with false. cbv iota. change (register primary ATA_REG_DATA) with 0x1F0. rewrite F10 in F11.
  set (f := λ _ _, _).
  pose proof (for_range_ind (λ w (s : carray Z * P),
    (∀ k, 0 ≤ k < w → s.1 k = identity k) ∧ (∀ k, disk s.2 k = disk p11 k)
    ∧ phase s.2 = (if w <? 256 then Identity w else Idle) ∧ (w < 256 → busy s.2 = O)) 0 ATA_IDENTIFY_WORDS f (words, p11)) as Hi.
  destruct Hi as (Hw&Hd&Hf&_); [done| | |].
  - split_and!; [lia|done|done|done].
  - intros w [ws p12] Hw (Hk&Hd&Hf&Hb). unfold ATA_IDENTIFY_WORDS in Hw. cbn [fst snd] in *. rewrite (proj2 (Z.ltb_lt w 256)) in Hf by lia. unfold f.
    pose proof (identity_law p12 w Hf (Hb ltac:(lia))) as Hl. destruct (inw 0x1F0 p12) as [x p13]. destruct Hl as (->&Hd2&Hf2&Hb2). cbn [fst snd]. split_and!.
    + intros k Hkk. rewrite arr_get_set. case_decide; [by subst|]. apply Hk. lia.
    + intros k. by rewrite Hd2.
    + rewrite Hf2. destruct (Z.ltb_spec w 255); [by rewrite (proj2 (Z.ltb_lt (w + 1) 256)) by lia|by rewrite (proj2 (Z.ltb_ge (w + 1) 256)) by lia].
    + intros ?. apply Hb2. lia.
  - destruct (for_range 0 ATA_IDENTIFY_WORDS f (words, p11)) as [ws p12]. cbn [fst snd] in *. destruct (delay_kept p12) as (D13&_&F13&_).
    eexists _, _. split_and!; [reflexivity|exact Hw| |by rewrite F13]. intros k. by rewrite D13, Hd, D11, D10, D9, D8.
Qed.

Lemma identify_ok words p :
  phase p = Idle →
  ∃ words' p', ata_identify primary words p = (0, words', p')
    ∧ (∀ i, 0 ≤ i < 256 → words' i = identity i) ∧ (∀ k, disk p' k = disk p k) ∧ phase p' = Idle.
Proof.
  intros Hp. unfold ata_identify.
  destruct (wait_not_busy_ok ATA_POLL_LIMIT p (poll_limit p)) as (p0&E0&(D0&_&F0&_)&B0). unfold ata_wait_not_busy. rewrite E0.
  change (truthy 0) with false. cbv iota. rewrite Hp in F0.
  change (register primary ATA_REG_DRIVE_HEAD) with (0x1F0 + 6). change (register primary ATA_REG_SECTOR_COUNT) with (0x1F0 + 2).
  change (register primary ATA_REG_LBA_LOW) with (0x1F0 + 3). change (register primary ATA_REG_LBA_MID) with (0x1F0 + 4).
  change (register primary ATA_REG_LBA_HIGH) with (0x1F0 + 5). change (register primary ATA_REG_COMMAND) with 0x1F7. cbv zeta.
  destruct (register_law 6 ATA_DRIVE_MASTER p0 F0 B0 ltac:(lia)) as (D1&T1&F1&B1). set (p1 := outb (0x1F0 + 6) _ p0) in *.
  destruct (delay_kept p1) as (D2&T2&F2&B2). set (p2 := ata_delay_400ns primary p1) in *. assert (busy p2 = O) as B2' by lia. rewrite F1 in F2.
  destruct (register_law 2 0 p2 F2 B2' ltac:(lia)) as (D3&T3&F3&B3). set (p3 := outb (0x1F0 + 2) 0 p2) in *.
  destruct (register_law 3 0 p3 F3 B3 ltac:(lia)) as (D4&T4&F4&B4). set (p4 := outb (0x1F0 + 3) 0 p3) in *.
  destruct (register_law 4 0 p4 F4 B4 ltac:(lia)) as (D5&T5&F5&B5). set (p5 := outb (0x1F0 + 4) 0 p4) in *.
  destruct (register_law 5 0 p5 F5 B5 ltac:(lia)) as (D6&T6&F6&B6). set (p6 := outb (0x1F0 + 5) 0 p5) in *.
  destruct (command_law ATA_CMD_IDENTIFY p6 F6 B6) as (D7&_&_&F7); [by rewrite T6, T5, T4, T3, T2, T1|].
  specialize (F7 eq_refl). set (p7 := outb 0x1F7 ATA_CMD_IDENTIFY p6) in *. clearbody p1 p2 p3 p4 p5 p6 p7. clear T1 T2 T3 T4 T5 T6.
  assert (∀ k, disk p7 k = disk p k) as D by (intros k; by rewrite D7, D6, D5, D4, D3, D2, D1, D0).
  exact (identify_rest words p p7 D F7).
Qed.

(** C20: The driver makes the drive a block device.  With a working drive at rest, reading returns the bytes
    of the sectors and leaves the disk alone, writing changes exactly the bytes of the
    sectors to those of the buffer, for any number of sectors and at any place, and both end
    with success and with the drive at rest. *)
Theorem ata_transfer_spec p i n buf :
  phase p = Idle → bytes_wf buf → 0 ≤ i → 0 ≤ n → i + n ≤ drive_sectors →
  (∃ buf' p', ata_read primary i n buf p = (0, buf', p') ∧ phase p' = Idle ∧ (∀ k, disk p' k = disk p k)
     ∧ ∀ k, buf' k = copy_bytes buf 0 (disk p) (i * 512) (n * 512) k) ∧
  (∃ p', ata_write primary i n buf p = (0, p') ∧ phase p' = Idle
     ∧ ∀ k, disk p' k = copy_bytes (disk p) (i * 512) buf 0 (n * 512) k).
Proof.
  intros Hp Hwf Hi Hn Hle. unfold ata_read, ata_write, ata_transfer. split.
  - destruct (read_chunks (Z.to_nat n) i n 0 buf p) as (buf'&p'&->&?&?&?); [done|lia..|]. by eexists _, _.
  - destruct (write_chunks (Z.to_nat n) i n 0 buf p) as (p'&->&?&?); [done|done|lia..|]. by eexists.
Qed.

(** Start-up finds the drive.  With a working drive, the first [ata_init] on a registry that has no such
    device and room for one returns 0 and registers [ata0] with the number of sectors that
    the drive reports; later calls change nothing and return 0. *)
Theorem ata_init_spec stack (b : block_state (ata_sys P)) (s : ata_sys P) i j :
  phase (ata_ports s) = Idle → ata_initialized s = 0 →
  slot_for (controllers b) BLOCK_MAX_CONTROLLERS controller_name (controller_name ata0_controller) = Some i → controllers b i = None →
  slot_for (devices b) BLOCK_MAX_DEVICES name (Some (c_bytes "ata0")) = Some j → devices b j = None →
  ∃ b' s', ata_init stack b s = (0, b', s') ∧ devices b' j = Some (ata0_device drive_sectors)
    ∧ phase (ata_ports s') = Idle ∧ (∀ k, disk (ata_ports s') k = disk (ata_ports s) k)
    ∧ ata_init stack b' s' = (0, b', s').
Proof.
  intros Hp Hini Hs Hc Hd Hd0. pose proof sectors_range as Hsr. destruct identity_sectors as (H60&H61&Hid).
  unfold ata_init at 1. rewrite Hini. change (truthy 0) with false. cbv iota.
  destruct (identify_ok stack (ata_ports s) Hp) as (words&p'&->&Hw&D&F). change (truthy 0) with false. cbv iota. rewrite !Hw by lia.
  assert (Z.lor (u32 (Z.shiftl (identity 61) 16)) (identity 60) = drive_sectors) as ->.
  { rewrite Z.shiftl_mul_pow2 by done. change (2 ^ 16) with 65536. rewrite u32_small by word_lia.
    rewrite <- (Z.shiftl_mul_pow2 _ 16) by done. rewrite <- Z.add_nocarry_lor; [rewrite Z.shiftl_mul_pow2 by done; lia|].
    apply Z.bits_inj'. intros n Hn. rewrite Z.land_spec, Z.bits_0, Z.shiftl_spec by done. destruct (decide (n < 16)).
    - rewrite Z.testbit_neg_r by lia. done.
    - rewrite (testbit_above 16 (identity 60)) by (done || lia). apply andb_false_r. }
  rewrite (proj2 (Z.eqb_neq drive_sectors 0)) by lia. unfold block_register_controller. cbn [ata0_controller controller_name] in *. rewrite Hs, Hc.
  change (truthy 0) with false. cbv iota. unfold block_register. cbn [ata0_device name block_size block_count read read_only write devices].
  change (512 =? 0) with false. rewrite (proj2 (Z.eqb_neq drive_sectors 0)) by lia. cbn [orb andb Z.eqb]. rewrite Hd, Hd0.
  eexists _, _. split_and!; [reflexivity|cbn [devices]; apply arr_get_set_eq|done|done|].
  unfold ata_init. cbn [ata_initialized ata0_blocks]. change (truthy 1) with true. cbv iota. unfold truthy.
  by rewrite (proj2 (Z.eqb_neq drive_sectors 0)) by lia.
Qed.
End drive.

(** ** Example *)

(** A drive of 100 sectors that is busy for one look after every command and sector. *)
Record toy_drive := { td_disk : carray Z; td_task : taskfile; td_phase : ata_phase; td_busy : bool }.

Definition toy_sectors : Z := 100.
Definition toy_identity (i : Z) : Z := if i =? 60 then toy_sectors else 0.

Definition toy_moved (d : toy_drive) (bytes : carray Z) (ph : ata_phase) (word : Z) : toy_drive :=
  {| td_disk := bytes; td_task := td_task d; td_phase := ph; td_busy := negb (word <? 255) |}.

Definition toy_command (v : Z) (t : taskfile) : ata_phase :=
  if v =? 0x20 then DataIn (lba_of t) (tf_count t) 0 else if v =? 0x30 then DataOut (lba_of t) (tf_count t) 0
  else if v =? 0xEC then Identity 0 else Idle.

Definition toy_inb (port : Z) (d : toy_drive) : Z * toy_drive :=
  if port =? 0x1F7 then
    (if td_busy d then 0x80 else match td_phase d with Idle => 0x50 | _ => 0x58 end,
     {| td_disk := td_disk d; td_task := td_task d; td_phase := td_phase d; td_busy := false |})
  else (0, d).

Definition toy_inw (port : Z) (d : toy_drive) : Z * toy_drive :=
  match td_phase d with
  | DataIn lba n word =>
      (load16 (λ k, u8 (td_disk d k)) (lba * 512 + word * 2), toy_moved d (td_disk d) (next_word DataIn lba n word) word)
  | Identity word => (toy_identity word, toy_moved d (td_disk d) (if word <? 255 then Identity (word + 1) else Idle) word)
  | _ => (0, d)
  end.

Definition toy_outb (port v : Z) (d : toy_drive) : toy_drive :=
  if port =? 0x1F7 then {| td_disk := td_disk d; td_task := td_task d; td_phase := toy_command v (td_task d); td_busy := true |}
  else {| td_disk := td_disk d; td_task := set_register (port - 0x1F0) v (td_task d); td_phase := td_phase d; td_busy := td_busy d |}.

Definition toy_outw (port v : Z) (d : toy_drive) : toy_drive :=
  match td_phase d with
  | DataOut lba n word =>
      toy_moved d (store_le 2 (td_disk d) (lba * 512 + word * 2) v) (next_word DataOut lba n word) word
  | _ => d
  end.

#[local] Instance toy_ports : PortIO toy_drive :=
  {| inb := toy_inb; inw := toy_inw; inl _ d := (0, d); outb := toy_outb; outw := toy_outw; outl _ _ d := d; io_wait d := d |}.

#[local] Program Instance toy_works : AtaDrive toy_drive :=
  {| disk d k := u8 (td_disk d k); drive_sectors := toy_sectors; identity := toy_identity; task := td_task; phase := td_phase;
     busy d := if td_busy d then 1%nat else 0%nat |}.
Next Obligation. by vm_compute. Qed.
Next Obligation. by vm_compute. Qed.
Next Obligation. intros d. cbn. destruct (td_busy d); done. Qed.
Next Obligation. intros d k. apply u8_range. Qed.
Next Obligation.
  intros d. cbn [inb toy_ports]. unfold toy_inb. change (0x1F7 =? 0x1F7) with true. cbv iota.
  destruct (td_busy d) eqn:Eb; cbn; [split_and!; rewrite ?Eb; try done; cbn; unfold keeps; cbn; rewrite ?Eb; split_and!; (done || lia)|].
  destruct (td_phase d) eqn:Ep; unfold keeps; cbn; rewrite ?Eb, ?Ep; split_and!; (done || lia).
Qed.
Next Obligation. intros d. unfold keeps. cbn. split_and!; (done || lia). Qed.
Next Obligation. intros d. unfold keeps. cbn. split_and!; (done || lia). Qed.
Next Obligation.
  intros reg v d Hp Hb Hr. cbn [outb toy_ports]. unfold toy_outb. rewrite (proj2 (Z.eqb_neq _ _)) by lia.
  replace (0x1F0 + reg - 0x1F0) with reg by lia. done.
Qed.
Next Obligation. intros v d _ _ _. cbn [outb toy_ports]. unfold toy_outb. cbn. split_and!; [done|by intros ->..]. Qed.
Next Obligation. intros reg d _ [-> | ->]; cbn [inb toy_ports]; unfold toy_inb, keeps; cbn; split_and!; (done || lia). Qed.
Next Obligation.
  intros d lba left word Hp _. cbn [inw toy_ports]. unfold toy_inw. rewrite Hp. cbn. split_and!; [done|done|done|].
  intros Hw. by rewrite (proj2 (Z.ltb_lt _ _) Hw).
Qed.
Next Obligation.
  intros v d lba left word Hp _. cbn [outw toy_ports]. unfold toy_outw. rewrite Hp. cbn [toy_moved td_disk td_phase td_busy]. split_and!; [|done|].
  - intros k. cbn [store_le]. rewrite !arr_get_set. unfold u8. repeat case_decide; rewrite ?Z.mod_mod by done; done.
  - intros Hw. by rewrite (proj2 (Z.ltb_lt _ _) Hw).
Qed.
Next Obligation.
  intros d word Hp _. cbn [inw toy_ports]. unfold toy_inw. rewrite Hp. cbn. split_and!; [done|done|done|].
  intros Hw. by rewrite (proj2 (Z.ltb_lt _ _) Hw).
Qed.

Definition toy_rest : toy_drive :=
  {| td_disk k := k mod 251; td_task := {| tf_count := 0; tf_low := 0; tf_mid := 0; tf_high := 0; tf_head := 0 |};
     td_phase := Idle; td_busy := true |}.

Lemma ata_transfer_spec_witness :
  ∃ buf' p', ata_read primary 3 2 (λ _, 7) toy_rest = (0, buf', p') ∧ buf' 5 = 1541 mod 251 ∧ buf' 1024 = 7.
Proof.
  destruct (ata_transfer_spec toy_rest 3 2 (λ _, 7)) as [(buf'&p'&E&_&_&Hb) _].
  - done.
  - intros k. by vm_compute.
  - lia.
  - lia.
  - by vm_compute.
  - exists buf', p'. split; [exact E|]. rewrite !Hb. split; vm_compute; reflexivity.
Defined.

Lemma ata_init_spec_witness :
  let b := {| devices := λ _, None; controllers := λ _, None |} in
  let s := {| ata_initialized := 0; ata0_blocks := 0; ata_ports := toy_rest |} in
  ∃ b' s', ata_init (λ _, 0) b s = (0, b', s') ∧ block_find (Some (c_bytes "ata0")) b' = Some (ata0_device 100).
Proof.
  intros b s. destruct (ata_init_spec (λ _, 0) b s 0 0) as (b'&s'&E&Ed&_).
  - done.
  - done.
  - vm_compute. reflexivity.
  - done.
  - vm_compute. reflexivity.
  - done.
  - exists b', s'. split; [exact E|]. change drive_sectors with 100 in Ed. clear E.
    unfold block_find. rewrite (for_find_is 0 BLOCK_MAX_DEVICES _ 0); [exact Ed|unfold BLOCK_MAX_DEVICES; lia| |lia].
    rewrite Ed. reflexivity.
Defined.
