(* ===== verification/Pci.v ===== *)
(** * PCI configuration space ([src/kernel/pci.c])

    Configuration registers are read and written through two ports.  [PciBus] says what the
    host bridge does with them.  The static [pci_initialized] only keeps a message from being
    written twice and is left out with it. *)

From S2P Require Import Prelude Ports.

Local Open Scope Z_scope.
Local Open Scope c_scope.

Definition PCI_CONFIG_ADDRESS : Z := 0xCF8.
Definition PCI_CONFIG_DATA : Z := 0xCFC.
Definition PCI_COMMAND_OFFSET : Z := 4.
Definition PCI_COMMAND_MEMORY : Z := 2.
Definition PCI_COMMAND_BUS_MASTER : Z := 4.
Definition PCI_VENDOR_DEVICE_OFFSET : Z := 0.
Definition PCI_CLASS_REVISION_OFFSET : Z := 8.

Record pci_address := { pci_bus : Z; slot : Z; function : Z }.

Definition pci_config_address (a : pci_address) (offset : Z) : Z :=
  Z.lor (Z.lor (Z.lor (Z.lor 0x80000000 (Z.shiftl (pci_bus a) 16)) (Z.shiftl (slot a) 11)) (Z.shiftl (function a) 8))
    (Z.land offset 0xFC).

Section pci.
Context {P : Type} `{!PortIO P}.
Implicit Types (p : P) (a : pci_address).

Definition pci_config_read32 a (offset : Z) p : Z * P :=
  inl PCI_CONFIG_DATA (outl PCI_CONFIG_ADDRESS (pci_config_address a offset) p).

Definition pci_config_read16 a (offset : Z) p : Z * P :=
  let '(value, p) := pci_config_read32 a offset p in
  (u16 (Z.land (Z.shiftr value (Z.land offset 2 * 8)) 0xFFFF), p).

Definition pci_config_read8 a (offset : Z) p : Z * P :=
  let '(value, p) := pci_config_read32 a offset p in
  (u8 (Z.land (Z.shiftr value (Z.land offset 3 * 8)) 0xFF), p).

Definition pci_config_write32 a (offset value : Z) p : P :=
  outl PCI_CONFIG_DATA value (outl PCI_CONFIG_ADDRESS (pci_config_address a offset) p).

(** The order of the three loops. *)
Definition pci_addresses : list pci_address :=
  b ← seqZ 0 256; s ← seqZ 0 32; f ← seqZ 0 8; [{| pci_bus := b; slot := s; function := f |}].

Definition class_matches (class_code subclass prog_if class_revision : Z) : bool :=
  (u8 (Z.shiftr class_revision 24) =? class_code) && (u8 (Z.shiftr class_revision 16) =? subclass)
  && (u8 (Z.shiftr class_revision 8) =? prog_if).

Fixpoint find_in (class_code subclass prog_if : Z) (l : list pci_address) p : option pci_address * P :=
  match l with
  | [] => (None, p)
  | a :: l =>
      let '(vendor_device, p) := pci_config_read32 a PCI_VENDOR_DEVICE_OFFSET p in
      if Z.land vendor_device 0xFFFF =? 0xFFFF then find_in class_code subclass prog_if l p
      else
        let '(class_revision, p) := pci_config_read32 a PCI_CLASS_REVISION_OFFSET p in
        if class_matches class_code subclass prog_if class_revision then (Some a, p)
        else find_in class_code subclass prog_if l p
  end.

(** [None] is the result -1. *)
Definition pci_find_class (class_code subclass prog_if : Z) p : option pci_address * P :=
  find_in class_code subclass prog_if pci_addresses p.

Definition pci_read_bar a (bar_index : Z) p : Z * P := pci_config_read32 a (u8 (0x10 + bar_index * 4)) p.

Definition pci_set_command_bits a (bits : Z) p : P :=
  let '(value, p) := pci_config_read32 a PCI_COMMAND_OFFSET p in
  pci_config_write32 a PCI_COMMAND_OFFSET (Z.lor value bits) p.

Definition pci_enable_bus_master a p : P := pci_set_command_bits a PCI_COMMAND_BUS_MASTER p.
Definition pci_enable_memory_space a p : P := pci_set_command_bits a PCI_COMMAND_MEMORY p.
End pci.

(** ** The host bridge *)

(** The address port selects a register and the data port reads it; a register that is read
    keeps its value. *)
Class PciBus (P : Type) `{!PortIO P} := {
  config : P → Z → Z;
  selected : P → Z;
  select_law v p : selected (outl 0xCF8 v p) = v ∧ config (outl 0xCF8 v p) = config p;
  read_law p : (inl 0xCFC p).1 = config p (selected p) ∧ config (inl 0xCFC p).2 = config p;
}.

Section bus.
Context {P : Type} `{!PortIO P} `{!PciBus P}.
Implicit Types (p : P) (a : pci_address).

Lemma config_read a offset p :
  ∃ p', pci_config_read32 a offset p = (config p (pci_config_address a offset), p') ∧ config p' = config p.
Proof.
  unfold pci_config_read32. destruct (select_law (pci_config_address a offset) p) as [Es Ec].
  destruct (read_law (outl PCI_CONFIG_ADDRESS (pci_config_address a offset) p)) as [Er Ek].
  change (outl 0xCF8) with (outl (P := P) PCI_CONFIG_ADDRESS) in *. change (inl 0xCFC) with (inl (P := P) PCI_CONFIG_DATA) in *.
  destruct (inl PCI_CONFIG_DATA _) as [v p']. cbn [fst snd] in *. rewrite Es, Ec in Er. rewrite Ec in Ek. exists p'. by rewrite Er.
Qed.

(** A function is there and has the class. *)
Definition has_class (p : P) (class_code subclass prog_if : Z) (a : pci_address) : bool :=
  negb (Z.land (config p (pci_config_address a PCI_VENDOR_DEVICE_OFFSET)) 0xFFFF =? 0xFFFF)
  && class_matches class_code subclass prog_if (config p (pci_config_address a PCI_CLASS_REVISION_OFFSET)).

Lemma find_in_spec class_code subclass prog_if l p :
  ∃ p', find_in class_code subclass prog_if l p = (List.find (has_class p class_code subclass prog_if) l, p') ∧ config p' = config p.
Proof.
  revert p. induction l as [|a l IH]; intros p; cbn [find_in List.find]; [by eexists|].
  destruct (config_read a PCI_VENDOR_DEVICE_OFFSET p) as (p1&->&E1).
  assert (∀ q, config q = config p → ∃ p', find_in class_code subclass prog_if l q = (List.find (has_class p class_code subclass prog_if) l, p') ∧ config p' = config p) as Hrest.
  { intros q Eq. destruct (IH q) as (p'&->&E'). exists p'. rewrite E', Eq. split; [|done]. f_equal. unfold has_class. by rewrite Eq. }
  unfold has_class at 1. destruct (Z.land _ 0xFFFF =? 0xFFFF); cbn [negb andb]; [by apply Hrest|].
  destruct (config_read a PCI_CLASS_REVISION_OFFSET p1) as (p2&->&E2). rewrite E1 in E2 |- *.
  destruct (class_matches _ _ _ _); [by eexists|by apply Hrest].
Qed.

(** The address of a function on a bus. *)
Definition valid_address a : Prop := 0 ≤ pci_bus a < 256 ∧ 0 ≤ slot a < 32 ∧ 0 ≤ function a < 8.

Lemma elem_of_pci_addresses a : a ∈ pci_addresses ↔ valid_address a.
Proof.
  unfold pci_addresses, valid_address. setoid_rewrite list_elem_of_bind. setoid_rewrite elem_of_seqZ. split.
  - intros (b&Ha&Hb). apply list_elem_of_bind in Ha as (s&Ha&Hs). apply elem_of_seqZ in Hs.
    apply list_elem_of_bind in Ha as (f&Ha&Hf). apply elem_of_seqZ in Hf. apply list_elem_of_singleton in Ha as ->. cbn. lia.
  - intros (Hb&Hs&Hf). exists (pci_bus a). split; [|lia]. apply list_elem_of_bind. exists (slot a). rewrite elem_of_seqZ. split; [|lia].
    apply list_elem_of_bind. exists (function a). rewrite elem_of_seqZ. split; [|lia]. apply list_elem_of_singleton. by destruct a.
Qed.

(** The search for a device is complete.  [pci_find_class] returns an address exactly when some function on
    some bus has the class; what it returns is a function that is there and has the class,
    and no register of the configuration space is changed. *)
Theorem pci_find_class_spec class_code subclass prog_if p :
  ∃ p', config p' = config p ∧
  match pci_find_class class_code subclass prog_if p with
  | (Some a, q) => q = p' ∧ valid_address a ∧ has_class p class_code subclass prog_if a = true
  | (None, q) => q = p' ∧ ∀ a, valid_address a → has_class p class_code subclass prog_if a = false
  end.
Proof.
  unfold pci_find_class. destruct (find_in_spec class_code subclass prog_if pci_addresses p) as (p'&->&E). exists p'. split; [done|].
  destruct (List.find _ _) as [a|] eqn:Ef.
  - apply List.find_some in Ef as [Hin Hc]. split_and!; [done| |done]. by apply elem_of_pci_addresses, list_elem_of_In.
  - split; [done|]. intros a Ha. apply (List.find_none _ _ Ef). by apply list_elem_of_In, elem_of_pci_addresses.
Qed.
End bus.

(** ** Example *)

(** Registers that can be read and written. *)
#[local] Instance toy_bus_ports : PortIO ((Z → Z) * Z) :=
  {| inb _ p := (0, p); inw _ p := (0, p); inl _ p := (p.1 p.2, p); outb _ _ p := p; outw _ _ p := p;
     outl port v p := if port =? 0xCF8 then (p.1, v) else (<[p.2 := v]> p.1, p.2); io_wait p := p |}.
#[local] Instance toy_bus : PciBus ((Z → Z) * Z).
Proof. refine {| config := fst; selected := snd |}; done. Defined.

(** A bus with one disk controller, at slot 31, function 2. *)
Definition one_controller : (Z → Z) * Z :=
  (λ r, if r =? 0x8000FA00 then 0x29228086 else if r =? 0x8000FA08 then 0x01060102 else 0xFFFFFFFF, 0).

Lemma pci_find_class_spec_witness :
  ∃ p', pci_find_class 1 6 1 one_controller = (Some {| pci_bus := 0; slot := 31; function := 2 |}, p') ∧ config p' = config one_controller.
Proof.
  destruct (pci_find_class_spec 1 6 1 one_controller) as (p'&Ec&Hf).
  assert ((pci_find_class 1 6 1 one_controller).1 = Some {| pci_bus := 0; slot := 31; function := 2 |}) as E by (vm_compute; reflexivity).
  destruct (pci_find_class 1 6 1 one_controller) as [[a|] q]; cbn [fst] in E; [|done]. destruct Hf as (->&_&_). exists p'. by rewrite E.
Defined.
