(* ===== verification/Kheap.v ===== *)
(** * The kernel heap ([src/kernel/kheap.c])

    The heap is a doubly linked list of blocks that tile the virtual range from
    [KERNEL_HEAP_BASE] to [heap_end].  A block is a 16-byte header in heap memory
    followed by its payload; the model keeps heap memory as bytes at their virtual
    addresses ([hmem]) and reads the header fields from them, so that headers
    written inside a former payload, and payloads reused for headers, are what they
    are in C.  Pages come from the allocator and the page tables ([machine]). *)

From S2P Require Import Prelude Mem Palloc Paging.

Local Open Scope Z_scope.
Local Open Scope c_scope.

Definition KHEAP_ALIGN : Z := 16.
Definition KHEAP_INITIAL_PAGES : Z := 4.
Definition sizeof_kheap_block : Z := 16.
Definition KHEAP_MIN_SPLIT : Z := sizeof_kheap_block + KHEAP_ALIGN.

Record kheap := {
  hmem : carray Z;
  heap_head : Z;
  heap_end : Z;
  committed_pages : Z;
  kheap_ready : Z;
  machine : vm;
}.

Definition with_hmem (m : carray Z) (h : kheap) : kheap :=
  {| hmem := m; heap_head := heap_head h; heap_end := heap_end h;
     committed_pages := committed_pages h; kheap_ready := kheap_ready h; machine := machine h |}.
Definition with_head (a : Z) (h : kheap) : kheap :=
  {| hmem := hmem h; heap_head := a; heap_end := heap_end h;
     committed_pages := committed_pages h; kheap_ready := kheap_ready h; machine := machine h |}.
Definition with_end (a : Z) (h : kheap) : kheap :=
  {| hmem := hmem h; heap_head := heap_head h; heap_end := a;
     committed_pages := committed_pages h; kheap_ready := kheap_ready h; machine := machine h |}.
Definition with_committed (n : Z) (h : kheap) : kheap :=
  {| hmem := hmem h; heap_head := heap_head h; heap_end := heap_end h;
     committed_pages := n; kheap_ready := kheap_ready h; machine := machine h |}.
Definition with_ready (n : Z) (h : kheap) : kheap :=
  {| hmem := hmem h; heap_head := heap_head h; heap_end := heap_end h;
     committed_pages := committed_pages h; kheap_ready := n; machine := machine h |}.
Definition with_machine (v : vm) (h : kheap) : kheap :=
  {| hmem := hmem h; heap_head := heap_head h; heap_end := heap_end h;
     committed_pages := committed_pages h; kheap_ready := kheap_ready h; machine := v |}.

(** The fields of the [kheap_block_t] at an address. *)
Definition blk_size (m : carray Z) (a : Z) : Z := load32 m a.
Definition blk_free (m : carray Z) (a : Z) : Z := load32 m (a + 4).
Definition blk_next (m : carray Z) (a : Z) : Z := load32 m (a + 8).
Definition blk_prev (m : carray Z) (a : Z) : Z := load32 m (a + 12).
Definition set_size (a v : Z) (m : carray Z) : carray Z := store32 m a v.
Definition set_free (a v : Z) (m : carray Z) : carray Z := store32 m (a + 4) v.
Definition set_next (a v : Z) (m : carray Z) : carray Z := store32 m (a + 8) v.
Definition set_prev (a v : Z) (m : carray Z) : carray Z := store32 m (a + 12) v.

Definition align_up_size (value alignment : Z) : Z :=
  Z.land (value ⊞ alignment ⊟ 1) (not32 (alignment - 1)).

(** [while (block->next != 0) block = block->next;] *)
Fixpoint last_from (fuel : nat) (m : carray Z) (block : Z) : Z :=
  match fuel with
  | O => block
  | S fuel => if truthy (blk_next m block) then last_from fuel m (blk_next m block) else block
  end.

(** Every block but the first has 16 bytes of header below it, so the heap's
    size in bytes bounds the length of the list. *)
Definition list_fuel (h : kheap) : nat := Z.to_nat (heap_end h - KERNEL_HEAP_BASE).

Definition kheap_last_block (h : kheap) : Z :=
  if heap_head h =? 0 then 0 else last_from (list_fuel h) (hmem h) (heap_head h).

Definition kheap_split_block (block size : Z) (m : carray Z) : carray Z :=
  if (block =? 0) || (blk_size m block <? size ⊞ KHEAP_MIN_SPLIT) then m
  else
    let tail := block ⊞ sizeof_kheap_block ⊞ size in
    let m := set_size tail (blk_size m block ⊟ size ⊟ sizeof_kheap_block) m in
    let m := set_free tail 1 m in
    let m := set_next tail (blk_next m block) m in
    let m := set_prev tail block m in
    let m := if truthy (blk_next m tail) then set_prev (blk_next m tail) tail m else m in
    let m := set_size block size m in
    set_next block tail m.

Definition kheap_coalesce_forward (block : Z) (m : carray Z) : carray Z :=
  if (block =? 0) || (blk_free m block =? 0) then m
  else
    let next := blk_next m block in
    if (next =? 0) || (blk_free m next =? 0) then m
    else
      let m := set_size block (blk_size m block ⊞ (sizeof_kheap_block ⊞ blk_size m next)) m in
      let m := set_next block (blk_next m next) m in
      if truthy (blk_next m block) then set_prev (blk_next m block) block m else m.

Definition kheap_coalesce (block : Z) (m : carray Z) : carray Z :=
  if block =? 0 then m
  else if truthy (blk_prev m block) && truthy (blk_free m (blk_prev m block)) then
    let block := blk_prev m block in
    kheap_coalesce_forward block (kheap_coalesce_forward block m)
  else kheap_coalesce_forward block m.

(** The rollback loop of [kheap_expand]. *)
Fixpoint unmap_expansion (mapped : nat) (h : kheap) : kheap :=
  match mapped with
  | O => h
  | S mapped =>
      let h := with_end (heap_end h ⊟ PAGE_SIZE) h in
      let dir := paging_current_directory_phys (machine h) in
      let mapped_page_phys := paging_resolve_physical_in dir (heap_end h) (machine h) in
      let h :=
        if truthy mapped_page_phys then
          let v := paging_unmap_page (heap_end h) (machine h) in
          with_machine (with_frames (palloc_free_page mapped_page_phys (frames v)) v) h
        else h in
      unmap_expansion mapped h
  end.

(** [while (mapped < pages)], with [n] pages to go: [false] for the failure return. *)
Fixpoint map_expansion (n : nat) (mapped : nat) (expansion_base : Z) (h : kheap) : bool * kheap :=
  match n with
  | O => (true, h)
  | S n =>
      let '(physical_page, v) := paging_alloc_page (machine h) in
      let '(r, v) := if physical_page =? 0 then (-1, v)
                     else paging_map_page (heap_end h) physical_page PAGE_WRITABLE v in
      let h := with_machine v h in
      if (physical_page =? 0) || truthy r
      then (false, with_end expansion_base (unmap_expansion mapped h))
      else
        let h := with_hmem (zero_bytes (hmem h) (heap_end h) PAGE_SIZE) h in
        let h := with_end (heap_end h ⊞ PAGE_SIZE) h in
        let h := with_committed (committed_pages h ⊞ 1) h in
        map_expansion n (S mapped) expansion_base h
  end.

Definition kheap_expand (minimum_payload : Z) (h : kheap) : Z * kheap :=
  let minimum_bytes := align_up_size (minimum_payload ⊞ sizeof_kheap_block) PAGE_SIZE in
  let pages := minimum_bytes / PAGE_SIZE in
  let expansion_base := heap_end h in
  let pages := if pages <? KHEAP_INITIAL_PAGES then KHEAP_INITIAL_PAGES else pages in
  if KERNEL_HEAP_LIMIT <? heap_end h ⊞ (pages ⊠ PAGE_SIZE) then (-1, h)
  else
    let '(ok, h) := map_expansion (Z.to_nat pages) 0 expansion_base h in
    if negb ok then (-1, h)
    else
      let block := expansion_base in
      let m := hmem h in
      let m := set_size block (pages ⊠ PAGE_SIZE ⊟ sizeof_kheap_block) m in
      let m := set_free block 1 m in
      let m := set_next block 0 m in
      let m := set_prev block 0 m in
      let h := with_hmem m h in
      let tail := kheap_last_block h in
      if tail =? 0 then (0, with_head block h)
      else
        let m := set_next tail block (hmem h) in
        let m := set_prev block tail m in
        (0, with_hmem (kheap_coalesce block m) h).

Definition kheap_init (h : kheap) : kheap :=
  let h := {| hmem := hmem h; heap_head := 0; heap_end := KERNEL_HEAP_BASE;
              committed_pages := 0; kheap_ready := 0; machine := machine h |} in
  let '(r, h) := kheap_expand PAGE_SIZE h in
  if truthy r then h else with_ready 1 h.

(** The first block of the list that is free and large enough. *)
Fixpoint find_fit (fuel : nat) (m : carray Z) (block aligned_size : Z) : option Z :=
  match fuel with
  | O => None
  | S fuel =>
      if block =? 0 then None
      else if (blk_free m block =? 0) || (blk_size m block <? aligned_size)
      then find_fit fuel m (blk_next m block) aligned_size
      else Some block
  end.

(** The outer loop of [kmalloc]; [None] when [turns] passes were not enough. *)
Fixpoint kmalloc_loop (turns : nat) (aligned_size : Z) (h : kheap) : option (Z * kheap) :=
  match turns with
  | O => None
  | S turns =>
      match find_fit (list_fuel h) (hmem h) (heap_head h) aligned_size with
      | Some block =>
          let m := kheap_split_block block aligned_size (hmem h) in
          Some (block ⊞ sizeof_kheap_block, with_hmem (set_free block 0 m) h)
      | None =>
          let '(r, h) := kheap_expand aligned_size h in
          if truthy r then Some (0, h) else kmalloc_loop turns aligned_size h
      end
  end.

(** Two passes: the block that an expansion adds is large enough. *)
Definition KMALLOC_TURNS : nat := 2.

Definition kmalloc (size : Z) (h : kheap) : option (Z * kheap) :=
  if (kheap_ready h =? 0) || (size =? 0) then Some (0, h)
  else kmalloc_loop KMALLOC_TURNS (align_up_size size KHEAP_ALIGN) h.

Definition kzalloc (size : Z) (h : kheap) : option (Z * kheap) :=
  match kmalloc size h with
  | None => None
  | Some (buffer, h) =>
      Some (buffer, if truthy buffer then with_hmem (zero_bytes (hmem h) buffer size) h else h)
  end.

Definition kfree (pointer : Z) (h : kheap) : kheap :=
  if pointer =? 0 then h
  else
    let block := pointer ⊟ sizeof_kheap_block in
    with_hmem (kheap_coalesce block (set_free block 1 (hmem h))) h.

Definition kheap_committed_pages (h : kheap) : Z := committed_pages h.

(** ** Block lists *)

(** A block: its payload size and whether it is free. *)
Abbreviation blk := (Z * bool)%type (only parsing).

Definition span (b : Z * bool) : Z := sizeof_kheap_block + b.1.

Fixpoint spans (bs : list (Z * bool)) : Z :=
  match bs with [] => 0 | b :: bs => span b + spans bs end.

Definition free_word (f : bool) : Z := if f then 1 else 0.

(** The header at [a] is that of a block of size [sz], with these links. *)
Record header (m : carray Z) (a sz : Z) (f : bool) (next prev : Z) : Prop := {
  hdr_size : blk_size m a = sz;
  hdr_free : blk_free m a = free_word f;
  hdr_next : blk_next m a = next;
  hdr_prev : blk_prev m a = prev;
}.

(** The blocks [bs] tile memory from [a] on; the first one's predecessor is
    [prev] and the last one's successor is [nxt]. *)
Fixpoint heap_seg (m : carray Z) (a prev nxt : Z) (bs : list (Z * bool)) : Prop :=
  match bs with
  | [] => True
  | (sz, f) :: rest =>
      header m a sz f (match rest with [] => nxt | _ => a + sizeof_kheap_block + sz end) prev ∧
      KHEAP_ALIGN ≤ sz ∧ sz mod KHEAP_ALIGN = 0 ∧
      heap_seg m (a + sizeof_kheap_block + sz) a nxt rest
  end.

(** The address of the last block, [prev] when there is none. *)
Fixpoint last_addr (a prev : Z) (bs : list (Z * bool)) : Z :=
  match bs with
  | [] => prev
  | (sz, _) :: rest => last_addr (a + sizeof_kheap_block + sz) a rest
  end.

(** The payloads in use: address and size. *)
Fixpoint payloads (a : Z) (bs : list (Z * bool)) : list (Z * Z) :=
  match bs with
  | [] => []
  | (sz, f) :: rest =>
      (if f then [] else [(a + sizeof_kheap_block, sz)])
      ++ payloads (a + sizeof_kheap_block + sz) rest
  end.

(** No two neighbours are both free. *)
Fixpoint coalesced (bs : list (Z * bool)) : Prop :=
  match bs with
  | (_, f) :: (((_, g) :: _) as rest) => f && g = false ∧ coalesced rest
  | _ => True
  end.

Section segments.
Implicit Types (m : carray Z) (bs xs ys : list (Z * bool)) (a prev nxt : Z).

Lemma spans_app xs ys : spans (xs ++ ys) = spans xs + spans ys.
Proof. induction xs; simpl; lia. Qed.

Lemma heap_seg_spans m a prev nxt bs : heap_seg m a prev nxt bs → 0 ≤ spans bs ∧ 32 * Z.of_nat (length bs) ≤ spans bs.
Proof.
  revert a prev. induction bs as [|[sz f] bs IH]; intros a prev; simpl; [lia|].
  intros (_&?&_&H). apply IH in H. unfold span, sizeof_kheap_block, KHEAP_ALIGN in *. simpl. lia.
Qed.

Lemma spans_aligned m a prev nxt bs : heap_seg m a prev nxt bs → spans bs mod 16 = 0.
Proof.
  revert a prev. induction bs as [|[sz f] bs IH]; intros a prev; simpl; [done|].
  intros (_&_&?&H). apply IH in H. unfold span, sizeof_kheap_block, KHEAP_ALIGN in *. simpl. word_lia.
Qed.

Lemma heap_seg_app m a prev nxt xs ys :
  heap_seg m a prev nxt (xs ++ ys) ↔
  heap_seg m a prev (match ys with [] => nxt | _ => a + spans xs end) xs ∧
  heap_seg m (a + spans xs) (last_addr a prev xs) nxt ys.
Proof.
  revert a prev. induction xs as [|[sz f] xs IH]; intros a prev; simpl.
  - rewrite Z.add_0_r. naive_solver.
  - rewrite IH. unfold span. simpl.
    replace (a + sizeof_kheap_block + sz + spans xs) with (a + (sizeof_kheap_block + sz + spans xs)) by lia.
    assert (match xs ++ ys with [] => nxt | _ => a + sizeof_kheap_block + sz end
      = match xs with [] => match ys with [] => nxt | _ => a + (sizeof_kheap_block + sz + spans xs) end
        | _ => a + sizeof_kheap_block + sz end) as ->.
    { destruct xs; simpl; [|done]. destruct ys; [done|]. lia. }
    naive_solver.
Qed.

(** A header is sixteen bytes. *)
Lemma header_ext m m' a sz f n p :
  (∀ x, a ≤ x < a + 16 → m' x = m x) → header m a sz f n p → header m' a sz f n p.
Proof.
  intros H [H1 H2 H3 H4]. unfold blk_size, blk_free, blk_next, blk_prev in *.
  split; [rewrite <- H1|rewrite <- H2|rewrite <- H3|rewrite <- H4];
    apply load32_ext; intros; apply H; lia.
Qed.

Lemma heap_seg_ext m m' a prev nxt bs :
  (∀ x, a ≤ x < a + spans bs → m' x = m x) → heap_seg m a prev nxt bs → heap_seg m' a prev nxt bs.
Proof.
  revert a prev. induction bs as [|[sz f] bs IH]; intros a prev H; simpl; [done|].
  intros (Hh&?&?&Hs). pose proof (heap_seg_spans _ _ _ _ _ Hs).
  simpl in H. unfold span, sizeof_kheap_block, KHEAP_ALIGN in *. simpl in H. split_and!; try done.
  - eapply header_ext; [|done].
    intros x Hx. apply H. lia.
  - apply IH; [|done]. intros; apply H; lia.
Qed.

(** Changing the successor of the last block. *)
Lemma heap_seg_next m a prev nxt nxt' bs b :
  heap_seg m a prev nxt (bs ++ [b]) → bytes_wf m → is_u32 nxt' →
  heap_seg (set_next (a + spans bs) nxt' m) a prev nxt' (bs ++ [b]).
Proof.
  destruct b as [sz f]. rewrite !heap_seg_app. simpl. intros (H1&[Hs Hf Hn Hp]&?&?&_) Hwf Hu.
  split_and!; try done.
  - eapply heap_seg_ext; [|done]. intros x Hx. apply store32_other. lia.
  - unfold blk_size, blk_free, blk_next, blk_prev, set_next in *.
    split; unfold blk_size, blk_free, blk_next, blk_prev;
      [rewrite load32_store32_disj by lia; done..| |rewrite load32_store32_disj by lia; done].
    by apply load32_store32_same.
Qed.

(** Changing the predecessor of the first block. *)
Lemma heap_seg_prev m a prev prev' nxt b bs :
  heap_seg m a prev nxt (b :: bs) → is_u32 prev' →
  heap_seg (set_prev a prev' m) a prev' nxt (b :: bs).
Proof.
  destruct b as [sz f]. simpl. intros ([Hs Hf Hn Hp]&?&?&Hseg) Hu.
  unfold KHEAP_ALIGN, sizeof_kheap_block in *. split_and!; try done.
  - unfold blk_size, blk_free, blk_next, blk_prev, set_prev in *.
    split; unfold blk_size, blk_free, blk_next, blk_prev;
      [rewrite load32_store32_disj by lia; done..|]. by apply load32_store32_same.
  - eapply heap_seg_ext; [|done]. intros x Hx. apply store32_other. lia.
Qed.

Lemma last_addr_app a prev xs sz f : last_addr a prev (xs ++ [(sz, f)]) = a + spans xs.
Proof.
  revert a prev. induction xs as [|[s g] xs IH]; intros a prev; simpl; [lia|].
  rewrite IH. unfold span. simpl. lia.
Qed.

Lemma payloads_app a xs ys : payloads a (xs ++ ys) = payloads a xs ++ payloads (a + spans xs) ys.
Proof.
  revert a. induction xs as [|[s g] xs IH]; intros a; simpl; [by rewrite Z.add_0_r|].
  rewrite IH, app_assoc. do 2 f_equal. unfold span. simpl. lia.
Qed.

Lemma coalesced_app xs b ys :
  coalesced (xs ++ b :: ys) ↔ coalesced (xs ++ [b]) ∧ coalesced (b :: ys).
Proof.
  induction xs as [|[s g] xs IH]; simpl.
  - destruct b. naive_solver.
  - destruct xs as [|[s' g'] xs]; simpl in *.
    + destruct b as [s' g']. destruct ys as [|[??] ?]; naive_solver.
    + naive_solver.
Qed.

End segments.

(** Whether [x] is a byte of one of the headers. *)
Fixpoint in_header (a : Z) (bs : list (Z * bool)) (x : Z) : bool :=
  match bs with
  | [] => false
  | (sz, _) :: rest =>
      ((a <=? x) && (x <? a + sizeof_kheap_block)) || in_header (a + sizeof_kheap_block + sz) rest x
  end.

Ltac heap_unfold :=
  cbn [spans] in *; unfold span, KHEAP_MIN_SPLIT in *; unfold sizeof_kheap_block, KHEAP_ALIGN in *;
  cbn [fst snd] in *.

(** Reads of one header field after writes to others, at addresses [lia] can compare. *)
Ltac hdr_unfold :=
  unfold blk_size, blk_free, blk_next, blk_prev, set_size, set_free, set_next, set_prev in *.
Ltac hdr :=
  hdr_unfold;
  repeat first [ rewrite load32_store32_same by (unfold is_u32; lia)
               | rewrite load32_store32_disj by lia ].

Section operations.
Implicit Types (m : carray Z) (bs xs ys pre post : list (Z * bool)) (a prev nxt : Z).

Lemma in_header_app a xs ys x :
  in_header a (xs ++ ys) x = in_header a xs x || in_header (a + spans xs) ys x.
Proof.
  revert a. induction xs as [|[s g] xs IH]; intros a; simpl; [by rewrite Z.add_0_r|].
  rewrite IH, orb_assoc. do 2 f_equal. unfold span. simpl. lia.
Qed.

Lemma in_header_range m a prev nxt bs x :
  heap_seg m a prev nxt bs → in_header a bs x = true → a ≤ x < a + spans bs.
Proof.
  revert a prev. induction bs as [|[sz f] bs IH]; intros a prev; simpl; [done|].
  intros (_&Hsz&_&Hs) H. pose proof (heap_seg_spans _ _ _ _ _ Hs). heap_unfold. zbool.
  destruct H as [H|H]; zbool; [lia|]. apply (IH _ _ Hs) in H. lia.
Qed.

Lemma payload_range m a prev nxt bs p n :
  heap_seg m a prev nxt bs → (p, n) ∈ payloads a bs →
  a + 16 ≤ p ∧ 16 ≤ n ∧ p + n ≤ a + spans bs.
Proof.
  revert a prev. induction bs as [|[sz f] bs IH]; intros a prev; simpl; [by intros _ ?%not_elem_of_nil|].
  intros (_&Hsz&_&Hs) H. pose proof (heap_seg_spans _ _ _ _ _ Hs). heap_unfold.
  apply elem_of_app in H as [H|H].
  - destruct f; [by apply not_elem_of_nil in H|]. apply list_elem_of_singleton in H.
    injection H as -> ->. lia.
  - apply (IH _ _ Hs) in H. lia.
Qed.

(** Payloads in use hold no header bytes. *)
Lemma payload_no_header m a prev nxt bs p n x :
  heap_seg m a prev nxt bs → (p, n) ∈ payloads a bs → p ≤ x < p + n → in_header a bs x = false.
Proof.
  revert a prev. induction bs as [|[sz f] bs IH]; intros a prev; simpl; [done|].
  intros (_&Hsz&_&Hs) H Hx. heap_unfold.
  apply elem_of_app in H as [H|H].
  - destruct f; [by apply not_elem_of_nil in H|]. apply list_elem_of_singleton in H.
    injection H as -> ->. apply orb_false_iff. split.
    + apply andb_false_iff. right. apply Z.ltb_ge. lia.
    + destruct (in_header _ bs x) eqn:E; [|done]. apply (in_header_range _ _ _ _ _ _ Hs) in E. lia.
  - apply orb_false_iff. split; [|by apply (IH _ _ Hs H)].
    pose proof (payload_range _ _ _ _ _ _ _ Hs H). apply andb_false_iff. right. apply Z.ltb_ge. lia.
Qed.

(** The pieces of a heap around one block. *)
Lemma heap_seg_at m B pre sz f post :
  heap_seg m B 0 0 (pre ++ (sz, f) :: post) ↔
  let a := B + spans pre in
  heap_seg m B 0 a pre ∧
  header m a sz f (match post with [] => 0 | _ => a + 16 + sz end) (last_addr B 0 pre) ∧
  16 ≤ sz ∧ sz mod 16 = 0 ∧ heap_seg m (a + 16 + sz) a 0 post.
Proof. rewrite heap_seg_app. simpl. naive_solver. Qed.

Lemma set_free_seg m B pre sz f g post :
  heap_seg m B 0 0 (pre ++ (sz, f) :: post) →
  heap_seg (set_free (B + spans pre) (free_word g) m) B 0 0 (pre ++ (sz, g) :: post).
Proof.
  rewrite !heap_seg_at. cbv zeta. set (a := B + spans pre). intros (H1&[Hs Hf Hn Hp]&?&?&H2).
  assert (0 ≤ free_word g ≤ 1) by (destruct g; simpl; lia).
  split_and!; try done.
  - eapply heap_seg_ext; [|exact H1]. intros x Hx. apply store32_other. unfold a. lia.
  - split; hdr; done.
  - eapply heap_seg_ext; [|exact H2]. intros x Hx. apply store32_other. lia.
Qed.

Lemma last_addr_range m B nxt pre :
  heap_seg m B 0 nxt pre → 0 < B → 0 ≤ last_addr B 0 pre ≤ B + spans pre ∧
  (last_addr B 0 pre = 0 ↔ pre = []).
Proof.
  intros H HB. destruct pre as [|[s f] pre _] using rev_ind; [simpl; split; [lia|done]|].
  rewrite last_addr_app. apply heap_seg_app in H as [H1 H2]. simpl in H2.
  pose proof (heap_seg_spans _ _ _ _ _ H1). rewrite spans_app. heap_unfold.
  split; [lia|]. split; [lia|]. intros E. by destruct pre.
Qed.

(** Splitting, with the stores of the code. *)
Lemma split_block_eq m B pre sz post size :
  heap_seg m B 0 0 (pre ++ (sz, true) :: post) → 0 < B →
  B + spans (pre ++ (sz, true) :: post) ≤ KERNEL_HEAP_LIMIT →
  0 ≤ size → size + 32 ≤ sz →
  let a := B + spans pre in
  let tail := a + 16 + size in
  let n := a + 16 + sz in
  let m1 := store32 (store32 (store32 (store32 m tail (sz - size - 16)) (tail + 4) 1)
              (tail + 8) (match post with [] => 0 | _ => n end)) (tail + 12) a in
  let m2 := match post with [] => m1 | _ => store32 m1 (n + 12) tail end in
  kheap_split_block a size m = store32 (store32 m2 a size) (a + 8) tail.
Proof.
  intros Hseg HB Hlim Hsz1 Hsz2. rewrite heap_seg_at in Hseg.
  rewrite spans_app in Hlim. cbv zeta in *. set (a := B + spans pre) in *.
  destruct Hseg as (H1&[Hs Hf Hn Hp]&?&?&H2).
  pose proof (heap_seg_spans _ _ _ _ _ H1). pose proof (heap_seg_spans _ _ _ _ _ H2).
  heap_unfold. unfold KERNEL_HEAP_LIMIT in *.
  assert (0 < a) by (unfold a; lia).
  unfold kheap_split_block, KHEAP_MIN_SPLIT, sizeof_kheap_block, KHEAP_ALIGN.
  rewrite Hs, (u32_small (size + (16 + 16))) by lia.
  rewrite (proj2 (Z.eqb_neq a 0)), (proj2 (Z.ltb_ge sz _)) by lia. bsimpl.
  rewrite (u32_small (a + 16)), (u32_small (a + 16 + size)), (u32_small (sz - size)),
    (u32_small (sz - size - 16)) by lia.
  assert (0 ≤ match post with [] => 0 | _ => a + 16 + sz end < 4294967296) as Hnr by (destruct post; lia).
  hdr_unfold. set (n0 := match post with [] => 0 | _ => a + 16 + sz end) in *.
  assert (load32 (store32 (store32 m (a + 16 + size) (sz - size - 16)) (a + 16 + size + 4) 1) (a + 8) = n0)
    as -> by (hdr; exact Hn).
  assert (load32 (store32 (store32 (store32 (store32 m (a + 16 + size) (sz - size - 16))
    (a + 16 + size + 4) 1) (a + 16 + size + 8) n0) (a + 16 + size + 12) a) (a + 16 + size + 8) = n0)
    as -> by (hdr; done).
  unfold n0, truthy. destruct post; [done|]. by rewrite (proj2 (Z.eqb_neq _ 0)) by lia.
Qed.

(** The list after [kmalloc] has taken [size] bytes from a free block. *)
Definition taken (sz size : Z) : list (Z * bool) :=
  if sz <? size + KHEAP_MIN_SPLIT then [(sz, false)]
  else [(size, false); (sz - size - sizeof_kheap_block, true)].

Lemma split_take m B pre sz post size :
  bytes_wf m → heap_seg m B 0 0 (pre ++ (sz, true) :: post) → 0 < B →
  B + spans (pre ++ (sz, true) :: post) ≤ KERNEL_HEAP_LIMIT →
  KHEAP_ALIGN ≤ size ≤ sz → size mod KHEAP_ALIGN = 0 →
  let a := B + spans pre in
  let m' := set_free a 0 (kheap_split_block a size m) in
  let bs' := pre ++ taken sz size ++ post in
  bytes_wf m' ∧ heap_seg m' B 0 0 bs' ∧
  ∀ x, in_header B (pre ++ (sz, true) :: post) x = false → in_header B bs' x = false → m' x = m x.
Proof.
  intros Hwf Hseg HB Hlim Hsz Hal a m' bs'.
  pose proof Hseg as Hat. rewrite heap_seg_at in Hat. cbv zeta in Hat. fold a in Hat.
  destruct Hat as (H1&[Hs Hf Hn Hp]&Hsz16&Hsza&H2).
  pose proof (heap_seg_spans _ _ _ _ _ H1). pose proof (heap_seg_spans _ _ _ _ _ H2).
  pose proof (last_addr_range _ _ _ _ H1 HB) as [Hla _].
  unfold m', bs', taken. rewrite spans_app in Hlim.
  destruct (Z.ltb_spec sz (size + KHEAP_MIN_SPLIT)) as [Hlt|Hge].
  - assert (kheap_split_block a size m = m) as ->.
    { unfold kheap_split_block. rewrite Hs.
      assert (size ⊞ KHEAP_MIN_SPLIT = size + KHEAP_MIN_SPLIT) as ->
        by (apply u32_small; heap_unfold; unfold KERNEL_HEAP_LIMIT in *; lia).

      by rewrite (proj2 (Z.ltb_lt _ _)), orb_true_r by done. }
    split_and!; [by apply store_le_wf|apply (set_free_seg m B pre sz true false post Hseg)|].
    intros x Hx _. apply store32_other. rewrite in_header_app in Hx. simpl in Hx. fold a in Hx.
    zbool. heap_unfold. destruct H4 as [?|?]; zbool; lia.
  - assert (size + 32 ≤ sz) as Hge' by (heap_unfold; lia).
    pose proof (split_block_eq m B pre sz post size Hseg HB ltac:(rewrite spans_app; done)
      ltac:(heap_unfold; lia) Hge') as Hsplit. cbv zeta in Hsplit. fold a in Hsplit. rewrite Hsplit.
    clear Hsplit. set (tail := a + 16 + size). set (n := a + 16 + sz).
    set (n0 := match post with [] => 0 | _ => n end). set (m1 := store32 (store32 _ _ _) (tail + 12) a).
    set (m2 := match post with [] => m1 | _ => _ end).
    heap_unfold. unfold KERNEL_HEAP_LIMIT in *.
    assert (0 ≤ n0 < 4294967296) as Hn0 by (unfold n0, n; destruct post; lia).
    assert (∀ x, (x < tail ∨ tail + 16 ≤ x) → (x < n ∨ n + 16 ≤ x ∨ post = []) → m2 x = m x) as Hm2.
    { intros x Ht Hx. unfold m2, m1. destruct post; rewrite ?store32_other; try done; try lia.
      all: destruct Hx as [?|[?|?]]; try done; lia. }
    assert (bytes_wf m2) as Hwf2 by (unfold m2, m1; destruct post; repeat apply store_le_wf; done).
    set (m3 := store32 (store32 m2 a size) (a + 8) tail).
    split; [repeat apply store_le_wf; done|]. split.
    + apply heap_seg_at. cbv zeta. fold a tail.
      assert (∀ x, x < a ∨ a + 16 ≤ x → set_free a 0 m3 x = m2 x) as Hm3.
      { intros x Hx. unfold set_free, m3. by rewrite !store32_other by lia. }
      split_and!; [|split|lia|done| ].
      * eapply heap_seg_ext; [|exact H1]. intros x Hx. rewrite Hm3, Hm2 by (unfold tail, n; lia). done.
      * unfold m3. hdr. done.
      * hdr. done.
      * unfold m3. hdr. done.
      * rewrite <- Hp. unfold m3. hdr. apply load32_ext. intros x Hx. apply Hm2; unfold tail, n; lia.
      * simpl. heap_unfold. replace (tail + 16 + (sz - size - 16)) with n by (unfold tail, n; lia).
        split_and!; [|lia|word_lia|].
        -- apply (header_ext m2); [intros x Hx; apply Hm3; unfold tail in *; lia|].
           apply (header_ext m1); [intros x Hx; unfold m2; destruct post; [done|];
             apply store32_other; unfold tail, n in *; lia|].
           unfold m1. split; hdr; done.
        -- apply (heap_seg_ext m2); [intros x Hx; apply Hm3; unfold n in *; lia|].
           unfold m2. destruct post as [|b post]; [done|].
           apply (heap_seg_ext (set_prev n tail m)).
           { intros x Hx. apply store32_agree. unfold m1.
             by rewrite !store32_other by (unfold tail, n in *; lia). }
           eapply heap_seg_prev; [exact H2|]. unfold is_u32, tail. lia.
    + intros x Hx Hx'. rewrite in_header_app in Hx, Hx'. simpl in Hx, Hx'. fold a in Hx, Hx'.
      heap_unfold. apply orb_false_iff in Hx as [_ [Hx1%not_in_range Hx2]%orb_false_iff].
      apply orb_false_iff in Hx' as [_ [_ [Hx3%not_in_range _]%orb_false_iff]%orb_false_iff].
      unfold set_free, m3. rewrite !store32_other by lia. apply Hm2; [unfold tail; lia|].
      destruct post as [|[s f] post]; [by do 2 right|]. simpl in Hx2.
      apply orb_false_iff in Hx2 as [Hx2%not_in_range _]. unfold n. heap_unfold. lia.
Qed.

(** Merging a free block with a free successor. *)
Definition merge (b : Z * bool) (post : list (Z * bool)) : list (Z * bool) :=
  match b, post with
  | (s, true), (s', true) :: rest => (s + sizeof_kheap_block + s', true) :: rest
  | _, _ => b :: post
  end.

Lemma merge_spans b post : spans (merge b post) = spans (b :: post).
Proof. destruct b as [s []], post as [|[s' []] post]; simpl; heap_unfold; lia. Qed.

Lemma merge_payloads a b post : payloads a (merge b post) = payloads a (b :: post).
Proof.
  destruct b as [s []], post as [|[s' []] post]; simpl; try done. f_equal. heap_unfold. lia.
Qed.

Lemma merge_in_header a b post x :
  in_header a (b :: post) x = false → in_header a (merge b post) x = false.
Proof.
  destruct b as [s []], post as [|[s' []] post]; simpl; try done.
  intros [-> [_ H]%orb_false_iff]%orb_false_iff. simpl. rewrite <- H. f_equal. lia.
Qed.

(** [kheap_coalesce_forward] merges, and otherwise does nothing. *)
Lemma coalesce_forward_spec m B pre b post :
  bytes_wf m → heap_seg m B 0 0 (pre ++ b :: post) → 0 < B →
  B + spans (pre ++ b :: post) ≤ KERNEL_HEAP_LIMIT →
  let m' := kheap_coalesce_forward (B + spans pre) m in
  bytes_wf m' ∧ heap_seg m' B 0 0 (pre ++ merge b post) ∧
  ∀ x, in_header B (pre ++ b :: post) x = false → m' x = m x.
Proof.
  destruct b as [s f]. intros Hwf Hseg HB Hlim. rewrite spans_app in Hlim.
  pose proof Hseg as Hat. rewrite heap_seg_at in Hat. cbv zeta in *. set (a := B + spans pre) in *.
  destruct Hat as (H1&[Hs Hf Hn Hp]&Hs16&Hsa&H2).
  pose proof (heap_seg_spans _ _ _ _ _ H1). pose proof (heap_seg_spans _ _ _ _ _ H2).
  unfold kheap_coalesce_forward. rewrite Hf, Hn, (proj2 (Z.eqb_neq a 0)) by (unfold a; lia).
  destruct f; [|done]. cbn [free_word orb]. change (1 =? 0) with false. cbv iota.
  destruct post as [|[s' f'] post]; [done|].
  rewrite (proj2 (Z.eqb_neq _ 0)) by (heap_unfold; unfold a; lia).
  simpl in H2. heap_unfold. set (n := a + 16 + s) in *.
  destruct H2 as ([Hs' Hf' Hn' Hp']&Hs16'&Hsa'&H3). rewrite Hf'.
  destruct f'; [|done]. cbn [free_word orb]. change (1 =? 0) with false. cbv iota.
  pose proof (heap_seg_spans _ _ _ _ _ H3). unfold KERNEL_HEAP_LIMIT in *.
  rewrite Hs, Hs', (u32_small (16 + s')), (u32_small (s + (16 + s'))) by lia.
  assert (0 ≤ match post with [] => 0 | _ => n + 16 + s' end < 4294967296) as Hnr
    by (unfold n; destruct post; lia).
  set (n0 := match post with [] => 0 | _ => n + 16 + s' end) in *.
  assert (blk_next (set_size a (s + (16 + s')) m) n = n0) as -> by (unfold n in *; hdr; exact Hn').
  set (m1 := set_next a n0 (set_size a (s + (16 + s')) m)).
  assert (blk_next m1 a = n0) as -> by (unfold m1; hdr; done).
  set (m2 := if truthy n0 then set_prev n0 a m1 else m1).
  assert (∀ x, x < a ∨ a + 16 ≤ x → m1 x = m x) as Hm1.
  { intros x Hx. unfold m1. hdr_unfold. by rewrite !store32_other by lia. }
  assert (truthy n0 = match post with [] => false | _ => true end) as Ht.
  { unfold n0, truthy. destruct post; [done|]. by rewrite (proj2 (Z.eqb_neq _ 0)) by (unfold n; lia). }
  assert (∀ x, x < n + 16 + s' → m2 x = m1 x) as Hm2.
  { intros x Hx. unfold m2. rewrite Ht. destruct post; [done|]. unfold n0. apply store32_other. lia. }
  split_and!.
  - unfold m2, m1. rewrite Ht. destruct post; repeat apply store_le_wf; done.
  - cbn [merge]. heap_unfold. apply heap_seg_at. cbv zeta. fold a.
    replace (a + 16 + (s + 16 + s')) with (n + 16 + s') by (unfold n; lia).
    split_and!; [| |lia|word_lia|].
    + apply (heap_seg_ext m); [|exact H1]. intros x Hx. rewrite Hm2, Hm1 by (unfold n, a in *; lia). done.
    + apply (header_ext m1); [intros x Hx; apply Hm2; unfold n; lia|].
      split; unfold m1; hdr; [lia|exact Hf|done|exact Hp].
    + unfold m2. rewrite Ht. destruct post as [|b post]; [done|].
      apply (heap_seg_ext (set_prev (n + 16 + s') a m)).
      { intros x Hx. apply store32_agree, Hm1. unfold n in *; lia. }
      eapply heap_seg_prev; [exact H3|]. unfold is_u32, a. lia.
  - intros x Hx. rewrite in_header_app in Hx. simpl in Hx. heap_unfold. fold a n in Hx.
    apply orb_false_iff in Hx as [_ [Hx1%not_in_range [_ Hx3]%orb_false_iff]%orb_false_iff].
    unfold m2. rewrite Ht. destruct post as [|[s2 f2] post]; [by apply Hm1|].
    simpl in Hx3. apply orb_false_iff in Hx3 as [Hx3%not_in_range _]. heap_unfold.
    unfold set_prev, n0. rewrite store32_other by lia. by apply Hm1.
Qed.

(** The list after a block has been freed and coalesced with its neighbours. *)
Definition joined (pre : list (Z * bool)) (s : Z) (post : list (Z * bool)) : list (Z * bool) :=
  match last pre with
  | Some (s0, true) => removelast pre ++ merge (s0 + sizeof_kheap_block + s, true) post
  | _ => pre ++ merge (s, true) post
  end.

Lemma joined_snoc pre s0 f0 s post :
  joined (pre ++ [(s0, f0)]) s post =
  if f0 then pre ++ merge (s0 + sizeof_kheap_block + s, true) post
  else (pre ++ [(s0, f0)]) ++ merge (s, true) post.
Proof. unfold joined. rewrite last_snoc. destruct f0; [|done]. by rewrite removelast_last. Qed.

(** What two lists of blocks have in common across a free: the span and the
    payloads in use; the second has no other headers. *)
Record same_heap (B : Z) bs bs' : Prop := {
  sh_spans : spans bs' = spans bs;
  sh_payloads : payloads B bs' = payloads B bs;
  sh_headers : ∀ x, in_header B bs x = false → in_header B bs' x = false;
}.

Lemma merge_same_heap B pre b post : same_heap B (pre ++ b :: post) (pre ++ merge b post).
Proof.
  split.
  - by rewrite !spans_app, merge_spans.
  - by rewrite !payloads_app, merge_payloads.
  - intros x. rewrite !in_header_app. intros [-> H]%orb_false_iff. simpl.
    by apply merge_in_header.
Qed.

Lemma joined_same_heap B pre s post : same_heap B (pre ++ (s, true) :: post) (joined pre s post).
Proof.
  destruct pre as [|[s0 f0] pre _] using rev_ind; [apply merge_same_heap|].
  rewrite joined_snoc. destruct f0; [|apply merge_same_heap].
  pose proof (merge_same_heap B pre (s0, true) ((s, true) :: post)) as [H1 H2 H3].
  pose proof (merge_same_heap B pre (s0 + sizeof_kheap_block + s, true) post) as [H4 H5 H6].
  rewrite <- app_assoc. simpl in *. split; [congruence|congruence|]. auto.
Qed.

(** Lists without free neighbours stay so. *)
Lemma coalesced_merge s post : coalesced post → coalesced (merge (s, true) post).
Proof.
  destruct post as [|[s1 []] [|[s2 f2] post]]; simpl; try done.
Qed.

Lemma coalesced_cons_used pre s0 post :
  coalesced (pre ++ [(s0, false)]) → coalesced post → coalesced (pre ++ (s0, false) :: post).
Proof.
  intros H1 H2. apply coalesced_app. split; [done|]. by destruct post as [|[??]?].
Qed.

Lemma coalesced_app_l xs ys : coalesced (xs ++ ys) → coalesced xs.
Proof.
  induction xs as [|[s f] [|[s1 f1] xs] IH]; simpl; [done|done|]. intros [? H]. split; [done|].
  by apply IH.
Qed.

Lemma coalesced_app_r xs ys : coalesced (xs ++ ys) → coalesced ys.
Proof.
  induction xs as [|[s f] xs IH]; simpl; [done|]. intros H. apply IH.
  by destruct (xs ++ ys) as [|[??]?]; [|destruct H].
Qed.

(** A list ending in a used block or empty can be followed by anything coalesced. *)
Lemma coalesced_join pre bs :
  coalesced pre → coalesced bs → (∀ s, last pre ≠ Some (s, true)) → coalesced (pre ++ bs).
Proof.
  destruct pre as [|[s0 f0] pre _] using rev_ind; [done|]. rewrite last_snoc. intros H1 H2 Hl.
  destruct f0; [by destruct (Hl s0)|]. rewrite <- app_assoc. by apply coalesced_cons_used.
Qed.

Lemma joined_coalesced pre s post :
  coalesced pre → coalesced post → coalesced (joined pre s post).
Proof.
  destruct pre as [|[s0 f0] pre _] using rev_ind; [intros _; apply coalesced_merge|].
  rewrite joined_snoc. intros H1 H2. destruct f0.
  - apply coalesced_join; [by eapply coalesced_app_l|by apply coalesced_merge|].
    intros s' Hl. destruct pre as [|[s1 f1] pre _] using rev_ind; [done|].
    rewrite last_snoc in Hl. injection Hl as -> ->. rewrite <- app_assoc in H1.
    apply coalesced_app_r in H1. simpl in H1. destruct H1. done.
  - apply coalesced_join; [done|by apply coalesced_merge|]. intros s'. by rewrite last_snoc.
Qed.

Lemma coalesce_spec m B pre s post :
  bytes_wf m → heap_seg m B 0 0 (pre ++ (s, true) :: post) → 0 < B →
  B + spans (pre ++ (s, true) :: post) ≤ KERNEL_HEAP_LIMIT →
  let m' := kheap_coalesce (B + spans pre) m in
  bytes_wf m' ∧ heap_seg m' B 0 0 (joined pre s post) ∧
  ∀ x, in_header B (pre ++ (s, true) :: post) x = false → m' x = m x.
Proof.
  intros Hwf Hseg HB Hlim. pose proof Hseg as Hat. rewrite heap_seg_at in Hat. cbv zeta in *.
  destruct Hat as (H1&[Hs Hf Hn Hp]&_). pose proof (heap_seg_spans _ _ _ _ _ H1).
  unfold kheap_coalesce. rewrite (proj2 (Z.eqb_neq _ 0)) by lia. rewrite Hp.
  destruct pre as [|[s0 f0] pre _] using rev_ind.
  { simpl. apply (coalesce_forward_spec m B [] (s, true) post); done. }
  rewrite last_addr_app. rewrite joined_snoc.
  assert (blk_free m (B + spans pre) = free_word f0) as Hf0.
  { rewrite <- app_assoc in Hseg. apply heap_seg_at in Hseg as (_&[_ ? _ _]&_). done. }
  rewrite <- app_assoc in Hseg, Hlim. simpl in Hseg, Hlim.
  assert (0 < B + spans pre) as Hpos.
  { rewrite heap_seg_at in Hseg. destruct Hseg as (Hx&_). pose proof (heap_seg_spans _ _ _ _ _ Hx). lia. }
  assert (truthy (B + spans pre) = true) as -> by (unfold truthy; by rewrite (proj2 (Z.eqb_neq _ 0)) by lia).
  rewrite Hf0. destruct f0; cbn [free_word andb].
  - change (truthy 1) with true. cbv iota.
    destruct (coalesce_forward_spec m B pre (s0, true) ((s, true) :: post) Hwf Hseg HB Hlim)
      as (Hwf1&Hseg1&Hk1). cbn [merge] in Hseg1.
    pose proof (merge_same_heap B pre (s0, true) ((s, true) :: post)) as [Hsp _ Hih].
    cbn [merge] in Hsp, Hih.
    destruct (coalesce_forward_spec _ B pre (s0 + sizeof_kheap_block + s, true) post Hwf1 Hseg1 HB)
      as (Hwf2&Hseg2&Hk2); [by rewrite Hsp|].
    split_and!; [done|done|]. intros x Hx. rewrite <- app_assoc in Hx. simpl in Hx.
    rewrite Hk2, Hk1 by auto. done.
  - change (truthy 0) with false. cbv iota.
    apply (coalesce_forward_spec m B (pre ++ [(s0, false)]) (s, true) post); rewrite <- ?app_assoc; done.
Qed.

End operations.

(** ** The invariant *)

Record heap_ok (h : kheap) (bs : list (Z * bool)) : Prop := {
  ho_wf : bytes_wf (hmem h);
  ho_seg : heap_seg (hmem h) KERNEL_HEAP_BASE 0 0 bs;
  ho_end : heap_end h = KERNEL_HEAP_BASE + spans bs;
  ho_limit : heap_end h ≤ KERNEL_HEAP_LIMIT;
  ho_head : heap_head h = match bs with [] => 0 | _ => KERNEL_HEAP_BASE end;
  ho_coalesced : coalesced bs;
}.

(** The bytes of the payloads in use are the same in [m'] and [m]. *)
Definition keeps_payloads (bs : list (Z * bool)) (m m' : carray Z) : Prop :=
  ∀ p n x, (p, n) ∈ payloads KERNEL_HEAP_BASE bs → p ≤ x < p + n → m' x = m x.

Section heap.
Implicit Types (h : kheap) (bs pre post : list (Z * bool)) (m : carray Z).

Lemma find_fit_spec m a prev bs size fuel :
  heap_seg m a prev 0 bs → 0 < a → (length bs < fuel ∨ bs = [])%nat →
  match find_fit fuel m (match bs with [] => 0 | _ => a end) size with
  | Some block => ∃ pre sz post, bs = pre ++ (sz, true) :: post ∧ size ≤ sz ∧ block = a + spans pre
  | None => ∀ sz, (sz, true) ∈ bs → sz < size
  end.
Proof.
  revert a prev fuel. induction bs as [|[sz f] bs IH]; intros a prev fuel.
  { intros _ _ _. destruct fuel; simpl; intros sz Hin; by apply not_elem_of_nil in Hin. }
  simpl. intros ([Hs Hf Hn _]&Hsz&_&Hseg) Ha [Hfuel|]; [|done].
  destruct fuel as [|fuel]; [lia|]. simpl. rewrite (proj2 (Z.eqb_neq a 0)), Hs, Hf, Hn by lia.
  heap_unfold. specialize (IH (a + 16 + sz) a fuel Hseg ltac:(lia)).
  assert (length bs < fuel ∨ bs = [])%nat as Hfuel' by (left; lia). specialize (IH Hfuel').
  destruct ((free_word f =? 0) || (sz <? size)) eqn:E.
  - destruct (find_fit _ _ _ _) as [block|].
    + destruct IH as (pre&s&post&->&?&->). exists ((sz, f) :: pre), s, post.
      split_and!; [done|done|]. simpl. heap_unfold. lia.
    + intros s [[= -> <-]|Hin]%elem_of_cons; [|by apply IH]. zbool. destruct E; zbool; done.
  - zbool. destruct f; [|done]. exists [], sz, bs. simpl. split_and!; [done|lia|lia].
Qed.

Lemma last_from_spec m a prev bs b fuel :
  heap_seg m a prev 0 (bs ++ [b]) → 0 < a → (length bs ≤ fuel)%nat →
  last_from fuel m a = a + spans bs.
Proof.
  revert a prev fuel. induction bs as [|[sz f] bs IH]; intros a prev fuel.
  - destruct b as [sz f]. simpl. intros ([_ _ Hn _]&_) Ha _. destruct fuel; simpl; [lia|].
    rewrite Hn. simpl. lia.
  - simpl. intros ([_ _ Hn _]&Hsz&_&Hseg) Ha Hf. destruct fuel as [|fuel]; [lia|]. simpl.
    rewrite Hn. heap_unfold.
    assert (match bs ++ [b] with [] => 0 | _ => a + 16 + sz end = a + 16 + sz) as -> by (by destruct bs).
    unfold truthy. rewrite (proj2 (Z.eqb_neq _ 0)) by lia. simpl.
    rewrite (IH _ _ _ Hseg) by lia. lia.
Qed.

(** The rollback leaves the heap's own data alone. *)
Lemma unmap_expansion_heap k h :
  hmem (unmap_expansion k h) = hmem h ∧ heap_head (unmap_expansion k h) = heap_head h ∧
  kheap_ready (unmap_expansion k h) = kheap_ready h.
Proof.
  revert h. induction k as [|k IH]; intros h; [done|]. cbn [unmap_expansion].
  match goal with |- context [unmap_expansion k ?x] => destruct (IH x) as (->&->&->) end.
  by case_if.
Qed.

Lemma map_expansion_heap n k base h :
  bytes_wf (hmem h) → heap_end h = base + Z.of_nat k * PAGE_SIZE → 0 ≤ base →
  base + (Z.of_nat k + Z.of_nat n) * PAGE_SIZE ≤ KERNEL_HEAP_LIMIT →
  let '(ok, h') := map_expansion n k base h in
  bytes_wf (hmem h') ∧ heap_head h' = heap_head h ∧ kheap_ready h' = kheap_ready h ∧
  (∀ x, x < heap_end h → hmem h' x = hmem h x) ∧
  heap_end h' = if ok then base + (Z.of_nat k + Z.of_nat n) * PAGE_SIZE else base.
Proof.
  revert k h. induction n as [|n IH]; intros k h Hwf Hend Hb Hlim; cbn [map_expansion].
  - split_and!; try done. rewrite Hend. lia.
  - destruct (paging_alloc_page (machine h)) as [pp v].
    destruct (if pp =? 0 then (-1, v) else _) as [r v'].
    destruct ((pp =? 0) || truthy r).
    + destruct (unmap_expansion_heap k (with_machine v' h)) as (H1&H2&H3).
      simpl. rewrite H1, H2, H3. done.
    + cbn [hmem heap_end with_hmem with_machine]. unfold KERNEL_HEAP_LIMIT, PAGE_SIZE in *.
      set (h1 := with_committed _ _).
      assert (heap_end h1 = base + Z.of_nat (S k) * 4096) as Hend1.
      { unfold h1. simpl. rewrite u32_small by lia. lia. }
      specialize (IH (S k) h1 ltac:(by apply zero_bytes_wf) Hend1 Hb ltac:(lia)).
      destruct (map_expansion n (S k) base h1) as [ok h']. destruct IH as (H1&H2&H3&H4&H5).
      split_and!; try done.
      * intros x Hx. rewrite H4 by lia. unfold h1. simpl. apply zero_bytes_out. lia.
      * rewrite H5. destruct ok; lia.
Qed.

(** The largest request for which the limit check of [kheap_expand] cannot wrap. *)
Definition KMALLOC_MAX : Z := 67100672.

(** The block that an expansion for [minimum_payload] bytes adds. *)
Definition expansion_pages (minimum_payload : Z) : Z :=
  Z.max KHEAP_INITIAL_PAGES ((minimum_payload + 16 + PAGE_SIZE - 1) / PAGE_SIZE).

Lemma expansion_pages_eq minimum_payload :
  0 ≤ minimum_payload ≤ KMALLOC_MAX →
  let pages := align_up_size (minimum_payload ⊞ sizeof_kheap_block) PAGE_SIZE / PAGE_SIZE in
  (if pages <? KHEAP_INITIAL_PAGES then KHEAP_INITIAL_PAGES else pages) = expansion_pages minimum_payload ∧
  minimum_payload + 16 ≤ expansion_pages minimum_payload * PAGE_SIZE ∧
  KHEAP_INITIAL_PAGES ≤ expansion_pages minimum_payload ∧
  expansion_pages minimum_payload * PAGE_SIZE ≤ KMALLOC_MAX + 4111.
Proof.
  intros Hm pages. unfold KMALLOC_MAX, sizeof_kheap_block in *.
  assert (pages = (minimum_payload + 16 + PAGE_SIZE - 1) / PAGE_SIZE) as ->.
  { unfold pages, align_up_size. rewrite (u32_small (minimum_payload + 16)) by lia. change PAGE_SIZE with (2 ^ 12).
    rewrite align_mask by lia. by apply Z.div_mul. }
  unfold expansion_pages, KHEAP_INITIAL_PAGES, PAGE_SIZE.
  split_and!; [case_if; lia|word_lia..].
Qed.

(** The new block is linked behind the old ones. *)
Lemma append_block m bs a n :
  bytes_wf m → heap_seg m KERNEL_HEAP_BASE 0 0 bs → a = KERNEL_HEAP_BASE + spans bs →
  16 ≤ n → n mod 16 = 0 → a + 16 + n ≤ KERNEL_HEAP_LIMIT →
  let m1 := set_prev a 0 (set_next a 0 (set_free a 1 (set_size a n m))) in
  let tail := last_addr KERNEL_HEAP_BASE 0 bs in
  let m2 := match bs with [] => m1 | _ => set_prev a tail (set_next tail a m1) end in
  bytes_wf m2 ∧ heap_seg m2 KERNEL_HEAP_BASE 0 0 (bs ++ [(n, true)]) ∧
  ∀ x, in_header KERNEL_HEAP_BASE (bs ++ [(n, true)]) x = false → m2 x = m x.
Proof.
  intros Hwf Hseg Ha Hn Hna Hlim m1 tail m2. pose proof (heap_seg_spans _ _ _ _ _ Hseg).
  unfold KERNEL_HEAP_LIMIT, KERNEL_HEAP_BASE in *.
  assert (∀ x, x < a ∨ a + 16 ≤ x → m1 x = m x) as Hm1.
  { intros x Hx. unfold m1. hdr_unfold. by rewrite !store32_other by lia. }
  assert (header m1 a n true 0 0) as Hh by (unfold m1; split; hdr; done).
  destruct bs as [|[sl fl] bs _] using rev_ind.
  { simpl in Ha. rewrite Z.add_0_r in Ha. subst a. split_and!.
    - unfold m2, m1. repeat apply store_le_wf. done.
    - simpl. heap_unfold. split_and!; done.
    - simpl. intros x Hx. apply orb_false_iff in Hx as [Hx%not_in_range _]. by apply Hm1. }
  rewrite spans_app in *. heap_unfold.
  pose proof Hseg as Hseg'. apply heap_seg_app in Hseg' as [Hpre Hlast]. simpl in Hlast.
  destruct Hlast as (_&Hsl&_). pose proof (heap_seg_spans _ _ _ _ _ Hpre).
  set (l := 4160749568 + spans bs) in *.
  assert (m2 = set_prev a l (set_next l a m1)) as E2
    by (unfold m2, tail; rewrite last_addr_app; by destruct bs).
  rewrite E2. clear E2 m2 tail. set (m2 := set_prev a l _).
  assert (∀ x, x < a → m2 x = set_next l a m1 x) as Hm2.
  { intros x Hx. unfold m2. apply store32_other. lia. }
  split_and!.
  - unfold m2, m1. repeat apply store_le_wf. done.
  - rewrite heap_seg_app. rewrite spans_app. heap_unfold. rewrite last_addr_app. fold l. split.
    + apply (heap_seg_ext (set_next l a m1)).
      { intros x Hx. apply Hm2. rewrite spans_app in Hx. heap_unfold. lia. }
      replace (4160749568 + (spans bs + (16 + sl + 0))) with a by lia.
      apply (heap_seg_next m1 _ 0 0); [|unfold m1; repeat apply store_le_wf; done|unfold is_u32; lia].
      apply (heap_seg_ext m); [|exact Hseg]. intros x Hx. apply Hm1.
      rewrite spans_app in Hx. heap_unfold. lia.
    + replace (4160749568 + (spans bs + (16 + sl + 0))) with a by lia. simpl.
      split_and!; [|heap_unfold; lia|done|done]. destruct Hh as [H1 H2 H3 H4].
      split; unfold m2; hdr; done.
  - intros x Hx. rewrite !in_header_app, spans_app in Hx. heap_unfold. fold l in Hx.
    replace (4160749568 + (spans bs + (16 + sl + 0))) with a in Hx by lia. simpl in Hx.
    apply orb_false_iff in Hx as [[_ Hx1]%orb_false_iff Hx2].
    apply orb_false_iff in Hx1 as [Hx1%not_in_range _].
    apply orb_false_iff in Hx2 as [Hx2%not_in_range _]. heap_unfold.
    unfold m2. hdr_unfold. rewrite !store32_other by lia. by apply Hm1.
Qed.

Lemma keeps_payloads_header bs m m' :
  heap_seg m KERNEL_HEAP_BASE 0 0 bs →
  (∀ x, x < KERNEL_HEAP_BASE + spans bs → in_header KERNEL_HEAP_BASE bs x = false → m' x = m x) →
  keeps_payloads bs m m'.
Proof.
  intros Hseg H p n x Hin Hx. pose proof (payload_range _ _ _ _ _ _ _ Hseg Hin).
  apply H; [lia|]. by eapply payload_no_header.
Qed.

(** The outcome of [kheap_expand] for a request of sane size. *)
Definition expanded (h : kheap) bs (minimum_payload r : Z) (h' : kheap) : Prop :=
  kheap_ready h' = kheap_ready h ∧ keeps_payloads bs (hmem h) (hmem h') ∧
  (r = -1 ∧ heap_ok h' bs ∨
   r = 0 ∧ ∃ n, minimum_payload ≤ n ∧ heap_ok h' (joined bs n [])).

Lemma kheap_expand_spec h bs minimum_payload :
  heap_ok h bs → 0 ≤ minimum_payload ≤ KMALLOC_MAX →
  expanded h bs minimum_payload (kheap_expand minimum_payload h).1 (kheap_expand minimum_payload h).2.
Proof.
  intros Hok Hm. pose proof Hok as [Hwf Hseg Hend Hlim Hhead Hco].
  pose proof (expansion_pages_eq minimum_payload Hm) as (Hpages&Hbig&Hinit&Hsmall).
  unfold kheap_expand. cbv zeta in *. rewrite Hpages. clear Hpages.
  set (pages := expansion_pages minimum_payload) in *.
  unfold KERNEL_HEAP_LIMIT, KMALLOC_MAX, KHEAP_INITIAL_PAGES, PAGE_SIZE in *.
  pose proof (heap_seg_spans _ _ _ _ _ Hseg). assert (KERNEL_HEAP_BASE = 4160749568) as HB by done.
  rewrite (u32_small (pages * 4096)), (u32_small (heap_end h + pages * 4096)) by lia.
  assert (keeps_payloads bs (hmem h) (hmem h)) as Hrefl by done.
  case_if; [split_and!; [done|done|by left]|].
  pose proof (map_expansion_heap (Z.to_nat pages) 0 (heap_end h) h Hwf ltac:(lia) ltac:(lia)) as Hx.
  unfold PAGE_SIZE, KERNEL_HEAP_LIMIT in Hx. specialize (Hx ltac:(lia)).
  destruct (map_expansion _ _ _ _) as [ok h1]. destruct Hx as (Hwf1&Hhead1&Hr1&Hm1&Hend1).
  assert (heap_seg (hmem h1) KERNEL_HEAP_BASE 0 0 bs) as Hseg1.
  { eapply heap_seg_ext; [|exact Hseg]. intros x ?. apply Hm1. lia. }
  destruct ok; cbv iota in Hend1; bsimpl.
  2:{ split_and!; [done|intros p n x Hin Hx|left; split; [done|]].
      - pose proof (payload_range _ _ _ _ _ _ _ Hseg Hin). apply Hm1. lia.
      - split; try done; unfold KERNEL_HEAP_LIMIT; rewrite ?Hend1, ?Hhead1; lia || done. }
  rewrite (u32_small (pages * 4096 - sizeof_kheap_block)) by (unfold sizeof_kheap_block; lia).
  change (pages * 4096 - sizeof_kheap_block) with (pages * 4096 - 16).
  set (n := pages * 4096 - 16).
  destruct (append_block (hmem h1) bs (heap_end h) n Hwf1 Hseg1 Hend) as (Hwf2&Hseg2&Hk2);
    [unfold n; lia|unfold n; word_lia|unfold n, KERNEL_HEAP_LIMIT; lia|].
  set (m1 := set_prev (heap_end h) 0 _) in *.
  assert (kheap_last_block (with_hmem m1 h1) = last_addr KERNEL_HEAP_BASE 0 bs) as ->.
  { unfold kheap_last_block. cbn [heap_head hmem with_hmem]. rewrite Hhead1, Hhead.
    destruct bs as [|[sl fl] bs' _] using rev_ind; [done|].
    assert (match bs' ++ [(sl, fl)] with [] => 0 | _ => KERNEL_HEAP_BASE end = KERNEL_HEAP_BASE) as ->
      by (by destruct bs').
    rewrite last_addr_app. change (KERNEL_HEAP_BASE =? 0) with false. cbv iota.
    apply (last_from_spec _ _ 0 _ (sl, fl)); [|lia|].
    - eapply heap_seg_ext; [|exact Hseg1]. intros x ?. unfold m1. hdr_unfold.
      by rewrite !store32_other by lia.
    - unfold list_fuel. cbn [heap_end with_hmem]. rewrite Hend1. rewrite length_app in *. simpl in *. lia. }
  pose proof (last_addr_range _ _ _ _ Hseg1 ltac:(lia)) as [_ Hl0].
  assert (∀ m', (∀ x, in_header KERNEL_HEAP_BASE (bs ++ [(n, true)]) x = false → m' x = hmem h1 x) →
    keeps_payloads bs (hmem h) m') as Hkeep.
  { intros m' Hm'. apply keeps_payloads_header; [done|]. intros x Hx Hx'.
    rewrite <- Hm1 by lia. apply Hm'. rewrite in_header_app, Hx'. simpl.
    rewrite (proj2 (Z.leb_gt _ x)) by lia. done. }
  pose proof (joined_same_heap KERNEL_HEAP_BASE bs n []) as [Hsp _ _].
  assert (spans (joined bs n []) = spans bs + pages * 4096) as Hsp'
    by (rewrite Hsp, spans_app; heap_unfold; unfold n; lia).
  destruct bs as [|b0 bs0] eqn:Ebs.
  - rewrite (proj2 Hl0) by done. change (0 =? 0) with true. cbv iota. cbn [fst snd].
    split_and!; [done|by apply Hkeep|]. right. split; [done|]. exists n. split; [unfold n; lia|].
    simpl in Hend. split; cbn [hmem heap_end heap_head with_head with_hmem].
    + done.
    + done.
    + rewrite Hend1, Hsp'. change (spans []) with 0. lia.
    + unfold KERNEL_HEAP_LIMIT. lia.
    + simpl. lia.
    + done.
  - rewrite (proj2 (Z.eqb_neq _ 0)) by (intros E0; by apply Hl0 in E0).
    rewrite <- Ebs in *. cbn [hmem with_hmem fst snd].
    destruct (coalesce_spec _ KERNEL_HEAP_BASE bs n [] Hwf2) as (Hwf3&Hseg3&Hk3);
      [exact Hseg2|lia|rewrite spans_app; heap_unfold; unfold KERNEL_HEAP_LIMIT, n; lia|].
    rewrite <- Hend in Hwf3, Hseg3, Hk3.
    split_and!; [done| |right; split; [done|]].
    + apply Hkeep. intros x Hx. etrans; [by apply Hk3|]. etrans; [|by apply Hk2]. by rewrite Ebs.
    + exists n. split; [unfold n; lia|]. split; simpl.
      * done.
      * done.
      * rewrite Hend1, Hsp'. lia.
      * unfold KERNEL_HEAP_LIMIT. rewrite Hend1. lia.
      * rewrite Hhead1, Hhead. destruct (joined bs n []); [simpl in Hsp'; lia|]. reflexivity.
      * by apply joined_coalesced.
Qed.

(** Only header bytes matter to the list. *)
Lemma heap_seg_headers m m' a prev nxt bs :
  (∀ x, in_header a bs x = true → m' x = m x) → heap_seg m a prev nxt bs → heap_seg m' a prev nxt bs.
Proof.
  revert a prev. induction bs as [|[sz f] bs IH]; intros a prev H; simpl; [done|].
  intros (Hh&Hsz&Hal&Hs). split_and!; try done.
  - eapply header_ext; [|done]. intros x Hx. apply H. simpl. apply orb_true_iff. left.
    heap_unfold. apply andb_true_iff. split; [apply Z.leb_le|apply Z.ltb_lt]; lia.
  - apply IH; [|done]. intros x Hx. apply H. simpl. apply orb_true_iff. by right.
Qed.

(** Payloads in use do not overlap. *)
Lemma payloads_disjoint m a prev nxt bs xs p n q k ys :
  heap_seg m a prev nxt bs → payloads a bs ≡ₚ xs ++ (p, n) :: ys → (q, k) ∈ xs ++ ys →
  p + n ≤ q ∨ q + k ≤ p.
Proof.
  revert a prev xs ys. induction bs as [|[sz f] bs IH]; intros a prev xs ys; simpl.
  { intros _ H%Permutation_nil_l. by destruct xs. }
  intros (_&Hsz&_&Hs) H Hin. destruct f; [by eapply IH|]. simpl in H.
  assert (∀ p' n', (p', n') ∈ payloads (a + sizeof_kheap_block + sz) bs → a + 16 + sz ≤ p') as Hr.
  { intros p' n' H'. pose proof (payload_range _ _ _ _ _ _ _ Hs H'). heap_unfold. lia. }
  heap_unfold. destruct (decide ((p, n) = (a + 16, sz))) as [E|E].
  - injection E as -> ->. rewrite <- Permutation_middle in H. apply Permutation_cons_inv in H.
    rewrite <- H in Hin. apply Hr in Hin. lia.
  - assert ((p, n) ∈ (a + 16, sz) :: payloads (a + 16 + sz) bs) as Hp.
    { rewrite H. apply elem_of_app. right. by left. }
    apply elem_of_cons in Hp as [?|Hp]; [done|]. apply Hr in Hp.
    destruct (decide ((q, k) = (a + 16, sz))) as [E'|E']; [injection E' as -> ->; lia|].
    assert ((a + 16, sz) ∈ xs ++ ys) as (zs1&zs2&Hz)%list_elem_of_split.
    { assert ((a + 16, sz) ∈ xs ++ (p, n) :: ys) as Hi by (rewrite <- H; by left).
      apply elem_of_app in Hi as [?|[?|?]%elem_of_cons]; apply elem_of_app; [by left|done|by right]. }
    eapply (IH _ _ [] (zs1 ++ zs2)); [exact Hs| |].
    + apply (Permutation_cons_inv (a := (a + 16, sz))). rewrite H, <- Permutation_middle, Hz.
      simpl. rewrite <- Permutation_middle. apply perm_swap.
    + simpl. rewrite Hz in Hin. apply elem_of_app in Hin as [?|[?|?]%elem_of_cons]; [| done|];
        apply elem_of_app; auto.
Qed.

Lemma joined_fit bs n : (∀ s f, (s, f) ∈ bs → 0 ≤ s) → ∃ s, (s, true) ∈ joined bs n [] ∧ n ≤ s.
Proof.
  intros Hs. destruct bs as [|[s0 []] pre _] using rev_ind; rewrite ?joined_snoc.
  - exists n. split; [by left|lia].
  - exists (s0 + sizeof_kheap_block + n). split; [apply elem_of_app; right; by left|].
    assert (0 ≤ s0) by (apply (Hs s0 true); apply elem_of_app; right; by left). heap_unfold. lia.
  - exists n. split; [apply elem_of_app; right; by left|lia].
Qed.

Lemma heap_seg_sizes m a prev nxt bs s f : heap_seg m a prev nxt bs → (s, f) ∈ bs → 16 ≤ s.
Proof.
  revert a prev. induction bs as [|[sz g] bs IH]; intros a prev; simpl; [by intros _ ?%not_elem_of_nil|].
  intros (_&Hsz&_&Hs) [[= -> ->]|H]%elem_of_cons; [heap_unfold; lia|by eapply IH].
Qed.

(** Taking a block keeps the list coalesced and adds one payload. *)
Lemma taken_coalesced pre sz size post :
  coalesced (pre ++ (sz, true) :: post) → coalesced (pre ++ taken sz size ++ post).
Proof.
  intros H. pose proof (coalesced_app_l _ _ H) as Hpre. pose proof (coalesced_app_r _ _ H) as Hpost.
  assert (coalesced (pre ++ [(sz, false)])) as Hp.
  { clear H Hpost. induction pre as [|[s f] [|[s1 f1] pre] IH]; simpl; [done|by rewrite andb_false_r|].
    destruct Hpre as [? Hpre]. split; [done|]. by apply IH. }
  assert (∀ z, coalesced (pre ++ [(z, false)])) as Hp'.
  { intros z. clear -Hp. induction pre as [|[s f] [|[s1 f1] pre] IH]; simpl in *; [done|by rewrite andb_false_r|].
    destruct Hp as [? Hp]. split; [done|]. by apply IH. }
  unfold taken. destruct post as [|[s1 f1] post]; case_if; simpl in *.
  - done.
  - apply coalesced_cons_used; [apply Hp'|done].
  - apply coalesced_cons_used; [apply Hp'|tauto].
  - apply coalesced_cons_used; [apply Hp'|]. simpl. tauto.
Qed.

Lemma taken_payloads B pre sz size post :
  ∃ n, (n = sz ∨ n = size) ∧
  payloads B (pre ++ taken sz size ++ post)
  ≡ₚ (B + spans pre + 16, n) :: payloads B (pre ++ (sz, true) :: post).
Proof.
  unfold taken. rewrite !payloads_app. simpl. case_if.
  - exists sz. split; [by left|]. simpl. rewrite <- Permutation_middle. constructor.
    heap_unfold. do 2 f_equiv. lia.
  - exists size. split; [by right|]. simpl. rewrite <- Permutation_middle. constructor.
    heap_unfold. do 2 f_equiv. lia.
Qed.

Lemma taken_spans sz size : spans (taken sz size) = span (sz, true).
Proof. unfold taken. case_if; simpl; heap_unfold; lia. Qed.

(** What an allocation promises: a fresh, aligned payload of at least [size]
    bytes inside the heap, apart from every other one. *)
Definition allocated (h : kheap) (bs : list (Z * bool)) (size p : Z) (h' : kheap) : Prop :=
  ∃ n bs', size ≤ n ∧ p mod 16 = 0 ∧ KERNEL_HEAP_BASE + 16 ≤ p ∧ p + n ≤ heap_end h' ∧
  heap_ok h' bs' ∧
  payloads KERNEL_HEAP_BASE bs' ≡ₚ (p, n) :: payloads KERNEL_HEAP_BASE bs ∧
  ∀ q k, (q, k) ∈ payloads KERNEL_HEAP_BASE bs → p + n ≤ q ∨ q + k ≤ p.

Lemma take_block h pre sz post size :
  heap_ok h (pre ++ (sz, true) :: post) → KHEAP_ALIGN ≤ size ≤ sz → size mod KHEAP_ALIGN = 0 →
  let a := KERNEL_HEAP_BASE + spans pre in
  let h' := with_hmem (set_free a 0 (kheap_split_block a size (hmem h))) h in
  allocated h (pre ++ (sz, true) :: post) size (a ⊞ sizeof_kheap_block) h' ∧
  keeps_payloads (pre ++ (sz, true) :: post) (hmem h) (hmem h').
Proof.
  intros [Hwf Hseg Hend Hlim Hhead Hco] Hsz Hal a h'.
  destruct (split_take (hmem h) KERNEL_HEAP_BASE pre sz post size Hwf Hseg) as (Hwf'&Hseg'&Hk);
    [done|by rewrite <- Hend|done|done|].
  fold a in Hwf', Hseg', Hk. change (set_free a 0 _) with (hmem h') in Hwf', Hseg', Hk.
  destruct (taken_payloads KERNEL_HEAP_BASE pre sz size post) as (n&Hn&Hp). fold a in Hp.
  set (bs' := pre ++ taken sz size ++ post) in *.
  assert ((a + 16, n) ∈ payloads KERNEL_HEAP_BASE bs') as Hin by (rewrite Hp; by left).
  pose proof (payload_range _ _ _ _ _ _ _ Hseg' Hin) as Hr.
  assert (heap_end h' = KERNEL_HEAP_BASE + spans bs') as Hend'.
  { change (heap_end h') with (heap_end h). rewrite Hend. unfold bs'.
    rewrite !spans_app, taken_spans. simpl. lia. }
  assert (a ⊞ sizeof_kheap_block = a + 16) as ->.
  { apply u32_small. change (heap_end h') with (heap_end h) in Hend'. unfold KERNEL_HEAP_LIMIT in *.
    change KERNEL_HEAP_BASE with 4160749568 in *. unfold sizeof_kheap_block. lia. }
  split.
  - exists n, bs'. refine (conj _ (conj _ (conj _ (conj _ (conj _ (conj Hp _)))))).
    + destruct Hn; lia.
    + pose proof Hseg as [H1 _]%heap_seg_app. pose proof (spans_aligned _ _ _ _ _ H1).
      unfold a. change KERNEL_HEAP_BASE with 4160749568. word_lia.
    + lia.
    + lia.
    + split; try done.
      * unfold h'. simpl. rewrite Hhead. unfold bs', taken. destruct pre, (sz <? _); reflexivity.
      * by apply taken_coalesced.
    + intros q k Hq. by eapply (payloads_disjoint _ _ _ _ _ [] _ _ _ _ _ Hseg' Hp).
  - intros q k x Hq Hx. apply Hk; [by eapply payload_no_header|].
    eapply payload_no_header; [exact Hseg'| |exact Hx]. rewrite Hp. by right.
Qed.

(** One pass of the outer loop. *)
Lemma kmalloc_pass h bs size :
  heap_ok h bs → KHEAP_ALIGN ≤ size → size mod KHEAP_ALIGN = 0 →
  match find_fit (list_fuel h) (hmem h) (heap_head h) size with
  | Some block =>
      let h' := with_hmem (set_free block 0 (kheap_split_block block size (hmem h))) h in
      allocated h bs size (block ⊞ sizeof_kheap_block) h' ∧ keeps_payloads bs (hmem h) (hmem h')
  | None => ∀ sz, (sz, true) ∈ bs → sz < size
  end.
Proof.
  intros Hok Hsz Hal. pose proof Hok as [Hwf Hseg Hend Hlim Hhead Hco]. rewrite Hhead.
  assert (length bs < list_fuel h ∨ bs = [])%nat as Hfuel.
  { destruct bs as [|b bs]; [by right|left]. pose proof (heap_seg_spans _ _ _ _ _ Hseg).
    unfold list_fuel. rewrite Hend. simpl length in *. lia. }
  pose proof (find_fit_spec (hmem h) KERNEL_HEAP_BASE 0 bs size (list_fuel h) Hseg eq_refl Hfuel) as Hfit.
  destruct (find_fit _ _ _ _) as [block|]; [|exact Hfit].
  destruct Hfit as (pre&sz&post&->&Hle&->). by apply take_block.
Qed.

Lemma align_up_size_16 size :
  0 < size ≤ KMALLOC_MAX →
  let n := align_up_size size KHEAP_ALIGN in
  KHEAP_ALIGN ≤ n ∧ n mod KHEAP_ALIGN = 0 ∧ size ≤ n ≤ KMALLOC_MAX.
Proof.
  intros Hs n. unfold KMALLOC_MAX in *.
  assert (n = (size + 16 - 1) / 16 * 16) as ->.
  { unfold n, align_up_size. change KHEAP_ALIGN with (2 ^ 4). by rewrite align_mask by lia. }
  unfold KHEAP_ALIGN. word_lia.
Qed.

(** The outcome of [kmalloc] and of [kzalloc]. *)
Definition kmalloc_outcome (h : kheap) bs (size p : Z) (h' : kheap) : Prop :=
  kheap_ready h' = kheap_ready h ∧ keeps_payloads bs (hmem h) (hmem h') ∧
  (p = 0 ∧ heap_ok h' bs ∨ allocated h bs size p h').

Lemma kmalloc_outcome_holds h bs size :
  heap_ok h bs → truthy (kheap_ready h) = true → 0 < size ≤ KMALLOC_MAX →
  ∃ p h', kmalloc size h = Some (p, h') ∧ kmalloc_outcome h bs size p h'.
Proof.
  intros Hok Hrdy Hs. pose proof (align_up_size_16 size Hs) as (Hal&Hmod&Hle&Hmax). cbv zeta in *.
  unfold kmalloc. rewrite (proj2 (Z.eqb_neq size 0)) by lia. unfold truthy in Hrdy.
  apply negb_true_iff in Hrdy. rewrite Hrdy. bsimpl. set (n := align_up_size _ _) in *.
  assert (∀ bs0 h0 p0 h1, allocated h0 bs0 n p0 h1 → allocated h0 bs0 size p0 h1) as Hweak.
  { intros bs0 h0 p0 h1 (k&bs'&?&Hrest). exists k, bs'. split; [lia|exact Hrest]. }
  unfold KMALLOC_TURNS. cbn [kmalloc_loop]. pose proof (kmalloc_pass h bs n Hok Hal Hmod) as Hpass.
  destruct (find_fit (list_fuel h) _ _ _) as [block|].
  { destruct Hpass as [Ha Hk]. eexists _, _. split; [reflexivity|]. split; [done|].
    split; [exact Hk|]. right. by apply Hweak. }
  pose proof (kheap_expand_spec h bs n Hok ltac:(lia)) as (Hr&Hk&Hcase).
  destruct (kheap_expand n h) as [r h1]. cbn [fst snd] in *.
  destruct Hcase as [[-> Hok1]|(->&k&Hkn&Hok1)].
  { eexists _, _. split; [reflexivity|]. split; [done|]. split; [done|by left]. }
  change (truthy 0) with false. cbv iota. pose proof (kmalloc_pass h1 _ n Hok1 Hal Hmod) as Hpass1.
  destruct (find_fit (list_fuel h1) _ _ _) as [block|].
  - destruct Hpass1 as [Ha Hk1]. eexists _, _. split; [reflexivity|]. split; [exact Hr|].
    pose proof (sh_payloads _ _ _ (joined_same_heap KERNEL_HEAP_BASE bs k [])) as Hsp.
    rewrite payloads_app in Hsp. simpl in Hsp. rewrite app_nil_r in Hsp. split.
    + intros p l x Hin Hx. rewrite (Hk1 p l x); [by apply (Hk p l x)|rewrite Hsp; exact Hin|exact Hx].
    + right. apply Hweak. destruct Ha as (l&bs'&Ha). rewrite Hsp in Ha. exists l, bs'. exact Ha.
  - exfalso. destruct (joined_fit bs k) as (s&Hin&Hks).
    { intros s f Hin. pose proof (heap_seg_sizes _ _ _ _ _ _ _ (ho_seg _ _ Hok) Hin). lia. }
    apply Hpass1 in Hin. lia.
Qed.

End heap.

(** ** The contract of the heap *)

Section contract.
Implicit Types (h : kheap) (bs pre post : list (Z * bool)).

(** A payload in use belongs to one block of the list. *)
Lemma payload_block a bs p n :
  (p, n) ∈ payloads a bs → ∃ pre post, bs = pre ++ (n, false) :: post ∧ p = a + spans pre + 16.
Proof.
  revert a. induction bs as [|[sz f] bs IH]; intros a; simpl; [by intros ?%not_elem_of_nil|].
  intros [H|H]%elem_of_app.
  - destruct f; [by apply not_elem_of_nil in H|]. apply list_elem_of_singleton in H. injection H as -> ->.
    exists [], bs. split; [done|]. simpl. heap_unfold. lia.
  - destruct (IH _ H) as (pre&post&->&->). exists ((sz, f) :: pre), post. split; [done|].
    simpl. heap_unfold. lia.
Qed.

(** C9: [kmalloc] on a ready heap, for a request up to 64 MiB less one expansion,
    always returns within its two passes.  Either it returns null with the block
    list unchanged, or a 16-byte aligned payload of at least the requested size,
    inside the heap and disjoint from every payload in use; the payload set grows by
    exactly that one, the list stays well-linked, tiled and coalesced, and no byte of
    a payload in use changes. *)
Theorem kmalloc_spec h bs size :
  heap_ok h bs → truthy (kheap_ready h) = true → 0 < size ≤ KMALLOC_MAX →
  ∃ p h', kmalloc size h = Some (p, h') ∧ kmalloc_outcome h bs size p h'.
Proof. apply kmalloc_outcome_holds. Qed.

Lemma kfree_outcome h bs p n :
  heap_ok h bs → (p, n) ∈ payloads KERNEL_HEAP_BASE bs →
  ∃ bs', heap_ok (kfree p h) bs' ∧
  payloads KERNEL_HEAP_BASE bs ≡ₚ (p, n) :: payloads KERNEL_HEAP_BASE bs' ∧
  keeps_payloads bs' (hmem h) (hmem (kfree p h)).
Proof.
  intros [Hwf Hseg Hend Hlim Hhead Hco] Hin. pose proof (payload_range _ _ _ _ _ _ _ Hseg Hin) as Hr.
  destruct (payload_block _ _ _ _ Hin) as (pre&post&->&->). set (a := KERNEL_HEAP_BASE + spans pre) in *.
  unfold kfree, KERNEL_HEAP_LIMIT in *. assert (KERNEL_HEAP_BASE = 4160749568) as HB by done.
  rewrite (proj2 (Z.eqb_neq (a + 16) 0)) by lia.
  assert (a + 16 ⊟ sizeof_kheap_block = a) as ->.
  { unfold sizeof_kheap_block. rewrite u32_small by lia. lia. }
  pose proof (set_free_seg (hmem h) KERNEL_HEAP_BASE pre n false true post Hseg) as Hseg1. fold a in Hseg1.
  assert (spans (pre ++ (n, true) :: post) = spans (pre ++ (n, false) :: post)) as Hsp1
    by (rewrite !spans_app; done).
  destruct (coalesce_spec (set_free a 1 (hmem h)) KERNEL_HEAP_BASE pre n post) as (Hwf2&Hseg2&Hk2);
    [by apply store_le_wf|done|done|rewrite Hsp1; unfold KERNEL_HEAP_LIMIT; lia|].
  fold a in Hwf2, Hseg2, Hk2. pose proof (joined_same_heap KERNEL_HEAP_BASE pre n post) as [Hsp2 Hp2 _].
  exists (joined pre n post). refine (conj _ (conj _ _)).
  - split; cbn [hmem heap_end heap_head with_hmem]; try done.
    + lia.
    + rewrite Hhead. destruct (joined pre n post); [change (spans []) with 0 in Hsp2; lia|].
      by destruct pre.
    + apply joined_coalesced; [by eapply coalesced_app_l|].
      apply coalesced_app_r in Hco. simpl in Hco. destruct post as [|[??]?]; [done|by destruct Hco].
  - rewrite Hp2, !payloads_app. simpl. by rewrite <- Permutation_middle.
  - intros q k x Hq Hx. cbn [hmem with_hmem]. rewrite Hp2 in Hq.
    pose proof (payload_no_header _ _ _ _ _ _ _ _ Hseg1 Hq Hx) as Hnh. rewrite Hk2 by done.
    apply store32_other. rewrite in_header_app in Hnh. simpl in Hnh. fold a in Hnh.
    apply orb_false_iff in Hnh as [_ [Hnh%not_in_range _]%orb_false_iff]. heap_unfold. lia.
Qed.

(** [kfree] of any payload in use removes exactly that payload: the heap stays
    well-linked, tiled and coalesced, and no byte of another payload changes. *)
Theorem kfree_spec h bs p n :
  heap_ok h bs → (p, n) ∈ payloads KERNEL_HEAP_BASE bs →
  ∃ bs', heap_ok (kfree p h) bs' ∧
  payloads KERNEL_HEAP_BASE bs ≡ₚ (p, n) :: payloads KERNEL_HEAP_BASE bs' ∧
  keeps_payloads bs' (hmem h) (hmem (kfree p h)).
Proof. apply kfree_outcome. Qed.

Lemma kzalloc_outcome h bs size :
  heap_ok h bs → truthy (kheap_ready h) = true → 0 < size ≤ KMALLOC_MAX →
  ∃ p h', kzalloc size h = Some (p, h') ∧ kmalloc_outcome h bs size p h' ∧
  (p ≠ 0 → ∀ x, p ≤ x < p + size → hmem h' x = 0).
Proof.
  intros Hok Hrdy Hs. destruct (kmalloc_outcome_holds h bs size Hok Hrdy Hs) as (p&h1&E&Hr&Hk&Hcase).
  unfold kzalloc. rewrite E. eexists p, _. split; [reflexivity|].
  destruct Hcase as [[-> Hok1]|(n&bs1&Hn&Hal&Hlo&Hhi&Hok1&Hperm&Hdis)].
  { change (truthy 0) with false. cbv iota. split; [|done]. split; [done|]. split; [done|by left]. }
  assert (KERNEL_HEAP_BASE = 4160749568) as HB by done.
  unfold truthy. rewrite (proj2 (Z.eqb_neq p 0)) by lia. bsimpl. split.
  2:{ intros _ x Hx. cbn [hmem with_hmem]. by apply zero_bytes_in. }
  split; [done|]. split.
  - intros q k x Hq Hx. cbn [hmem with_hmem]. rewrite zero_bytes_out; [by apply (Hk q k x)|].
    apply Hdis in Hq. lia.
  - right. exists n, bs1. refine (conj Hn (conj Hal (conj Hlo (conj Hhi (conj _ (conj Hperm Hdis)))))).
    destruct Hok1 as [Hwf Hseg Hend Hlim Hhead Hco]. split; try done.
    + by apply zero_bytes_wf.
    + apply (heap_seg_headers (hmem h1)); [|exact Hseg]. intros x Hx. apply zero_bytes_out.
      destruct (decide (p ≤ x < p + n)) as [Hpx|]; [|lia].
      rewrite (payload_no_header _ _ _ _ _ p n x Hseg) in Hx; [done|rewrite Hperm; by left|done].
Qed.

(** [kzalloc] has the contract of [kmalloc], and the bytes requested are zero. *)
Theorem kzalloc_spec h bs size :
  heap_ok h bs → truthy (kheap_ready h) = true → 0 < size ≤ KMALLOC_MAX →
  ∃ p h', kzalloc size h = Some (p, h') ∧ kmalloc_outcome h bs size p h' ∧
  (p ≠ 0 → ∀ x, p ≤ x < p + size → hmem h' x = 0).
Proof. apply kzalloc_outcome. Qed.

(** The boot-time heap: one free block of four pages, or a heap that is not ready. *)
Lemma kheap_init_ok h :
  bytes_wf (hmem h) →
  kheap_ready (kheap_init h) = 0 ∧ heap_ok (kheap_init h) [] ∨
  kheap_ready (kheap_init h) = 1 ∧ ∃ n, PAGE_SIZE ≤ n ∧ heap_ok (kheap_init h) [(n, true)].
Proof.
  intros Hwf. unfold kheap_init. set (h0 := {| heap_head := 0 |}).
  assert (heap_ok h0 []) as Hok by (split; unfold h0; done).
  pose proof (kheap_expand_spec h0 [] PAGE_SIZE Hok ltac:(done)) as (Hr&_&Hcase).
  destruct (kheap_expand PAGE_SIZE h0) as [r h1]. cbn [fst snd] in *.
  destruct Hcase as [[-> Hok1]|(->&n&Hn&Hok1)]; [by left|right].
  change (truthy 0) with false. cbv iota. split; [done|]. exists n. split; [done|].
  destruct Hok1. by split.
Qed.

(** the size is rounded up in 32 bits: a request within 15 bytes of 4 GiB wraps
    to zero and is served with an empty payload from the first free block instead of
    being refused. *)
Theorem kmalloc_huge_succeeds h sz bs size :
  heap_ok h ((sz, true) :: bs) → truthy (kheap_ready h) = true → 32 ≤ sz →
  4294967281 ≤ size < 4294967296 →
  ∃ h', kmalloc size h = Some (KERNEL_HEAP_BASE + 16, h') ∧ blk_size (hmem h') KERNEL_HEAP_BASE = 0.
Proof.
  intros [Hwf Hseg Hend Hlim Hhead Hco] Hrdy Hsz Hs. pose proof (heap_seg_spans _ _ _ _ _ Hseg) as Hsp.
  assert (align_up_size size KHEAP_ALIGN = 0) as E.
  { unfold align_up_size, KHEAP_ALIGN.
    assert (size ⊞ 16 ⊟ 1 = size - 4294967281) as -> by word_lia.
    change (not32 (16 - 1)) with (4294967280). assert (0 ≤ size - 4294967281 < 2 ^ 4) as Hb by lia.
    change 4294967280 with (Z.shiftl 268435455 4). apply Z.bits_inj'. intros i Hi.
    rewrite Z.land_spec, Z.bits_0. destruct (Z_lt_le_dec i 4).
    - rewrite Z.shiftl_spec_low by done. apply andb_false_r.
    - rewrite <- (Z.mod_small _ _ Hb), Z.mod_pow2_bits_high by lia. done. }
  unfold kmalloc. rewrite E. unfold truthy in Hrdy. apply negb_true_iff in Hrdy. rewrite Hrdy.
  rewrite (proj2 (Z.eqb_neq size 0)) by lia. bsimpl. cbn [kmalloc_loop KMALLOC_TURNS].
  assert (∃ k, list_fuel h = S k) as [k Hfuel].
  { unfold list_fuel. rewrite Hend. simpl length in Hsp. exists (Z.to_nat (spans ((sz, true) :: bs) - 1)). lia. }
  pose proof Hseg as [[Hsize Hfree _ _] _]. rewrite Hfuel, Hhead. cbn [find_fit].
  change (KERNEL_HEAP_BASE =? 0) with false. rewrite Hsize, Hfree. change (free_word true =? 0) with false.
  rewrite (proj2 (Z.ltb_ge sz 0)) by lia. bsimpl. eexists. split; [reflexivity|].
  pose proof (split_block_eq (hmem h) KERNEL_HEAP_BASE [] sz bs 0 Hseg ltac:(done)
    ltac:(simpl app; lia) ltac:(lia) ltac:(lia)) as Hsplit.
  cbv zeta in Hsplit. change (KERNEL_HEAP_BASE + spans []) with KERNEL_HEAP_BASE in Hsplit.
  cbn [hmem with_hmem]. rewrite Hsplit. hdr. done.
Qed.

End contract.

(** ** A concrete heap *)

Definition w_heap : kheap :=
  {| hmem := set_free KERNEL_HEAP_BASE 1 (set_size KERNEL_HEAP_BASE 16368 (λ _, 0));
     heap_head := KERNEL_HEAP_BASE; heap_end := KERNEL_HEAP_BASE + 16384; committed_pages := 4;
     kheap_ready := 1; machine := w_vm |}.

Lemma w_heap_ok : heap_ok w_heap [(16368, true)].
Proof. split; try done. apply store_le_wf, store_le_wf. done. Qed.

(** [w_heap] after an allocation of 24 bytes. *)
Definition w_used : kheap :=
  with_hmem (set_free KERNEL_HEAP_BASE 0 (kheap_split_block KERNEL_HEAP_BASE 32 (hmem w_heap))) w_heap.

Lemma w_used_ok : heap_ok w_used [(32, false); (16320, true)].
Proof.
  split; try done.
  repeat apply store_le_wf. done.
Qed.

Lemma kmalloc_spec_witness :
  ∃ p h', kmalloc 24 w_heap = Some (p, h') ∧ p ≠ 0 ∧ kmalloc_outcome w_heap [(16368, true)] 24 p h'.
Proof.
  destruct (kmalloc_spec w_heap [(16368, true)] 24 w_heap_ok eq_refl ltac:(done)) as (p&h'&E&Ho).
  exists p, h'. split; [exact E|]. split; [|exact Ho].
  assert (fst <$> kmalloc 24 w_heap = Some (KERNEL_HEAP_BASE + 16)) as Hp by by vm_compute.
  rewrite E in Hp. injection Hp as ->. done.
Defined.

Lemma kfree_spec_witness :
  ∃ bs', heap_ok (kfree (KERNEL_HEAP_BASE + 16) w_used) bs' ∧
  [(KERNEL_HEAP_BASE + 16, 32)] ≡ₚ (KERNEL_HEAP_BASE + 16, 32) :: payloads KERNEL_HEAP_BASE bs' ∧
  keeps_payloads bs' (hmem w_used) (hmem (kfree (KERNEL_HEAP_BASE + 16) w_used)).
Proof. apply (kfree_spec w_used [(32, false); (16320, true)]); [apply w_used_ok|by left]. Defined.

Lemma kzalloc_spec_witness :
  ∃ p h', kzalloc 64 w_heap = Some (p, h') ∧ kmalloc_outcome w_heap [(16368, true)] 64 p h' ∧
  (p ≠ 0 → ∀ x, p ≤ x < p + 64 → hmem h' x = 0).
Proof. apply (kzalloc_spec w_heap [(16368, true)] 64 w_heap_ok eq_refl). done. Defined.

Lemma kmalloc_huge_succeeds_witness :
  ∃ h', kmalloc 4294967288 w_heap = Some (KERNEL_HEAP_BASE + 16, h') ∧
  blk_size (hmem h') KERNEL_HEAP_BASE = 0.
Proof. apply (kmalloc_huge_succeeds w_heap 16368 []); [apply w_heap_ok|done|lia|lia]. Defined.
