(* ===== verification/Kstack.v ===== *)
(** * Kernel stacks ([src/kernel/kstack.c])

    The stack region of the kernel's address space is cut into slots of three
    pages: a guard page that is never mapped and two data pages.  A bitmap records
    the slots in use.  Allocation takes two frames from the page allocator, clears
    them and maps them; the functions are modelled over the machine state of
    [Paging], and the theorems tie the bitmap to the page tables. *)

From S2P Require Import Prelude Bitmap Mem Palloc Paging PagingInit.

Local Open Scope Z_scope.
Local Open Scope c_scope.

Definition KSTACK_GUARD_PAGES : Z := 1.
Definition KSTACK_DATA_PAGES : Z := 2.
Definition KSTACK_SLOT_PAGES : Z := KSTACK_GUARD_PAGES + KSTACK_DATA_PAGES.
Definition KSTACK_SLOT_SIZE : Z := KSTACK_SLOT_PAGES * PAGE_SIZE.
Definition KSTACK_SLOT_COUNT : Z := (KERNEL_STACK_LIMIT - KERNEL_STACK_BASE) / KSTACK_SLOT_SIZE.

Record kernel_stack := { guard_base : Z; stack_base : Z; stack_top : Z }.

Record kstacks := {
  kstack_slots : carray Z;
  kstack_ready : Z;
  kstack_active_count : Z;
}.

Definition with_slots (b : carray Z) (k : kstacks) : kstacks :=
  {| kstack_slots := b; kstack_ready := kstack_ready k;
     kstack_active_count := kstack_active_count k |}.
Definition with_active (n : Z) (k : kstacks) : kstacks :=
  {| kstack_slots := kstack_slots k; kstack_ready := kstack_ready k; kstack_active_count := n |}.

(** [kstack_clear] writes through the pointer when there is one. *)
Definition kstack_clear (stack : option kernel_stack) : option kernel_stack :=
  match stack with
  | None => None
  | Some _ => Some {| guard_base := 0; stack_base := 0; stack_top := 0 |}
  end.

Definition kstack_slot_guard_base (slot_index : Z) : Z :=
  KERNEL_STACK_BASE ⊞ (slot_index ⊠ KSTACK_SLOT_SIZE).
Definition kstack_slot_stack_base (slot_index : Z) : Z :=
  kstack_slot_guard_base slot_index ⊞ (KSTACK_GUARD_PAGES * PAGE_SIZE).
Definition kstack_slot_stack_top (slot_index : Z) : Z :=
  kstack_slot_stack_base slot_index ⊞ (KSTACK_DATA_PAGES * PAGE_SIZE).

Definition slot_used (k : kstacks) (slot_index : Z) : bool := bm_test 8 (kstack_slots k) slot_index.

Definition kstack_slot_mark_used (slot_index : Z) (k : kstacks) : Z * kstacks :=
  if slot_used k slot_index then (-1, k)
  else (0, with_slots (bm_set 8 (kstack_slots k) slot_index) k).

Definition kstack_slot_mark_free (slot_index : Z) (k : kstacks) : kstacks :=
  with_slots (bm_clear 8 (kstack_slots k) slot_index) k.

(** The slot found; [None] for the -1 return. *)
Definition kstack_find_slot (k : kstacks) : option Z :=
  for_find 0 KSTACK_SLOT_COUNT (λ index, negb (slot_used k index)).

Definition kstack_slot_index_from_guard (guard : Z) : option Z :=
  if (guard <? KERNEL_STACK_BASE) || (KERNEL_STACK_LIMIT <=? guard) then None
  else
    let offset := guard - KERNEL_STACK_BASE in
    if truthy (offset mod KSTACK_SLOT_SIZE) then None
    else
      let slot_index := offset / KSTACK_SLOT_SIZE in
      if KSTACK_SLOT_COUNT <=? slot_index then None else Some slot_index.

Definition kstack_init (k : kstacks) : kstacks :=
  {| kstack_slots := zero_bytes (kstack_slots k) 0 ((KSTACK_SLOT_COUNT + 7) / 8);
     kstack_ready := 1; kstack_active_count := 0 |}.

(** [palloc_free_page] on each page of a list, in order. *)
Fixpoint free_pages (pages : list Z) (v : vm) : vm :=
  match pages with
  | [] => v
  | p :: rest => free_pages rest (with_frames (palloc_free_page p (frames v)) v)
  end.

(** The allocation loop of [kstack_alloc], [n] pages to go: [None] when it ran out
    of frames and gave back the [physical_pages] taken so far. *)
Fixpoint alloc_stack_pages (n : nat) (physical_pages : list Z) (v : vm) : option (list Z) * vm :=
  match n with
  | O => (Some physical_pages, v)
  | S n =>
      let '(page, v) := paging_alloc_page v in
      if page =? 0 then (None, free_pages physical_pages v)
      else alloc_stack_pages n (physical_pages ++ [page]) (zero_page page v)
  end.

Definition kstack_alloc (stack : option kernel_stack) (k : kstacks) (v : vm)
    : Z * option kernel_stack * kstacks * vm :=
  match stack with
  | None => (-1, None, k, v)
  | Some _ =>
      if kstack_ready k =? 0 then (-1, stack, k, v)
      else
        let directory_phys := paging_current_directory_phys v in
        let stack := kstack_clear stack in
        match kstack_find_slot k with
        | None => (-1, stack, k, v)
        | Some slot_index =>
            let '(r, k) := kstack_slot_mark_used slot_index k in
            if truthy r then (-1, stack, k, v)
            else
              match alloc_stack_pages (Z.to_nat KSTACK_DATA_PAGES) [] v with
              | (None, v) => (-1, stack, kstack_slot_mark_free slot_index k, v)
              | (Some pages, v) =>
                  let '(r, v) := paging_map_pages_in directory_phys
                                   (kstack_slot_stack_base slot_index) (Some pages) PAGE_WRITABLE v in
                  if truthy r
                  then (-1, stack, kstack_slot_mark_free slot_index k, free_pages pages v)
                  else (0, Some {| guard_base := kstack_slot_guard_base slot_index;
                                   stack_base := kstack_slot_stack_base slot_index;
                                   stack_top := kstack_slot_stack_top slot_index |},
                        with_active (kstack_active_count k ⊞ 1) k, v)
              end
        end
  end.

(** One turn of the release loop of [kstack_free]. *)
Definition release_stack_page (directory_phys base index : Z) (v : vm) : vm :=
  let virtual_address := base ⊞ (index ⊠ PAGE_SIZE) in
  let physical_page := paging_resolve_physical_in directory_phys virtual_address v in
  if truthy physical_page then
    let v := paging_unmap_page_in directory_phys virtual_address v in
    with_frames (palloc_free_page physical_page (frames v)) v
  else v.

Definition kstack_free (stack : option kernel_stack) (k : kstacks) (v : vm)
    : option kernel_stack * kstacks * vm :=
  match stack with
  | None => (None, k, v)
  | Some st =>
      if guard_base st =? 0 then (stack, k, v)
      else
        let directory_phys := paging_current_directory_phys v in
        match kstack_slot_index_from_guard (guard_base st) with
        | None => (kstack_clear stack, k, v)
        | Some slot_index =>
            let v := for_range 0 KSTACK_DATA_PAGES
                       (release_stack_page directory_phys (stack_base st)) v in
            let v := paging_unmap_page_in directory_phys (guard_base st) v in
            let k := if truthy (kstack_active_count k)
                     then with_active (kstack_active_count k - 1) k else k in
            (kstack_clear stack, kstack_slot_mark_free slot_index k, v)
        end
  end.

Definition kstack_is_guard_address (virtual_address : Z) : Z :=
  if (virtual_address <? KERNEL_STACK_BASE) || (KERNEL_STACK_LIMIT <=? virtual_address) then 0
  else
    let offset := virtual_address - KERNEL_STACK_BASE in
    if offset mod KSTACK_SLOT_SIZE <? KSTACK_GUARD_PAGES * PAGE_SIZE then 1 else 0.

(** ** The pages behind the slots *)

(** The pages of the stack region, numbered from its base. *)
Definition STACK_PAGES : Z := KSTACK_SLOT_COUNT * KSTACK_SLOT_PAGES.
Definition stack_page (n : Z) : Z := KERNEL_STACK_BASE + n * PAGE_SIZE.

(** A frame with one reference that is no part of the page tables. *)
Record private_frame (v : vm) (dir p : Z) : Prop := {
  pf_held : held v p;
  pf_one : frame_refs (frames v) (p / PAGE_SIZE) = 1;
  pf_dir : p ≠ dir;
  pf_table : ∀ i, 0 ≤ i < RECURSIVE_DIRECTORY_INDEX →
    present (entry_at (pmem v) dir i) = true → table_of v dir i ≠ p;
}.

(** Page [n] of the region is mapped writable to the frame [f n], or not mapped;
    these frames and the frames in [loose], which are allocated and not mapped yet,
    are all different and nobody else's. *)
Record backing (f : carray (option Z)) (loose : list Z) (v : vm) (dir : Z) : Prop := {
  bk_vm : vm_ok v;
  bk_space : space_ok v dir;
  bk_tables : ∀ i, STACK_DIRECTORY_INDEX_START ≤ i < STACK_DIRECTORY_INDEX_END →
    present (entry_at (pmem v) dir i) = true ∧ own_table v dir i;
  bk_pages : ∀ n, 0 ≤ n < STACK_PAGES →
    paging_lookup_page_in dir (stack_page n) v = (λ p, (p, PAGE_FLAGS)) <$> f n;
  bk_frames : ∀ n p, 0 ≤ n < STACK_PAGES → f n = Some p → private_frame v dir p ∧ p ∉ loose;
  bk_loose : ∀ p, p ∈ loose → private_frame v dir p;
  bk_nodup : NoDup loose;
  bk_inj : ∀ n m p, 0 ≤ n < STACK_PAGES → 0 ≤ m < STACK_PAGES →
    f n = Some p → f m = Some p → n = m;
}.

(** Translations below the stack region are kept. *)
Definition kept_below (dir : Z) (v v' : vm) : Prop :=
  ∀ va, 0 ≤ va < KERNEL_STACK_BASE →
    paging_lookup_page_in dir va v' = paging_lookup_page_in dir va v.

Section backing.
Implicit Types (f : carray (option Z)) (loose : list Z) (v : vm) (dir p n : Z).

Lemma stack_page_facts n :
  0 ≤ n < STACK_PAGES →
  is_u32 (stack_page n) ∧ stack_page n mod PAGE_SIZE = 0 ∧
  STACK_DIRECTORY_INDEX_START ≤ page_directory_index (stack_page n) < STACK_DIRECTORY_INDEX_END ∧
  stack_page n / PAGE_SIZE = KERNEL_STACK_BASE / PAGE_SIZE + n.
Proof.
  change STACK_PAGES with 15360. intros Hn. unfold stack_page.
  assert (is_u32 (KERNEL_STACK_BASE + n * PAGE_SIZE)) as Hu
    by (unfold is_u32, KERNEL_STACK_BASE, PAGE_SIZE; lia).
  rewrite (proj1 (page_indices _ Hu)).
  change STACK_DIRECTORY_INDEX_START with 1008. change STACK_DIRECTORY_INDEX_END with 1023.
  unfold KERNEL_STACK_BASE, PAGE_TABLE_SPAN, PAGE_TABLE_ENTRIES, PAGE_SIZE in *.
  split_and!; [done|word_lia..].
Qed.

(** Below the region is another page, and not under the recursive entry. *)
Lemma below_region va n :
  0 ≤ va < KERNEL_STACK_BASE → 0 ≤ n < STACK_PAGES →
  is_u32 va ∧ page_directory_index va < RECURSIVE_DIRECTORY_INDEX ∧
  va / PAGE_SIZE ≠ stack_page n / PAGE_SIZE.
Proof.
  intros Hva Hn. destruct (stack_page_facts n Hn) as (_&_&_&->).
  assert (is_u32 va) as Hu by (unfold is_u32, KERNEL_STACK_BASE in *; lia).
  rewrite (proj1 (page_indices _ Hu)).
  unfold KERNEL_STACK_BASE, PAGE_TABLE_SPAN, PAGE_TABLE_ENTRIES, PAGE_SIZE, RECURSIVE_DIRECTORY_INDEX in *.
  split_and!; [done|word_lia..].
Qed.

Lemma private_ext v v' dir p :
  (∀ j, 0 ≤ j < 1024 → entry_at (pmem v') dir j = entry_at (pmem v) dir j) →
  held v' p → frame_refs (frames v') (p / PAGE_SIZE) = frame_refs (frames v) (p / PAGE_SIZE) →
  private_frame v dir p → private_frame v' dir p.
Proof.
  intros He Hh Hr [_ H1 Hd Ht]. split; [done|congruence|done|].
  intros i Hi Hp. unfold table_of. unfold RECURSIVE_DIRECTORY_INDEX in Hi.
  rewrite He in * by lia. by apply Ht.
Qed.

Lemma own_table_ext v v' dir i :
  (∀ j, 0 ≤ j < 1024 → entry_at (pmem v') dir j = entry_at (pmem v) dir j) →
  0 ≤ i < RECURSIVE_DIRECTORY_INDEX → own_table v dir i → own_table v' dir i.
Proof.
  unfold own_table, table_of, RECURSIVE_DIRECTORY_INDEX. intros He Hi Ho Hp j Hj Hne.
  rewrite !He in * by lia. by apply Ho.
Qed.

Lemma stack_tables_range i :
  STACK_DIRECTORY_INDEX_START ≤ i < STACK_DIRECTORY_INDEX_END → 0 ≤ i < RECURSIVE_DIRECTORY_INDEX.
Proof.
  change STACK_DIRECTORY_INDEX_START with 1008. change STACK_DIRECTORY_INDEX_END with 1023.
  change RECURSIVE_DIRECTORY_INDEX with 1023. lia.
Qed.

(** Distinct held frames are distinct frame numbers. *)
Lemma held_frames_ne v v' p q : held v p → held v' q → p ≠ q → p / PAGE_SIZE ≠ q / PAGE_SIZE.
Proof.
  intros Hp%held_aligned Hq%held_aligned Hne. unfold PAGE_SIZE in *. word_lia.
Qed.

(** What a step that only touches frame [p0] keeps. *)
Lemma space_keep v v' dir p0 :
  space_ok v dir → (∀ j, 0 ≤ j < 1024 → entry_at (pmem v') dir j = entry_at (pmem v) dir j) →
  (∀ q, held v q → q ≠ p0 → held v' q) → p0 ≠ dir →
  (∀ i, 0 ≤ i < RECURSIVE_DIRECTORY_INDEX → present (entry_at (pmem v) dir i) = true →
     table_of v dir i ≠ p0) →
  space_ok v' dir.
Proof.
  intros [Hd Ht] He Hh Hpd Hpt. split; [by apply Hh|].
  intros i Hi. unfold table_of. unfold RECURSIVE_DIRECTORY_INDEX in *. rewrite He by lia.
  intros Hp. destruct (Ht i Hi Hp) as [Hti Htd]. split; [|done]. apply Hh; [done|]. by apply Hpt.
Qed.

Lemma backing_keep f loose v v' dir p0 :
  backing f loose v dir → vm_ok v' →
  (∀ j, 0 ≤ j < 1024 → entry_at (pmem v') dir j = entry_at (pmem v) dir j) →
  (∀ n, 0 ≤ n < STACK_PAGES →
     paging_lookup_page_in dir (stack_page n) v' = paging_lookup_page_in dir (stack_page n) v) →
  (∀ q, held v q → q ≠ p0 →
     held v' q ∧ frame_refs (frames v') (q / PAGE_SIZE) = frame_refs (frames v) (q / PAGE_SIZE)) →
  p0 ≠ dir →
  (∀ i, 0 ≤ i < RECURSIVE_DIRECTORY_INDEX → present (entry_at (pmem v) dir i) = true →
     table_of v dir i ≠ p0) →
  (∀ n, 0 ≤ n < STACK_PAGES → f n ≠ Some p0) → p0 ∉ loose →
  backing f loose v' dir.
Proof.
  intros [Hvm Hsp Htab Hpg Hfr Hlo Hnd Hinj] Hvm' He Hlk Hh Hpd Hpt Hpf Hpl.
  assert (∀ q, q ≠ p0 → private_frame v dir q → private_frame v' dir q) as Hpriv.
  { intros q Hq Hp. pose proof (pf_held _ _ _ Hp) as Hqh. destruct (Hh q Hqh Hq).
    by eapply private_ext. }
  split; try done.
  - eapply space_keep; [exact Hsp|done| |done|done]. intros q Hq Hne. by apply Hh.
  - intros i Hi. destruct (Htab i Hi). pose proof (stack_tables_range i Hi) as Hr.
    split; [|by eapply own_table_ext]. unfold RECURSIVE_DIRECTORY_INDEX in Hr. by rewrite He by lia.
  - intros n Hn. rewrite Hlk by done. by apply Hpg.
  - intros n p Hn Hf. destruct (Hfr n p Hn Hf). split; [|done]. apply Hpriv; [|done].
    intros ->. by apply (Hpf n).
  - intros p Hp. apply Hpriv; [congruence|by apply Hlo].
Qed.

(** Taking a frame and clearing it. *)
Lemma backing_alloc f loose v dir :
  backing f loose v dir →
  (free_frames (frames v) = 0 ∧ paging_alloc_page v = (0, v)) ∨
  ∃ p v1, let v' := zero_page p v1 in
    paging_alloc_page v = (p, v1) ∧ p ≠ 0 ∧ backing f (p :: loose) v' dir ∧
    allocates (frames v) p (frames v') ∧ cr3 v' = cr3 v ∧ kept_below dir v v' ∧
    ¬ held v p ∧ (∀ q, held v q → held v' q) ∧
    ∀ b, pmem v' b = if decide (b / PAGE_SIZE * PAGE_SIZE = p) then 0 else pmem v b.
Proof.
  intros Hb. pose proof Hb as [Hvm Hsp Htab Hpg Hfr Hlo Hnd Hinj].
  destruct (alloc_cases v Hvm) as [?|(p&v1&E&Ha&Hv1&Hok1&Hh1&Hnh&Hheld)]; [by left|right].
  exists p, v1. cbv zeta. pose proof (held_aligned _ _ Hh1) as Hal. pose proof Hh1 as (Hpu&Hp0&_).
  assert (pmem v1 = pmem v) as Epm by (by rewrite Hv1).
  assert (∀ b, b / PAGE_SIZE * PAGE_SIZE ≠ p → pmem (zero_page p v1) b = pmem v b) as Hout.
  { intros b Hbp. rewrite zero_page_outside by done. by rewrite Epm. }
  assert (∀ q, held v q → q ≠ p) as Hneq by (intros q Hq ->; done).
  assert (vm_ok (zero_page p v1)) as Hvm'.
  { split; [apply zero_bytes_wf|]; apply Hok1. }
  assert (∀ t j, held v t → 0 ≤ j < 1024 →
    entry_at (pmem (zero_page p v1)) t j = entry_at (pmem v) t j) as He.
  { intros t j Ht Hj. apply entry_ext; [by apply (held_aligned v)|done|].
    intros b Hbt. apply Hout. rewrite Hbt. by apply Hneq. }
  pose proof (space_dir _ _ Hsp) as Hdir. pose proof Hdir as (_&Hd0&_).
  assert (∀ va, is_u32 va → page_directory_index va < RECURSIVE_DIRECTORY_INDEX →
    paging_lookup_page_in dir va (zero_page p v1) = paging_lookup_page_in dir va v) as Hlk.
  { intros va Hva Hlt. pose proof (page_indices_range va Hva) as [Hr1 Hr2].
    apply lookup_same; [apply Hvm|apply Hvm'|lia|by apply He|].
    intros Hp. apply He; [|done]. apply (space_tables v dir Hsp); [lia|done]. }
  assert (∀ q, held v q → q ≠ p → held (zero_page p v1) q ∧
    frame_refs (frames v1) (q / PAGE_SIZE) = frame_refs (frames v) (q / PAGE_SIZE)) as Hq.
  { intros q Hq Hne. split; [by apply Hheld|]. destruct Ha as (g&Hg&_&_&_&_&_&Hrefs&_).
    apply Hrefs. pose proof (held_frames_ne _ _ _ _ Hq Hh1 Hne) as Hx.
    rewrite Hg, Z.div_mul in Hx by done. done. }
  assert (backing f loose (zero_page p v1) dir) as Hb'.
  { apply (backing_keep f loose v _ dir p Hb); try done.
    - intros j Hj. by apply He.
    - intros n Hn. destruct (stack_page_facts n Hn) as (?&_&?&_). apply Hlk; [done|].
      apply (stack_tables_range (page_directory_index (stack_page n))). lia.
    - intros ->. done.
    - intros i Hi Hpi Ht. apply Hnh. rewrite <- Ht. by apply (space_tables v dir Hsp).
    - intros n Hn Hf. destruct (Hfr n p Hn Hf) as [[Hx _ _ _] _]. done.
    - intros Hpl. by destruct (Hlo p Hpl). }
  split_and!; try done; [lia| |by rewrite Hv1|..].
  - destruct Hb' as [H1 H2 H3 H4 H5 H6 H7 H8]. split; try done.
    + intros n q Hn Hf. destruct (H5 n q Hn Hf) as [? Hnl]. split; [done|].
      rewrite not_elem_of_cons. split; [|done]. destruct (Hfr n q Hn Hf) as [[Hx _ _ _] _]. by apply Hneq.
    + intros q [->|Hql]%elem_of_cons; [|by apply H6]. split; [done| |by intros ->|].
      * destruct Ha as (g&->&_&_&Hr&_). by rewrite Z.div_mul.
      * intros i Hi Hpi Ht. apply Hnh. rewrite <- Ht. unfold table_of.
        rewrite He in * by (done || (unfold RECURSIVE_DIRECTORY_INDEX in Hi; lia)).
        by apply (space_tables v dir Hsp).
    + apply NoDup_cons. split; [|done]. intros Hpl. by destruct (Hlo p Hpl).
  - intros va Hva. destruct (below_region va 0 Hva ltac:(done)) as (?&?&_). by apply Hlk.
  - intros b. case_decide as Hbp; [|by apply Hout].
    apply zero_bytes_in. unfold PAGE_SIZE in *. word_lia.
Qed.

(** Mapping a loose frame. *)
Lemma backing_map f p loose v dir n :
  backing f (p :: loose) v dir → 0 ≤ n < STACK_PAGES → f n = None →
  ∃ v', paging_map_page_in dir (stack_page n) p PAGE_WRITABLE v = (0, v') ∧
    backing (<[n:=Some p]> f) loose v' dir ∧ frames v' = frames v ∧ cr3 v' = cr3 v ∧
    kept_below dir v v' ∧
    ∀ q b, private_frame v dir q → b / PAGE_SIZE * PAGE_SIZE = q → pmem v' b = pmem v b.
Proof.
  intros [Hvm Hsp Htab Hpg Hfr Hlo Hnd Hinj] Hn Hfn.
  destruct (stack_page_facts n Hn) as (Hu&Hal&Hdi&Hpn).
  pose proof (stack_tables_range _ Hdi) as Hdr. destruct (Htab _ Hdi) as [Hpres Hown].
  pose proof (Hlo p ltac:(by left)) as Hp. pose proof (pf_held _ _ _ Hp) as Hph.
  pose proof Hph as (Hpu&_&_). pose proof (held_aligned _ _ Hph) as Hpa.
  destruct (map_page_cases v dir (stack_page n) p PAGE_WRITABLE) as [[Href _]|(_&_&s1&Hprep&E)];
    [done..|lia| |].
  { exfalso. destruct Href as [?|[?|[[Hx _]|[Hx _]]]]; [done|done|congruence|done]. }
  assert (0 ≤ PAGE_WRITABLE < PAGE_SIZE) as Hfl by done.
  pose proof (store_maps v dir (stack_page n) p PAGE_WRITABLE s1 Hvm Hsp Hu ltac:(lia) Hown Hpu Hpa
    Hfl Hprep) as Hm.
  eexists. split; [exact E|]. set (v' := set_entry _ _ _ s1) in *.
  pose proof (maps_table _ _ _ _ _ _ Hm) as Ht. rewrite Hpres in Ht. destruct Ht as [Ht Hframes].
  assert (∀ i, 0 ≤ i < RECURSIVE_DIRECTORY_INDEX → present (entry_at (pmem v') dir i) = true →
    present (entry_at (pmem v) dir i) = true ∧ table_of v' dir i = table_of v dir i) as Htabs.
  { intros i Hi Hpi. destruct (decide (i = page_directory_index (stack_page n))) as [->|Hne]; [done|].
    unfold RECURSIVE_DIRECTORY_INDEX in Hi. unfold table_of.
    rewrite (maps_dir _ _ _ _ _ _ Hm) in * by (done || lia). done. }
  assert (∀ q, private_frame v dir q → private_frame v' dir q) as Hpriv.
  { intros q [H1 H2 H3 H4]. split; [|by rewrite Hframes|done|].
    - by apply (maps_held _ _ _ _ _ _ Hm).
    - intros i Hi Hpi. destruct (Htabs i Hi Hpi) as [? ->]. by apply H4. }
  assert (∀ m, 0 ≤ m < STACK_PAGES → m ≠ n →
    paging_lookup_page_in dir (stack_page m) v' = paging_lookup_page_in dir (stack_page m) v) as Hlk.
  { intros m Hmr Hne. destruct (stack_page_facts m Hmr) as (Hmu&_&Hmi&Hmp).
    pose proof (stack_tables_range _ Hmi). apply (maps_others _ _ _ _ _ _ Hm); [done|lia|lia]. }
  apply NoDup_cons in Hnd as [Hpl Hnd].
  assert (∀ m, 0 ≤ m < STACK_PAGES → f m ≠ Some p) as Hpf.
  { intros m Hmr Hf. destruct (Hfr m p Hmr Hf) as [_ Hx]. apply Hx. by left. }
  split_and!; [|done|apply Hm| |].
  - split; [apply Hm|apply Hm| | | | |done|].
    + intros i Hi. pose proof (stack_tables_range i Hi) as Hir. destruct (Htab i Hi). split.
      * destruct (decide (i = page_directory_index (stack_page n))) as [->|Hne].
        { pose proof (maps_page _ _ _ _ _ _ Hm) as Hpage.
          pose proof (space_dir _ _ Hsp) as (_&?&_).
          apply lookup_Some in Hpage; [apply Hpage|apply Hm|lia]. }
        { unfold RECURSIVE_DIRECTORY_INDEX in Hir. by rewrite (maps_dir _ _ _ _ _ _ Hm) by (done || lia). }
      * by apply (maps_own _ _ _ _ _ _ Hm).
    + intros m Hmr. rewrite arr_get_set. case_decide as Hnm.
      * subst m. rewrite (maps_page _ _ _ _ _ _ Hm). done.
      * rewrite Hlk by done. by apply Hpg.
    + intros m q Hmr. rewrite arr_get_set. case_decide as Hnm.
      * intros [= <-]. split; [by apply Hpriv|done].
      * intros Hf. destruct (Hfr m q Hmr Hf) as [? Hx]. split; [by apply Hpriv|].
        intros ?. apply Hx. by right.
    + intros q Hq. apply Hpriv, Hlo. by right.
    + intros m1 m2 q Hm1 Hm2. rewrite !arr_get_set.
      case_decide as D1; case_decide as D2; [by subst|..].
      * intros [= <-] Hf. by destruct (Hpf m2).
      * intros Hf [= <-]. by destruct (Hpf m1).
      * by apply Hinj.
  - intros va Hva. destruct (below_region va n Hva Hn) as (?&?&?). by apply (maps_others _ _ _ _ _ _ Hm).
  - intros q b Hq <-. apply (maps_outside _ _ _ _ _ _ Hm); [apply (pf_dir _ _ _ Hq)|].
    rewrite Ht. intros Hx. by apply (pf_table _ _ _ Hq (page_directory_index (stack_page n))).
Qed.

(** Unmapping a page: its frame, when it had one, is loose again. *)
Lemma backing_unmap f loose v dir n :
  backing f loose v dir → 0 ≤ n < STACK_PAGES →
  let v' := paging_unmap_page_in dir (stack_page n) v in
  backing (<[n:=None]> f) (match f n with Some p => p :: loose | None => loose end) v' dir ∧
  frames v' = frames v ∧ kept_below dir v v'.
Proof.
  intros [Hvm Hsp Htab Hpg Hfr Hlo Hnd Hinj] Hn. cbv zeta.
  destruct (stack_page_facts n Hn) as (Hu&Hal&Hdi&Hpn).
  pose proof (stack_tables_range _ Hdi) as Hdr. destruct (Htab _ Hdi) as [Hpres Hown].
  destruct (unmap_cases v dir (stack_page n) Hvm Hsp Hu Hal ltac:(lia) Hown)
    as (Hvm'&Hsp'&Hframes&He&Hnone&Hother&_).
  set (v' := paging_unmap_page_in _ _ _) in *.
  assert (∀ q, private_frame v dir q → private_frame v' dir q) as Hpriv.
  { intros q Hq. eapply private_ext; [exact He| |by rewrite Hframes|exact Hq].
    destruct (pf_held _ _ _ Hq) as (?&?&?). unfold held. by rewrite Hframes. }
  split_and!; [|done|].
  - split; try done.
    + intros i Hi. pose proof (stack_tables_range i Hi) as Hir. destruct (Htab i Hi).
      split; [|by eapply own_table_ext]. unfold RECURSIVE_DIRECTORY_INDEX in Hir. by rewrite He by lia.
    + intros m Hmr. rewrite arr_get_set. case_decide as Hnm; [by subst|].
      destruct (stack_page_facts m Hmr) as (Hmu&_&Hmi&Hmp). pose proof (stack_tables_range _ Hmi).
      rewrite Hother by (done || lia). by apply Hpg.
    + intros m q Hmr. rewrite arr_get_set. case_decide as Hnm; [done|]. intros Hf.
      destruct (Hfr m q Hmr Hf) as [? Hx]. split; [by apply Hpriv|].
      destruct (f n) as [p|] eqn:Hfn; [|done]. rewrite not_elem_of_cons. split; [|done].
      intros ->. apply Hnm. by apply (Hinj n m p).
    + intros q Hq. apply Hpriv. destruct (f n) as [p|] eqn:Hfn; [|by apply Hlo].
      apply elem_of_cons in Hq as [->|Hq]; [by apply (Hfr n)|by apply Hlo].
    + destruct (f n) as [p|] eqn:Hfn; [|done]. apply NoDup_cons. split; [by apply (Hfr n)|done].
    + intros m1 m2 q Hm1 Hm2. rewrite !arr_get_set. case_decide; [done|]. case_decide; [done|].
      by apply Hinj.
  - intros va Hva. destruct (below_region va n Hva Hn) as (?&?&?). by apply Hother.
Qed.

(** Giving a loose frame back. *)
Lemma backing_free f p loose v dir :
  backing f (p :: loose) v dir →
  let v' := with_frames (palloc_free_page p (frames v)) v in
  backing f loose v' dir ∧
  ∀ g, frame_refs (frames v') g = if p / PAGE_SIZE =? g then 0 else frame_refs (frames v) g.
Proof.
  intros [Hvm Hsp Htab Hpg Hfr Hlo Hnd Hinj]. cbv zeta.
  pose proof (Hlo p ltac:(by left)) as Hp. pose proof (pf_held _ _ _ Hp) as Hph.
  pose proof Hph as (Hpu&Hp0&Hlive).
  pose proof Hvm as [Hbytes Hpok]. pose proof Hpok as [Hinv _].
  pose proof (free_page_cases (frames v) p Hinv ltac:(lia)) as Hd. rewrite Hlive in Hd.
  destruct Hd as (Hrefs&_&Hlim&Hinv'). apply NoDup_cons in Hnd as [Hpl Hnd].
  assert (backing f loose v dir) as Hb.
  { split; try done.
    - intros m q Hmr Hf. destruct (Hfr m q Hmr Hf) as [? Hx]. split; [done|].
      intros ?. apply Hx. by right.
    - intros q Hq. apply Hlo. by right. }
  split.
  - apply (backing_keep f loose v _ dir p Hb); try done.
    + split; [done|]. cbn [frames with_frames]. by apply free_page_ok.
    + intros q Hq Hne. pose proof (held_frames_ne _ _ _ _ Hph Hq ltac:(done)) as Hfne.
      assert (frame_refs (palloc_free_page p (frames v)) (q / PAGE_SIZE)
              = frame_refs (frames v) (q / PAGE_SIZE)) as Hsame.
      { rewrite Hrefs. by rewrite (proj2 (Z.eqb_neq _ _)). }
      split; [|exact Hsame]. destruct Hq as (Hqu&Hq0&Hql). split_and!; [done..|].
      cbn [frames with_frames]. pose proof (live_page_refs (frames v) q) as Hlr.
      unfold live_page in Hql |- *. rewrite Hlim. zbool.
      rewrite H, Z.eqb_refl, (proj2 (Z.ltb_lt _ _)) by done. bsimpl.
      pose proof (inv_refs _ Hinv (q / PAGE_SIZE)) as Hir. unfold frame_refs in Hsame.
      destruct (frame_is_used (palloc_free_page p (frames v)) (q / PAGE_SIZE)); [done|].
      pose proof (inv_limit _ Hinv). rewrite H0 in *.
      assert (0 ≤ q / PAGE_SIZE) by (unfold is_u32, PAGE_SIZE in *; word_lia). lia.
    + apply (pf_dir _ _ _ Hp).
    + apply (pf_table _ _ _ Hp).
    + intros m Hmr Hf. destruct (Hfr m p Hmr Hf) as [_ Hx]. apply Hx. by left.
  - intros g. cbn [frames with_frames]. rewrite Hrefs. pose proof (pf_one _ _ _ Hp) as H1.
    destruct (Z.eqb_spec (p / PAGE_SIZE) g) as [<-|]; lia.
Qed.

End backing.

(** ** The invariant of the stack allocator *)

(** The bitmap says which pages are mapped: both data pages of a slot in use, no
    page of a free slot and no guard page. *)
Record stacks_ok (k : kstacks) (v : vm) (f : carray (option Z)) : Prop := {
  so_backing : backing f [] v (cr3 v);
  so_ready : kstack_ready k = 1;
  so_bits : bm_wf 8 (kstack_slots k);
  so_slots : ∀ i j, 0 ≤ i < KSTACK_SLOT_COUNT → 0 ≤ j < KSTACK_SLOT_PAGES →
    (is_Some (f (3 * i + j)) ↔ 0 < j ∧ slot_used k i = true);
  so_count : kstack_active_count k = count_range 0 KSTACK_SLOT_COUNT (slot_used k);
}.

Section stacks.
Implicit Types (k : kstacks) (v : vm) (f : carray (option Z)) (i : Z).

Lemma slot_addresses i :
  0 ≤ i < KSTACK_SLOT_COUNT →
  kstack_slot_guard_base i = stack_page (3 * i) ∧
  kstack_slot_stack_base i = stack_page (3 * i + 1) ∧
  kstack_slot_stack_top i = stack_page (3 * i + 3) ∧
  0 ≤ 3 * i ∧ 3 * i + 2 < STACK_PAGES.
Proof.
  change KSTACK_SLOT_COUNT with 5120. change STACK_PAGES with 15360. intros Hi.
  assert (kstack_slot_guard_base i = stack_page (3 * i)) as E1.
  { unfold kstack_slot_guard_base, stack_page, KERNEL_STACK_BASE.
    change KSTACK_SLOT_SIZE with 12288. unfold PAGE_SIZE.
    rewrite (u32_small (i * 12288)), u32_small by lia. lia. }
  assert (kstack_slot_stack_base i = stack_page (3 * i + 1)) as E2.
  { unfold kstack_slot_stack_base. rewrite E1. unfold stack_page, KERNEL_STACK_BASE, PAGE_SIZE.
    change (KSTACK_GUARD_PAGES * 4096) with 4096. rewrite u32_small by lia. lia. }
  split_and!; [done|done| |lia|lia].
  unfold kstack_slot_stack_top. rewrite E2. unfold stack_page, KERNEL_STACK_BASE, PAGE_SIZE.
  change (KSTACK_DATA_PAGES * 4096) with 8192. rewrite u32_small by lia. lia.
Qed.

(** The [j]-th data page, as the code computes it from the stack's base. *)
Lemma data_page i j :
  0 ≤ i < KSTACK_SLOT_COUNT → 0 ≤ j < 2 →
  stack_page (3 * i + 1) ⊞ (j ⊠ PAGE_SIZE) = stack_page (3 * i + 1 + j).
Proof.
  change KSTACK_SLOT_COUNT with 5120. intros Hi Hj. unfold stack_page, KERNEL_STACK_BASE, PAGE_SIZE.
  rewrite (u32_small (j * 4096)), u32_small by lia. lia.
Qed.

Lemma used_mark k i j :
  slot_used (with_slots (bm_set 8 (kstack_slots k) i) k) j = slot_used k j || (i =? j).
Proof. unfold slot_used. simpl. by rewrite bm_test_set by lia. Qed.

Lemma used_clear k i j : slot_used (kstack_slot_mark_free i k) j = slot_used k j && negb (i =? j).
Proof. unfold slot_used. simpl. by rewrite bm_test_clear by lia. Qed.

Lemma kept_below_refl dir v : kept_below dir v v.
Proof. by intros ??. Qed.

Lemma kept_below_trans dir v1 v2 v3 :
  kept_below dir v1 v2 → kept_below dir v2 v3 → kept_below dir v1 v3.
Proof. intros H1 H2 va Hva. rewrite H2, H1; done. Qed.

Lemma count_mark (u : Z → bool) i :
  0 ≤ i < KSTACK_SLOT_COUNT → u i = false →
  count_range 0 KSTACK_SLOT_COUNT (λ j, u j || (i =? j)) = count_range 0 KSTACK_SLOT_COUNT u + 1.
Proof.
  intros Hi Hf. pose proof (count_range_point 0 KSTACK_SLOT_COUNT u (λ j, u j || (i =? j)) i Hi) as Hp.
  cbv beta in Hp. rewrite Hf, Z.eqb_refl in Hp. cbn [orb] in Hp.
  assert (∀ j, j ≠ i → u j = u j || (i =? j)) as Hj
    by (intros j ?; by rewrite (proj2 (Z.eqb_neq i j)), orb_false_r by done).
  specialize (Hp Hj). lia.
Qed.

Lemma count_clear (u : Z → bool) i :
  0 ≤ i < KSTACK_SLOT_COUNT → u i = true →
  count_range 0 KSTACK_SLOT_COUNT (λ j, u j && negb (i =? j)) = count_range 0 KSTACK_SLOT_COUNT u - 1.
Proof.
  intros Hi Hf. pose proof (count_range_point 0 KSTACK_SLOT_COUNT u (λ j, u j && negb (i =? j)) i Hi) as Hp.
  cbv beta in Hp. rewrite Hf, Z.eqb_refl in Hp. cbn [negb andb] in Hp.
  assert (∀ j, j ≠ i → u j = u j && negb (i =? j)) as Hj
    by (intros j ?; by rewrite (proj2 (Z.eqb_neq i j)), andb_true_r by done).
  specialize (Hp Hj). lia.
Qed.

(** The two frames of a new stack. *)
Lemma alloc_two_pages f v dir :
  backing f [] v dir →
  match alloc_stack_pages 2 [] v with
  | (None, v') => backing f [] v' dir ∧ free_frames (frames v) < 2 ∧ cr3 v' = cr3 v ∧
      kept_below dir v v' ∧ ∀ g, frame_refs (frames v') g = frame_refs (frames v) g
  | (Some pages, v') => ∃ p0 p1, pages = [p0; p1] ∧ backing f [p1; p0] v' dir ∧ cr3 v' = cr3 v ∧
      kept_below dir v v' ∧ ¬ held v p0 ∧ ¬ held v p1 ∧
      (∀ g, frame_refs (frames v') g
         = if (p0 / PAGE_SIZE =? g) || (p1 / PAGE_SIZE =? g) then 1 else frame_refs (frames v) g) ∧
      ∀ b, b / PAGE_SIZE * PAGE_SIZE = p0 ∨ b / PAGE_SIZE * PAGE_SIZE = p1 → pmem v' b = 0
  end.
Proof.
  intros Hb. cbn [alloc_stack_pages app].
  destruct (backing_alloc f [] v dir Hb) as [[Hz ->]|(p0&v1&->&Hp0&Hb1&Ha&Hc1&Hk1&Hn0&Hh1&Hm1)]; cbv zeta in *.
  { cbn. split_and!; try done. lia. }
  rewrite (proj2 (Z.eqb_neq p0 0)) by done. set (v1' := zero_page p0 v1) in *.
  destruct Ha as (g0&Hg0&_&Hu0&Hr0&Hf0&_&Hrefs0&_).
  assert (p0 / PAGE_SIZE = g0) as Hdiv0 by (subst p0; by apply Z.div_mul).
  destruct (backing_alloc f [p0] v1' dir Hb1) as [[Hz ->]|(p1&v2&->&Hp1&Hb2&Ha2&Hc2&Hk2&Hn1&_&Hm2)]; cbv zeta in *.
  { rewrite Z.eqb_refl. cbn [free_pages]. destruct (backing_free f p0 [] v1' dir Hb1) as [Hb' Hrefs].
    split_and!; [done|lia|done| |].
    - intros va Hva. etrans; [|by apply Hk1]. reflexivity.
    - intros g. rewrite Hrefs. destruct (Z.eqb_spec (p0 / PAGE_SIZE) g) as [E|].
      + rewrite Hdiv0 in E. subst g. unfold frame_refs. by rewrite Hu0.
      + apply Hrefs0. congruence. }
  rewrite (proj2 (Z.eqb_neq p1 0)) by done. exists p0, p1. set (v2' := zero_page p1 v2) in *.
  destruct Ha2 as (g1&Hg1&_&_&Hr1&_&_&Hrefs1&_).
  assert (p1 / PAGE_SIZE = g1) as Hdiv1 by (subst p1; by apply Z.div_mul).
  assert (held v1' p0) as Hh0 by (apply (pf_held _ _ _ (bk_loose _ _ _ _ Hb1 p0 ltac:(by left)))).
  split_and!; [done|done|congruence|by eapply kept_below_trans|done| | |].
  - intros Hh. apply Hn1. by apply Hh1.
  - intros g. rewrite Hdiv0, Hdiv1. destruct (Z.eqb_spec g1 g) as [<-|Hne1].
    + by rewrite orb_true_r.
    + rewrite Hrefs1 by done. rewrite orb_false_r. destruct (Z.eqb_spec g0 g) as [<-|]; [done|].
      by apply Hrefs0.
  - intros b Hbp. rewrite Hm2. case_decide; [done|]. destruct Hbp as [Hbp|]; [|done].
    rewrite Hm1. by rewrite decide_True.
Qed.

(** Mapping the two pages of a free slot. *)
Lemma map_two_pages f v dir i p0 p1 :
  backing f [p1; p0] v dir → 0 ≤ i < KSTACK_SLOT_COUNT → f (3 * i + 1) = None → f (3 * i + 2) = None →
  ∃ v', paging_map_pages_in dir (stack_page (3 * i + 1)) (Some [p0; p1]) PAGE_WRITABLE v = (0, v') ∧
    backing (<[3 * i + 2 := Some p1]> (<[3 * i + 1 := Some p0]> f)) [] v' dir ∧
    frames v' = frames v ∧ cr3 v' = cr3 v ∧ kept_below dir v v' ∧
    ∀ q b, q = p0 ∨ q = p1 → b / PAGE_SIZE * PAGE_SIZE = q → pmem v' b = pmem v b.
Proof.
  intros Hb Hi Hf1 Hf2. destruct (slot_addresses i Hi) as (_&_&_&Hlo&Hhi).
  assert (backing f [p0; p1] v dir) as Hb0.
  { destruct Hb as [H1 H2 H3 H4 H5 H6 H7 H8]. split; try done.
    - intros n p Hn Hf. destruct (H5 n p Hn Hf) as [? Hx]. split; [done|]. set_solver.
    - intros p Hp. apply H6. set_solver.
    - apply NoDup_cons in H7 as [H7 _]. apply NoDup_cons. split; [set_solver|apply NoDup_singleton]. }
  unfold paging_map_pages_in. cbn [map_pages].
  rewrite (data_page i 0), (data_page i (0 + 1)) by (done || lia).
  replace (3 * i + 1 + (0 + 1)) with (3 * i + 2) by lia. rewrite Z.add_0_r.
  destruct (backing_map f p0 [p1] v dir (3 * i + 1) Hb0) as (v1&->&Hb1&Hfr1&Hc1&Hk1&Hm1); [lia|done|].
  change (truthy 0) with false. cbv iota.
  destruct (backing_map (<[3 * i + 1 := Some p0]> f) p1 [] v1 dir (3 * i + 2) Hb1)
    as (v2&->&Hb2&Hfr2&Hc2&Hk2&Hm2); [lia|by rewrite arr_get_set, decide_False by lia|].
  change (truthy 0) with false. cbv iota. exists v2.
  split; [done|]. split; [done|]. split; [congruence|]. split; [congruence|].
  split; [by eapply kept_below_trans|]. intros q b Hq Hqb.
  rewrite (Hm2 q b), (Hm1 q b); try done.
  - apply (bk_loose _ _ _ _ Hb0). destruct Hq as [->| ->]; set_solver.
  - destruct Hq as [->| ->]; [|apply (bk_loose _ _ _ _ Hb1); by left].
    apply (bk_frames _ _ _ _ Hb1 (3 * i + 1)); [lia|]. by rewrite arr_get_set, decide_True.
Qed.

(** A slot taken and mapped. *)
Lemma stacks_ok_take k v f v' i p0 p1 :
  stacks_ok k v f → 0 ≤ i < KSTACK_SLOT_COUNT → slot_used k i = false → cr3 v' = cr3 v →
  backing (<[3 * i + 2 := Some p1]> (<[3 * i + 1 := Some p0]> f)) [] v' (cr3 v) →
  let k' := with_slots (bm_set 8 (kstack_slots k) i) k in
  stacks_ok (with_active (kstack_active_count k' ⊞ 1) k') v'
    (<[3 * i + 2 := Some p1]> (<[3 * i + 1 := Some p0]> f)).
Proof.
  intros [Hb Hrdy Hbits Hslots Hcount] Hi Hfree Hc Hb' k'.
  assert (∀ j, slot_used (with_active (kstack_active_count k' ⊞ 1) k') j = slot_used k j || (i =? j)) as Hu
    by (intros j; apply used_mark).
  assert (count_range 0 KSTACK_SLOT_COUNT (slot_used (with_active (kstack_active_count k' ⊞ 1) k'))
          = count_range 0 KSTACK_SLOT_COUNT (slot_used k) + 1) as Hcnt.
  { rewrite <- (count_mark _ i) by done. apply count_range_ext. intros j _. apply Hu. }
  pose proof (count_range_bounds 0 KSTACK_SLOT_COUNT (slot_used k) ltac:(done)) as Hcb.
  assert (KSTACK_SLOT_COUNT = 5120) as HC by done.
  split.
  - by rewrite Hc.
  - done.
  - by apply bm_set_wf.
  - intros j l Hj Hl. rewrite Hu, !arr_get_set. change KSTACK_SLOT_PAGES with 3 in *.
    specialize (Hslots j l Hj Hl).
    destruct (Z.eqb_spec i j) as [<-|Hne].
    + rewrite orb_true_r. case_decide; [split; [intros _; split; [lia|done]|by intros _]|].
      case_decide; [split; [intros _; split; [lia|done]|by intros _]|].
      rewrite Hslots, Hfree. split; [by intros [_ ?]|]. intros [? _]. lia.
    + rewrite orb_false_r, !decide_False by lia. done.
  - rewrite Hcnt. cbn [kstack_active_count with_active]. unfold k'. cbn [kstack_active_count with_slots].
    rewrite Hcount. apply u32_small. lia.
Qed.

(** What [kstack_alloc] leaves behind when it fails. *)
Lemma stacks_ok_undo k v f v' i :
  stacks_ok k v f → 0 ≤ i < KSTACK_SLOT_COUNT → slot_used k i = false →
  backing f [] v' (cr3 v) → cr3 v' = cr3 v →
  let k' := kstack_slot_mark_free i (with_slots (bm_set 8 (kstack_slots k) i) k) in
  stacks_ok k' v' f ∧ ∀ j, slot_used k' j = slot_used k j.
Proof.
  intros [Hb Hrdy Hbits Hslots Hcount] Hi Hfree Hb' Hc k'.
  assert (∀ j, slot_used k' j = slot_used k j) as Hu.
  { intros j. unfold k'. rewrite used_clear, used_mark.
    destruct (Z.eqb_spec i j) as [<-|]; [by rewrite Hfree|].
    by rewrite orb_false_r, andb_true_r. }
  split; [|done]. split; try done.
  - by rewrite Hc.
  - by apply bm_clear_wf, bm_set_wf.
  - intros j l Hj Hl. rewrite Hu. by apply Hslots.
  - unfold k'. cbn [kstack_active_count kstack_slot_mark_free with_slots]. rewrite Hcount.
    apply count_range_ext. intros j _. symmetry. apply Hu.
Qed.

(** Allocating a kernel stack.  It fails exactly when every slot is in use or
    fewer than two frames are free, and then bitmap, page tables and reference counts
    are as before.  Otherwise the caller gets the lowest free slot: its two data
    pages are mapped writable to two fresh zeroed frames, its guard page is not
    mapped, and no other slot, no translation below the region and no other frame
    changes. *)
Theorem kstack_alloc_spec k v f st :
  stacks_ok k v f →
  let '(r, st', k', v') := kstack_alloc (Some st) k v in
  kept_below (cr3 v) v v' ∧
  ((r = -1 ∧ stacks_ok k' v' f ∧ (∀ j, slot_used k' j = slot_used k j) ∧
    (∀ g, frame_refs (frames v') g = frame_refs (frames v) g) ∧
    ((∀ j, 0 ≤ j < KSTACK_SLOT_COUNT → slot_used k j = true) ∨ free_frames (frames v) < 2)) ∨
   (∃ i p0 p1, r = 0 ∧ 0 ≤ i < KSTACK_SLOT_COUNT ∧ slot_used k i = false ∧
      (∀ j, 0 ≤ j < i → slot_used k j = true) ∧
      st' = Some {| guard_base := stack_page (3 * i); stack_base := stack_page (3 * i + 1);
                    stack_top := stack_page (3 * i + 3) |} ∧
      stacks_ok k' v' (<[3 * i + 2 := Some p1]> (<[3 * i + 1 := Some p0]> f)) ∧
      ¬ held v p0 ∧ ¬ held v p1 ∧
      (∀ g, frame_refs (frames v') g
         = if (p0 / PAGE_SIZE =? g) || (p1 / PAGE_SIZE =? g) then 1 else frame_refs (frames v) g) ∧
      ∀ b, b / PAGE_SIZE * PAGE_SIZE = p0 ∨ b / PAGE_SIZE * PAGE_SIZE = p1 → pmem v' b = 0)).
Proof.
  intros Hok. pose proof Hok as [Hb Hrdy Hbits Hslots Hcount]. unfold kstack_alloc.
  rewrite Hrdy. change (1 =? 0) with false. cbv iota zeta. unfold paging_current_directory_phys.
  destruct (kstack_find_slot k) as [i|] eqn:Hfind.
  2:{ split; [apply kept_below_refl|left]. split_and!; [done..|left]. intros j Hj.
      pose proof (proj1 (for_find_None _ _ _) Hfind j Hj) as Hu. by apply negb_false_iff. }
  apply for_find_Some in Hfind as (Hi&Hfree%negb_true_iff&Hlow).
  unfold kstack_slot_mark_used. rewrite Hfree. change (truthy 0) with false. cbv iota.
  change (Z.to_nat KSTACK_DATA_PAGES) with 2%nat.
  pose proof (alloc_two_pages f v (cr3 v) Hb) as Ha.
  destruct (alloc_stack_pages 2 [] v) as [[pages|] v1].
  2:{ destruct Ha as (Hb1&Hfew&Hc1&Hk1&Hr1). split; [done|left].
      destruct (stacks_ok_undo k v f v1 i Hok Hi Hfree Hb1 Hc1). split_and!; try done. by right. }
  destruct Ha as (p0&p1&->&Hb1&Hc1&Hk1&Hn0&Hn1&Hr1&Hz1).
  destruct (slot_addresses i Hi) as (Eg&Eb&Et&_).
  rewrite Eg, Eb, Et.
  assert (∀ l, 0 < l < 3 → f (3 * i + l) = None) as Hnone.
  { intros l Hl. specialize (Hslots i l Hi ltac:(change KSTACK_SLOT_PAGES with 3; lia)).
    destruct (f (3 * i + l)); [|done]. destruct (proj1 Hslots ltac:(done)). congruence. }
  destruct (map_two_pages f v1 (cr3 v) i p0 p1 Hb1 Hi) as (v2&->&Hb2&Hfr2&Hc2&Hk2&Hm2); [apply Hnone; lia..|].
  change (truthy 0) with false. cbv iota. split; [by eapply kept_below_trans|right].
  exists i, p0, p1.
  refine (conj eq_refl (conj Hi (conj Hfree (conj _ (conj eq_refl (conj _ (conj Hn0 (conj Hn1 (conj _ _))))))))).
  - intros j Hj. apply negb_false_iff. by apply Hlow.
  - apply (stacks_ok_take k v f v2 i p0 p1); try done. congruence.
  - intros g. by rewrite Hfr2.
  - intros b Hbp. rewrite (Hm2 (b / PAGE_SIZE * PAGE_SIZE) b) by done. by apply Hz1.
Qed.

(** Releasing a mapped data page. *)
Lemma release_page f v dir i j p :
  backing f [] v dir → 0 ≤ i < KSTACK_SLOT_COUNT → 0 ≤ j < 2 → f (3 * i + 1 + j) = Some p →
  let v' := release_stack_page dir (stack_page (3 * i + 1)) j v in
  backing (<[3 * i + 1 + j := None]> f) [] v' dir ∧ kept_below dir v v' ∧
  ∀ g, frame_refs (frames v') g = if p / PAGE_SIZE =? g then 0 else frame_refs (frames v) g.
Proof.
  intros Hb Hi Hj Hf. cbv zeta. unfold release_stack_page. rewrite data_page by done.
  destruct (slot_addresses i Hi) as (_&_&_&Hlo&Hhi). set (n := 3 * i + 1 + j) in *.
  assert (0 ≤ n < STACK_PAGES) as Hn by lia.
  rewrite resolve_lookup, (bk_pages _ _ _ _ Hb n Hn), Hf. cbn [fmap option_fmap option_map].
  destruct (pf_held _ _ _ (proj1 (bk_frames _ _ _ _ Hb n p Hn Hf))) as (_&Hp0&_).
  unfold truthy. rewrite (proj2 (Z.eqb_neq p 0)) by lia. bsimpl.
  destruct (backing_unmap f [] v dir n Hb Hn) as (Hb1&Hfr1&Hk1). rewrite Hf in Hb1.
  destruct (backing_free _ p [] _ dir Hb1) as [Hb2 Hr2]. rewrite Hfr1 in Hb2, Hr2 |- *.
  split; [exact Hb2|]. split; [exact Hk1|exact Hr2].
Qed.

Lemma unmap_cr3 dir va v : cr3 (paging_unmap_page_in dir va v) = cr3 v.
Proof. unfold paging_unmap_page_in. by repeat case_if. Qed.

Lemma release_cr3 dir base j v : cr3 (release_stack_page dir base j v) = cr3 v.
Proof. unfold release_stack_page. case_if; [|done]. apply unmap_cr3. Qed.

(** The bookkeeping of a freed slot. *)
Lemma stacks_ok_drop k v f v' f' i :
  stacks_ok k v f → 0 ≤ i < KSTACK_SLOT_COUNT → slot_used k i = true → cr3 v' = cr3 v →
  backing f' [] v' (cr3 v) →
  (∀ n, f' n = if decide (3 * i ≤ n < 3 * i + 3) then None else f n) →
  let k' := kstack_slot_mark_free i (with_active (kstack_active_count k - 1) k) in
  truthy (kstack_active_count k) = true ∧ stacks_ok k' v' f' ∧
  ∀ j, slot_used k' j = slot_used k j && negb (i =? j).
Proof.
  intros [Hb Hrdy Hbits Hslots Hcount] Hi Hused Hc Hb' Hf' k'.
  assert (∀ j, slot_used k' j = slot_used k j && negb (i =? j)) as Hu
    by (intros j; exact (used_clear (with_active _ k) i j)).
  assert (count_range 0 KSTACK_SLOT_COUNT (slot_used k') = count_range 0 KSTACK_SLOT_COUNT (slot_used k) - 1)
    as Hcnt.
  { rewrite <- (count_clear _ i) by done. apply count_range_ext. intros j _. apply Hu. }
  pose proof (count_range_bounds 0 KSTACK_SLOT_COUNT (slot_used k') ltac:(done)) as Hcb.
  split_and!; [|split|done].
  - unfold truthy. by rewrite Hcount, (proj2 (Z.eqb_neq _ 0)) by lia.
  - by rewrite Hc.
  - done.
  - by apply bm_clear_wf.
  - intros j l Hj Hl. rewrite Hf', Hu. change KSTACK_SLOT_PAGES with 3 in *.
    destruct (Z.eqb_spec i j) as [<-|Hne].
    + rewrite decide_True, andb_false_r by lia. split; [by intros [??]|by intros [_ ?]].
    + rewrite decide_False, andb_true_r by lia. by apply Hslots.
  - rewrite Hcnt. cbn. by rewrite Hcount.
Qed.

(** Freeing the stack of a slot in use: both data pages are unmapped and their
    frames given back, the slot is free again, and no other slot, no
    translation below the region and no other frame changes. *)
Theorem kstack_free_spec k v f i p0 p1 :
  stacks_ok k v f → 0 ≤ i < KSTACK_SLOT_COUNT →
  f (3 * i + 1) = Some p0 → f (3 * i + 2) = Some p1 →
  let '(st', k', v') := kstack_free (Some {| guard_base := stack_page (3 * i);
                                             stack_base := stack_page (3 * i + 1);
                                             stack_top := stack_page (3 * i + 3) |}) k v in
  st' = Some {| guard_base := 0; stack_base := 0; stack_top := 0 |} ∧
  (∃ f', stacks_ok k' v' f' ∧ ∀ n, f' n = if decide (3 * i ≤ n < 3 * i + 3) then None else f n) ∧
  (∀ j, slot_used k' j = slot_used k j && negb (i =? j)) ∧
  (∀ g, frame_refs (frames v') g
     = if (p0 / PAGE_SIZE =? g) || (p1 / PAGE_SIZE =? g) then 0 else frame_refs (frames v) g) ∧
  kept_below (cr3 v) v v'.
Proof.
  intros Hok Hi Hf0 Hf1. pose proof Hok as [Hb Hrdy Hbits Hslots Hcount].
  destruct (slot_addresses i Hi) as (Eg&_&_&Hlo&Hhi). unfold kstack_free. cbn [guard_base stack_base].
  assert (kstack_slot_index_from_guard (stack_page (3 * i)) = Some i) as Eix.
  { unfold kstack_slot_index_from_guard, stack_page. change KSTACK_SLOT_SIZE with 12288.
    change KSTACK_SLOT_COUNT with 5120 in *. change KERNEL_STACK_LIMIT with 4290772992.
    unfold KERNEL_STACK_BASE, PAGE_SIZE.
    rewrite (proj2 (Z.ltb_ge _ 4227858432)), (proj2 (Z.leb_gt 4290772992 _)) by lia. bsimpl.
    replace (4227858432 + 3 * i * 4096 - 4227858432) with (i * 12288) by lia.
    rewrite Z.mod_mul, Z.div_mul by lia. change (truthy 0) with false. cbv iota.
    by rewrite (proj2 (Z.leb_gt 5120 i)) by lia. }
  rewrite Eix. rewrite (proj2 (Z.eqb_neq (stack_page (3 * i)) 0))
    by (unfold stack_page, KERNEL_STACK_BASE, PAGE_SIZE; lia).
  unfold paging_current_directory_phys.
  assert (slot_used k i = true) as Hused.
  { apply (Hslots i 1 Hi ltac:(done)). by rewrite Hf0. }
  assert (for_range 0 KSTACK_DATA_PAGES (release_stack_page (cr3 v) (stack_page (3 * i + 1))) v
    = release_stack_page (cr3 v) (stack_page (3 * i + 1)) 1
        (release_stack_page (cr3 v) (stack_page (3 * i + 1)) 0 v)) as -> by done.
  destruct (release_page f v (cr3 v) i 0 p0 Hb Hi) as (Hb1&Hk1&Hr1); [lia|by rewrite Z.add_0_r|].
  set (v1 := release_stack_page _ _ 0 v) in *.
  destruct (release_page _ v1 (cr3 v) i 1 p1 Hb1 Hi) as (Hb2&Hk2&Hr2);
    [lia|rewrite arr_get_set, decide_False by lia; rewrite <- Hf1; f_equal; lia|].
  set (v2 := release_stack_page _ _ 1 v1) in *. set (f2 := <[3 * i + 1 + 1 := None]> _) in *.
  destruct (backing_unmap f2 [] v2 (cr3 v) (3 * i) Hb2 ltac:(lia)) as (Hb3&Hfr3&Hk3).
  assert (f (3 * i) = None) as Hg.
  { specialize (Hslots i 0 Hi ltac:(done)). rewrite Z.add_0_r in Hslots.
    destruct (f (3 * i)); [|done]. destruct (proj1 Hslots ltac:(done)). lia. }
  assert (f2 (3 * i) = None) as Hg2 by (unfold f2; by rewrite !arr_get_set, !decide_False by lia).
  rewrite Hg2 in Hb3. set (v3 := paging_unmap_page_in _ _ v2) in *.
  assert (cr3 v3 = cr3 v) as Hc
    by (unfold v3, v2, v1; rewrite unmap_cr3, !release_cr3; done).
  destruct (stacks_ok_drop k v f v3 (<[3 * i := None]> f2) i Hok Hi Hused Hc Hb3) as (Ht&Hok'&Hu').
  { intros n. unfold f2. rewrite !arr_get_set. repeat case_decide; try done; try lia. }
  rewrite Ht. split; [done|]. split; [eexists; split; [exact Hok'|]|split; [exact Hu'|split]].
  - intros n. unfold f2. rewrite !arr_get_set. repeat case_decide; try done; try lia.
  - intros g. rewrite Hfr3, Hr2, Hr1. by destruct (p0 / PAGE_SIZE =? g), (p1 / PAGE_SIZE =? g).
  - by eapply kept_below_trans; [|eapply kept_below_trans].
Qed.

(** Stack overflow is caught: an address of the stack region translates exactly
    when its slot is in use and [kstack_is_guard_address], the test of the page-fault
    handler, says it is not in a guard page. *)
Theorem kstack_guard_spec k v f va :
  stacks_ok k v f → KERNEL_STACK_BASE ≤ va < KERNEL_STACK_LIMIT →
  (is_Some (paging_lookup_page_in (cr3 v) va v) ↔
   kstack_is_guard_address va = 0 ∧ slot_used k ((va - KERNEL_STACK_BASE) / KSTACK_SLOT_SIZE) = true).
Proof.
  intros [Hb _ _ Hslots _] Hva. pose proof (space_dir _ _ (bk_space _ _ _ _ Hb)) as (_&Hd0&_).
  set (n := (va - KERNEL_STACK_BASE) / PAGE_SIZE).
  change KERNEL_STACK_LIMIT with 4290772992 in *. change KERNEL_STACK_BASE with 4227858432 in *.
  assert (is_u32 va) as Hu by (unfold is_u32; lia).
  assert (0 ≤ n < STACK_PAGES) as Hn by (unfold n; change STACK_PAGES with 15360; unfold PAGE_SIZE; word_lia).
  assert (page_floor va = stack_page n) as Hfl.
  { rewrite page_floor_frame, frame_of_floor by done. unfold stack_page, n, KERNEL_STACK_BASE, PAGE_SIZE. word_lia. }
  destruct (page_floor_indices va Hu) as (_&_&_&E1&E2).
  assert (paging_lookup_page_in (cr3 v) va v = paging_lookup_page_in (cr3 v) (stack_page n) v) as ->.
  { rewrite !lookup_eq by (apply (bk_vm _ _ _ _ Hb) || lia). rewrite <- Hfl. by rewrite E1, E2. }
  rewrite (bk_pages _ _ _ _ Hb n Hn), fmap_is_Some.
  assert ((va - 4227858432) / KSTACK_SLOT_SIZE = n / 3) as ->
    by (unfold n, PAGE_SIZE; change KSTACK_SLOT_SIZE with 12288; word_lia).
  replace (f n) with (f (3 * (n / 3) + n mod 3)) by (f_equal; word_lia).
  rewrite Hslots; [|change STACK_PAGES with 15360 in Hn; change KSTACK_SLOT_COUNT with 5120; word_lia
                   |change KSTACK_SLOT_PAGES with 3; word_lia].
  enough (kstack_is_guard_address va = 0 ↔ 0 < n mod 3) by tauto.
  unfold kstack_is_guard_address. change KERNEL_STACK_LIMIT with 4290772992.
  change KERNEL_STACK_BASE with 4227858432.
  rewrite (proj2 (Z.ltb_ge _ _)), (proj2 (Z.leb_gt _ _)) by lia. bsimpl.
  change KSTACK_SLOT_SIZE with 12288. change (KSTACK_GUARD_PAGES * PAGE_SIZE) with 4096.
  unfold n, PAGE_SIZE. case_if; split; intros; word_lia.
Qed.

End stacks.

(** ** A concrete machine

    The directory is at frame 1 and the tables of the stack region, all empty, at
    frames 2 to 16. *)

Definition ks_entry (i : Z) : Z := if (1008 <=? i) && (i <? 1023) then (i - 1006) * 4096 + 3 else 0.

Definition ks_mem : carray Z := λ b,
  if (4096 <=? b) && (b <? 8192)
  then ks_entry ((b - 4096) / 4) / 256 ^ (b mod 4) mod 256 else 0.

Definition ks_vm : vm :=
  {| pmem := ks_mem; frames := big_frames; kernel_page_directory_phys := 4096;
     direct_map_limit := 67108864; cr3 := 4096; paging_enabled := true |}.

Definition ks_idle : kstacks := kstack_init {| kstack_slots := λ _, 0; kstack_ready := 0; kstack_active_count := 0 |}.

Lemma ks_entries i : 0 ≤ i < 1024 → entry_at ks_mem 4096 i = ks_entry i.
Proof.
  intros Hi. assert (forallb (λ j, entry_at ks_mem 4096 j =? ks_entry j) (seqZ 0 1024) = true) as H
    by (vm_compute; reflexivity).
  rewrite forallb_forall in H. apply Z.eqb_eq, H. apply list_elem_of_In, elem_of_seqZ. lia.
Qed.

Lemma ks_mem_wf : bytes_wf ks_mem.
Proof.
  intros b. unfold ks_mem, is_u8. case_if; [|lia]. apply Z.mod_pos_bound. lia.
Qed.

Lemma ks_vm_ok : vm_ok ks_vm.
Proof. split; [apply ks_mem_wf|apply big_frames_ok]. Qed.

Lemma ks_held p : 0 < p < 32 → held ks_vm (p * PAGE_SIZE).
Proof.
  intros Hp. unfold held, live_page. cbn [frames ks_vm]. rewrite Z.mod_mul, Z.div_mul by done.
  rewrite big_frames_used by lia. rewrite (proj2 (Z.leb_gt 32 p)) by lia.
  change (first_unusable_frame big_frames) with 300000. rewrite (proj2 (Z.ltb_lt p _)) by lia.
  unfold is_u32, PAGE_SIZE. split_and!; [lia|lia|lia|done].
Qed.

Lemma ks_table i :
  0 ≤ i < RECURSIVE_DIRECTORY_INDEX → present (entry_at (pmem ks_vm) 4096 i) = true →
  1008 ≤ i ∧ table_of ks_vm 4096 i = (i - 1006) * PAGE_SIZE.
Proof.
  unfold RECURSIVE_DIRECTORY_INDEX, table_of. cbn [pmem ks_vm]. intros Hi. rewrite ks_entries by lia.
  unfold ks_entry. case_if; [|done]. intros _. zbool. split; [done|].
  rewrite frame_of_floor by (unfold is_u32; lia). unfold PAGE_SIZE. word_lia.
Qed.

Lemma ks_space : space_ok ks_vm 4096.
Proof.
  split; [apply (ks_held 1); lia|]. intros i Hi Hp. destruct (ks_table i Hi Hp) as [? ->].
  unfold RECURSIVE_DIRECTORY_INDEX in Hi. split; [apply ks_held; lia|unfold PAGE_SIZE; lia].
Qed.

Lemma ks_own i : 0 ≤ i < RECURSIVE_DIRECTORY_INDEX → own_table ks_vm 4096 i.
Proof.
  intros Hi Hp j Hj Hne Hpj. destruct (ks_table i Hi Hp) as [_ ->], (ks_table j Hj Hpj) as [_ ->].
  unfold PAGE_SIZE. lia.
Qed.

Lemma ks_stacks_ok : stacks_ok ks_idle ks_vm (λ _, None).
Proof.
  assert (∀ i, slot_used ks_idle i = false) as Hu.
  { intros i. unfold slot_used. rewrite bm_test_bit by lia. cbn [ks_idle kstack_init kstack_slots].
    unfold zero_bytes, arr_fill. destruct (_ && _); apply Z.bits_0. }
  split; [split| | | |].
  - apply ks_vm_ok.
  - apply ks_space.
  - intros i Hi. pose proof (stack_tables_range i Hi) as Hr. split; [|by apply ks_own].
    change STACK_DIRECTORY_INDEX_START with 1008 in Hi. change STACK_DIRECTORY_INDEX_END with 1023 in Hi.
    cbn [pmem ks_vm cr3]. rewrite ks_entries by lia. unfold ks_entry.
    rewrite (proj2 (Z.leb_le 1008 i)), (proj2 (Z.ltb_lt i 1023)) by lia. bsimpl. unfold present.
    rewrite Z.bit0_odd, Z.odd_add, Z.odd_mul. change (Z.odd 4096) with false. by rewrite andb_false_r.
  - intros n Hn. destruct (stack_page_facts n Hn) as (Hu32&_&Hdi&_).
    pose proof (stack_tables_range _ Hdi) as Hr. pose proof (page_indices_range _ Hu32) as [_ Hti].
    cbn [fmap option_fmap option_map]. rewrite lookup_eq by (apply ks_vm_ok || done). cbv zeta.
    destruct (present (entry_at (pmem ks_vm) (cr3 ks_vm) _)) eqn:Hp; [|done].
    pose proof (ks_table _ Hr Hp) as [? Ht]. unfold table_of in Ht. change (cr3 ks_vm) with 4096 in *.
    rewrite Ht. bsimpl. assert (entry_at (pmem ks_vm) ((page_directory_index (stack_page n) - 1006) * PAGE_SIZE)
      (page_table_index (stack_page n)) = 0) as ->; [|done].
    apply (load_le_zero 4). intros b Hb. cbn [pmem ks_vm]. unfold ks_mem.
    unfold PAGE_SIZE in *. by rewrite (proj2 (Z.ltb_ge b 8192)), andb_false_r by lia.
  - done.
  - by intros p ?%not_elem_of_nil.
  - apply NoDup_nil_2.
  - done.
  - done.
  - intros i. cbn. unfold zero_bytes, arr_fill. by destruct (_ && _).
  - intros i j Hi Hj. rewrite Hu. split; [by intros [??]|by intros [_ ?]].
  - rewrite (count_range_ext _ _ _ (λ _, false)) by (intros; apply Hu). by rewrite count_range_const.
Qed.

Lemma kstack_alloc_spec_witness :
  ∃ k' v' p0 p1,
    kstack_alloc (Some {| guard_base := 0; stack_base := 0; stack_top := 0 |}) ks_idle ks_vm
    = (0, Some {| guard_base := stack_page 0; stack_base := stack_page 1; stack_top := stack_page 3 |}, k', v') ∧
    stacks_ok k' v' (<[2 := Some p1]> (<[1 := Some p0]> (λ _, None))).
Proof.
  pose proof (kstack_alloc_spec ks_idle ks_vm (λ _, None)
    {| guard_base := 0; stack_base := 0; stack_top := 0 |} ks_stacks_ok) as H.
  destruct (kstack_alloc _ ks_idle ks_vm) as [[[r st'] k'] v'].
  destruct H as (_&[(_&_&_&_&[H|H])|(i&p0&p1&->&Hi&_&Hlow&->&Hok&_)]).
  - specialize (H 0 ltac:(done)). vm_compute in H. discriminate H.
  - vm_compute in H. discriminate H.
  - assert (i = 0) as ->.
    { destruct (decide (i = 0)); [done|]. specialize (Hlow 0 ltac:(lia)). vm_compute in Hlow. discriminate Hlow. }
    exists k', v', p0, p1. split; [reflexivity|exact Hok].
Defined.

(** The first slot of [ks_vm] in use. *)
Lemma ks_used : ∃ k v p0 p1, stacks_ok k v (<[2 := Some p1]> (<[1 := Some p0]> (λ _, None))).
Proof.
  pose proof (alloc_two_pages (λ _, None) ks_vm 4096 (so_backing _ _ _ ks_stacks_ok)) as H.
  destruct (alloc_stack_pages 2 [] ks_vm) as [[pages|] v1].
  2:{ destruct H as (_&H&_). vm_compute in H. discriminate H. }
  destruct H as (p0&p1&_&Hb&Hc1&_).
  destruct (map_two_pages (λ _, None) v1 4096 0 p0 p1 Hb) as (v2&_&Hb2&_&Hc2&_); [done..|].
  eexists _, v2, p0, p1.
  apply (stacks_ok_take ks_idle ks_vm (λ _, None) v2 0 p0 p1 ks_stacks_ok); [done| |congruence|exact Hb2].
  vm_compute. reflexivity.
Qed.

Lemma kstack_free_spec_witness :
  ∃ k v p0 p1, stacks_ok k v (<[2 := Some p1]> (<[1 := Some p0]> (λ _, None))) ∧
  let '(_, k', v') := kstack_free (Some {| guard_base := stack_page 0; stack_base := stack_page 1;
                                           stack_top := stack_page 3 |}) k v in
  slot_used k' 0 = false ∧ frame_refs (frames v') (p0 / PAGE_SIZE) = 0.
Proof.
  destruct ks_used as (k&v&p0&p1&Hok). exists k, v, p0, p1. split; [exact Hok|].
  pose proof (kstack_free_spec k v _ 0 p0 p1 Hok ltac:(done) eq_refl eq_refl) as H.
  change (3 * 0) with 0 in H. change (0 + 1) with 1 in H. change (0 + 3) with 3 in H.
  destruct (kstack_free _ k v) as [[st' k'] v']. destruct H as (_&_&Hu&Hr&_). split.
  - rewrite Hu. apply andb_false_r.
  - by rewrite Hr, Z.eqb_refl.
Defined.

Lemma kstack_guard_spec_witness :
  paging_lookup_page_in 4096 (KERNEL_STACK_BASE + 100) ks_vm = None.
Proof.
  pose proof (kstack_guard_spec ks_idle ks_vm _ (KERNEL_STACK_BASE + 100) ks_stacks_ok ltac:(done)) as [H _].
  apply eq_None_not_Some. intros Hs. destruct (H Hs) as [Hg _]. vm_compute in Hg. discriminate Hg.
Defined.
