(* ===== verification/Vnode.v ===== *)
(** * The structures of [include/kernel/vfs.h]

    Inodes and files as the virtual file system and the disk file system share
    them.  There are four places an inode can be: in the runtime table of
    [simplefs.c], in a pipe, and the two static console inodes; a pointer to an
    inode says which.  Operation tables are named by the table they are. *)

From S2P Require Import Prelude.

Local Open Scope Z_scope.

Definition VFS_MAX_FDS : Z := 16.
Definition VFS_MAX_FILES : Z := 32.
Definition VFS_PATH_MAX : Z := 128.
Definition VFS_NAME_MAX : Z := 32.
Definition VFS_PIPE_BUFFER_SIZE : Z := 1024.
Definition VFS_ERR_WOULD_BLOCK : Z := -2.

Inductive vfs_inode_kind :=
  VFS_INODE_NONE | VFS_INODE_DEV | VFS_INODE_REG | VFS_INODE_DIR | VFS_INODE_PIPE.

#[export] Instance vfs_inode_kind_eq_dec : EqDecision vfs_inode_kind.
Proof. solve_decision. Defined.

Definition VFS_ACCESS_EXEC : Z := Z.shiftl 1 0.
Definition VFS_ACCESS_WRITE : Z := Z.shiftl 1 1.
Definition VFS_ACCESS_READ : Z := Z.shiftl 1 2.

Definition VFS_MODE_IXOTH : Z := 1.
Definition VFS_MODE_IWOTH : Z := 2.
Definition VFS_MODE_IROTH : Z := 4.
Definition VFS_MODE_IXGRP : Z := 8.
Definition VFS_MODE_IWGRP : Z := 16.
Definition VFS_MODE_IRGRP : Z := 32.
Definition VFS_MODE_IXUSR : Z := 64.
Definition VFS_MODE_IWUSR : Z := 128.
Definition VFS_MODE_IRUSR : Z := 256.
Definition VFS_MODE_ISVTX : Z := 512.
Definition VFS_MODE_FILE_DEFAULT : Z := 420.
Definition VFS_MODE_DIR_DEFAULT : Z := 493.

Definition VFS_O_RDONLY : Z := Z.shiftl 1 0.
Definition VFS_O_WRONLY : Z := Z.shiftl 1 1.
Definition VFS_O_RDWR : Z := Z.lor VFS_O_RDONLY VFS_O_WRONLY.
Definition VFS_O_CREATE : Z := Z.shiftl 1 2.
Definition VFS_O_TRUNC : Z := Z.shiftl 1 3.

Definition VFS_SEEK_SET : Z := 0.
Definition VFS_SEEK_CUR : Z := 1.
Definition VFS_SEEK_END : Z := 2.

(** A pointer to an inode: entry [i] of the runtime table, the inode of the pipe at
    address [a], or one of the two device inodes. *)
Inductive inode_ptr := IP_node (i : Z) | IP_pipe (a : Z) | IP_console | IP_tty.

#[export] Instance inode_ptr_eq_dec : EqDecision inode_ptr.
Proof. solve_decision. Defined.

(** [const char *name]: the name buffer of a runtime inode, or a string constant. *)
Inductive name_ptr := NP_null | NP_node (i : Z) | NP_text (s : list Z).

(** [void *private_data]. *)
Inductive private_ptr := PD_null | PD_node (i : Z) | PD_pipe (a : Z).

Inductive file_ops := NO_FILE_OPS | console_ops | pipe_ops | simplefs_file_ops.
Inductive inode_ops := NO_INODE_OPS | simplefs_inode_ops.

Record vfs_credentials := { cred_uid : Z; cred_gid : Z }.

Record vfs_stat := {
  st_kind : vfs_inode_kind; st_size : Z; st_child_count : Z; st_mode : Z; st_uid : Z; st_gid : Z;
  st_links : Z;
}.

Record vfs_dirent_info := {
  de_kind : vfs_inode_kind; de_size : Z; de_mode : Z; de_uid : Z; de_gid : Z; de_links : Z;
  de_name : list Z;
}.

Record vfs_dir_entry := { ent_name : name_ptr; ent_inode : option inode_ptr }.

(** The [data] field, which is always null, is left out.  [in_children] is the index
    of the first slot in the table of directory entries; [None] is null. *)
Record vfs_inode := {
  in_name : name_ptr;
  in_kind : vfs_inode_kind;
  in_ops : file_ops;
  in_inode_ops : inode_ops;
  in_ref_count : Z;
  in_size : Z;
  in_children : option Z;
  in_child_count : Z;
  in_child_capacity : Z;
  in_mode : Z;
  in_uid : Z;
  in_gid : Z;
  in_links : Z;
  in_private_data : private_ptr;
}.

Record vfs_file := {
  f_inode : option inode_ptr;
  f_flags : Z;
  f_offset : Z;
  f_ref_count : Z;
}.

Definition with_in_size (n : Z) (v : vfs_inode) : vfs_inode :=
  {| in_name := in_name v; in_kind := in_kind v; in_ops := in_ops v; in_inode_ops := in_inode_ops v;
     in_ref_count := in_ref_count v; in_size := n; in_children := in_children v;
     in_child_count := in_child_count v; in_child_capacity := in_child_capacity v;
     in_mode := in_mode v; in_uid := in_uid v; in_gid := in_gid v; in_links := in_links v;
     in_private_data := in_private_data v |}.
Definition with_in_ref_count (n : Z) (v : vfs_inode) : vfs_inode :=
  {| in_name := in_name v; in_kind := in_kind v; in_ops := in_ops v; in_inode_ops := in_inode_ops v;
     in_ref_count := n; in_size := in_size v; in_children := in_children v;
     in_child_count := in_child_count v; in_child_capacity := in_child_capacity v;
     in_mode := in_mode v; in_uid := in_uid v; in_gid := in_gid v; in_links := in_links v;
     in_private_data := in_private_data v |}.
Definition with_in_child_count (n : Z) (v : vfs_inode) : vfs_inode :=
  {| in_name := in_name v; in_kind := in_kind v; in_ops := in_ops v; in_inode_ops := in_inode_ops v;
     in_ref_count := in_ref_count v; in_size := in_size v; in_children := in_children v;
     in_child_count := n; in_child_capacity := in_child_capacity v;
     in_mode := in_mode v; in_uid := in_uid v; in_gid := in_gid v; in_links := in_links v;
     in_private_data := in_private_data v |}.
Definition with_in_children (base : option Z) (capacity : Z) (v : vfs_inode) : vfs_inode :=
  {| in_name := in_name v; in_kind := in_kind v; in_ops := in_ops v; in_inode_ops := in_inode_ops v;
     in_ref_count := in_ref_count v; in_size := in_size v; in_children := base;
     in_child_count := in_child_count v; in_child_capacity := capacity;
     in_mode := in_mode v; in_uid := in_uid v; in_gid := in_gid v; in_links := in_links v;
     in_private_data := in_private_data v |}.
Definition with_in_name (n : name_ptr) (v : vfs_inode) : vfs_inode :=
  {| in_name := n; in_kind := in_kind v; in_ops := in_ops v; in_inode_ops := in_inode_ops v;
     in_ref_count := in_ref_count v; in_size := in_size v; in_children := in_children v;
     in_child_count := in_child_count v; in_child_capacity := in_child_capacity v;
     in_mode := in_mode v; in_uid := in_uid v; in_gid := in_gid v; in_links := in_links v;
     in_private_data := in_private_data v |}.

Definition with_f_offset (n : Z) (f : vfs_file) : vfs_file :=
  {| f_inode := f_inode f; f_flags := f_flags f; f_offset := n; f_ref_count := f_ref_count f |}.
Definition with_f_ref_count (n : Z) (f : vfs_file) : vfs_file :=
  {| f_inode := f_inode f; f_flags := f_flags f; f_offset := f_offset f; f_ref_count := n |}.
