(* ===== verification/Simplefs.v ===== *)
(** * The disk file system ([src/kernel/simplefs.c])

    Files and directories are single extents of 512-byte blocks.  The kernel keeps
    the inode table, the two bitmaps and the directory entries in memory and writes
    them back after every change.  The model has these statics as a record, the
    disk below them as the state [St] of the mounted block device, and disk
    structures as bytes, encoded where the code casts a buffer to a structure.  This
    file has the definitions; [SimplefsData] has the theorems. *)

From S2P Require Import Prelude Bitmap Mem Block Vnode.

Local Open Scope Z_scope.
Local Open Scope c_scope.

Definition SIMPLEFS_MAGIC : Z := 827541075.
Definition SIMPLEFS_VERSION : Z := 3.
Definition SIMPLEFS_NAME_MAX : Z := 28.
Definition SIMPLEFS_INODE_DIR : Z := 1.
Definition SIMPLEFS_INODE_FILE : Z := 2.
Definition SIMPLEFS_MAX_MOUNT_INODES : Z := 64.
Definition SIMPLEFS_DIRECTORY_CAPACITY : Z := 32.
Definition SIMPLEFS_MAX_DIRECTORY_SLOTS : Z := 16.
Definition SIMPLEFS_MAX_MOUNT_DIRENTS : Z := SIMPLEFS_DIRECTORY_CAPACITY * SIMPLEFS_MAX_DIRECTORY_SLOTS.
Definition SIMPLEFS_MAX_MOUNT_BLOCKS : Z := 32768.
Definition SIMPLEFS_MAX_BLOCK_BITMAP_BYTES : Z := SIMPLEFS_MAX_MOUNT_BLOCKS / 8.
Definition SIMPLEFS_INVALID_DIR_SLOT : Z := 4294967295.
Definition sizeof_inode_disk : Z := 32.
Definition sizeof_dir_entry_disk : Z := 32.
Definition sizeof_superblock : Z := 56.

Record simplefs_superblock := {
  sb_magic : Z; sb_version : Z; sb_block_size : Z; sb_total_blocks : Z; sb_inode_count : Z;
  sb_inode_table_start : Z; sb_inode_table_blocks : Z; sb_inode_bitmap_start : Z;
  sb_inode_bitmap_blocks : Z; sb_block_bitmap_start : Z; sb_block_bitmap_blocks : Z;
  sb_data_block_start : Z; sb_root_inode : Z; sb_reserved : Z;
}.

Record simplefs_inode_disk := {
  d_kind : Z; d_size : Z; d_data_block : Z; d_block_count : Z; d_child_count : Z; d_mode : Z;
  d_uid : Z; d_gid : Z;
}.

Definition zero_inode_disk : simplefs_inode_disk :=
  {| d_kind := 0; d_size := 0; d_data_block := 0; d_block_count := 0; d_child_count := 0;
     d_mode := 0; d_uid := 0; d_gid := 0 |}.

(** The structures as bytes at an address. *)
Definition superblock_at (m : carray Z) (a : Z) : simplefs_superblock :=
  {| sb_magic := load32 m a; sb_version := load32 m (a + 4); sb_block_size := load32 m (a + 8);
     sb_total_blocks := load32 m (a + 12); sb_inode_count := load32 m (a + 16);
     sb_inode_table_start := load32 m (a + 20); sb_inode_table_blocks := load32 m (a + 24);
     sb_inode_bitmap_start := load32 m (a + 28); sb_inode_bitmap_blocks := load32 m (a + 32);
     sb_block_bitmap_start := load32 m (a + 36); sb_block_bitmap_blocks := load32 m (a + 40);
     sb_data_block_start := load32 m (a + 44); sb_root_inode := load32 m (a + 48);
     sb_reserved := load32 m (a + 52) |}.

Definition store_superblock (m : carray Z) (a : Z) (b : simplefs_superblock) : carray Z :=
  let m := store32 m a (sb_magic b) in
  let m := store32 m (a + 4) (sb_version b) in
  let m := store32 m (a + 8) (sb_block_size b) in
  let m := store32 m (a + 12) (sb_total_blocks b) in
  let m := store32 m (a + 16) (sb_inode_count b) in
  let m := store32 m (a + 20) (sb_inode_table_start b) in
  let m := store32 m (a + 24) (sb_inode_table_blocks b) in
  let m := store32 m (a + 28) (sb_inode_bitmap_start b) in
  let m := store32 m (a + 32) (sb_inode_bitmap_blocks b) in
  let m := store32 m (a + 36) (sb_block_bitmap_start b) in
  let m := store32 m (a + 40) (sb_block_bitmap_blocks b) in
  let m := store32 m (a + 44) (sb_data_block_start b) in
  let m := store32 m (a + 48) (sb_root_inode b) in
  store32 m (a + 52) (sb_reserved b).

Definition inode_disk_at (m : carray Z) (a : Z) : simplefs_inode_disk :=
  {| d_kind := load32 m a; d_size := load32 m (a + 4); d_data_block := load32 m (a + 8);
     d_block_count := load32 m (a + 12); d_child_count := load32 m (a + 16);
     d_mode := load32 m (a + 20); d_uid := load32 m (a + 24); d_gid := load32 m (a + 28) |}.

Definition store_inode_disk (m : carray Z) (a : Z) (d : simplefs_inode_disk) : carray Z :=
  let m := store32 m a (d_kind d) in
  let m := store32 m (a + 4) (d_size d) in
  let m := store32 m (a + 8) (d_data_block d) in
  let m := store32 m (a + 12) (d_block_count d) in
  let m := store32 m (a + 16) (d_child_count d) in
  let m := store32 m (a + 20) (d_mode d) in
  let m := store32 m (a + 24) (d_uid d) in
  store32 m (a + 28) (d_gid d).

(** Directory entry [i] of a buffer: its inode index and the address of its name. *)
Definition ent_inode_index (m : carray Z) (i : Z) : Z := load32 m (sizeof_dir_entry_disk * i).
Definition ent_name_addr (i : Z) : Z := sizeof_dir_entry_disk * i + 4.

Definition with_d_size (n : Z) (d : simplefs_inode_disk) : simplefs_inode_disk :=
  {| d_kind := d_kind d; d_size := n; d_data_block := d_data_block d; d_block_count := d_block_count d;
     d_child_count := d_child_count d; d_mode := d_mode d; d_uid := d_uid d; d_gid := d_gid d |}.
Definition with_d_extent (start count : Z) (d : simplefs_inode_disk) : simplefs_inode_disk :=
  {| d_kind := d_kind d; d_size := d_size d; d_data_block := start; d_block_count := count;
     d_child_count := d_child_count d; d_mode := d_mode d; d_uid := d_uid d; d_gid := d_gid d |}.
Definition with_d_child_count (n : Z) (d : simplefs_inode_disk) : simplefs_inode_disk :=
  {| d_kind := d_kind d; d_size := d_size d; d_data_block := d_data_block d;
     d_block_count := d_block_count d; d_child_count := n; d_mode := d_mode d; d_uid := d_uid d;
     d_gid := d_gid d |}.

(** The name buffer holds the C string [rt_name]. *)
Record simplefs_runtime_inode := {
  rt_disk : simplefs_inode_disk;
  rt_vfs : vfs_inode;
  rt_name : list Z;
  rt_inode_index : Z;
  rt_populated : Z;
  rt_dir_slot_base : Z;
}.

Definition with_rt_disk (d : simplefs_inode_disk) (n : simplefs_runtime_inode) : simplefs_runtime_inode :=
  {| rt_disk := d; rt_vfs := rt_vfs n; rt_name := rt_name n; rt_inode_index := rt_inode_index n;
     rt_populated := rt_populated n; rt_dir_slot_base := rt_dir_slot_base n |}.
Definition with_rt_vfs (v : vfs_inode) (n : simplefs_runtime_inode) : simplefs_runtime_inode :=
  {| rt_disk := rt_disk n; rt_vfs := v; rt_name := rt_name n; rt_inode_index := rt_inode_index n;
     rt_populated := rt_populated n; rt_dir_slot_base := rt_dir_slot_base n |}.
Definition with_rt_name (s : list Z) (n : simplefs_runtime_inode) : simplefs_runtime_inode :=
  {| rt_disk := rt_disk n; rt_vfs := rt_vfs n; rt_name := s; rt_inode_index := rt_inode_index n;
     rt_populated := rt_populated n; rt_dir_slot_base := rt_dir_slot_base n |}.
Definition with_rt_populated (p : Z) (n : simplefs_runtime_inode) : simplefs_runtime_inode :=
  {| rt_disk := rt_disk n; rt_vfs := rt_vfs n; rt_name := rt_name n; rt_inode_index := rt_inode_index n;
     rt_populated := p; rt_dir_slot_base := rt_dir_slot_base n |}.
Definition with_rt_dir_slot_base (b : Z) (n : simplefs_runtime_inode) : simplefs_runtime_inode :=
  {| rt_disk := rt_disk n; rt_vfs := rt_vfs n; rt_name := rt_name n; rt_inode_index := rt_inode_index n;
     rt_populated := rt_populated n; rt_dir_slot_base := b |}.

Definition min_u32 (left right : Z) : Z := if left <? right then left else right.

Definition align_up (value alignment : Z) : Z :=
  Z.land (value ⊞ alignment ⊟ 1) (not32 (alignment - 1)).

Definition simplefs_required_blocks (size : Z) : Z :=
  if size =? 0 then 0 else align_up size SIMPLEFS_BLOCK_SIZE / SIMPLEFS_BLOCK_SIZE.

Definition simplefs_dir_required_blocks (entry_count : Z) : Z :=
  if entry_count =? 0 then 0
  else align_up (entry_count ⊠ sizeof_dir_entry_disk) SIMPLEFS_BLOCK_SIZE / SIMPLEFS_BLOCK_SIZE.

Section simplefs.
Context {St : Type}.

(** The statics of the file, and the storage below the mounted device. *)
Record simplefs := {
  runtime_inodes : carray simplefs_runtime_inode;
  runtime_dir_entries : carray vfs_dir_entry;
  inode_table_image : carray Z;
  mounted_device : option (block_device St);
  mounted_superblock : simplefs_superblock;
  inode_bitmap : carray Z;
  block_bitmap : carray Z;
  mounted_inode_count : Z;
  next_dir_entry_slot : Z;
  block_scratch : carray Z;
  storage : St;
}.
Implicit Types (s : simplefs) (node : Z).

Definition with_runtime_inodes (x : carray simplefs_runtime_inode) s : simplefs :=
  {| runtime_inodes := x; runtime_dir_entries := runtime_dir_entries s;
     inode_table_image := inode_table_image s; mounted_device := mounted_device s;
     mounted_superblock := mounted_superblock s; inode_bitmap := inode_bitmap s;
     block_bitmap := block_bitmap s; mounted_inode_count := mounted_inode_count s;
     next_dir_entry_slot := next_dir_entry_slot s; block_scratch := block_scratch s; storage := storage s |}.
Definition with_dir_entries (x : carray vfs_dir_entry) s : simplefs :=
  {| runtime_inodes := runtime_inodes s; runtime_dir_entries := x;
     inode_table_image := inode_table_image s; mounted_device := mounted_device s;
     mounted_superblock := mounted_superblock s; inode_bitmap := inode_bitmap s;
     block_bitmap := block_bitmap s; mounted_inode_count := mounted_inode_count s;
     next_dir_entry_slot := next_dir_entry_slot s; block_scratch := block_scratch s; storage := storage s |}.
Definition with_table_image (x : carray Z) s : simplefs :=
  {| runtime_inodes := runtime_inodes s; runtime_dir_entries := runtime_dir_entries s;
     inode_table_image := x; mounted_device := mounted_device s;
     mounted_superblock := mounted_superblock s; inode_bitmap := inode_bitmap s;
     block_bitmap := block_bitmap s; mounted_inode_count := mounted_inode_count s;
     next_dir_entry_slot := next_dir_entry_slot s; block_scratch := block_scratch s; storage := storage s |}.
Definition with_superblock (x : simplefs_superblock) s : simplefs :=
  {| runtime_inodes := runtime_inodes s; runtime_dir_entries := runtime_dir_entries s;
     inode_table_image := inode_table_image s; mounted_device := mounted_device s;
     mounted_superblock := x; inode_bitmap := inode_bitmap s;
     block_bitmap := block_bitmap s; mounted_inode_count := mounted_inode_count s;
     next_dir_entry_slot := next_dir_entry_slot s; block_scratch := block_scratch s; storage := storage s |}.
Definition with_inode_bitmap (x : carray Z) s : simplefs :=
  {| runtime_inodes := runtime_inodes s; runtime_dir_entries := runtime_dir_entries s;
     inode_table_image := inode_table_image s; mounted_device := mounted_device s;
     mounted_superblock := mounted_superblock s; inode_bitmap := x;
     block_bitmap := block_bitmap s; mounted_inode_count := mounted_inode_count s;
     next_dir_entry_slot := next_dir_entry_slot s; block_scratch := block_scratch s; storage := storage s |}.
Definition with_block_bitmap (x : carray Z) s : simplefs :=
  {| runtime_inodes := runtime_inodes s; runtime_dir_entries := runtime_dir_entries s;
     inode_table_image := inode_table_image s; mounted_device := mounted_device s;
     mounted_superblock := mounted_superblock s; inode_bitmap := inode_bitmap s;
     block_bitmap := x; mounted_inode_count := mounted_inode_count s;
     next_dir_entry_slot := next_dir_entry_slot s; block_scratch := block_scratch s; storage := storage s |}.
Definition with_next_slot (x : Z) s : simplefs :=
  {| runtime_inodes := runtime_inodes s; runtime_dir_entries := runtime_dir_entries s;
     inode_table_image := inode_table_image s; mounted_device := mounted_device s;
     mounted_superblock := mounted_superblock s; inode_bitmap := inode_bitmap s;
     block_bitmap := block_bitmap s; mounted_inode_count := mounted_inode_count s;
     next_dir_entry_slot := x; block_scratch := block_scratch s; storage := storage s |}.
Definition with_scratch (x : carray Z) s : simplefs :=
  {| runtime_inodes := runtime_inodes s; runtime_dir_entries := runtime_dir_entries s;
     inode_table_image := inode_table_image s; mounted_device := mounted_device s;
     mounted_superblock := mounted_superblock s; inode_bitmap := inode_bitmap s;
     block_bitmap := block_bitmap s; mounted_inode_count := mounted_inode_count s;
     next_dir_entry_slot := next_dir_entry_slot s; block_scratch := x; storage := storage s |}.
Definition with_storage (x : St) s : simplefs :=
  {| runtime_inodes := runtime_inodes s; runtime_dir_entries := runtime_dir_entries s;
     inode_table_image := inode_table_image s; mounted_device := mounted_device s;
     mounted_superblock := mounted_superblock s; inode_bitmap := inode_bitmap s;
     block_bitmap := block_bitmap s; mounted_inode_count := mounted_inode_count s;
     next_dir_entry_slot := next_dir_entry_slot s; block_scratch := block_scratch s; storage := x |}.

(** Updates of one runtime inode. *)
Definition set_node node (x : simplefs_runtime_inode) s : simplefs :=
  with_runtime_inodes (<[node:=x]> (runtime_inodes s)) s.
Definition node_disk node s : simplefs_inode_disk := rt_disk (runtime_inodes s node).
Definition node_vfs node s : vfs_inode := rt_vfs (runtime_inodes s node).
Definition set_disk node (d : simplefs_inode_disk) s : simplefs :=
  set_node node (with_rt_disk d (runtime_inodes s node)) s.
Definition set_vfs node (v : vfs_inode) s : simplefs :=
  set_node node (with_rt_vfs v (runtime_inodes s node)) s.

(** ** Bitmaps *)

Definition simplefs_inode_used (inode_index : Z) s : bool := bm_test 8 (inode_bitmap s) inode_index.

Definition simplefs_set_inode_used (inode_index : Z) (used : bool) s : simplefs :=
  with_inode_bitmap
    ((if used then bm_set 8 else bm_clear 8) (inode_bitmap s) inode_index) s.

Definition simplefs_block_used (block_index : Z) s : bool := bm_test 8 (block_bitmap s) block_index.

Definition simplefs_set_block_used (block_index : Z) (used : bool) s : simplefs :=
  with_block_bitmap
    ((if used then bm_set 8 else bm_clear 8) (block_bitmap s) block_index) s.

(** ** Blocks *)

Definition simplefs_read_blocks (start_block count : Z) (buffer : carray Z) s : Z * carray Z :=
  match mounted_device s with
  | None => (-1, buffer)
  | Some d =>
      let '(r, buf) := block_read (Some d) start_block count (Some buffer) (storage s) in
      (r, default buffer buf)
  end.

Definition device_writable s : bool :=
  match mounted_device s with None => false | Some d => negb (truthy (read_only d)) end.

Definition simplefs_write_blocks (start_block count : Z) (buffer : carray Z) s : Z * simplefs :=
  if negb (device_writable s) then (-1, s)
  else
    let '(r, st) := block_write (mounted_device s) start_block count (Some buffer) (storage s) in
    (r, with_storage st s).

Definition simplefs_flush_inode_table s : Z * simplefs :=
  let image := for_range 0 (mounted_inode_count s)
    (λ index m, store_inode_disk m (sizeof_inode_disk * index) (node_disk index s))
    (inode_table_image s) in
  let s := with_table_image image s in
  simplefs_write_blocks (sb_inode_table_start (mounted_superblock s))
    (sb_inode_table_blocks (mounted_superblock s)) image s.

Definition simplefs_flush_inode_bitmap s : Z * simplefs :=
  simplefs_write_blocks (sb_inode_bitmap_start (mounted_superblock s))
    (sb_inode_bitmap_blocks (mounted_superblock s)) (inode_bitmap s) s.

Definition simplefs_flush_block_bitmap s : Z * simplefs :=
  simplefs_write_blocks (sb_block_bitmap_start (mounted_superblock s))
    (sb_block_bitmap_blocks (mounted_superblock s)) (block_bitmap s) s.

Definition simplefs_flush_superblock s : Z * simplefs :=
  let scratch := zero_bytes (block_scratch s) 0 SIMPLEFS_BLOCK_SIZE in
  let scratch := store_superblock scratch 0 (mounted_superblock s) in
  simplefs_write_blocks 0 1 scratch (with_scratch scratch s).

Definition simplefs_flush_metadata s : Z * simplefs :=
  if negb (device_writable s) then (-1, s)
  else
    let '(r, s) := simplefs_flush_superblock s in
    if truthy r then (-1, s) else
    let '(r, s) := simplefs_flush_inode_table s in
    if truthy r then (-1, s) else
    let '(r, s) := simplefs_flush_inode_bitmap s in
    if truthy r then (-1, s) else
    simplefs_flush_block_bitmap s.

Definition simplefs_zero_block (block_index : Z) s : Z * simplefs :=
  let scratch := zero_bytes (block_scratch s) 0 SIMPLEFS_BLOCK_SIZE in
  simplefs_write_blocks block_index 1 scratch (with_scratch scratch s).

(** [for (index = lo; index < hi; index++) if (op(index) != 0) return -1;], with
    [n] turns to go. *)
Fixpoint for_each_block (n : nat) (index : Z) (op : Z → simplefs → Z * simplefs) s : Z * simplefs :=
  match n with
  | O => (0, s)
  | S n =>
      let '(r, s) := op index s in
      if truthy r then (-1, s) else for_each_block n (index + 1) op s
  end.

(** ** Extents *)

Definition simplefs_extent_is_free (start_block count : Z) s : bool :=
  if (start_block <? sb_data_block_start (mounted_superblock s))
     || (sb_total_blocks (mounted_superblock s) <? start_block ⊞ count) then false
  else match for_find 0 count (λ index, simplefs_block_used (start_block ⊞ index) s) with
       | Some _ => false
       | None => true
       end.

Definition simplefs_mark_extent (start_block count : Z) (used : bool) s : simplefs :=
  for_range 0 count (λ index, simplefs_set_block_used (start_block ⊞ index) used) s.

(** The search loop of [simplefs_allocate_extent], with [n] starts to go. *)
Fixpoint find_extent (n : nat) (start_block count : Z) s : option Z :=
  match n with
  | O => None
  | S n =>
      if sb_total_blocks (mounted_superblock s) <? start_block ⊞ count then None
      else if simplefs_extent_is_free start_block count s then Some start_block
      else find_extent n (start_block ⊞ 1) count s
  end.

(** The loop runs while the extent ends inside the volume, so a start beyond it ends
    the search. *)
Definition extent_fuel s : nat := Z.to_nat (sb_total_blocks (mounted_superblock s) + 1).

Definition simplefs_allocate_extent (count : Z) s : option Z * simplefs :=
  if count =? 0 then (None, s)
  else match find_extent (extent_fuel s) (sb_data_block_start (mounted_superblock s)) count s with
       | Some start_block => (Some start_block, simplefs_mark_extent start_block count true s)
       | None => (None, s)
       end.

Definition simplefs_release_extent node s : simplefs :=
  let d := node_disk node s in
  let s := if truthy (d_block_count d)
           then simplefs_mark_extent (d_data_block d) (d_block_count d) false s else s in
  set_disk node (with_d_extent 0 0 (node_disk node s)) s.

Definition simplefs_copy_extent (from_block to_block count : Z) s : Z * simplefs :=
  for_each_block (Z.to_nat count) 0
    (λ index s,
       let '(r, scratch) := simplefs_read_blocks (from_block ⊞ index) 1 (block_scratch s) s in
       let s := with_scratch scratch s in
       if truthy r then (-1, s)
       else simplefs_write_blocks (to_block ⊞ index) 1 scratch s) s.

(** ** Directories *)

(** The string a name pointer points to. *)
Definition name_bytes (p : name_ptr) s : list Z :=
  match p with
  | NP_null => []
  | NP_node i => rt_name (runtime_inodes s i)
  | NP_text t => t
  end.

(** The C string at [a], of which [string_length] counts at most [n] characters:
    every caller refuses a name longer than [SIMPLEFS_NAME_MAX], so counting up to
    one more gives the same answer. *)
Fixpoint read_name (n : nat) (m : carray Z) (a : Z) : list Z :=
  match n with
  | O => []
  | S n => if m a =? 0 then [] else m a :: read_name n m (a + 1)
  end.
Definition entry_name (m : carray Z) (i : Z) : list Z :=
  read_name (Z.to_nat (SIMPLEFS_NAME_MAX + 1)) m (ent_name_addr i).

Definition simplefs_set_inode_name node (name : list Z) s : simplefs :=
  let n := with_rt_name name (runtime_inodes s node) in
  set_node node (with_rt_vfs (with_in_name (NP_node node) (rt_vfs n)) n) s.

Definition simplefs_alloc_dir_slots (directory : Z) s : Z * simplefs :=
  let n := runtime_inodes s directory in
  if negb (rt_dir_slot_base n =? SIMPLEFS_INVALID_DIR_SLOT) then (0, s)
  else if SIMPLEFS_MAX_MOUNT_DIRENTS <? next_dir_entry_slot s ⊞ SIMPLEFS_DIRECTORY_CAPACITY then (-1, s)
  else
    let base := next_dir_entry_slot s in
    let n := with_rt_dir_slot_base base n in
    let n := with_rt_vfs (with_in_children (Some base) SIMPLEFS_DIRECTORY_CAPACITY (rt_vfs n)) n in
    (0, set_node directory n (with_next_slot (base ⊞ SIMPLEFS_DIRECTORY_CAPACITY) s)).

Definition simplefs_read_dir_entries (directory : Z) (entries : carray Z) (entry_count : Z) s
    : Z * carray Z :=
  if entry_count =? 0 then (0, entries)
  else
    let required_blocks := simplefs_dir_required_blocks entry_count in
    let d := node_disk directory s in
    if (d_data_block d =? 0) || negb (d_block_count d =? required_blocks) then (-1, entries)
    else
      let entries := zero_bytes entries 0 (sizeof_dir_entry_disk * SIMPLEFS_DIRECTORY_CAPACITY) in
      simplefs_read_blocks (d_data_block d) required_blocks entries s.

(** The extent part of [simplefs_write_dir_entries]: make the directory's extent
    [required_blocks] long, with [false] for the failure return. *)
Definition prepare_dir_extent (directory required_blocks : Z) s : bool * simplefs :=
  if required_blocks =? 0 then
    (true, if truthy (d_block_count (node_disk directory s))
           then simplefs_release_extent directory s else s)
  else if d_block_count (node_disk directory s) =? required_blocks then (true, s)
  else
    let s := if truthy (d_block_count (node_disk directory s))
             then simplefs_release_extent directory s else s in
    match simplefs_allocate_extent required_blocks s with
    | (None, s) => (false, s)
    | (Some start_block, s) =>
        let s := set_disk directory (with_d_extent start_block required_blocks (node_disk directory s)) s in
        let '(r, s) := for_each_block (Z.to_nat required_blocks) 0
          (λ index s, simplefs_zero_block (d_data_block (node_disk directory s) ⊞ index) s) s in
        if truthy r then (false, simplefs_release_extent directory s) else (true, s)
    end.

Definition simplefs_write_dir_entries (directory : Z) (entries : carray Z) (entry_count : Z) s
    : Z * simplefs :=
  let required_blocks := simplefs_dir_required_blocks entry_count in
  if negb (device_writable s) || negb (d_kind (node_disk directory s) =? SIMPLEFS_INODE_DIR) then (-1, s)
  else if SIMPLEFS_DIRECTORY_CAPACITY <? entry_count then (-1, s)
  else
    let '(ok, s) := prepare_dir_extent directory required_blocks s in
    if negb ok then (-1, s)
    else
      let '(r, s) := if required_blocks =? 0 then (0, s)
                     else simplefs_write_blocks (d_data_block (node_disk directory s)) required_blocks entries s in
      if truthy r then (-1, simplefs_release_extent directory s)
      else
        let d := with_d_size (entry_count ⊠ sizeof_dir_entry_disk)
                   (with_d_child_count entry_count (node_disk directory s)) in
        let s := set_disk directory d s in
        (0, set_vfs directory (with_in_size (d_size d) (node_vfs directory s)) s).

(** Slot [k] of a directory's children. *)
Definition child_slot (directory k : Z) s : Z := default 0 (in_children (node_vfs directory s)) + k.
Definition child_entry (directory k : Z) s : vfs_dir_entry :=
  runtime_dir_entries s (child_slot directory k s).
Definition set_child_entry (directory k : Z) (e : vfs_dir_entry) s : simplefs :=
  with_dir_entries (<[child_slot directory k s := e]> (runtime_dir_entries s)) s.
Definition null_entry : vfs_dir_entry := {| ent_name := NP_null; ent_inode := None |}.

(** [children[child_count] = child; child_count++]. *)
Definition append_node (directory child : Z) s : simplefs :=
  let k := in_child_count (node_vfs directory s) in
  let s := set_child_entry directory k
             {| ent_name := in_name (node_vfs child s); ent_inode := Some (IP_node child) |} s in
  set_vfs directory (with_in_child_count (k ⊞ 1) (node_vfs directory s)) s.

(** The loop of [simplefs_populate_directory] over the entries read, [n] to go;
    [populate] is the recursive call.  [None] is a recursion that does not end. *)
Fixpoint populate_children (populate : Z → simplefs → option (Z * simplefs)) (n : nat) (index : Z)
    (directory : Z) (entries : carray Z) s : option (Z * simplefs) :=
  match n with
  | O => Some (0, s)
  | S n =>
      if mounted_inode_count s <=? ent_inode_index entries index then Some (-1, s)
      else
        let child := ent_inode_index entries index in
        let child_name := entry_name entries index in
        if (Z.of_nat (length child_name) =? 0) || (SIMPLEFS_NAME_MAX <? Z.of_nat (length child_name))
        then Some (-1, s)
        else
          let s := simplefs_set_inode_name child child_name s in
          let s := append_node directory child s in
          if (d_kind (node_disk child s) =? SIMPLEFS_INODE_DIR) && (rt_populated (runtime_inodes s child) =? 0)
          then match populate child s with
               | None => None
               | Some (r, s) =>
                   if truthy r then Some (-1, s)
                   else populate_children populate n (index + 1) directory entries s
               end
          else populate_children populate n (index + 1) directory entries s
  end.

(** What the local array [entries] of a call holds before it is cleared. *)
Context (stack : carray Z).

Definition cleared_entries : carray Z :=
  zero_bytes stack 0 (sizeof_dir_entry_disk * SIMPLEFS_DIRECTORY_CAPACITY).

(** The recursion of the code has no bound of its own; [fuel] bounds its depth. *)
Fixpoint simplefs_populate_directory (fuel : nat) (directory : Z) s : option (Z * simplefs) :=
  match fuel with
  | O => None
  | S fuel =>
      if negb (d_kind (node_disk directory s) =? SIMPLEFS_INODE_DIR) then Some (-1, s)
      else if truthy (rt_populated (runtime_inodes s directory)) then Some (0, s)
      else if SIMPLEFS_DIRECTORY_CAPACITY <? d_child_count (node_disk directory s) then Some (-1, s)
      else
        let '(r, s) := simplefs_alloc_dir_slots directory s in
        if truthy r then Some (-1, s)
        else
          let s := for_range 0 SIMPLEFS_DIRECTORY_CAPACITY
                     (λ k, set_child_entry directory k null_entry) s in
          let s := set_vfs directory (with_in_child_count 0 (node_vfs directory s)) s in
          let count := d_child_count (node_disk directory s) in
          let finish (s : simplefs) :=
            Some (0, set_node directory (with_rt_populated 1 (runtime_inodes s directory)) s) in
          if count =? 0 then finish s
          else
            let '(r, entries) := simplefs_read_dir_entries directory cleared_entries count s in
            if truthy r then Some (-1, s)
            else match populate_children (simplefs_populate_directory fuel) (Z.to_nat count) 0
                         directory entries s with
                 | None => None
                 | Some (r, s) => if truthy r then Some (-1, s) else finish s
                 end
  end.

(** A chain of directories without a repetition is no longer than the inode table. *)
Definition POPULATE_DEPTH : nat := Z.to_nat (SIMPLEFS_MAX_MOUNT_INODES + 1).

Definition simplefs_find_child (directory : Z) (name : list Z) s : option (Z * simplefs) :=
  match simplefs_populate_directory POPULATE_DEPTH directory s with
  | None => None
  | Some (r, s) =>
      if truthy r then Some (-1, s)
      else
        Some (match for_find 0 (in_child_count (node_vfs directory s))
                (λ k, bool_decide (name_bytes (ent_name (child_entry directory k s)) s = name)) with
              | Some k => i32 k
              | None => -1
              end, s)
  end.

Definition simplefs_alloc_inode s : Z * simplefs :=
  match for_find 0 (mounted_inode_count s) (λ i, negb (simplefs_inode_used i s)) with
  | Some i => (i32 i, simplefs_set_inode_used i true s)
  | None => (-1, s)
  end.

Definition fresh_vfs node : vfs_inode :=
  {| in_name := NP_node node; in_kind := VFS_INODE_NONE; in_ops := NO_FILE_OPS;
     in_inode_ops := simplefs_inode_ops; in_ref_count := 0; in_size := 0; in_children := None;
     in_child_count := 0; in_child_capacity := 0; in_mode := 0; in_uid := 0; in_gid := 0;
     in_links := 0; in_private_data := PD_node node |}.

Definition fresh_node node : simplefs_runtime_inode :=
  {| rt_disk := zero_inode_disk; rt_vfs := fresh_vfs node; rt_name := [];
     rt_inode_index := node; rt_populated := 0; rt_dir_slot_base := SIMPLEFS_INVALID_DIR_SLOT |}.

Definition simplefs_reset_runtime_inode node s : simplefs := set_node node (fresh_node node) s.

(** ** File data *)

(** [while (required_blocks-- != 0u)] of [simplefs_ensure_extent]. *)
Fixpoint zero_blocks_down (n : nat) node s : Z * simplefs :=
  match n with
  | O => (0, s)
  | S n =>
      let '(r, s) := simplefs_zero_block (d_data_block (node_disk node s) ⊞ Z.of_nat n) s in
      if truthy r then (-1, s) else zero_blocks_down n node s
  end.

(** The three ways to grow: a first extent, more blocks behind it, a move. *)
Definition first_extent node (required_blocks : Z) s : Z * simplefs :=
  match simplefs_allocate_extent required_blocks s with
  | (None, s) => (-1, s)
  | (Some new_start_block, s) =>
      let s := set_disk node (with_d_extent new_start_block required_blocks (node_disk node s)) s in
      zero_blocks_down (Z.to_nat required_blocks) node s
  end.

Definition extend_extent node (required_blocks : Z) s : Z * simplefs :=
  let d := node_disk node s in
  let tail_start := d_data_block d ⊞ d_block_count d in
  let tail_blocks := required_blocks ⊟ d_block_count d in
  let s := simplefs_mark_extent tail_start tail_blocks true s in
  let '(r, s) := for_each_block (Z.to_nat tail_blocks) 0
                   (λ index, simplefs_zero_block (tail_start ⊞ index)) s in
  if truthy r then (-1, s)
  else (0, set_disk node (with_d_extent (d_data_block (node_disk node s)) required_blocks (node_disk node s)) s).

Definition move_extent node (required_blocks : Z) s : Z * simplefs :=
  let old_start_block := d_data_block (node_disk node s) in
  let old_block_count := d_block_count (node_disk node s) in
  match simplefs_allocate_extent required_blocks s with
  | (None, s) => (-1, s)
  | (Some new_start_block, s) =>
      let '(r, s) := simplefs_copy_extent old_start_block new_start_block old_block_count s in
      if truthy r then (-1, simplefs_mark_extent new_start_block required_blocks false s)
      else
        let '(r, s) := for_each_block (Z.to_nat (required_blocks - old_block_count)) old_block_count
                         (λ index, simplefs_zero_block (new_start_block ⊞ index)) s in
        if truthy r then (-1, simplefs_mark_extent new_start_block required_blocks false s)
        else
          let s := simplefs_mark_extent old_start_block old_block_count false s in
          (0, set_disk node (with_d_extent new_start_block required_blocks (node_disk node s)) s)
  end.

Definition simplefs_ensure_extent node (required_blocks : Z) s : Z * simplefs :=
  let d := node_disk node s in
  if required_blocks <=? d_block_count d then (0, s)
  else if d_block_count d =? 0 then first_extent node required_blocks s
  else if simplefs_extent_is_free (d_data_block d ⊞ d_block_count d) (required_blocks ⊟ d_block_count d) s
  then extend_extent node required_blocks s
  else move_extent node required_blocks s.

(** [while (cleared < length)]; every turn clears at least one byte. *)
Fixpoint zero_range_loop (fuel : nat) node (start_offset length cleared : Z) s : Z * simplefs :=
  match fuel with
  | O => (0, s)
  | S fuel =>
      if cleared <? length then
        let file_offset := start_offset ⊞ cleared in
        let block_offset := file_offset mod SIMPLEFS_BLOCK_SIZE in
        let file_block := file_offset / SIMPLEFS_BLOCK_SIZE in
        let chunk := min_u32 (length ⊟ cleared) (SIMPLEFS_BLOCK_SIZE - block_offset) in
        let '(r, scratch) :=
          simplefs_read_blocks (d_data_block (node_disk node s) ⊞ file_block) 1 (block_scratch s) s in
        let s := with_scratch scratch s in
        if truthy r then (-1, s)
        else
          let scratch := zero_bytes scratch block_offset chunk in
          let '(r, s) :=
            simplefs_write_blocks (d_data_block (node_disk node s) ⊞ file_block) 1 scratch
              (with_scratch scratch s) in
          if truthy r then (-1, s) else zero_range_loop fuel node start_offset length (cleared ⊞ chunk) s
      else (0, s)
  end.

Definition simplefs_zero_range node (start_offset length : Z) s : Z * simplefs :=
  zero_range_loop (Z.to_nat length) node start_offset length 0 s.

(** The extent part of [simplefs_resize_node]. *)
Definition resize_extent node (new_size : Z) s : Z * simplefs :=
  let old_size := d_size (node_disk node s) in
  let old_blocks := d_block_count (node_disk node s) in
  let required_blocks := simplefs_required_blocks new_size in
  if old_blocks <? required_blocks then
    let '(r, s) := simplefs_ensure_extent node required_blocks s in
    if truthy r then (-1, s)
    else if old_size <? new_size then
      let '(r, s) := simplefs_zero_range node old_size (new_size ⊟ old_size) s in
      if truthy r then (-1, s) else (0, s)
    else (0, s)
  else if required_blocks <? old_blocks then
    if required_blocks =? 0 then (0, simplefs_release_extent node s)
    else
      let s := simplefs_mark_extent (d_data_block (node_disk node s) ⊞ required_blocks)
                 (old_blocks ⊟ required_blocks) false s in
      let s := set_disk node
                 (with_d_extent (d_data_block (node_disk node s)) required_blocks (node_disk node s)) s in
      if truthy (new_size mod SIMPLEFS_BLOCK_SIZE) then
        let '(r, s) := simplefs_zero_range node new_size
                         (SIMPLEFS_BLOCK_SIZE - new_size mod SIMPLEFS_BLOCK_SIZE) s in
        if truthy r then (-1, s) else (0, s)
      else (0, s)
  else (0, s).

Definition simplefs_resize_node node (new_size : Z) s : Z * simplefs :=
  if negb (device_writable s) || negb (d_kind (node_disk node s) =? SIMPLEFS_INODE_FILE) then (-1, s)
  else
    let '(r, s) := resize_extent node new_size s in
    if truthy r then (-1, s)
    else
      let s := set_disk node (with_d_size new_size (node_disk node s)) s in
      let s := set_vfs node (with_in_size new_size (node_vfs node s)) s in
      simplefs_flush_metadata s.

(** The node behind an inode's private data. *)
Definition private_node (v : vfs_inode) : option Z :=
  match in_private_data v with PD_node i => Some i | _ => None end.

Definition simplefs_resize_inode (inode : option vfs_inode) (size : Z) s : Z * simplefs :=
  match inode ≫= private_node with
  | None => (-1, s)
  | Some node => simplefs_resize_node node size s
  end.

(** The buffer that starts [off] bytes into [m], and [m] with such a buffer put back. *)
Definition sub_buffer (m : carray Z) (off : Z) : carray Z := λ k, m (off + k).
Definition super_buffer (b : carray Z) (off : Z) : carray Z := λ k, b (k - off).

(** [while (copied < length)] of [simplefs_regular_read]: the count copied, whether it
    ended early, the destination and the state. *)
Fixpoint regular_read_loop (fuel : nat) node (offset length copied : Z) (destination : carray Z) s
    : Z * bool * carray Z * simplefs :=
  match fuel with
  | O => (copied, false, destination, s)
  | S fuel =>
      if copied <? length then
        let file_offset := offset ⊞ copied in
        let block_offset := file_offset mod SIMPLEFS_BLOCK_SIZE in
        let file_block := file_offset / SIMPLEFS_BLOCK_SIZE in
        let disk_block := d_data_block (node_disk node s) ⊞ file_block in
        let chunk := min_u32 (length ⊟ copied) (SIMPLEFS_BLOCK_SIZE - block_offset) in
        if d_block_count (node_disk node s) <=? file_block then (copied, true, destination, s)
        else if (block_offset =? 0) && (chunk =? SIMPLEFS_BLOCK_SIZE) then
          let '(r, b) := simplefs_read_blocks disk_block 1 (sub_buffer destination copied) s in
          let destination := super_buffer b copied in
          if truthy r then (copied, true, destination, s)
          else regular_read_loop fuel node offset length (copied ⊞ chunk) destination s
        else
          let '(r, scratch) := simplefs_read_blocks disk_block 1 (block_scratch s) s in
          let s := with_scratch scratch s in
          if truthy r then (copied, true, destination, s)
          else
            let destination := copy_bytes destination copied scratch block_offset chunk in
            regular_read_loop fuel node offset length (copied ⊞ chunk) destination s
      else (copied, false, destination, s)
  end.

(** The file is read through its inode, [inode]; the new offset is stored in it. *)
Definition simplefs_regular_read (file : vfs_file) (inode : vfs_inode) (buffer : option (carray Z))
    (length : Z) s : Z * vfs_file * option (carray Z) * simplefs :=
  match buffer, private_node inode with
  | Some destination, Some node =>
      let size := d_size (node_disk node s) in
      if size <=? f_offset file then (0, file, buffer, s)
      else
        let length := if size ⊟ f_offset file <? length then size ⊟ f_offset file else length in
        let '(copied, early, destination, s) :=
          regular_read_loop (Z.to_nat length) node (f_offset file) length 0 destination s in
        if early then (if truthy copied then i32 copied else -1, file, Some destination, s)
        else (i32 copied, with_f_offset (f_offset file ⊞ copied) file, Some destination, s)
  | _, _ => (-1, file, buffer, s)
  end.

Fixpoint regular_write_loop (fuel : nat) node (offset length written : Z) (buffer : carray Z) s
    : Z * bool * simplefs :=
  match fuel with
  | O => (written, false, s)
  | S fuel =>
      if written <? length then
        let file_offset := offset ⊞ written in
        let block_offset := file_offset mod SIMPLEFS_BLOCK_SIZE in
        let file_block := file_offset / SIMPLEFS_BLOCK_SIZE in
        let disk_block := d_data_block (node_disk node s) ⊞ file_block in
        let chunk := min_u32 (length ⊟ written) (SIMPLEFS_BLOCK_SIZE - block_offset) in
        if (block_offset =? 0) && (chunk =? SIMPLEFS_BLOCK_SIZE) then
          let '(r, s) := simplefs_write_blocks disk_block 1 (sub_buffer buffer written) s in
          if truthy r then (written, true, s)
          else regular_write_loop fuel node offset length (written ⊞ chunk) buffer s
        else
          let '(r, scratch) := simplefs_read_blocks disk_block 1 (block_scratch s) s in
          let s := with_scratch scratch s in
          if truthy r then (written, true, s)
          else
            let scratch := copy_bytes scratch block_offset buffer written chunk in
            let '(r, s) := simplefs_write_blocks disk_block 1 scratch (with_scratch scratch s) in
            if truthy r then (written, true, s)
            else regular_write_loop fuel node offset length (written ⊞ chunk) buffer s
      else (written, false, s)
  end.

Definition simplefs_regular_write (file : vfs_file) (inode : vfs_inode) (buffer : option (carray Z))
    (length : Z) s : Z * vfs_file * simplefs :=
  match buffer with
  | None => (-1, file, s)
  | Some source =>
      if negb (device_writable s) then (-1, file, s)
      else match private_node inode with
      | None => (-1, file, s)
      | Some node =>
          if negb (d_kind (node_disk node s) =? SIMPLEFS_INODE_FILE) then (-1, file, s)
          else if length =? 0 then (0, file, s)
          else
            let end_offset := f_offset file ⊞ length in
            if end_offset <? f_offset file then (-1, file, s)
            else
              let '(r, s) := if d_size (node_disk node s) <? end_offset
                             then simplefs_resize_node node end_offset s else (0, s) in
              if truthy r then (-1, file, s)
              else
                let '(written, early, s) :=
                  regular_write_loop (Z.to_nat length) node (f_offset file) length 0 source s in
                if early then (if truthy written then i32 written else -1, file, s)
                else (i32 written, with_f_offset (f_offset file ⊞ written) file, s)
      end
  end.

(** ** Directory operations *)

(** The inode that [simplefs_create_child] sets up. *)
Definition new_child_node node (kind : vfs_inode_kind) (mode : Z) (credentials : option vfs_credentials)
    : simplefs_runtime_inode :=
  let uid := match credentials with Some c => cred_uid c | None => 0 end in
  let gid := match credentials with Some c => cred_gid c | None => 0 end in
  {| rt_disk := {| d_kind := if decide (kind = VFS_INODE_DIR) then SIMPLEFS_INODE_DIR else SIMPLEFS_INODE_FILE;
                   d_size := 0; d_data_block := 0; d_block_count := 0; d_child_count := 0;
                   d_mode := mode; d_uid := uid; d_gid := gid |};
     rt_vfs := {| in_name := NP_node node; in_kind := kind;
                  in_ops := if decide (kind = VFS_INODE_REG) then simplefs_file_ops else NO_FILE_OPS;
                  in_inode_ops := simplefs_inode_ops; in_ref_count := 0; in_size := 0;
                  in_children := None; in_child_count := 0; in_child_capacity := 0; in_mode := mode;
                  in_uid := uid; in_gid := gid; in_links := 1; in_private_data := PD_node node |};
     rt_name := []; rt_inode_index := node; rt_populated := 0;
     rt_dir_slot_base := SIMPLEFS_INVALID_DIR_SLOT |}.

(** [entries[k]] given an inode and a name. *)
Definition put_entry (m : carray Z) (k node : Z) (name : list Z) : carray Z :=
  copy_bytes (store32 m (sizeof_dir_entry_disk * k) node) (ent_name_addr k)
    (λ j, default 0 (name !! Z.to_nat j)) 0 (Z.of_nat (length name)).

(** The part of [simplefs_create_child] after its checks: [entries] are the
    directory's, read from disk. *)
Definition add_child (directory : Z) (name : list Z) (kind : vfs_inode_kind) (mode : Z)
    (credentials : option vfs_credentials) (entries : carray Z) s : Z * option inode_ptr * simplefs :=
  let '(child, s) := simplefs_alloc_inode s in
  if child <? 0 then (-1, None, s)
  else
    let s := set_node child (new_child_node child kind mode credentials) s in
    let s := simplefs_set_inode_name child name s in
    let count := d_child_count (node_disk directory s) in
    let entries := put_entry entries count child name in
    let '(r, s) := simplefs_write_dir_entries directory entries (count ⊞ 1) s in
    if truthy r
    then (-1, None, simplefs_reset_runtime_inode child (simplefs_set_inode_used child false s))
    else
      let s := append_node directory child s in
      let '(r, s) := simplefs_flush_metadata s in
      if truthy r then (-1, None, s) else (0, Some (IP_node child), s).

Definition simplefs_create_child (directory_inode : option vfs_inode) (name : option (list Z))
    (kind : vfs_inode_kind) (mode : Z) (credentials : option vfs_credentials) s
    : option (Z * option inode_ptr * simplefs) :=
  match directory_inode ≫= private_node, name with
  | Some directory, Some name =>
      if negb (d_kind (node_disk directory s) =? SIMPLEFS_INODE_DIR) || negb (device_writable s)
      then Some (-1, None, s)
      else if (Z.of_nat (length name) =? 0) || (SIMPLEFS_NAME_MAX <? Z.of_nat (length name))
      then Some (-1, None, s)
      else match simplefs_find_child directory name s with
      | None => None
      | Some (k, s) =>
          if 0 <=? k then Some (-1, None, s)
          else
            let count := d_child_count (node_disk directory s) in
            if SIMPLEFS_DIRECTORY_CAPACITY <=? count then Some (-1, None, s)
            else
              let '(r, entries) := if count =? 0 then (0, cleared_entries)
                                   else simplefs_read_dir_entries directory cleared_entries count s in
              if truthy r then Some (-1, None, s)
              else Some (add_child directory name kind mode credentials entries s)
      end
  | _, _ => Some (-1, None, s)
  end.

(** One turn of the loop that closes the gap: entry [index + 1] moves to [index]. *)
Definition move_entry (directory index : Z) (x : carray Z * simplefs) : carray Z * simplefs :=
  let '(entries, s) := x in
  (copy_bytes entries (sizeof_dir_entry_disk * index) entries (sizeof_dir_entry_disk * (index + 1))
     sizeof_dir_entry_disk,
   set_child_entry directory index (child_entry directory (index + 1) s) s).

(** The part of [simplefs_remove_child] after its checks: drop entry [k] of the
    directory and the node [child] it names. *)
Definition drop_child (directory k child : Z) (entries : carray Z) s : Z * simplefs :=
  let s := simplefs_release_extent child s in
  let s := set_disk child (with_d_child_count 0 (with_d_size 0 (node_disk child s))) s in
  let s := set_vfs child (with_in_size 0 (node_vfs child s)) s in
  let count := d_child_count (node_disk directory s) in
  let '(entries, s) := for_range k (count - 1) (move_entry directory) (entries, s) in
  let '(entries, s) :=
    if truthy count
    then (zero_bytes entries (sizeof_dir_entry_disk * (count - 1)) sizeof_dir_entry_disk,
          set_child_entry directory (count - 1) null_entry s)
    else (entries, s) in
  let '(r, s) := simplefs_write_dir_entries directory entries (count ⊟ 1) s in
  if truthy r then (-1, s)
  else
    let v := node_vfs directory s in
    let s := if truthy (in_child_count v)
             then set_vfs directory (with_in_child_count (in_child_count v - 1) v) s else s in
    let s := simplefs_reset_runtime_inode child (simplefs_set_inode_used child false s) in
    let '(r, s) := simplefs_flush_metadata s in
    if truthy r then (-1, s) else (0, s).

(** The checks on the child: [false] when it must stay. *)
Definition child_removable (child : Z) s : option (bool * simplefs) :=
  if truthy (in_ref_count (node_vfs child s)) then Some (false, s)
  else if d_kind (node_disk child s) =? SIMPLEFS_INODE_DIR then
    match simplefs_populate_directory POPULATE_DEPTH child s with
    | None => None
    | Some (r, s) =>
        Some (negb (truthy r) && negb (truthy (in_child_count (node_vfs child s))), s)
    end
  else Some (true, s).

Definition simplefs_remove_child (directory_inode : option vfs_inode) (name : option (list Z)) s
    : option (Z * simplefs) :=
  match directory_inode ≫= private_node, name with
  | Some directory, Some name =>
      if negb (d_kind (node_disk directory s) =? SIMPLEFS_INODE_DIR) || negb (device_writable s)
      then Some (-1, s)
      else match simplefs_populate_directory POPULATE_DEPTH directory s with
      | None => None
      | Some (r, s) =>
          if truthy r then Some (-1, s)
          else match simplefs_find_child directory name s with
          | None => None
          | Some (k, s) =>
              let count := d_child_count (node_disk directory s) in
              if (k <? 0) || (count <=? k) then Some (-1, s)
              else
                let '(r, entries) := if count =? 0 then (0, cleared_entries)
                                     else simplefs_read_dir_entries directory cleared_entries count s in
                if truthy r then Some (-1, s)
                else
                  let child := ent_inode_index entries k in
                  if (mounted_inode_count s <=? child) || negb (simplefs_inode_used child s)
                  then Some (-1, s)
                  else match child_removable child s with
                  | None => None
                  | Some (ok, s) =>
                      if negb ok then Some (-1, s) else Some (drop_child directory k child entries s)
                  end
          end
      end
  | _, _ => Some (-1, s)
  end.

(** ** Mounting *)

(** A runtime inode of a cleared table. *)
Definition zero_node : simplefs_runtime_inode :=
  {| rt_disk := zero_inode_disk;
     rt_vfs := {| in_name := NP_null; in_kind := VFS_INODE_NONE; in_ops := NO_FILE_OPS;
                  in_inode_ops := NO_INODE_OPS; in_ref_count := 0; in_size := 0; in_children := None;
                  in_child_count := 0; in_child_capacity := 0; in_mode := 0; in_uid := 0; in_gid := 0;
                  in_links := 0; in_private_data := PD_null |};
     rt_name := []; rt_inode_index := 0; rt_populated := 0; rt_dir_slot_base := 0 |}.

(** A runtime inode set up from its disk image. *)
Definition loaded_node node (d : simplefs_inode_disk) (kind : vfs_inode_kind) (ops : file_ops)
    : simplefs_runtime_inode :=
  {| rt_disk := d;
     rt_vfs := {| in_name := NP_node node; in_kind := kind; in_ops := ops;
                  in_inode_ops := simplefs_inode_ops; in_ref_count := 0; in_size := d_size d;
                  in_children := None; in_child_count := 0; in_child_capacity := 0; in_mode := d_mode d;
                  in_uid := d_uid d; in_gid := d_gid d; in_links := 1; in_private_data := PD_node node |};
     rt_name := []; rt_inode_index := node; rt_populated := 0;
     rt_dir_slot_base := SIMPLEFS_INVALID_DIR_SLOT |}.

(** The loop over the inode table, [n] to go: [false] for an inode of unknown kind. *)
Fixpoint load_inodes (n : nat) (index : Z) (disk_inodes : carray Z) s : bool * simplefs :=
  match n with
  | O => (true, s)
  | S n =>
      let d := inode_disk_at disk_inodes (sizeof_inode_disk * index) in
      let put kind ops := set_node index (loaded_node index d kind ops) s in
      if negb (simplefs_inode_used index s)
      then load_inodes n (index + 1) disk_inodes (put VFS_INODE_NONE NO_FILE_OPS)
      else if d_kind d =? SIMPLEFS_INODE_DIR
      then load_inodes n (index + 1) disk_inodes (put VFS_INODE_DIR NO_FILE_OPS)
      else if d_kind d =? SIMPLEFS_INODE_FILE
      then load_inodes n (index + 1) disk_inodes (put VFS_INODE_REG simplefs_file_ops)
      else (false, put VFS_INODE_NONE NO_FILE_OPS)
  end.

(** The checks on the superblock. *)
Definition superblock_ok (b : simplefs_superblock) (device_blocks : Z) : bool :=
  let inode_table_blocks :=
    align_up (sb_inode_count b ⊠ sizeof_inode_disk) SIMPLEFS_BLOCK_SIZE / SIMPLEFS_BLOCK_SIZE in
  let block_bitmap_bytes := align_up (sb_total_blocks b) 8 / 8 in
  (sb_magic b =? SIMPLEFS_MAGIC) && (sb_version b =? SIMPLEFS_VERSION)
  && (sb_block_size b =? SIMPLEFS_BLOCK_SIZE)
  && negb (sb_total_blocks b =? 0) && (sb_total_blocks b <=? device_blocks)
  && (sb_total_blocks b <=? SIMPLEFS_MAX_MOUNT_BLOCKS)
  && negb (sb_inode_count b =? 0) && (sb_inode_count b <=? SIMPLEFS_MAX_MOUNT_INODES)
  && (sb_root_inode b <? sb_inode_count b)
  && (sb_inode_table_blocks b =? inode_table_blocks) && (sb_inode_bitmap_blocks b =? 1)
  && (sb_block_bitmap_blocks b
      =? align_up block_bitmap_bytes SIMPLEFS_BLOCK_SIZE / SIMPLEFS_BLOCK_SIZE).

(** The rest of [simplefs_mount], with the tables read: [disk_inodes] is the inode
    table.  The root's name is the one character 47, a slash. *)
Definition mount_tables (device : block_device St) (disk_inodes : carray Z) s
    : option (Z * option inode_ptr * simplefs) :=
  let b := mounted_superblock s in
  let s := {| runtime_inodes := λ _, zero_node; runtime_dir_entries := λ _, null_entry;
              inode_table_image := inode_table_image s; mounted_device := Some device;
              mounted_superblock := b; inode_bitmap := inode_bitmap s; block_bitmap := block_bitmap s;
              mounted_inode_count := sb_inode_count b; next_dir_entry_slot := 0;
              block_scratch := block_scratch s; storage := storage s |} in
  let '(ok, s) := load_inodes (Z.to_nat (sb_inode_count b)) 0 disk_inodes s in
  if negb ok then Some (-1, None, s)
  else
    let root := sb_root_inode b in
    let s := set_node root (with_rt_name [47] (runtime_inodes s root)) s in
    let s := set_vfs root (with_in_name (NP_node root) (node_vfs root s)) s in
    match simplefs_populate_directory POPULATE_DEPTH root s with
    | None => None
    | Some (r, s) => if truthy r then Some (-1, None, s) else Some (0, Some (IP_node root), s)
    end.

(** The three tables read in turn; [None] for a failed read. *)
Definition read_tables (device : block_device St) s : option (carray Z) * simplefs :=
  let b := mounted_superblock s in
  let get start count buf := block_read (Some device) start count (Some buf) (storage s) in
  let '(r, disk_inodes) := get (sb_inode_table_start b) (sb_inode_table_blocks b)
    (zero_bytes stack 0 (sizeof_inode_disk * SIMPLEFS_MAX_MOUNT_INODES)) in
  if truthy r then (None, s)
  else
    let '(r, ib) := get (sb_inode_bitmap_start b) (sb_inode_bitmap_blocks b)
                      (zero_bytes (inode_bitmap s) 0 SIMPLEFS_BLOCK_SIZE) in
    let s := with_inode_bitmap (default (inode_bitmap s) ib) s in
    if truthy r then (None, s)
    else
      let '(r, bb) := get (sb_block_bitmap_start b) (sb_block_bitmap_blocks b)
                        (zero_bytes (block_bitmap s) 0 SIMPLEFS_MAX_BLOCK_BITMAP_BYTES) in
      let s := with_block_bitmap (default (block_bitmap s) bb) s in
      if truthy r then (None, s) else (disk_inodes, s).

Definition simplefs_mount (device : option (block_device St)) s
    : option (Z * option inode_ptr * simplefs) :=
  match device with
  | None => Some (-1, None, s)
  | Some d =>
      if negb (block_size d =? SIMPLEFS_BLOCK_SIZE) then Some (-1, None, s)
      else
        let '(r, scratch) := block_read (Some d) 0 1
          (Some (zero_bytes (block_scratch s) 0 SIMPLEFS_BLOCK_SIZE)) (storage s) in
        let s := with_scratch (default (block_scratch s) scratch) s in
        if truthy r then Some (-1, None, s)
        else
          let s := with_superblock (superblock_at (block_scratch s) 0) s in
          if negb (superblock_ok (mounted_superblock s) (block_count d)) then Some (-1, None, s)
          else match read_tables d s with
          | (Some disk_inodes, s) => mount_tables d disk_inodes s
          | (None, s) => Some (-1, None, s)
          end
  end.

End simplefs.
Arguments simplefs : clear implicits.
