(* ===== verification/SimplefsData.v ===== *)
(** * File data of the disk file system

    The volume invariant [fs_ok] (extents lie in the data area, are marked in the
    block bitmap and do not overlap), its preservation, and what reads and writes
    of files do to file contents, for any device that keeps the contract
    [BlockDevice]. *)

From S2P Require Import Prelude Bitmap Mem Block Vnode Simplefs.

Local Open Scope Z_scope.
Local Open Scope c_scope.

(** A device none of whose operations fails inside its range. *)
Class ReliableDevice {St : Type} (d : block_device St) : Prop := {
  rel_read : ∀ op, read d = Some op → ∀ i n buf s,
    0 ≤ i → 0 < n → i + n ≤ block_count d → (op i n buf s).1 = 0;
  rel_write : ∃ op, write d = Some op ∧ ∀ i n buf s,
    0 ≤ i → 0 < n → i + n ≤ block_count d → (op i n buf s).1 = 0;
}.

#[export] Instance mem_disk_reliable : ReliableDevice mem_disk.
Proof. split; [by intros op [= <-]|]. eexists. split; [reflexivity|done]. Qed.

Section volume.
Context {St : Type} (dev : block_device St) (view : St → carray Z) {Hdev : BlockDevice dev view}.
Implicit Types (s : simplefs St) (node : Z) (buf : carray Z).

Abbreviation BS := SIMPLEFS_BLOCK_SIZE (only parsing).

(** The byte of the mounted device at [k]. *)
Definition vbyte s (k : Z) : Z := view (storage s) k.

(** Only the storage and the scratch block differ. *)
Record same_meta s s' : Prop := {
  sm_nodes : runtime_inodes s' = runtime_inodes s;
  sm_entries : runtime_dir_entries s' = runtime_dir_entries s;
  sm_image : inode_table_image s' = inode_table_image s;
  sm_dev : mounted_device s' = mounted_device s;
  sm_super : mounted_superblock s' = mounted_superblock s;
  sm_ibits : inode_bitmap s' = inode_bitmap s;
  sm_bbits : block_bitmap s' = block_bitmap s;
  sm_count : mounted_inode_count s' = mounted_inode_count s;
  sm_slot : next_dir_entry_slot s' = next_dir_entry_slot s;
}.

#[global] Instance same_meta_preorder : PreOrder same_meta.
Proof.
  split; [by intros s; split|]. intros s1 s2 s3 [] []. split; congruence.
Qed.

Lemma same_meta_scratch x s : same_meta s (with_scratch x s).
Proof. done. Qed.

Lemma same_meta_storage x s : same_meta s (with_storage x s).
Proof. done. Qed.

Lemma same_meta_disk s s' node : same_meta s s' → node_disk node s' = node_disk node s.
Proof. intros []. unfold node_disk. congruence. Qed.

(** Bytes outside the blocks [lo, hi) are kept. *)
Definition kept_outside (lo hi : Z) s s' : Prop :=
  ∀ k, k < lo * BS ∨ hi * BS ≤ k → vbyte s' k = vbyte s k.

Lemma kept_outside_refl lo hi s : kept_outside lo hi s s.
Proof. by intros k. Qed.

Lemma kept_outside_trans lo hi s1 s2 s3 :
  kept_outside lo hi s1 s2 → kept_outside lo hi s2 s3 → kept_outside lo hi s1 s3.
Proof. intros H1 H2 k Hk. rewrite H2, H1; done. Qed.

Lemma kept_outside_mono lo hi lo' hi' s s' :
  lo' ≤ lo → hi ≤ hi' → kept_outside lo hi s s' → kept_outside lo' hi' s s'.
Proof. intros ?? H k Hk. apply H. unfold SIMPLEFS_BLOCK_SIZE in *. lia. Qed.

(** ** Single transfers *)

Lemma read_blocks_spec s b n buf :
  mounted_device s = Some dev → 0 ≤ b → 0 ≤ n →
  let '(r, buf') := simplefs_read_blocks b n buf s in
  (r = 0 → b + n ≤ block_count dev ∧ ∀ k, buf' k = copy_bytes buf 0 (view (storage s)) (b * BS) (n * BS) k) ∧
  (∀ k, k < 0 ∨ n * BS ≤ k → buf' k = buf k) ∧
  (ReliableDevice dev → 0 < n → b + n ≤ block_count dev → r = 0).
Proof using Hdev.
  intros Hm Hb Hn. unfold simplefs_read_blocks. rewrite Hm.
  destruct (block_read_cases dev view b n buf (storage s) Hb Hn) as (r&buf'&E&Hok&Hk). rewrite E. simpl.
  split_and!; [|done|].
  - intros ->. destruct (Hok eq_refl) as (_&?&?). done.
  - intros Hrel Hn0 Hr. unfold block_read in E. rewrite (proj2 (Z.eqb_neq n 0)) in E by lia.
    rewrite (range_checked dev view) in E by lia. rewrite bool_decide_eq_true_2 in E by done.
    bsimpl. destruct (bd_read (d := dev) (view := view)) as (op&Hop&_). rewrite Hop in E.
    pose proof (rel_read op Hop b n buf (storage s) Hb Hn0 Hr) as Hz.
    destruct (op b n buf (storage s)) as [r' buf'']. simpl in *. congruence.
Qed.

Lemma write_blocks_spec s b n buf :
  mounted_device s = Some dev → 0 ≤ b → 0 ≤ n →
  let '(r, s') := simplefs_write_blocks b n buf s in
  same_meta s s' ∧ kept_outside b (b + n) s s' ∧ block_scratch s' = block_scratch s ∧
  (r = 0 → b + n ≤ block_count dev ∧ ∀ k, vbyte s' k = copy_bytes (view (storage s)) (b * BS) buf 0 (n * BS) k) ∧
  (ReliableDevice dev → read_only dev = 0 → 0 < n → b + n ≤ block_count dev → r = 0).
Proof using Hdev.
  intros Hm Hb Hn. unfold simplefs_write_blocks, device_writable. rewrite Hm.
  case_if.
  { split_and!; [reflexivity|apply kept_outside_refl|done|done|].
    intros _ Hro. unfold truthy in *. rewrite Hro in *. done. }
  pose proof (block_write_cases dev view b n buf (storage s) Hb Hn) as Hw.
  destruct (block_write (Some dev) b n (Some buf) (storage s)) as [r st] eqn:Ew.
  destruct Hw as [Hok Hk].
  split_and!; [apply same_meta_storage| |done| |].
  - intros k Hkk. unfold vbyte. simpl. apply Hk. tauto.
  - intros ->. destruct (Hok eq_refl) as (_&?&_&?). done.
  - intros Hrel Hro Hn0 Hr. unfold block_write in Ew. rewrite (proj2 (Z.eqb_neq n 0)) in Ew by lia.
    rewrite Hro in Ew. destruct (rel_write (d := dev)) as (op&Hop&Hz). rewrite Hop in Ew.
    change (truthy 0) with false in Ew. cbn [orb] in Ew.
    rewrite (range_checked dev view), bool_decide_eq_true_2 in Ew by lia. cbn [negb] in Ew.
    specialize (Hz b n buf (storage s) Hb Hn0 Hr). by rewrite Ew in Hz.
Qed.

Lemma zero_block_spec s b :
  mounted_device s = Some dev → 0 ≤ b →
  let '(r, s') := simplefs_zero_block b s in
  same_meta s s' ∧ kept_outside b (b + 1) s s' ∧
  (r = 0 → b < block_count dev ∧ ∀ k, b * BS ≤ k < (b + 1) * BS → vbyte s' k = 0) ∧
  (ReliableDevice dev → read_only dev = 0 → b < block_count dev → r = 0).
Proof using Hdev.
  intros Hm Hb. unfold simplefs_zero_block. set (scratch := zero_bytes _ _ _).
  pose proof (write_blocks_spec (with_scratch scratch s) b 1 scratch Hm Hb ltac:(lia)) as H.
  destruct (simplefs_write_blocks b 1 scratch (with_scratch scratch s)) as [r s'].
  destruct H as (Hsm&Hk&_&Hok&Hrel). split_and!; [|done| |].
  - etrans; [apply same_meta_scratch|exact Hsm].
  - intros ->. destruct (Hok eq_refl) as [? Hv]. split; [lia|]. intros k Hkk. rewrite Hv.
    rewrite copy_bytes_in by (unfold SIMPLEFS_BLOCK_SIZE in *; lia).
    unfold scratch. apply zero_bytes_in. unfold SIMPLEFS_BLOCK_SIZE in *. lia.
  - intros. apply Hrel; try done; lia.
Qed.

(** ** The block loop *)

Lemma for_each_block_ind (J : simplefs St → Prop) (I : Z → simplefs St → Prop) n lo op s :
  J s → I lo s →
  (∀ k s1, lo ≤ k < lo + Z.of_nat n → J s1 → let '(r, s2) := op k s1 in
     J s2 ∧ (I k s1 → r = 0 → I (k + 1) s2)) →
  let '(r, s') := for_each_block n lo op s in
  J s' ∧ (r = 0 → I (lo + Z.of_nat n) s') ∧ (r = 0 ∨ r = -1) ∧
  ((∀ k s1, lo ≤ k < lo + Z.of_nat n → J s1 → (op k s1).1 = 0) → r = 0).
Proof.
  revert lo s. induction n as [|n IH]; intros lo s HJ HI Hop; cbn [for_each_block].
  { rewrite Z.add_0_r. split_and!; try done. by left. }
  pose proof (Hop lo s ltac:(lia) HJ) as H1. destruct (op lo s) as [r s1] eqn:E1. destruct H1 as [HJ1 HI1].
  unfold truthy. destruct (Z.eqb_spec r 0) as [->|Hr]; bsimpl.
  - specialize (IH (lo + 1) s1 HJ1 (HI1 HI eq_refl)).
    assert (∀ k s2, lo + 1 ≤ k < lo + 1 + Z.of_nat n → J s2 → let '(r, s3) := op k s2 in
      J s3 ∧ (I k s2 → r = 0 → I (k + 1) s3)) as Hop' by (intros; apply Hop; [lia|done]).
    specialize (IH Hop'). destruct (for_each_block n (lo + 1) op s1) as [r' s'].
    destruct IH as (H1&H2&H3&H4). replace (lo + Z.of_nat (S n)) with (lo + 1 + Z.of_nat n) by lia.
    split_and!; try done. intros Hall. apply H4. intros k s2 Hk. apply Hall. lia.
  - split_and!; [done|done|by right|]. intros Hall. specialize (Hall lo s ltac:(lia) HJ).
    rewrite E1 in Hall. done.
Qed.

(** Clearing a run of blocks. *)
Lemma zero_run_spec s base lo n :
  mounted_device s = Some dev → 0 ≤ base → 0 ≤ lo → base + lo + Z.of_nat n ≤ 4294967296 →
  let '(r, s') := for_each_block n lo (λ index, simplefs_zero_block (base ⊞ index)) s in
  same_meta s s' ∧ kept_outside (base + lo) (base + lo + Z.of_nat n) s s' ∧
  (r = 0 → ∀ k, (base + lo) * BS ≤ k < (base + lo + Z.of_nat n) * BS → vbyte s' k = 0) ∧
  (r = 0 ∨ r = -1) ∧
  (ReliableDevice dev → read_only dev = 0 → base + lo + Z.of_nat n ≤ block_count dev → r = 0).
Proof using Hdev.
  intros Hm Hb Hlo Hsz.
  pose proof (for_each_block_ind
    (λ s', same_meta s s' ∧ kept_outside (base + lo) (base + lo + Z.of_nat n) s s')
    (λ k s', ∀ j, (base + lo) * BS ≤ j < (base + k) * BS → vbyte s' j = 0)
    n lo (λ index, simplefs_zero_block (base ⊞ index)) s) as H.
  destruct (for_each_block n lo _ s) as [r s'] eqn:E.
  destruct H as ([Hsm Hk]&Hz&Hr&Hrel).
  - split; [reflexivity|apply kept_outside_refl].
  - intros j Hj. lia.
  - intros k s1 Hkr [Hsm Hk]. rewrite u32_small by lia.
    assert (mounted_device s1 = Some dev) as Hm1 by (rewrite (sm_dev _ _ Hsm); done).
    pose proof (zero_block_spec s1 (base + k) Hm1 ltac:(lia)) as H1.
    destruct (simplefs_zero_block (base + k) s1) as [r1 s2]. destruct H1 as (Hsm2&Hk2&Hz2&_).
    split; [split|].
    + by etrans.
    + eapply kept_outside_trans; [exact Hk|]. eapply kept_outside_mono; [| |exact Hk2]; lia.
    + intros Hz1 Hr0 j Hj. destruct (Z_lt_le_dec j ((base + k) * BS)).
      * rewrite Hk2 by lia. apply Hz1. lia.
      * apply Hz2; [done|]. unfold SIMPLEFS_BLOCK_SIZE in *. lia.
  - replace (base + lo + Z.of_nat n) with (base + (lo + Z.of_nat n)) in * by lia.
    split_and!; try done. intros Hd Hro Hc. apply Hrel. intros k s1 Hkr [Hsm1 _].
    rewrite u32_small by lia.
    assert (mounted_device s1 = Some dev) as Hm1 by (rewrite (sm_dev _ _ Hsm1); done).
    pose proof (zero_block_spec s1 (base + k) Hm1 ltac:(lia)) as H1.
    destruct (simplefs_zero_block (base + k) s1) as [r1 s2]. simpl. apply H1; try done. lia.
Qed.

(** Moving a run of blocks to a place that does not overlap it. *)
Lemma copy_extent_spec s from to n :
  mounted_device s = Some dev → 0 ≤ from → 0 ≤ to → 0 ≤ n →
  from + n ≤ 4294967296 → to + n ≤ 4294967296 → from + n ≤ to ∨ to + n ≤ from →
  let '(r, s') := simplefs_copy_extent from to n s in
  same_meta s s' ∧ kept_outside to (to + n) s s' ∧
  (r = 0 → ∀ k, 0 ≤ k < n * BS → vbyte s' (to * BS + k) = vbyte s (from * BS + k)) ∧
  (r = 0 ∨ r = -1) ∧
  (ReliableDevice dev → read_only dev = 0 → from + n ≤ block_count dev → to + n ≤ block_count dev → r = 0).
Proof using Hdev.
  intros Hm Hf Ht Hn Hfs Hts Hdis. unfold simplefs_copy_extent. set (op := λ _ _, _).
  assert (∀ k s1, 0 ≤ k < n → same_meta s s1 → kept_outside to (to + n) s s1 →
    let '(r, s2) := op k s1 in
    same_meta s1 s2 ∧ kept_outside (to + k) (to + k + 1) s1 s2 ∧
    (r = 0 → ∀ j, 0 ≤ j < BS → vbyte s2 ((to + k) * BS + j) = vbyte s ((from + k) * BS + j)) ∧
    (ReliableDevice dev → read_only dev = 0 → from + n ≤ block_count dev → to + n ≤ block_count dev → r = 0))
    as Hop.
  { intros k s1 Hkr Hsm Hk. unfold op. rewrite !u32_small by lia.
    assert (mounted_device s1 = Some dev) as Hm1 by (rewrite (sm_dev _ _ Hsm); done).
    pose proof (read_blocks_spec s1 (from + k) 1 (block_scratch s1) Hm1 ltac:(lia) ltac:(lia)) as H1.
    destruct (simplefs_read_blocks (from + k) 1 (block_scratch s1) s1) as [r1 scratch].
    destruct H1 as (Hok1&_&Hrel1). unfold truthy. destruct (Z.eqb_spec r1 0) as [->|Hr1]; bsimpl.
    2:{ split_and!; [apply same_meta_scratch|by intros ??|done|].
        intros. exfalso. apply Hr1, Hrel1; try done; lia. }
    pose proof (write_blocks_spec (with_scratch scratch s1) (to + k) 1 scratch Hm1 ltac:(lia) ltac:(lia)) as H2.
    destruct (simplefs_write_blocks (to + k) 1 scratch (with_scratch scratch s1)) as [r2 s2].
    destruct H2 as (Hsm2&Hk2&_&Hok2&Hrel2). split_and!.
    - etrans; [apply same_meta_scratch|exact Hsm2].
    - exact Hk2.
    - intros ->. intros j Hj. destruct (Hok2 eq_refl) as [_ ->]. destruct (Hok1 eq_refl) as [_ Hsc].
      rewrite copy_bytes_in by lia. rewrite Hsc, copy_bytes_in by (unfold SIMPLEFS_BLOCK_SIZE in *; lia).
      transitivity (vbyte s1 ((from + k) * BS + j)); [unfold vbyte; f_equal; lia|]. apply Hk.
      unfold SIMPLEFS_BLOCK_SIZE in *. lia.
    - intros. apply Hrel2; try done; lia. }
  pose proof (for_each_block_ind
    (λ s', same_meta s s' ∧ kept_outside to (to + n) s s')
    (λ k s', ∀ j, 0 ≤ j < k * BS → vbyte s' (to * BS + j) = vbyte s (from * BS + j))
    (Z.to_nat n) 0 op s) as H.
  destruct (for_each_block _ 0 op s) as [r s']. rewrite Z.add_0_l, Z2Nat.id in H by lia.
  destruct H as ([Hsm Hk]&Hc&Hr&Hrel).
  - split; [reflexivity|apply kept_outside_refl].
  - intros j Hj. lia.
  - intros k s1 Hkr [Hsm Hk]. specialize (Hop k s1 ltac:(lia) Hsm Hk). destruct (op k s1) as [r1 s2].
    destruct Hop as (Hsm2&Hk2&Hc2&_). split; [split|].
    + by etrans.
    + eapply kept_outside_trans; [exact Hk|]. eapply kept_outside_mono; [| |exact Hk2]; lia.
    + intros Hc1 Hr0 j Hj. destruct (Z_lt_le_dec j (k * BS)).
      * rewrite Hk2 by (unfold SIMPLEFS_BLOCK_SIZE in *; lia). apply Hc1. lia.
      * specialize (Hc2 Hr0 (j - k * BS) ltac:(unfold SIMPLEFS_BLOCK_SIZE in *; lia)).
        replace (to * BS + j) with ((to + k) * BS + (j - k * BS)) by lia. rewrite Hc2. f_equal. lia.
  - split_and!; try done. intros Hd Hro Hc1 Hc2. apply Hrel. intros k s1 Hkr [Hsm1 Hk1].
    specialize (Hop k s1 ltac:(lia) Hsm1 Hk1). destruct (op k s1) as [r1 s2]. simpl. by apply Hop.
Qed.

(** ** The block bitmap *)

(** Only the block bitmap differs, and only on the blocks of an extent. *)
Lemma mark_extent_spec s start n used :
  0 ≤ start → 0 ≤ n → start + n ≤ 4294967296 →
  let s' := simplefs_mark_extent start n used s in
  s' = with_block_bitmap (block_bitmap s') s ∧
  (bm_wf 8 (block_bitmap s) → bm_wf 8 (block_bitmap s')) ∧
  ∀ b, simplefs_block_used b s'
       = if (start <=? b) && (b <? start + n) then used else simplefs_block_used b s.
Proof.
  intros Hs Hn Hsz. cbv zeta. unfold simplefs_mark_extent.
  assert (∀ k (Hk : 0 ≤ k ≤ n),
    let s' := for_range 0 k (λ index, simplefs_set_block_used (start ⊞ index) used) s in
    s' = with_block_bitmap (block_bitmap s') s ∧
    (bm_wf 8 (block_bitmap s) → bm_wf 8 (block_bitmap s')) ∧
    ∀ b, simplefs_block_used b s'
         = if (start <=? b) && (b <? start + k) then used else simplefs_block_used b s) as H; [|by apply H].
  intros k Hk. cbv zeta.
  apply (for_range_ind (λ k s', s' = with_block_bitmap (block_bitmap s') s ∧
    (bm_wf 8 (block_bitmap s) → bm_wf 8 (block_bitmap s')) ∧
    ∀ b, simplefs_block_used b s' = if (start <=? b) && (b <? start + k) then used else simplefs_block_used b s)).
  - lia.
  - split_and!; [by destruct s|done|]. intros b. case_if; [zbool; lia|done].
  - intros j s1 Hj (E&Hwf&Hu). rewrite u32_small by lia. unfold simplefs_set_block_used. split_and!.
    + rewrite E. done.
    + intros Hw. specialize (Hwf Hw). cbn [block_bitmap with_block_bitmap].
      destruct used; auto using bm_set_wf, bm_clear_wf with lia.
    + intros b. unfold simplefs_block_used in *. cbn [block_bitmap with_block_bitmap].
      destruct used.
      * rewrite bm_test_set, Hu by lia. destruct (Z.eqb_spec (start + j) b) as [<-|].
        { rewrite (proj2 (Z.leb_le start (start + j))), (proj2 (Z.ltb_lt (start + j) (start + (j + 1)))) by lia.
          apply orb_true_r. }
        { rewrite orb_false_r. replace (b <? start + (j + 1)) with (b <? start + j); [done|].
          destruct (Z.ltb_spec b (start + j)), (Z.ltb_spec b (start + (j + 1))); lia || done. }
      * rewrite bm_test_clear, Hu by lia. destruct (Z.eqb_spec (start + j) b) as [<-|].
        { rewrite (proj2 (Z.leb_le start (start + j))), (proj2 (Z.ltb_lt (start + j) (start + (j + 1)))) by lia.
          apply andb_false_r. }
        { cbn [negb]. rewrite andb_true_r. replace (b <? start + (j + 1)) with (b <? start + j); [done|].
          destruct (Z.ltb_spec b (start + j)), (Z.ltb_spec b (start + (j + 1))); lia || done. }
Qed.

(** A run of free blocks inside the data area. *)
Definition free_extent s (start n : Z) : Prop :=
  sb_data_block_start (mounted_superblock s) ≤ start ∧
  start + n ≤ sb_total_blocks (mounted_superblock s) ∧
  ∀ b, start ≤ b < start + n → simplefs_block_used b s = false.

Lemma extent_is_free_spec s start n :
  0 ≤ start → 0 ≤ n → start + n < 4294967296 →
  simplefs_extent_is_free start n s = true ↔ free_extent s start n.
Proof.
  intros Hs Hn Hsz. unfold simplefs_extent_is_free, free_extent. rewrite (u32_small (start + n)) by lia.
  destruct (Z.ltb_spec start (sb_data_block_start (mounted_superblock s))); bsimpl; [split; [done|lia]|].
  destruct (Z.ltb_spec (sb_total_blocks (mounted_superblock s)) (start + n)); [split; [done|lia]|].
  destruct (for_find 0 n _) as [j|] eqn:E.
  - split; [done|]. intros (_&_&Hf). apply for_find_Some in E as (Hj&Hu&_).
    rewrite u32_small, Hf in Hu by lia. done.
  - split; [|done]. intros _. split_and!; [lia|lia|]. intros b Hb. rewrite for_find_None in E.
    specialize (E (b - start) ltac:(lia)). cbv beta in E. rewrite u32_small in E by lia.
    by replace (start + (b - start)) with b in E by lia.
Qed.

Lemma find_extent_spec s n start count :
  0 ≤ start → 0 < count → sb_total_blocks (mounted_superblock s) + count + 1 < 4294967296 →
  sb_total_blocks (mounted_superblock s) - start - count + 1 < Z.of_nat n ∨
  sb_total_blocks (mounted_superblock s) < start + count → start ≤ sb_total_blocks (mounted_superblock s) + 1 →
  match find_extent n start count s with
  | Some b => start ≤ b ∧ free_extent s b count ∧ ∀ c, start ≤ c < b → ¬ free_extent s c count
  | None => ∀ c, start ≤ c → ¬ free_extent s c count
  end.
Proof.
  set (total := sb_total_blocks (mounted_superblock s)).
  revert start. induction n as [|n IH]; intros start Hs Hc Htot Hf Hst; cbn [find_extent].
  { intros c Hcs (_&?&_). unfold total in *. lia. }
  fold total. rewrite u32_small by lia. destruct (Z.ltb_spec total (start + count)).
  { intros c Hcs (_&?&_). unfold total in *. lia. }
  destruct (simplefs_extent_is_free start count s) eqn:E.
  { apply extent_is_free_spec in E; [|lia..]. split_and!; [lia|done|lia]. }
  assert (¬ free_extent s start count) as Hno.
  { intros Hx. apply extent_is_free_spec in Hx; [congruence|lia..]. }
  rewrite u32_small by lia. specialize (IH (start + 1) ltac:(lia) Hc Htot ltac:(lia) ltac:(lia)).
  destruct (find_extent n (start + 1) count s) as [b|].
  - destruct IH as (?&?&Hlow). split_and!; [lia|done|]. intros c Hcr.
    destruct (decide (c = start)) as [->|]; [done|]. apply Hlow. lia.
  - intros c Hcr. destruct (decide (c = start)) as [->|]; [done|]. apply IH. lia.
Qed.

(** ** The volume invariant *)

Definition used_node s node : Prop :=
  0 ≤ node < mounted_inode_count s ∧ simplefs_inode_used node s = true.

(** Block [b] belongs to the extent of [d]. *)
Definition in_extent (d : simplefs_inode_disk) (b : Z) : Prop :=
  d_data_block d ≤ b < d_data_block d + d_block_count d.

(** The parts of the volume in the order in which [mkfs_rootfs.c] lays them out. *)
Record layout_ok (b : simplefs_superblock) : Prop := {
  lay_table : 1 ≤ sb_inode_table_start b ∧ 1 ≤ sb_inode_table_blocks b;
  lay_ibits : sb_inode_table_start b + sb_inode_table_blocks b ≤ sb_inode_bitmap_start b ∧
    sb_inode_bitmap_blocks b = 1;
  lay_bbits : sb_inode_bitmap_start b + sb_inode_bitmap_blocks b ≤ sb_block_bitmap_start b ∧
    1 ≤ sb_block_bitmap_blocks b;
  lay_data : sb_block_bitmap_start b + sb_block_bitmap_blocks b ≤ sb_data_block_start b ∧
    sb_data_block_start b ≤ sb_total_blocks b;
  lay_total : sb_total_blocks b ≤ SIMPLEFS_MAX_MOUNT_BLOCKS ∧ sb_total_blocks b ≤ block_count dev;
  lay_words : is_u32 (sb_magic b) ∧ is_u32 (sb_version b) ∧ is_u32 (sb_block_size b) ∧
    is_u32 (sb_inode_count b) ∧ is_u32 (sb_root_inode b) ∧ is_u32 (sb_reserved b);
}.

(** An extent in the data area, all of it marked. *)
Definition extent_ok s (d : simplefs_inode_disk) : Prop :=
  0 ≤ d_block_count d ∧
  (0 < d_block_count d →
   sb_data_block_start (mounted_superblock s) ≤ d_data_block d ∧
   d_data_block d + d_block_count d ≤ sb_total_blocks (mounted_superblock s) ∧
   ∀ b, in_extent d b → simplefs_block_used b s = true).

Record fs_ok s : Prop := {
  fs_dev : mounted_device s = Some dev;
  fs_layout : layout_ok (mounted_superblock s);
  fs_count : 0 ≤ mounted_inode_count s ≤ SIMPLEFS_MAX_MOUNT_INODES ∧
    sizeof_inode_disk * mounted_inode_count s ≤ sb_inode_table_blocks (mounted_superblock s) * BS;
  fs_bits : bm_wf 8 (block_bitmap s);
  fs_extent : ∀ i, used_node s i → extent_ok s (node_disk i s);
  fs_disjoint : ∀ i j b, used_node s i → used_node s j → i ≠ j →
    in_extent (node_disk i s) b → ¬ in_extent (node_disk j s) b;
  fs_size : ∀ i, used_node s i → d_kind (node_disk i s) = SIMPLEFS_INODE_FILE →
    0 ≤ d_size (node_disk i s) ≤ d_block_count (node_disk i s) * BS;
}.

Lemma layout_bounds b : layout_ok b →
  1 ≤ sb_data_block_start b ∧ sb_data_block_start b ≤ sb_total_blocks b ≤ 32768 ∧
  sb_total_blocks b ≤ block_count dev.
Proof using. intros [[]? [] [] [] _]. unfold SIMPLEFS_MAX_MOUNT_BLOCKS in *. lia. Qed.

(** The byte [k] of the extent of [node]. *)
Definition content s node (k : Z) : Z := vbyte s (d_data_block (node_disk node s) * BS + k).

Lemma allocate_extent_spec s n :
  layout_ok (mounted_superblock s) → 0 < n < 4294934527 →
  match simplefs_allocate_extent n s with
  | (Some b, s') => free_extent s b n ∧ (∀ c, c < b → ¬ free_extent s c n) ∧
      s' = simplefs_mark_extent b n true s
  | (None, s') => s' = s ∧ ∀ c, ¬ free_extent s c n
  end.
Proof using.
  intros Hl Hn. pose proof (layout_bounds _ Hl). unfold simplefs_allocate_extent.
  rewrite (proj2 (Z.eqb_neq n 0)) by lia.
  pose proof (find_extent_spec s (extent_fuel s) (sb_data_block_start (mounted_superblock s)) n) as Hf.
  unfold extent_fuel in *. specialize (Hf ltac:(lia) ltac:(lia) ltac:(lia) ltac:(lia) ltac:(lia)).
  destruct (find_extent _ _ _ _) as [b|].
  - destruct Hf as (Hb&Hfree&Hlow). split_and!; [done| |done]. intros c Hc Hx.
    pose proof Hx as (?&_). by apply (Hlow c); [lia|].
  - split; [done|]. intros c Hx. pose proof Hx as (?&_). by apply (Hf c).
Qed.

(** What a change to one node and its blocks keeps. *)
Record node_step node s s' : Prop := {
  ns_ok : fs_ok s';
  ns_super : mounted_superblock s' = mounted_superblock s;
  ns_ibits : inode_bitmap s' = inode_bitmap s;
  ns_count : mounted_inode_count s' = mounted_inode_count s;
  ns_entries : runtime_dir_entries s' = runtime_dir_entries s;
  ns_slot : next_dir_entry_slot s' = next_dir_entry_slot s;
  ns_nodes : ∀ j, j ≠ node → runtime_inodes s' j = runtime_inodes s j;
  ns_node : runtime_inodes s' node
    = with_rt_disk (node_disk node s') (with_rt_vfs (node_vfs node s') (runtime_inodes s node));
  ns_kind : d_kind (node_disk node s') = d_kind (node_disk node s);
  ns_vfs : ∀ n, with_in_size n (node_vfs node s') = with_in_size n (node_vfs node s);
  ns_others : ∀ j k, used_node s j → j ≠ node →
    0 ≤ k < d_block_count (node_disk j s) * BS → content s' j k = content s j k;
}.

Lemma node_step_used node s s' j : node_step node s s' → used_node s' j ↔ used_node s j.
Proof using. intros H. unfold used_node, simplefs_inode_used. by rewrite (ns_count _ _ _ H), (ns_ibits _ _ _ H). Qed.

Lemma node_step_disk node s s' j : node_step node s s' → j ≠ node → node_disk j s' = node_disk j s.
Proof using. intros H Hj. unfold node_disk. by rewrite (ns_nodes _ _ _ H). Qed.

Lemma node_step_refl node s : fs_ok s → node_step node s s.
Proof using.
  intros H. split; try done. unfold node_disk, node_vfs. by destruct (runtime_inodes s node).
Qed.

Lemma node_step_trans node s1 s2 s3 :
  node_step node s1 s2 → node_step node s2 s3 → node_step node s1 s3.
Proof using.
  intros H12 H23. pose proof H12 as [A1 A2 A3 A4 A5 A6 A7 A8 A9 A10 A11].
  pose proof H23 as [B1 B2 B3 B4 B5 B6 B7 B8 B9 B10 B11].
  split; try congruence.
  - intros j Hj. by rewrite B7, A7.
  - rewrite B8, A8. unfold node_disk, node_vfs. by destruct (runtime_inodes s3 node).
  - intros j k Hu Hj Hk. rewrite B11, A11; try done.
    + by apply (node_step_used _ _ _ _ H12).
    + by rewrite (node_step_disk _ _ _ _ H12).
Qed.

(** The general step: the node gets the extent [st], [n], the bitmap changes on blocks
    that belong to no other node, and so do the bytes. *)
Lemma fs_ok_step node s s' :
  fs_ok s → used_node s node →
  mounted_device s' = Some dev → mounted_superblock s' = mounted_superblock s →
  inode_bitmap s' = inode_bitmap s → mounted_inode_count s' = mounted_inode_count s →
  runtime_dir_entries s' = runtime_dir_entries s → next_dir_entry_slot s' = next_dir_entry_slot s →
  (∀ j, j ≠ node → runtime_inodes s' j = runtime_inodes s j) →
  runtime_inodes s' node
    = with_rt_disk (node_disk node s') (with_rt_vfs (node_vfs node s') (runtime_inodes s node)) →
  d_kind (node_disk node s') = d_kind (node_disk node s) →
  (∀ n, with_in_size n (node_vfs node s') = with_in_size n (node_vfs node s)) →
  bm_wf 8 (block_bitmap s') →
  extent_ok s' (node_disk node s') →
  (∀ j b, used_node s j → j ≠ node → in_extent (node_disk j s) b →
     ¬ in_extent (node_disk node s') b ∧ simplefs_block_used b s' = true ∧
     ∀ k, b * BS ≤ k < (b + 1) * BS → vbyte s' k = vbyte s k) →
  (d_kind (node_disk node s) = SIMPLEFS_INODE_FILE →
     0 ≤ d_size (node_disk node s') ≤ d_block_count (node_disk node s') * BS) →
  node_step node s s'.
Proof using.
  intros Hok Hu Hdev' Hsb Hib Hcnt Hde Hslot Hnodes Hnode Hkind Hvfs Hbits Hext Hoth Hsize.
  pose proof Hok as [Hd Hl Hc Hb Hex Hdis Hsz].
  assert (∀ j, used_node s' j ↔ used_node s j) as Hused
    by (intros j; unfold used_node, simplefs_inode_used; by rewrite Hcnt, Hib).
  assert (∀ j, j ≠ node → node_disk j s' = node_disk j s) as Hdisk
    by (intros j Hj; unfold node_disk; by rewrite Hnodes).
  split; try done; [split; try done|].
  - by rewrite Hsb.
  - by rewrite Hcnt, Hsb.
  - intros j Hj%Hused. destruct (decide (j = node)) as [->|Hne]; [done|].
    rewrite (Hdisk j Hne). destruct (Hex j Hj) as [Hn0 Hin]. split; [done|].
    intros Hpos. destruct (Hin Hpos) as (?&?&_). rewrite Hsb. split_and!; [done|done|].
    intros b Hbj. by apply (Hoth j b).
  - intros i j b Hi%Hused Hj%Hused Hne.
    destruct (decide (i = node)) as [->|Hni], (decide (j = node)) as [->|Hnj]; [done|..].
    + rewrite (Hdisk j Hnj). intros Hbi Hbj. by apply (Hoth j b).
    + rewrite (Hdisk i Hni). intros Hbi Hbj. by apply (Hoth i b).
    + rewrite (Hdisk i Hni), (Hdisk j Hnj). by apply Hdis.
  - intros j Hj%Hused. destruct (decide (j = node)) as [->|Hne].
    + rewrite Hkind. exact Hsize.
    + rewrite (Hdisk j Hne). by apply Hsz.
  - intros j k Hj Hne Hk. unfold content. rewrite (Hdisk j Hne).
    set (b := d_data_block (node_disk j s) + k / BS).
    apply (Hoth j b Hj Hne); unfold b, in_extent, SIMPLEFS_BLOCK_SIZE in *; word_lia.
Qed.

(** ** Growing an extent *)

Lemma zero_blocks_down_spec s node n :
  mounted_device s = Some dev → 0 ≤ d_data_block (node_disk node s) →
  d_data_block (node_disk node s) + Z.of_nat n ≤ 4294967296 →
  let D := d_data_block (node_disk node s) in
  let '(r, s') := zero_blocks_down n node s in
  same_meta s s' ∧ kept_outside D (D + Z.of_nat n) s s' ∧
  (r = 0 → ∀ k, D * BS ≤ k < (D + Z.of_nat n) * BS → vbyte s' k = 0) ∧ (r = 0 ∨ r = -1) ∧
  (ReliableDevice dev → read_only dev = 0 → D + Z.of_nat n ≤ block_count dev → r = 0).
Proof using Hdev.
  revert s. induction n as [|n IH]; intros s Hm HD Hsz D; cbn [zero_blocks_down].
  { split_and!; [reflexivity|apply kept_outside_refl|lia|by left|done]. }
  fold D. rewrite u32_small by (fold D in Hsz, HD; lia).
  pose proof (zero_block_spec s (D + Z.of_nat n) Hm ltac:(fold D in HD; lia)) as H1.
  destruct (simplefs_zero_block (D + Z.of_nat n) s) as [r1 s1]. destruct H1 as (Hsm1&Hk1&Hz1&Hrel1).
  assert (kept_outside D (D + Z.of_nat (S n)) s s1) as Hk1'
    by (eapply kept_outside_mono; [| |exact Hk1]; lia).
  unfold truthy. destruct (Z.eqb_spec r1 0) as [->|Hr1]; bsimpl.
  2:{ split_and!; [done|done|done|by right|]. intros. exfalso. apply Hr1, Hrel1; try done. lia. }
  assert (node_disk node s1 = node_disk node s) as Hd1 by (by apply same_meta_disk).
  specialize (IH s1). rewrite Hd1 in IH. fold D in IH.
  specialize (IH ltac:(rewrite (sm_dev _ _ Hsm1); done) HD ltac:(fold D in Hsz; lia)). cbv zeta in IH.
  destruct (zero_blocks_down n node s1) as [r s']. destruct IH as (Hsm&Hk&Hz&Hr&Hrel).
  split_and!; [by etrans| |  |done|].
  - eapply kept_outside_trans; [exact Hk1'|]. eapply kept_outside_mono; [| |exact Hk]; lia.
  - intros Hr0 k Hkk. destruct (Z_lt_le_dec k ((D + Z.of_nat n) * BS)); [apply Hz; [done|lia]|].
    rewrite Hk by lia. apply Hz1; [done|]. unfold SIMPLEFS_BLOCK_SIZE in *. lia.
  - intros. apply Hrel; try done. lia.
Qed.

(** What growing the extent of [node] to [req] blocks does. *)
Record grown node (req : Z) s (r : Z) s' : Prop := {
  gr_step : node_step node s s';
  gr_result : r = 0 ∨ r = -1;
  gr_vfs : node_vfs node s' = node_vfs node s;
  gr_disk : node_disk node s' = with_d_extent (d_data_block (node_disk node s'))
                                  (d_block_count (node_disk node s')) (node_disk node s);
  gr_count : d_block_count (node_disk node s) ≤ d_block_count (node_disk node s');
  gr_done : r = 0 → d_block_count (node_disk node s') = req ∧
    (∀ k, 0 ≤ k < d_block_count (node_disk node s) * BS → content s' node k = content s node k) ∧
    ∀ k, d_block_count (node_disk node s) * BS ≤ k < req * BS → content s' node k = 0;
  gr_reliable : ReliableDevice dev → read_only dev = 0 → (∃ c, free_extent s c req) → r = 0;
}.

(** Blocks of other nodes are not free. *)
Lemma free_not_owned s st n j b :
  fs_ok s → free_extent s st n → used_node s j → in_extent (node_disk j s) b →
  ¬ (st ≤ b < st + n).
Proof using.
  intros Hok (_&_&Hf) Hu Hb Hr. destruct (fs_extent s Hok j Hu) as [_ Hin].
  destruct Hin as (_&_&Hm); [unfold in_extent in Hb; lia|]. specialize (Hm b Hb).
  by rewrite Hf in Hm.
Qed.

Lemma set_disk_nodes node d s j :
  runtime_inodes (set_disk node d s) j
  = if decide (node = j) then with_rt_disk d (runtime_inodes s node) else runtime_inodes s j.
Proof using. unfold set_disk, set_node. cbn [runtime_inodes with_runtime_inodes]. by rewrite arr_get_set. Qed.

Lemma set_disk_same node d s : node_disk node (set_disk node d s) = d.
Proof using. unfold node_disk. by rewrite set_disk_nodes, decide_True. Qed.

(** Only nodes, the block bitmap, the storage, the table image and the scratch block differ. *)
Record same_frame s s' : Prop := {
  sf_dev : mounted_device s' = mounted_device s;
  sf_super : mounted_superblock s' = mounted_superblock s;
  sf_ibits : inode_bitmap s' = inode_bitmap s;
  sf_count : mounted_inode_count s' = mounted_inode_count s;
  sf_entries : runtime_dir_entries s' = runtime_dir_entries s;
  sf_slot : next_dir_entry_slot s' = next_dir_entry_slot s;
}.

#[global] Instance same_frame_preorder : PreOrder same_frame.
Proof using. split; [by intros s; split|]. intros s1 s2 s3 [] []. split; congruence. Qed.

Lemma same_meta_frame s s' : same_meta s s' → same_frame s s'.
Proof using. intros []. by split. Qed.

Lemma same_frame_node node x s : same_frame s (set_node node x s).
Proof using. done. Qed.

Lemma mark_extent_frame s start n used : same_frame s (simplefs_mark_extent start n used s).
Proof using.
  unfold simplefs_mark_extent. apply (for_range_inv (same_frame s)); [reflexivity|].
  intros k s1 _ H. etrans; [exact H|done].
Qed.

(** The node gets the extent [st], [n]; the bitmap and the bytes change only on
    blocks that belong to no other node. *)
Lemma extent_step node s s' st n :
  fs_ok s → used_node s node → same_frame s s' →
  (∀ j, runtime_inodes s' j = if decide (node = j)
     then with_rt_disk (with_d_extent st n (node_disk node s)) (runtime_inodes s node)
     else runtime_inodes s j) →
  bm_wf 8 (block_bitmap s') →
  (0 < n → sb_data_block_start (mounted_superblock s) ≤ st ∧
     st + n ≤ sb_total_blocks (mounted_superblock s) ∧
     ∀ b, st ≤ b < st + n → simplefs_block_used b s' = true) →
  d_block_count (node_disk node s) ≤ n →
  (∀ j b, used_node s j → j ≠ node → in_extent (node_disk j s) b →
     ¬ (st ≤ b < st + n) ∧ simplefs_block_used b s' = true ∧
     ∀ k, b * BS ≤ k < (b + 1) * BS → vbyte s' k = vbyte s k) →
  node_step node s s' ∧ node_vfs node s' = node_vfs node s ∧
  node_disk node s' = with_d_extent st n (node_disk node s).
Proof using.
  intros Hok Hu Hsf Hn' Hbits Hext Hcnt Hoth. pose proof Hok as [Hd _ _ _ Hex _ Hsz].
  assert (node_disk node s' = with_d_extent st n (node_disk node s)) as Hd'
    by (unfold node_disk at 1; by rewrite Hn', decide_True).
  assert (node_vfs node s' = node_vfs node s) as Hv by (unfold node_vfs; by rewrite Hn', decide_True).
  destruct (Hex node Hu) as [H0 _].
  split; [|done]. apply fs_ok_step; try done; try apply Hsf.
  - rewrite (sf_dev _ _ Hsf). exact Hd.
  - intros j Hj. by rewrite Hn', decide_False.
  - rewrite Hd', Hv, Hn', decide_True by done. done.
  - by rewrite Hd'.
  - intros m. by rewrite Hv.
  - rewrite Hd'. split; [simpl; lia|]. simpl. intros Hpos. rewrite (sf_super _ _ Hsf). by apply Hext.
  - intros j b Hj Hne Hbj. rewrite Hd'. exact (Hoth j b Hj Hne Hbj).
  - intros Hf. rewrite Hd'. simpl. specialize (Hsz node Hu Hf). unfold SIMPLEFS_BLOCK_SIZE in *. lia.
Qed.

(** Other nodes' blocks stay marked when free blocks are marked. *)
Lemma others_marked s st n s' :
  fs_ok s → free_extent s st n →
  (∀ b, simplefs_block_used b s' = if (st <=? b) && (b <? st + n) then true else simplefs_block_used b s) →
  ∀ j b, used_node s j → in_extent (node_disk j s) b →
    ¬ (st ≤ b < st + n) ∧ simplefs_block_used b s' = true.
Proof using.
  intros Hok Hfree Hu' j b Hj Hb. split; [exact (free_not_owned s st n j b Hok Hfree Hj Hb)|]. rewrite Hu'. case_if; [done|].
  destruct (fs_extent s Hok j Hj) as [_ Hin]. apply Hin; [unfold in_extent in Hb; lia|done].
Qed.

(** The first extent of an empty file. *)
Lemma first_extent_spec s node req :
  fs_ok s → used_node s node → d_block_count (node_disk node s) = 0 → 0 < req ≤ 8388608 →
  let '(r, s') := first_extent node req s in grown node req s r s'.
Proof using Hdev.
  intros Hok Hu H0 Hreq. pose proof Hok as [Hd Hl Hc Hb Hex Hdis Hsz].
  pose proof (layout_bounds _ Hl) as (HL1&HL2&HL3). unfold first_extent.
  pose proof (allocate_extent_spec s req Hl ltac:(lia)) as Ha.
  destruct (simplefs_allocate_extent req s) as [[st|] s1].
  2:{ destruct Ha as [-> Hno]. split; try done; [by apply node_step_refl|by right|by destruct (node_disk node s)|].
      intros _ _ [c Hx]. by destruct (Hno c). }
  destruct Ha as (Hfree&_&->). pose proof Hfree as (Hf1&Hf2&_).
  destruct (mark_extent_spec s st req true ltac:(lia) ltac:(lia) ltac:(lia)) as (E1&Hwf1&Hu1).
  pose proof (mark_extent_frame s st req true) as Hsf1.
  set (s1 := simplefs_mark_extent st req true s) in *.
  assert (runtime_inodes s1 = runtime_inodes s) as En1 by (by rewrite E1).
  set (s2 := set_disk node (with_d_extent st req (node_disk node s1)) s1).
  assert (node_disk node s2 = with_d_extent st req (node_disk node s)) as Hd2
    by (unfold s2; rewrite set_disk_same; unfold node_disk; by rewrite En1).
  assert (mounted_device s2 = Some dev) as Hm2 by (unfold s2; cbn; by rewrite (sf_dev _ _ Hsf1)).
  pose proof (zero_blocks_down_spec s2 node (Z.to_nat req) Hm2) as Hz. rewrite Hd2 in Hz.
  cbn [d_data_block with_d_extent] in Hz. rewrite Z2Nat.id in Hz by lia.
  specialize (Hz ltac:(lia) ltac:(lia)). cbv zeta in Hz.
  destruct (zero_blocks_down (Z.to_nat req) node s2) as [r s']. destruct Hz as (Hsm&Hk&Hz&Hr&Hrel).
  assert (∀ b, simplefs_block_used b s' = simplefs_block_used b s1) as Hu'.
  { intros b. unfold simplefs_block_used. by rewrite (sm_bbits _ _ Hsm). }
  assert (∀ k, k < st * BS ∨ (st + req) * BS ≤ k → vbyte s' k = vbyte s k) as Hv'.
  { intros k Hkk. rewrite Hk by done. unfold vbyte, s2. cbn. by rewrite E1. }
  destruct (extent_step node s s' st req Hok Hu) as (Hns&Hv&Hd').
  - etrans; [exact Hsf1|]. etrans; [apply same_frame_node|]. by apply same_meta_frame.
  - intros j. rewrite (sm_nodes _ _ Hsm). unfold s2. rewrite set_disk_nodes. unfold node_disk. by rewrite En1.
  - rewrite (sm_bbits _ _ Hsm). unfold s2. cbn. by apply Hwf1.
  - intros _. split_and!; [done|done|]. intros b Hbb. rewrite Hu', Hu1.
    by rewrite (proj2 (Z.leb_le _ _)), (proj2 (Z.ltb_lt _ _)) by lia.
  - lia.
  - intros j b Hj Hne Hbj. destruct (others_marked s st req s1 Hok Hfree Hu1 j b Hj Hbj).
    split_and!; [done|by rewrite Hu'|]. intros k Hkk. apply Hv'. unfold SIMPLEFS_BLOCK_SIZE in *. lia.
  - split; try done.
    + by rewrite Hd'.
    + rewrite Hd', H0. simpl. lia.
    + intros Hr0. rewrite Hd', H0. split_and!; [done|lia|]. intros k Hkk. unfold content. rewrite Hd'.
      apply Hz; [done|]. simpl. unfold SIMPLEFS_BLOCK_SIZE in *. lia.
    + intros Hx Hro _. apply Hrel; try done. lia.
Qed.

(** Giving a node the extent it has changes nothing. *)
Lemma same_extent_nodes node s j :
  runtime_inodes s j = if decide (node = j)
    then with_rt_disk (with_d_extent (d_data_block (node_disk node s)) (d_block_count (node_disk node s))
                         (node_disk node s)) (runtime_inodes s node)
    else runtime_inodes s j.
Proof using.
  case_decide as E; [subst j|done]. unfold node_disk.
  destruct (runtime_inodes s node) as [[] v n i p b]. done.
Qed.

(** A failed attempt that leaves the extent alone. *)
Lemma failed_growth node req s s' :
  fs_ok s → used_node s node → same_frame s s' → runtime_inodes s' = runtime_inodes s →
  bm_wf 8 (block_bitmap s') →
  (∀ j b, used_node s j → in_extent (node_disk j s) b → simplefs_block_used b s' = true) →
  (∀ j b, used_node s j → j ≠ node → in_extent (node_disk j s) b →
     ∀ k, b * BS ≤ k < (b + 1) * BS → vbyte s' k = vbyte s k) →
  (ReliableDevice dev → read_only dev = 0 → (∃ c, free_extent s c req) → False) →
  grown node req s (-1) s'.
Proof using.
  intros Hok Hu Hsf En Hbits Hmark Hbytes Hrel. pose proof (fs_extent s Hok node Hu) as [H0 Hin].
  destruct (extent_step node s s' (d_data_block (node_disk node s)) (d_block_count (node_disk node s)))
    as (Hns&Hv&Hd'); try done.
  - intros j. rewrite En. apply same_extent_nodes.
  - intros Hpos. destruct (Hin Hpos) as (?&?&?). split_and!; [done|done|]. intros b Hbb. by apply (Hmark node).
  - intros j b Hj Hne Hbj. split_and!; [|by apply (Hmark j)|by apply (Hbytes j)].
    intros Hbn. by apply (fs_disjoint s Hok node j b).
  - assert (node_disk node s' = node_disk node s) as Hsame by (rewrite Hd'; by destruct (node_disk node s)).
    split; try done; [by right|by rewrite Hsame; destruct (node_disk node s)|by rewrite Hsame|].
    intros Ha Hb Hc. destruct (Hrel Ha Hb Hc).
Qed.

(** More blocks behind the extent. *)
Lemma extend_extent_spec s node req :
  fs_ok s → used_node s node → 0 < d_block_count (node_disk node s) < req → req ≤ 8388608 →
  free_extent s (d_data_block (node_disk node s) + d_block_count (node_disk node s))
    (req - d_block_count (node_disk node s)) →
  let '(r, s') := extend_extent node req s in grown node req s r s'.
Proof using Hdev.
  intros Hok Hu Hold Hreq Hfree. pose proof Hok as [Hd Hl Hc Hb Hex Hdis Hsz].
  pose proof (layout_bounds _ Hl) as (HL1&HL2&HL3). destruct (Hex node Hu) as [_ Hin].
  destruct Hin as (Hi1&Hi2&Hi3); [lia|]. pose proof Hfree as (Hf1&Hf2&_).
  unfold extend_extent. set (D := d_data_block (node_disk node s)) in *.
  set (old := d_block_count (node_disk node s)) in *.
  rewrite (u32_small (D + old)), (u32_small (req - old)) by lia.
  destruct (mark_extent_spec s (D + old) (req - old) true ltac:(lia) ltac:(lia) ltac:(lia)) as (E1&Hwf1&Hu1).
  pose proof (mark_extent_frame s (D + old) (req - old) true) as Hsf1.
  set (s1 := simplefs_mark_extent (D + old) (req - old) true s) in *.
  assert (mounted_device s1 = Some dev) as Hm1 by (by rewrite (sf_dev _ _ Hsf1)).
  pose proof (zero_run_spec s1 (D + old) 0 (Z.to_nat (req - old)) Hm1 ltac:(lia) ltac:(lia) ltac:(lia)) as Hz.
  destruct (for_each_block _ 0 _ s1) as [r s2]. rewrite Z.add_0_r, Z2Nat.id in Hz by lia.
  replace (D + old + (req - old)) with (D + req) in Hz by lia. destruct Hz as (Hsm&Hk&Hz&Hr&Hrel).
  pose proof (others_marked s (D + old) (req - old) s1 Hok Hfree Hu1) as Hmark.
  assert (∀ b, simplefs_block_used b s2 = simplefs_block_used b s1) as Hu2.
  { intros b. unfold simplefs_block_used. by rewrite (sm_bbits _ _ Hsm). }
  assert (∀ k, k < (D + old) * BS ∨ (D + req) * BS ≤ k → vbyte s2 k = vbyte s k) as Hv2.
  { intros k Hkk. rewrite Hk by done. unfold vbyte. by rewrite E1. }
  assert (runtime_inodes s2 = runtime_inodes s) as En2 by (rewrite (sm_nodes _ _ Hsm); by rewrite E1).
  assert (bm_wf 8 (block_bitmap s2)) as Hw2 by (rewrite (sm_bbits _ _ Hsm); by apply Hwf1).
  assert (same_frame s s2) as Hsf2 by (etrans; [exact Hsf1|by apply same_meta_frame]).
  unfold truthy. destruct (Z.eqb_spec r 0) as [->|Hr0]; bsimpl.
  2:{ apply failed_growth; try done.
      - intros j b Hj Hbj. rewrite Hu2. by apply Hmark with (j := j).
      - intros j b Hj Hne Hbj k Hkk. apply Hv2. destruct (Hmark j b Hj Hbj).
        unfold SIMPLEFS_BLOCK_SIZE in *. lia.
      - intros Hx Hro _. apply Hr0, Hrel; try done. lia. }
  assert (node_disk node s2 = node_disk node s) as Hd2 by (unfold node_disk; by rewrite En2).
  rewrite Hd2. fold D. set (s' := set_disk node _ s2).
  destruct (extent_step node s s' D req Hok Hu) as (Hns&Hv&Hd').
  - etrans; [exact Hsf2|apply same_frame_node].
  - intros j. unfold s'. rewrite set_disk_nodes. by rewrite En2.
  - exact Hw2.
  - intros _. split_and!; [done|lia|]. intros b Hbb. change (simplefs_block_used b s') with (simplefs_block_used b s2).
    rewrite Hu2, Hu1. case_if; [done|]. apply Hi3. unfold in_extent. fold D old. zbool. lia.
  - fold old. lia.
  - intros j b Hj Hne Hbj. destruct (Hmark j b Hj Hbj) as [Hm Hmu].
    assert (¬ in_extent (node_disk node s) b) as Hdn by (intros ?; by apply (Hdis node j b)).
    unfold in_extent in Hdn. fold D old in Hdn.
    split_and!; [lia|change (simplefs_block_used b s2 = true); by rewrite Hu2|].
    intros k Hkk. change (vbyte s2 k = vbyte s k). apply Hv2. unfold SIMPLEFS_BLOCK_SIZE in *. lia.
  - split; try done; [by rewrite Hd'|rewrite Hd'; simpl; fold old; lia|].
    intros _. rewrite Hd'. fold old. split_and!; [done|..]; intros k Hkk; unfold content; rewrite Hd'; simpl.
    + fold D. change (vbyte s2 (D * BS + k) = vbyte s (D * BS + k)). apply Hv2.
      unfold SIMPLEFS_BLOCK_SIZE in *. lia.
    + change (vbyte s2 (D * BS + k) = 0). apply Hz; [done|]. unfold SIMPLEFS_BLOCK_SIZE in *. lia.
Qed.

(** Taking back blocks that were free before. *)
Lemma undo_move node req s st s1 s2 :
  fs_ok s → used_node s node → free_extent s st req → 0 < req ≤ 8388608 →
  s1 = simplefs_mark_extent st req true s → same_meta s1 s2 → kept_outside st (st + req) s1 s2 →
  (ReliableDevice dev → read_only dev = 0 → False) →
  grown node req s (-1) (simplefs_mark_extent st req false s2).
Proof using.
  intros Hok Hu Hfree Hreq -> Hsm Hk Hrel. pose proof Hfree as (Hf1&Hf2&_).
  pose proof (layout_bounds _ (fs_layout s Hok)) as (HL1&HL2&HL3).
  destruct (mark_extent_spec s st req true ltac:(lia) ltac:(lia) ltac:(lia)) as (E1&Hwf1&Hu1).
  pose proof (mark_extent_frame s st req true) as Hsf1.
  set (s1 := simplefs_mark_extent st req true s) in *.
  destruct (mark_extent_spec s2 st req false ltac:(lia) ltac:(lia) ltac:(lia)) as (E3&Hwf3&Hu3).
  pose proof (mark_extent_frame s2 st req false) as Hsf3.
  set (s3 := simplefs_mark_extent st req false s2) in *.
  pose proof (others_marked s st req s1 Hok Hfree Hu1) as Hmark.
  apply failed_growth; try done.
  - etrans; [exact Hsf1|]. etrans; [by apply same_meta_frame|done].
  - rewrite E3. cbn. rewrite (sm_nodes _ _ Hsm). by rewrite E1.
  - apply Hwf3. rewrite (sm_bbits _ _ Hsm). apply Hwf1, Hok.
  - intros j b Hj Hbj. destruct (Hmark j b Hj Hbj) as [Hout Hused]. rewrite Hu3.
    destruct ((st <=? b) && (b <? st + req)) eqn:Ein; [zbool; lia|].
    unfold simplefs_block_used in *. by rewrite (sm_bbits _ _ Hsm).
  - intros j b Hj Hne Hbj k Hkk. destruct (Hmark j b Hj Hbj) as [Hout _].
    transitivity (vbyte s2 k); [unfold vbyte; by rewrite E3|]. rewrite Hk.
    + unfold vbyte. by rewrite E1.
    + unfold SIMPLEFS_BLOCK_SIZE in *. lia.
  - intros Ha Hb _. by apply Hrel.
Qed.

(** Giving up the old extent for the copy. *)
Lemma finish_move node req s st s1 s3 :
  let old := d_block_count (node_disk node s) in
  let D := d_data_block (node_disk node s) in
  fs_ok s → used_node s node → 0 < old < req → req ≤ 8388608 → free_extent s st req →
  D + old ≤ st ∨ st + req ≤ D →
  s1 = simplefs_mark_extent st req true s → same_meta s1 s3 → kept_outside st (st + req) s1 s3 →
  (∀ k, 0 ≤ k < old * BS → vbyte s3 (st * BS + k) = vbyte s (D * BS + k)) →
  (∀ k, (st + old) * BS ≤ k < (st + req) * BS → vbyte s3 k = 0) →
  let s4 := simplefs_mark_extent D old false s3 in
  grown node req s 0 (set_disk node (with_d_extent st req (node_disk node s4)) s4).
Proof using.
  intros old D Hok Hu Hold Hreq Hfree Hapart -> Hsm Hk Hc Hz s4. pose proof Hfree as (Hf1&Hf2&_).
  pose proof (layout_bounds _ (fs_layout s Hok)) as (HL1&HL2&HL3).
  destruct (fs_extent s Hok node Hu) as [_ Hin]. destruct Hin as (Hi1&Hi2&Hi3); [fold old; lia|]. fold D old in Hi1, Hi2.
  destruct (mark_extent_spec s st req true ltac:(lia) ltac:(lia) ltac:(lia)) as (E1&Hwf1&Hu1).
  pose proof (mark_extent_frame s st req true) as Hsf1.
  set (s1 := simplefs_mark_extent st req true s) in *.
  destruct (mark_extent_spec s3 D old false ltac:(lia) ltac:(lia) ltac:(lia)) as (E4&Hwf4&Hu4).
  pose proof (mark_extent_frame s3 D old false) as Hsf4. fold s4 in E4, Hwf4, Hu4, Hsf4.
  assert (runtime_inodes s4 = runtime_inodes s) as En.
  { rewrite E4. cbn. rewrite (sm_nodes _ _ Hsm). by rewrite E1. }
  assert (node_disk node s4 = node_disk node s) as -> by (unfold node_disk; by rewrite En).
  assert (∀ b, simplefs_block_used b s3 = simplefs_block_used b s1) as Hu3
    by (intros b; unfold simplefs_block_used; by rewrite (sm_bbits _ _ Hsm)).
  assert (∀ k, vbyte s4 k = vbyte s3 k) as Hv4 by (intros k; unfold vbyte; by rewrite E4).
  assert (∀ k, vbyte s1 k = vbyte s k) as Hv1 by (intros k; unfold vbyte; by rewrite E1).
  set (s' := set_disk node _ s4).
  destruct (extent_step node s s' st req Hok Hu) as (Hns&Hv&Hd').
  - etrans; [exact Hsf1|]. etrans; [by apply same_meta_frame|]. etrans; [exact Hsf4|apply same_frame_node].
  - intros j. unfold s'. rewrite set_disk_nodes. by rewrite En.
  - apply Hwf4. rewrite (sm_bbits _ _ Hsm). apply Hwf1, Hok.
  - intros _. split_and!; [done|lia|]. intros b Hbb. change (simplefs_block_used b s4 = true).
    rewrite Hu4, Hu3, Hu1. case_if; [zbool; lia|]. case_if; [done|zbool; lia].
  - fold old. lia.
  - intros j b Hj Hne Hbj. destruct (others_marked s st req s1 Hok Hfree Hu1 j b Hj Hbj) as [Hm Hmu].
    assert (¬ in_extent (node_disk node s) b) as Hdn by (intros ?; by apply (fs_disjoint s Hok node j b)).
    unfold in_extent in Hdn. fold D old in Hdn. split_and!; [lia|..].
    + change (simplefs_block_used b s4 = true). rewrite Hu4, Hu3. case_if; [zbool; lia|done].
    + intros k Hkk. change (vbyte s4 k = vbyte s k). rewrite Hv4, Hk, Hv1; [done|].
      unfold SIMPLEFS_BLOCK_SIZE in *. lia.
  - split; try done; [by left|by rewrite Hd'|rewrite Hd'; simpl; fold old; lia|].
    intros _. rewrite Hd'. fold old. split_and!; [done|..]; intros k Hkk; unfold content; rewrite Hd'; simpl.
    + change (vbyte s4 (st * BS + k) = vbyte s (D * BS + k)). rewrite Hv4. by apply Hc.
    + change (vbyte s4 (st * BS + k) = 0). rewrite Hv4. apply Hz. unfold SIMPLEFS_BLOCK_SIZE in *. lia.
Qed.

(** A longer extent elsewhere. *)
Lemma move_extent_spec s node req :
  fs_ok s → used_node s node → 0 < d_block_count (node_disk node s) < req → req ≤ 8388608 →
  let '(r, s') := move_extent node req s in grown node req s r s'.
Proof using Hdev.
  intros Hok Hu Hold Hreq. pose proof Hok as [Hd Hl Hc Hb Hex Hdis Hsz].
  pose proof (layout_bounds _ Hl) as (HL1&HL2&HL3). destruct (Hex node Hu) as [_ Hin].
  destruct Hin as (Hi1&Hi2&Hi3); [lia|]. unfold move_extent.
  set (D := d_data_block (node_disk node s)) in *. set (old := d_block_count (node_disk node s)) in *.
  pose proof (allocate_extent_spec s req Hl ltac:(lia)) as Ha.
  destruct (simplefs_allocate_extent req s) as [[st|] s1].
  2:{ destruct Ha as [-> Hno]. apply failed_growth; try done.
      - intros j b Hj Hbj. destruct (Hex j Hj) as [_ Hinj]. apply Hinj; [unfold in_extent in Hbj; lia|done].
      - intros _ _ [c Hx]. by destruct (Hno c). }
  destruct Ha as (Hfree&_&->). pose proof Hfree as (Hf1&Hf2&Hf3).
  destruct (mark_extent_spec s st req true ltac:(lia) ltac:(lia) ltac:(lia)) as (E1&Hwf1&Hu1).
  pose proof (mark_extent_frame s st req true) as Hsf1.
  set (s1 := simplefs_mark_extent st req true s) in *.
  assert (D + old ≤ st ∨ st + old ≤ D ∧ st + req ≤ D) as Hapart.
  { destruct (Z_le_gt_dec (D + old) st); [by left|right].
    assert (¬ (st ≤ D < st + req)) by (intros Hx; pose proof (Hi3 D ltac:(unfold in_extent; fold D old; lia));
      rewrite Hf3 in *; done).
    assert (¬ (D ≤ st < D + old)) by (intros Hx; pose proof (Hi3 st ltac:(unfold in_extent; fold D old; lia));
      rewrite Hf3 in *; done || lia). lia. }
  assert (mounted_device s1 = Some dev) as Hm1 by (by rewrite (sf_dev _ _ Hsf1)).
  pose proof (copy_extent_spec s1 D st old Hm1 ltac:(lia) ltac:(lia) ltac:(lia) ltac:(lia) ltac:(lia)
    ltac:(lia)) as Hcp.
  destruct (simplefs_copy_extent D st old s1) as [r2 s2]. destruct Hcp as (Hsm2&Hk2&Hcp&Hr2&Hrel2).
  assert (kept_outside st (st + req) s1 s2) as Hk2' by (eapply kept_outside_mono; [| |exact Hk2]; lia).
  unfold truthy. destruct (Z.eqb_spec r2 0) as [->|Hr20]; bsimpl.
  2:{ apply (undo_move node req s st s1 s2); try done; [lia|].
      intros Hx Hro. apply Hr20, Hrel2; try done; lia. }
  assert (mounted_device s2 = Some dev) as Hm2 by (by rewrite (sm_dev _ _ Hsm2)).
  pose proof (zero_run_spec s2 st old (Z.to_nat (req - old)) Hm2 ltac:(lia) ltac:(lia) ltac:(lia)) as Hz.
  rewrite Z2Nat.id in Hz by lia. replace (st + old + (req - old)) with (st + req) in Hz by lia.
  destruct (for_each_block _ old _ s2) as [r3 s3]. destruct Hz as (Hsm3&Hk3&Hz&Hr3&Hrel3).
  assert (same_meta s1 s3) as Hsm13 by (by etrans).
  assert (kept_outside st (st + req) s1 s3) as Hk3'.
  { eapply kept_outside_trans; [exact Hk2'|]. eapply kept_outside_mono; [| |exact Hk3]; lia. }
  destruct (Z.eqb_spec r3 0) as [->|Hr30]; bsimpl.
  2:{ apply (undo_move node req s st s1 s3); try done; [lia|].
      intros Hx Hro. apply Hr30, Hrel3; try done; lia. }
  apply (finish_move node req s st s1 s3); try done; fold old; fold D; [lia| |].
  - intros k Hkk. rewrite Hk3 by (unfold SIMPLEFS_BLOCK_SIZE in *; lia). rewrite Hcp by done.
    unfold vbyte. by rewrite E1.
  - intros k Hkk. by apply Hz.
Qed.

Lemma ensure_extent_spec s node req :
  fs_ok s → used_node s node → d_block_count (node_disk node s) < req ≤ 8388608 →
  let '(r, s') := simplefs_ensure_extent node req s in grown node req s r s'.
Proof using Hdev.
  intros Hok Hu Hreq. pose proof (layout_bounds _ (fs_layout s Hok)) as (HL1&HL2&HL3).
  destruct (fs_extent s Hok node Hu) as [H0 Hin]. unfold simplefs_ensure_extent.
  destruct (Z.leb_spec req (d_block_count (node_disk node s))); [lia|].
  destruct (Z.eqb_spec (d_block_count (node_disk node s)) 0) as [E|E].
  { apply first_extent_spec; try done. lia. }
  destruct Hin as (Hi1&Hi2&_); [lia|]. rewrite !u32_small by lia.
  destruct (simplefs_extent_is_free _ _ s) eqn:Ef.
  - apply extend_extent_spec; try done; [lia..|]. apply extent_is_free_spec in Ef; [done|lia..].
  - apply move_extent_spec; try done; lia.
Qed.

(** ** Bytes of a file *)

(** Bytes [lo, hi) of the extent become [g]; every other byte of it, and every byte
    outside it, stays. *)
Record patched node (lo hi : Z) (g : Z → Z) s s' : Prop := {
  pa_meta : same_meta s s';
  pa_outside : kept_outside (d_data_block (node_disk node s))
    (d_data_block (node_disk node s) + d_block_count (node_disk node s)) s s';
  pa_bytes : ∀ k, 0 ≤ k < d_block_count (node_disk node s) * BS →
    content s' node k = if (lo <=? k) && (k <? hi) then g k else content s node k;
}.

(** A change of the bytes of one file only. *)
Definition data_change node s s' : Prop :=
  same_meta s s' ∧
  kept_outside (d_data_block (node_disk node s))
    (d_data_block (node_disk node s) + d_block_count (node_disk node s)) s s'.

Lemma data_change_refl node s : data_change node s s.
Proof using. split; [reflexivity|apply kept_outside_refl]. Qed.

Lemma data_change_trans node s1 s2 s3 :
  data_change node s1 s2 → data_change node s2 s3 → data_change node s1 s3.
Proof using.
  intros [H1 K1] [H2 K2]. rewrite (same_meta_disk _ _ _ H1) in K2.
  split; [by etrans|by eapply kept_outside_trans].
Qed.

Lemma patched_change node lo hi g s s' : patched node lo hi g s s' → data_change node s s'.
Proof using. by intros []. Qed.

Lemma patched_refl node lo g s : patched node lo lo g s s.
Proof using.
  split; [reflexivity|apply kept_outside_refl|]. intros k Hk. case_if; [zbool; lia|done].
Qed.

Lemma patched_trans node lo mid hi g s1 s2 s3 :
  lo ≤ mid ≤ hi → patched node lo mid g s1 s2 → patched node mid hi g s2 s3 → patched node lo hi g s1 s3.
Proof using.
  intros Hr [A1 A2 A3] [B1 B2 B3]. rewrite (same_meta_disk _ _ _ A1) in B2, B3.
  split; [by etrans|by eapply kept_outside_trans|]. intros k Hk. rewrite B3, A3 by done.
  repeat case_if; zbool; try done; lia.
Qed.

Lemma data_change_step node s s' :
  fs_ok s → used_node s node → data_change node s s' → node_step node s s'.
Proof using.
  intros Hok Hu [Hsm Hk]. pose proof (same_meta_disk _ _ node Hsm) as Hd.
  assert (node_vfs node s' = node_vfs node s) as Hv by (unfold node_vfs; by rewrite (sm_nodes _ _ Hsm)).
  assert (∀ b, simplefs_block_used b s' = simplefs_block_used b s) as Hb
    by (intros b; unfold simplefs_block_used; by rewrite (sm_bbits _ _ Hsm)).
  apply fs_ok_step; try done; try apply Hsm.
  - by rewrite (sm_dev _ _ Hsm), (fs_dev s Hok).
  - intros j Hj. by rewrite (sm_nodes _ _ Hsm).
  - unfold node_disk, node_vfs. rewrite (sm_nodes _ _ Hsm). by destruct (runtime_inodes s node).
  - by rewrite Hd.
  - intros n. by rewrite Hv.
  - rewrite (sm_bbits _ _ Hsm). apply Hok.
  - rewrite Hd. destruct (fs_extent s Hok node Hu) as [? Hin]. split; [done|]. intros Hpos.
    rewrite (sm_super _ _ Hsm). destruct (Hin Hpos) as (?&?&Hm). split_and!; [done|done|].
    intros b Hbb. rewrite Hb. by apply Hm.
  - intros j b Hj Hne Hbj. rewrite Hd. destruct (fs_extent s Hok j Hj) as [_ Hin].
    assert (¬ in_extent (node_disk node s) b) as Hnb by (intros ?; by apply (fs_disjoint s Hok node j b)).
    split_and!; [done| |].
    + rewrite Hb. apply Hin; [unfold in_extent in Hbj; lia|done].
    + intros k Hkk. apply Hk. unfold in_extent, SIMPLEFS_BLOCK_SIZE in *. lia.
  - rewrite Hd. by apply (fs_size s Hok).
Qed.

(** Writing one block of the extent. *)
Lemma write_file_block s node fb buf :
  mounted_device s = Some dev → extent_ok s (node_disk node s) → layout_ok (mounted_superblock s) →
  0 ≤ fb < d_block_count (node_disk node s) →
  let '(r, s') := simplefs_write_blocks (d_data_block (node_disk node s) ⊞ fb) 1 buf s in
  data_change node s s' ∧
  (∀ k, 0 ≤ k < fb * BS ∨ (fb + 1) * BS ≤ k < d_block_count (node_disk node s) * BS →
     content s' node k = content s node k) ∧
  (r = 0 → patched node (fb * BS) ((fb + 1) * BS) (λ k, buf (k - fb * BS)) s s') ∧
  (ReliableDevice dev → read_only dev = 0 → r = 0).
Proof using Hdev.
  intros Hm [_ Hin] Hl Hfb. pose proof (layout_bounds _ Hl) as (HL1&HL2&HL3).
  destruct Hin as (Hi1&Hi2&_); [lia|]. set (D := d_data_block (node_disk node s)) in *.
  set (n := d_block_count (node_disk node s)) in *. rewrite u32_small by lia.
  pose proof (write_blocks_spec s (D + fb) 1 buf Hm ltac:(lia) ltac:(lia)) as Hw.
  destruct (simplefs_write_blocks (D + fb) 1 buf s) as [r s']. destruct Hw as (Hsm&Hk&_&Hok&Hrel).
  pose proof (same_meta_disk _ _ node Hsm) as Hd.
  assert (kept_outside D (D + n) s s') as Hk' by (eapply kept_outside_mono; [| |exact Hk]; lia).
  split_and!.
  - done.
  - intros k Hkk. unfold content. rewrite Hd. apply Hk. fold D. unfold SIMPLEFS_BLOCK_SIZE in *. lia.
  - intros Hr. destruct (Hok Hr) as [_ Hb]. split; [done|done|]. intros k Hkk. unfold content. rewrite Hd. fold D.
    rewrite Hb. case_if.
    + zbool. rewrite copy_bytes_in by (unfold SIMPLEFS_BLOCK_SIZE in *; lia). f_equal.
      unfold SIMPLEFS_BLOCK_SIZE in *. lia.
    + rewrite copy_bytes_out; [done|]. zbool; unfold SIMPLEFS_BLOCK_SIZE in *; lia.
  - intros. apply Hrel; try done; lia.
Qed.

(** Reading a block of the extent. *)
Lemma read_file_block s node fb buf :
  mounted_device s = Some dev → extent_ok s (node_disk node s) → layout_ok (mounted_superblock s) →
  0 ≤ fb < d_block_count (node_disk node s) →
  let '(r, buf') := simplefs_read_blocks (d_data_block (node_disk node s) ⊞ fb) 1 buf s in
  (r = 0 → ∀ j, 0 ≤ j < BS → buf' j = content s node (fb * BS + j)) ∧
  (∀ j, j < 0 ∨ BS ≤ j → buf' j = buf j) ∧
  (ReliableDevice dev → r = 0).
Proof using Hdev.
  intros Hm [_ Hin] Hl Hfb. pose proof (layout_bounds _ Hl) as (HL1&HL2&HL3).
  destruct Hin as (Hi1&Hi2&_); [lia|]. rewrite u32_small by lia.
  pose proof (read_blocks_spec s (d_data_block (node_disk node s) + fb) 1 buf Hm ltac:(lia) ltac:(lia)) as H.
  destruct (simplefs_read_blocks _ 1 buf s) as [r buf']. destruct H as (Hok&Hk&Hrel). split_and!.
  - intros Hr j Hj. destruct (Hok Hr) as [_ ->]. rewrite copy_bytes_in by lia. unfold content, vbyte. f_equal. lia.
  - intros j Hj. apply Hk. lia.
  - intros. apply Hrel; try done; lia.
Qed.

(** Changing part of a block through the scratch block. *)
Lemma rmw_file_block s node fb bo chunk g (upd : carray Z → carray Z) :
  mounted_device s = Some dev → extent_ok s (node_disk node s) → layout_ok (mounted_superblock s) →
  0 ≤ fb < d_block_count (node_disk node s) → 0 ≤ bo → 0 ≤ chunk → bo + chunk ≤ BS →
  (∀ m j, upd m j = if (bo <=? j) && (j <? bo + chunk) then g (fb * BS + j) else m j) →
  let '(r, scratch) := simplefs_read_blocks (d_data_block (node_disk node s) ⊞ fb) 1 (block_scratch s) s in
  data_change node s (with_scratch scratch s) ∧
  (ReliableDevice dev → r = 0) ∧
  (r = 0 →
   let '(r, s') := simplefs_write_blocks (d_data_block (node_disk node (with_scratch scratch s)) ⊞ fb) 1
                     (upd scratch) (with_scratch (upd scratch) (with_scratch scratch s)) in
   data_change node s s' ∧
   (∀ k, 0 ≤ k < fb * BS ∨ (fb + 1) * BS ≤ k < d_block_count (node_disk node s) * BS →
      content s' node k = content s node k) ∧
   (r = 0 → patched node (fb * BS + bo) (fb * BS + bo + chunk) g s s') ∧
   (ReliableDevice dev → read_only dev = 0 → r = 0)).
Proof using Hdev.
  intros Hm Hex Hl Hfb Hbo Hch Hsz Hupd.
  pose proof (read_file_block s node fb (block_scratch s) Hm Hex Hl Hfb) as H1.
  destruct (simplefs_read_blocks _ 1 (block_scratch s) s) as [r scratch]. destruct H1 as (Hrd&_&Hrel).
  split_and!; [by split|done|]. intros Hr. specialize (Hrd Hr).
  set (s1 := with_scratch (upd scratch) (with_scratch scratch s)).
  pose proof (write_file_block s1 node fb (upd scratch) Hm Hex Hl Hfb) as H2.
  change (node_disk node (with_scratch scratch s)) with (node_disk node s1).
  destruct (simplefs_write_blocks _ 1 (upd scratch) s1) as [r2 s']. destruct H2 as ([Hsm Hko]&Hoth&Hpa&Hrel2).
  assert (same_meta s s') as Hsm' by (etrans; [|exact Hsm]; done).
  split_and!; [by split|exact Hoth| |done].
  intros Hr2. destruct (Hpa Hr2) as [_ Hk Hb]. split; [done|exact Hk|].
  intros k Hkk. rewrite Hb by exact Hkk. rewrite Hupd. change (content s1 node k) with (content s node k).
  destruct ((fb * BS + bo <=? k) && (k <? fb * BS + bo + chunk)) eqn:Ein.
  - zbool. rewrite !(proj2 (Z.leb_le _ _)), !(proj2 (Z.ltb_lt _ _)) by (unfold SIMPLEFS_BLOCK_SIZE in *; lia).
    bsimpl. f_equal. lia.
  - destruct ((fb * BS <=? k) && (k <? (fb + 1) * BS)) eqn:Eb; [|done].
    zbool; (destruct ((bo <=? k - fb * BS) && (k - fb * BS <? bo + chunk)) eqn:Ec; [zbool; lia|]);
      rewrite Hrd by (unfold SIMPLEFS_BLOCK_SIZE in *; lia); f_equal; lia.
Qed.

Lemma zero_range_loop_spec fuel s node start len cleared :
  mounted_device s = Some dev → extent_ok s (node_disk node s) → layout_ok (mounted_superblock s) →
  0 ≤ start → 0 ≤ cleared ≤ len → start + len ≤ d_block_count (node_disk node s) * BS →
  len - cleared ≤ Z.of_nat fuel →
  let '(r, s') := zero_range_loop fuel node start len cleared s in
  data_change node s s' ∧ (r = 0 ∨ r = -1) ∧
  (r = 0 → patched node (start + cleared) (start + len) (λ _, 0) s s') ∧
  (ReliableDevice dev → read_only dev = 0 → r = 0).
Proof using Hdev.
  revert s cleared. induction fuel as [|fuel IH]; intros s cleared Hm Hex Hl Hst Hcl Hsz Hfuel; cbn [zero_range_loop].
  { replace cleared with len by lia. split_and!; [apply data_change_refl|by left| |done]. intros _. apply patched_refl. }
  destruct (Z.ltb_spec cleared len) as [Hlt|].
  2:{ replace cleared with len by lia. split_and!; [apply data_change_refl|by left| |done]. intros _. apply patched_refl. }
  pose proof (layout_bounds _ Hl) as (HL1&HL2&HL3). pose proof Hex as [_ Hin].
  set (n := d_block_count (node_disk node s)) in *.
  destruct Hin as (Hi1&Hi2&_); [unfold SIMPLEFS_BLOCK_SIZE in *; lia|].
  assert (start + len ≤ 16777216) as Hcap by (unfold SIMPLEFS_BLOCK_SIZE in *; lia).
  rewrite (u32_small (start + cleared)), (u32_small (len - cleared)) by lia.
  set (fo := start + cleared) in *. set (bo := fo mod BS). set (fb := fo / BS). unfold min_u32.
  set (chunk := if len - cleared <? BS - bo then _ else _).
  assert (fo = fb * BS + bo ∧ 0 ≤ bo < BS ∧ 0 ≤ fb < n) as (Hfo&Hbo&Hfb)
    by (unfold bo, fb, SIMPLEFS_BLOCK_SIZE in *; word_lia).
  assert (0 < chunk ≤ len - cleared ∧ bo + chunk ≤ BS) as (Hch&Hcb).
  { unfold chunk. destruct (Z.ltb_spec (len - cleared) (BS - bo)); lia. }
  pose proof (rmw_file_block s node fb bo chunk (λ _, 0) (λ m, zero_bytes m bo chunk)
    Hm Hex Hl Hfb ltac:(lia) ltac:(lia) Hcb) as H1.
  specialize (H1 ltac:(intros m j; case_if; zbool; [by rewrite zero_bytes_in by lia|rewrite zero_bytes_out; [done|lia]..])).
  destruct (simplefs_read_blocks _ 1 (block_scratch s) s) as [r scratch]. destruct H1 as (Hc1&Hrel1&H1).
  unfold truthy. destruct (Z.eqb_spec r 0) as [->|Hr]; bsimpl.
  2:{ split_and!; [done|by right|done|]. intros. by destruct Hr; apply Hrel1. }
  specialize (H1 eq_refl). cbv beta in H1.
  destruct (simplefs_write_blocks _ 1 _ _) as [r2 s2]. destruct H1 as (Hc2&_&Hpa&Hrel2).
  destruct (Z.eqb_spec r2 0) as [->|Hr2]; bsimpl.
  2:{ split_and!; [done|by right|done|]. intros. by destruct Hr2; apply Hrel2. }
  specialize (Hpa eq_refl). rewrite u32_small by lia.
  destruct Hc2 as [Hsm2 Hk2]. pose proof (same_meta_disk _ _ node Hsm2) as Hd2.
  assert (extent_ok s2 (node_disk node s2)) as Hex2.
  { rewrite Hd2. destruct Hex as [? Hin]. split; [done|]. intros Hpos. rewrite (sm_super _ _ Hsm2).
    unfold simplefs_block_used. rewrite (sm_bbits _ _ Hsm2). by apply Hin. }
  specialize (IH s2 (cleared + chunk) ltac:(by rewrite (sm_dev _ _ Hsm2)) Hex2 ltac:(by rewrite (sm_super _ _ Hsm2))
    Hst ltac:(lia) ltac:(rewrite Hd2; fold n; lia) ltac:(lia)).
  destruct (zero_range_loop fuel node start len (cleared + chunk) s2) as [r' s'].
  destruct IH as (Hc3&Hr3&Hp3&Hrel3). split_and!; [|done| |done].
  - eapply data_change_trans; [|exact Hc3]. by split.
  - intros Hr0. rewrite <- Hfo in Hpa.
    replace (start + (cleared + chunk)) with (fo + chunk) in Hp3 by (unfold fo; lia).
    eapply patched_trans; [|exact Hpa|by apply Hp3]. lia.
Qed.

(** ** Metadata on the disk *)

Definition inode_words (d : simplefs_inode_disk) : Prop :=
  Forall is_u32 [d_kind d; d_size d; d_data_block d; d_block_count d; d_child_count d; d_mode d;
                 d_uid d; d_gid d].

Lemma inode_disk_store m a d : inode_words d → inode_disk_at (store_inode_disk m a d) a = d.
Proof using.
  intros Hw. unfold inode_words in Hw. rewrite !Forall_cons in Hw. destruct Hw as (?&?&?&?&?&?&?&?&_).
  unfold inode_disk_at, store_inode_disk. cbv zeta.
  repeat (rewrite load32_store32_same by done) || rewrite load32_store32_disj by lia.
  by destruct d.
Qed.

Lemma store_inode_disk_other m a d k : k < a ∨ a + 32 ≤ k → store_inode_disk m a d k = m k.
Proof using. intros Hk. unfold store_inode_disk. cbv zeta. by rewrite !store32_other by lia. Qed.

Lemma inode_disk_at_ext m m' a a' :
  (∀ k, 0 ≤ k < 32 → m (a + k) = m' (a' + k)) → inode_disk_at m a = inode_disk_at m' a'.
Proof using.
  intros H. assert (∀ o, 0 ≤ o ≤ 28 → load32 m (a + o) = load32 m' (a' + o)) as Hl.
  { intros o Ho. unfold load32, load_le. rewrite <- !Z.add_assoc. by rewrite !H by lia. }
  pose proof (Hl 0 ltac:(lia)) as H0. rewrite !Z.add_0_r in H0.
  unfold inode_disk_at. by rewrite H0, !Hl by lia.
Qed.

Lemma superblock_at_ext m m' a a' :
  (∀ k, 0 ≤ k < 56 → m (a + k) = m' (a' + k)) → superblock_at m a = superblock_at m' a'.
Proof using.
  intros H. assert (∀ o, 0 ≤ o ≤ 52 → load32 m (a + o) = load32 m' (a' + o)) as Hl.
  { intros o Ho. unfold load32, load_le. rewrite <- !Z.add_assoc. by rewrite !H by lia. }
  pose proof (Hl 0 ltac:(lia)) as H0. rewrite !Z.add_0_r in H0.
  unfold superblock_at. by rewrite H0, !Hl by lia.
Qed.

Lemma superblock_store m b : layout_ok b → superblock_at (store_superblock m 0 b) 0 = b.
Proof using.
  intros Hl. pose proof (layout_bounds _ Hl) as (HL1&HL2&HL3). destruct Hl as [[]? [] [] [] (?&?&?&?&?&?)].
  assert (∀ x, 0 ≤ x ≤ 32768 → is_u32 x) as Hx by (unfold is_u32; lia).
  unfold superblock_at, store_superblock. cbv zeta.
  repeat (rewrite load32_store32_same by (done || apply Hx; lia)) || rewrite load32_store32_disj by lia.
  by destruct b.
Qed.

(** The image of the inode table holds every inode. *)
Lemma inode_image_spec s m i :
  0 ≤ i < mounted_inode_count s → inode_words (node_disk i s) →
  inode_disk_at (for_range 0 (mounted_inode_count s)
    (λ index m, store_inode_disk m (sizeof_inode_disk * index) (node_disk index s)) m) (sizeof_inode_disk * i)
  = node_disk i s.
Proof using.
  intros Hi Hw. assert (∀ n, 0 ≤ n → i < n → inode_disk_at (for_range 0 n
    (λ index m, store_inode_disk m (sizeof_inode_disk * index) (node_disk index s)) m) (sizeof_inode_disk * i)
    = node_disk i s) as H; [|apply H; lia].
  intros n Hn. apply (for_range_ind (λ n m, i < n → inode_disk_at m (sizeof_inode_disk * i) = node_disk i s)); [done|lia|].
  intros k m' Hk IH Hik. destruct (decide (k = i)) as [->|Hne]; [by apply inode_disk_store|].
  rewrite <- IH by lia. apply inode_disk_at_ext. intros o Ho. apply store_inode_disk_other.
  unfold sizeof_inode_disk. lia.
Qed.

(** Only the storage, the table image and the scratch block differ. *)
Definition same_core s s' : Prop :=
  same_meta (with_table_image (inode_table_image s') s) s'.

#[local] Instance same_core_trans : Transitive same_core.
Proof using. intros s1 s2 s3 [] []. split; simpl in *; congruence. Qed.

Lemma same_meta_core s s' : same_meta s s' → same_core s s'.
Proof using. intros []. split; simpl; congruence. Qed.

Lemma same_core_disk s s' node : same_core s s' → node_disk node s' = node_disk node s.
Proof using. intros H. exact (same_meta_disk _ _ node H). Qed.

(** What the disk holds of the tables in memory. *)
Record persisted s : Prop := {
  pe_super : superblock_at (view (storage s)) 0 = mounted_superblock s;
  pe_inodes : ∀ i, 0 ≤ i < mounted_inode_count s → inode_words (node_disk i s) →
    inode_disk_at (view (storage s)) (sb_inode_table_start (mounted_superblock s) * BS + sizeof_inode_disk * i)
    = node_disk i s;
  pe_ibits : ∀ k, 0 ≤ k < BS →
    vbyte s (sb_inode_bitmap_start (mounted_superblock s) * BS + k) = inode_bitmap s k;
  pe_bbits : ∀ k, 0 ≤ k < sb_block_bitmap_blocks (mounted_superblock s) * BS →
    vbyte s (sb_block_bitmap_start (mounted_superblock s) * BS + k) = block_bitmap s k;
}.

(** One table written at [b], [n] blocks long. *)
Lemma write_table_spec s b n buf :
  mounted_device s = Some dev → layout_ok (mounted_superblock s) → 0 ≤ b → 1 ≤ n →
  b + n ≤ sb_data_block_start (mounted_superblock s) →
  let '(r, s') := simplefs_write_blocks b n buf s in
  same_core s s' ∧ kept_outside b (b + n) s s' ∧
  (r = 0 → ∀ k, 0 ≤ k < n * BS → vbyte s' (b * BS + k) = buf k) ∧
  (ReliableDevice dev → read_only dev = 0 → r = 0).
Proof using Hdev.
  intros Hm Hl Hb Hn Hbn. pose proof (layout_bounds _ Hl) as (HL1&HL2&HL3).
  pose proof (write_blocks_spec s b n buf Hm Hb ltac:(lia)) as H.
  destruct (simplefs_write_blocks b n buf s) as [r s']. destruct H as (Hsm&Hk&_&Hok&Hrel).
  split_and!; [by apply same_meta_core|done| |].
  - intros Hr k Hkk. destruct (Hok Hr) as [_ ->]. rewrite copy_bytes_in by lia. f_equal. lia.
  - intros. apply Hrel; try done; lia.
Qed.

(** A successful flush leaves the tables on the disk; no flush touches the data area. *)
Lemma flush_metadata_spec s :
  mounted_device s = Some dev → layout_ok (mounted_superblock s) →
  sizeof_inode_disk * mounted_inode_count s ≤ sb_inode_table_blocks (mounted_superblock s) * BS →
  let '(r, s') := simplefs_flush_metadata s in
  same_core s s' ∧ kept_outside 0 (sb_data_block_start (mounted_superblock s)) s s' ∧
  (r = 0 → persisted s') ∧ (ReliableDevice dev → read_only dev = 0 → r = 0).
Proof using Hdev.
  intros Hm Hl Hcount. pose proof (layout_bounds _ Hl) as (HL1&HL2&HL3).
  pose proof Hl as [[Ht1 Ht2] [Hi1 Hi2] [Hb1 Hb2] [Hd1 Hd2] _ _].
  set (sb := mounted_superblock s) in *. unfold simplefs_flush_metadata.
  destruct (device_writable s) eqn:Ew; bsimpl.
  2:{ split_and!; [by split|apply kept_outside_refl|done|]. intros _ Hro.
      unfold device_writable in Ew. rewrite Hm, Hro in Ew. done. }
  unfold simplefs_flush_superblock. set (scratch := store_superblock _ 0 _).
  pose proof (write_table_spec (with_scratch scratch s) 0 1 scratch Hm Hl ltac:(lia) ltac:(lia)
    ltac:(cbn; fold sb; lia)) as H0.
  destruct (simplefs_write_blocks 0 1 scratch _) as [r0 s0]. destruct H0 as (C0&K0&W0&R0).
  assert (same_core s s0) as C0' by (etrans; [|exact C0]; done).
  assert (kept_outside 0 (sb_data_block_start sb) s s0) as K0'
    by (eapply kept_outside_mono; [| |exact K0]; lia).
  unfold truthy. destruct (Z.eqb_spec r0 0) as [->|Hr]; bsimpl.
  2:{ split_and!; [done|done|done|]. intros. by destruct Hr; apply R0. }
  pose proof (sm_super _ _ C0') as S0. pose proof (sm_dev _ _ C0') as D0. cbn in S0, D0. fold sb in S0.
  unfold simplefs_flush_inode_table. set (image := for_range _ _ _ _).
  pose proof (write_table_spec (with_table_image image s0) (sb_inode_table_start sb) (sb_inode_table_blocks sb) image
    ltac:(cbn; congruence) ltac:(cbn; rewrite S0; done) ltac:(lia) Ht2 ltac:(cbn; rewrite S0; lia)) as H1.
  cbn [mounted_superblock with_table_image]. rewrite S0.
  destruct (simplefs_write_blocks _ _ image _) as [r1 s1]. destruct H1 as (C1&K1&W1&R1).
  assert (same_core s s1) as C1' by (etrans; [exact C0'|]; exact C1).
  assert (kept_outside 0 (sb_data_block_start sb) s s1) as K1'.
  { eapply kept_outside_trans; [exact K0'|]. eapply kept_outside_mono; [| |exact K1]; lia. }
  destruct (Z.eqb_spec r1 0) as [->|Hr]; bsimpl.
  2:{ split_and!; [done|done|done|]. intros. by destruct Hr; apply R1. }
  pose proof (sm_super _ _ C1') as S1. pose proof (sm_dev _ _ C1') as D1. cbn in S1, D1. fold sb in S1.
  unfold simplefs_flush_inode_bitmap. rewrite S1.
  pose proof (write_table_spec s1 (sb_inode_bitmap_start sb) (sb_inode_bitmap_blocks sb) (inode_bitmap s1)
    ltac:(congruence) ltac:(rewrite S1; done) ltac:(lia) ltac:(lia) ltac:(rewrite S1; lia)) as H2.
  destruct (simplefs_write_blocks _ _ (inode_bitmap s1) _) as [r2 s2]. destruct H2 as (C2&K2&W2&R2).
  assert (same_core s s2) as C2' by (by etrans).
  assert (kept_outside 0 (sb_data_block_start sb) s s2) as K2'.
  { eapply kept_outside_trans; [exact K1'|]. eapply kept_outside_mono; [| |exact K2]; lia. }
  destruct (Z.eqb_spec r2 0) as [->|Hr]; bsimpl.
  2:{ split_and!; [done|done|done|]. intros. by destruct Hr; apply R2. }
  pose proof (sm_super _ _ C2') as S2. pose proof (sm_dev _ _ C2') as D2. cbn in S2, D2. fold sb in S2.
  unfold simplefs_flush_block_bitmap. rewrite S2.
  pose proof (write_table_spec s2 (sb_block_bitmap_start sb) (sb_block_bitmap_blocks sb) (block_bitmap s2)
    ltac:(congruence) ltac:(rewrite S2; done) ltac:(lia) ltac:(lia) ltac:(rewrite S2; lia)) as H3.
  destruct (simplefs_write_blocks _ _ (block_bitmap s2) _) as [r3 s3]. destruct H3 as (C3&K3&W3&R3).
  assert (same_core s s3) as C3' by (by etrans).
  assert (kept_outside 0 (sb_data_block_start sb) s s3) as K3'.
  { eapply kept_outside_trans; [exact K2'|]. eapply kept_outside_mono; [| |exact K3]; lia. }
  split_and!; [done|done| |done]. intros Hr3. specialize (W0 eq_refl). specialize (W1 eq_refl).
  specialize (W2 eq_refl). specialize (W3 Hr3).
  pose proof (sm_super _ _ C3') as S3. cbn in S3. fold sb in S3.
  pose proof (sm_count _ _ C3') as N3. cbn in N3.
  split; rewrite ?S3, ?N3.
  - rewrite <- (superblock_store (zero_bytes (block_scratch s) 0 BS) sb Hl).
    apply superblock_at_ext. intros k Hk. change (view (storage s3) (0 + k)) with (vbyte s3 (0 + k)).
    rewrite K3, K2, K1 by (unfold SIMPLEFS_BLOCK_SIZE in *; lia). change (vbyte (with_table_image image s0) (0 + k)) with (vbyte s0 (0 * BS + k)).
    apply W0. unfold SIMPLEFS_BLOCK_SIZE in *. lia.
  - intros i Hi Hw. rewrite (same_core_disk _ _ _ C3') in Hw |- *.
    rewrite <- (inode_image_spec s (inode_table_image s0) i Hi Hw).
    assert (image = for_range 0 (mounted_inode_count s)
      (λ index m, store_inode_disk m (sizeof_inode_disk * index) (node_disk index s)) (inode_table_image s0)) as <-.
    { unfold image. rewrite (sm_count _ _ C0'). unfold node_disk. by rewrite (sm_nodes _ _ C0'). }
    apply inode_disk_at_ext. intros k Hk. set (o := sizeof_inode_disk * i) in *. unfold sizeof_inode_disk in *.
    change (vbyte s3 (sb_inode_table_start sb * BS + o + k) = image (o + k)).
    rewrite K3, K2 by (unfold SIMPLEFS_BLOCK_SIZE in *; lia). rewrite <- Z.add_assoc. apply W1. lia.
  - intros k Hk. rewrite K3 by (unfold SIMPLEFS_BLOCK_SIZE in *; lia). rewrite W2 by lia.
    by rewrite (sm_ibits _ _ C1'), (sm_ibits _ _ C3').
  - intros k Hk. rewrite W3 by lia. by rewrite (sm_bbits _ _ C2'), (sm_bbits _ _ C3').
Qed.

(** A flush as a step of any node. *)
Lemma flush_step s s' node :
  fs_ok s → used_node s node → same_core s s' →
  kept_outside 0 (sb_data_block_start (mounted_superblock s)) s s' →
  node_step node s s' ∧ node_disk node s' = node_disk node s ∧ node_vfs node s' = node_vfs node s ∧
  ∀ k, 0 ≤ k < d_block_count (node_disk node s) * BS → content s' node k = content s node k.
Proof using.
  intros Hok Hu Hc Hk. pose proof (same_core_disk _ _ node Hc) as Hd.
  assert (runtime_inodes s' = runtime_inodes s) as Hn by exact (sm_nodes _ _ Hc).
  assert (∀ b, simplefs_block_used b s' = simplefs_block_used b s) as Hb
    by (intros b; unfold simplefs_block_used; by rewrite (sm_bbits _ _ Hc)).
  assert (∀ j k, used_node s j → 0 ≤ k → 0 < d_block_count (node_disk j s) →
    vbyte s' (d_data_block (node_disk j s) * BS + k) = vbyte s (d_data_block (node_disk j s) * BS + k)) as Hv.
  { intros j k Hj Hk0 Hpos. apply Hk. destruct (fs_extent s Hok j Hj) as [_ Hin].
    destruct (Hin Hpos) as (?&_). unfold SIMPLEFS_BLOCK_SIZE. lia. }
  split_and!; [|done|unfold node_vfs; by rewrite Hn|].
  2:{ intros k Hkk. unfold content. rewrite Hd. apply Hv; [done|lia|]. unfold SIMPLEFS_BLOCK_SIZE in *. lia. }
  apply fs_ok_step; try done; try apply Hc.
  - rewrite (sm_dev _ _ Hc). apply Hok.
  - intros j _. by rewrite Hn.
  - unfold node_disk, node_vfs. rewrite Hn. by destruct (runtime_inodes s node).
  - by rewrite Hd.
  - intros n. unfold node_vfs. by rewrite Hn.
  - rewrite (sm_bbits _ _ Hc). apply Hok.
  - rewrite Hd. destruct (fs_extent s Hok node Hu) as [? Hin]. split; [done|]. intros Hpos.
    rewrite (sm_super _ _ Hc). destruct (Hin Hpos) as (?&?&Hm). split_and!; [done|done|].
    intros b Hbb. rewrite Hb. by apply Hm.
  - intros j b Hj Hne Hbj. rewrite Hd. destruct (fs_extent s Hok j Hj) as [_ Hin].
    destruct Hin as (?&?&Hm); [unfold in_extent in Hbj; lia|].
    split_and!; [intros ?; by apply (fs_disjoint s Hok node j b)|rewrite Hb; by apply Hm|].
    intros k Hkk. apply Hk. unfold in_extent, SIMPLEFS_BLOCK_SIZE in *. lia.
  - rewrite Hd. by apply (fs_size s Hok).
Qed.

(** The size of the node in memory, in both copies. *)
Definition set_size node (n : Z) s : simplefs St :=
  let s := set_disk node (with_d_size n (node_disk node s)) s in
  set_vfs node (with_in_size n (node_vfs node s)) s.

Lemma set_size_nodes node n s j :
  runtime_inodes (set_size node n s) j
  = if decide (node = j)
    then with_rt_vfs (with_in_size n (node_vfs node s)) (with_rt_disk (with_d_size n (node_disk node s)) (runtime_inodes s node))
    else runtime_inodes s j.
Proof using.
  unfold set_size, set_vfs, set_disk, set_node, node_vfs. cbn [runtime_inodes with_runtime_inodes].
  rewrite !arr_get_set. case_decide as Hj; [|done]. by rewrite !decide_True by done.
Qed.

Lemma set_size_disk node n s : node_disk node (set_size node n s) = with_d_size n (node_disk node s).
Proof using. unfold node_disk at 1. by rewrite set_size_nodes, decide_True. Qed.

Lemma set_size_step node n s :
  fs_ok s → used_node s node → 0 ≤ n ≤ d_block_count (node_disk node s) * BS →
  node_step node s (set_size node n s).
Proof using.
  intros Hok Hu Hn. pose proof (set_size_disk node n s) as Hd.
  assert (node_vfs node (set_size node n s) = with_in_size n (node_vfs node s)) as Hv
    by (unfold node_vfs at 1; by rewrite set_size_nodes, decide_True).
  apply fs_ok_step; try done.
  - apply Hok.
  - intros j Hj. by rewrite set_size_nodes, decide_False.
  - rewrite Hd, Hv, set_size_nodes, decide_True by done. done.
  - by rewrite Hd.
  - intros m. by rewrite Hv.
  - apply Hok.
  - rewrite Hd. exact (fs_extent s Hok node Hu).
  - intros j b Hj Hne Hbj. rewrite Hd. destruct (fs_extent s Hok j Hj) as [_ Hin].
    destruct Hin as (?&?&Hm); [unfold in_extent in Hbj; lia|].
    split_and!; [|by apply Hm|done]. intros Hx. by apply (fs_disjoint s Hok node j b).
  - rewrite Hd. done.
Qed.

Lemma required_blocks_eq n : 0 ≤ n ≤ 4294966784 → simplefs_required_blocks n = (n + 511) / 512.
Proof using.
  intros Hn. unfold simplefs_required_blocks. destruct (Z.eqb_spec n 0) as [->|]; [done|].
  unfold align_up, SIMPLEFS_BLOCK_SIZE. pose proof (align_mask n 9 ltac:(lia) ltac:(lia) ltac:(lia)) as H.
  change (2 ^ 9) with 512 in H. rewrite H. word_lia.
Qed.

(** ** Resizing *)

(** The node keeps [n] of its blocks; the others are free. *)
Record trimmed node (st n : Z) s s' : Prop := {
  tr_frame : same_frame s s';
  tr_nodes : ∀ j, runtime_inodes s' j = if decide (node = j)
    then with_rt_disk (with_d_extent st n (node_disk node s)) (runtime_inodes s node)
    else runtime_inodes s j;
  tr_start : 0 < n → st = d_data_block (node_disk node s);
  tr_count : 0 ≤ n ≤ d_block_count (node_disk node s);
  tr_bits : bm_wf 8 (block_bitmap s');
  tr_used : ∀ b, simplefs_block_used b s'
    = if (d_data_block (node_disk node s) + n <=? b)
         && (b <? d_data_block (node_disk node s) + d_block_count (node_disk node s))
      then false else simplefs_block_used b s;
  tr_kept : kept_outside (d_data_block (node_disk node s)) (d_data_block (node_disk node s) + n) s s';
}.

Lemma trimmed_step node st n s s1 s' :
  fs_ok s → used_node s node → trimmed node st n s s1 →
  same_frame s1 s' → block_bitmap s' = block_bitmap s1 → storage s' = storage s1 →
  (∀ j, j ≠ node → runtime_inodes s' j = runtime_inodes s1 j) →
  runtime_inodes s' node
    = with_rt_disk (node_disk node s') (with_rt_vfs (node_vfs node s') (runtime_inodes s node)) →
  with_d_size 0 (node_disk node s') = with_d_size 0 (node_disk node s1) →
  (∀ m, with_in_size m (node_vfs node s') = with_in_size m (node_vfs node s)) →
  (d_kind (node_disk node s) = SIMPLEFS_INODE_FILE → 0 ≤ d_size (node_disk node s') ≤ n * BS) →
  node_step node s s'.
Proof using.
  intros Hok Hu [Hsf Hno Hst Hcnt Hwf Hus Hk] Hsf' Hbm Hsto Hoth Hnode Hdisk Hvfs Hsize.
  assert (node_disk node s1 = with_d_extent st n (node_disk node s)) as Hd1
    by (unfold node_disk at 1; by rewrite Hno, decide_True).
  rewrite Hd1 in Hdisk. injection Hdisk as Ek Edb Ebc _ _ _ _.
  assert (∀ b, simplefs_block_used b s' = simplefs_block_used b s1) as Hb'
    by (intros b; unfold simplefs_block_used; by rewrite Hbm).
  destruct (fs_extent s Hok node Hu) as [H0 Hin].
  set (D := d_data_block (node_disk node s)) in *. set (old := d_block_count (node_disk node s)) in *.
  assert (same_frame s s') as Hsf2 by (by etrans).
  apply fs_ok_step; try done; try apply Hsf2.
  - rewrite (sf_dev _ _ Hsf2). apply Hok.
  - intros j Hj. rewrite Hoth, Hno, decide_False; done.
  - by rewrite Hbm.
  - split; rewrite Ebc; [lia|]. intros Hpos. rewrite (sf_super _ _ Hsf2). destruct Hin as (Hi1&Hi2&Hi3); [lia|].
    unfold in_extent. rewrite Edb, Ebc, (Hst Hpos). split_and!; [done|lia|].
    intros b Hbb. rewrite Hb', Hus. case_if; [zbool; lia|]. apply Hi3. unfold in_extent. fold D old. lia.
  - intros j b Hj Hne Hbj.
    assert (¬ in_extent (node_disk node s) b) as Hnb by (intros ?; by apply (fs_disjoint s Hok node j b)).
    destruct (fs_extent s Hok j Hj) as [_ Hinj].
    destruct Hinj as (?&?&Hm); [unfold in_extent in Hbj; lia|].
    unfold in_extent in *. fold D old in Hnb. rewrite Edb, Ebc. split_and!.
    + intros Hx. rewrite Hst in Hx by lia. lia.
    + rewrite Hb', Hus. case_if; [zbool; lia|]. by apply Hm.
    + intros k Hkk. unfold vbyte. rewrite Hsto. apply Hk. unfold SIMPLEFS_BLOCK_SIZE in *. lia.
  - rewrite Ebc. exact Hsize.
Qed.

(** Keeping the first [n] blocks. *)
Lemma trim_extent_spec node n s :
  fs_ok s → used_node s node → 0 < n < d_block_count (node_disk node s) →
  let d := node_disk node s in
  let s1 := simplefs_mark_extent (d_data_block d ⊞ n) (d_block_count d ⊟ n) false s in
  trimmed node (d_data_block d) n s
    (set_disk node (with_d_extent (d_data_block (node_disk node s1)) n (node_disk node s1)) s1).
Proof using.
  intros Hok Hu Hn d s1. pose proof (layout_bounds _ (fs_layout s Hok)) as (HL1&HL2&HL3).
  destruct (fs_extent s Hok node Hu) as [_ Hin]. destruct Hin as (Hi1&Hi2&_); [lia|]. fold d in Hi1, Hi2, Hn.
  revert s1. rewrite !u32_small by lia. intros s1.
  destruct (mark_extent_spec s (d_data_block d + n) (d_block_count d - n) false ltac:(lia) ltac:(lia) ltac:(lia))
    as (E1&Hwf1&Hu1). pose proof (mark_extent_frame s (d_data_block d + n) (d_block_count d - n) false) as Hsf1.
  fold s1 in E1, Hwf1, Hu1, Hsf1.
  assert (runtime_inodes s1 = runtime_inodes s) as En by (by rewrite E1).
  assert (node_disk node s1 = d) as -> by (unfold node_disk; by rewrite En).
  split; fold d.
  - etrans; [exact Hsf1|apply same_frame_node].
  - intros j. rewrite set_disk_nodes. by rewrite En.
  - done.
  - lia.
  - apply Hwf1, Hok.
  - intros b. change (simplefs_block_used b s1 = if (d_data_block d + n <=? b) && (b <? d_data_block d + d_block_count d) then false else simplefs_block_used b s).
    rewrite Hu1. by replace (d_data_block d + n + (d_block_count d - n)) with (d_data_block d + d_block_count d) by lia.
  - intros k _. change (vbyte s1 k = vbyte s k). unfold vbyte. by rewrite E1.
Qed.

(** Giving up every block. *)
Lemma release_extent_spec node s :
  fs_ok s → used_node s node → 0 < d_block_count (node_disk node s) →
  trimmed node 0 0 s (simplefs_release_extent node s).
Proof using.
  intros Hok Hu Hn. pose proof (layout_bounds _ (fs_layout s Hok)) as (HL1&HL2&HL3).
  destruct (fs_extent s Hok node Hu) as [_ Hin]. destruct Hin as (Hi1&Hi2&_); [lia|].
  unfold simplefs_release_extent. set (d := node_disk node s) in *. unfold truthy.
  rewrite (proj2 (Z.eqb_neq (d_block_count d) 0)) by lia. bsimpl.
  destruct (mark_extent_spec s (d_data_block d) (d_block_count d) false ltac:(lia) ltac:(lia) ltac:(lia))
    as (E1&Hwf1&Hu1). pose proof (mark_extent_frame s (d_data_block d) (d_block_count d) false) as Hsf1.
  set (s1 := simplefs_mark_extent _ _ false s) in *.
  assert (runtime_inodes s1 = runtime_inodes s) as En by (by rewrite E1).
  assert (node_disk node s1 = d) as -> by (unfold node_disk; by rewrite En).
  split; fold d.
  - etrans; [exact Hsf1|apply same_frame_node].
  - intros j. rewrite set_disk_nodes. by rewrite En.
  - lia.
  - lia.
  - apply Hwf1, Hok.
  - intros b. rewrite Z.add_0_r. exact (Hu1 b).
  - intros k _. change (vbyte s1 k = vbyte s k). unfold vbyte. by rewrite E1.
Qed.

(** What a resize to [n] bytes promises of the extent part, ending in [s2]. *)
Record resized node (n : Z) s (r : Z) s2 : Prop := {
  rz_result : r = 0 ∨ r = -1;
  rz_grow : d_size (node_disk node s) ≤ n → node_step node s s2;
  rz_step : r = 0 → node_step node s (set_size node n s2);
  rz_blocks : r = 0 → d_block_count (node_disk node s2) = (n + 511) / 512;
  rz_bytes : r = 0 → ∀ k, 0 ≤ k < n → k < d_size (node_disk node s) →
    content s2 node k = content s node k;
  rz_zero : r = 0 → d_block_count (node_disk node s) < (n + 511) / 512 →
    ∀ k, d_size (node_disk node s) ≤ k < n → content s2 node k = 0;
  rz_reliable : ReliableDevice dev → read_only dev = 0 →
    (d_block_count (node_disk node s) < (n + 511) / 512 → ∃ c, free_extent s c ((n + 511) / 512)) → r = 0;
}.

(** More blocks. *)
Lemma resize_grow_spec s node n :
  fs_ok s → used_node s node → d_kind (node_disk node s) = SIMPLEFS_INODE_FILE → 0 ≤ n ≤ 4294966784 →
  d_block_count (node_disk node s) < (n + 511) / 512 →
  let '(r, s') := resize_extent node n s in resized node n s r s'.
Proof using Hdev.
  intros Hok Hu Hkd Hn Hlt. unfold resize_extent. rewrite required_blocks_eq by done.
  set (req := (n + 511) / 512) in *. rewrite (proj2 (Z.ltb_lt _ _) Hlt).
  assert (req ≤ 8388608) as Hreq by (unfold req; word_lia).
  pose proof (fs_size s Hok node Hu Hkd) as Hsz.
  pose proof (ensure_extent_spec s node req Hok Hu (conj Hlt Hreq)) as Hg.
  destruct (simplefs_ensure_extent node req s) as [r s1].
  destruct Hg as [Hst Hr Hv Hd Hc Hdone Hrel].
  set (size := d_size (node_disk node s)) in *.
  assert (size < n) as Hsn by (unfold req, SIMPLEFS_BLOCK_SIZE in *; word_lia).
  unfold truthy. destruct (Z.eqb_spec r 0) as [->|Hr0]; bsimpl.
  2:{ split; try done; [by right|]. intros H1 H2 H3. by destruct Hr0; apply Hrel; auto. }
  destruct (Hdone eq_refl) as (Hbc&Hkeep&Hz). rewrite (proj2 (Z.ltb_lt _ _) Hsn).
  assert (used_node s1 node) as Hu1 by (by apply (node_step_used _ _ _ _ Hst)).
  pose proof (ns_ok _ _ _ Hst) as Hok1.
  assert (n ≤ req * BS) as Hnb by (unfold req, SIMPLEFS_BLOCK_SIZE in *; word_lia).
  rewrite (u32_small (n - size)) by lia. unfold simplefs_zero_range.
  pose proof (zero_range_loop_spec (Z.to_nat (n - size)) s1 node size (n - size) 0 (fs_dev _ Hok1)
    (fs_extent _ Hok1 node Hu1) (fs_layout _ Hok1) ltac:(lia) ltac:(lia) ltac:(rewrite Hbc; lia) ltac:(lia)) as Hzr.
  destruct (zero_range_loop _ node size (n - size) 0 s1) as [r2 s2]. destruct Hzr as (Hdc&Hr2&Hpa&Hrel2).
  pose proof (data_change_step node s1 s2 Hok1 Hu1 Hdc) as Hst2.
  pose proof (node_step_trans _ _ _ _ Hst Hst2) as Hst12.
  pose proof (same_meta_disk _ _ node (proj1 Hdc)) as Hd2.
  assert (resized node n s r2 s2) as Hres.
  { split; try done.
    - intros _. eapply node_step_trans; [exact Hst12|]. apply set_size_step; [apply Hst12|..].
      + by apply (node_step_used _ _ _ _ Hst12).
      + rewrite Hd2, Hbc. lia.
    - intros _. by rewrite Hd2, Hbc.
    - intros Hr0 k Hk Hks. fold size in Hks. rewrite (pa_bytes _ _ _ _ _ _ (Hpa Hr0)) by (rewrite Hbc; lia).
      case_if; [zbool; lia|]. apply Hkeep. lia.
    - intros Hr0 _ k Hk. fold size in Hk. rewrite (pa_bytes _ _ _ _ _ _ (Hpa Hr0)) by (rewrite Hbc; lia).
      case_if; [done|zbool; lia].
    - intros H1 H2 _. by apply Hrel2. }
  destruct (Z.eqb_spec r2 0) as [->|Hr2']; bsimpl; [done|]. destruct Hr2 as [->| ->]; [done|done].
Qed.

Lemma trimmed_disk node st n s s1 :
  trimmed node st n s s1 → node_disk node s1 = with_d_extent st n (node_disk node s).
Proof using. intros []. unfold node_disk at 1. by rewrite tr_nodes0, decide_True. Qed.

Lemma trimmed_data node st n s s1 s2 :
  trimmed node st n s s1 → data_change node s1 s2 → trimmed node st n s s2.
Proof using.
  intros Htr [Hsm Hk]. rewrite (trimmed_disk _ _ _ _ _ Htr) in Hk. simpl in Hk.
  destruct Htr as [Hsf Hno Hst Hcnt Hwf Hus Hk1]. split; try done.
  - etrans; [exact Hsf|by apply same_meta_frame].
  - by rewrite (sm_nodes _ _ Hsm).
  - by rewrite (sm_bbits _ _ Hsm).
  - intros b. rewrite <- Hus. unfold simplefs_block_used. by rewrite (sm_bbits _ _ Hsm).
  - intros k Hkk. rewrite <- Hk1 by done. apply Hk.
    destruct (Z.eq_dec n 0) as [->|]; [lia|]. rewrite Hst by lia. done.
Qed.

Lemma resized_trim node st req n s s1 r s2 :
  fs_ok s → used_node s node → d_kind (node_disk node s) = SIMPLEFS_INODE_FILE →
  0 ≤ n → (n + 511) / 512 = req → req < d_block_count (node_disk node s) →
  trimmed node st req s s1 → storage s1 = storage s → data_change node s1 s2 → (r = 0 ∨ r = -1) →
  (r = 0 → ∀ k, 0 ≤ k < n → content s2 node k = content s1 node k) →
  (ReliableDevice dev → read_only dev = 0 → r = 0) → resized node n s r s2.
Proof using.
  intros Hok Hu Hkd Hn <- Hlt Htr1 Hst1 Hdc Hr Hby Hrel.
  pose proof (trimmed_data _ _ _ _ _ _ Htr1 Hdc) as Htr.
  pose proof (trimmed_disk _ _ _ _ _ Htr) as Hd2. pose proof (trimmed_disk _ _ _ _ _ Htr1) as Hd1.
  pose proof (fs_size s Hok node Hu Hkd) as Hsz.
  assert (n ≤ (n + 511) / 512 * BS) as Hnb by (unfold SIMPLEFS_BLOCK_SIZE; word_lia).
  assert (node_vfs node s2 = node_vfs node s) as Hv2 by (unfold node_vfs; by rewrite (tr_nodes _ _ _ _ _ Htr), decide_True).
  split; try done.
  - intros Hg. apply (trimmed_step node st _ s s2 s2 Hok Hu Htr); try done.
    + rewrite Hd2, Hv2, (tr_nodes _ _ _ _ _ Htr), decide_True by done. reflexivity.
    + intros m. by rewrite Hv2.
    + rewrite Hd2. simpl. lia.
  - intros _. apply (trimmed_step node st _ s s2 _ Hok Hu Htr); try done.
    + intros j Hj. by rewrite set_size_nodes, decide_False.
    + rewrite set_size_disk. unfold node_vfs at 1. rewrite set_size_nodes, decide_True by done.
      rewrite (tr_nodes _ _ _ _ _ Htr), decide_True by done. reflexivity.
    + by rewrite set_size_disk.
    + intros m. unfold node_vfs at 1. rewrite set_size_nodes, decide_True by done. simpl. by rewrite Hv2.
    + rewrite set_size_disk. simpl. lia.
  - intros _. by rewrite Hd2.
  - intros Hr0 k Hk _. rewrite Hby by done. unfold content. rewrite Hd1. simpl.
    rewrite (tr_start _ _ _ _ _ Htr) by (unfold SIMPLEFS_BLOCK_SIZE in *; lia).
    unfold vbyte. by rewrite Hst1.
  - lia.
  - intros H1 H2 _. by apply Hrel.
Qed.

Lemma mark_extent_storage start n used s : storage (simplefs_mark_extent start n used s) = storage s.
Proof using. unfold simplefs_mark_extent. by apply (for_range_inv (λ s', storage s' = storage s)). Qed.

(** Fewer blocks. *)
Lemma resize_trim_spec s node n :
  fs_ok s → used_node s node → d_kind (node_disk node s) = SIMPLEFS_INODE_FILE → 0 ≤ n ≤ 4294966784 →
  (n + 511) / 512 < d_block_count (node_disk node s) →
  let '(r, s') := resize_extent node n s in resized node n s r s'.
Proof using Hdev.
  intros Hok Hu Hkd Hn Hlt. unfold resize_extent. rewrite required_blocks_eq by done.
  destruct (fs_extent s Hok node Hu) as [_ Hin].
  pose proof (layout_bounds _ (fs_layout s Hok)) as (HL1&HL2&HL3).
  set (req := (n + 511) / 512) in *. rewrite (proj2 (Z.ltb_ge _ _)) by lia. rewrite (proj2 (Z.ltb_lt _ _) Hlt).
  assert (n ≤ req * BS ∧ 0 ≤ req ∧ req * BS < n + BS) as (Hnb&Hreq0&Hnb2)
    by (unfold req, SIMPLEFS_BLOCK_SIZE in *; word_lia).
  destruct Hin as (Hi1&Hi2&_); [lia|].
  destruct (Z.eqb_spec req 0) as [Hreq|Hreq].
  { pose proof (release_extent_spec node s Hok Hu ltac:(lia)) as Htr.
    apply (resized_trim node 0 0 n s (simplefs_release_extent node s)); try done;
      try lia; try apply data_change_refl; try by left.
    unfold simplefs_release_extent. cbn. case_if; [apply mark_extent_storage|done]. }
  pose proof (trim_extent_spec node req s Hok Hu ltac:(lia)) as Htr. cbv zeta in Htr.
  set (s0 := simplefs_mark_extent _ _ false s) in *.
  set (s1 := set_disk node _ s0) in *.
  assert (storage s1 = storage s) as Hsto by (unfold s1; cbn; apply mark_extent_storage).
  pose proof (trimmed_disk _ _ _ _ _ Htr) as Hd1.
  assert (∀ r s2, data_change node s1 s2 → (r = 0 ∨ r = -1) →
    (r = 0 → ∀ k, 0 ≤ k < n → content s2 node k = content s1 node k) →
    (ReliableDevice dev → read_only dev = 0 → r = 0) → resized node n s r s2) as Hfin.
  { intros r s2 H1 H2 H3 H4. eapply (resized_trim node _ req n s s1); try done. lia. }
  unfold truthy. destruct (Z.eqb_spec (n mod BS) 0) as [Hm|Hm]; bsimpl.
  { apply Hfin; [apply data_change_refl|by left|done|done]. }
  assert (0 < n mod BS < BS ∧ n + (BS - n mod BS) = req * BS) as [Hmod Hend]
    by (unfold req, SIMPLEFS_BLOCK_SIZE in *; word_lia).
  unfold simplefs_zero_range.
  pose proof (zero_range_loop_spec (Z.to_nat (BS - n mod BS)) s1 node n (BS - n mod BS) 0) as Hz.
  destruct (zero_range_loop _ node n _ 0 s1) as [r s2].
  destruct Hz as (Hdc&Hr&Hpa&Hrel); try lia.
  - rewrite (sf_dev _ _ (tr_frame _ _ _ _ _ Htr)). apply Hok.
  - split; rewrite Hd1; [simpl; lia|]. unfold in_extent. cbn [d_block_count d_data_block with_d_extent]. intros _.
    rewrite (sf_super _ _ (tr_frame _ _ _ _ _ Htr)). split_and!; [done|lia|].
    intros b Hb. rewrite (tr_used _ _ _ _ _ Htr). case_if; [zbool; lia|].
    apply (fs_extent s Hok node Hu); [lia|]. unfold in_extent. lia.
  - rewrite (sf_super _ _ (tr_frame _ _ _ _ _ Htr)). apply Hok.
  - rewrite Hd1. simpl. lia.
  - assert (r = 0 → ∀ k, 0 ≤ k < n → content s2 node k = content s1 node k) as Hby.
    { intros Hr0 k Hk. rewrite (pa_bytes _ _ _ _ _ _ (Hpa Hr0)) by (rewrite Hd1; simpl; lia).
      case_if; [zbool; lia|done]. }
    destruct (Z.eqb_spec r 0) as [->|Hr0]; bsimpl; [by apply Hfin|]. destruct Hr as [->| ->]; by apply Hfin; auto.
Qed.

Lemma resize_extent_spec s node n :
  fs_ok s → used_node s node → d_kind (node_disk node s) = SIMPLEFS_INODE_FILE → 0 ≤ n ≤ 4294966784 →
  let '(r, s') := resize_extent node n s in resized node n s r s'.
Proof using Hdev.
  intros Hok Hu Hkd Hn.
  destruct (Z_lt_ge_dec (d_block_count (node_disk node s)) ((n + 511) / 512)); [by apply resize_grow_spec|].
  destruct (Z_lt_ge_dec ((n + 511) / 512) (d_block_count (node_disk node s))); [by apply resize_trim_spec|].
  unfold resize_extent. rewrite required_blocks_eq by done. rewrite !(proj2 (Z.ltb_ge _ _)) by lia.
  split; try done; [by left|..].
  - intros _. by apply node_step_refl.
  - intros _. apply set_size_step; try done. unfold SIMPLEFS_BLOCK_SIZE in *. word_lia.
  - lia.
Qed.

Lemma device_writable_eq s : mounted_device s = Some dev → device_writable s = negb (truthy (read_only dev)).
Proof using. intros Hm. unfold device_writable. by rewrite Hm. Qed.

Lemma resize_node_cases s node n :
  fs_ok s → used_node s node → d_kind (node_disk node s) = SIMPLEFS_INODE_FILE → 0 ≤ n ≤ 4294966784 →
  let '(r, s') := simplefs_resize_node node n s in
  let size := d_size (node_disk node s) in
  let req := (n + 511) / 512 in
  (r = 0 ∨ size ≤ n → node_step node s s') ∧
  (r = 0 →
     d_size (node_disk node s') = n ∧ in_size (node_vfs node s') = n ∧
     d_block_count (node_disk node s') = req ∧ persisted s' ∧
     (∀ k, 0 ≤ k < n → k < size → content s' node k = content s node k) ∧
     (d_block_count (node_disk node s) < req → ∀ k, size ≤ k < n → content s' node k = 0)) ∧
  (ReliableDevice dev → read_only dev = 0 →
     (d_block_count (node_disk node s) < req → ∃ c, free_extent s c req) → r = 0).
Proof using Hdev.
  intros Hok Hu Hkd Hn. unfold simplefs_resize_node. rewrite (device_writable_eq s (fs_dev s Hok)), Hkd.
  destruct (truthy (read_only dev)) eqn:Ero; bsimpl.
  { cbv zeta. split_and!; [|done|intros _ Hro; by rewrite Hro in Ero]. intros [|]; [done|by apply node_step_refl]. }
  change (negb (SIMPLEFS_INODE_FILE =? SIMPLEFS_INODE_FILE)) with false. cbv match.
  pose proof (resize_extent_spec s node n Hok Hu Hkd Hn) as Hre.
  destruct (resize_extent node n s) as [r s2]. destruct Hre as [Hr Hgr Hst Hbl Hby Hz Hrel].
  unfold truthy. destruct (Z.eqb_spec r 0) as [->|Hr0]; bsimpl; cbv zeta.
  2:{ split_and!; [|done|]; [|intros H1 H2 H3; by destruct Hr0; apply Hrel].
      intros [|]; [done|by apply Hgr]. }
  specialize (Hst eq_refl). specialize (Hbl eq_refl). specialize (Hby eq_refl). specialize (Hz eq_refl).
  fold (set_size node n s2). set (s3 := set_size node n s2) in *.
  pose proof (ns_ok _ _ _ Hst) as Hok3.
  assert (used_node s3 node) as Hu3 by (by apply (node_step_used _ _ _ _ Hst)).
  pose proof (flush_metadata_spec s3 (fs_dev _ Hok3) (fs_layout _ Hok3) (proj2 (fs_count _ Hok3))) as Hf.
  destruct (simplefs_flush_metadata s3) as [r4 s4]. destruct Hf as (Hc&Hk&Hp&Hrel4).
  destruct (flush_step s3 s4 node Hok3 Hu3 Hc Hk) as (Hst4&Hd4&Hv4&Hc4).
  assert (node_disk node s3 = with_d_size n (node_disk node s2)) as Hd3 by apply set_size_disk.
  rewrite Hd3 in Hc4. simpl in Hc4. rewrite Hbl in Hc4.
  assert (∀ k, content s3 node k = content s2 node k) as Hc3 by (intros k; unfold content; by rewrite Hd3).
  assert (n ≤ (n + 511) / 512 * BS) as Hnb by (unfold SIMPLEFS_BLOCK_SIZE; word_lia).
  split_and!.
  - intros _. by eapply node_step_trans.
  - intros Hr4. split_and!.
    + by rewrite Hd4, Hd3.
    + rewrite Hv4. unfold s3, node_vfs. by rewrite set_size_nodes, decide_True.
    + by rewrite Hd4, Hd3.
    + by apply Hp.
    + intros k Hkk Hks. rewrite Hc4, Hc3 by lia. by apply Hby.
    + intros Hlt k Hkk. rewrite Hc4, Hc3; [by apply Hz|].
      pose proof (fs_size s Hok node Hu Hkd). lia.
  - intros H1 H2 _. by apply Hrel4.
Qed.

(** ** Reading a file *)

(** The chunk at [off + copied] of a transfer of [len] bytes. *)
Lemma chunk_bounds off len copied n :
  0 ≤ off → 0 ≤ copied < len → off + len ≤ n * BS → n ≤ 32768 →
  let fo := off ⊞ copied in
  let chunk := min_u32 (len ⊟ copied) (BS - fo mod BS) in
  fo = off + copied ∧ fo = fo / BS * BS + fo mod BS ∧ 0 ≤ fo mod BS < BS ∧ 0 ≤ fo / BS < n ∧
  0 < chunk ≤ len - copied ∧ fo mod BS + chunk ≤ BS ∧ copied ⊞ chunk = copied + chunk ∧
  (copied + chunk < len → fo mod BS + chunk = BS).
Proof using.
  intros Ho Hc Hn Hcap. cbv zeta. unfold SIMPLEFS_BLOCK_SIZE in *. unfold min_u32.
  rewrite (u32_small (off + copied)), (u32_small (len - copied)) by lia.
  assert (off + copied = (off + copied) / 512 * 512 + (off + copied) mod 512 ∧ 0 ≤ (off + copied) mod 512 < 512)
    as [? ?] by word_lia.
  destruct (Z.ltb_spec (len - copied) (512 - (off + copied) mod 512)); rewrite u32_small by lia; lia.
Qed.

Lemma extent_cap s node : extent_ok s (node_disk node s) → layout_ok (mounted_superblock s) →
  d_block_count (node_disk node s) ≤ 32768.
Proof using.
  intros [? Hin] Hl. pose proof (layout_bounds _ Hl) as (?&?&?).
  destruct (Z_le_gt_dec (d_block_count (node_disk node s)) 0); [lia|]. destruct Hin as (?&?&_); lia.
Qed.

Lemma regular_read_loop_spec fuel s node off len copied dst :
  mounted_device s = Some dev → extent_ok s (node_disk node s) → layout_ok (mounted_superblock s) →
  0 ≤ off → 0 ≤ copied ≤ len → off + len ≤ d_block_count (node_disk node s) * BS →
  len - copied ≤ Z.of_nat fuel →
  let '(c, early, dst', s') := regular_read_loop fuel node off len copied dst s in
  s' = with_scratch (block_scratch s') s ∧ copied ≤ c ≤ len ∧ (early = false → c = len) ∧
  (∀ k, copied ≤ k < c → dst' k = content s node (off + k)) ∧
  (∀ k, k < copied ∨ len ≤ k → dst' k = dst k) ∧
  (ReliableDevice dev → early = false).
Proof using Hdev.
  revert s copied dst. induction fuel as [|fuel IH]; intros s copied dst Hm Hex Hl Ho Hc Hn Hf; cbn [regular_read_loop].
  { split_and!; try done; try lia. by destruct s. }
  destruct (Z.ltb_spec copied len) as [Hlt|]; [|split_and!; try done; try lia; by destruct s].
  pose proof (extent_cap s node Hex Hl) as Hcap.
  destruct (chunk_bounds off len copied _ Ho ltac:(lia) Hn Hcap) as (Efo&Hfo&Hbo&Hfb&Hch&Hcb&Ecc&_).
  rewrite Ecc. set (chunk := min_u32 _ _) in *. set (fo := off ⊞ copied) in *.
  rewrite (proj2 (Z.leb_gt _ _)) by lia. cbv match.
  assert (∀ dst2 s2, s2 = with_scratch (block_scratch s2) s →
    (∀ k, copied ≤ k < copied + chunk → dst2 k = content s node (off + k)) →
    (∀ k, k < copied ∨ copied + chunk ≤ k → dst2 k = dst k) →
    let '(c, early, dst', s') := regular_read_loop fuel node off len (copied + chunk) dst2 s2 in
    s' = with_scratch (block_scratch s') s ∧ copied ≤ c ≤ len ∧ (early = false → c = len) ∧
    (∀ k, copied ≤ k < c → dst' k = content s node (off + k)) ∧
    (∀ k, k < copied ∨ len ≤ k → dst' k = dst k) ∧
    (ReliableDevice dev → early = false)) as Hnext.
  { intros dst2 s2 Es2 Hin Hout. rewrite Es2. specialize (IH (with_scratch (block_scratch s2) s) (copied + chunk) dst2
      Hm Hex Hl Ho ltac:(lia) Hn ltac:(lia)).
    destruct (regular_read_loop fuel node off len (copied + chunk) dst2 _) as [[[c early] dst'] s'].
    destruct IH as (E'&Hc'&He&Hi'&Ho'&Hrel). split_and!; try done; try lia.
    - intros k Hk. destruct (Z_lt_ge_dec k (copied + chunk)); [rewrite Ho' by lia; apply Hin; lia|].
      rewrite Hi' by lia. done.
    - intros k Hk. rewrite Ho', Hout by lia. done. }
  unfold truthy. destruct ((fo mod BS =? 0) && (chunk =? BS)) eqn:Efull.
  - apply andb_prop in Efull as [Eb0 Ech]. apply Z.eqb_eq in Eb0, Ech.
    pose proof (read_file_block s node (fo / BS) (sub_buffer dst copied) Hm Hex Hl Hfb) as Hr.
    destruct (simplefs_read_blocks _ 1 _ s) as [r b]. destruct Hr as (Hok&Hkeep&Hrel).
    destruct (Z.eqb_spec r 0) as [->|Hr0]; bsimpl.
    + apply Hnext; unfold super_buffer; [by destruct s|..]; intros k Hk.
      * rewrite Hok by lia. f_equal. lia.
      * rewrite Hkeep by lia. unfold sub_buffer. f_equal. lia.
    + split_and!; try done; try lia; [by destruct s| |].
      * intros k Hk. unfold super_buffer. rewrite Hkeep by lia. unfold sub_buffer. f_equal. lia.
      * intros ?. by destruct Hr0; apply Hrel.
  - pose proof (read_file_block s node (fo / BS) (block_scratch s) Hm Hex Hl Hfb) as Hr.
    destruct (simplefs_read_blocks _ 1 _ s) as [r b]. destruct Hr as (Hok&Hkeep&Hrel).
    destruct (Z.eqb_spec r 0) as [->|Hr0]; bsimpl.
    + apply Hnext; [done|..]; intros k Hk.
      * rewrite copy_bytes_in by lia. rewrite Hok by lia. f_equal. lia.
      * by rewrite copy_bytes_out by lia.
    + split_and!; try done; try lia. intros ?. by destruct Hr0; apply Hrel.
Qed.

Lemma regular_read_cases s node file inode buf length :
  fs_ok s → used_node s node → d_kind (node_disk node s) = SIMPLEFS_INODE_FILE →
  private_node inode = Some node → is_u32 (f_offset file) → is_u32 length →
  let off := f_offset file in
  let n := Z.min length (Z.max 0 (d_size (node_disk node s) - off)) in
  let '(r, file', buf', s') := simplefs_regular_read file inode (Some buf) length s in
  s' = with_scratch (block_scratch s') s ∧ -1 ≤ r ≤ n ∧
  (file' = file ∨ file' = with_f_offset (off + n) file) ∧
  (∃ b, buf' = Some b ∧ (∀ k, 0 ≤ k < r → b k = content s node (off + k)) ∧
     ∀ k, k < 0 ∨ n ≤ k → b k = buf k) ∧
  (ReliableDevice dev → r = n ∧ f_offset file' = off + n).
Proof using Hdev.
  intros Hok Hu Hkd Hp Ho Hlen off n. unfold is_u32 in *. fold off in Ho. unfold simplefs_regular_read. rewrite Hp.
  pose proof (fs_size s Hok node Hu Hkd) as Hsz. set (size := d_size (node_disk node s)) in *.
  pose proof (extent_cap s node (fs_extent s Hok node Hu) (fs_layout s Hok)) as Hcap. fold off.
  destruct (Z.leb_spec size off).
  { assert (n = 0) as Hn0 by lia. refine (conj _ (conj _ (conj (or_introl eq_refl) (conj _ _)))); [by destruct s|lia| |fold off; lia].
    eexists. split_and!; [done|lia|done]. }
  rewrite (u32_small (size - off)) by (unfold SIMPLEFS_BLOCK_SIZE in *; lia).
  assert ((if size - off <? length then size - off else length) = n) as -> by (case_if; zbool; lia).
  pose proof (regular_read_loop_spec (Z.to_nat n) s node off n 0 buf (fs_dev s Hok) (fs_extent s Hok node Hu)
    (fs_layout s Hok) ltac:(lia) ltac:(lia) ltac:(lia) ltac:(lia)) as Hr.
  destruct (regular_read_loop (Z.to_nat n) node off n 0 buf s) as [[[c early] dst] s'].
  destruct Hr as (E&Hc&He&Hin&Hout&Hrel).
  assert (n ≤ 16777216) as Hn by (unfold SIMPLEFS_BLOCK_SIZE in *; lia).
  rewrite (i32_small c) by lia. destruct early.
  - unfold truthy. destruct (Z.eqb_spec c 0) as [->|Hc0]; bsimpl;
      (split_and!; [done|lia|lia|by left|eexists; split_and!; [done|intros k Hk; apply Hin; lia|done]|
       intros Hx; discriminate (Hrel Hx)]).
  - rewrite (He eq_refl) in *. rewrite u32_small by (unfold SIMPLEFS_BLOCK_SIZE in *; lia).
    split_and!; [done|lia|lia|by right|by eexists|done].
Qed.

(** ** Writing a file *)

Lemma data_change_env node s s' :
  data_change node s s' → mounted_device s = Some dev → extent_ok s (node_disk node s) →
  layout_ok (mounted_superblock s) →
  mounted_device s' = Some dev ∧ extent_ok s' (node_disk node s') ∧ layout_ok (mounted_superblock s') ∧
  node_disk node s' = node_disk node s.
Proof using.
  intros [Hsm _] Hm [? Hin] Hl. rewrite (same_meta_disk _ _ node Hsm), (sm_dev _ _ Hsm), (sm_super _ _ Hsm).
  split_and!; try done. split; [done|]. intros Hpos. rewrite (sm_super _ _ Hsm).
  unfold simplefs_block_used. rewrite (sm_bbits _ _ Hsm). by apply Hin.
Qed.

(** What the write loop promises, from [written] on. *)
Record write_outcome node off len buf written s (c : Z) (early : bool) s' : Prop := {
  wo_change : data_change node s s';
  wo_count : written ≤ c ≤ len;
  wo_early : early = true → c < len;
  wo_all : early = false → c = len ∧ patched node (off + written) (off + len) (λ k, buf (k - off)) s s';
  wo_done : ∀ k, off + written ≤ k < off + c → content s' node k = buf (k - off);
  wo_below : ∀ k, 0 ≤ k < (off + written) / BS * BS → content s' node k = content s node k;
  wo_reliable : ReliableDevice dev → read_only dev = 0 → early = false;
}.

Lemma write_outcome_done node off len buf s : write_outcome node off len buf len s len false s.
Proof using.
  split; try done; try (intros; lia). intros _. split; [done|apply patched_refl].
Qed.

Lemma write_outcome_fail node off len buf written s s' fb :
  written < len → data_change node s s' → fb = (off + written) / BS →
  (∀ k, 0 ≤ k < fb * BS ∨ (fb + 1) * BS ≤ k < d_block_count (node_disk node s) * BS →
     content s' node k = content s node k) →
  (ReliableDevice dev → read_only dev = 0 → False) →
  write_outcome node off len buf written s written true s'.
Proof using.
  intros Hlt Hdc -> Hkeep Hrel. split; try done; try (intros; lia).
  - intros k Hk. apply Hkeep. lia.
  - intros H1 H2. by destruct (Hrel H1 H2).
Qed.

Lemma write_outcome_next node off len buf written chunk s s1 c early s' :
  0 ≤ off → 0 ≤ written → 0 < chunk → off + len ≤ d_block_count (node_disk node s) * BS →
  (written + chunk < len → (off + written) mod BS + chunk = BS) →
  patched node (off + written) (off + written + chunk) (λ k, buf (k - off)) s s1 →
  write_outcome node off len buf (written + chunk) s1 c early s' →
  write_outcome node off len buf written s c early s'.
Proof using.
  intros Ho Hw Hch Hn Hal Hpa [Hdc Hc He Hall Hdone Hbelow Hrel].
  pose proof (patched_change _ _ _ _ _ _ Hpa) as Hdc1.
  pose proof (pa_bytes _ _ _ _ _ _ Hpa) as Hby. replace (off + (written + chunk)) with (off + written + chunk) in * by lia.
  assert (early = true → (off + written + chunk) / BS * BS = off + written + chunk) as Hblk.
  { intros Ht. specialize (Hal ltac:(specialize (He Ht); lia)). unfold SIMPLEFS_BLOCK_SIZE in *. word_lia. }
  split; try done; [by eapply data_change_trans|lia|..].
  - intros Hf. destruct (Hall Hf) as [-> Hp]. split; [done|]. eapply patched_trans; [|exact Hpa|exact Hp]. lia.
  - intros k Hk. destruct (Z_lt_ge_dec k (off + written + chunk)); [|apply Hdone; lia].
    destruct early.
    + rewrite Hbelow by (rewrite Hblk by done; lia). rewrite Hby by lia. case_if; [done|zbool; lia].
    + destruct (Hall eq_refl) as [-> Hp]. rewrite (pa_bytes _ _ _ _ _ _ Hp).
      * case_if; [zbool; lia|]. rewrite Hby by lia. case_if; [done|zbool; lia].
      * rewrite (same_meta_disk _ _ _ (proj1 Hdc1)). lia.
  - intros k Hk. rewrite Hbelow by (unfold SIMPLEFS_BLOCK_SIZE in *; word_lia).
    rewrite Hby by (unfold SIMPLEFS_BLOCK_SIZE in *; word_lia).
    case_if; [zbool; unfold SIMPLEFS_BLOCK_SIZE in *; word_lia|done].
Qed.

Lemma regular_write_loop_spec fuel s node off len written buf :
  mounted_device s = Some dev → extent_ok s (node_disk node s) → layout_ok (mounted_superblock s) →
  0 ≤ off → 0 ≤ written ≤ len → off + len ≤ d_block_count (node_disk node s) * BS →
  len - written ≤ Z.of_nat fuel →
  let '(c, early, s') := regular_write_loop fuel node off len written buf s in
  write_outcome node off len buf written s c early s'.
Proof using Hdev.
  revert s written. induction fuel as [|fuel IH]; intros s written Hm Hex Hl Ho Hc Hn Hf; cbn [regular_write_loop].
  { replace written with len by lia. apply write_outcome_done. }
  destruct (Z.ltb_spec written len) as [Hlt|]; [|replace written with len by lia; apply write_outcome_done].
  pose proof (extent_cap s node Hex Hl) as Hcap.
  destruct (chunk_bounds off len written _ Ho ltac:(lia) Hn Hcap) as (Efo&Hfo&Hbo&Hfb&Hch&Hcb&Ecc&Hal).
  rewrite Ecc. set (chunk := min_u32 _ _) in *. rewrite Efo in *. set (fo := off + written) in *.
  assert (∀ s2, patched node fo (fo + chunk) (λ k, buf (k - off)) s s2 →
    let '(c, early, s') := regular_write_loop fuel node off len (written + chunk) buf s2 in
    write_outcome node off len buf written s c early s') as Hnext.
  { intros s2 Hpa. destruct (data_change_env node s s2 (patched_change _ _ _ _ _ _ Hpa) Hm Hex Hl) as (Hm2&Hex2&Hl2&Hd2).
    specialize (IH s2 (written + chunk) Hm2 Hex2 Hl2 Ho ltac:(lia) ltac:(rewrite Hd2; lia) ltac:(lia)).
    destruct (regular_write_loop fuel node off len (written + chunk) buf s2) as [[c early] s'].
    apply (write_outcome_next node off len buf written chunk s s2); try done; lia. }
  unfold truthy. destruct ((fo mod BS =? 0) && (chunk =? BS)) eqn:Efull.
  - apply andb_prop in Efull as [Eb0 Ech]. apply Z.eqb_eq in Eb0, Ech.
    pose proof (write_file_block s node (fo / BS) (sub_buffer buf written) Hm Hex Hl Hfb) as Hw.
    destruct (simplefs_write_blocks _ 1 _ s) as [r s2]. destruct Hw as (Hdc&Hoth&Hpa&Hrel).
    destruct (Z.eqb_spec r 0) as [->|Hr0]; bsimpl.
    + apply Hnext. destruct (Hpa eq_refl) as [P1 P2 P3]. split; [done|done|]. intros k Hk. rewrite P3 by done.
      replace ((fo / BS + 1) * BS) with (fo + chunk) by lia. replace (fo / BS * BS) with fo by lia.
      unfold sub_buffer. case_if; [f_equal; unfold fo; lia|done].
    + apply (write_outcome_fail _ _ _ _ _ _ _ (fo / BS)); try done. intros. by apply Hr0, Hrel.
  - pose proof (rmw_file_block s node (fo / BS) (fo mod BS) chunk (λ k, buf (k - off))
      (λ m, copy_bytes m (fo mod BS) buf written chunk) Hm Hex Hl Hfb ltac:(lia) ltac:(lia) Hcb) as H1.
    specialize (H1 ltac:(intros m j; case_if; zbool; [rewrite copy_bytes_in by lia; f_equal; unfold fo in *; lia|
      rewrite copy_bytes_out; [done|lia]..])).
    destruct (simplefs_read_blocks _ 1 _ s) as [r scratch]. destruct H1 as (Hdc1&Hrel1&H1).
    destruct (Z.eqb_spec r 0) as [->|Hr0]; bsimpl.
    2:{ apply (write_outcome_fail _ _ _ _ _ _ _ (fo / BS)); try done. intros. by apply Hr0, Hrel1. }
    specialize (H1 eq_refl). cbv beta in H1.
    change (node_disk node (with_scratch scratch s)) with (node_disk node s) in H1.
    destruct (simplefs_write_blocks _ 1 _ _) as [r2 s2]. destruct H1 as (Hdc2&Hoth&Hpa&Hrel2).
    destruct (Z.eqb_spec r2 0) as [->|Hr2]; bsimpl.
    + apply Hnext. specialize (Hpa eq_refl). by rewrite <- Hfo in Hpa.
    + apply (write_outcome_fail _ _ _ _ _ _ _ (fo / BS)); try done. intros. by apply Hr2, Hrel2.
Qed.

(** The size and the first bytes after the growth to [e] bytes that a write asks for. *)
Record write_room node (e : Z) s (r : Z) s1 : Prop := {
  wm_step : node_step node s s1;
  wm_size : r = 0 → d_size (node_disk node s1) = Z.max (d_size (node_disk node s)) e;
  wm_room : r = 0 → e ≤ d_block_count (node_disk node s1) * BS;
  wm_kept : r = 0 → ∀ k, 0 ≤ k < d_size (node_disk node s) → content s1 node k = content s node k;
  wm_zero : r = 0 → d_block_count (node_disk node s) < (e + 511) / 512 →
    ∀ k, d_size (node_disk node s) ≤ k < e → content s1 node k = 0;
  wm_reliable : ReliableDevice dev → read_only dev = 0 →
    (d_block_count (node_disk node s) < (e + 511) / 512 → ∃ c, free_extent s c ((e + 511) / 512)) → r = 0;
}.

(** What a write of [length] bytes at [off] does to the volume: it changes one node;
    of a result [r] the first [r] bytes are in the file; a complete write sets the
    size, keeps every other byte and leaves zeros where it opened a gap. *)
Record wrote node (off length : Z) buf s (r : Z) (file' : vfs_file) s' : Prop := {
  wr_step : node_step node s s';
  wr_result : -1 ≤ r ≤ length;
  wr_bytes : ∀ k, 0 ≤ k < r → content s' node (off + k) = buf k;
  wr_size : r = length → d_size (node_disk node s') = Z.max (d_size (node_disk node s)) (off + length);
  wr_offset : r = length → f_offset file' = off + length;
  wr_kept : r = length → ∀ k, 0 ≤ k < d_size (node_disk node s) → k < off ∨ off + length ≤ k →
    content s' node k = content s node k;
  wr_gap : r = length → d_block_count (node_disk node s) < (off + length + 511) / 512 →
    ∀ k, d_size (node_disk node s) ≤ k < off → content s' node k = 0;
  wr_reliable : ReliableDevice dev → read_only dev = 0 →
    (d_block_count (node_disk node s) < (off + length + 511) / 512 →
     ∃ c, free_extent s c ((off + length + 511) / 512)) → r = length;
}.

(** The growth of the file before a write. *)
Lemma write_room_spec s node e :
  fs_ok s → used_node s node → d_kind (node_disk node s) = SIMPLEFS_INODE_FILE → 0 < e ≤ 4294966784 →
  let '(r, s1) := if d_size (node_disk node s) <? e then simplefs_resize_node node e s else (0, s) in
  write_room node e s r s1.
Proof using Hdev.
  intros Hok Hu Hkd He. pose proof (fs_size s Hok node Hu Hkd) as Hsz.
  destruct (Z.ltb_spec (d_size (node_disk node s)) e).
  - pose proof (resize_node_cases s node e Hok Hu Hkd ltac:(lia)) as Hrz.
    destruct (simplefs_resize_node node e s) as [r s1]. cbv zeta in Hrz. destruct Hrz as (Hst&Hr&Hrel).
    split; [apply Hst; right; lia|..|done]; intros Hr0; destruct (Hr Hr0) as (Hs1&_&Hb1&_&Hk1&Hz1).
    + lia.
    + rewrite Hb1. unfold SIMPLEFS_BLOCK_SIZE. word_lia.
    + intros k Hk. apply Hk1; lia.
    + done.
  - split; try done; try (intros; lia). by apply node_step_refl.
Qed.

(** The copying part of a write. *)
Lemma write_copy_spec s s1 node file buf length :
  let off := f_offset file in
  fs_ok s → used_node s node → d_kind (node_disk node s) = SIMPLEFS_INODE_FILE →
  0 ≤ off → 0 < length → off + length ≤ 4294966784 → write_room node (off + length) s 0 s1 →
  let '(written, early, s') := regular_write_loop (Z.to_nat length) node off length 0 buf s1 in
  if early then wrote node off length buf s (if truthy written then i32 written else -1) file s'
  else wrote node off length buf s (i32 written) (with_f_offset (off ⊞ written) file) s'.
Proof using Hdev.
  intros off Hok Hu Hkd Ho Hlen Hend [Hst Hs1 Hb1 Hk1 Hz1 _].
  pose proof (fs_size s Hok node Hu Hkd) as Hsz.
  specialize (Hs1 eq_refl). specialize (Hb1 eq_refl). specialize (Hk1 eq_refl). specialize (Hz1 eq_refl).
  pose proof (ns_ok _ _ _ Hst) as Hok1.
  assert (used_node s1 node) as Hu1 by (by apply (node_step_used _ _ _ _ Hst)).
  pose proof (extent_cap s1 node (fs_extent _ Hok1 node Hu1) (fs_layout _ Hok1)) as Hcap.
  pose proof (regular_write_loop_spec (Z.to_nat length) s1 node off length 0 buf (fs_dev _ Hok1)
    (fs_extent _ Hok1 node Hu1) (fs_layout _ Hok1) Ho ltac:(lia) Hb1 ltac:(lia)) as Hw.
  destruct (regular_write_loop (Z.to_nat length) node off length 0 buf s1) as [[c early] s'].
  destruct Hw as [Hdc Hc He Hall Hdone _ Hrel].
  assert (node_step node s s') as Hst' by (eapply node_step_trans; [exact Hst|]; by apply data_change_step).
  pose proof (same_meta_disk _ _ node (proj1 Hdc)) as Hd'.
  assert (∀ k, 0 ≤ k < c → content s' node (off + k) = buf k) as Hwritten.
  { intros k Hk. rewrite Hdone by lia. f_equal. lia. }
  rewrite (i32_small c) by (unfold SIMPLEFS_BLOCK_SIZE in *; lia). destruct early.
  - specialize (He eq_refl). unfold truthy.
    destruct (Z.eqb_spec c 0) as [->|Hc0]; bsimpl;
      (split; try done; try (intros; lia); intros H2 H3 _; discriminate (Hrel H2 H3)).
  - destruct (Hall eq_refl) as [-> Hpa]. rewrite u32_small by lia.
    pose proof (pa_bytes _ _ _ _ _ _ Hpa) as Hby. rewrite Z.add_0_r in Hby.
    pose proof (fs_size _ Hok1 node Hu1 ltac:(by rewrite (ns_kind _ _ _ Hst))) as Hsz1. rewrite Hs1 in Hsz1.
    split; try done; [lia|by rewrite Hd'|..]; intros _.
    + intros k Hk Hout. rewrite Hby by lia. case_if; [zbool; lia|]. by apply Hk1.
    + intros Hlt k Hk. rewrite Hby by lia. case_if; [zbool; lia|]. apply Hz1; [done|lia].
Qed.

Lemma regular_write_cases s node file inode buf length :
  fs_ok s → used_node s node → d_kind (node_disk node s) = SIMPLEFS_INODE_FILE →
  private_node inode = Some node → 0 ≤ f_offset file → 0 < length → f_offset file + length ≤ 4294966784 →
  let '(r, file', s') := simplefs_regular_write file inode (Some buf) length s in
  wrote node (f_offset file) length buf s r file' s'.
Proof using Hdev.
  intros Hok Hu Hkd Hp Ho Hlen Hend. unfold simplefs_regular_write.
  rewrite Hp, Hkd, (device_writable_eq s (fs_dev s Hok)).
  destruct (truthy (read_only dev)) eqn:Ero; bsimpl.
  { split; try lia; [by apply node_step_refl|]. intros _ Hro. by rewrite Hro in Ero. }
  change (negb (SIMPLEFS_INODE_FILE =? SIMPLEFS_INODE_FILE)) with false. cbv match.
  rewrite (proj2 (Z.eqb_neq length 0)) by lia. rewrite (u32_small (f_offset file + length)) by lia.
  rewrite (proj2 (Z.ltb_ge (f_offset file + length) (f_offset file))) by lia.
  pose proof (write_room_spec s node (f_offset file + length) Hok Hu Hkd ltac:(lia)) as Hroom.
  destruct (if _ <? _ then _ else _) as [r s1].
  unfold truthy at 1. destruct (Z.eqb_spec r 0) as [->|Hr0]; bsimpl.
  - pose proof (write_copy_spec s s1 node file buf length Hok Hu Hkd Ho Hlen Hend Hroom) as Hc.
    destruct (regular_write_loop _ _ _ _ _ _ _) as [[written early] s']. by destruct early.
  - destruct Hroom as [Hst _ _ _ _ Hrel]. split; try done; try lia.
    intros H2 H3 H4. by destruct Hr0; apply Hrel.
Qed.

(** A resize inside the blocks that the file has. *)
Lemma resize_same_blocks s node n :
  fs_ok s → used_node s node → d_kind (node_disk node s) = SIMPLEFS_INODE_FILE → 0 ≤ n ≤ 4294966784 →
  d_block_count (node_disk node s) = (n + 511) / 512 → read_only dev = 0 →
  let '(r, s') := simplefs_resize_node node n s in
  node_step node s s' ∧ node_disk node s' = with_d_size n (node_disk node s) ∧
  ∀ k, 0 ≤ k < d_block_count (node_disk node s) * BS → content s' node k = content s node k.
Proof using Hdev.
  intros Hok Hu Hkd Hn Hbc Hro. unfold simplefs_resize_node.
  rewrite (device_writable_eq s (fs_dev s Hok)), Hkd, Hro.
  change (negb (SIMPLEFS_INODE_FILE =? SIMPLEFS_INODE_FILE)) with false. change (truthy 0) with false. bsimpl. cbv match.
  unfold resize_extent. rewrite required_blocks_eq by done. rewrite Hbc, !Z.ltb_irrefl.
  change (truthy 0) with false. cbv match. fold (set_size node n s).
  pose proof (set_size_step node n s Hok Hu ltac:(rewrite Hbc; unfold SIMPLEFS_BLOCK_SIZE; word_lia)) as Hst.
  pose proof (ns_ok _ _ _ Hst) as Hok3.
  assert (used_node (set_size node n s) node) as Hu3 by (by apply (node_step_used _ _ _ _ Hst)).
  pose proof (flush_metadata_spec _ (fs_dev _ Hok3) (fs_layout _ Hok3) (proj2 (fs_count _ Hok3))) as Hf.
  destruct (simplefs_flush_metadata (set_size node n s)) as [r s'].
  destruct Hf as (Hc&Hk&_). destruct (flush_step _ s' node Hok3 Hu3 Hc Hk) as (Hst4&Hd4&_&Hc4).
  rewrite set_size_disk in Hd4, Hc4. simpl in Hc4. rewrite Hbc in Hc4.
  split_and!; [by eapply node_step_trans|done|]. intros k Hkk. rewrite Hc4 by done.
  unfold content. by rewrite set_size_disk.
Qed.

(** ** The theorems *)

(** C36: Reading a file of a sound volume returns the bytes of its contents at the
    file offset, at most up to its size, writes nothing outside the part of the
    buffer asked for, changes nothing of the volume, and, on a device whose
    transfers do not fail, returns exactly the bytes that are left, and moves the
    offset behind them. *)
Theorem simplefs_regular_read_spec s node file inode buf length :
  fs_ok s → used_node s node → d_kind (node_disk node s) = SIMPLEFS_INODE_FILE →
  private_node inode = Some node → is_u32 (f_offset file) → is_u32 length →
  let off := f_offset file in
  let n := Z.min length (Z.max 0 (d_size (node_disk node s) - off)) in
  let '(r, file', buf', s') := simplefs_regular_read file inode (Some buf) length s in
  s' = with_scratch (block_scratch s') s ∧ -1 ≤ r ≤ n ∧
  (file' = file ∨ file' = with_f_offset (off + n) file) ∧
  (∃ b, buf' = Some b ∧ (∀ k, 0 ≤ k < r → b k = content s node (off + k)) ∧
     ∀ k, k < 0 ∨ n ≤ k → b k = buf k) ∧
  (ReliableDevice dev → r = n ∧ f_offset file' = off + n).
Proof using Hdev. intros. by apply regular_read_cases. Qed.

(** C8: A write to a file of a sound volume keeps the volume sound (extents inside the
    data area, marked and disjoint), changes neither the metadata nor the contents of
    any other file, and leaves the first [r] bytes of the buffer in the file when it
    returns [r].  A complete write sets the size to the end of the write if the file
    was shorter, keeps every other byte of the file and fills a gap in new blocks
    with zeros; it is complete whenever no transfer fails and there is a free extent
    of the size needed. *)
Theorem simplefs_regular_write_spec s node file inode buf length :
  fs_ok s → used_node s node → d_kind (node_disk node s) = SIMPLEFS_INODE_FILE →
  private_node inode = Some node → 0 ≤ f_offset file → 0 < length → f_offset file + length ≤ 4294966784 →
  let '(r, file', s') := simplefs_regular_write file inode (Some buf) length s in
  wrote node (f_offset file) length buf s r file' s'.
Proof using Hdev. intros. by apply regular_write_cases. Qed.

(** C37: What a complete write put into a file, a read at the same offset returns,
    whatever the file held before and wherever its extent moved. *)
Theorem simplefs_write_read s node file inode buf length dst :
  fs_ok s → used_node s node → d_kind (node_disk node s) = SIMPLEFS_INODE_FILE →
  private_node inode = Some node → 0 ≤ f_offset file → 0 < length → f_offset file + length ≤ 4294966784 →
  ReliableDevice dev → read_only dev = 0 →
  (∃ c, free_extent s c ((f_offset file + length + 511) / 512)) →
  let '(r, _, s1) := simplefs_regular_write file inode (Some buf) length s in
  let '(r', _, dst', _) := simplefs_regular_read file inode (Some dst) length s1 in
  r = length ∧ r' = length ∧ ∃ b, dst' = Some b ∧ ∀ k, 0 ≤ k < length → b k = buf k.
Proof using Hdev.
  intros Hok Hu Hkd Hp Ho Hlen Hend Hrel Hro Hroom.
  pose proof (regular_write_cases s node file inode buf length Hok Hu Hkd Hp Ho Hlen Hend) as Hw.
  destruct (simplefs_regular_write file inode (Some buf) length s) as [[r file'] s1].
  destruct Hw as [Hst _ Hby Hsize _ _ _ Hr]. specialize (Hr Hrel Hro ltac:(auto)). specialize (Hsize Hr).
  pose proof (regular_read_cases s1 node file inode dst length (ns_ok _ _ _ Hst)
    ltac:(by apply (node_step_used _ _ _ _ Hst)) ltac:(by rewrite (ns_kind _ _ _ Hst)) Hp
    ltac:(unfold is_u32; lia) ltac:(unfold is_u32; lia)) as Hrd. cbv zeta in Hrd.
  destruct (simplefs_regular_read file inode (Some dst) length s1) as [[[r' file''] dst'] s2].
  destruct Hrd as (_&_&_&(b&->&Hin&_)&Hr'). destruct (Hr' Hrel) as [-> _]. rewrite Hsize in *.
  replace (Z.min length _) with length in * by lia.
  split_and!; [done|done|]. exists b. split; [done|]. intros k Hk. rewrite Hin by done. apply Hby. lia.
Qed.

(** C38: Changing the size of a file to [n] bytes: when it succeeds the size is [n] in
    both copies, the extent is as long as [n] bytes need, the bytes below both sizes
    are kept, the bytes of new blocks read as zero, every other file is as before,
    and the inode table, the bitmaps and the superblock on the disk are those in
    memory.  It succeeds whenever no transfer fails and a free extent of the new
    length exists. *)
Theorem simplefs_resize_node_spec s node n :
  fs_ok s → used_node s node → d_kind (node_disk node s) = SIMPLEFS_INODE_FILE → 0 ≤ n ≤ 4294966784 →
  let '(r, s') := simplefs_resize_node node n s in
  let size := d_size (node_disk node s) in
  let req := (n + 511) / 512 in
  (r = 0 ∨ size ≤ n → node_step node s s') ∧
  (r = 0 →
     d_size (node_disk node s') = n ∧ in_size (node_vfs node s') = n ∧
     d_block_count (node_disk node s') = req ∧ persisted s' ∧
     (∀ k, 0 ≤ k < n → k < size → content s' node k = content s node k) ∧
     (d_block_count (node_disk node s) < req → ∀ k, size ≤ k < n → content s' node k = 0)) ∧
  (ReliableDevice dev → read_only dev = 0 →
     (d_block_count (node_disk node s) < req → ∃ c, free_extent s c req) → r = 0).
Proof using Hdev. apply resize_node_cases. Qed.

(** The bytes beyond the end of a file are cleared only when the number of blocks
    changes.  A file cut to [m] bytes and grown again to [n] bytes inside its blocks
    shows the bytes that were cut off. *)
Theorem resize_exposes_old_bytes s node m n :
  fs_ok s → used_node s node → d_kind (node_disk node s) = SIMPLEFS_INODE_FILE → read_only dev = 0 →
  0 ≤ m ≤ n → n ≤ 4294966784 → d_block_count (node_disk node s) = (m + 511) / 512 →
  (m + 511) / 512 = (n + 511) / 512 →
  let s' := (simplefs_resize_node node n (simplefs_resize_node node m s).2).2 in
  d_size (node_disk node s') = n ∧ ∀ k, 0 ≤ k < n → content s' node k = content s node k.
Proof using Hdev.
  intros Hok Hu Hkd Hro Hm Hn Hbc Hmn. cbv zeta.
  pose proof (resize_same_blocks s node m Hok Hu Hkd ltac:(lia) Hbc Hro) as H1.
  destruct (simplefs_resize_node node m s) as [r1 s1]. destruct H1 as (Hst&Hd1&Hc1). simpl.
  pose proof (resize_same_blocks s1 node n (ns_ok _ _ _ Hst) ltac:(by apply (node_step_used _ _ _ _ Hst))
    ltac:(by rewrite Hd1) ltac:(lia) ltac:(rewrite Hd1; simpl; lia) Hro) as H2.
  destruct (simplefs_resize_node node n s1) as [r2 s2]. destruct H2 as (_&Hd2&Hc2). simpl.
  rewrite Hd1 in Hc2. simpl in Hc2. split; [by rewrite Hd2|]. intros k Hk.
  rewrite Hc2, Hc1; [done|..]; rewrite Hbc, Hmn; unfold SIMPLEFS_BLOCK_SIZE; word_lia.
Qed.

(** For a size in the last 511 below [2^32] the number of blocks wraps to zero:
    the extent of the file is given up, and the size is stored all the same. *)
Theorem resize_wraps s node n :
  4294966784 < n < 4294967296 → device_writable s = true →
  d_kind (node_disk node s) = SIMPLEFS_INODE_FILE → 0 < d_block_count (node_disk node s) →
  simplefs_required_blocks n = 0 ∧
  simplefs_resize_node node n s = simplefs_flush_metadata (set_size node n (simplefs_release_extent node s)).
Proof using.
  intros Hn Hw Hkd Hbc.
  assert (simplefs_required_blocks n = 0) as Hreq.
  { unfold simplefs_required_blocks. rewrite (proj2 (Z.eqb_neq n 0)) by lia. unfold align_up, SIMPLEFS_BLOCK_SIZE.
    assert (u32 (u32 (n + 512) - 1) = n - 4294966785) as -> by (unfold u32; word_lia).
    assert (∀ x, 0 ≤ x < 511 → Z.land x (not32 (512 - 1)) / 512 = 0) as Hx; [|apply Hx; lia].
    intros x Hx. change (not32 (512 - 1)) with (Z.shiftl 8388607 9).
    change 512 with (2 ^ 9). rewrite <- Z.shiftr_div_pow2, Z.shiftr_land by lia.
    rewrite (Z.shiftr_div_pow2 x) by lia. by rewrite Z.div_small by lia. }
  split; [done|]. unfold simplefs_resize_node, resize_extent. rewrite Hw, Hkd, Hreq.
  rewrite (proj2 (Z.ltb_ge _ 0)), (proj2 (Z.ltb_lt 0 _) Hbc) by lia. done.
Qed.

End volume.

(** ** A volume on the 64-block disk *)

(** Inode 0 is an empty root directory, inode 1 a file of 600 bytes in the blocks 4 and 5. *)
Definition demo_superblock : simplefs_superblock :=
  {| sb_magic := SIMPLEFS_MAGIC; sb_version := SIMPLEFS_VERSION; sb_block_size := 512; sb_total_blocks := 64;
     sb_inode_count := 2; sb_inode_table_start := 1; sb_inode_table_blocks := 1; sb_inode_bitmap_start := 2;
     sb_inode_bitmap_blocks := 1; sb_block_bitmap_start := 3; sb_block_bitmap_blocks := 1;
     sb_data_block_start := 4; sb_root_inode := 0; sb_reserved := 0 |}.

Definition demo_node (i : Z) : simplefs_runtime_inode :=
  if i =? 1 then
    with_rt_disk {| d_kind := SIMPLEFS_INODE_FILE; d_size := 600; d_data_block := 4; d_block_count := 2;
                    d_child_count := 0; d_mode := 420; d_uid := 0; d_gid := 0 |} (fresh_node 1)
  else
    with_rt_disk {| d_kind := SIMPLEFS_INODE_DIR; d_size := 0; d_data_block := 0; d_block_count := 0;
                    d_child_count := 0; d_mode := 493; d_uid := 0; d_gid := 0 |} (fresh_node 0).

Definition demo_fs : simplefs (carray Z) :=
  {| runtime_inodes := demo_node; runtime_dir_entries := λ _, null_entry; inode_table_image := λ _, 0;
     mounted_device := Some mem_disk; mounted_superblock := demo_superblock;
     inode_bitmap := λ k, if k =? 0 then 3 else 0; block_bitmap := λ k, if k =? 0 then 63 else 0;
     mounted_inode_count := 2; next_dir_entry_slot := 0; block_scratch := λ _, 0; storage := λ k, k mod 251 |}.

Lemma demo_node_cases (i : Z) : used_node demo_fs i → i = 0 ∨ i = 1.
Proof. intros [H _]. simpl in H. lia. Qed.

Lemma demo_fs_ok : fs_ok mem_disk demo_fs.
Proof.
  assert (extent_ok demo_fs (node_disk 1 demo_fs)) as H1.
  { split; [simpl; lia|]. intros _. split_and!; [simpl; lia..|]. unfold in_extent. simpl. intros b Hb.
    assert (b = 4 ∨ b = 5) as [->| ->] by lia; reflexivity. }
  split; try done.
  - intros k. simpl. destruct (k =? 0); lia.
  - intros i [->| ->]%demo_node_cases; [split; simpl; lia|done].
  - intros i j b [->| ->]%demo_node_cases [->| ->]%demo_node_cases Hij; try done; unfold in_extent; simpl; lia.
  - intros i [->| ->]%demo_node_cases; [done|]. simpl. unfold SIMPLEFS_BLOCK_SIZE. lia.
Qed.

Lemma demo_file_used : used_node demo_fs 1.
Proof. split; [simpl; lia|reflexivity]. Qed.

Lemma demo_free : free_extent demo_fs 6 3.
Proof. apply extent_is_free_spec; [lia..|vm_compute; reflexivity]. Qed.

Definition demo_file : vfs_file :=
  {| f_inode := Some (IP_node 1); f_flags := 2; f_offset := 100; f_ref_count := 1 |}.

(** A read of 700 bytes at 100 gets the 500 bytes up to the end. *)
Lemma simplefs_regular_read_spec_witness :
  let '(r, file', _, _) :=
    simplefs_regular_read demo_file (fresh_vfs 1) (Some (λ _, 7)) 700 demo_fs in
  r = 500 ∧ f_offset file' = 600.
Proof.
  pose proof (simplefs_regular_read_spec mem_disk (λ s, s) demo_fs 1 demo_file (fresh_vfs 1) (λ _, 7) 700
    demo_fs_ok demo_file_used eq_refl eq_refl ltac:(unfold is_u32; simpl; lia) ltac:(unfold is_u32; lia)) as H.
  cbv zeta in H. destruct (simplefs_regular_read _ _ _ _ _) as [[[r file'] buf'] s'].
  destruct H as (_&_&_&_&H). exact (H mem_disk_reliable).
Defined.

(** A write of 1000 bytes at 100 needs a third block. *)
Lemma simplefs_regular_write_spec_witness :
  let '(r, _, s') := simplefs_regular_write demo_file (fresh_vfs 1) (Some (λ k, k mod 256)) 1000 demo_fs in
  r = 1000 ∧ d_size (node_disk 1 s') = 1100.
Proof.
  pose proof (simplefs_regular_write_spec mem_disk (λ s, s) demo_fs 1 demo_file (fresh_vfs 1) (λ k, k mod 256) 1000
    demo_fs_ok demo_file_used eq_refl eq_refl ltac:(simpl; lia) ltac:(lia) ltac:(simpl; lia)) as H.
  destruct (simplefs_regular_write _ _ _ _ _) as [[r file'] s'].
  destruct H as [_ _ _ Hs _ _ _ Hr].
  specialize (Hr mem_disk_reliable eq_refl (λ _, ex_intro _ 6 demo_free)). by rewrite (Hs Hr).
Defined.

Lemma simplefs_write_read_witness :
  let '(r, _, s1) := simplefs_regular_write demo_file (fresh_vfs 1) (Some (λ k, k mod 256)) 1000 demo_fs in
  let '(r', _, dst', _) := simplefs_regular_read demo_file (fresh_vfs 1) (Some (λ _, 0)) 1000 s1 in
  r = 1000 ∧ r' = 1000 ∧ ∃ b, dst' = Some b ∧ ∀ k, 0 ≤ k < 1000 → b k = k mod 256.
Proof.
  apply (simplefs_write_read mem_disk (λ s, s) demo_fs 1 demo_file (fresh_vfs 1) (λ k, k mod 256) 1000 (λ _, 0)
    demo_fs_ok demo_file_used eq_refl eq_refl ltac:(simpl; lia) ltac:(lia) ltac:(simpl; lia) mem_disk_reliable eq_refl).
  exists 6. exact demo_free.
Defined.

Lemma simplefs_resize_node_spec_witness :
  let '(r, s') := simplefs_resize_node 1 1500 demo_fs in
  r = 0 ∧ d_size (node_disk 1 s') = 1500 ∧ persisted (λ s, s) s'.
Proof.
  pose proof (simplefs_resize_node_spec mem_disk (λ s, s) demo_fs 1 1500 demo_fs_ok demo_file_used eq_refl
    ltac:(lia)) as H.
  destruct (simplefs_resize_node 1 1500 demo_fs) as [r s']. cbv zeta in H. destruct H as (_&H&Hr).
  specialize (Hr mem_disk_reliable eq_refl (λ _, ex_intro _ 6 demo_free)). by destruct (H Hr) as (?&_&_&?&_).
Defined.

(** Cut to 520 bytes and grown to 600 again, the file shows its old last 80 bytes. *)
Lemma resize_exposes_old_bytes_witness :
  content (λ s, s) (simplefs_resize_node 1 600 (simplefs_resize_node 1 520 demo_fs).2).2 1 550 = 88.
Proof.
  pose proof (resize_exposes_old_bytes mem_disk (λ s, s) demo_fs 1 520 600 demo_fs_ok
    demo_file_used eq_refl eq_refl ltac:(lia) ltac:(lia) eq_refl eq_refl) as [_ H].
  rewrite H by lia. reflexivity.
Defined.

Lemma resize_wraps_witness :
  simplefs_resize_node 1 4294967000 demo_fs
  = simplefs_flush_metadata (set_size 1 4294967000 (simplefs_release_extent 1 demo_fs)).
Proof.
  apply (resize_wraps demo_fs 1 4294967000 ltac:(lia) eq_refl eq_refl). simpl. lia.
Defined.
