(* ===== verification/Bootinfo.v ===== *)
(** * Boot options ([src/kernel/bootinfo.c])

    The command line of the boot loader selects the root device and sets three flags;
    the framebuffer description is copied from the multiboot structure. *)

From stdpp Require Import strings.
From S2P Require Import Prelude Mem Palloc Block.

Local Open Scope Z_scope.
Local Open Scope c_scope.

Inductive boot_root_policy := BOOT_ROOT_AUTO | BOOT_ROOT_DISK | BOOT_ROOT_RAMDISK.

#[export] Instance boot_root_policy_eq_dec : EqDecision boot_root_policy.
Proof. solve_decision. Defined.

Definition BOOT_FLAG_RECOVERY : Z := 1.
Definition BOOT_FLAG_REINSTALL : Z := 2.
Definition BOOT_FLAG_SOAK : Z := 4.
Definition MULTIBOOT_FRAMEBUFFER_TYPE_EGA_TEXT : Z := 2.

Record boot_framebuffer_info := {
  physical_address : Z; pitch : Z; width : Z; height : Z; bpp : Z; fb_type : Z; rgb : rgb_info; present : Z;
}.

Record bootinfo := {
  root_policy_value : boot_root_policy;
  boot_flags_value : Z;
  framebuffer_info_value : boot_framebuffer_info;
}.

(** A null text contains no pattern but the empty one. *)
Definition cmdline_contains (text : option (list Z)) (pattern : list Z) : bool :=
  match text with Some text => string_contains text pattern | None => bool_decide (pattern = []) end.

Definition no_framebuffer : boot_framebuffer_info :=
  {| physical_address := 0; pitch := 0; width := 0; height := 0; bpp := 0; fb_type := 0; rgb := no_rgb; present := 0 |}.

Definition framebuffer_usable (info : multiboot_info) : bool :=
  truthy (Z.land (flags info) MULTIBOOT_INFO_FRAMEBUFFER) && truthy (framebuffer_addr info)
  && truthy (framebuffer_pitch info) && truthy (framebuffer_width info) && truthy (framebuffer_height info)
  && truthy (framebuffer_bpp info) && negb (framebuffer_type info =? MULTIBOOT_FRAMEBUFFER_TYPE_EGA_TEXT).

(** The command line, if there is one; [None] when it does not end within [fuel] bytes. *)
Definition boot_cmdline (fuel : nat) (info : option multiboot_info) (mem : carray Z) : option (option (list Z)) :=
  match info with
  | Some info =>
      if truthy (Z.land (flags info) MULTIBOOT_INFO_CMDLINE) && truthy (cmdline info)
      then Some <$> string_at fuel mem (cmdline info) else Some None
  | None => Some None
  end.

Definition bootinfo_init (fuel : nat) (info : option multiboot_info) (mem : carray Z) : option bootinfo :=
  match boot_cmdline fuel info mem with
  | None => None
  | Some cmdline =>
      let policy :=
        if cmdline_contains cmdline (c_bytes "root=ramdisk") then BOOT_ROOT_RAMDISK
        else if cmdline_contains cmdline (c_bytes "root=disk") then BOOT_ROOT_DISK else BOOT_ROOT_AUTO in
      let f := 0 in
      let f := if cmdline_contains cmdline (c_bytes "recovery=1") then Z.lor f BOOT_FLAG_RECOVERY else f in
      let f := if cmdline_contains cmdline (c_bytes "reinstall=1") then Z.lor f BOOT_FLAG_REINSTALL else f in
      let f := if cmdline_contains cmdline (c_bytes "soak=1") then Z.lor f BOOT_FLAG_SOAK else f in
      let fb :=
        match info with
        | Some info =>
            if framebuffer_usable info
            then {| physical_address := framebuffer_addr info; pitch := framebuffer_pitch info;
                    width := framebuffer_width info; height := framebuffer_height info;
                    bpp := framebuffer_bpp info; fb_type := framebuffer_type info;
                    rgb := framebuffer_rgb info; present := 1 |}
            else no_framebuffer
        | None => no_framebuffer
        end in
      Some {| root_policy_value := policy; boot_flags_value := f; framebuffer_info_value := fb |}
  end.

Definition bootinfo_root_policy (b : bootinfo) : boot_root_policy := root_policy_value b.
Definition bootinfo_root_policy_name (policy : boot_root_policy) : list Z :=
  match policy with
  | BOOT_ROOT_DISK => c_bytes "disk" | BOOT_ROOT_RAMDISK => c_bytes "ramdisk" | BOOT_ROOT_AUTO => c_bytes "auto"
  end.
Definition bootinfo_flags (b : bootinfo) : Z := boot_flags_value b.
Definition bootinfo_framebuffer (b : bootinfo) : boot_framebuffer_info := framebuffer_info_value b.
Definition bootinfo_recovery_enabled (b : bootinfo) : bool := truthy (Z.land (boot_flags_value b) BOOT_FLAG_RECOVERY).
Definition bootinfo_reinstall_enabled (b : bootinfo) : bool := truthy (Z.land (boot_flags_value b) BOOT_FLAG_REINSTALL).
Definition bootinfo_soak_enabled (b : bootinfo) : bool := truthy (Z.land (boot_flags_value b) BOOT_FLAG_SOAK).

(** ** Substrings *)

Definition infix (pattern text : list Z) : Prop := ∃ a b, text = a ++ pattern ++ b.

Lemma string_contains_spec text pattern : string_contains text pattern = true ↔ infix pattern text.
Proof.
  unfold string_contains. destruct pattern as [|x pattern]; [split; [intros _; by exists [], text|done]|].
  set (p := x :: pattern). destruct (Nat.ltb_spec (length text) (length p)) as [Hlt|Hle].
  - split; [done|]. intros (a&b&E). apply (f_equal length) in E. rewrite !length_app in E. lia.
  - set (hi := _ - _ + 1). set (q := λ start, _). split.
    + destruct (for_find 0 hi q) as [k|] eqn:E; [|done]. intros _. apply for_find_Some in E as (Hk&Hq&_).
      apply bool_decide_eq_true in Hq. exists (take (Z.to_nat k) text), (drop (length p) (drop (Z.to_nat k) text)).
      rewrite <- Hq at 1. by rewrite !take_drop.
    + intros (a&b&E). destruct (for_find 0 hi q) as [k|] eqn:Ef; [done|].
      assert (length text = (length a + (length p + length b))%nat) as HL by (rewrite E, !length_app; lia).
      pose proof (proj1 (for_find_None 0 hi q) Ef (Z.of_nat (length a)) ltac:(unfold hi; lia)) as Hq.
      apply bool_decide_eq_false in Hq. destruct Hq. rewrite Nat2Z.id, E, drop_app_length. apply take_app_length.
Qed.

Lemma flag_bits (r i k : bool) :
  let f := if r then Z.lor 0 BOOT_FLAG_RECOVERY else 0 in
  let f := if i then Z.lor f BOOT_FLAG_REINSTALL else f in
  let f := if k then Z.lor f BOOT_FLAG_SOAK else f in
  truthy (Z.land f BOOT_FLAG_RECOVERY) = r ∧ truthy (Z.land f BOOT_FLAG_REINSTALL) = i ∧
  truthy (Z.land f BOOT_FLAG_SOAK) = k.
Proof. by destruct r, i, k. Qed.

(** The boot options are read off the command line: a forced ramdisk wins over a
    forced disk, every flag is set exactly when its word occurs, and the framebuffer is
    taken over exactly when the boot loader describes a usable one. *)
Theorem bootinfo_init_spec fuel info mem text :
  boot_cmdline fuel (Some info) mem = Some (Some text) →
  ∃ b, bootinfo_init fuel (Some info) mem = Some b ∧
  (bootinfo_root_policy b = BOOT_ROOT_RAMDISK ↔ infix (c_bytes "root=ramdisk") text) ∧
  (bootinfo_root_policy b = BOOT_ROOT_DISK ↔
     infix (c_bytes "root=disk") text ∧ ¬ infix (c_bytes "root=ramdisk") text) ∧
  (bootinfo_recovery_enabled b = true ↔ infix (c_bytes "recovery=1") text) ∧
  (bootinfo_reinstall_enabled b = true ↔ infix (c_bytes "reinstall=1") text) ∧
  (bootinfo_soak_enabled b = true ↔ infix (c_bytes "soak=1") text) ∧
  (present (bootinfo_framebuffer b) = if framebuffer_usable info then 1 else 0).
Proof.
  intros E. unfold bootinfo_init. rewrite E. eexists. split; [reflexivity|]. cbn -[c_bytes].
  rewrite <- !string_contains_spec. unfold bootinfo_recovery_enabled, bootinfo_reinstall_enabled, bootinfo_soak_enabled.
  cbn [boot_flags_value]. destruct (flag_bits (string_contains text (c_bytes "recovery=1"))
    (string_contains text (c_bytes "reinstall=1")) (string_contains text (c_bytes "soak=1"))) as (->&->&->).
  destruct (string_contains text (c_bytes "root=ramdisk")), (string_contains text (c_bytes "root=disk")),
    (framebuffer_usable info); naive_solver.
Qed.

Definition cmdline_mem : carray Z :=
  λ a, default 0 (c_bytes "kernel root=disk recovery=1" !! Z.to_nat (a - 256)).

Definition cmdline_info : multiboot_info :=
  {| mb_address := 0; flags := MULTIBOOT_INFO_CMDLINE; mem_upper := 0; cmdline := 256;
     mods_count := 0; mods_addr := 0; mmap_length := 0; mmap_addr := 0; framebuffer_addr := 0;
     framebuffer_pitch := 0; framebuffer_width := 0; framebuffer_height := 0; framebuffer_bpp := 0;
     framebuffer_type := 0; framebuffer_rgb := no_rgb |}.

Lemma bootinfo_init_spec_witness :
  ∃ b, bootinfo_init 64 (Some cmdline_info) cmdline_mem = Some b ∧ bootinfo_recovery_enabled b = true.
Proof.
  destruct (bootinfo_init_spec 64 cmdline_info cmdline_mem (c_bytes "kernel root=disk recovery=1"))
    as (b&E&_&_&Hr&_); [reflexivity|]. exists b. split; [exact E|]. apply Hr.
  by exists (c_bytes "kernel root=disk "), [].
Defined.
