(* ===== verification/Console.v ===== *)
(** * Console output ([src/kernel/console.c]) and [framebuffer_init]

    Every character of a message goes to the serial line, to the text screen and to the framebuffer,
    with interrupts off.  A message is its list of bytes.  The loops that wait for the transmitter of the
    serial chip have fuel; the theorems give the amount that is enough. *)

From stdpp Require Import strings.
From S2P Require Import Prelude Mem Palloc Paging PagingInit Block Bootinfo Ports Input InputKeys Vga Framebuffer.

Local Open Scope Z_scope.
Local Open Scope c_scope.

Definition MULTIBOOT_FRAMEBUFFER_TYPE_RGB : Z := 1.

Definition hex_digit (value : Z) : Z := if value <? 10 then 48 + value else 65 + (value - 10).

(** The buffers of [console_write_hex32] and [console_write_hex64]: the digits of [value] from
    bit [shift] on. *)
Definition hex_buffer (value : Z) (digits : nat) : list Z :=
  (λ i, let nibble := u8 (Z.land (Z.shiftr value (4 * (Z.of_nat digits - 1 - i))) 15) in hex_digit nibble)
    <$> seqZ 0 (Z.of_nat digits).

Section console.
Context {P : Type} `{!PortIO P}.

Record console := { com_present : bool; com_ports : P; screen : vga; fb : framebuffer }.

Definition with_fb (f : framebuffer) (c : console) : console :=
  {| com_present := com_present c; com_ports := com_ports c; screen := screen c; fb := f |}.

Definition console_init (c : console) : console :=
  let '(present, p) := serial_init (com_ports c) in
  {| com_present := present; com_ports := p; screen := vga_init (screen c); fb := fb c |}.

Definition console_write_char (fuel : nat) (ch : Z) (c : console) : option console :=
  p ← serial_write_char fuel (com_present c) ch (com_ports c);
  Some {| com_present := com_present c; com_ports := p; screen := vga_write_char ch (screen c);
          fb := framebuffer_write_char ch (fb c) |}.

Fixpoint console_write_len (fuel : nat) (message : list Z) (c : console) : option console :=
  match message with
  | [] => Some c
  | ch :: message => c ← console_write_char fuel ch c; console_write_len fuel message c
  end.

Definition console_write (fuel : nat) (message : string) (c : console) : option console :=
  console_write_len fuel (c_bytes message) c.
Definition console_write_hex32 (fuel : nat) (value : Z) (c : console) : option console :=
  console_write_len fuel (hex_buffer value 8) c.
Definition console_write_hex64 (fuel : nat) (value : Z) (c : console) : option console :=
  console_write_len fuel (hex_buffer value 16) c.

(** The lines of the console messages end with the byte 10. *)
Definition console_newline (fuel : nat) (c : console) : option console := console_write_len fuel [10] c.
Definition console_line (fuel : nat) (message : string) (c : console) : option console :=
  c ← console_write fuel message c; console_newline fuel c.

(** The mode of a description, as far as [framebuffer_init] sets it before it checks the cells. *)
Definition mode_of (info : boot_framebuffer_info) (virtual_base bytes_per_pixel : Z) : fb_mode :=
  {| framebuffer_base := virtual_base; framebuffer_pitch := pitch info; framebuffer_width := width info;
     framebuffer_height := height info; framebuffer_bytes_per_pixel := bytes_per_pixel;
     framebuffer_columns := width info / FRAMEBUFFER_FONT_WIDTH; framebuffer_rows := height info / FRAMEBUFFER_FONT_HEIGHT;
     framebuffer_foreground := 0; framebuffer_background := 0;
     framebuffer_red_field_position := red_field_position (rgb info); framebuffer_red_mask_size := red_mask_size (rgb info);
     framebuffer_green_field_position := green_field_position (rgb info); framebuffer_green_mask_size := green_mask_size (rgb info);
     framebuffer_blue_field_position := blue_field_position (rgb info); framebuffer_blue_mask_size := blue_mask_size (rgb info);
     framebuffer_ready := false |}.

Definition with_colors (background foreground : Z) (m : fb_mode) : fb_mode :=
  {| framebuffer_base := framebuffer_base m; framebuffer_pitch := framebuffer_pitch m; framebuffer_width := framebuffer_width m;
     framebuffer_height := framebuffer_height m; framebuffer_bytes_per_pixel := framebuffer_bytes_per_pixel m;
     framebuffer_columns := framebuffer_columns m; framebuffer_rows := framebuffer_rows m;
     framebuffer_foreground := foreground; framebuffer_background := background;
     framebuffer_red_field_position := framebuffer_red_field_position m; framebuffer_red_mask_size := framebuffer_red_mask_size m;
     framebuffer_green_field_position := framebuffer_green_field_position m; framebuffer_green_mask_size := framebuffer_green_mask_size m;
     framebuffer_blue_field_position := framebuffer_blue_field_position m; framebuffer_blue_mask_size := framebuffer_blue_mask_size m;
     framebuffer_ready := true |}.

Definition with_mode (m : fb_mode) (f : framebuffer) : framebuffer :=
  {| mode := m; framebuffer_cursor_row := framebuffer_cursor_row f; framebuffer_cursor_column := framebuffer_cursor_column f; video := video f |}.

(** The state after [framebuffer_bytes_per_pixel] alone has been set. *)
Definition bpp_mode (bytes_per_pixel : Z) : fb_mode :=
  {| framebuffer_base := 0; framebuffer_pitch := 0; framebuffer_width := 0; framebuffer_height := 0;
     framebuffer_bytes_per_pixel := bytes_per_pixel; framebuffer_columns := 0; framebuffer_rows := 0; framebuffer_foreground := 0;
     framebuffer_background := 0; framebuffer_red_field_position := 0; framebuffer_red_mask_size := 0;
     framebuffer_green_field_position := 0; framebuffer_green_mask_size := 0; framebuffer_blue_field_position := 0;
     framebuffer_blue_mask_size := 0; framebuffer_ready := false |}.

(** The last lines of [framebuffer_init]: the message that the console is ready, in parts. *)
Definition ready_message (info : boot_framebuffer_info) (m : fb_mode) : list Z :=
  c_bytes "framebuffer: ready " ++ hex_buffer (framebuffer_width m) 8 ++ c_bytes "x" ++ hex_buffer (framebuffer_height m) 8
  ++ c_bytes " pitch 0x" ++ hex_buffer (framebuffer_pitch m) 8 ++ c_bytes " bpp 0x" ++ hex_buffer (bpp info) 8 ++ [10].

(** From the setting of [framebuffer_base] on. *)
Definition framebuffer_enable (fuel : nat) (info : boot_framebuffer_info) (virtual_base bytes_per_pixel : Z) (c : console) : option console :=
  let m := mode_of info virtual_base bytes_per_pixel in
  let c := with_fb (with_mode m (fb c)) c in
  if (framebuffer_columns m =? 0) || (framebuffer_rows m =? 0) then
    c ← console_line fuel "framebuffer: mode too small for console" c;
    Some (with_fb (framebuffer_reset_state (fb c)) c)
  else
    let m := with_colors (framebuffer_pack_color 16 18 22 m) (framebuffer_pack_color 232 236 241 m) m in
    let f := with_mode m (fb c) in
    let f := with_screen (framebuffer_cursor_row f) (framebuffer_cursor_column f)
               (framebuffer_clear_rows m 0 (framebuffer_height m) (video f)) f in
    console_write_len fuel (ready_message info m) (with_fb f c).

(** The messages of [mmio_map_region] are left out.  The result has the console, [mmio_next_virtual] and
    the address spaces. *)
Definition framebuffer_init (fuel : nat) (info : option boot_framebuffer_info) (mmio_next_virtual : Z) (s : vm) (c : console)
    : option (console * Z * vm) :=
  let c := with_fb (framebuffer_reset_state (fb c)) c in
  let stop c := c ← c; Some (c, mmio_next_virtual, s) in
  match info with
  | None => stop (console_line fuel "framebuffer: unavailable" c)
  | Some info =>
      if present info =? 0 then stop (console_line fuel "framebuffer: unavailable" c)
      else if 4294967295 <? physical_address info then stop (console_line fuel "framebuffer: address above 4GiB unsupported" c)
      else if negb (fb_type info =? MULTIBOOT_FRAMEBUFFER_TYPE_RGB) then
        stop (c ← console_write fuel "framebuffer: unsupported type 0x" c; c ← console_write_hex32 fuel (fb_type info) c; console_newline fuel c)
      else
        let framebuffer_bytes := u64 (pitch info * height info) in
        if (framebuffer_bytes =? 0) || (4294967295 <? framebuffer_bytes) then stop (console_line fuel "framebuffer: invalid size" c)
        else
          let bytes_per_pixel := (bpp info ⊞ 7) / 8 in
          let c := with_fb (with_mode (bpp_mode bytes_per_pixel) (fb c)) c in
          if (bytes_per_pixel <? 2) || (4 <? bytes_per_pixel) then
            stop (c ← console_write fuel "framebuffer: unsupported bpp 0x" c; c ← console_write_hex32 fuel (bpp info) c; console_newline fuel c)
          else
            let '(virtual_base, mmio_next_virtual, s) :=
              mmio_map_region (u32 (physical_address info)) (u32 framebuffer_bytes) mmio_next_virtual s in
            if virtual_base =? 0 then c ← console_line fuel "framebuffer: map failed" c; Some (c, mmio_next_virtual, s)
            else c ← framebuffer_enable fuel info virtual_base bytes_per_pixel c; Some (c, mmio_next_virtual, s)
  end.
End console.

Arguments console : clear implicits.

(** ** Numbers *)

Definition digit_value (d : Z) : Z := if d <? 58 then d - 48 else d - 55.
Definition hex_value (l : list Z) : Z := foldl (λ n d, n * 16 + digit_value d) 0 l.

Lemma digit_value_hex n : 0 ≤ n < 16 → digit_value (hex_digit n) = n.
Proof. intros. unfold digit_value, hex_digit. repeat case_if; lia. Qed.

Lemma hex_buffer_step value n :
  hex_buffer value (S n) = hex_digit (Z.shiftr value (4 * Z.of_nat n) mod 16) :: hex_buffer value n.
Proof.
  unfold hex_buffer. rewrite Nat2Z.inj_succ, seqZ_cons by lia. rewrite fmap_cons. f_equal.
  - cbv beta zeta. change 15 with (Z.ones 4). rewrite Z.land_ones by lia. change (2 ^ 4) with 16.
    rewrite u8_small by (unfold is_u8; pose proof (Z.mod_pos_bound (Z.shiftr value (4 * (Z.succ (Z.of_nat n) - 1 - 0))) 16); lia).
    do 3 f_equal. lia.
  - rewrite Z.pred_succ. change (Z.succ 0) with (1 + 0). rewrite <- (fmap_add_seqZ 1 0), <- list_fmap_compose.
    apply list_fmap_ext. intros i k _. cbv beta zeta delta [compose]. do 5 f_equal. lia.
Qed.

Lemma hex_fold l n : foldl (λ n d, n * 16 + digit_value d) n l = n * 16 ^ Z.of_nat (length l) + hex_value l.
Proof.
  revert n. unfold hex_value. induction l as [|d l IH]; intros n; cbn [foldl]; [cbn; lia|].
  rewrite IH, (IH (0 * 16 + _)). simpl length. rewrite Nat2Z.inj_succ, Z.pow_succ_r by lia. lia.
Qed.

Lemma hex_buffer_length value n : length (hex_buffer value n) = n.
Proof. unfold hex_buffer. rewrite length_fmap, length_seqZ. lia. Qed.

(** The hexadecimal numbers of kernel messages denote their values: reading back the digits that
    the console prints for a number gives this number, for 8 and 16 digits and numbers of 32 and 64 bits. *)
Theorem hex_roundtrip value n : 0 ≤ value < 16 ^ Z.of_nat n → hex_value (hex_buffer value n) = value.
Proof.
  intros Hv. transitivity (value mod 16 ^ Z.of_nat n); [|by apply Z.mod_small]. clear Hv. induction n as [|n IH].
  - cbn. symmetry. apply Z.mod_1_r.
  - rewrite hex_buffer_step. unfold hex_value. cbn [foldl]. rewrite hex_fold, IH, hex_buffer_length.
    assert (∀ x, 0 ≤ x mod 16 < 16) as Hb by (intros; apply Z.mod_pos_bound; lia). rewrite digit_value_hex by apply Hb.
    rewrite Z.shiftr_div_pow2 by lia. rewrite Z.pow_mul_r by lia. change (2 ^ 4) with 16.
    rewrite Nat2Z.inj_succ, Z.pow_succ_r by lia. rewrite (Z.mul_comm 16). rewrite Z.rem_mul_r by lia. lia.
Qed.

Lemma hex_roundtrip_witness : 0 ≤ 48879 < 16 ^ 8 ∧ hex_value (hex_buffer 48879 8) = 48879.
Proof. split; [split; reflexivity || discriminate|]. apply (hex_roundtrip 48879 8). split; reflexivity || discriminate. Defined.

(** ** Messages *)

Section effect.
Context {P : Type} `{!PortIO P} `{!UartLaws P}.
Implicit Types c : console P.

(** Enough turns for the transmitter to become free, now and after each character. *)
Definition enough (fuel : nat) (p : P) : Prop := (Nat.max (tx_busy p) tx_bound < fuel)%nat.

Definition sent c (message : list Z) : list Z := if com_present c then u8 <$> message else [].

Lemma console_write_effect fuel message c :
  enough fuel (com_ports c) →
  ∃ c', console_write_len fuel message c = Some c' ∧ com_present c' = com_present c
    ∧ rx (com_ports c') = rx (com_ports c) ∧ tx (com_ports c') = tx (com_ports c) ++ sent c message
    ∧ screen c' = foldl (λ v ch, vga_write_char ch v) (screen c) message
    ∧ fb c' = foldl (λ f ch, framebuffer_write_char ch f) (fb c) message
    ∧ enough fuel (com_ports c').
Proof.
  revert c. induction message as [|ch message IH]; intros c Hf; cbn [console_write_len].
  { exists c. split_and!; try done. unfold sent. case_if; by rewrite ?fmap_nil, app_nil_r. }
  unfold console_write_char. assert (∃ p', serial_write_char fuel (com_present c) ch (com_ports c) = Some p'
    ∧ rx p' = rx (com_ports c) ∧ tx p' = tx (com_ports c) ++ sent c [ch] ∧ enough fuel p') as (p'&->&Hr&Ht&Hf').
  { unfold sent, enough in *. destruct (com_present c).
    - destruct (write_char_effect fuel (com_ports c) ch ltac:(lia)) as (p'&?&?&?&?). exists p'. split_and!; try done. lia.
    - exists (com_ports c). by rewrite app_nil_r. }
  cbn [mbind option_bind]. match goal with |- context [console_write_len _ _ ?c1] => destruct (IH c1 Hf') as (c'&->&?&?&Ht'&?&?&?) end.
  exists c'. cbn [com_present com_ports screen fb] in *. split_and!; try congruence || done.
  rewrite Ht', Ht, <- app_assoc. f_equal. unfold sent. cbn [com_present]. by destruct (com_present c).
Qed.

(** The devices show the text that has been written: the screen [t], the framebuffer,
    if there is one, [g]. *)
Definition console_shows (t : text) (g : terminal) c : Prop :=
  shows t (screen c) ∧ (framebuffer_ready (mode (fb c)) = true → displays g (fb c)).

Lemma fold_shows t v message : shows t v → shows (foldl write_text t message) (foldl (λ v ch, vga_write_char ch v) v message).
Proof. revert t v. induction message as [|ch message IH]; intros t v Hs; [done|]. cbn [foldl]. by apply IH, write_char_shows. Qed.

Lemma fold_not_ready f message :
  framebuffer_ready (mode f) = false → foldl (λ f ch, framebuffer_write_char ch f) f message = f.
Proof.
  intros Hr. induction message as [|ch message IH]; [done|]. cbn [foldl].
  assert (framebuffer_write_char ch f = f) as -> by (unfold framebuffer_write_char; by rewrite Hr). done.
Qed.

Lemma fold_displays g f message :
  Forall is_u8 message → displays g f →
  follows f (foldl (λ t ch, term_write (framebuffer_rows (mode f)) (framebuffer_columns (mode f)) ch t) g message)
    (foldl (λ f ch, framebuffer_write_char ch f) f message).
Proof.
  intros Hb. revert g f. induction Hb as [|ch message Hch Hb IH]; intros g f Hd; [by split; [|split]|].
  cbn [foldl]. pose proof (write_char_follows ch g f Hch Hd) as Hf. pose proof Hf as (Hd1&Hm&_).
  eapply follows_trans; [exact Hf|]. specialize (IH _ _ Hd1). by rewrite Hm in IH.
Qed.

Lemma fold_mode f message : mode (foldl (λ f ch, framebuffer_write_char ch f) f message) = mode f.
Proof.
  assert (∀ f, mode (framebuffer_newline f) = mode f) as Hn by (intros f0; unfold framebuffer_newline; by case_if).
  assert (∀ ch f, mode (framebuffer_put ch f) = mode f) as Hp by (intros ch f0; unfold framebuffer_put; case_if; by rewrite ?Hn).
  revert f. induction message as [|ch message IH]; intros f; [done|]. cbn [foldl]. rewrite IH. unfold framebuffer_write_char.
  case_if; [done|]. case_if; [done|]. case_if; [apply Hn|]. case_if; [|apply Hp].
  apply (for_range_inv (λ f', mode f' = mode f)); [done|]. intros k f' _ <-. apply Hp.
Qed.

Lemma message_shows fuel message t g c :
  enough fuel (com_ports c) → Forall is_u8 message → console_shows t g c →
  ∃ c', console_write_len fuel message c = Some c'
    ∧ console_shows (foldl write_text t message)
        (foldl (λ g ch, term_write (framebuffer_rows (mode (fb c))) (framebuffer_columns (mode (fb c))) ch g) g message) c'
    ∧ tx (com_ports c') = tx (com_ports c) ++ (if com_present c then message else [])
    ∧ rx (com_ports c') = rx (com_ports c) ∧ mode (fb c') = mode (fb c) ∧ com_present c' = com_present c.
Proof.
  intros Hf Hb [Hs Hd]. destruct (console_write_effect fuel message c Hf) as (c'&Hw&Hp&Hr&Ht&Hv&Hfb&_). exists c'. split; [done|].
  split; [split|split; [|split; [done|split; [by rewrite Hfb, fold_mode|done]]]].
  - rewrite Hv. by apply fold_shows.
  - rewrite Hfb. destruct (framebuffer_ready (mode (fb c))) eqn:E; [|rewrite fold_not_ready by done; by rewrite E].
    intros _. apply (fold_displays g (fb c) message Hb (Hd eq_refl)).
  - rewrite Ht. f_equal. unfold sent. destruct (com_present c); [|done].
    clear -Hb. induction Hb as [|ch message Hch Hb IH]; [done|]. rewrite fmap_cons, IH. by rewrite u8_small.
Qed.

(** C26: A message reaches all outputs.  Writing it ends, within as many turns of the waiting
    loop as the serial chip may be busy; its bytes are sent over the serial line, if there is one, and
    the text screen and the framebuffer go on from what they showed with the characters of the
    message.  Nothing that waits at the serial line is lost. *)
Theorem console_write_shows fuel message t g c :
  enough fuel (com_ports c) → Forall is_u8 message → console_shows t g c →
  ∃ c', console_write_len fuel message c = Some c'
    ∧ console_shows (foldl write_text t message)
        (foldl (λ g ch, term_write (framebuffer_rows (mode (fb c))) (framebuffer_columns (mode (fb c))) ch g) g message) c'
    ∧ tx (com_ports c') = tx (com_ports c) ++ (if com_present c then message else [])
    ∧ rx (com_ports c') = rx (com_ports c).
Proof. intros. destruct (message_shows fuel message t g c) as (c'&?&?&?&?&_); try done. by exists c'. Qed.
End effect.

(** ** Starting the framebuffer *)

(** The pictures that the code means to accept, and those it can show: the lines hold
    their pixels and the window for device memory has room. *)
Definition accepted (info : boot_framebuffer_info) : bool :=
  negb (present info =? 0) && (physical_address info <=? 4294967295) && (fb_type info =? MULTIBOOT_FRAMEBUFFER_TYPE_RGB)
  && negb (pitch info * height info =? 0) && (2 <=? (bpp info + 7) / 8) && ((bpp info + 7) / 8 <=? 4)
  && (8 <=? width info) && (16 <=? height info).

Record picture_fits (info : boot_framebuffer_info) : Prop := {
  pf_fields : 0 ≤ physical_address info ∧ 0 ≤ width info ∧ 0 ≤ pitch info ∧ is_u8 (bpp info);
  pf_line : width info * ((bpp info + 7) / 8) ≤ pitch info;
  pf_height : 16 < height info;
  pf_size : pitch info * height info ≤ KERNEL_MMIO_LIMIT - KERNEL_MMIO_BASE;
  pf_end : physical_address info + pitch info * height info + 4095 < 4294967296;
}.

Section start.
Context {P : Type} `{!PortIO P} `{!UartLaws P}.
Implicit Types c : console P.

(** A message while the framebuffer is not ready. *)
Lemma message_keeps fuel message c :
  enough fuel (com_ports c) → framebuffer_ready (mode (fb c)) = false →
  ∃ c', console_write_len fuel message c = Some c' ∧ fb c' = fb c ∧ enough fuel (com_ports c').
Proof.
  intros Hf Hr. destruct (console_write_effect fuel message c Hf) as (c'&->&_&_&_&_&Hfb&He). exists c'. split; [done|].
  split; [|done]. by rewrite Hfb, fold_not_ready.
Qed.

Lemma line_keeps fuel message c :
  enough fuel (com_ports c) → framebuffer_ready (mode (fb c)) = false →
  ∃ c', console_line fuel message c = Some c' ∧ fb c' = fb c.
Proof.
  intros Hf Hr. unfold console_line, console_write, console_newline. destruct (message_keeps fuel (c_bytes message) c Hf Hr) as (c1&->&E1&Hf1).
  cbn [mbind option_bind]. destruct (message_keeps fuel [10] c1 Hf1 ltac:(by rewrite E1)) as (c2&->&E2&_). exists c2. split; [done|congruence].
Qed.

Lemma number_keeps fuel message value c :
  enough fuel (com_ports c) → framebuffer_ready (mode (fb c)) = false →
  ∃ c', (c ← console_write fuel message c; c ← console_write_hex32 fuel value c; console_newline fuel c) = Some c' ∧ fb c' = fb c.
Proof.
  intros Hf Hr. unfold console_write, console_write_hex32, console_newline. destruct (message_keeps fuel (c_bytes message) c Hf Hr) as (c1&->&E1&Hf1).
  cbn [mbind option_bind]. destruct (message_keeps fuel (hex_buffer value 8) c1 Hf1 ltac:(by rewrite E1)) as (c2&->&E2&Hf2).
  cbn [mbind option_bind]. destruct (message_keeps fuel [10] c2 Hf2 ltac:(by rewrite E2, E1)) as (c3&->&E3&_). exists c3. split; [done|congruence].
Qed.

(** What [framebuffer_init] leaves: a terminal that shows the message, in a picture that lies in the
    window for device memory, or no framebuffer and an unchanged video memory. *)
Definition started (info : boot_framebuffer_info) (ready : bool) c c' : Prop :=
  framebuffer_ready (mode (fb c')) = ready ∧
  if ready then
    let m := mode (fb c') in
    displays (foldl (λ t ch, term_write (framebuffer_rows m) (framebuffer_columns m) ch t) blank_terminal (ready_message info m)) (fb c')
    ∧ KERNEL_MMIO_BASE ≤ framebuffer_base m ∧ framebuffer_base m + pitch info * height info ≤ KERNEL_MMIO_LIMIT
    ∧ same_outside m (video (fb c)) (video (fb c'))
  else video (fb c') = video (fb c).

Lemma ready_message_bytes info m : Forall is_u8 (ready_message info m).
Proof.
  assert (∀ value n, Forall is_u8 (hex_buffer value n)) as Hh.
  { intros value n. induction n as [|n IH]; [constructor|]. rewrite hex_buffer_step. constructor; [|done].
    pose proof (Z.mod_pos_bound (Z.shiftr value (4 * Z.of_nat n)) 16). unfold hex_digit, is_u8. case_if; lia. }
  unfold ready_message. repeat apply Forall_app_2; try apply Hh; apply (bool_decide_unpack _); by vm_compute.
Qed.

(** The mode that is used is one the drawing routines can handle. *)
Lemma accepted_mode_ok info base :
  accepted info = true → picture_fits info → KERNEL_MMIO_BASE ≤ base → base + pitch info * height info ≤ KERNEL_MMIO_LIMIT →
  mode_ok (with_colors (framebuffer_pack_color 16 18 22 (mode_of info base ((bpp info + 7) / 8)))
             (framebuffer_pack_color 232 236 241 (mode_of info base ((bpp info + 7) / 8))) (mode_of info base ((bpp info + 7) / 8))).
Proof.
  intros Ha [Hf Hl Hh Hs He] Hb Hb'. unfold accepted in Ha. zbool. unfold KERNEL_MMIO_BASE, KERNEL_MMIO_LIMIT in *.
  split; cbn [with_colors mode_of framebuffer_ready framebuffer_base framebuffer_pitch framebuffer_height framebuffer_width
    framebuffer_bytes_per_pixel framebuffer_columns framebuffer_rows]; try done; try lia.
  - unfold FRAMEBUFFER_FONT_WIDTH. split; [done|]. apply Z.div_str_pos. lia.
  - unfold FRAMEBUFFER_FONT_HEIGHT. split; [done|]. apply Z.div_str_pos. lia.
Qed.

Lemma enable_spec fuel info base c c1 :
  enough fuel (com_ports c1) → picture_fits info → KERNEL_MMIO_BASE ≤ base → base + pitch info * height info ≤ KERNEL_MMIO_LIMIT →
  fb c1 = with_mode (bpp_mode ((bpp info + 7) / 8)) (framebuffer_reset_state (fb c)) →
  (present info =? 0) = false → (fb_type info =? MULTIBOOT_FRAMEBUFFER_TYPE_RGB) = true → (pitch info * height info =? 0) = false →
  (2 <=? (bpp info + 7) / 8) = true → ((bpp info + 7) / 8 <=? 4) = true →
  ∃ c', framebuffer_enable fuel info base ((bpp info + 7) / 8) c1 = Some c' ∧ started info ((8 <=? width info) && (16 <=? height info)) c c'.
Proof.
  intros Hf Hp Hb1 Hb2 Hfb Ep Et Es E2 E4. pose proof Hp as [(Hpa&Hw&Hpi&Hbpp) _ Hh Hs He]. unfold framebuffer_enable.
  set (m := mode_of info base ((bpp info + 7) / 8)). set (c2 := with_fb (with_mode m (fb c1)) c1).
  change (framebuffer_columns m) with (width info / 8). change (framebuffer_rows m) with (height info / 16).
  rewrite (proj2 (Z.leb_le 16 _)), andb_true_r by lia.
  assert (height info / 16 =? 0 = false) as ->. { apply Z.eqb_neq. assert (0 < height info / 16) by (apply Z.div_str_pos; lia). lia. }
  rewrite orb_false_r. destruct (Z.leb_spec 8 (width info)) as [H8|H8].
  - assert (width info / 8 =? 0 = false) as ->. { apply Z.eqb_neq. assert (0 < width info / 8) by (apply Z.div_str_pos; lia). lia. }
    cbv zeta. set (m1 := with_colors _ _ m). set (f := with_screen _ _ _ _).
    assert (mode_ok m1) as Hm1.
    { apply accepted_mode_ok; try done. unfold accepted. rewrite Ep, Et, Es, E2, E4, !(proj2 (Z.leb_le _ _)) by (lia || nia). done. }
    assert (displays blank_terminal f) as Hd by (unfold f, c2; cbn [fb with_fb]; rewrite Hfb; by apply cleared_displays).
    destruct (console_write_effect fuel (ready_message info m1) (with_fb f c2) Hf) as (c'&->&_&_&_&_&Hc'&_).
    exists c'. split; [done|]. destruct (fold_displays blank_terminal f _ (ready_message_bytes info m1) Hd) as (Hd'&Hm'&Ho).
    change (fb (with_fb f c2)) with f in Hc'. rewrite <- Hc' in Hd', Hm', Ho. change (mode f) with m1 in *.
    split; [by rewrite Hm'|]. cbv zeta. rewrite Hm'. split; [exact Hd'|]. split; [done|]. split; [done|].
    eapply same_outside_trans; [|exact Ho]. pose proof (height_bound _ Hm1).
    destruct (clear_rows_paints m1 Hm1 (video (fb c)) 0 (framebuffer_height m1)) as [Hcl _]; [lia..|].
    unfold f, c2. cbn [fb with_fb with_mode video with_screen]. rewrite Hfb. exact Hcl.
  - rewrite Z.div_small by lia. cbn [Z.eqb].
    destruct (line_keeps fuel "framebuffer: mode too small for console" c2 Hf eq_refl) as (c3&->&E3). cbn [mbind option_bind].
    eexists. split; [done|]. split; [done|]. cbn [fb with_fb framebuffer_reset_state video]. rewrite E3. unfold c2. cbn [fb with_fb with_mode video]. by rewrite Hfb.
Qed.

(** [framebuffer_init] always returns.  It turns the framebuffer on exactly when the description is
    one it accepts and the window for device memory can map it; then the picture lies in this window,
    shows the message that the console is ready on an empty terminal, and no other byte has been written.
    Otherwise the framebuffer stays off and the video memory is untouched. *)
Theorem framebuffer_init_spec fuel info next s c :
  enough fuel (com_ports c) → picture_fits info → KERNEL_MMIO_BASE ≤ next ≤ KERNEL_MMIO_LIMIT →
  let '(base, next1, s1) := mmio_map_region (physical_address info) (pitch info * height info) next s in
  ∃ c' next' s', framebuffer_init fuel (Some info) next s c = Some (c', next', s')
    ∧ started info (accepted info && negb (base =? 0)) c c'.
Proof.
  intros Hf Hp Hn. destruct (mmio_map_region _ _ _ _) as [[base next1] s1] eqn:Em. unfold framebuffer_init, accepted.
  pose proof Hp as [(Hpa&Hw&Hpi&Hbpp) _ Hh Hs He]. unfold KERNEL_MMIO_BASE, KERNEL_MMIO_LIMIT in Hs. unfold is_u8 in Hbpp.
  assert (0 ≤ pitch info * height info) by nia.
  set (c0 := with_fb (framebuffer_reset_state (fb c)) c). assert (framebuffer_ready (mode (fb c0)) = false) as Hr0 by done.
  assert (∀ c1, fb c1 = fb c0 → started info false c c1) as Hfail by (intros c1 E; split; by rewrite E).
  assert (∀ c2, framebuffer_ready (mode (fb c2)) = false → video (fb c2) = video (fb c) → started info false c c2) as Hoff by done.
  destruct (present info =? 0) eqn:Ep; cbn [negb andb].
  { destruct (line_keeps fuel "framebuffer: unavailable" c0 Hf Hr0) as (c1&->&E1). cbn [mbind option_bind]. eauto 10. }
  cbv zeta. rewrite (proj2 (Z.ltb_ge _ _)) by lia. rewrite (proj2 (Z.leb_le (physical_address info) _)) by lia. cbn [negb andb].
  destruct (fb_type info =? MULTIBOOT_FRAMEBUFFER_TYPE_RGB) eqn:Et; cbn [negb andb];
    [|destruct (number_keeps fuel "framebuffer: unsupported type 0x" (fb_type info) c0 Hf Hr0) as (c1&->&E1); cbn [mbind option_bind]; by eauto 10].
  rewrite (u64_small (pitch info * height info)) by lia. rewrite (proj2 (Z.ltb_ge _ (pitch info * height info))) by lia. rewrite orb_false_r.
  destruct (pitch info * height info =? 0) eqn:Es; cbn [negb andb].
  { destruct (line_keeps fuel "framebuffer: invalid size" c0 Hf Hr0) as (c1&->&E1). cbn [mbind option_bind]. eauto 10. }
  rewrite (u32_small (bpp info + 7)) by lia. set (bytes := (bpp info + 7) / 8).
  set (c1 := with_fb (with_mode (bpp_mode bytes) (fb c0)) c0). assert (framebuffer_ready (mode (fb c1)) = false) as Hr1 by done.
  assert (∀ c2, fb c2 = fb c1 → started info false c c2) as Hfail1 by (intros c2 E; by apply Hoff; rewrite E).
  destruct (bytes <? 2) eqn:E2; [|destruct (4 <? bytes) eqn:E4]; cbn [orb].
  { rewrite (proj2 (Z.leb_gt 2 bytes)) by lia. cbn [negb andb].
    destruct (number_keeps fuel "framebuffer: unsupported bpp 0x" (bpp info) c1 Hf Hr1) as (c2&->&Ec2). cbn [mbind option_bind]. eauto 10. }
  { rewrite (proj2 (Z.leb_gt bytes 4)) by lia. rewrite andb_false_r. cbn [negb andb].
    destruct (number_keeps fuel "framebuffer: unsupported bpp 0x" (bpp info) c1 Hf Hr1) as (c2&->&Ec2). cbn [mbind option_bind]. eauto 10. }
  rewrite !u32_small, Em by lia. rewrite (proj2 (Z.leb_le 2 bytes)), (proj2 (Z.leb_le bytes 4)) by lia. cbn [negb andb].
  destruct (base =? 0) eqn:Eb.
  { destruct (line_keeps fuel "framebuffer: map failed" c1 Hf Hr1) as (c2&->&Ec2). cbn [mbind option_bind]. rewrite andb_false_r. eauto 10. }
  rewrite andb_true_r.
  destruct (mmio_map_region_bounds (physical_address info) (pitch info * height info) next s base next1 s1) as [Hb1 Hb2];
    [lia|unfold KERNEL_MMIO_LIMIT, KERNEL_MMIO_BASE; lia|lia|done|done|lia|].
  destruct (enable_spec fuel info base c c1) as (c'&Ee&Hs'); try done; [by apply Z.leb_le; lia..|]. fold bytes in Ee. rewrite Ee.
  cbn [mbind option_bind]. eauto 10.
Qed.
End start.

(** ** Examples *)

(** A console on the serial chip of [InputKeys], with an empty screen and no framebuffer. *)
Definition blank_vga : vga := vga_init {| vga_buffer := λ _, 0; cursor_row := 7; cursor_column := 9 |}.
Definition off_framebuffer : framebuffer :=
  {| mode := framebuffer_reset_mode; framebuffer_cursor_row := 0; framebuffer_cursor_column := 0; video := λ _, 0 |}.
Definition example_console : console port_devices :=
  {| com_present := true; com_ports := {| pd_rx := [120]; pd_tx := [62]; pd_busy := 1; pd_kbd := [] |};
     screen := blank_vga; fb := off_framebuffer |}.

Lemma console_write_shows_witness :
  ∃ c', console_write_len 3 [72; 105; 10] example_console = Some c'
    ∧ shows ([[72; 105]], []) (screen c') ∧ pd_tx (com_ports c') = [62; 72; 105; 10] ∧ pd_rx (com_ports c') = [120].
Proof.
  destruct (console_write_shows 3 [72; 105; 10] ([], []) blank_terminal example_console) as (c'&Hw&[Hs _]&Ht&Hr);
    [unfold enough; cbn; lia|apply (bool_decide_unpack _); by vm_compute|split; [apply init_shows|done]|].
  exists c'. split; [exact Hw|]. split; [exact Hs|]. split; [exact Ht|exact Hr].
Defined.

(** A picture of 64 by 48 pixels. *)
Definition example_info : boot_framebuffer_info :=
  {| physical_address := 4026531840; pitch := 256; width := 64; height := 48; bpp := 32; fb_type := 1;
     rgb := {| red_field_position := 16; red_mask_size := 8; green_field_position := 8; green_mask_size := 8;
               blue_field_position := 0; blue_mask_size := 8 |}; present := 1 |}.

Lemma example_mapped : negb ((mmio_map_region 4026531840 12288 KERNEL_MMIO_BASE w_vm).1.1 =? 0) = true.
Proof. by vm_compute. Qed.

Lemma framebuffer_init_spec_witness :
  ∃ c' next' s', framebuffer_init 4 (Some example_info) KERNEL_MMIO_BASE w_vm example_console = Some (c', next', s')
    ∧ started example_info true example_console c'.
Proof.
  pose proof (framebuffer_init_spec 4 example_info KERNEL_MMIO_BASE w_vm example_console) as H.
  pose proof example_mapped as Hm. change (pitch example_info * height example_info) with 12288 in H.
  change (physical_address example_info) with 4026531840 in H.
  destruct (mmio_map_region 4026531840 12288 KERNEL_MMIO_BASE w_vm) as [[base next1] s1]. cbn [fst] in Hm.
  destruct H as (c'&next'&s'&E&Hs).
  - unfold enough. cbn. lia.
  - split; [unfold is_u8; cbn; lia|by vm_compute|by vm_compute|by vm_compute|by vm_compute].
  - unfold KERNEL_MMIO_BASE, KERNEL_MMIO_LIMIT. lia.
  - exists c', next', s'. split; [exact E|]. rewrite Hm in Hs. exact Hs.
Defined.
