(* ===== verification/Hyperv.v ===== *)
(** * Platform and Hyper-V guest interface ([src/kernel/platform.c], [src/kernel/hyperv.c])

    The processor's [cpuid] and model-specific registers, the hypercall page and the pages
    shared with the hypervisor.  The hypervisor is the interface [Hypervisor].  What it writes
    to shared memory becomes visible when the guest looks for a message ([hv_run]).  A shared
    page is named by its physical address; its pointer is null exactly while this is 0.
    Console messages are left out. *)

From S2P Require Import Prelude Mem Palloc.

Local Open Scope Z_scope.
Local Open Scope c_scope.

Inductive platform_kind := PLATFORM_KIND_GENERIC | PLATFORM_KIND_HYPERV | PLATFORM_KIND_HYPERVISOR_OTHER.

Definition HV_X64_MSR_GUEST_OS_ID : Z := 0x40000000.
Definition HV_X64_MSR_HYPERCALL : Z := 0x40000001.
Definition HV_X64_MSR_VP_INDEX : Z := 0x40000002.
Definition HV_X64_MSR_SCONTROL : Z := 0x40000080.
Definition HV_X64_MSR_SIEFP : Z := 0x40000082.
Definition HV_X64_MSR_SIMP : Z := 0x40000083.
Definition HV_X64_MSR_EOM : Z := 0x40000084.
Definition HV_X64_MSR_SINT2 : Z := 0x40000092.
Definition HV_X64_MSR_HYPERCALL_ENABLE : Z := 1.
Definition HV_X64_MSR_HYPERCALL_PAGE_MASK : Z := 0xFFFFFFFFFFFFF000.
Definition HV_HYPERV_CPUID_VENDOR_AND_MAX_FUNCTIONS : Z := 0x40000000.
Definition HV_HYPERV_CPUID_INTERFACE : Z := 0x40000001.
Definition HV_HYPERV_CPUID_FEATURES : Z := 0x40000003.
Definition HV_HYPERV_INTERFACE_HV1 : Z := 0x31237648.
Definition HYPERV_RIVERIX_VENDOR_ID : Z := 0x8300.
Definition HYPERV_CPUID_FEAT_EAX_SYNIC : Z := 4.
Definition HYPERV_CPUID_FEAT_EBX_POST_MESSAGES : Z := 16.
Definition HYPERV_CPUID_FEAT_EBX_SIGNAL_EVENTS : Z := 32.
Definition HV_SYNIC_CONTROL_ENABLE : Z := 1.
Definition HV_SYNIC_SIMP_ENABLE : Z := 1.
Definition HV_SYNIC_SINT_MASKED : Z := 0x10000.
Definition HV_SYNIC_SINT_VECTOR_MASK : Z := 255.
Definition HYPERV_MESSAGE_VECTOR : Z := 0xF2.
Definition HVCALL_POST_MESSAGE : Z := 0x5C.
Definition HVCALL_SIGNAL_EVENT : Z := 0x5D.
Definition HV_HYPERCALL_FAST_BIT : Z := 0x10000.
Definition HV_HYPERCALL_RESULT_MASK : Z := 0xFFFF.
Definition HV_STATUS_SUCCESS : Z := 0.
Definition HV_STATUS_INSUFFICIENT_MEMORY : Z := 0xB.
Definition HV_STATUS_INVALID_CONNECTION_ID : Z := 0x12.
Definition HV_STATUS_INSUFFICIENT_BUFFERS : Z := 0x13.
Definition HV_MESSAGE_PAYLOAD_BYTE_COUNT : Z := 240.
Definition HV_SYNIC_SINT_COUNT : Z := 16.
Definition HYPERV_VMBUS_SINT_INDEX : Z := 2.
Definition sizeof_hyperv_message : Z := 256.

(** The instructions of the processor that reach the hypervisor, and the hypervisor: [hv_call]
    takes the control word and the physical addresses of input and output and reads memory,
    [hv_fast_call] takes its input in registers, and [hv_run] is what the hypervisor writes to
    the pages it shares with the guest.  The hypervisor really writes at any time; the model lets the guest
    see it at one point, where [hyperv_poll_message] looks for a message, so a write that
    arrives in the middle of another driver call is not covered. *)
Class Hypervisor (H : Type) := {
  cpuid : Z → H → Z * Z * Z * Z;
  rdmsr : Z → H → Z;
  wrmsr : Z → Z → H → H;
  hv_call : Z → Z → Z → carray Z → H → Z * H;
  hv_fast_call : Z → Z → H → Z * H;
  hv_run : carray Z → H → carray Z * H;
}.

(** The statics of the file. *)
Record hyperv := {
  hyperv_max_leaf : Z;
  hyperv_interface_signature : Z;
  hyperv_features : Z * Z * Z * Z;
  hyperv_hypercall_page : Z;
  hyperv_post_message_page : Z;
  hyperv_message_page : Z;
  hyperv_event_page : Z;
  hyperv_monitor_page_phys : carray Z;
  hyperv_guest_id_value : Z;
  hyperv_guest_ready : bool;
  hyperv_synic_active : bool;
}.

Definition set_max_leaf (v : Z) (s : hyperv) : hyperv :=
  {| hyperv_max_leaf := v; hyperv_interface_signature := hyperv_interface_signature s; hyperv_features := hyperv_features s;
     hyperv_hypercall_page := hyperv_hypercall_page s; hyperv_post_message_page := hyperv_post_message_page s;
     hyperv_message_page := hyperv_message_page s; hyperv_event_page := hyperv_event_page s;
     hyperv_monitor_page_phys := hyperv_monitor_page_phys s; hyperv_guest_id_value := hyperv_guest_id_value s;
     hyperv_guest_ready := hyperv_guest_ready s; hyperv_synic_active := hyperv_synic_active s |}.
Definition set_signature (v : Z) (s : hyperv) : hyperv :=
  {| hyperv_max_leaf := hyperv_max_leaf s; hyperv_interface_signature := v; hyperv_features := hyperv_features s;
     hyperv_hypercall_page := hyperv_hypercall_page s; hyperv_post_message_page := hyperv_post_message_page s;
     hyperv_message_page := hyperv_message_page s; hyperv_event_page := hyperv_event_page s;
     hyperv_monitor_page_phys := hyperv_monitor_page_phys s; hyperv_guest_id_value := hyperv_guest_id_value s;
     hyperv_guest_ready := hyperv_guest_ready s; hyperv_synic_active := hyperv_synic_active s |}.
Definition set_features (v : Z * Z * Z * Z) (s : hyperv) : hyperv :=
  {| hyperv_max_leaf := hyperv_max_leaf s; hyperv_interface_signature := hyperv_interface_signature s; hyperv_features := v;
     hyperv_hypercall_page := hyperv_hypercall_page s; hyperv_post_message_page := hyperv_post_message_page s;
     hyperv_message_page := hyperv_message_page s; hyperv_event_page := hyperv_event_page s;
     hyperv_monitor_page_phys := hyperv_monitor_page_phys s; hyperv_guest_id_value := hyperv_guest_id_value s;
     hyperv_guest_ready := hyperv_guest_ready s; hyperv_synic_active := hyperv_synic_active s |}.
Definition set_hypercall_page (v : Z) (s : hyperv) : hyperv :=
  {| hyperv_max_leaf := hyperv_max_leaf s; hyperv_interface_signature := hyperv_interface_signature s;
     hyperv_features := hyperv_features s; hyperv_hypercall_page := v;
     hyperv_post_message_page := hyperv_post_message_page s; hyperv_message_page := hyperv_message_page s;
     hyperv_event_page := hyperv_event_page s; hyperv_monitor_page_phys := hyperv_monitor_page_phys s;
     hyperv_guest_id_value := hyperv_guest_id_value s; hyperv_guest_ready := hyperv_guest_ready s;
     hyperv_synic_active := hyperv_synic_active s |}.
Definition set_post_page (v : Z) (s : hyperv) : hyperv :=
  {| hyperv_max_leaf := hyperv_max_leaf s; hyperv_interface_signature := hyperv_interface_signature s;
     hyperv_features := hyperv_features s; hyperv_hypercall_page := hyperv_hypercall_page s; hyperv_post_message_page := v;
     hyperv_message_page := hyperv_message_page s; hyperv_event_page := hyperv_event_page s;
     hyperv_monitor_page_phys := hyperv_monitor_page_phys s; hyperv_guest_id_value := hyperv_guest_id_value s;
     hyperv_guest_ready := hyperv_guest_ready s; hyperv_synic_active := hyperv_synic_active s |}.
Definition set_message_page (v : Z) (s : hyperv) : hyperv :=
  {| hyperv_max_leaf := hyperv_max_leaf s; hyperv_interface_signature := hyperv_interface_signature s;
     hyperv_features := hyperv_features s; hyperv_hypercall_page := hyperv_hypercall_page s;
     hyperv_post_message_page := hyperv_post_message_page s; hyperv_message_page := v;
     hyperv_event_page := hyperv_event_page s; hyperv_monitor_page_phys := hyperv_monitor_page_phys s;
     hyperv_guest_id_value := hyperv_guest_id_value s; hyperv_guest_ready := hyperv_guest_ready s;
     hyperv_synic_active := hyperv_synic_active s |}.
Definition set_event_page (v : Z) (s : hyperv) : hyperv :=
  {| hyperv_max_leaf := hyperv_max_leaf s; hyperv_interface_signature := hyperv_interface_signature s;
     hyperv_features := hyperv_features s; hyperv_hypercall_page := hyperv_hypercall_page s;
     hyperv_post_message_page := hyperv_post_message_page s; hyperv_message_page := hyperv_message_page s;
     hyperv_event_page := v; hyperv_monitor_page_phys := hyperv_monitor_page_phys s;
     hyperv_guest_id_value := hyperv_guest_id_value s; hyperv_guest_ready := hyperv_guest_ready s;
     hyperv_synic_active := hyperv_synic_active s |}.
Definition set_monitor_pages (v : carray Z) (s : hyperv) : hyperv :=
  {| hyperv_max_leaf := hyperv_max_leaf s; hyperv_interface_signature := hyperv_interface_signature s;
     hyperv_features := hyperv_features s; hyperv_hypercall_page := hyperv_hypercall_page s;
     hyperv_post_message_page := hyperv_post_message_page s; hyperv_message_page := hyperv_message_page s;
     hyperv_event_page := hyperv_event_page s; hyperv_monitor_page_phys := v;
     hyperv_guest_id_value := hyperv_guest_id_value s; hyperv_guest_ready := hyperv_guest_ready s;
     hyperv_synic_active := hyperv_synic_active s |}.
Definition set_guest_id (v : Z) (s : hyperv) : hyperv :=
  {| hyperv_max_leaf := hyperv_max_leaf s; hyperv_interface_signature := hyperv_interface_signature s;
     hyperv_features := hyperv_features s; hyperv_hypercall_page := hyperv_hypercall_page s;
     hyperv_post_message_page := hyperv_post_message_page s; hyperv_message_page := hyperv_message_page s;
     hyperv_event_page := hyperv_event_page s; hyperv_monitor_page_phys := hyperv_monitor_page_phys s;
     hyperv_guest_id_value := v; hyperv_guest_ready := hyperv_guest_ready s; hyperv_synic_active := hyperv_synic_active s |}.
Definition set_guest_ready (v : bool) (s : hyperv) : hyperv :=
  {| hyperv_max_leaf := hyperv_max_leaf s; hyperv_interface_signature := hyperv_interface_signature s;
     hyperv_features := hyperv_features s; hyperv_hypercall_page := hyperv_hypercall_page s;
     hyperv_post_message_page := hyperv_post_message_page s; hyperv_message_page := hyperv_message_page s;
     hyperv_event_page := hyperv_event_page s; hyperv_monitor_page_phys := hyperv_monitor_page_phys s;
     hyperv_guest_id_value := hyperv_guest_id_value s; hyperv_guest_ready := v;
     hyperv_synic_active := hyperv_synic_active s |}.
Definition set_synic_active (v : bool) (s : hyperv) : hyperv :=
  {| hyperv_max_leaf := hyperv_max_leaf s; hyperv_interface_signature := hyperv_interface_signature s;
     hyperv_features := hyperv_features s; hyperv_hypercall_page := hyperv_hypercall_page s;
     hyperv_post_message_page := hyperv_post_message_page s; hyperv_message_page := hyperv_message_page s;
     hyperv_event_page := hyperv_event_page s; hyperv_monitor_page_phys := hyperv_monitor_page_phys s;
     hyperv_guest_id_value := hyperv_guest_id_value s; hyperv_guest_ready := hyperv_guest_ready s;
     hyperv_synic_active := v |}.

(** At start-up. *)
Definition hyperv_bss : hyperv :=
  {| hyperv_max_leaf := 0; hyperv_interface_signature := 0; hyperv_features := (0, 0, 0, 0); hyperv_hypercall_page := 0;
     hyperv_post_message_page := 0; hyperv_message_page := 0; hyperv_event_page := 0; hyperv_monitor_page_phys := λ _, 0;
     hyperv_guest_id_value := 0; hyperv_guest_ready := false; hyperv_synic_active := false |}.

Section hyperv.
Context {H : Type} `{!Hypervisor H}.

(** The guest with its physical memory, its page allocator and its hypervisor. *)
Record guest := { current_platform : platform_kind; hv : hyperv; pages : palloc; pmem : carray Z; host : H }.

Implicit Types g : guest.

Definition upd_hv (f : hyperv → hyperv) g : guest :=
  {| current_platform := current_platform g; hv := f (hv g); pages := pages g; pmem := pmem g; host := host g |}.
Definition set_pages (p : palloc) g : guest :=
  {| current_platform := current_platform g; hv := hv g; pages := p; pmem := pmem g; host := host g |}.
Definition set_pmem (m : carray Z) g : guest :=
  {| current_platform := current_platform g; hv := hv g; pages := pages g; pmem := m; host := host g |}.
Definition set_host (h : H) g : guest :=
  {| current_platform := current_platform g; hv := hv g; pages := pages g; pmem := pmem g; host := h |}.
Definition set_platform (p : platform_kind) g : guest :=
  {| current_platform := p; hv := hv g; pages := pages g; pmem := pmem g; host := host g |}.

(** ** platform.c *)

(** The letters of ["Microsoft Hv"]. *)
Definition microsoft_hv : list Z := [77; 105; 99; 114; 111; 115; 111; 102; 116; 32; 72; 118].

(** [strings_equal] on strings that end with a zero in the buffers. *)
Fixpoint strings_equal_from (fuel : nat) (left right : carray Z) (index : Z) : option bool :=
  match fuel with
  | O => None
  | S fuel =>
      if truthy (left index) && truthy (right index) then
        if negb (left index =? right index) then Some false
        else strings_equal_from fuel left right (index ⊞ 1)
      else Some (left index =? right index)
  end.

(** The vendor's name in the registers, with a zero behind it. *)
Definition vendor_bytes (ebx ecx edx : Z) : carray Z :=
  <[12 := 0]> (store32 (store32 (store32 (λ _, 0) 0 ebx) 4 ecx) 8 edx).
Definition literal_bytes (s : list Z) : carray Z := λ i, nth (Z.to_nat i) s 0.

Definition platform_init g : guest :=
  let '(_, _, ecx, _) := cpuid 1 (host g) in
  if negb (Z.testbit ecx 31) then set_platform PLATFORM_KIND_GENERIC g
  else
    let '(_, ebx, ecx, edx) := cpuid 0x40000000 (host g) in
    match strings_equal_from 13 (vendor_bytes ebx ecx edx) (literal_bytes microsoft_hv) 0 with
    | Some true => set_platform PLATFORM_KIND_HYPERV g
    | _ => set_platform PLATFORM_KIND_HYPERVISOR_OTHER g
    end.

Definition platform_is_hyperv g : bool :=
  match current_platform g with PLATFORM_KIND_HYPERV => true | _ => false end.

(** ** hyperv.c *)

Definition hyperv_result (status : Z) : Z := u32 (Z.land status HV_HYPERCALL_RESULT_MASK).

(** A page for [set] to keep, zeroed. *)
Definition hyperv_allocate_page (set : Z → hyperv → hyperv) g : bool * guest :=
  let '(physical, p) := palloc_alloc_page (pages g) in
  let g := set_pages p g in
  if physical =? 0 then (false, g)
  else (true, upd_hv (set physical) (set_pmem (zero_bytes (pmem g) physical PAGE_SIZE) g)).

Definition hyperv_build_guest_id : Z :=
  Z.lor (Z.lor (Z.shiftl HYPERV_RIVERIX_VENDOR_ID 48) (Z.shiftl 1 16)) 1.

Definition hyperv_collect_cpuid_state g : guest :=
  let '(max_leaf, _, _, _) := cpuid HV_HYPERV_CPUID_VENDOR_AND_MAX_FUNCTIONS (host g) in
  let signature :=
    if HV_HYPERV_CPUID_INTERFACE <=? max_leaf then
      let '(eax, _, _, _) := cpuid HV_HYPERV_CPUID_INTERFACE (host g) in eax
    else 0 in
  let features :=
    if HV_HYPERV_CPUID_FEATURES <=? max_leaf then cpuid HV_HYPERV_CPUID_FEATURES (host g) else (0, 0, 0, 0) in
  upd_hv (λ s, set_features features (set_signature signature (set_max_leaf max_leaf s))) g.

Definition write_msr (msr value : Z) g : guest := set_host (wrmsr msr value (host g)) g.

Definition page_msr (physical enable : Z) : Z := Z.lor (Z.land physical HV_X64_MSR_HYPERCALL_PAGE_MASK) enable.

Definition hyperv_setup_hypercall_page g : bool * guest :=
  let '(ok, g) := hyperv_allocate_page set_hypercall_page g in
  if negb ok then (false, g)
  else
    let g := upd_hv (set_guest_id hyperv_build_guest_id) g in
    let g := write_msr HV_X64_MSR_GUEST_OS_ID hyperv_build_guest_id g in
    let g := write_msr HV_X64_MSR_HYPERCALL (page_msr (hyperv_hypercall_page (hv g)) HV_X64_MSR_HYPERCALL_ENABLE) g in
    (truthy (Z.land (rdmsr HV_X64_MSR_HYPERCALL (host g)) HV_X64_MSR_HYPERCALL_ENABLE), g).

(** The five pages in turn, until one is missing. *)
Fixpoint allocate_pages (sets : list (Z → hyperv → hyperv)) g : bool * guest :=
  match sets with
  | [] => (true, g)
  | set :: sets => let '(ok, g) := hyperv_allocate_page set g in if ok then allocate_pages sets g else (false, g)
  end.

Definition set_monitor_page (i v : Z) (s : hyperv) : hyperv :=
  set_monitor_pages (<[i := v]> (hyperv_monitor_page_phys s)) s.

Definition hyperv_setup_synic g : bool * guest :=
  let '(eax, ebx, _, _) := hyperv_features (hv g) in
  if Z.land eax HYPERV_CPUID_FEAT_EAX_SYNIC =? 0 then (false, g)
  else if (Z.land ebx HYPERV_CPUID_FEAT_EBX_POST_MESSAGES =? 0) || (Z.land ebx HYPERV_CPUID_FEAT_EBX_SIGNAL_EVENTS =? 0)
  then (false, g)
  else
    let '(ok, g) := allocate_pages [set_message_page; set_event_page; set_post_page; set_monitor_page 0; set_monitor_page 1] g in
    if negb ok then (false, g)
    else
      let g := write_msr HV_X64_MSR_SIMP (page_msr (hyperv_message_page (hv g)) HV_SYNIC_SIMP_ENABLE) g in
      let g := write_msr HV_X64_MSR_SIEFP (page_msr (hyperv_event_page (hv g)) HV_SYNIC_SIMP_ENABLE) g in
      let g := write_msr HV_X64_MSR_SINT2 (Z.lor (Z.land HYPERV_MESSAGE_VECTOR HV_SYNIC_SINT_VECTOR_MASK) HV_SYNIC_SINT_MASKED) g in
      let g := write_msr HV_X64_MSR_SCONTROL (Z.lor (rdmsr HV_X64_MSR_SCONTROL (host g)) HV_SYNIC_CONTROL_ENABLE) g in
      (true, upd_hv (set_synic_active true) g).

Definition no_call : Z := 0xFFFFFFFFFFFFFFFF.

Definition hypercall_usable g : bool := hyperv_guest_ready (hv g) && truthy (hyperv_hypercall_page (hv g)).

Definition hyperv_do_fast_hypercall8 (code input : Z) g : Z * guest :=
  if negb (hypercall_usable g) then (no_call, g)
  else let '(status, h) := hv_fast_call (Z.lor code HV_HYPERCALL_FAST_BIT) input (host g) in (status, set_host h g).

Definition hyperv_init g : guest :=
  if negb (platform_is_hyperv g) then g
  else
    let g := hyperv_collect_cpuid_state g in
    if negb (hyperv_interface_signature (hv g) =? HV_HYPERV_INTERFACE_HV1) then g
    else
      let '(ok, g) := hyperv_setup_hypercall_page g in
      if negb ok then g
      else (hyperv_setup_synic (upd_hv (set_guest_ready true) g)).2.

Definition hyperv_present g : bool := platform_is_hyperv g.
Definition hyperv_synic_ready g : bool := hyperv_synic_active (hv g).

Definition hyperv_vp_index g : Z :=
  if negb (platform_is_hyperv g) then 0xFFFFFFFF else u32 (rdmsr HV_X64_MSR_VP_INDEX (host g)).

Definition hyperv_do_hypercall (control input_physical output_physical : Z) g : Z * guest :=
  if negb (hypercall_usable g) then (no_call, g)
  else let '(status, h) := hv_call control input_physical output_physical (pmem g) (host g) in (status, set_host h g).

(** The message at the start of the page for [HVCALL_POST_MESSAGE]. *)
Definition post_message (connection_id message_type : Z) (payload : carray Z) (payload_size page : Z) (m : carray Z) : carray Z :=
  let m := zero_bytes m page 256 in
  let m := store32 m page connection_id in
  let m := store32 m (page + 8) message_type in
  let m := store32 m (page + 12) payload_size in
  copy_bytes m (page + 16) payload 0 payload_size.

Definition hyperv_post_message (connection_id message_type : Z) (payload : carray Z) (payload_size : Z) g : Z * guest :=
  if negb (hyperv_synic_active (hv g)) || (hyperv_post_message_page (hv g) =? 0) then (-1, g)
  else if HV_MESSAGE_PAYLOAD_BYTE_COUNT <? payload_size then (-1, g)
  else
    let page := hyperv_post_message_page (hv g) in
    let g := set_pmem (post_message connection_id message_type payload payload_size page (pmem g)) g in
    let '(status, g) := hyperv_do_hypercall HVCALL_POST_MESSAGE page 0 g in
    let result := hyperv_result status in
    (if result =? HV_STATUS_SUCCESS then 0
     else if (result =? HV_STATUS_INSUFFICIENT_MEMORY) || (result =? HV_STATUS_INSUFFICIENT_BUFFERS) then -2
     else if result =? HV_STATUS_INVALID_CONNECTION_ID then -3 else -1, g).

Definition message_slot g (sint_index : Z) : Z := hyperv_message_page (hv g) + sint_index * sizeof_hyperv_message.

(** The type, the size and the payload of the message, which is taken. *)
Definition hyperv_poll_message (sint_index : Z) (payload_buffer : carray Z) (payload_capacity : Z) g
    : option (Z * Z * carray Z) * guest :=
  let '(m, h) := hv_run (pmem g) (host g) in
  let g := set_host h (set_pmem m g) in
  if negb (hyperv_synic_active (hv g)) || (hyperv_message_page (hv g) =? 0) || (HV_SYNIC_SINT_COUNT <=? sint_index) then (None, g)
  else
    let message := message_slot g sint_index in
    let message_type := load32 (pmem g) message in
    if message_type =? 0 then (None, g)
    else
      let payload_size := pmem g (message + 4) in
      let copy_length := if payload_capacity <? payload_size then payload_capacity else payload_size in
      let payload := copy_bytes payload_buffer 0 (pmem g) (message + 16) copy_length in
      let pending := Z.land (pmem g (message + 5)) 1 in
      let g := set_pmem (store32 (pmem g) message 0) g in
      let g := if truthy pending then write_msr HV_X64_MSR_EOM 0 g else g in
      (Some (message_type, payload_size, payload), g).

Definition hyperv_signal_event (connection_id : Z) g : Z * guest :=
  let '(status, g) := hyperv_do_fast_hypercall8 HVCALL_SIGNAL_EVENT connection_id g in
  (if hyperv_result status =? HV_STATUS_SUCCESS then 0 else -1, g).

Definition hyperv_monitor_page g (page_index : Z) : Z :=
  if 2 <=? page_index then 0 else hyperv_monitor_page_phys (hv g) page_index.

Definition hyperv_set_monitor_pending (page_index monitor_id : Z) g : guest :=
  if (2 <=? page_index) || (128 <=? monitor_id) then g
  else
    let word := hyperv_monitor_page_phys (hv g) page_index + 8 + monitor_id / 32 * 8 in
    set_pmem (store32 (pmem g) word (Z.lor (load32 (pmem g) word) (Z.shiftl 1 (monitor_id mod 32)))) g.
End hyperv.

Arguments guest : clear implicits.
