(* ===== verification/Vmbus.v ===== *)
(** * VMBus channels ([src/kernel/vmbus.c])

    Control messages with the hypervisor and the pair of rings of a channel.  A ring has a
    page with its indices, followed by its data.  Console messages and the short waits
    between attempts are left out. *)

From S2P Require Import Prelude Mem Palloc Hyperv.

Local Open Scope Z_scope.
Local Open Scope c_scope.

Definition VMBUS_VERSION_WIN10_V5_0 : Z := 0x50000.
Definition VMBUS_MESSAGE_CONNECTION_ID : Z := 1.
Definition VMBUS_MESSAGE_CONNECTION_ID_4 : Z := 4.
Definition VMBUS_MESSAGE_TYPE_CHANNEL : Z := 1.
Definition VMBUS_MAX_MESSAGE_SIZE : Z := 240.
Definition VMBUS_RING_HEADER_SIZE : Z := PAGE_SIZE.
Definition VMBUS_RING_MIN_PAGES : Z := 2.
Definition VMBUS_PKT_TRAILER : Z := 8.
Definition VMBUS_GPADL_HANDLE_BASE : Z := 0xE1E10.
Definition VMBUS_INTERRUPT_PAGE_HALF_BYTES : Z := 2048.
Definition VMBUS_INTERRUPT_PAGE_HALF_BITS : Z := 16384.
Definition CHANNELMSG_OFFERCHANNEL : Z := 1.
Definition CHANNELMSG_REQUESTOFFERS : Z := 3.
Definition CHANNELMSG_ALLOFFERS_DELIVERED : Z := 4.
Definition CHANNELMSG_OPENCHANNEL : Z := 5.
Definition CHANNELMSG_OPENCHANNEL_RESULT : Z := 6.
Definition CHANNELMSG_GPADL_HEADER : Z := 8.
Definition CHANNELMSG_GPADL_CREATED : Z := 10.
Definition CHANNELMSG_INITIATE_CONTACT : Z := 14.
Definition CHANNELMSG_VERSION_RESPONSE : Z := 15.
Definition VMBUS_PACKET_DATA_INBAND : Z := 6.
Definition VMBUS_PACKET_COMPLETION : Z := 11.
Definition VMBUS_DATA_PACKET_FLAG_COMPLETION_REQUESTED : Z := 1.

(** The sizes of the packed structures. *)
Definition sizeof_message_header : Z := 8.
Definition sizeof_version_response : Z := 16.
Definition sizeof_offer_channel : Z := 196.
Definition sizeof_gpadl_created : Z := 20.
Definition sizeof_open_result : Z := 20.
Definition sizeof_initiate_contact : Z := 40.
Definition sizeof_open_channel : Z := 148.
Definition sizeof_descriptor : Z := 16.

Definition vmbus_supported_versions : list Z := [0x50003; 0x50002; 0x50001; 0x50000; 0x40001; 0x40000].

Record vmbus_guid := { data1 : Z; data2 : Z; data3 : Z; data4 : list Z }.

Definition vmbus_keyboard_guid : vmbus_guid :=
  {| data1 := 0xF912AD6D; data2 := 0x2B17; data3 := 0x48EA;
     data4 := [0xBD; 0x65; 0xF9; 0x27; 0xA6; 0x1C; 0x76; 0x84] |}.

Record vmbus_offer := {
  interface_type : vmbus_guid;
  interface_instance : vmbus_guid;
  offer_relid : Z;
  offer_connection_id : Z;
  offer_monitor_id : Z;
  offer_monitor_allocated : Z;
  offer_dedicated_interrupt : Z;
}.

Record vmbus_channel := {
  ch_open : Z;
  child_relid : Z;
  signal_connection_id : Z;
  monitor_id : Z;
  monitor_allocated : Z;
  is_dedicated_interrupt : Z;
  ring_pages_phys : Z;
  ring_page_count : Z;
  send_page_count : Z;
  gpadl_handle : Z;
  outbound_ring : Z;
  inbound_ring : Z;
  inbound_read_index : Z;
}.

Definition zero_guid : vmbus_guid := {| data1 := 0; data2 := 0; data3 := 0; data4 := repeat 0 8 |}.
Definition zero_offer : vmbus_offer :=
  {| interface_type := zero_guid; interface_instance := zero_guid; offer_relid := 0; offer_connection_id := 0;
     offer_monitor_id := 0; offer_monitor_allocated := 0; offer_dedicated_interrupt := 0 |}.
Definition zero_channel : vmbus_channel :=
  {| ch_open := 0; child_relid := 0; signal_connection_id := 0; monitor_id := 0; monitor_allocated := 0;
     is_dedicated_interrupt := 0; ring_pages_phys := 0; ring_page_count := 0; send_page_count := 0; gpadl_handle := 0;
     outbound_ring := 0; inbound_ring := 0; inbound_read_index := 0 |}.

Definition set_open (v : Z) (c : vmbus_channel) : vmbus_channel :=
  {| ch_open := v; child_relid := child_relid c; signal_connection_id := signal_connection_id c;
     monitor_id := monitor_id c; monitor_allocated := monitor_allocated c;
     is_dedicated_interrupt := is_dedicated_interrupt c; ring_pages_phys := ring_pages_phys c;
     ring_page_count := ring_page_count c; send_page_count := send_page_count c; gpadl_handle := gpadl_handle c;
     outbound_ring := outbound_ring c; inbound_ring := inbound_ring c; inbound_read_index := inbound_read_index c |}.
Definition set_read_index (v : Z) (c : vmbus_channel) : vmbus_channel :=
  {| ch_open := ch_open c; child_relid := child_relid c; signal_connection_id := signal_connection_id c;
     monitor_id := monitor_id c; monitor_allocated := monitor_allocated c;
     is_dedicated_interrupt := is_dedicated_interrupt c; ring_pages_phys := ring_pages_phys c;
     ring_page_count := ring_page_count c; send_page_count := send_page_count c; gpadl_handle := gpadl_handle c;
     outbound_ring := outbound_ring c; inbound_ring := inbound_ring c; inbound_read_index := v |}.

(** The statics of the file. *)
Record vmbus := {
  vmbus_connected : Z;
  vmbus_protocol : Z;
  vmbus_message_connection_id : Z;
  vmbus_next_gpadl_handle : Z;
  vmbus_interrupt_page : Z;
  vmbus_have_version_response : Z;
  vmbus_have_gpadl_response : Z;
  vmbus_have_open_response : Z;
  vmbus_offers_delivered : Z;
  vmbus_version_response : carray Z;
  vmbus_gpadl_response : carray Z;
  vmbus_open_response : carray Z;
  vmbus_keyboard_offer : vmbus_offer;
  vmbus_keyboard_offer_valid : Z;
}.

Definition set_connected (v : Z) (s : vmbus) : vmbus :=
  {| vmbus_connected := v; vmbus_protocol := vmbus_protocol s; vmbus_message_connection_id := vmbus_message_connection_id s;
     vmbus_next_gpadl_handle := vmbus_next_gpadl_handle s; vmbus_interrupt_page := vmbus_interrupt_page s;
     vmbus_have_version_response := vmbus_have_version_response s; vmbus_have_gpadl_response := vmbus_have_gpadl_response s;
     vmbus_have_open_response := vmbus_have_open_response s; vmbus_offers_delivered := vmbus_offers_delivered s;
     vmbus_version_response := vmbus_version_response s; vmbus_gpadl_response := vmbus_gpadl_response s;
     vmbus_open_response := vmbus_open_response s; vmbus_keyboard_offer := vmbus_keyboard_offer s;
     vmbus_keyboard_offer_valid := vmbus_keyboard_offer_valid s |}.
Definition set_protocol (v : Z) (s : vmbus) : vmbus :=
  {| vmbus_connected := vmbus_connected s; vmbus_protocol := v; vmbus_message_connection_id := vmbus_message_connection_id s;
     vmbus_next_gpadl_handle := vmbus_next_gpadl_handle s; vmbus_interrupt_page := vmbus_interrupt_page s;
     vmbus_have_version_response := vmbus_have_version_response s; vmbus_have_gpadl_response := vmbus_have_gpadl_response s;
     vmbus_have_open_response := vmbus_have_open_response s; vmbus_offers_delivered := vmbus_offers_delivered s;
     vmbus_version_response := vmbus_version_response s; vmbus_gpadl_response := vmbus_gpadl_response s;
     vmbus_open_response := vmbus_open_response s; vmbus_keyboard_offer := vmbus_keyboard_offer s;
     vmbus_keyboard_offer_valid := vmbus_keyboard_offer_valid s |}.
Definition set_connection_id (v : Z) (s : vmbus) : vmbus :=
  {| vmbus_connected := vmbus_connected s; vmbus_protocol := vmbus_protocol s; vmbus_message_connection_id := v;
     vmbus_next_gpadl_handle := vmbus_next_gpadl_handle s; vmbus_interrupt_page := vmbus_interrupt_page s;
     vmbus_have_version_response := vmbus_have_version_response s; vmbus_have_gpadl_response := vmbus_have_gpadl_response s;
     vmbus_have_open_response := vmbus_have_open_response s; vmbus_offers_delivered := vmbus_offers_delivered s;
     vmbus_version_response := vmbus_version_response s; vmbus_gpadl_response := vmbus_gpadl_response s;
     vmbus_open_response := vmbus_open_response s; vmbus_keyboard_offer := vmbus_keyboard_offer s;
     vmbus_keyboard_offer_valid := vmbus_keyboard_offer_valid s |}.
Definition set_next_gpadl (v : Z) (s : vmbus) : vmbus :=
  {| vmbus_connected := vmbus_connected s; vmbus_protocol := vmbus_protocol s;
     vmbus_message_connection_id := vmbus_message_connection_id s; vmbus_next_gpadl_handle := v;
     vmbus_interrupt_page := vmbus_interrupt_page s; vmbus_have_version_response := vmbus_have_version_response s;
     vmbus_have_gpadl_response := vmbus_have_gpadl_response s; vmbus_have_open_response := vmbus_have_open_response s;
     vmbus_offers_delivered := vmbus_offers_delivered s; vmbus_version_response := vmbus_version_response s;
     vmbus_gpadl_response := vmbus_gpadl_response s; vmbus_open_response := vmbus_open_response s;
     vmbus_keyboard_offer := vmbus_keyboard_offer s; vmbus_keyboard_offer_valid := vmbus_keyboard_offer_valid s |}.
Definition set_interrupt_page (v : Z) (s : vmbus) : vmbus :=
  {| vmbus_connected := vmbus_connected s; vmbus_protocol := vmbus_protocol s;
     vmbus_message_connection_id := vmbus_message_connection_id s; vmbus_next_gpadl_handle := vmbus_next_gpadl_handle s;
     vmbus_interrupt_page := v; vmbus_have_version_response := vmbus_have_version_response s;
     vmbus_have_gpadl_response := vmbus_have_gpadl_response s; vmbus_have_open_response := vmbus_have_open_response s;
     vmbus_offers_delivered := vmbus_offers_delivered s; vmbus_version_response := vmbus_version_response s;
     vmbus_gpadl_response := vmbus_gpadl_response s; vmbus_open_response := vmbus_open_response s;
     vmbus_keyboard_offer := vmbus_keyboard_offer s; vmbus_keyboard_offer_valid := vmbus_keyboard_offer_valid s |}.
Definition set_have_version (v : Z) (s : vmbus) : vmbus :=
  {| vmbus_connected := vmbus_connected s; vmbus_protocol := vmbus_protocol s;
     vmbus_message_connection_id := vmbus_message_connection_id s; vmbus_next_gpadl_handle := vmbus_next_gpadl_handle s;
     vmbus_interrupt_page := vmbus_interrupt_page s; vmbus_have_version_response := v;
     vmbus_have_gpadl_response := vmbus_have_gpadl_response s; vmbus_have_open_response := vmbus_have_open_response s;
     vmbus_offers_delivered := vmbus_offers_delivered s; vmbus_version_response := vmbus_version_response s;
     vmbus_gpadl_response := vmbus_gpadl_response s; vmbus_open_response := vmbus_open_response s;
     vmbus_keyboard_offer := vmbus_keyboard_offer s; vmbus_keyboard_offer_valid := vmbus_keyboard_offer_valid s |}.
Definition set_have_gpadl (v : Z) (s : vmbus) : vmbus :=
  {| vmbus_connected := vmbus_connected s; vmbus_protocol := vmbus_protocol s;
     vmbus_message_connection_id := vmbus_message_connection_id s; vmbus_next_gpadl_handle := vmbus_next_gpadl_handle s;
     vmbus_interrupt_page := vmbus_interrupt_page s; vmbus_have_version_response := vmbus_have_version_response s;
     vmbus_have_gpadl_response := v; vmbus_have_open_response := vmbus_have_open_response s;
     vmbus_offers_delivered := vmbus_offers_delivered s; vmbus_version_response := vmbus_version_response s;
     vmbus_gpadl_response := vmbus_gpadl_response s; vmbus_open_response := vmbus_open_response s;
     vmbus_keyboard_offer := vmbus_keyboard_offer s; vmbus_keyboard_offer_valid := vmbus_keyboard_offer_valid s |}.
Definition set_have_open (v : Z) (s : vmbus) : vmbus :=
  {| vmbus_connected := vmbus_connected s; vmbus_protocol := vmbus_protocol s;
     vmbus_message_connection_id := vmbus_message_connection_id s; vmbus_next_gpadl_handle := vmbus_next_gpadl_handle s;
     vmbus_interrupt_page := vmbus_interrupt_page s; vmbus_have_version_response := vmbus_have_version_response s;
     vmbus_have_gpadl_response := vmbus_have_gpadl_response s; vmbus_have_open_response := v;
     vmbus_offers_delivered := vmbus_offers_delivered s; vmbus_version_response := vmbus_version_response s;
     vmbus_gpadl_response := vmbus_gpadl_response s; vmbus_open_response := vmbus_open_response s;
     vmbus_keyboard_offer := vmbus_keyboard_offer s; vmbus_keyboard_offer_valid := vmbus_keyboard_offer_valid s |}.
Definition set_delivered (v : Z) (s : vmbus) : vmbus :=
  {| vmbus_connected := vmbus_connected s; vmbus_protocol := vmbus_protocol s;
     vmbus_message_connection_id := vmbus_message_connection_id s; vmbus_next_gpadl_handle := vmbus_next_gpadl_handle s;
     vmbus_interrupt_page := vmbus_interrupt_page s; vmbus_have_version_response := vmbus_have_version_response s;
     vmbus_have_gpadl_response := vmbus_have_gpadl_response s; vmbus_have_open_response := vmbus_have_open_response s;
     vmbus_offers_delivered := v; vmbus_version_response := vmbus_version_response s;
     vmbus_gpadl_response := vmbus_gpadl_response s; vmbus_open_response := vmbus_open_response s;
     vmbus_keyboard_offer := vmbus_keyboard_offer s; vmbus_keyboard_offer_valid := vmbus_keyboard_offer_valid s |}.
Definition set_version_response (v : carray Z) (s : vmbus) : vmbus :=
  {| vmbus_connected := vmbus_connected s; vmbus_protocol := vmbus_protocol s;
     vmbus_message_connection_id := vmbus_message_connection_id s; vmbus_next_gpadl_handle := vmbus_next_gpadl_handle s;
     vmbus_interrupt_page := vmbus_interrupt_page s; vmbus_have_version_response := vmbus_have_version_response s;
     vmbus_have_gpadl_response := vmbus_have_gpadl_response s; vmbus_have_open_response := vmbus_have_open_response s;
     vmbus_offers_delivered := vmbus_offers_delivered s; vmbus_version_response := v;
     vmbus_gpadl_response := vmbus_gpadl_response s; vmbus_open_response := vmbus_open_response s;
     vmbus_keyboard_offer := vmbus_keyboard_offer s; vmbus_keyboard_offer_valid := vmbus_keyboard_offer_valid s |}.
Definition set_gpadl_response (v : carray Z) (s : vmbus) : vmbus :=
  {| vmbus_connected := vmbus_connected s; vmbus_protocol := vmbus_protocol s;
     vmbus_message_connection_id := vmbus_message_connection_id s; vmbus_next_gpadl_handle := vmbus_next_gpadl_handle s;
     vmbus_interrupt_page := vmbus_interrupt_page s; vmbus_have_version_response := vmbus_have_version_response s;
     vmbus_have_gpadl_response := vmbus_have_gpadl_response s; vmbus_have_open_response := vmbus_have_open_response s;
     vmbus_offers_delivered := vmbus_offers_delivered s; vmbus_version_response := vmbus_version_response s;
     vmbus_gpadl_response := v; vmbus_open_response := vmbus_open_response s; vmbus_keyboard_offer := vmbus_keyboard_offer s;
     vmbus_keyboard_offer_valid := vmbus_keyboard_offer_valid s |}.
Definition set_open_response (v : carray Z) (s : vmbus) : vmbus :=
  {| vmbus_connected := vmbus_connected s; vmbus_protocol := vmbus_protocol s;
     vmbus_message_connection_id := vmbus_message_connection_id s; vmbus_next_gpadl_handle := vmbus_next_gpadl_handle s;
     vmbus_interrupt_page := vmbus_interrupt_page s; vmbus_have_version_response := vmbus_have_version_response s;
     vmbus_have_gpadl_response := vmbus_have_gpadl_response s; vmbus_have_open_response := vmbus_have_open_response s;
     vmbus_offers_delivered := vmbus_offers_delivered s; vmbus_version_response := vmbus_version_response s;
     vmbus_gpadl_response := vmbus_gpadl_response s; vmbus_open_response := v;
     vmbus_keyboard_offer := vmbus_keyboard_offer s; vmbus_keyboard_offer_valid := vmbus_keyboard_offer_valid s |}.
Definition set_keyboard_offer (v : vmbus_offer) (s : vmbus) : vmbus :=
  {| vmbus_connected := vmbus_connected s; vmbus_protocol := vmbus_protocol s;
     vmbus_message_connection_id := vmbus_message_connection_id s; vmbus_next_gpadl_handle := vmbus_next_gpadl_handle s;
     vmbus_interrupt_page := vmbus_interrupt_page s; vmbus_have_version_response := vmbus_have_version_response s;
     vmbus_have_gpadl_response := vmbus_have_gpadl_response s; vmbus_have_open_response := vmbus_have_open_response s;
     vmbus_offers_delivered := vmbus_offers_delivered s; vmbus_version_response := vmbus_version_response s;
     vmbus_gpadl_response := vmbus_gpadl_response s; vmbus_open_response := vmbus_open_response s; vmbus_keyboard_offer := v;
     vmbus_keyboard_offer_valid := vmbus_keyboard_offer_valid s |}.
Definition set_offer_valid (v : Z) (s : vmbus) : vmbus :=
  {| vmbus_connected := vmbus_connected s; vmbus_protocol := vmbus_protocol s;
     vmbus_message_connection_id := vmbus_message_connection_id s; vmbus_next_gpadl_handle := vmbus_next_gpadl_handle s;
     vmbus_interrupt_page := vmbus_interrupt_page s; vmbus_have_version_response := vmbus_have_version_response s;
     vmbus_have_gpadl_response := vmbus_have_gpadl_response s; vmbus_have_open_response := vmbus_have_open_response s;
     vmbus_offers_delivered := vmbus_offers_delivered s; vmbus_version_response := vmbus_version_response s;
     vmbus_gpadl_response := vmbus_gpadl_response s; vmbus_open_response := vmbus_open_response s;
     vmbus_keyboard_offer := vmbus_keyboard_offer s; vmbus_keyboard_offer_valid := v |}.

Definition vmbus_bss : vmbus :=
  {| vmbus_connected := 0; vmbus_protocol := 0; vmbus_message_connection_id := 0; vmbus_next_gpadl_handle := 0;
     vmbus_interrupt_page := 0; vmbus_have_version_response := 0; vmbus_have_gpadl_response := 0;
     vmbus_have_open_response := 0; vmbus_offers_delivered := 0; vmbus_version_response := λ _, 0;
     vmbus_gpadl_response := λ _, 0; vmbus_open_response := λ _, 0; vmbus_keyboard_offer := zero_offer;
     vmbus_keyboard_offer_valid := 0 |}.

(** ** Rings *)

Definition min_u32 (left right : Z) : Z := if left <? right then left else right.
Definition align_up_u32 (value alignment : Z) : Z := Z.land (value ⊞ alignment ⊟ 1) (not32 (alignment ⊟ 1)).

Definition vmbus_guid_equal (left right : vmbus_guid) : bool :=
  if negb (data1 left =? data1 right) || negb (data2 left =? data2 right) || negb (data3 left =? data3 right) then false
  else match for_find 0 8 (λ index, negb (nth (Z.to_nat index) (data4 left) 0 =? nth (Z.to_nat index) (data4 right) 0)) with
  | Some _ => false
  | None => true
  end.

(** [ring] is the address of the data. *)
Definition vmbus_copy_from_ring (m : carray Z) (ring ring_size offset : Z) (buffer : carray Z) (length : Z) : carray Z :=
  for_range 0 length (λ index bytes, <[index := m (ring + (offset ⊞ index) mod ring_size)]> bytes) buffer.
Definition vmbus_copy_to_ring (m : carray Z) (ring ring_size offset : Z) (bytes : carray Z) (length : Z) : carray Z :=
  for_range 0 length (λ index m, <[ring + (offset ⊞ index) mod ring_size := bytes index]> m) m.

(** The fields of the page at the start of a ring. *)
Definition write_index (m : carray Z) (ring : Z) : Z := load32 m ring.
Definition read_index (m : carray Z) (ring : Z) : Z := load32 m (ring + 4).
Definition ring_buffer (ring : Z) : Z := ring + VMBUS_RING_HEADER_SIZE.

Definition vmbus_ring_data_size (page_count : Z) : Z := (page_count ⊠ PAGE_SIZE) ⊟ VMBUS_RING_HEADER_SIZE.

Definition vmbus_ring_bytes_to_write (m : carray Z) (ring page_count : Z) : Z :=
  let ring_size := vmbus_ring_data_size page_count in
  let r := read_index m ring in let w := write_index m ring in
  if r <=? w then ring_size ⊟ (w ⊟ r) else r ⊟ w.

Definition vmbus_ring_bytes_to_read (m : carray Z) (ring page_count : Z) : Z :=
  let ring_size := vmbus_ring_data_size page_count in
  let r := read_index m ring in let w := write_index m ring in
  if r <=? w then w ⊟ r else (ring_size ⊟ r) ⊞ w.

(** The fields of a packet descriptor. *)
Definition descriptor_bytes (type offset8 len8 flags trans_id : Z) : carray Z :=
  store_le 8 (store_le 2 (store_le 2 (store_le 2 (store_le 2 (λ _, 0) 0 type) 2 offset8) 4 len8) 6 flags) 8 trans_id.

(** The bytes of a packet, written from [w] on; the result has the new write index. *)
Definition write_packet (m : carray Z) (data ring_size w : Z) (descriptor payload : carray Z)
    (payload_size packet_length aligned_packet_length : Z) : Z * carray Z :=
  let m := vmbus_copy_to_ring m data ring_size w descriptor sizeof_descriptor in
  let w := (w ⊞ sizeof_descriptor) mod ring_size in
  let m := vmbus_copy_to_ring m data ring_size w payload payload_size in
  let w := (w ⊞ payload_size) mod ring_size in
  let '(w, m) :=
    if packet_length <? aligned_packet_length then
      let padding_length := aligned_packet_length ⊟ packet_length in
      ((w ⊞ padding_length) mod ring_size, vmbus_copy_to_ring m data ring_size w (λ _, 0) padding_length)
    else (w, m) in
  ((w ⊞ VMBUS_PKT_TRAILER) mod ring_size, vmbus_copy_to_ring m data ring_size w (λ _, 0) VMBUS_PKT_TRAILER).

(** A received packet: the buffer, the size of the payload, the transaction and the type; with the channel and
    memory after it. *)
Definition vmbus_recv_packet (c : vmbus_channel) (payload_buffer : carray Z) (payload_capacity : Z) (m : carray Z)
    : option (carray Z * Z * Z * Z) * vmbus_channel * carray Z :=
  if ch_open c =? 0 then (None, c, m)
  else
    let ring := inbound_ring c in
    let page_count := ring_page_count c ⊟ send_page_count c in
    let ring_size := vmbus_ring_data_size page_count in
    if vmbus_ring_bytes_to_read m ring page_count <? sizeof_descriptor then (None, c, m)
    else
      let data := ring_buffer ring in
      let r := inbound_read_index c in
      let descriptor := vmbus_copy_from_ring m data ring_size r (λ _, 0) sizeof_descriptor in
      let len := load16 descriptor 4 * 8 in
      let payload_offset := load16 descriptor 2 * 8 in
      let payload_length := len ⊟ payload_offset in
      let payload_buffer :=
        if truthy payload_capacity then
          vmbus_copy_from_ring m data ring_size (r ⊞ payload_offset) payload_buffer (min_u32 payload_length payload_capacity)
        else payload_buffer in
      let next := r ⊞ len ⊞ VMBUS_PKT_TRAILER in
      let next := if ring_size <=? next then next mod ring_size else next in
      (Some (payload_buffer, payload_length, load64 descriptor 8, load16 descriptor 0),
       set_read_index next c, store32 m (ring + 4) next).

(** ** Control messages *)

Section bus.
Context {H : Type} `{!Hypervisor H}.

Record bus := { gst : guest H; vb : vmbus }.

Implicit Types b : bus.

Definition upd_vb (f : vmbus → vmbus) b : bus := {| gst := gst b; vb := f (vb b) |}.
Definition set_gst (g : guest H) b : bus := {| gst := g; vb := vb b |}.
Definition upd_pmem (f : carray Z → carray Z) b : bus := set_gst (set_pmem (f (pmem (gst b))) (gst b)) b.

Definition vmbus_set_interrupt_bit (relid : Z) b : bus :=
  if (vmbus_interrupt_page (vb b) =? 0) || (VMBUS_INTERRUPT_PAGE_HALF_BITS <=? relid) then b
  else
    let byte := vmbus_interrupt_page (vb b) + VMBUS_INTERRUPT_PAGE_HALF_BYTES + Z.shiftr relid 3 in
    upd_pmem (λ m, <[byte := u8 (Z.lor (m byte) (u8 (Z.shiftl 1 (Z.land relid 7))))]> m) b.

Fixpoint post_attempts (attempts : nat) (message : carray Z) (message_size : Z) b : Z * bus :=
  match attempts with
  | O => (-1, b)
  | S attempts =>
      let '(result, g) :=
        hyperv_post_message (vmbus_message_connection_id (vb b)) VMBUS_MESSAGE_TYPE_CHANNEL message message_size (gst b) in
      let b := set_gst g b in
      if result =? 0 then (0, b)
      else if negb (result =? -2) then (-1, b)
      else post_attempts attempts message message_size b
  end.

Definition vmbus_post_control_message (message : carray Z) (message_size : Z) b : Z * bus :=
  post_attempts 256 message message_size b.

Definition guid_at (m : carray Z) (a : Z) : vmbus_guid :=
  {| data1 := load32 m a; data2 := load16 m (a + 4); data3 := load16 m (a + 6); data4 := slice m (a + 8) 8 |}.

Definition vmbus_handle_offer (offer : carray Z) b : bus :=
  if negb (vmbus_guid_equal (guid_at offer 8) vmbus_keyboard_guid) then b
  else
    upd_vb (λ s, set_offer_valid 1 (set_keyboard_offer
      {| interface_type := guid_at offer 8; interface_instance := guid_at offer 24;
         offer_relid := load32 offer 184; offer_connection_id := load32 offer 192; offer_monitor_id := offer 188;
         offer_monitor_allocated := Z.land (offer 189) 1; offer_dedicated_interrupt := Z.land (load16 offer 190) 1 |} s)) b.

Definition vmbus_signal_channel (c : vmbus_channel) b : bus :=
  let b := vmbus_set_interrupt_bit (child_relid c) b in
  if truthy (monitor_allocated c) then set_gst (hyperv_set_monitor_pending 1 (monitor_id c) (gst b)) b
  else if truthy (signal_connection_id c) then set_gst (hyperv_signal_event (signal_connection_id c) (gst b)).2 b
  else b.

(** The [switch] of [vmbus_poll] on a message. *)
Definition handle_message (message_type payload_size : Z) (message : carray Z) b : bus :=
  if negb (message_type =? VMBUS_MESSAGE_TYPE_CHANNEL) || (payload_size <? sizeof_message_header) then b
  else
    let msgtype := load32 message 0 in
    if msgtype =? CHANNELMSG_VERSION_RESPONSE then
      if payload_size <? sizeof_version_response then b
      else upd_vb (λ s, set_have_version 1
             (set_version_response (copy_bytes (vmbus_version_response s) 0 message 0 sizeof_version_response) s)) b
    else if msgtype =? CHANNELMSG_OFFERCHANNEL then
      if payload_size <? sizeof_offer_channel then b else vmbus_handle_offer message b
    else if msgtype =? CHANNELMSG_ALLOFFERS_DELIVERED then upd_vb (set_delivered 1) b
    else if msgtype =? CHANNELMSG_GPADL_CREATED then
      if payload_size <? sizeof_gpadl_created then b
      else upd_vb (λ s, set_have_gpadl 1
             (set_gpadl_response (copy_bytes (vmbus_gpadl_response s) 0 message 0 sizeof_gpadl_created) s)) b
    else if msgtype =? CHANNELMSG_OPENCHANNEL_RESULT then
      if payload_size <? sizeof_open_result then b
      else upd_vb (λ s, set_have_open 1
             (set_open_response (copy_bytes (vmbus_open_response s) 0 message 0 sizeof_open_result) s)) b
    else b.

(** [buffer] is the message buffer on the stack; the loop may not end. *)
Fixpoint poll_messages (fuel : nat) (buffer : carray Z) b : option bus :=
  match fuel with
  | O => None
  | S fuel =>
      match hyperv_poll_message HYPERV_VMBUS_SINT_INDEX buffer VMBUS_MAX_MESSAGE_SIZE (gst b) with
      | (None, g) => Some (set_gst g b)
      | (Some (message_type, payload_size, buffer), g) =>
          poll_messages fuel buffer (handle_message message_type payload_size buffer (set_gst g b))
      end
  end.

(** [fuel] bounds the messages of one poll, [stack] is uninitialised. *)
Context (fuel : nat) (stack : carray Z).

Definition vmbus_poll b : option bus := poll_messages fuel stack b.

Fixpoint wait_attempts (attempts : nat) (flag : vmbus → Z) b : option (Z * bus) :=
  match attempts with
  | O => Some (-1, b)
  | S attempts =>
      b ← vmbus_poll b;
      if truthy (flag (vb b)) then Some (0, b) else wait_attempts attempts flag b
  end.

Definition vmbus_wait_for_flag (flag : vmbus → Z) b : option (Z * bus) := wait_attempts (Z.to_nat 1000000) flag b.

(** A message and the wait for its answer. *)
Definition post_and_wait (message : carray Z) (message_size : Z) (flag : vmbus → Z) b : option (bool * bus) :=
  let '(r, b) := vmbus_post_control_message message message_size b in
  if truthy r then Some (false, b)
  else '(r, b) ← vmbus_wait_for_flag flag b; Some (negb (truthy r), b).

Definition contact_message (version : Z) b : carray Z :=
  let g := gst b in
  let m := store32 (λ _, 0) 0 CHANNELMSG_INITIATE_CONTACT in
  let m := store32 m 8 version in
  let m := store32 m 12 (hyperv_vp_index g) in
  let m := if VMBUS_VERSION_WIN10_V5_0 <=? version then
             store32 (<[17 := 0]> (<[16 := u8 HYPERV_VMBUS_SINT_INDEX]> m)) 20 0
           else store_le 8 m 16 (vmbus_interrupt_page (vb b)) in
  let m := store_le 8 m 24 (hyperv_monitor_page g 0) in
  store_le 8 m 32 (hyperv_monitor_page g 1).

Fixpoint connect (versions : list Z) b : option bus :=
  match versions with
  | [] => Some b
  | version :: versions =>
      let contact := contact_message version b in
      let b := if VMBUS_VERSION_WIN10_V5_0 <=? version then b
               else upd_vb (set_connection_id VMBUS_MESSAGE_CONNECTION_ID) b in
      let b := upd_vb (set_have_version 0) b in
      '(ok, b) ← post_and_wait contact sizeof_initiate_contact vmbus_have_version_response b;
      if negb ok || (vmbus_version_response (vb b) 8 =? 0) then connect versions b
      else
        let b := upd_vb (set_protocol version) b in
        let id := load32 (vmbus_version_response (vb b)) 12 in
        let b := if truthy id then upd_vb (set_connection_id id) b else b in
        Some (upd_vb (set_connected 1) b)
  end.

(** The page of interrupt bits, unless there is one. *)
Definition alloc_interrupt_page b : bool * bus :=
  if negb (vmbus_interrupt_page (vb b) =? 0) then (true, b)
  else
    let '(physical, p) := palloc_alloc_page (pages (gst b)) in
    let b := upd_vb (set_interrupt_page physical) (set_gst (set_pages p (gst b)) b) in
    if physical =? 0 then (false, b)
    else (true, upd_pmem (λ m, zero_bytes m physical PAGE_SIZE) b).

Definition vmbus_init b : option bus :=
  if negb (hyperv_present (gst b)) || negb (hyperv_synic_ready (gst b)) then Some b
  else if truthy (vmbus_connected (vb b)) then Some b
  else
    let b := upd_vb (λ s, set_offer_valid 0 (set_next_gpadl VMBUS_GPADL_HANDLE_BASE
                            (set_connection_id VMBUS_MESSAGE_CONNECTION_ID_4 s))) b in
    let '(ok, b) := alloc_interrupt_page b in
    if negb ok then Some b
    else
      b ← connect vmbus_supported_versions b;
      if vmbus_connected (vb b) =? 0 then Some b
      else
        let b := upd_vb (set_delivered 0) b in
        '(_, b) ← post_and_wait (store32 (λ _, 0) 0 CHANNELMSG_REQUESTOFFERS) sizeof_message_header vmbus_offers_delivered b;
        Some b.

Definition vmbus_ready b : bool := truthy (vmbus_connected (vb b)).

Definition vmbus_find_offer (type_guid : vmbus_guid) b : option vmbus_offer :=
  if (vmbus_keyboard_offer_valid (vb b) =? 0) || negb (vmbus_guid_equal type_guid (interface_type (vmbus_keyboard_offer (vb b))))
  then None else Some (vmbus_keyboard_offer (vb b)).

(** ** Channels *)

Definition gpadl_message (relid handle base_phys total_pages : Z) : carray Z :=
  let m := store32 (λ _, 0) 0 CHANNELMSG_GPADL_HEADER in
  let m := store32 m 8 relid in
  let m := store32 m 12 handle in
  let m := store_le 2 m 18 1 in
  let m := store32 m 20 (total_pages ⊠ PAGE_SIZE) in
  let m := store32 m 24 0 in
  let m := store_le 2 m 16 (u16 (4 + 4 + total_pages * 8)) in
  for_range 0 total_pages (λ page_index m, store_le 8 m (28 + page_index * 8) (base_phys / PAGE_SIZE + page_index)) m.

Definition open_message (relid handle vp send_page_count : Z) : carray Z :=
  let m := store32 (λ _, 0) 0 CHANNELMSG_OPENCHANNEL in
  let m := store32 m 8 relid in
  let m := store32 m 12 relid in
  let m := store32 m 16 handle in
  let m := store32 m 20 vp in
  store32 m 24 send_page_count.

(** The channel before the hypervisor knows of it. *)
Definition new_channel (offer : vmbus_offer) (base_phys total_pages send_page_count handle : Z) : vmbus_channel :=
  {| ch_open := 0; child_relid := offer_relid offer; signal_connection_id := offer_connection_id offer;
     monitor_id := offer_monitor_id offer; monitor_allocated := offer_monitor_allocated offer;
     is_dedicated_interrupt := offer_dedicated_interrupt offer; ring_pages_phys := base_phys;
     ring_page_count := total_pages; send_page_count := send_page_count; gpadl_handle := handle;
     outbound_ring := base_phys; inbound_ring := base_phys + send_page_count * PAGE_SIZE; inbound_read_index := 0 |}.

(** The error exit of [vmbus_open_channel]. *)
Definition give_up_channel (base_phys total_pages : Z) b : Z * vmbus_channel * bus :=
  (-1, zero_channel, set_gst (set_pages (palloc_free_pages_range base_phys total_pages (pages (gst b))) (gst b)) b).

(** The messages that announce the pages and open the channel. *)
Definition negotiate (c : vmbus_channel) (offer : vmbus_offer) b : option (Z * vmbus_channel * bus) :=
  let base_phys := ring_pages_phys c in let total_pages := ring_page_count c in
  let b := upd_vb (set_have_gpadl 0) b in
  '(ok, b) ← post_and_wait (gpadl_message (offer_relid offer) (gpadl_handle c) base_phys total_pages)
               (28 + total_pages * 8) vmbus_have_gpadl_response b;
  if negb ok || truthy (load32 (vmbus_gpadl_response (vb b)) 16)
     || negb (load32 (vmbus_gpadl_response (vb b)) 8 =? offer_relid offer)
  then Some (give_up_channel base_phys total_pages b)
  else
    let message := open_message (offer_relid offer) (gpadl_handle c) (hyperv_vp_index (gst b)) (send_page_count c) in
    let b := upd_vb (set_have_open 0) b in
    '(ok, b) ← post_and_wait message sizeof_open_channel vmbus_have_open_response b;
    if negb ok || truthy (load32 (vmbus_open_response (vb b)) 16)
       || negb (load32 (vmbus_open_response (vb b)) 8 =? offer_relid offer)
    then Some (give_up_channel base_phys total_pages b)
    else Some (0, set_open 1 c, b).

Definition vmbus_open_channel (c : vmbus_channel) (offer : vmbus_offer) (send_page_count recv_page_count : Z) b
    : option (Z * vmbus_channel * bus) :=
  if (send_page_count <? VMBUS_RING_MIN_PAGES) || (recv_page_count <? VMBUS_RING_MIN_PAGES) then Some (-1, c, b)
  else
    let total_pages := send_page_count ⊞ recv_page_count in
    if VMBUS_RING_MIN_PAGES * 2 <? total_pages then Some (-1, c, b)
    else
      let '(base_phys, p) := palloc_alloc_pages total_pages (pages (gst b)) in
      let b := set_gst (set_pages p (gst b)) b in
      if base_phys =? 0 then Some (-1, c, b)
      else
        let handle := vmbus_next_gpadl_handle (vb b) in
        let c := new_channel offer base_phys total_pages send_page_count handle in
        let b := upd_vb (set_next_gpadl (handle ⊞ 1)) b in
        let b := upd_pmem (λ m, store32 (store32 (zero_bytes m base_phys (total_pages ⊠ PAGE_SIZE))
                                  (outbound_ring c + 64) 1) (inbound_ring c + 64) 1) b in
        negotiate c offer b.

Definition vmbus_close_channel (c : vmbus_channel) b : vmbus_channel * bus :=
  if ch_open c =? 0 then (c, b)
  else (zero_channel,
        set_gst (set_pages (palloc_free_pages_range (ring_pages_phys c) (ring_page_count c) (pages (gst b))) (gst b)) b).

Definition vmbus_send_inband (c : vmbus_channel) (payload : carray Z) (payload_size request_id flags : Z) b : Z * bus :=
  if ch_open c =? 0 then (-1, b)
  else
    let ring := outbound_ring c in
    let ring_size := vmbus_ring_data_size (send_page_count c) in
    let packet_length := sizeof_descriptor ⊞ payload_size in
    let aligned_packet_length := align_up_u32 packet_length 8 in
    let total_write_length := aligned_packet_length ⊞ VMBUS_PKT_TRAILER in
    let m := pmem (gst b) in
    if vmbus_ring_bytes_to_write m ring (send_page_count c) <=? total_write_length then (-1, b)
    else
      let descriptor := descriptor_bytes VMBUS_PACKET_DATA_INBAND (u16 (Z.shiftr sizeof_descriptor 3))
                          (u16 (Z.shiftr aligned_packet_length 3)) (u16 flags) request_id in
      let old_write := write_index m ring in
      let '(w, m) := write_packet m (ring_buffer ring) ring_size old_write descriptor payload payload_size
                       packet_length aligned_packet_length in
      let m := store32 m ring w in
      let b := upd_pmem (λ _, m) b in
      (0, if old_write =? read_index m ring then vmbus_signal_channel c b else b).
End bus.

Arguments bus : clear implicits.
