(* ===== verification/VmbusRing.v ===== *)
(** * The rings of a channel as queues

    A ring is read through [unroll], the bytes that follow its read index without the wrap.
    [ring_holds] says which packets it has.  Sending appends a packet and receiving takes the
    first one. *)

From S2P Require Import Prelude Mem Palloc Hyperv Vmbus.

Local Open Scope Z_scope.
Local Open Scope c_scope.

(** ** Bytes in memory *)

(** The bytes [l] from address [a] on. *)
Fixpoint has (f : carray Z) (a : Z) (l : list Z) : Prop :=
  match l with
  | [] => True
  | x :: l => f a = x ∧ has f (a + 1) l
  end.

Fixpoint le_bytes (n : nat) (v : Z) : list Z :=
  match n with
  | O => []
  | S n => v mod 256 :: le_bytes n (v / 256)
  end.

Lemma le_bytes_length n v : length (le_bytes n v) = n.
Proof. revert v. induction n; intros v; simpl; auto. Qed.

Lemma has_app f a l k : has f a (l ++ k) ↔ has f a l ∧ has f (a + Z.of_nat (length l)) k.
Proof.
  revert a. induction l as [|x l IH]; intros a; simpl; [rewrite Z.add_0_r; tauto|].
  rewrite IH. replace (a + 1 + Z.of_nat (length l)) with (a + Z.of_nat (S (length l))) by lia. tauto.
Qed.

Lemma has_ext f g a l : (∀ i, a ≤ i < a + Z.of_nat (length l) → f i = g i) → has f a l → has g a l.
Proof.
  revert a. induction l as [|x l IH]; intros a Hi; simpl in *; [done|].
  intros [? ?]. split; [by rewrite <- Hi by lia|]. apply IH; [|done]. intros; apply Hi; lia.
Qed.

Lemma has_shift f g a b l : (∀ i, 0 ≤ i < Z.of_nat (length l) → f (a + i) = g (b + i)) → has f a l → has g b l.
Proof.
  revert a b. induction l as [|x l IH]; intros a b Hi; simpl in *; [done|].
  intros [? ?]. split; [specialize (Hi 0); rewrite !Z.add_0_r in Hi; by rewrite <- Hi by lia|].
  apply (IH (a + 1)); [|done]. intros i ?. specialize (Hi (i + 1)).
  replace (a + 1 + i) with (a + (i + 1)) by lia. replace (b + 1 + i) with (b + (i + 1)) by lia. apply Hi. lia.
Qed.

Lemma has_slice f a n : has f a (slice f a n).
Proof.
  unfold slice. revert a. induction n as [|n IH]; intros a; simpl; [done|].
  rewrite seqZ_cons by lia. replace (Z.pred (Z.of_nat (S n))) with (Z.of_nat n) by lia.
  simpl. split; [done|]. replace (a + 1) with (Z.succ a) by lia. apply IH.
Qed.

Lemma has_fill f a n x : (∀ i, a ≤ i < a + Z.of_nat n → f i = x) → has f a (repeat x n).
Proof.
  revert a. induction n as [|n IH]; intros a Hi; simpl; [done|]. split; [apply Hi; lia|]. apply IH. intros; apply Hi; lia.
Qed.

Lemma has_lookup f a l (i : nat) x : has f a l → l !! i = Some x → f (a + Z.of_nat i) = x.
Proof.
  revert a i. induction l as [|y l IH]; intros a i; simpl; [done|]. intros [Hy Hl].
  destruct i as [|i]; simpl; [intros [= <-]; by rewrite Z.add_0_r|].
  intros Hx. specialize (IH _ _ Hl Hx). by replace (a + Z.of_nat (S i)) with (a + 1 + Z.of_nat i) by lia.
Qed.

Lemma has_load n f a v : has f a (le_bytes n v) → load_le n f a = v mod 2 ^ (8 * Z.of_nat n).
Proof.
  revert a v. induction n as [|n IH]; intros a v; simpl le_bytes; simpl load_le; [by rewrite Z.mod_1_r|].
  intros [Ha Hl]. rewrite (IH _ _ Hl), Ha. replace (8 * Z.of_nat (S n)) with (8 + 8 * Z.of_nat n) by lia.
  rewrite Z.pow_add_r by lia. change (2 ^ 8) with 256. rewrite Z.rem_mul_r; [lia|lia|apply Z.pow_pos_nonneg; lia].
Qed.

Lemma has_store n m a v : has (store_le n m a v) a (le_bytes n v).
Proof.
  revert m a v. induction n as [|n IH]; intros m a v; simpl; [done|].
  split; [by rewrite store_le_other, arr_get_set_eq by lia|apply IH].
Qed.

Lemma has_store_other n m a v b l :
  b + Z.of_nat (length l) ≤ a ∨ a + Z.of_nat n ≤ b → has m b l → has (store_le n m a v) b l.
Proof. intros Hb. apply has_ext. intros. symmetry. apply store_le_other. lia. Qed.

(** ** The unrolled ring *)

Definition unroll (m : carray Z) (data size r : Z) : carray Z := λ i, m (data + (r + i) mod size).

Lemma u32_mod x size : 0 < size → (size | 4294967296) → u32 x mod size = x mod size.
Proof. intros _ Hd. unfold u32. by apply Z.mod_mod_divide. Qed.

Lemma copy_from_ring_get m data size r k offset buffer n i :
  0 < size → (size | 4294967296) → offset mod size = (r + k) mod size → 0 ≤ n →
  vmbus_copy_from_ring m data size offset buffer n i = copy_bytes buffer 0 (unroll m data size r) k n i.
Proof.
  intros Hs Hd Ho Hn. unfold vmbus_copy_from_ring.
  pose proof (for_range_ind (λ j (bytes : carray Z), ∀ i, bytes i = copy_bytes buffer 0 (unroll m data size r) k j i) 0 n
    (λ index bytes, <[index := m (data + (offset ⊞ index) mod size)]> bytes) buffer) as Hi. apply Hi; [done| |].
  - intros j. unfold copy_bytes. case_if; [lia|done].
  - intros j bytes Hj IH x. rewrite arr_get_set. case_decide as Hx.
    + subst x. rewrite copy_bytes_in by lia. unfold unroll. do 2 f_equal.
      rewrite u32_mod by done. rewrite Z.add_mod, Ho, <- Z.add_mod by lia. f_equal. lia.
    + rewrite IH. unfold copy_bytes. repeat case_if; lia || done.
Qed.

(** Writing changes the bytes it should and no others. *)
Lemma copy_to_ring_get m data size r k offset bytes n i :
  0 < size → (size | 4294967296) → offset mod size = (r + k) mod size → 0 ≤ k → 0 ≤ n → k + n ≤ size → 0 ≤ i < size →
  unroll (vmbus_copy_to_ring m data size offset bytes n) data size r i = copy_bytes (unroll m data size r) k bytes 0 n i.
Proof.
  intros Hs Hd Ho Hk Hn Hle Hi0. unfold vmbus_copy_to_ring. revert i Hi0.
  pose proof (for_range_ind (λ j (mm : carray Z), ∀ i, 0 ≤ i < size → unroll mm data size r i = copy_bytes (unroll m data size r) k bytes 0 j i) 0 n
    (λ index m, <[data + (offset ⊞ index) mod size := bytes index]> m) m) as Hi. apply Hi; [done| |].
  - intros j ?. unfold copy_bytes. case_if; [lia|done].
  - intros j mm Hj IH x Hx. unfold unroll at 1. rewrite arr_get_set.
    assert ((offset ⊞ j) mod size = (r + (k + j)) mod size) as ->.
    { rewrite u32_mod by done. rewrite Z.add_mod, Ho, <- Z.add_mod by lia. f_equal. lia. }
    case_decide as E.
    + assert ((r + (k + j)) mod size = (r + x) mod size) as E' by lia.
      assert (k + j = x) as <-.
      { pose proof (Z.div_mod (r + (k + j)) size ltac:(lia)). pose proof (Z.div_mod (r + x) size ltac:(lia)).
        rewrite E' in *. destruct (Z.lt_trichotomy ((r + (k + j)) / size) ((r + x) / size)) as [?|[?|?]]; nia. }
      rewrite copy_bytes_in by lia. f_equal. lia.
    + fold (unroll mm data size r x). rewrite IH by done. assert (x ≠ k + j) by (intros ->; lia).
      unfold copy_bytes. repeat case_if; lia || done.
Qed.

Lemma copy_to_ring_outside m data size offset bytes n a :
  0 < size → a < data ∨ data + size ≤ a → vmbus_copy_to_ring m data size offset bytes n a = m a.
Proof.
  intros Hs Ha. unfold vmbus_copy_to_ring. apply (for_range_inv (λ mm : carray Z, mm a = m a)); [done|].
  intros j mm _ IH. rewrite arr_get_set_ne; [done|]. pose proof (Z.mod_pos_bound (offset ⊞ j) size Hs). lia.
Qed.

(** ** Packets *)

(** A packet: more header behind the descriptor, the payload with its padding, and the
    eight bytes behind it. *)
Record packet := {
  pk_type : Z;
  pk_flags : Z;
  pk_trans : Z;
  pk_header : list Z;
  pk_data : list Z;
  pk_trailer : list Z;
}.

Definition size_of (l : list Z) : Z := Z.of_nat (length l).
Definition pk_offset (p : packet) : Z := 16 + size_of (pk_header p).
Definition pk_length (p : packet) : Z := pk_offset p + size_of (pk_data p).

Record packet_wf (p : packet) : Prop := {
  pw_type : is_u16 (pk_type p);
  pw_trans : is_u64 (pk_trans p);
  pw_header : size_of (pk_header p) mod 8 = 0;
  pw_data : size_of (pk_data p) mod 8 = 0;
  pw_trailer : size_of (pk_trailer p) = 8;
}.

Definition encode (p : packet) : list Z :=
  le_bytes 2 (pk_type p) ++ le_bytes 2 (pk_offset p / 8) ++ le_bytes 2 (pk_length p / 8) ++ le_bytes 2 (pk_flags p)
  ++ le_bytes 8 (pk_trans p) ++ pk_header p ++ pk_data p ++ pk_trailer p.

Definition stream (ps : list packet) : list Z := concat (encode <$> ps).

Definition RING_BYTES : Z := 4096.

(** The ring with its indices at address [ring] holds the packets [ps]. *)
Record ring_holds (m : carray Z) (ring : Z) (ps : list packet) : Prop := {
  rh_wf : Forall packet_wf ps;
  rh_read : 0 ≤ read_index m ring < RING_BYTES;
  rh_fits : size_of (stream ps) < RING_BYTES;
  rh_write : write_index m ring = (read_index m ring + size_of (stream ps)) mod RING_BYTES;
  rh_bytes : has (unroll m (ring_buffer ring) RING_BYTES (read_index m ring)) 0 (stream ps);
}.

Lemma encode_length p : packet_wf p → size_of (encode p) = pk_length p + 8.
Proof.
  intros [_ _ _ _ Ht]. unfold encode, size_of in *. rewrite !length_app, !le_bytes_length.
  unfold pk_length, pk_offset, size_of. lia.
Qed.

Lemma stream_cons p ps : stream (p :: ps) = encode p ++ stream ps.
Proof. done. Qed.

Lemma stream_app ps qs : stream (ps ++ qs) = stream ps ++ stream qs.
Proof. unfold stream. by rewrite fmap_app, concat_app. Qed.

Lemma size_app l k : size_of (l ++ k) = size_of l + size_of k.
Proof. unfold size_of. rewrite length_app. lia. Qed.

Lemma size_nonneg l : 0 ≤ size_of l.
Proof. unfold size_of. lia. Qed.

Lemma ring_divides : (RING_BYTES | 4294967296).
Proof. exists 1048576. reflexivity. Qed.

Lemma data_size_two : vmbus_ring_data_size 2 = RING_BYTES.
Proof. reflexivity. Qed.

(** A change outside the ring keeps what it holds. *)
Lemma ring_holds_ext m m' ring ps :
  (∀ a, ring ≤ a < ring + 8192 → m' a = m a) → ring_holds m ring ps → ring_holds m' ring ps.
Proof.
  intros Ha [? Hr ? Hw Hb].
  assert (read_index m' ring = read_index m ring) as Er by (apply load32_ext; intros; apply Ha; lia).
  assert (write_index m' ring = write_index m ring) as Ew by (apply load32_ext; intros; apply Ha; lia).
  constructor; rewrite ?Er, ?Ew; [done..|].
  revert Hb. apply has_ext. intros i Hi. unfold unroll. symmetry. apply Ha.
  pose proof (Z.mod_pos_bound (read_index m ring + i) RING_BYTES ltac:(done)). unfold ring_buffer, VMBUS_RING_HEADER_SIZE, PAGE_SIZE, RING_BYTES in *. lia.
Qed.

(** What is in the ring can be read, and the rest can be written. *)
Lemma ring_space m ring ps :
  ring_holds m ring ps →
  vmbus_ring_bytes_to_read m ring 2 = size_of (stream ps) ∧ vmbus_ring_bytes_to_write m ring 2 = RING_BYTES - size_of (stream ps).
Proof.
  intros [_ Hr Hf Hw _]. unfold vmbus_ring_bytes_to_read, vmbus_ring_bytes_to_write. rewrite data_size_two, Hw.
  pose proof (size_nonneg (stream ps)). set (n := size_of (stream ps)) in *. set (r := read_index m ring) in *. unfold RING_BYTES in *.
  destruct (decide (r + n < 4096)) as [Hl|Hl].
  - rewrite (Z.mod_small (r + n)) by lia. split; case_if; word_lia.
  - assert ((r + n) mod 4096 = r + n - 4096) as -> by (symmetry; apply Z.mod_unique with 1; lia). split; case_if; word_lia.
Qed.

(** The descriptor at the head of the ring. *)
Lemma packet_fields f p rest :
  packet_wf p → pk_length p < RING_BYTES → has f 0 (encode p ++ rest) →
  load16 f 0 = pk_type p ∧ load16 f 2 * 8 = pk_offset p ∧ load16 f 4 * 8 = pk_length p ∧ load64 f 8 = pk_trans p
  ∧ has f (pk_offset p) (pk_data p) ∧ has f (pk_length p + 8) rest.
Proof.
  intros Hp Hl Hf. pose proof (encode_length p Hp) as Hen. apply has_app in Hf as [Hf Hrest].
  destruct Hp as [Ht Hs Hh Hd _]. pose proof (size_nonneg (pk_header p)). pose proof (size_nonneg (pk_data p)).
  unfold encode in Hf. repeat rewrite has_app in Hf. rewrite !le_bytes_length in Hf.
  destruct Hf as (H1&H2&H3&_&H5&_&H7&_). unfold pk_length, pk_offset, RING_BYTES in *.
  assert ((16 + size_of (pk_header p)) / 8 * 8 = 16 + size_of (pk_header p)) as Eo by word_lia.
  assert ((16 + size_of (pk_header p) + size_of (pk_data p)) / 8 * 8 = 16 + size_of (pk_header p) + size_of (pk_data p)) as El by word_lia.
  apply has_load in H1, H2, H3, H5. change (8 * Z.of_nat 2) with 16 in *. change (8 * Z.of_nat 8) with 64 in *.
  rewrite Z.mod_small in H1 by exact Ht. rewrite Z.mod_small in H2 by (change (2 ^ 16) with 65536; lia).
  rewrite Z.mod_small in H3 by (change (2 ^ 16) with 65536; lia). rewrite Z.mod_small in H5 by exact Hs.
  unfold load16, load64. change (0 + Z.of_nat 2) with 2 in *. change (2 + Z.of_nat 2) with 4 in *.
  change (4 + Z.of_nat 2 + Z.of_nat 2) with 8 in *. change (8 + Z.of_nat 8) with 16 in *.
  rewrite H1, H2, H3, H5. split_and!; [done..| |].
  - exact H7.
  - unfold size_of in *. by replace (16 + Z.of_nat (length (pk_header p)) + Z.of_nat (length (pk_data p)) + 8) with (0 + Z.of_nat (length (encode p))) by lia.
Qed.

(** ** Receiving *)

(** An open channel, which has read its incoming ring up to the read index. *)
Record receiver (c : vmbus_channel) (m : carray Z) : Prop := {
  rc_open : ch_open c ≠ 0;
  rc_pages : ring_page_count c = 4 ∧ send_page_count c = 2;
  rc_index : inbound_read_index c = read_index m (inbound_ring c);
}.

(** [recv_packet] on a channel with rings of two pages. *)
Lemma recv_unfold c buffer capacity m :
  receiver c m → 0 < capacity →
  vmbus_recv_packet c buffer capacity m =
    let ring := inbound_ring c in let r := read_index m ring in
    if vmbus_ring_bytes_to_read m ring 2 <? 16 then (None, c, m)
    else
      let descriptor := vmbus_copy_from_ring m (ring_buffer ring) RING_BYTES r (λ _, 0) 16 in
      let len := load16 descriptor 4 * 8 in
      let payload_offset := load16 descriptor 2 * 8 in
      let next := r ⊞ len ⊞ 8 in
      let next := if RING_BYTES <=? next then next mod RING_BYTES else next in
      (Some (vmbus_copy_from_ring m (ring_buffer ring) RING_BYTES (r ⊞ payload_offset) buffer (min_u32 (len ⊟ payload_offset) capacity),
             len ⊟ payload_offset, load64 descriptor 8, load16 descriptor 0), set_read_index next c, store32 m (ring + 4) next).
Proof.
  intros [Ho [Hp Hs] Hi] Hc. unfold vmbus_recv_packet. rewrite (proj2 (Z.eqb_neq _ _) Ho), Hp, Hs, Hi.
  change (4 ⊟ 2) with 2. rewrite data_size_two. unfold truthy. rewrite (proj2 (Z.eqb_neq capacity 0)) by lia. done.
Qed.

Lemma recv_empty c buffer capacity m :
  receiver c m → 0 < capacity → ring_holds m (inbound_ring c) [] → vmbus_recv_packet c buffer capacity m = (None, c, m).
Proof. intros Hc ? Hh. rewrite recv_unfold by done. cbv zeta. by rewrite (proj1 (ring_space _ _ _ Hh)). Qed.

(** The ring after its first packet. *)
Lemma ring_advance m ring p ps :
  ring_holds m ring (p :: ps) →
  let next := (read_index m ring + size_of (encode p)) mod RING_BYTES in
  ring_holds (store32 m (ring + 4) next) ring ps ∧ read_index (store32 m (ring + 4) next) ring = next.
Proof.
  intros [[Hp Hps]%Forall_cons Hr Hf Hw Hb] next. rewrite stream_cons, size_app in *.
  pose proof (size_nonneg (encode p)). pose proof (size_nonneg (stream ps)).
  assert (0 ≤ next < RING_BYTES) as Hn by (apply Z.mod_pos_bound; done).
  assert (read_index (store32 m (ring + 4) next) ring = next) as Er
    by (apply load32_store32_same; unfold is_u32, RING_BYTES in *; lia).
  split; [|exact Er]. constructor; rewrite ?Er; [done|done|lia| |].
  - unfold write_index. rewrite load32_store32_disj by lia. fold (write_index m ring). rewrite Hw. unfold next.
    rewrite Zplus_mod_idemp_l. f_equal. lia.
  - apply has_app in Hb as [_ Hb]. revert Hb. apply has_shift. intros i Hi. unfold unroll, size_of in *.
    assert ((read_index m ring + (0 + Z.of_nat (length (encode p)) + i)) mod RING_BYTES = (next + (0 + i)) mod RING_BYTES) as ->.
    { unfold next. rewrite Zplus_mod_idemp_l. f_equal. unfold size_of. lia. }
    symmetry. apply store32_other. pose proof (Z.mod_pos_bound (next + (0 + i)) RING_BYTES ltac:(done)).
    unfold ring_buffer, VMBUS_RING_HEADER_SIZE, PAGE_SIZE. lia.
Qed.

(** Receiving takes the first packet. *)
Lemma recv_packet c buffer capacity m p ps :
  receiver c m → 0 < capacity → ring_holds m (inbound_ring c) (p :: ps) →
  ∃ payload next,
    vmbus_recv_packet c buffer capacity m =
      (Some (payload, size_of (pk_data p), pk_trans p, pk_type p), set_read_index next c, store32 m (inbound_ring c + 4) next)
    ∧ has payload 0 (take (Z.to_nat capacity) (pk_data p))
    ∧ ring_holds (store32 m (inbound_ring c + 4) next) (inbound_ring c) ps
    ∧ receiver (set_read_index next c) (store32 m (inbound_ring c + 4) next).
Proof.
  intros Hc Hcap Hh. rewrite recv_unfold by done. cbv zeta. rewrite (proj1 (ring_space _ _ _ Hh)).
  destruct (ring_advance _ _ _ _ Hh) as [Hh' Er]. destruct Hh as [Hps Hr Hf _ Hb].
  assert (packet_wf p) as Hp by (by inversion Hps). pose proof (encode_length p Hp) as Hen.
  rewrite stream_cons in Hf, Hb. rewrite size_app in Hf. rewrite stream_cons, size_app.
  pose proof (size_nonneg (stream ps)). pose proof (size_nonneg (pk_data p)). pose proof (size_nonneg (pk_header p)). pose proof (size_nonneg (encode p)).
  set (ring := inbound_ring c) in *. set (r := read_index m ring) in *.
  rewrite (proj2 (Z.ltb_ge _ _)) by (unfold pk_length, pk_offset in *; lia).
  set (f := unroll m (ring_buffer ring) RING_BYTES r) in *.
  destruct (packet_fields f p (stream ps) Hp ltac:(lia) Hb) as (E1&E2&E3&E4&Hd&_).
  assert (∀ n a, 0 ≤ a → a + Z.of_nat n ≤ 16 →
    load_le n (vmbus_copy_from_ring m (ring_buffer ring) RING_BYTES r (λ _, 0) 16) a = load_le n f a) as Hl.
  { intros n a ? ?. apply load_le_ext. intros i ?. rewrite (copy_from_ring_get m _ _ r 0 r _ _ i);
      [|done|apply ring_divides|f_equal; lia|done]. rewrite copy_bytes_in by lia. unfold f. f_equal. lia. }
  unfold load16, load64 in *. rewrite !Hl, E1, E2, E3, E4 by lia.
  assert (pk_length p ⊟ pk_offset p = size_of (pk_data p)) as -> by (unfold pk_length, RING_BYTES, pk_offset in *; rewrite u32_small; lia).
  assert (r ⊞ pk_length p ⊞ 8 = r + size_of (encode p)) as ->
    by (unfold pk_length, pk_offset, RING_BYTES in *; rewrite (u32_small (r + _)) by lia; rewrite u32_small; lia).
  assert ((if RING_BYTES <=? r + size_of (encode p) then (r + size_of (encode p)) mod RING_BYTES else r + size_of (encode p))
    = (r + size_of (encode p)) mod RING_BYTES) as -> by (case_if; [done|by rewrite Z.mod_small by lia]).
  eexists _, _. split_and!; [reflexivity| |exact Hh'|].
  - assert (size_of (take (Z.to_nat capacity) (pk_data p)) = min_u32 (size_of (pk_data p)) capacity) as Et.
    { unfold size_of, min_u32. rewrite length_take. case_if; lia. }
    assert (has f (pk_offset p) (take (Z.to_nat capacity) (pk_data p))) as Ht.
    { rewrite <- (take_drop (Z.to_nat capacity) (pk_data p)) in Hd. by apply has_app in Hd as [Hd _]. }
    revert Ht. apply has_shift. intros i Hi. unfold size_of in Et at 1. rewrite Et in Hi.
    rewrite (copy_from_ring_get m _ _ r (pk_offset p) (r ⊞ pk_offset p) buffer _ (0 + i));
      [|done|apply ring_divides|by rewrite u32_mod by (done || apply ring_divides)|lia].
    rewrite copy_bytes_in by lia. unfold f. f_equal. lia.
  - destruct Hc as [? ? ?]. constructor; [done|done|]. cbn [set_read_index inbound_read_index inbound_ring]. fold ring. by rewrite Er.
Qed.

(** ** Sending *)

Definition padded (n : Z) : Z := (n + 7) / 8 * 8.

(** The packet for [n] bytes of [payload]. *)
Definition sent_packet (payload : carray Z) (n request_id flags : Z) : packet :=
  {| pk_type := VMBUS_PACKET_DATA_INBAND; pk_flags := u16 flags; pk_trans := request_id; pk_header := [];
     pk_data := slice payload 0 (Z.to_nat n) ++ repeat 0 (Z.to_nat (padded n - n)); pk_trailer := repeat 0 8 |}.

Lemma padded_bounds n : 0 ≤ n → n ≤ padded n < n + 8 ∧ padded n mod 8 = 0.
Proof. intros. unfold padded. word_lia. Qed.

Lemma sent_data_size payload n request_id flags : 0 ≤ n → size_of (pk_data (sent_packet payload n request_id flags)) = padded n.
Proof.
  intros Hn. destruct (padded_bounds n Hn) as [? _]. cbn [pk_data sent_packet]. rewrite size_app. unfold size_of.
  rewrite slice_length, repeat_length. lia.
Qed.

Lemma sent_packet_wf payload n request_id flags : 0 ≤ n → is_u64 request_id → packet_wf (sent_packet payload n request_id flags).
Proof.
  intros Hn Hi. destruct (padded_bounds n Hn) as [_ Hm]. constructor; [by vm_compute|done|done| |done].
  by rewrite sent_data_size.
Qed.

(** The bytes of a descriptor. *)
Lemma descriptor_has type offset8 len8 flags trans :
  has (descriptor_bytes type offset8 len8 flags trans) 0
    (le_bytes 2 type ++ le_bytes 2 offset8 ++ le_bytes 2 len8 ++ le_bytes 2 flags ++ le_bytes 8 trans).
Proof.
  unfold descriptor_bytes. repeat rewrite has_app. rewrite !le_bytes_length.
  split_and!; repeat (apply has_store || (apply has_store_other; [rewrite le_bytes_length; lia|])).
Qed.

(** Four writes one behind the other. *)
Lemma write_packet_spec m data r k w descriptor payload n aligned :
  0 ≤ r < RING_BYTES → 0 ≤ k → w = (r + k) mod RING_BYTES → 0 ≤ n → 16 + n ≤ aligned → k + aligned + 8 < RING_BYTES →
  ∃ m', write_packet m data RING_BYTES w descriptor payload n (16 + n) aligned = ((r + k + aligned + 8) mod RING_BYTES, m')
    ∧ (∀ a, a < data ∨ data + RING_BYTES ≤ a → m' a = m a)
    ∧ ∀ i, 0 ≤ i < RING_BYTES →
        unroll m' data RING_BYTES r i =
          copy_bytes (copy_bytes (copy_bytes (copy_bytes (unroll m data RING_BYTES r) k descriptor 0 16) (k + 16) payload 0 n)
            (k + 16 + n) (λ _, 0) 0 (aligned - 16 - n)) (k + aligned) (λ _, 0) 0 8 i.
Proof.
  intros Hr Hk Hw Hn Ha Hf.
  assert (∀ a j, 0 ≤ j < RING_BYTES → ((r + a) mod RING_BYTES ⊞ j) mod RING_BYTES = (r + (a + j)) mod RING_BYTES) as Hadd.
  { intros a j Hj. rewrite u32_mod by (done || apply ring_divides). rewrite Zplus_mod_idemp_l. f_equal. lia. }
  unfold write_packet. cbv zeta. change sizeof_descriptor with 16. change VMBUS_PKT_TRAILER with 8. rewrite Hw, !Hadd by lia.
  set (m1 := vmbus_copy_to_ring m data RING_BYTES ((r + k) mod RING_BYTES) descriptor 16).
  set (m2 := vmbus_copy_to_ring m1 data RING_BYTES ((r + (k + 16)) mod RING_BYTES) payload n).
  set (m3 := vmbus_copy_to_ring m2 data RING_BYTES ((r + (k + 16 + n)) mod RING_BYTES) (λ _, 0) (aligned - 16 - n)).
  assert ((if 16 + n <? aligned then (((r + (k + 16 + n)) mod RING_BYTES ⊞ (aligned ⊟ (16 + n))) mod RING_BYTES,
      vmbus_copy_to_ring m2 data RING_BYTES ((r + (k + 16 + n)) mod RING_BYTES) (λ _, 0) (aligned ⊟ (16 + n)))
    else ((r + (k + 16 + n)) mod RING_BYTES, m2)) = ((r + (k + aligned)) mod RING_BYTES, m3)) as ->.
  { case_if.
    - rewrite (u32_small (aligned - (16 + n))) by (unfold RING_BYTES in *; lia). rewrite Hadd by lia. unfold m3. f_equal; f_equal; [f_equal; lia|lia].
    - assert (aligned = 16 + n) as -> by lia. f_equal; [f_equal; lia|]. unfold m3, vmbus_copy_to_ring. by rewrite for_range_empty by lia. }
  rewrite Hadd by (unfold RING_BYTES; lia).
  eexists. split_and!; [f_equal; f_equal; lia| |].
  - intros a ?. unfold m3, m2, m1. by rewrite !copy_to_ring_outside.
  - assert (∀ mm (x : carray Z) o b c, (∀ i, 0 ≤ i < RING_BYTES → unroll mm data RING_BYTES r i = x i) → 0 ≤ o → 0 ≤ c → o + c ≤ RING_BYTES →
      ∀ i, 0 ≤ i < RING_BYTES → unroll (vmbus_copy_to_ring mm data RING_BYTES ((r + o) mod RING_BYTES) b c) data RING_BYTES r i
        = copy_bytes x o b 0 c i) as Hstep.
    { intros mm x o b c Hx ? ? ? i Hi. rewrite (copy_to_ring_get mm data RING_BYTES r o);
        [|done|apply ring_divides|by rewrite Z.mod_mod by done|lia..]. unfold copy_bytes. case_if; [done|by apply Hx]. }
    apply Hstep; [|lia..]. apply Hstep; [|lia..]. apply Hstep; [|lia..]. apply Hstep; [done|lia..].
Qed.

(** The four writes leave the bytes of the packet. *)
Lemma appended_bytes f k payload n request_id flags :
  0 ≤ n → 0 ≤ k →
  let p := sent_packet payload n request_id flags in
  has (copy_bytes (copy_bytes (copy_bytes (copy_bytes f k
        (descriptor_bytes VMBUS_PACKET_DATA_INBAND 2 (pk_length p / 8) (u16 flags) request_id) 0 16) (k + 16) payload 0 n)
          (k + 16 + n) (λ _, 0) 0 (16 + padded n - 16 - n)) (k + (16 + padded n)) (λ _, 0) 0 8) (0 + k) (encode p).
Proof.
  intros Hn Hk p. destruct (padded_bounds n Hn) as [Hpn _]. unfold encode.
  set (desc := descriptor_bytes _ _ _ _ _). pose proof (descriptor_has VMBUS_PACKET_DATA_INBAND 2 (pk_length p / 8) (u16 flags) request_id) as Hd.
  fold desc in Hd. cbn [pk_type pk_flags pk_trans pk_header pk_data pk_trailer p sent_packet] in *.
  change (pk_offset p / 8) with 2. rewrite app_nil_l. rewrite !app_assoc in *.
  set (head := ((((le_bytes 2 _ ++ _) ++ _) ++ _) ++ _)) in *.
  assert (length head = 16%nat) as Hl by (unfold head; rewrite !length_app, !le_bytes_length; lia).
  repeat rewrite has_app. rewrite !length_app, Hl, slice_length, repeat_length. split_and!.
  - revert Hd. apply has_shift. intros i Hi. rewrite Hl in Hi. rewrite 3!copy_bytes_out by lia. rewrite copy_bytes_in by lia. f_equal. lia.
  - pose proof (has_slice payload 0 (Z.to_nat n)) as Hs. revert Hs. apply has_shift. intros i Hi. rewrite slice_length in Hi.
    rewrite 2!copy_bytes_out by lia. rewrite copy_bytes_in by lia. f_equal. lia.
  - apply has_fill. intros i Hi. rewrite copy_bytes_out by lia. by rewrite copy_bytes_in by lia.
  - apply has_fill. intros i Hi. by rewrite copy_bytes_in by lia.
Qed.

(** The ring after bytes have been written behind those it holds and the write index has been moved. *)
Lemma ring_extend m m' ring ps qs :
  ring_holds m ring ps → Forall packet_wf qs → size_of (stream ps) + size_of (stream qs) < RING_BYTES →
  (∀ a, ring ≤ a < ring + PAGE_SIZE → m' a = m a) →
  let r := read_index m ring in let k := size_of (stream ps) in let f := unroll m' (ring_buffer ring) RING_BYTES r in
  (∀ i, 0 ≤ i < k → f i = unroll m (ring_buffer ring) RING_BYTES r i) → has f k (stream qs) →
  let w := (r + k + size_of (stream qs)) mod RING_BYTES in
  read_index (store32 m' ring w) ring = r ∧ ring_holds (store32 m' ring w) ring (ps ++ qs).
Proof.
  intros [Hps Hr _ Hw Hb] Hqs Hf Ho r k f Hu Hq w. pose proof (size_nonneg (stream ps)). pose proof (size_nonneg (stream qs)).
  fold r in Hr, Hb, Hw. fold k in Hf. assert (0 ≤ w < RING_BYTES) as Hw' by (apply Z.mod_pos_bound; done).
  assert (read_index (store32 m' ring w) ring = r) as Er.
  { unfold read_index. rewrite load32_store32_disj by lia. apply load32_ext. intros. apply Ho. unfold PAGE_SIZE. lia. }
  assert (∀ i, 0 ≤ i < RING_BYTES → unroll (store32 m' ring w) (ring_buffer ring) RING_BYTES r i = f i) as Eu.
  { intros i _. unfold f, unroll. apply store32_other. pose proof (Z.mod_pos_bound (r + i) RING_BYTES ltac:(done)). unfold ring_buffer, VMBUS_RING_HEADER_SIZE, PAGE_SIZE. lia. }
  split; [exact Er|]. constructor; rewrite ?Er, ?stream_app, ?size_app; fold k.
  - by apply Forall_app_2.
  - done.
  - lia.
  - unfold write_index. rewrite load32_store32_same by (unfold is_u32, RING_BYTES in *; lia). unfold w. f_equal. lia.
  - apply has_app. unfold size_of in k, Hf. split.
    + revert Hb. apply has_ext. intros i Hii. fold k in Hii. rewrite Eu by lia. symmetry. apply Hu. lia.
    + fold k. revert Hq. apply has_ext. intros i Hii. symmetry. apply Eu. lia.
Qed.

(** The ring after a packet has been sent. *)
Lemma ring_append m ring ps payload n request_id flags :
  ring_holds m ring ps → 0 ≤ n → is_u64 request_id → size_of (stream ps) + padded n + 24 < RING_BYTES →
  let p := sent_packet payload n request_id flags in
  ∃ w m', write_packet m (ring_buffer ring) RING_BYTES (write_index m ring)
            (descriptor_bytes VMBUS_PACKET_DATA_INBAND 2 (pk_length p / 8) (u16 flags) request_id) payload n (16 + n) (16 + padded n) = (w, m')
    ∧ read_index (store32 m' ring w) ring = read_index m ring
    ∧ ring_holds (store32 m' ring w) ring (ps ++ [p]).
Proof.
  intros Hh Hn Hi Hf p. assert (packet_wf p) as Hp by by apply sent_packet_wf.
  assert (size_of (stream [p]) = 16 + padded n + 8) as Es.
  { change (stream [p]) with (encode p ++ []). rewrite app_nil_r, encode_length by done. unfold pk_length, p. rewrite sent_data_size by done. done. }
  pose proof (rh_read _ _ _ Hh) as Hr. pose proof (rh_write _ _ _ Hh) as Hw. destruct (padded_bounds n Hn) as [Hpn _]. pose proof (size_nonneg (stream ps)).
  destruct (write_packet_spec m (ring_buffer ring) (read_index m ring) (size_of (stream ps)) (write_index m ring)
    (descriptor_bytes VMBUS_PACKET_DATA_INBAND 2 (pk_length p / 8) (u16 flags) request_id) payload n (16 + padded n)) as (m'&E&Ho&Hu);
    [done|done|done|done|lia|lia|].
  eexists _, m'. split; [exact E|].
  replace (read_index m ring + size_of (stream ps) + (16 + padded n) + 8) with (read_index m ring + size_of (stream ps) + size_of (stream [p])) by lia.
  apply ring_extend; [done|by apply Forall_singleton|lia| | |].
  - intros a ?. apply Ho. unfold ring_buffer, VMBUS_RING_HEADER_SIZE, PAGE_SIZE in *. lia.
  - intros i ?. rewrite Hu by lia. by rewrite !copy_bytes_out by lia.
  - pose proof (appended_bytes (unroll m (ring_buffer ring) RING_BYTES (read_index m ring)) (size_of (stream ps)) payload n request_id flags Hn ltac:(lia)) as Hap.
    cbv zeta in Hap. fold p in Hap. rewrite Z.add_0_l in Hap. change (stream [p]) with (encode p ++ []). rewrite app_nil_r.
    revert Hap. apply has_ext. intros i Hii. symmetry. apply Hu.
    change (stream [p]) with (encode p ++ []) in Es. rewrite app_nil_r in Es. unfold size_of in Es at 1. lia.
Qed.

Section ends.
Context {H : Type} `{!Hypervisor H}.
Implicit Types (b : bus H) (c d : vmbus_channel).

(** The pages that signalling a channel writes to, apart from its rings. *)
Definition signal_pages_clear b (ring : Z) : Prop :=
  ∀ a, ring ≤ a < ring + 8192 →
    ¬ vmbus_interrupt_page (vb b) ≤ a < vmbus_interrupt_page (vb b) + PAGE_SIZE ∧
    ¬ hyperv_monitor_page_phys (hv (gst b)) 1 ≤ a < hyperv_monitor_page_phys (hv (gst b)) 1 + PAGE_SIZE.

Record sender c b : Prop := {
  sd_open : ch_open c ≠ 0;
  sd_pages : send_page_count c = 2;
  sd_relid : 0 ≤ child_relid c;
  sd_monitor : 0 ≤ monitor_id c;
  sd_clear : signal_pages_clear b (outbound_ring c);
}.

(** The variables a signal leaves alone. *)
Definition same_pages b b' : Prop := vb b' = vb b ∧ hv (gst b') = hv (gst b).

Lemma same_pages_clear b b' ring : same_pages b b' → signal_pages_clear b ring → signal_pages_clear b' ring.
Proof. intros [E1 E2] Hc a Ha. rewrite E1, E2. by apply Hc. Qed.

Lemma signal_event_pmem id b :
  pmem (hyperv_signal_event id (gst b)).2 = pmem (gst b) ∧ hv (hyperv_signal_event id (gst b)).2 = hv (gst b).
Proof.
  unfold hyperv_signal_event, hyperv_do_fast_hypercall8. destruct (negb (hypercall_usable (gst b))); [done|]. by destruct (hv_fast_call _ _ _).
Qed.

Lemma signal_effect c b :
  0 ≤ child_relid c → 0 ≤ monitor_id c → signal_pages_clear b (outbound_ring c) →
  same_pages b (vmbus_signal_channel c b)
  ∧ ∀ a, outbound_ring c ≤ a < outbound_ring c + 8192 → pmem (gst (vmbus_signal_channel c b)) a = pmem (gst b) a.
Proof.
  intros Hrel Hmon Hcl.
  assert (same_pages b (vmbus_set_interrupt_bit (child_relid c) b)
    ∧ ∀ a, outbound_ring c ≤ a < outbound_ring c + 8192 → pmem (gst (vmbus_set_interrupt_bit (child_relid c) b)) a = pmem (gst b) a) as [[E1 E2] Hb].
  { unfold vmbus_set_interrupt_bit. case_if; [done|]. split; [done|]. intros a Ha. cbn [upd_pmem set_gst gst set_pmem pmem].
    apply arr_get_set_ne. destruct (Hcl a Ha) as [Hi _]. rewrite Z.shiftr_div_pow2 by done. change (2 ^ 3) with 8.
    unfold VMBUS_INTERRUPT_PAGE_HALF_BITS, VMBUS_INTERRUPT_PAGE_HALF_BYTES, PAGE_SIZE in *. intros <-. word_lia. }
  unfold vmbus_signal_channel. set (b1 := vmbus_set_interrupt_bit (child_relid c) b) in *. case_if; [|case_if; [|done]].
  - unfold hyperv_set_monitor_pending. case_if; [done|]. split; [done|]. intros a Ha.
    cbn [set_gst gst set_pmem pmem]. rewrite store32_other; [by apply Hb|]. destruct (Hcl a Ha) as [_ Hm]. rewrite E2.
    unfold PAGE_SIZE in *. word_lia.
  - destruct (signal_event_pmem (signal_connection_id c) b1) as [Ep Eh]. split; [split; [done|by cbn [set_gst gst]; rewrite Eh]|].
    intros a Ha. cbn [set_gst gst]. rewrite Ep. by apply Hb.
Qed.

Lemma align_up_packet n : 0 ≤ n < 2147483648 → align_up_u32 (16 + n) 8 = 16 + padded n.
Proof.
  intros Hn. unfold align_up_u32. change (8 ⊟ 1) with (2 ^ 3 - 1). change 8 with (2 ^ 3) at 1. rewrite align_mask by lia.
  unfold padded. change (2 ^ 3) with 8. word_lia.
Qed.

(** Sending appends the packet, if it fits, and changes nothing otherwise. *)
Lemma send_inband c b ps payload n request_id flags :
  sender c b → ring_holds (pmem (gst b)) (outbound_ring c) ps → 0 ≤ n < 2147483648 → is_u64 request_id →
  if size_of (stream ps) + padded n + 24 <? RING_BYTES then
    ∃ b', vmbus_send_inband c payload n request_id flags b = (0, b') ∧ sender c b'
      ∧ ring_holds (pmem (gst b')) (outbound_ring c) (ps ++ [sent_packet payload n request_id flags])
      ∧ read_index (pmem (gst b')) (outbound_ring c) = read_index (pmem (gst b)) (outbound_ring c)
  else vmbus_send_inband c payload n request_id flags b = (-1, b).
Proof.
  intros [Ho Hp Hrel Hmon Hcl] Hh Hn Hi. unfold vmbus_send_inband. rewrite (proj2 (Z.eqb_neq _ _) Ho), Hp. cbv zeta.
  change sizeof_descriptor with 16. destruct (padded_bounds n ltac:(lia)) as [Hpn _].
  rewrite (u32_small (16 + n)), align_up_packet, (u32_small (16 + padded n + _)) by (unfold VMBUS_PKT_TRAILER; lia).
  rewrite (proj2 (ring_space _ _ _ Hh)), data_size_two. change VMBUS_PKT_TRAILER with 8.
  set (m := pmem (gst b)) in *. set (ring := outbound_ring c) in *. pose proof (size_nonneg (stream ps)). case_if.
  - rewrite (proj2 (Z.leb_gt _ _)) by lia.
    destruct (ring_append m ring ps payload n request_id flags Hh ltac:(lia) Hi ltac:(lia)) as (w&m'&E2&Ei&Hh').
    assert (pk_length (sent_packet payload n request_id flags) = 16 + padded n) as El
      by (unfold pk_length; rewrite sent_data_size by lia; reflexivity).
    rewrite El in E2. rewrite (Z.shiftr_div_pow2 (16 + padded n) 3) by done. change (u16 (Z.shiftr 16 3)) with 2. change (2 ^ 3) with 8.
    rewrite (u16_small ((16 + padded n) / 8)) by (unfold RING_BYTES in *; word_lia). rewrite E2.
    case_if; [|by eexists; split_and!].
    destruct (signal_effect c (upd_pmem (λ _, store32 m' ring w) b)) as [Hsp Hpm]; [done..|].
    eexists; split_and!; [done| | |].
    + constructor; [done..|]. by apply (same_pages_clear _ _ _ Hsp).
    + by apply (ring_holds_ext (store32 m' ring w)).
    + rewrite <- Ei. apply load32_ext. intros a Ha. apply Hpm. fold ring. lia.
  - by rewrite (proj2 (Z.leb_le _ _)) by lia.
Qed.

(** ** Both ends of a ring *)

Inductive ring_op :=
| op_send (payload : carray Z) (n request_id flags : Z)
| op_recv.

(** What the ends see: the result of sending, or the type, the transaction and the payload of a
    packet, cut off at the capacity of the buffer. *)
Inductive seen := Sent (result : Z) | Got (packet : option (Z * Z * list Z)).

(** [c] sends, and the channel [d] at the other end receives. *)
Definition ring_step (buffer : carray Z) (capacity : Z) c (op : ring_op) (s : vmbus_channel * bus H) : seen * (vmbus_channel * bus H) :=
  let '(d, b) := s in
  match op with
  | op_send payload n request_id flags =>
      let '(r, b) := vmbus_send_inband c payload n request_id flags b in (Sent r, (d, b))
  | op_recv =>
      let '(got, d, m) := vmbus_recv_packet d buffer capacity (pmem (gst b)) in
      (Got ('(payload, size, trans, type) ← got; Some (type, trans, slice payload 0 (Z.to_nat (min_u32 size capacity)))),
       (d, upd_pmem (λ _, m) b))
  end.

(** The queue of packets that the ring is meant to be. *)
Definition queue_step (capacity : Z) (op : ring_op) (q : list packet) : seen * list packet :=
  match op with
  | op_send payload n request_id flags =>
      if size_of (stream q) + padded n + 24 <? RING_BYTES then (Sent 0, q ++ [sent_packet payload n request_id flags])
      else (Sent (-1), q)
  | op_recv =>
      match q with
      | [] => (Got None, [])
      | p :: q => (Got (Some (pk_type p, pk_trans p, take (Z.to_nat capacity) (pk_data p))), q)
      end
  end.

Fixpoint run_ops {S : Type} (step : ring_op → S → seen * S) (ops : list ring_op) (s : S) : list seen * S :=
  match ops with
  | [] => ([], s)
  | op :: ops => let '(x, s) := step op s in let '(xs, s) := run_ops step ops s in (x :: xs, s)
  end.

Definition op_ok (op : ring_op) : Prop :=
  match op with op_send _ n request_id _ => 0 ≤ n < 2147483648 ∧ is_u64 request_id | op_recv => True end.

(** The two ends share a ring that holds [q]. *)
Record ends c d b (q : list packet) : Prop := {
  en_sender : sender c b;
  en_receiver : receiver d (pmem (gst b));
  en_ring : inbound_ring d = outbound_ring c;
  en_holds : ring_holds (pmem (gst b)) (outbound_ring c) q;
}.

Lemma has_is_slice f a l : has f a l → slice f a (length l) = l.
Proof.
  intros Hl. apply list_eq. intros i. destruct (decide (i < length l)%nat).
  - rewrite slice_lookup by done. destruct (lookup_lt_is_Some_2 l i ltac:(done)) as [x Hx]. rewrite Hx. f_equal. by eapply has_lookup.
  - rewrite !lookup_ge_None_2; [done|lia|rewrite slice_length; lia].
Qed.

Lemma ring_step_refines buffer capacity c d b q op :
  0 < capacity → op_ok op → ends c d b q →
  let '(x, (d', b')) := ring_step buffer capacity c op (d, b) in
  let '(y, q') := queue_step capacity op q in x = y ∧ ends c d' b' q'.
Proof.
  intros Hcap Hop [Hs Hr Er Hh]. destruct op as [payload n request_id flags|]; cbn [ring_step queue_step].
  - destruct Hop as [Hn Hi]. pose proof (send_inband c b q payload n request_id flags Hs Hh Hn Hi) as Hsend. case_if.
    + destruct Hsend as (b'&E1&Hs'&Hh'&Ei). rewrite E1. split; [done|]. constructor; [done| |done|done].
      destruct Hr as [? ? Hx]. constructor; [done|done|]. rewrite Er in *. by rewrite Ei.
    + rewrite Hsend. done.
  - rewrite <- Er in Hh. destruct q as [|p q].
    + rewrite (recv_empty d buffer capacity _ Hr Hcap Hh). split; [done|]. rewrite Er in Hh. constructor; [by destruct Hs|done..].
    + destruct (recv_packet d buffer capacity _ p q Hr Hcap Hh) as (payload&next&E1&Hp&Hh'&Hr'). rewrite E1. split.
      * cbn [mbind option_bind]. do 3 f_equal. replace (Z.to_nat (min_u32 (size_of (pk_data p)) capacity)) with (length (take (Z.to_nat capacity) (pk_data p))).
        { by apply has_is_slice. } rewrite length_take. unfold min_u32, size_of. case_if; lia.
      * constructor; [|done|done|]. { by destruct Hs. } by rewrite <- Er.
Qed.

(** C18: The ring of a channel is a first-in first-out queue of packets.  Whatever the two ends do, in
    whatever order, they see what the ends of a queue see whose packets take less than 4096
    bytes: sending succeeds exactly when the packet fits and then appends it, and receiving
    takes the packets in the order in which they were sent, with their payload, wherever the
    ring wraps around. *)
Theorem ring_refines_queue buffer capacity c d b q ops :
  0 < capacity → Forall op_ok ops → ends c d b q →
  let '(xs, (d', b')) := run_ops (ring_step buffer capacity c) ops (d, b) in
  let '(ys, q') := run_ops (queue_step capacity) ops q in
  xs = ys ∧ ring_holds (pmem (gst b')) (outbound_ring c) q'.
Proof.
  intros Hcap Hops. revert d b q. induction Hops as [|op ops Hop _ IH]; intros d b q He; cbn [run_ops]; [by destruct He|].
  pose proof (ring_step_refines buffer capacity c d b q op Hcap Hop He) as Hstep.
  destruct (ring_step buffer capacity c op (d, b)) as [x [d1 b1]], (queue_step capacity op q) as [y q1]. destruct Hstep as [<- He1].
  specialize (IH d1 b1 q1 He1). destruct (run_ops (ring_step buffer capacity c) ops (d1, b1)) as [xs [d2 b2]], (run_ops (queue_step capacity) ops q1) as [ys q2].
  destruct IH as [<- Hh]. done.
Qed.
End ends.

(** ** Examples *)

(** A hypervisor that does nothing. *)
#[export] Instance no_hypervisor : Hypervisor unit :=
  {| cpuid _ _ := (0, 0, 0, 0); rdmsr _ _ := 0; wrmsr _ _ h := h; hv_call _ _ _ _ h := (0, h);
     hv_fast_call _ _ h := (0, h); hv_run m h := (m, h) |}.

Definition idle_bus : bus unit :=
  {| gst := {| current_platform := PLATFORM_KIND_HYPERV; hv := hyperv_bss; pages := palloc_bss; pmem := λ _, 0; host := tt |};
     vb := vmbus_bss |}.

(** The two ends of a ring at 64 KiB. *)
Definition near_end : vmbus_channel :=
  set_open 1 (new_channel zero_offer 65536 4 2 0).
Definition far_end : vmbus_channel := set_open 1 (new_channel zero_offer 57344 4 2 0).

Lemma idle_ends : ends near_end far_end idle_bus [].
Proof.
  constructor.
  - constructor; [done..|]. intros a Ha. change (outbound_ring near_end) with 65536 in Ha. cbn. unfold PAGE_SIZE. lia.
  - by constructor.
  - done.
  - constructor; [done|by vm_compute|done|done|done].
Qed.

Lemma ring_refines_queue_witness :
  let ops := [op_send (λ i, 10 + i) 3 7 0; op_recv; op_recv; op_send (λ _, 1) 4070 0 0] in
  let '(xs, (_, b')) := run_ops (ring_step (λ _, 0) 256 near_end) ops (far_end, idle_bus) in
  xs = [Sent 0; Got (Some (6, 7, [10; 11; 12; 0; 0; 0; 0; 0])); Got None; Sent (-1)]
  ∧ ring_holds (pmem (gst b')) 65536 [].
Proof.
  pose proof (ring_refines_queue (λ _, 0) 256 near_end far_end idle_bus []
    [op_send (λ i, 10 + i) 3 7 0; op_recv; op_recv; op_send (λ _, 1) 4070 0 0]) as Hq.
  cbv zeta. destruct (run_ops (ring_step (λ _, 0) 256 near_end) _ _) as [xs [d' b']].
  destruct (run_ops (queue_step 256) _ []) as [ys q'] eqn:Eq. vm_compute in Eq. injection Eq as <- <-.
  apply Hq; [lia|repeat constructor; lia|apply idle_ends].
Defined.
