(* ===== verification/HypervKeyboard.v ===== *)
(** * The synthetic keyboard ([src/kernel/hyperv_keyboard.c])

    The driver on a VMBus channel, and what the host promises about messages and packets
    ([HostLaws]).  The scan codes that the driver hands to [input_process_xt_scancode] are
    its output.  A poll ends, answers every message, and turns the key strokes in the ring and
    those that arrive into their scan codes, in order. *)

From S2P Require Import Prelude Mem Palloc Hyperv Vmbus VmbusRing.

Local Open Scope Z_scope.
Local Open Scope c_scope.

Definition SYNTH_KBD_VERSION : Z := 0x10000.
Definition SYNTH_KBD_PROTOCOL_REQUEST : Z := 1.
Definition SYNTH_KBD_PROTOCOL_RESPONSE : Z := 2.
Definition SYNTH_KBD_EVENT : Z := 3.
Definition PROTOCOL_ACCEPTED : Z := 1.
Definition SYNTH_KBD_INFO_UNICODE : Z := 1.
Definition SYNTH_KBD_INFO_BREAK : Z := 2.
Definition SYNTH_KBD_INFO_E0 : Z := 4.
Definition SYNTH_KBD_INFO_E1 : Z := 8.
Definition HYPERV_KBD_SEND_PAGES : Z := 2.
Definition HYPERV_KBD_RECV_PAGES : Z := 2.
Definition HYPERV_KBD_MAX_PACKET_SIZE : Z := 256.
Definition HYPERV_KBD_PROTOCOL_WAIT : Z := 200000.
Definition sizeof_kbd_header : Z := 4.
Definition sizeof_kbd_response : Z := 8.
Definition sizeof_kbd_keystroke : Z := 12.

Section keyboard.
Context {H : Type} `{!Hypervisor H}.

(** The statics of the file over those of the bus. *)
Record synthkbd := {
  kbd_bus : bus H;
  hyperv_keyboard_channel : vmbus_channel;
  hyperv_keyboard_ready : Z;
  hyperv_keyboard_protocol_ok : Z;
}.

Implicit Types s : synthkbd.

Definition set_bus (b : bus H) s : synthkbd :=
  {| kbd_bus := b; hyperv_keyboard_channel := hyperv_keyboard_channel s; hyperv_keyboard_ready := hyperv_keyboard_ready s;
     hyperv_keyboard_protocol_ok := hyperv_keyboard_protocol_ok s |}.
Definition set_channel (c : vmbus_channel) s : synthkbd :=
  {| kbd_bus := kbd_bus s; hyperv_keyboard_channel := c; hyperv_keyboard_ready := hyperv_keyboard_ready s;
     hyperv_keyboard_protocol_ok := hyperv_keyboard_protocol_ok s |}.
Definition set_ready (v : Z) s : synthkbd :=
  {| kbd_bus := kbd_bus s; hyperv_keyboard_channel := hyperv_keyboard_channel s; hyperv_keyboard_ready := v;
     hyperv_keyboard_protocol_ok := hyperv_keyboard_protocol_ok s |}.
Definition set_protocol_ok (v : Z) s : synthkbd :=
  {| kbd_bus := kbd_bus s; hyperv_keyboard_channel := hyperv_keyboard_channel s; hyperv_keyboard_ready := hyperv_keyboard_ready s;
     hyperv_keyboard_protocol_ok := v |}.

(** The scan codes of a key stroke. *)
Definition keystroke_codes (make_code info : Z) : list Z :=
  if truthy (Z.land info SYNTH_KBD_INFO_UNICODE) then []
  else
    (if truthy (Z.land info SYNTH_KBD_INFO_E0) then [0xE0] else []) ++
    (if truthy (Z.land info SYNTH_KBD_INFO_E1) then [0xE1] else []) ++
    let scan_code := u8 (Z.land make_code 0x7F) in
    [if truthy (Z.land info SYNTH_KBD_INFO_BREAK) then Z.lor scan_code 0x80 else scan_code].

Definition hyperv_keyboard_handle_message (message : carray Z) (message_length : Z) s : list Z * synthkbd :=
  if message_length <? sizeof_kbd_header then ([], s)
  else
    let type := load32 message 0 in
    if type =? SYNTH_KBD_PROTOCOL_RESPONSE then
      if message_length <? sizeof_kbd_response then ([], s)
      else if truthy (Z.land (load32 message 4) PROTOCOL_ACCEPTED) then ([], set_protocol_ok 1 s) else ([], s)
    else if type =? SYNTH_KBD_EVENT then
      if message_length <? sizeof_kbd_keystroke then ([], s)
      else (keystroke_codes (load16 message 4) (load32 message 8), s)
    else ([], s).

(** The loop over the packets in the ring, which may not end. *)
Fixpoint recv_packets (fuel : nat) (buffer : carray Z) s : option (list Z * synthkbd) :=
  match fuel with
  | O => None
  | S fuel =>
      let '(got, c, m) := vmbus_recv_packet (hyperv_keyboard_channel s) buffer HYPERV_KBD_MAX_PACKET_SIZE (pmem (gst (kbd_bus s))) in
      let s := set_channel c (set_bus (upd_pmem (λ _, m) (kbd_bus s)) s) in
      match got with
      | None => Some ([], s)
      | Some (buffer, payload_length, _, packet_type) =>
          let '(codes, s) :=
            if (packet_type =? VMBUS_PACKET_DATA_INBAND) || (packet_type =? VMBUS_PACKET_COMPLETION)
            then hyperv_keyboard_handle_message buffer payload_length s else ([], s) in
          '(more, s) ← recv_packets fuel buffer s;
          Some (codes ++ more, s)
      end
  end.

(** [fuel] bounds the messages and packets of a poll, [stack] is uninitialised. *)
Context (fuel : nat) (stack : carray Z).

Definition poll_channel s : option (list Z * synthkbd) :=
  b ← vmbus_poll fuel stack (kbd_bus s);
  recv_packets fuel stack (set_bus b s).

Fixpoint protocol_wait (attempts : nat) s : option (bool * list Z * synthkbd) :=
  match attempts with
  | O =>
      let '(c, b) := vmbus_close_channel (hyperv_keyboard_channel s) (kbd_bus s) in
      Some (false, [], set_channel c (set_bus b s))
  | S attempts =>
      '(codes, s) ← poll_channel s;
      if truthy (hyperv_keyboard_protocol_ok s) then Some (true, codes, set_ready 1 s)
      else '(found, more, s) ← protocol_wait attempts s; Some (found, codes ++ more, s)
  end.

Definition request_message : carray Z := store32 (store32 stack 0 SYNTH_KBD_PROTOCOL_REQUEST) 4 SYNTH_KBD_VERSION.

Definition hyperv_keyboard_init s : option (bool * list Z * synthkbd) :=
  if negb (platform_is_hyperv (gst (kbd_bus s))) || negb (vmbus_ready (kbd_bus s)) then Some (false, [], s)
  else if truthy (hyperv_keyboard_ready s) then Some (true, [], s)
  else match vmbus_find_offer vmbus_keyboard_guid (kbd_bus s) with
  | None => Some (false, [], s)
  | Some offer =>
      '(r, c, b) ← vmbus_open_channel fuel stack (hyperv_keyboard_channel s) offer HYPERV_KBD_SEND_PAGES HYPERV_KBD_RECV_PAGES (kbd_bus s);
      let s := set_channel c (set_bus b s) in
      if truthy r then Some (false, [], s)
      else
        let s := set_protocol_ok 0 s in
        let '(r, b) := vmbus_send_inband c request_message 8 1 VMBUS_DATA_PACKET_FLAG_COMPLETION_REQUESTED b in
        let s := set_bus b s in
        if truthy r then
          let '(c, b) := vmbus_close_channel c b in Some (false, [], set_channel c (set_bus b s))
        else protocol_wait (Z.to_nat HYPERV_KBD_PROTOCOL_WAIT) s
  end.

Definition hyperv_keyboard_poll s : option (list Z * synthkbd) :=
  if hyperv_keyboard_ready s =? 0 then Some ([], s) else poll_channel s.
End keyboard.

Arguments synthkbd : clear implicits.

(** ** What the host promises *)

(** The hypervisor delivers one message at a time.  It has a queue of messages ([waiting]), with
    their types and payloads.  While the slot for messages is empty it writes the next one
    there; it marks a message behind which others wait, and then waits for the end of message
    register ([held]).  The host appends its packets ([arriving]) to the ring at [in_ring] while they fit. *)
Class HostLaws (H : Type) `{!Hypervisor H} := {
  simp : H → Z;
  waiting : H → list (Z * list Z);
  held : H → bool;
  in_ring : H → Z;
  arriving : H → list packet;
  run_keeps m h : simp (hv_run m h).2 = simp h ∧ in_ring (hv_run m h).2 = in_ring h;
  run_message m h :
    in_ring h + 8192 ≤ simp h + 512 ∨ simp h + 768 ≤ in_ring h →
    let slot := simp h + 512 in let '(m', h') := hv_run m h in
    if (load32 m slot =? 0) && negb (held h) then
      match waiting h with
      | [] => load32 m' slot = 0 ∧ waiting h' = [] ∧ held h' = false
      | (t, p) :: rest =>
          load32 m' slot = t ∧ t ≠ 0 ∧ m' (slot + 4) = size_of p ∧ size_of p ≤ VMBUS_MAX_MESSAGE_SIZE ∧ has m' (slot + 16) p
          ∧ m' (slot + 5) = (match rest with [] => 0 | _ => 1 end)
          ∧ waiting h' = rest ∧ held h' = match rest with [] => false | _ => true end
      end
    else load32 m' slot = load32 m slot ∧ waiting h' = waiting h ∧ held h' = held h;
  run_ring m h ps :
    in_ring h + 8192 ≤ simp h + 512 ∨ simp h + 768 ≤ in_ring h →
    ring_holds m (in_ring h) ps → size_of (stream (ps ++ arriving h)) < RING_BYTES →
    let '(m', h') := hv_run m h in
    ring_holds m' (in_ring h) (ps ++ arriving h) ∧ read_index m' (in_ring h) = read_index m (in_ring h) ∧ arriving h' = [];
  eom_law v h :
    let h' := wrmsr HV_X64_MSR_EOM v h in
    simp h' = simp h ∧ waiting h' = waiting h ∧ held h' = false ∧ in_ring h' = in_ring h ∧ arriving h' = arriving h;
}.

Section poll.
Context {H : Type} `{!Hypervisor H} `{!HostLaws H}.
Implicit Types (b : bus H) (g : guest H).

(** Guest and host agree on the message page, which the ring does not touch, and no message
    waits for an answer. *)
Record attentive b : Prop := {
  at_active : hyperv_synic_active (hv (gst b)) = true;
  at_page : hyperv_message_page (hv (gst b)) ≠ 0 ∧ simp (host (gst b)) = hyperv_message_page (hv (gst b));
  at_slot : load32 (pmem (gst b)) (simp (host (gst b)) + 512) = 0;
  at_held : held (host (gst b)) = false;
  at_apart : in_ring (host (gst b)) + 8192 ≤ simp (host (gst b)) + 512 ∨ simp (host (gst b)) + 768 ≤ in_ring (host (gst b));
}.

(** The ring of the host holds [ps], and will hold [ps] and what arrives. *)
Definition incoming_ring b (ps : list packet) : Prop :=
  ring_holds (pmem (gst b)) (in_ring (host (gst b))) ps ∧ size_of (stream (ps ++ arriving (host (gst b)))) < RING_BYTES.

Lemma handle_message_gst t n buffer b : gst (handle_message t n buffer b) = gst b.
Proof. unfold handle_message, vmbus_handle_offer. by repeat case_if. Qed.

(** What a look at the message page does. *)
Lemma poll_message_step b buffer ps :
  attentive b → incoming_ring b ps →
  let ps' := ps ++ arriving (host (gst b)) in
  ∃ g', hv g' = hv (gst b) ∧ pages g' = pages (gst b) ∧ in_ring (host g') = in_ring (host (gst b))
    ∧ read_index (pmem g') (in_ring (host g')) = read_index (pmem (gst b)) (in_ring (host (gst b)))
    ∧ attentive (set_gst g' b) ∧ incoming_ring (set_gst g' b) ps' ∧ arriving (host g') = []
    ∧ match waiting (host (gst b)) with
      | [] => hyperv_poll_message HYPERV_VMBUS_SINT_INDEX buffer VMBUS_MAX_MESSAGE_SIZE (gst b) = (None, g') ∧ waiting (host g') = []
      | (t, p) :: rest =>
          waiting (host g') = rest ∧ ∃ buffer', has buffer' 0 p
            ∧ hyperv_poll_message HYPERV_VMBUS_SINT_INDEX buffer VMBUS_MAX_MESSAGE_SIZE (gst b) = (Some (t, size_of p, buffer'), g')
      end.
Proof.
  intros [Ha [Hz Hsm] Hsl Hhe Hap] [Hr Hfit] ps'. unfold hyperv_poll_message.
  pose proof (run_keeps (pmem (gst b)) (host (gst b))) as [Ek1 Ek2].
  pose proof (run_message (pmem (gst b)) (host (gst b)) Hap) as Hm. pose proof (run_ring (pmem (gst b)) (host (gst b)) ps Hap Hr Hfit) as Hring.
  destruct (hv_run (pmem (gst b)) (host (gst b))) as [m1 h1]. cbn [snd] in *. destruct Hring as (Hr1&Er1&Earr).
  cbn [set_host set_pmem hv pmem host pages]. rewrite Ha, (proj2 (Z.eqb_neq _ _) Hz). change (HV_SYNIC_SINT_COUNT <=? HYPERV_VMBUS_SINT_INDEX) with false.
  cbn [negb orb]. unfold message_slot. cbn [set_host set_pmem hv]. change (HYPERV_VMBUS_SINT_INDEX * sizeof_hyperv_message) with 512.
  rewrite <- Hsm in *. rewrite Hsl, Hhe in Hm. cbn [negb andb] in Hm. change (0 =? 0) with true in Hm. cbn [andb] in Hm.
  set (slot := simp (host (gst b)) + 512) in *. set (ring := in_ring (host (gst b))) in *.
  destruct (waiting (host (gst b))) as [|[t p] rest] eqn:Ew.
  - destruct Hm as (E0&Ew1&Eh1). rewrite E0. change (0 =? 0) with true. cbn [negb].
    eexists. split_and!; [| | | | | | |reflexivity|exact Ew1]; cbn [set_gst gst hv pages host pmem set_pmem set_host]; try done.
    + by rewrite Ek2.
    + constructor; cbn [set_gst gst hv pages host pmem set_pmem set_host]; rewrite ?Ek1, ?Ek2, <- ?Hsm; done.
    + split; cbn [set_gst gst hv pages host pmem set_pmem set_host]; rewrite ?Ek2, ?Earr, ?app_nil_r; done.
  - destruct Hm as (E0&Ht&E4&Hp&Hhas&E5&Ew1&Eh1). rewrite E0, (proj2 (Z.eqb_neq _ _) Ht), E4, E5.
    rewrite (proj2 (Z.ltb_ge _ _)) by done.
    set (m2 := store32 m1 slot 0).
    assert (ring_holds m2 ring ps' ∧ read_index m2 ring = read_index (pmem (gst b)) ring) as [Hr2 Er2].
    { assert (∀ a, ring ≤ a < ring + 8192 → m2 a = m1 a) as Hsame by (intros a ?; apply store32_other; unfold slot; lia).
      split; [by apply (ring_holds_ext m1)|]. rewrite <- Er1. apply load32_ext. intros. apply Hsame. lia. }
    assert (load32 m2 slot = 0) as Es2 by (by apply load32_store32_same).
    assert (has (copy_bytes buffer 0 m1 (slot + 16) (size_of p)) 0 p) as Hbuf.
    { revert Hhas. apply has_shift. intros i Hi. unfold size_of. rewrite copy_bytes_in by lia. f_equal. lia. }
    destruct (eom_law 0 h1) as (Ee1&Ee2&Ee3&Ee4&Ee5).
    destruct rest as [|x rest].
    + change (truthy (Z.land 0 1)) with false. eexists. split_and!; [| | | | | | | |eexists; split; [exact Hbuf|reflexivity]];
        cbn [set_gst gst hv pages host pmem set_pmem set_host]; rewrite ?Ek2; try done.
      * constructor; cbn [set_gst gst hv pages host pmem set_pmem set_host]; rewrite ?Ek1, ?Ek2, <- ?Hsm; done.
      * split; cbn [set_gst gst hv pages host pmem set_pmem set_host]; rewrite ?Ek2, ?Earr, ?app_nil_r; done.
    + change (truthy (Z.land 1 1)) with true. eexists. split_and!; [| | | | | | | |eexists; split; [exact Hbuf|reflexivity]];
        cbn [set_gst gst hv pages host pmem set_pmem set_host write_msr]; rewrite ?Ee1, ?Ee2, ?Ee4, ?Ee5, ?Ek2; try done.
      * constructor; cbn [set_gst gst hv pages host pmem set_pmem set_host write_msr]; rewrite ?Ee1, ?Ee3, ?Ee4, ?Ek1, ?Ek2, <- ?Hsm; done.
      * split; cbn [set_gst gst hv pages host pmem set_pmem set_host write_msr]; rewrite ?Ee4, ?Ee5, ?Ek2, ?Earr, ?app_nil_r; done.
Qed.

(** Each of the messages has been handled, in order. *)
Inductive answered : list (Z * list Z) → vmbus → vmbus → Prop :=
| answered_nil v : answered [] v v
| answered_cons t p buffer msgs b v :
    has buffer 0 p → answered msgs (vb (handle_message t (size_of p) buffer b)) v → answered ((t, p) :: msgs) (vb b) v.

(** The other parts of the state of a bus after a poll. *)
Record polled b ps b' : Prop := {
  po_attentive : attentive b';
  po_waiting : waiting (host (gst b')) = [];
  po_ring : in_ring (host (gst b')) = in_ring (host (gst b));
  po_holds : ring_holds (pmem (gst b')) (in_ring (host (gst b))) (ps ++ arriving (host (gst b)));
  po_read : read_index (pmem (gst b')) (in_ring (host (gst b))) = read_index (pmem (gst b)) (in_ring (host (gst b)));
}.

Lemma poll_delivers fuel buffer b ps :
  attentive b → incoming_ring b ps → (length (waiting (host (gst b))) < fuel)%nat →
  ∃ b', poll_messages fuel buffer b = Some b' ∧ polled b ps b' ∧ answered (waiting (host (gst b))) (vb b) (vb b').
Proof.
  revert buffer b ps. induction fuel as [|fuel IH]; intros buffer b ps Ha Hi Hf; [lia|]. cbn [poll_messages].
  destruct (poll_message_step b buffer ps Ha Hi) as (g'&_&_&Ein&Er&Ha'&Hi'&Earr&Hw).
  destruct (waiting (host (gst b))) as [|[t p] rest].
  - destruct Hw as [-> Ew]. eexists. split; [reflexivity|]. split; [|constructor].
    destruct Hi' as [Hh _]. cbn [set_gst gst] in Hh. rewrite Ein in Hh. constructor; [done..| |]; cbn [set_gst gst]; [done|by rewrite Ein in Er].
  - destruct Hw as (Ew&buffer'&Hb&->). set (b1 := handle_message t (size_of p) buffer' (set_gst g' b)).
    assert (gst b1 = g') as Eg by apply handle_message_gst.
    assert (attentive b1) as Ha1 by (destruct Ha'; constructor; rewrite Eg; done).
    assert (incoming_ring b1 (ps ++ arriving (host (gst b)))) as Hi1 by (destruct Hi'; split; rewrite Eg; done).
    destruct (IH buffer' b1 _ Ha1 Hi1) as (b'&E&[P1 P2 P3 P4 P5]&Han); [rewrite Eg, Ew; simpl in Hf; lia|].
    exists b'. split; [exact E|]. rewrite Eg, Earr, app_nil_r, Ein in *. split.
    + constructor; [done..|by rewrite P5].
    + apply (answered_cons t p buffer' rest (set_gst g' b)); [done|]. by rewrite Ew in Han.
Qed.

(** ** Key strokes *)

(** A packet with a key stroke. *)
Definition is_keystroke (p : packet) (key : Z * Z) : Prop :=
  let '(make_code, info) := key in
  (pk_type p = VMBUS_PACKET_DATA_INBAND ∨ pk_type p = VMBUS_PACKET_COMPLETION) ∧ is_u16 make_code ∧ is_u32 info ∧
  ∃ reserved rest, pk_data p = le_bytes 4 SYNTH_KBD_EVENT ++ le_bytes 2 make_code ++ le_bytes 2 reserved ++ le_bytes 4 info ++ rest.

Definition key_codes_of (keys : list (Z * Z)) : list Z := concat ((λ '(make_code, info), keystroke_codes make_code info) <$> keys).

(** The head of the buffer with a packet, however long it is. *)
Lemma keystroke_handled p key payload (s : synthkbd H) :
  is_keystroke p key → has payload 0 (take 256 (pk_data p)) →
  hyperv_keyboard_handle_message payload (size_of (pk_data p)) s = (keystroke_codes key.1 key.2, s).
Proof.
  destruct key as [make_code info]. intros (_&Hm&Hi&reserved&rest&E) Hp. rewrite E in Hp.
  set (head := le_bytes 4 SYNTH_KBD_EVENT ++ le_bytes 2 make_code ++ le_bytes 2 reserved ++ le_bytes 4 info) in *.
  assert (le_bytes 4 SYNTH_KBD_EVENT ++ le_bytes 2 make_code ++ le_bytes 2 reserved ++ le_bytes 4 info ++ rest = head ++ rest) as Eh
    by (unfold head; by rewrite <- !app_assoc).
  assert (length head = 12%nat) as Hl by (unfold head; rewrite !length_app, !le_bytes_length; lia).
  rewrite Eh, take_app, take_ge in Hp by lia. apply has_app in Hp as [Hp _]. unfold head in Hp.
  repeat rewrite has_app in Hp. rewrite !le_bytes_length in Hp. destruct Hp as (H1&H2&_&H4).
  apply has_load in H1, H2, H4. rewrite Z.mod_small in H2 by exact Hm. rewrite Z.mod_small in H4 by exact Hi.
  assert (12 ≤ size_of (pk_data p)) by (rewrite E, Eh, size_app; unfold size_of; lia).
  unfold hyperv_keyboard_handle_message, sizeof_kbd_header, sizeof_kbd_keystroke.
  rewrite (proj2 (Z.ltb_ge _ 4)), (proj2 (Z.ltb_ge _ 12)) by lia. unfold load32, load16. rewrite H1.
  change (SYNTH_KBD_EVENT mod _ =? SYNTH_KBD_PROTOCOL_RESPONSE) with false. change (SYNTH_KBD_EVENT mod _ =? SYNTH_KBD_EVENT) with true.
  change (0 + Z.of_nat 4) with 4 in H2. change (0 + Z.of_nat 4 + Z.of_nat 2 + Z.of_nat 2) with 8 in H4. cbn [fst snd]. by rewrite H2, H4.
Qed.

Lemma stream_size ps : Forall packet_wf ps → 24 * Z.of_nat (length ps) ≤ size_of (stream ps).
Proof.
  induction 1 as [|p ps Hp _ IH]; [done|]. rewrite stream_cons, size_app, encode_length by done. unfold pk_length, pk_offset.
  pose proof (size_nonneg (pk_header p)). pose proof (size_nonneg (pk_data p)). simpl length. lia.
Qed.

Lemma recv_keys fuel buffer (s : synthkbd H) ps keys :
  receiver (hyperv_keyboard_channel s) (pmem (gst (kbd_bus s))) → Forall2 is_keystroke ps keys →
  ring_holds (pmem (gst (kbd_bus s))) (inbound_ring (hyperv_keyboard_channel s)) ps → (length ps < fuel)%nat →
  ∃ s', recv_packets fuel buffer s = Some (key_codes_of keys, s')
    ∧ receiver (hyperv_keyboard_channel s') (pmem (gst (kbd_bus s')))
    ∧ inbound_ring (hyperv_keyboard_channel s') = inbound_ring (hyperv_keyboard_channel s)
    ∧ ring_holds (pmem (gst (kbd_bus s'))) (inbound_ring (hyperv_keyboard_channel s)) []
    ∧ vb (kbd_bus s') = vb (kbd_bus s).
Proof.
  revert buffer s ps keys. induction fuel as [|fuel IH]; intros buffer s ps keys Hr Hk Hh Hf; [lia|]. cbn [recv_packets].
  destruct Hk as [|p key ps keys Hp Hk].
  - rewrite (recv_empty _ buffer HYPERV_KBD_MAX_PACKET_SIZE _ Hr ltac:(done) Hh). eexists. split_and!; [reflexivity|done|done|done|done].
  - destruct (recv_packet _ buffer HYPERV_KBD_MAX_PACKET_SIZE _ p ps Hr ltac:(done) Hh) as (payload&next&E&Hpay&Hh'&Hr'). rewrite E.
    assert ((pk_type p =? VMBUS_PACKET_DATA_INBAND) || (pk_type p =? VMBUS_PACKET_COMPLETION) = true) as ->.
    { destruct key, Hp as [[->| ->] _]; done. }
    rewrite (keystroke_handled p key payload _ Hp Hpay).
    set (s1 := set_channel _ _). destruct (IH payload s1 ps keys Hr' Hk Hh') as (s'&E'&Hr2&Ei&Hh2&Ev); [simpl in Hf; lia|].
    rewrite E'. cbn [mbind option_bind]. eexists. split; [|done]. destruct key. done.
Qed.

(** C19: From the host to the input queue.  A poll of the synthetic keyboard ends.  It answers every message that waits,
    in order, and returns the scan codes of the key strokes that were in the ring and of
    those that the host added, each once and in order; then the ring is empty, and the
    next poll starts from such a state again. *)
Theorem keyboard_poll_delivers fuel stack (s : synthkbd H) ps keys :
  hyperv_keyboard_ready s ≠ 0 → attentive (kbd_bus s) →
  receiver (hyperv_keyboard_channel s) (pmem (gst (kbd_bus s))) →
  inbound_ring (hyperv_keyboard_channel s) = in_ring (host (gst (kbd_bus s))) →
  incoming_ring (kbd_bus s) ps → Forall2 is_keystroke (ps ++ arriving (host (gst (kbd_bus s)))) keys →
  (171 ≤ fuel ∧ length (waiting (host (gst (kbd_bus s)))) < fuel)%nat →
  ∃ s', hyperv_keyboard_poll fuel stack s = Some (key_codes_of keys, s')
    ∧ answered (waiting (host (gst (kbd_bus s)))) (vb (kbd_bus s)) (vb (kbd_bus s'))
    ∧ receiver (hyperv_keyboard_channel s') (pmem (gst (kbd_bus s')))
    ∧ ring_holds (pmem (gst (kbd_bus s'))) (inbound_ring (hyperv_keyboard_channel s')) [].
Proof.
  intros Hready Ha Hr Ein Hi Hk [Hf1 Hf2]. unfold hyperv_keyboard_poll. rewrite (proj2 (Z.eqb_neq _ _) Hready).
  unfold poll_channel, vmbus_poll. destruct (poll_delivers fuel stack _ ps Ha Hi Hf2) as (b'&->&[_ _ _ Hh Er]&Han). cbn [mbind option_bind].
  rewrite <- Ein in Hh, Er.
  destruct (recv_keys fuel stack (set_bus b' s) (ps ++ arriving (host (gst (kbd_bus s)))) keys) as (s'&E&Hr'&Ei&Hh'&Ev).
  - destruct Hr as [? ? Hx]. constructor; [done|done|]. cbn [set_bus kbd_bus hyperv_keyboard_channel]. by rewrite Er.
  - done.
  - done.
  - pose proof (stream_size _ (rh_wf _ _ _ Hh)). destruct Hi as [_ Hfit]. unfold RING_BYTES in Hfit. lia.
  - exists s'. split_and!; [exact E| |exact Hr'|by rewrite Ei]. by rewrite Ev.
Qed.
End poll.

(** ** Example *)

(** A host with [h_offers] announcements that all offers have been made, and key strokes to send. *)
Record toy_host := { h_simp : Z; h_offers : nat; h_held : bool; h_ring : Z; h_keys : list (Z * Z) }.

Definition offers_message : Z * list Z := (1, le_bytes 4 CHANNELMSG_ALLOFFERS_DELIVERED ++ le_bytes 4 0).

Definition key_packet (key : Z * Z) : packet :=
  {| pk_type := VMBUS_PACKET_DATA_INBAND; pk_flags := 0; pk_trans := 0; pk_header := [];
     pk_data := le_bytes 4 SYNTH_KBD_EVENT ++ le_bytes 2 key.1 ++ le_bytes 2 0 ++ le_bytes 4 key.2 ++ [0; 0; 0; 0];
     pk_trailer := repeat 0 8 |}.

Lemma key_packet_wf key : packet_wf (key_packet key).
Proof. constructor; [by vm_compute|by vm_compute|done|done|done]. Qed.

(** The packets [qs] behind the write index. *)
Definition put_packets (m : carray Z) (ring : Z) (qs : list packet) : carray Z :=
  let bytes := stream qs in
  let m' := vmbus_copy_to_ring m (ring_buffer ring) RING_BYTES (write_index m ring) (literal_bytes bytes) (size_of bytes) in
  store32 m' ring ((write_index m ring + size_of bytes) mod RING_BYTES).

Definition put_message (m : carray Z) (slot : Z) (more : bool) : carray Z :=
  let m := store32 m slot offers_message.1 in
  let m := copy_bytes m (slot + 16) (literal_bytes offers_message.2) 0 8 in
  <[slot + 5 := if more then 1 else 0]> (<[slot + 4 := 8]> m).

Definition toy_run (m : carray Z) (h : toy_host) : carray Z * toy_host :=
  let slot := h_simp h + 512 in
  let m1 := put_packets m (h_ring h) (key_packet <$> h_keys h) in
  match h_offers h with
  | S n =>
      if (load32 m slot =? 0) && negb (h_held h) then
        let more := match n with O => false | _ => true end in
        (put_message m1 slot more, {| h_simp := h_simp h; h_offers := n; h_held := more; h_ring := h_ring h; h_keys := [] |})
      else (m1, {| h_simp := h_simp h; h_offers := h_offers h; h_held := h_held h; h_ring := h_ring h; h_keys := [] |})
  | O => (m1, {| h_simp := h_simp h; h_offers := 0; h_held := h_held h; h_ring := h_ring h; h_keys := [] |})
  end.

#[export] Instance toy_hypervisor : Hypervisor toy_host :=
  {| cpuid _ _ := (0, 0, 0, 0); rdmsr _ _ := 0;
     wrmsr r _ h := if r =? HV_X64_MSR_EOM
       then {| h_simp := h_simp h; h_offers := h_offers h; h_held := false; h_ring := h_ring h; h_keys := h_keys h |} else h;
     hv_call _ _ _ _ h := (0, h); hv_fast_call _ _ h := (0, h); hv_run := toy_run |}.

Lemma put_packets_outside m ring qs a : a < ring ∨ ring + 8192 ≤ a → put_packets m ring qs a = m a.
Proof.
  intros Ha. unfold put_packets. rewrite store32_other by lia. apply copy_to_ring_outside; [done|].
  unfold ring_buffer, VMBUS_RING_HEADER_SIZE, PAGE_SIZE, RING_BYTES. lia.
Qed.

Lemma literal_has l : has (literal_bytes l) 0 l.
Proof.
  enough (∀ k : list Z, has (literal_bytes (k ++ l)) (Z.of_nat (length k)) l) as Hk by apply (Hk []).
  induction l as [|x l IH]; intros k; simpl; [done|]. split.
  - unfold literal_bytes. rewrite Nat2Z.id, app_nth2 by lia. by rewrite Nat.sub_diag.
  - specialize (IH (k ++ [x])). rewrite <- app_assoc, length_app in IH. simpl in IH. by replace (Z.of_nat (length k) + 1) with (Z.of_nat (length k + 1)) by lia.
Qed.

Lemma put_packets_holds m ring ps qs :
  ring_holds m ring ps → Forall packet_wf qs → size_of (stream (ps ++ qs)) < RING_BYTES →
  ring_holds (put_packets m ring qs) ring (ps ++ qs) ∧ read_index (put_packets m ring qs) ring = read_index m ring.
Proof.
  intros Hh Hqs Hf. rewrite stream_app, size_app in Hf. unfold put_packets.
  pose proof (rh_read _ _ _ Hh) as Hr. pose proof (rh_write _ _ _ Hh) as Hw.
  pose proof (size_nonneg (stream ps)). pose proof (size_nonneg (stream qs)).
  set (m' := vmbus_copy_to_ring _ _ _ _ _ _).
  assert (∀ i, 0 ≤ i < RING_BYTES → unroll m' (ring_buffer ring) RING_BYTES (read_index m ring) i =
    copy_bytes (unroll m (ring_buffer ring) RING_BYTES (read_index m ring)) (size_of (stream ps)) (literal_bytes (stream qs)) 0 (size_of (stream qs)) i) as Hu.
  { intros i Hi. apply copy_to_ring_get; [done|apply ring_divides|by rewrite Hw, Z.mod_mod|lia..]. }
  rewrite Hw, Zplus_mod_idemp_l. apply and_comm. apply ring_extend; [done|done|lia| | |].
  - intros a Ha. apply copy_to_ring_outside; [done|]. unfold ring_buffer, VMBUS_RING_HEADER_SIZE. lia.
  - intros i Hi. rewrite Hu by lia. by rewrite copy_bytes_out by lia.
  - pose proof (literal_has (stream qs)) as Hl. revert Hl. apply has_shift. intros i Hi. unfold size_of in *.
    rewrite Hu by lia. rewrite copy_bytes_in by lia. f_equal. lia.
Qed.

Lemma put_message_fields m slot more :
  let m' := put_message m slot more in
  load32 m' slot = 1 ∧ m' (slot + 4) = 8 ∧ m' (slot + 5) = (if more then 1 else 0) ∧ has m' (slot + 16) offers_message.2
  ∧ ∀ a, a < slot ∨ slot + 256 ≤ a → m' a = m a.
Proof.
  cbv zeta. unfold put_message. split_and!.
  - etrans; [apply load32_ext; intros a Ha; rewrite !arr_get_set_ne, copy_bytes_out by lia; reflexivity|].
    by apply load32_store32_same.
  - rewrite arr_get_set_ne by lia. apply arr_get_set_eq.
  - apply arr_get_set_eq.
  - pose proof (literal_has offers_message.2) as Hl. revert Hl. apply has_shift. intros i Hi. change (Z.of_nat (length _)) with 8 in Hi.
    rewrite !arr_get_set_ne, copy_bytes_in by lia. f_equal. lia.
  - intros a Ha. rewrite !arr_get_set_ne, copy_bytes_out, store32_other by lia. done.
Qed.

#[export] Program Instance toy_laws : HostLaws toy_host :=
  {| simp := h_simp; waiting h := repeat offers_message (h_offers h); held := h_held; in_ring := h_ring;
     arriving h := key_packet <$> h_keys h |}.
Next Obligation.
  intros m h. cbn [hv_run toy_hypervisor]. unfold toy_run. destruct (h_offers h); [done|]. by case_if.
Qed.
Next Obligation.
  intros m h Hap. cbn [hv_run toy_hypervisor]. unfold toy_run.
  assert (load32 (put_packets m (h_ring h) (key_packet <$> h_keys h)) (h_simp h + 512) = load32 m (h_simp h + 512)) as El
    by (apply load32_ext; intros; apply put_packets_outside; lia).
  destruct (h_offers h) as [|n]; cbn [repeat h_offers h_held].
  - case_if; [|done]. rewrite El. done.
  - case_if; [|done]. destruct (put_message_fields (put_packets m (h_ring h) (key_packet <$> h_keys h)) (h_simp h + 512)
      match n with O => false | _ => true end) as (E1&E2&E3&E4&_).
    unfold offers_message at 1. split_and!; [done|done|done|done|done| |done|]; destruct n; done.
Qed.
Next Obligation.
  intros m h ps Hap Hh Hf. cbn [hv_run toy_hypervisor]. unfold toy_run.
  destruct (put_packets_holds m (h_ring h) ps (key_packet <$> h_keys h) Hh) as [Hh' Er]; [|done|].
  { apply Forall_fmap, Forall_forall. intros key _. apply key_packet_wf. }
  destruct (h_offers h) as [|n]; [done|]. case_if; [|done].
  destruct (put_message_fields (put_packets m (h_ring h) (key_packet <$> h_keys h)) (h_simp h + 512)
      match n with O => false | _ => true end) as (_&_&_&_&Ho).
  split_and!; [|rewrite <- Er; apply load32_ext; intros; apply Ho; lia|done].
  revert Hh'. apply ring_holds_ext. intros. apply Ho. lia.
Qed.
Next Obligation. done. Qed.

(** Two messages and three key strokes wait: A down and up, and the cursor key up with its prefix. *)
Definition toy_keys : list (Z * Z) := [(30, 0); (30, 2); (72, 4)].

Definition toy_kbd : synthkbd toy_host :=
  {| kbd_bus := {| gst := {| current_platform := PLATFORM_KIND_HYPERV;
                             hv := set_synic_active true (set_message_page 4096 hyperv_bss); pages := palloc_bss; pmem := λ _, 0;
                             host := {| h_simp := 4096; h_offers := 2; h_held := false; h_ring := 65536; h_keys := toy_keys |} |};
                   vb := vmbus_bss |};
     hyperv_keyboard_channel := far_end; hyperv_keyboard_ready := 1; hyperv_keyboard_protocol_ok := 1 |}.

Lemma keyboard_poll_delivers_witness :
  ∃ s', hyperv_keyboard_poll 171 (λ _, 0) toy_kbd = Some ([30; 158; 0xE0; 72], s')
    ∧ ring_holds (pmem (gst (kbd_bus s'))) (inbound_ring (hyperv_keyboard_channel s')) [].
Proof.
  destruct (keyboard_poll_delivers 171 (λ _, 0) toy_kbd [] toy_keys) as (s'&E&_&_&Hh).
  - done.
  - constructor; [done|done|done|done|]. cbn. lia.
  - by constructor.
  - done.
  - split; [|by vm_compute]. constructor; [done|by vm_compute|done|done|done].
  - cbn [app]. unfold toy_kbd, toy_keys. cbn. repeat constructor; cbn; try (by left); try lia; by exists 0, [0; 0; 0; 0].
  - cbn. lia.
  - exists s'. split; [|exact Hh]. rewrite E. reflexivity.
Defined.

(** *** Start-up

    A host that answers: it accepts the first version, offers a keyboard, takes the pages, opens the channel and
    accepts the protocol. *)
Record live_host := { l_simp : Z; l_queue : list (list Z); l_base : Z; l_accepted : bool }.

Definition answer_to (message : carray Z) (h : live_host) : live_host :=
  let say l base := {| l_simp := l_simp h; l_queue := l_queue h ++ l; l_base := base; l_accepted := l_accepted h |} in
  let type := load32 message 0 in
  if type =? CHANNELMSG_INITIATE_CONTACT then
    say [le_bytes 4 CHANNELMSG_VERSION_RESPONSE ++ le_bytes 4 0 ++ [1; 0; 0; 0] ++ le_bytes 4 9] (l_base h)
  else if type =? CHANNELMSG_REQUESTOFFERS then
    say [le_bytes 4 CHANNELMSG_OFFERCHANNEL ++ le_bytes 4 0 ++ le_bytes 4 0xF912AD6D ++ le_bytes 2 0x2B17 ++ le_bytes 2 0x48EA
           ++ [0xBD; 0x65; 0xF9; 0x27; 0xA6; 0x1C; 0x76; 0x84] ++ repeat 0 160 ++ le_bytes 4 17 ++ [0; 0; 0; 0] ++ le_bytes 4 5;
         le_bytes 4 CHANNELMSG_ALLOFFERS_DELIVERED ++ le_bytes 4 0] (l_base h)
  else if type =? CHANNELMSG_GPADL_HEADER then
    say [le_bytes 4 CHANNELMSG_GPADL_CREATED ++ le_bytes 4 0 ++ le_bytes 4 (load32 message 8) ++ le_bytes 4 (load32 message 12) ++ le_bytes 4 0]
      (load64 message 28 * PAGE_SIZE)
  else if type =? CHANNELMSG_OPENCHANNEL then
    say [le_bytes 4 CHANNELMSG_OPENCHANNEL_RESULT ++ le_bytes 4 0 ++ le_bytes 4 (load32 message 8) ++ le_bytes 4 (load32 message 12) ++ le_bytes 4 0]
      (l_base h)
  else h.

Definition accept_packet : packet :=
  {| pk_type := VMBUS_PACKET_COMPLETION; pk_flags := 0; pk_trans := 1; pk_header := [];
     pk_data := le_bytes 4 SYNTH_KBD_PROTOCOL_RESPONSE ++ le_bytes 4 PROTOCOL_ACCEPTED; pk_trailer := repeat 0 8 |}.

Definition live_run (m : carray Z) (h : live_host) : carray Z * live_host :=
  let slot := l_simp h + 512 in
  let '(m, queue) :=
    match l_queue h with
    | p :: queue =>
        if load32 m slot =? 0 then
          (<[slot + 5 := 0]> (<[slot + 4 := size_of p]> (copy_bytes (store32 m slot 1) (slot + 16) (literal_bytes p) 0 (size_of p))), queue)
        else (m, l_queue h)
    | [] => (m, [])
    end in
  let asked := negb (l_accepted h) && negb (l_base h =? 0) && (0 <? write_index m (l_base h)) in
  (if asked then put_packets m (l_base h + 8192) [accept_packet] else m,
   {| l_simp := l_simp h; l_queue := queue; l_base := l_base h; l_accepted := l_accepted h || asked |}).

#[local] Instance live_hypervisor : Hypervisor live_host :=
  {| cpuid leaf _ := if leaf =? 1 then (0, 0, 0x80000000, 0)
       else if leaf =? 0x40000000 then (0x40000005, 0x7263694D, 0x666F736F, 0x76482074)
       else if leaf =? 0x40000001 then (HV_HYPERV_INTERFACE_HV1, 0, 0, 0) else (4, 48, 0, 0);
     rdmsr r _ := if r =? HV_X64_MSR_HYPERCALL then 1 else 0;
     wrmsr r v h := if r =? HV_X64_MSR_SIMP
       then {| l_simp := v - 1; l_queue := l_queue h; l_base := l_base h; l_accepted := l_accepted h |} else h;
     hv_call _ input _ m h := (0, answer_to (λ i, m (input + 16 + i)) h);
     hv_fast_call _ _ h := (0, h); hv_run := live_run |}.

Definition cold_guest : guest live_host :=
  {| current_platform := PLATFORM_KIND_GENERIC; hv := hyperv_bss; pages := small_boot; pmem := λ _, 0;
     host := {| l_simp := 0; l_queue := []; l_base := 0; l_accepted := false |} |}.

(** The start of the system: platform, hypervisor, bus and keyboard. *)
Definition start_keyboard (fuel : nat) : option (bool * list Z * synthkbd live_host) :=
  b ← vmbus_init fuel (λ _, 0) {| gst := hyperv_init (platform_init cold_guest); vb := vmbus_bss |};
  hyperv_keyboard_init fuel (λ _, 0)
    {| kbd_bus := b; hyperv_keyboard_channel := zero_channel; hyperv_keyboard_ready := 0; hyperv_keyboard_protocol_ok := 0 |}.

(** With this host the driver negotiates its way up to a working keyboard. *)
Lemma keyboard_starts :
  match start_keyboard 8 with
  | Some (found, codes, s) =>
      found = true ∧ codes = [] ∧ hyperv_keyboard_ready s = 1 ∧ vmbus_protocol (vb (kbd_bus s)) = 0x50003
      ∧ child_relid (hyperv_keyboard_channel s) = 17
  | None => False
  end.
Proof. vm_compute. done. Qed.
