(* ===== verification/Vfs.v ===== *)
(** * The virtual file system ([src/kernel/vfs.c])

    Path resolution and access control over inodes, the table of open files, pipes,
    the console inodes, and the operations of processes on them.  A pointer to an
    open file is its index in the file table; a pointer to an inode says where the
    inode is ([Vnode.inode_ptr]).  The heap and the console are reached through the
    interfaces [KernelHeap] and [ConsoleIO].  Console messages and trace records of
    mounting are left out.  This file has the definitions; [VfsPath] and [VfsFiles]
    have the theorems. *)

From stdpp Require Import strings.
From S2P Require Import Prelude Mem Palloc Block Vnode Simplefs.

Local Open Scope Z_scope.
Local Open Scope c_scope.

(** What the file system uses of the heap: [None] is a call that does not return,
    address 0 a failed allocation. *)
Class KernelHeap (Hp : Type) := {
  heap_kmalloc : Z → Hp → option (Z * Hp);
  heap_kzalloc : Z → Hp → option (Z * Hp);
  heap_kfree : Z → Hp → Hp;
}.

(** What it uses of the keyboard and the screen. *)
Class ConsoleIO (Io : Type) := {
  input_poll : Io → Io;
  input_try_read_char : Io → option Z * Io;
  console_write_len : list Z → Io → Io;
}.

Definition VFS_REINSTALL_CHUNK_BLOCKS : Z := 8.
Definition sizeof_vfs_file : Z := 20.
Definition sizeof_vfs_pipe : Z := 1104.

Record vfs_pipe := {
  pipe_inode : vfs_inode;
  reader_count : Z;
  writer_count : Z;
  read_index : Z;
  write_index : Z;
  buffered : Z;
  pipe_buffer : carray Z;
}.

Definition with_pipe_inode (x : vfs_inode) (p : vfs_pipe) : vfs_pipe :=
  {| pipe_inode := x; reader_count := reader_count p; writer_count := writer_count p;
     read_index := read_index p; write_index := write_index p; buffered := buffered p;
     pipe_buffer := pipe_buffer p |}.
Definition with_counts (r w : Z) (p : vfs_pipe) : vfs_pipe :=
  {| pipe_inode := pipe_inode p; reader_count := r; writer_count := w;
     read_index := read_index p; write_index := write_index p; buffered := buffered p;
     pipe_buffer := pipe_buffer p |}.

(** ** Strings and numbers *)

(** [string_copy] into a cleared buffer of [max_length] bytes: what the buffer holds. *)
Definition string_copy (source : list Z) (max_length : Z) : list Z :=
  take (Z.to_nat (max_length - 1)) source.

Definition string_equals_component (candidate component : list Z) : bool :=
  bool_decide (candidate = component).

Definition hex_digit_value (ch : Z) : option Z :=
  if (48 <=? ch) && (ch <=? 57) then Some (ch - 48)
  else if (65 <=? ch) && (ch <=? 70) then Some (ch - 65 + 10)
  else if (97 <=? ch) && (ch <=? 102) then Some (ch - 97 + 10)
  else None.

Fixpoint parse_hex_from (value : Z) (text : list Z) : Z :=
  match text with
  | [] => value
  | ch :: text =>
      match hex_digit_value ch with
      | Some d => parse_hex_from (Z.lor (u32 (Z.shiftl value 4)) d) text
      | None => 0
      end
  end.

Definition parse_hex32 (text : list Z) : Z := parse_hex_from 0 text.

(** The character of a digit: the table is the sixteen characters 0 to 9, A to F. *)
Definition hex_digit (d : Z) : Z := if d <? 10 then 48 + d else 65 + (d - 10).

Definition format_hex32 (value : Z) : list Z :=
  (λ index : nat, hex_digit (Z.land (Z.shiftr value ((7 - Z.of_nat index) * 4)) 15)) <$> seq 0 8.

(** ** Access control *)

Definition vfs_is_superuser (credentials : option vfs_credentials) : bool :=
  match credentials with None => true | Some c => cred_uid c =? 0 end.

(** The three tests of one class of users. *)
Definition class_access (mode r w x : Z) : Z :=
  let allowed := 0 in
  let allowed := if truthy (Z.land mode r) then Z.lor allowed VFS_ACCESS_READ else allowed in
  let allowed := if truthy (Z.land mode w) then Z.lor allowed VFS_ACCESS_WRITE else allowed in
  if truthy (Z.land mode x) then Z.lor allowed VFS_ACCESS_EXEC else allowed.

Definition vfs_allowed_access (inode : option vfs_inode) (credentials : option vfs_credentials) : Z :=
  match inode with
  | None => 0
  | Some inode =>
      match credentials with
      | Some c =>
          if vfs_is_superuser credentials
          then Z.lor (Z.lor VFS_ACCESS_READ VFS_ACCESS_WRITE) VFS_ACCESS_EXEC
          else if cred_uid c =? in_uid inode
          then class_access (in_mode inode) VFS_MODE_IRUSR VFS_MODE_IWUSR VFS_MODE_IXUSR
          else if cred_gid c =? in_gid inode
          then class_access (in_mode inode) VFS_MODE_IRGRP VFS_MODE_IWGRP VFS_MODE_IXGRP
          else class_access (in_mode inode) VFS_MODE_IROTH VFS_MODE_IWOTH VFS_MODE_IXOTH
      | None => Z.lor (Z.lor VFS_ACCESS_READ VFS_ACCESS_WRITE) VFS_ACCESS_EXEC
      end
  end.

Definition vfs_has_access (inode : option vfs_inode) (credentials : option vfs_credentials)
    (access_mask : Z) : bool :=
  Z.land (vfs_allowed_access inode credentials) access_mask =? access_mask.

(** ** The pipe buffer *)

(** The loop of [pipe_inode_read]; it takes at most [buffered] turns. *)
Fixpoint pipe_read_loop (fuel : nat) (copied length : Z) (bytes : carray Z) (p : vfs_pipe)
    : Z * carray Z * vfs_pipe :=
  match fuel with
  | O => (copied, bytes, p)
  | S fuel =>
      if (copied <? length) && truthy (buffered p) then
        pipe_read_loop fuel (copied ⊞ 1) length (<[copied := pipe_buffer p (read_index p)]> bytes)
          {| pipe_inode := pipe_inode p; reader_count := reader_count p; writer_count := writer_count p;
             read_index := (read_index p ⊞ 1) mod VFS_PIPE_BUFFER_SIZE; write_index := write_index p;
             buffered := buffered p ⊟ 1; pipe_buffer := pipe_buffer p |}
      else (copied, bytes, p)
  end.

Fixpoint pipe_write_loop (fuel : nat) (written length : Z) (buffer : carray Z) (p : vfs_pipe)
    : Z * vfs_pipe :=
  match fuel with
  | O => (written, p)
  | S fuel =>
      if (written <? length) && (buffered p <? VFS_PIPE_BUFFER_SIZE) then
        pipe_write_loop fuel (written ⊞ 1) length buffer
          {| pipe_inode := pipe_inode p; reader_count := reader_count p; writer_count := writer_count p;
             read_index := read_index p; write_index := (write_index p ⊞ 1) mod VFS_PIPE_BUFFER_SIZE;
             buffered := buffered p ⊞ 1;
             pipe_buffer := <[write_index p := u8 (buffer written)]> (pipe_buffer p) |}
      else (written, p)
  end.

(** ** The state *)

(** The initial values of [console_inode] and [tty_inode]. *)
Definition device_inode (name : list Z) : vfs_inode :=
  {| in_name := NP_text name; in_kind := VFS_INODE_DEV; in_ops := console_ops; in_inode_ops := NO_INODE_OPS;
     in_ref_count := 0; in_size := 0; in_children := None; in_child_count := 0; in_child_capacity := 0;
     in_mode := Z.lor (Z.lor (Z.lor (Z.lor (Z.lor VFS_MODE_IRUSR VFS_MODE_IWUSR) VFS_MODE_IRGRP) VFS_MODE_IWGRP)
                  VFS_MODE_IROTH) VFS_MODE_IWOTH;
     in_uid := 0; in_gid := 0; in_links := 1; in_private_data := PD_null |}.
Definition initial_console_inode : vfs_inode := device_inode (c_bytes "console").
Definition initial_tty_inode : vfs_inode := device_inode (c_bytes "tty").

Section vfs.
Context {St Hp Io : Type} `{!KernelHeap Hp} `{!ConsoleIO Io}.

(** The statics of the file, the mounted file system, the pipes by their heap
    address, the block registry, the heap and the console. *)
Record vfs := {
  fs : simplefs St;
  console_inode : vfs_inode;
  tty_inode : vfs_inode;
  pipes : carray vfs_pipe;
  file_table : option (carray vfs_file);
  root_inode : option inode_ptr;
  root_writable : Z;
  root_device : option (block_device St);
  blocks : block_state St;
  heap : Hp;
  io : Io;
}.
Implicit Types (v : vfs) (credentials : option vfs_credentials) (path : option (list Z)).

Definition with_fs (x : simplefs St) v : vfs :=
  {| fs := x; console_inode := console_inode v; tty_inode := tty_inode v; pipes := pipes v;
     file_table := file_table v; root_inode := root_inode v; root_writable := root_writable v;
     root_device := root_device v; blocks := blocks v; heap := heap v; io := io v |}.
Definition with_devices (c t : vfs_inode) v : vfs :=
  {| fs := fs v; console_inode := c; tty_inode := t; pipes := pipes v;
     file_table := file_table v; root_inode := root_inode v; root_writable := root_writable v;
     root_device := root_device v; blocks := blocks v; heap := heap v; io := io v |}.
Definition with_pipes (x : carray vfs_pipe) v : vfs :=
  {| fs := fs v; console_inode := console_inode v; tty_inode := tty_inode v; pipes := x;
     file_table := file_table v; root_inode := root_inode v; root_writable := root_writable v;
     root_device := root_device v; blocks := blocks v; heap := heap v; io := io v |}.
Definition with_files (x : option (carray vfs_file)) v : vfs :=
  {| fs := fs v; console_inode := console_inode v; tty_inode := tty_inode v; pipes := pipes v;
     file_table := x; root_inode := root_inode v; root_writable := root_writable v;
     root_device := root_device v; blocks := blocks v; heap := heap v; io := io v |}.
Definition with_root (r : option inode_ptr) (w : Z) (d : option (block_device St)) v : vfs :=
  {| fs := fs v; console_inode := console_inode v; tty_inode := tty_inode v; pipes := pipes v;
     file_table := file_table v; root_inode := r; root_writable := w;
     root_device := d; blocks := blocks v; heap := heap v; io := io v |}.
Definition with_blocks (x : block_state St) v : vfs :=
  {| fs := fs v; console_inode := console_inode v; tty_inode := tty_inode v; pipes := pipes v;
     file_table := file_table v; root_inode := root_inode v; root_writable := root_writable v;
     root_device := root_device v; blocks := x; heap := heap v; io := io v |}.
Definition with_heap (x : Hp) v : vfs :=
  {| fs := fs v; console_inode := console_inode v; tty_inode := tty_inode v; pipes := pipes v;
     file_table := file_table v; root_inode := root_inode v; root_writable := root_writable v;
     root_device := root_device v; blocks := blocks v; heap := x; io := io v |}.
Definition with_io (x : Io) v : vfs :=
  {| fs := fs v; console_inode := console_inode v; tty_inode := tty_inode v; pipes := pipes v;
     file_table := file_table v; root_inode := root_inode v; root_writable := root_writable v;
     root_device := root_device v; blocks := blocks v; heap := heap v; io := x |}.

(** The inode behind a pointer. *)
Definition get_inode (p : inode_ptr) v : vfs_inode :=
  match p with
  | IP_node i => node_vfs i (fs v)
  | IP_pipe a => pipe_inode (pipes v a)
  | IP_console => console_inode v
  | IP_tty => tty_inode v
  end.
Definition set_inode (p : inode_ptr) (x : vfs_inode) v : vfs :=
  match p with
  | IP_node i => with_fs (set_vfs i x (fs v)) v
  | IP_pipe a => with_pipes (<[a := with_pipe_inode x (pipes v a)]> (pipes v)) v
  | IP_console => with_devices x (tty_inode v) v
  | IP_tty => with_devices (console_inode v) x v
  end.

Definition zero_file : vfs_file := {| f_inode := None; f_flags := 0; f_offset := 0; f_ref_count := 0 |}.

(** The open file behind a pointer, an index of the table. *)
Definition file_at (f : Z) v : vfs_file :=
  match file_table v with Some t => t f | None => zero_file end.
Definition set_file (f : Z) (x : vfs_file) v : vfs :=
  with_files ((λ t : carray vfs_file, <[f := x]> t) <$> file_table v) v.

(** The inode of an open file. *)
Definition file_inode (f : Z) v : option vfs_inode := (λ p, get_inode p v) <$> f_inode (file_at f v).

(** ** Paths *)

Fixpoint skip_slashes (cursor : list Z) : list Z :=
  match cursor with
  | c :: rest => if c =? 47 then skip_slashes rest else cursor
  | [] => []
  end.

(** The component at the cursor and the cursor behind it; [None] when the component
    does not fit into 32 bytes with its terminator. *)
Fixpoint take_component (component_length : Z) (cursor : list Z) : option (list Z * list Z) :=
  match cursor with
  | [] => Some ([], [])
  | c :: rest =>
      if c =? 47 then Some ([], cursor)
      else if 32 <=? component_length ⊞ 1 then None
      else match take_component (component_length ⊞ 1) rest with
           | Some (component, cursor) => Some (c :: component, cursor)
           | None => None
           end
  end.

(** Entry [k] of a directory's children. *)
Definition dir_child (directory : vfs_inode) (k : Z) v : vfs_dir_entry :=
  runtime_dir_entries (fs v) (default 0 (in_children directory) + k).

Definition lookup_child (directory : vfs_inode) (component : list Z) v : option inode_ptr :=
  match for_find 0 (in_child_count directory)
          (λ k, string_equals_component (name_bytes (ent_name (dir_child directory k v)) (fs v)) component) with
  | Some k => ent_inode (dir_child directory k v)
  | None => None
  end.

(** The loop over the components, each turn of which consumes one. *)
Fixpoint resolve_loop (fuel : nat) (current : inode_ptr) (cursor : list Z) credentials v : option inode_ptr :=
  match fuel with
  | O => None
  | S fuel =>
      match cursor with
      | [] => Some current
      | _ =>
          let dir := get_inode current v in
          if negb (bool_decide (in_kind dir = VFS_INODE_DIR))
             || negb (vfs_has_access (Some dir) credentials VFS_ACCESS_EXEC) then None
          else match take_component 0 cursor with
               | None => None
               | Some (component, rest) =>
                   match lookup_child dir component v with
                   | None => None
                   | Some next => resolve_loop fuel next (skip_slashes rest) credentials v
                   end
               end
      end
  end.

Definition vfs_resolve_path path credentials v : option inode_ptr :=
  match root_inode v, path with
  | Some root, Some path =>
      match path with
      | c :: _ =>
          if negb (c =? 47) then None
          else
            let cursor := skip_slashes path in
            match cursor with
            | [] => Some root
            | _ => resolve_loop (S (length path)) root cursor credentials v
            end
      | [] => None
      end
  | _, _ => None
  end.

(** The index of the last slash, 0 if there is none. *)
Definition last_slash (path : list Z) : Z :=
  for_range 0 (Z.of_nat (length path))
    (λ index last, if default 0 (path !! Z.to_nat index) =? 47 then index else last) 0.

(** The parent directory and the name of the leaf; [None] for the result -1.  The
    pointers to the results are not null in any call. *)
Definition vfs_resolve_parent path credentials v : option (inode_ptr * list Z) :=
  match path with
  | None => None
  | Some path =>
      let path_length := Z.of_nat (length path) in
      if negb (default 0 (path !! 0%nat) =? 47) || (path_length <? 2) then None
      else
        let last := last_slash path in
        if last =? path_length - 1 then None
        else
          let leaf_name := drop (Z.to_nat (last + 1)) path in
          if VFS_NAME_MAX <=? Z.of_nat (length leaf_name) then None
          else if negb (last =? 0) && (VFS_PATH_MAX <=? last) then None
          else
            let parent_path := if last =? 0 then [47] else take (Z.to_nat last) path in
            match vfs_resolve_path (Some parent_path) credentials v with
            | Some parent =>
                if bool_decide (in_kind (get_inode parent v) = VFS_INODE_DIR)
                then Some (parent, leaf_name) else None
            | None => None
            end
  end.

Definition vfs_append_child (directory child : option inode_ptr) v : Z * vfs :=
  match directory, child with
  | Some directory, Some child =>
      let dir := get_inode directory v in
      if negb (bool_decide (in_kind dir = VFS_INODE_DIR))
         || match in_children dir with None => true | _ => false end then (-1, v)
      else if in_child_capacity dir <=? in_child_count dir then (-1, v)
      else
        let slot := default 0 (in_children dir) + in_child_count dir in
        let entry := {| ent_name := in_name (get_inode child v); ent_inode := Some child |} in
        let v := with_fs (with_dir_entries (<[slot := entry]> (runtime_dir_entries (fs v))) (fs v)) v in
        (0, set_inode directory (with_in_child_count (in_child_count dir ⊞ 1) (get_inode directory v)) v)
  | _, _ => (-1, v)
  end.

Definition vfs_fill_stat (inode : vfs_inode) : vfs_stat :=
  {| st_kind := in_kind inode; st_size := in_size inode; st_child_count := in_child_count inode;
     st_mode := in_mode inode; st_uid := in_uid inode; st_gid := in_gid inode; st_links := in_links inode |}.

(** ** File operations *)

Definition vfs_pipe_from_file (f : option Z) v : option Z :=
  match f with
  | None => None
  | Some f =>
      match file_inode f v with
      | None => None
      | Some inode =>
          if negb (bool_decide (in_kind inode = VFS_INODE_PIPE)) then None
          else match in_private_data inode with PD_pipe a => Some a | _ => None end
      end
  end.

(** The loop of [console_inode_read].  The input decides how long it runs: a
    backspace in an empty line is dropped.  [None] is a loop that does not end in
    [fuel] turns. *)
Fixpoint console_read_loop (fuel : nat) (count length : Z) (bytes : carray Z) (o : Io)
    : option (Z * carray Z * Io) :=
  match fuel with
  | O => None
  | S fuel =>
      if count <? length then
        match input_try_read_char o with
        | (None, o) => Some (if truthy count then i32 count else VFS_ERR_WOULD_BLOCK, bytes, o)
        | (Some ch, o) =>
            let ch := if ch =? 13 then 10 else ch in
            if (ch =? 8) || (ch =? 127) then
              if count =? 0 then console_read_loop fuel count length bytes o
              else console_read_loop fuel (count ⊟ 1) length bytes (console_write_len [8; 32; 8] o)
            else
              let bytes := <[count := ch]> bytes in
              let o := console_write_len [ch] o in
              if ch =? 10 then Some (i32 (count ⊞ 1), bytes, o)
              else console_read_loop fuel (count ⊞ 1) length bytes o
        end
      else Some (i32 count, bytes, o)
  end.

Definition console_inode_read (fuel : nat) (buffer : option (carray Z)) (length : Z) v
    : option (Z * option (carray Z) * vfs) :=
  match buffer with
  | None => Some (-1, buffer, v)
  | Some bytes =>
      if length =? 0 then Some (0, buffer, v)
      else match console_read_loop fuel 0 length bytes (io v) with
           | Some (r, bytes, o) => Some (r, Some bytes, with_io o v)
           | None => None
           end
  end.

Definition console_inode_write (buffer : option (carray Z)) (length : Z) v : Z * vfs :=
  match buffer with
  | None => (-1, v)
  | Some bytes => (i32 length, with_io (console_write_len (slice bytes 0 (Z.to_nat length)) (io v)) v)
  end.

Definition set_pipe (a : Z) (p : vfs_pipe) v : vfs := with_pipes (<[a := p]> (pipes v)) v.

Definition pipe_inode_read (f : option Z) (buffer : option (carray Z)) (length : Z) v
    : Z * option (carray Z) * vfs :=
  match vfs_pipe_from_file f v, buffer with
  | Some a, Some bytes =>
      if Z.land (f_flags (file_at (default 0 f) v)) VFS_O_RDONLY =? 0 then (-1, buffer, v)
      else
        let '(copied, bytes, p) := pipe_read_loop (Z.to_nat (buffered (pipes v a))) 0 length bytes (pipes v a) in
        let v := set_pipe a p v in
        if truthy copied then (i32 copied, Some bytes, v)
        else if writer_count p =? 0 then (0, Some bytes, v)
        else (VFS_ERR_WOULD_BLOCK, Some bytes, v)
  | _, _ => (-1, buffer, v)
  end.

Definition pipe_inode_write (f : option Z) (buffer : option (carray Z)) (length : Z) v : Z * vfs :=
  match vfs_pipe_from_file f v, buffer with
  | Some a, Some bytes =>
      if Z.land (f_flags (file_at (default 0 f) v)) VFS_O_WRONLY =? 0 then (-1, v)
      else if reader_count (pipes v a) =? 0 then (-1, v)
      else
        let '(written, p) := pipe_write_loop (Z.to_nat VFS_PIPE_BUFFER_SIZE) 0 length bytes (pipes v a) in
        let v := set_pipe a p v in
        if truthy written then (i32 written, v) else (VFS_ERR_WOULD_BLOCK, v)
  | _, _ => (-1, v)
  end.

(** A free entry of the file table, made ready. *)
Definition vfs_alloc_file v : option Z * vfs :=
  match file_table v with
  | None => (None, v)
  | Some t =>
      match for_find 0 VFS_MAX_FILES (λ index, f_ref_count (t index) =? 0) with
      | Some index => (Some index, set_file index {| f_inode := None; f_flags := 0; f_offset := 0; f_ref_count := 1 |} v)
      | None => (None, v)
      end
  end.

(** The pipe part of [vfs_release_file], for the inode at [p] of a file with these
    flags whose reference is already dropped. *)
Definition release_pipe (p : inode_ptr) (flags : Z) v : vfs :=
  let inode := get_inode p v in
  match in_private_data inode with
  | PD_pipe a =>
      if negb (bool_decide (in_kind inode = VFS_INODE_PIPE)) then v
      else
        let pipe := pipes v a in
        let r := if truthy (Z.land flags VFS_O_RDONLY) && truthy (reader_count pipe)
                 then reader_count pipe ⊟ 1 else reader_count pipe in
        let w := if truthy (Z.land flags VFS_O_WRONLY) && truthy (writer_count pipe)
                 then writer_count pipe ⊟ 1 else writer_count pipe in
        let v := set_pipe a (with_counts r w pipe) v in
        if in_ref_count (get_inode p v) =? 0 then with_heap (heap_kfree a (heap v)) v else v
  | _ => v
  end.

Definition vfs_release_file (f : option Z) v : vfs :=
  match f with
  | None => v
  | Some f =>
      if f_ref_count (file_at f v) =? 0 then v
      else
        let v := set_file f (with_f_ref_count (f_ref_count (file_at f v) ⊟ 1) (file_at f v)) v in
        if truthy (f_ref_count (file_at f v)) then v
        else
          let flags := f_flags (file_at f v) in
          let v := match f_inode (file_at f v) with
                   | None => v
                   | Some p =>
                       let inode := get_inode p v in
                       let v := if truthy (in_ref_count inode)
                                then set_inode p (with_in_ref_count (in_ref_count inode ⊟ 1) inode) v else v in
                       release_pipe p flags v
                   end in
          set_file f {| f_inode := None; f_flags := 0; f_offset := 0; f_ref_count := f_ref_count (file_at f v) |} v
  end.

Definition vfs_open_inode (p : inode_ptr) (flags : Z) v : option Z * vfs :=
  match vfs_alloc_file v with
  | (None, v) => (None, v)
  | (Some f, v) =>
      let v := set_file f {| f_inode := Some p; f_flags := flags; f_offset := 0;
                             f_ref_count := f_ref_count (file_at f v) |} v in
      let inode := get_inode p v in
      (Some f, set_inode p (with_in_ref_count (in_ref_count inode ⊞ 1) inode) v)
  end.

(** Whether the operations of the inode include a read and a write, which every table
    of operations has. *)
Definition has_ops (inode : vfs_inode) : bool :=
  match in_ops inode with NO_FILE_OPS => false | _ => true end.

(** Whether the inode can create and remove children and be resized. *)
Definition has_inode_ops (inode : vfs_inode) : bool :=
  match in_inode_ops inode with NO_INODE_OPS => false | _ => true end.

(** The access that the flags of an open ask for. *)
Definition required_access (flags : Z) : Z :=
  let a := 0 in
  let a := if truthy (Z.land flags VFS_O_RDONLY) then Z.lor a VFS_ACCESS_READ else a in
  if truthy (Z.land flags VFS_O_WRONLY) then Z.lor a VFS_ACCESS_WRITE else a.

(** The result and the file pointer; [out_file] says that the pointer to store it
    through is not null. *)
Definition vfs_open_path (out_file : bool) path (flags : Z) credentials v : Z * option Z * vfs :=
  match vfs_resolve_path path credentials v with
  | None => (-1, None, v)
  | Some p =>
      let inode := get_inode p v in
      if negb out_file || bool_decide (in_kind inode = VFS_INODE_DIR) then (-1, None, v)
      else if truthy (required_access flags)
              && negb (vfs_has_access (Some inode) credentials (required_access flags)) then (-1, None, v)
      else if truthy (Z.land flags VFS_O_WRONLY) && negb (has_ops inode) then (-1, None, v)
      else
        let '(f, v) := vfs_open_inode p flags v in
        (match f with Some _ => 0 | None => -1 end, f, v)
  end.

(** What the local array of directory entries of a call holds before it is cleared. *)
Context (stack : carray Z).

(** The checks that [vfs_create_path], [vfs_mkdir_path] and [vfs_unlink_path] make on
    the parent: the directory and the name of the leaf. *)
Definition writable_parent path credentials v : option (inode_ptr * list Z) :=
  match vfs_resolve_parent path credentials v with
  | None => None
  | Some (parent, leaf_name) =>
      let dir := get_inode parent v in
      if negb (vfs_has_access (Some dir) credentials (Z.lor VFS_ACCESS_WRITE VFS_ACCESS_EXEC))
         || negb (has_inode_ops dir) then None
      else Some (parent, leaf_name)
  end.

(** [None] is a directory on the disk that contains itself. *)
Definition vfs_create_path (out_file : bool) path (flags mode : Z) credentials v
    : option (Z * option Z * vfs) :=
  if negb out_file || match path with None => true | _ => false end
     || match vfs_resolve_path path credentials v with Some _ => true | None => false end
  then Some (-1, None, v)
  else match writable_parent path credentials v with
       | None => Some (-1, None, v)
       | Some (parent, leaf_name) =>
           match simplefs_create_child stack (Some (get_inode parent v)) (Some leaf_name) VFS_INODE_REG mode
                   credentials (fs v) with
           | None => None
           | Some (r, inode, s) =>
               let v := with_fs s v in
               if truthy r then Some (-1, None, v)
               else match inode with
                    | None => Some (-1, None, v)
                    | Some p =>
                        let '(f, v) := vfs_open_inode p flags v in
                        Some (match f with Some _ => 0 | None => -1 end, f, v)
                    end
           end
       end.

Definition vfs_mkdir_path path (mode : Z) credentials v : option (Z * vfs) :=
  if match path with None => true | _ => false end
     || match vfs_resolve_path path credentials v with Some _ => true | None => false end
  then Some (-1, v)
  else match writable_parent path credentials v with
       | None => Some (-1, v)
       | Some (parent, leaf_name) =>
           match simplefs_create_child stack (Some (get_inode parent v)) (Some leaf_name) VFS_INODE_DIR mode
                   credentials (fs v) with
           | None => None
           | Some (r, _, s) => Some (r, with_fs s v)
           end
       end.

(** A child of a sticky directory may be removed by the superuser, the owner of the
    directory and the owner of the child. *)
Definition sticky_denied (parent child : vfs_inode) credentials : bool :=
  truthy (Z.land (in_mode parent) VFS_MODE_ISVTX)
  && negb (vfs_is_superuser credentials)
  && match credentials with
     | Some c => negb (cred_uid c =? in_uid parent) && negb (cred_uid c =? in_uid child)
     | None => false
     end.

Definition vfs_unlink_path path credentials v : option (Z * vfs) :=
  match path with
  | Some (c0 :: c1 :: _) =>
      if negb (c0 =? 47) then Some (-1, v)
      else match writable_parent path credentials v with
           | None => Some (-1, v)
           | Some (parent, leaf_name) =>
               match vfs_resolve_path path credentials v with
               | None => Some (-1, v)
               | Some child =>
                   if sticky_denied (get_inode parent v) (get_inode child v) credentials then Some (-1, v)
                   else match simplefs_remove_child stack (Some (get_inode parent v)) (Some leaf_name) (fs v) with
                        | None => None
                        | Some (r, s) => Some (r, with_fs s v)
                        end
               end
           end
  | _ => Some (-1, v)
  end.

Definition vfs_access_path path credentials (access_mask : Z) v : Z :=
  match vfs_resolve_path path credentials v with
  | None => -1
  | Some p => if vfs_has_access (Some (get_inode p v)) credentials access_mask then 0 else -1
  end.

Definition vfs_stat_path path credentials (stat : option vfs_stat) v : Z * option vfs_stat :=
  match vfs_resolve_path path credentials v, stat with
  | Some p, Some _ => (0, Some (vfs_fill_stat (get_inode p v)))
  | _, _ => (-1, stat)
  end.

Definition vfs_readdir_path path credentials (index : Z) (entry : option vfs_dirent_info) v
    : Z * option vfs_dirent_info :=
  match vfs_resolve_path path credentials v, entry with
  | Some p, Some _ =>
      let directory := get_inode p v in
      if negb (bool_decide (in_kind directory = VFS_INODE_DIR))
         || negb (vfs_has_access (Some directory) credentials VFS_ACCESS_READ) then (-1, entry)
      else if in_child_count directory <=? index then (1, entry)
      else
        let child := dir_child directory index v in
        let inode := (λ c, get_inode c v) <$> ent_inode child in
        (0, Some {| de_kind := from_option in_kind VFS_INODE_NONE inode; de_size := from_option in_size 0 inode; de_mode := from_option in_mode 0 inode;
                    de_uid := from_option in_uid 0 inode; de_gid := from_option in_gid 0 inode; de_links := from_option in_links 0 inode;
                    de_name := string_copy (name_bytes (ent_name child) (fs v)) VFS_NAME_MAX |})
  | _, _ => (-1, entry)
  end.

Definition vfs_close_file (f : option Z) v : vfs := vfs_release_file f v.

(** [ops->read] and [ops->write] of the inode of the open file [f]. *)
Definition file_read (fuel : nat) (f : Z) (inode : vfs_inode) (buffer : option (carray Z)) (length : Z) v
    : option (Z * option (carray Z) * vfs) :=
  match in_ops inode with
  | NO_FILE_OPS => Some (-1, buffer, v)
  | console_ops => console_inode_read fuel buffer length v
  | pipe_ops => Some (pipe_inode_read (Some f) buffer length v)
  | simplefs_file_ops =>
      let '(r, file, buffer, s) := simplefs_regular_read (file_at f v) inode buffer length (fs v) in
      Some (r, buffer, set_file f file (with_fs s v))
  end.

Definition file_write (f : Z) (inode : vfs_inode) (buffer : option (carray Z)) (length : Z) v : Z * vfs :=
  match in_ops inode with
  | NO_FILE_OPS => (-1, v)
  | console_ops => console_inode_write buffer length v
  | pipe_ops => pipe_inode_write (Some f) buffer length v
  | simplefs_file_ops =>
      let '(r, file, s) := simplefs_regular_write (file_at f v) inode buffer length (fs v) in
      (r, set_file f file (with_fs s v))
  end.

Definition vfs_read_file (fuel : nat) (f : option Z) (buffer : option (carray Z)) (length : Z) v
    : option (Z * option (carray Z) * vfs) :=
  match f with
  | None => Some (-1, buffer, v)
  | Some f =>
      match file_inode f v with
      | None => Some (-1, buffer, v)
      | Some inode =>
          if negb (has_ops inode) then Some (-1, buffer, v)
          else if Z.land (f_flags (file_at f v)) VFS_O_RDONLY =? 0 then Some (-1, buffer, v)
          else file_read fuel f inode buffer length v
      end
  end.

Definition vfs_write_file (f : option Z) (buffer : option (carray Z)) (length : Z) v : Z * vfs :=
  match f with
  | None => (-1, v)
  | Some f =>
      match file_inode f v with
      | None => (-1, v)
      | Some inode =>
          if negb (has_ops inode) || match buffer with None => true | _ => false end then (-1, v)
          else if Z.land (f_flags (file_at f v)) VFS_O_WRONLY =? 0 then (-1, v)
          else file_write f inode buffer length v
      end
  end.

(** [offset] is a signed word; the sum is taken in 64 bits. *)
Definition vfs_seek_file (f : option Z) (offset whence : Z) v : Z * vfs :=
  match f with
  | None => (-1, v)
  | Some f =>
      match file_inode f v with
      | None => (-1, v)
      | Some inode =>
          if bool_decide (in_kind inode = VFS_INODE_DIR) then (-1, v)
          else
            let base := if whence =? VFS_SEEK_SET then Some 0
                        else if whence =? VFS_SEEK_CUR then Some (f_offset (file_at f v))
                        else if whence =? VFS_SEEK_END then Some (in_size inode) else None in
            match base with
            | None => (-1, v)
            | Some base =>
                let target := base + offset in
                if (target <? 0) || (2147483647 <? target) then (-1, v)
                else (i32 (u32 target), set_file f (with_f_offset (u32 target) (file_at f v)) v)
            end
      end
  end.

Definition vfs_truncate_file (f : option Z) (length : Z) v : Z * vfs :=
  match f with
  | None => (-1, v)
  | Some f =>
      match file_inode f v with
      | None => (-1, v)
      | Some inode =>
          if negb (has_inode_ops inode) then (-1, v)
          else
            let '(r, s) := simplefs_resize_inode (Some inode) length (fs v) in
            let v := with_fs s v in
            if truthy r then (-1, v)
            else (0, if length <? f_offset (file_at f v)
                     then set_file f (with_f_offset length (file_at f v)) v else v)
      end
  end.

Definition vfs_rewind_file (f : option Z) v : vfs :=
  match f with
  | None => v
  | Some f => set_file f (with_f_offset 0 (file_at f v)) v
  end.

Definition vfs_retain_file (f : option Z) v : vfs :=
  match f with
  | None => v
  | Some f =>
      if truthy (f_ref_count (file_at f v))
      then set_file f (with_f_ref_count (f_ref_count (file_at f v) ⊞ 1) (file_at f v)) v else v
  end.

(** ** Descriptor tables *)

(** A table of descriptors holds pointers to open files. *)
Definition fd_table_clear (fd_table : carray (option Z)) (fd_count : Z) : carray (option Z) :=
  for_range 0 fd_count (λ index t, <[index := None]> t) fd_table.

Definition console_path : option (list Z) := Some (c_bytes "/dev/console").

Definition vfs_attach_stdio (fd_table : option (carray (option Z))) (fd_count : Z) credentials v
    : Z * option (carray (option Z)) * vfs :=
  match fd_table with
  | None => (-1, fd_table, v)
  | Some t =>
      if fd_count <? 3 then (-1, fd_table, v)
      else
        let t := fd_table_clear t fd_count in
        let '(r, stdin_file, v) := vfs_open_path true console_path VFS_O_RDONLY credentials v in
        if truthy r then (-1, Some t, v)
        else
          let '(r, stdout_file, v) := vfs_open_path true console_path VFS_O_WRONLY credentials v in
          if truthy r then (-1, Some t, vfs_close_file stdin_file v)
          else
            let '(r, stderr_file, v) := vfs_open_path true console_path VFS_O_WRONLY credentials v in
            if truthy r then (-1, Some t, vfs_close_file stdout_file (vfs_close_file stdin_file v))
            else (0, Some (<[2 := stderr_file]> (<[1 := stdout_file]> (<[0 := stdin_file]> t))), v)
  end.

(** One more reference to the file, if there is one. *)
Definition share_file (f : option Z) v : vfs :=
  match f with
  | None => v
  | Some f => set_file f (with_f_ref_count (f_ref_count (file_at f v) ⊞ 1) (file_at f v)) v
  end.

Definition vfs_clone_fds (destination source : option (carray (option Z))) (fd_count : Z) v
    : Z * option (carray (option Z)) * vfs :=
  match destination, source with
  | Some d, Some src =>
      let d := fd_table_clear d fd_count in
      let '(d, v) := for_range 0 fd_count
        (λ index '(d, v), (<[index := src index]> d, share_file (src index) v)) (d, v) in
      (0, Some d, v)
  | _, _ => (-1, destination, v)
  end.

Definition vfs_detach_fds (fd_table : option (carray (option Z))) (fd_count : Z) v
    : option (carray (option Z)) * vfs :=
  match fd_table with
  | None => (fd_table, v)
  | Some t =>
      let '(t, v) := for_range 0 fd_count
        (λ index '(t, v), match t index with
                          | None => (t, v)
                          | Some f => (<[index := None]> t, vfs_release_file (Some f) v)
                          end) (t, v) in
      (Some t, v)
  end.

Definition vfs_read_fd (fuel : nat) (fd_table : option (carray (option Z))) (fd_count fd : Z)
    (buffer : option (carray Z)) (length : Z) v : option (Z * option (carray Z) * vfs) :=
  match fd_table, buffer with
  | Some t, Some _ =>
      if fd_count <=? fd then Some (-1, buffer, v)
      else match t fd with
           | None => Some (-1, buffer, v)
           | Some f => vfs_read_file fuel (Some f) buffer length v
           end
  | _, _ => Some (-1, buffer, v)
  end.

Definition vfs_write_fd (fd_table : option (carray (option Z))) (fd_count fd : Z)
    (buffer : option (carray Z)) (length : Z) v : Z * vfs :=
  match fd_table, buffer with
  | Some t, Some _ =>
      if fd_count <=? fd then (-1, v)
      else match t fd with
           | None => (-1, v)
           | Some f =>
               match file_inode f v with
               | None => (-1, v)
               | Some inode =>
                   if negb (has_ops inode) then (-1, v)
                   else if Z.land (f_flags (file_at f v)) VFS_O_WRONLY =? 0 then (-1, v)
                   else file_write f inode buffer length v
               end
           end
  | _, _ => (-1, v)
  end.

(** ** Pipes *)

(** A pipe in zeroed memory at [a], set up. *)
Definition new_pipe (a : Z) : vfs_pipe :=
  {| pipe_inode := {| in_name := NP_text (c_bytes "pipe"); in_kind := VFS_INODE_PIPE; in_ops := pipe_ops;
                      in_inode_ops := NO_INODE_OPS; in_ref_count := 0; in_size := 0; in_children := None;
                      in_child_count := 0; in_child_capacity := 0;
                      in_mode := Z.lor VFS_MODE_IRUSR VFS_MODE_IWUSR; in_uid := 0; in_gid := 0; in_links := 0;
                      in_private_data := PD_pipe a |};
     reader_count := 0; writer_count := 0; read_index := 0; write_index := 0; buffered := 0;
     pipe_buffer := λ _, 0 |}.

(** The result and the two files; [out] says that the pointers to store them through
    are not null. *)
Definition vfs_create_pipe (out : bool) v : option (Z * option Z * option Z * vfs) :=
  if negb out then Some (-1, None, None, v)
  else match heap_kzalloc sizeof_vfs_pipe (heap v) with
       | None => None
       | Some (a, h) =>
           let v := with_heap h v in
           if a =? 0 then Some (-1, None, None, v)
           else
             let v := set_pipe a (new_pipe a) v in
             match vfs_open_inode (IP_pipe a) VFS_O_RDONLY v with
             | (None, v) => Some (-1, None, None, with_heap (heap_kfree a (heap v)) v)
             | (Some read_file, v) =>
                 match vfs_open_inode (IP_pipe a) VFS_O_WRONLY v with
                 | (None, v) => Some (-1, None, None, vfs_close_file (Some read_file) v)
                 | (Some write_file, v) =>
                     Some (0, Some read_file, Some write_file, set_pipe a (with_counts 1 1 (pipes v a)) v)
                 end
             end
       end.

Definition vfs_file_is_pipe (f : option Z) v : bool :=
  match f ≫= (λ f, file_inode f v) with
  | Some inode => bool_decide (in_kind inode = VFS_INODE_PIPE)
  | None => false
  end.

Definition vfs_pipe_read := pipe_inode_read.
Definition vfs_pipe_write := pipe_inode_write.
Definition vfs_root_writable v : Z := root_writable v.

End vfs.
Arguments vfs : clear implicits.
