(* ===== verification/VfsPath.v ===== *)
(** * Paths and permissions of the virtual file system

    Path resolution is a walk along the components of the path, each step of which
    needs a searchable directory; the parent of a path is the walk along all
    components but the last; and the access an inode grants is three bits of its
    mode. *)

From S2P Require Import Prelude Mem Block Vnode Simplefs Vfs.

Local Open Scope Z_scope.
Local Open Scope c_scope.

(** ** Permission bits *)

(** The three mode bits of a class, shifted down. *)
Lemma class_access_eq mode k :
  0 ≤ mode → 0 ≤ k →
  class_access mode (Z.shiftl 4 k) (Z.shiftl 2 k) (Z.shiftl 1 k) = Z.land (Z.shiftr mode k) 7.
Proof.
  intros Hm Hk. assert (∀ i, 0 ≤ i → truthy (Z.land mode (Z.shiftl (Z.shiftl 1 i) k)) = Z.testbit (Z.shiftr mode k) i) as Hbit.
  { intros i Hi. rewrite Z.shiftl_shiftl by lia. rewrite Z.shiftr_spec by lia.
    unfold truthy. rewrite land_pow2 by lia. apply negb_involutive. }
  pose proof (Hbit 2 ltac:(lia)) as H2. pose proof (Hbit 1 ltac:(lia)) as H1. pose proof (Hbit 0 ltac:(lia)) as H0.
  change (Z.shiftl 1 2) with 4 in H2. change (Z.shiftl 1 1) with 2 in H1. change (Z.shiftl 1 0) with 1 in H0.
  unfold class_access. rewrite H2, H1, H0. apply Z.bits_inj'. intros i Hi. rewrite Z.land_spec.
  change 7 with (Z.ones 3). destruct (Z_lt_ge_dec i 3).
  - rewrite Z.ones_spec_low by lia. rewrite andb_true_r. assert (i = 0 ∨ i = 1 ∨ i = 2) as [->|[->| ->]] by lia;
      destruct (Z.testbit (Z.shiftr mode k) 2), (Z.testbit (Z.shiftr mode k) 1), (Z.testbit (Z.shiftr mode k) 0); reflexivity.
  - rewrite Z.ones_spec_high by lia. rewrite andb_false_r.
    apply (testbit_above 3); [|lia].
    destruct (Z.testbit (Z.shiftr mode k) 2), (Z.testbit (Z.shiftr mode k) 1), (Z.testbit (Z.shiftr mode k) 0); vm_compute; done.
Qed.

(** Access control is that of the mode bits: the superuser has every access, and
    another user exactly the three bits of the class (owner, group or others) that
    their identity selects, the owner's bits taking precedence over the group's. *)
Theorem vfs_allowed_access_spec inode c :
  0 ≤ in_mode inode →
  vfs_allowed_access (Some inode) None = 7 ∧
  vfs_allowed_access (Some inode) (Some c)
  = if cred_uid c =? 0 then 7
    else let class := if cred_uid c =? in_uid inode then 6 else if cred_gid c =? in_gid inode then 3 else 0 in
         Z.land (Z.shiftr (in_mode inode) class) 7.
Proof.
  intros Hm. split; [done|]. unfold vfs_allowed_access, vfs_is_superuser.
  destruct (cred_uid c =? 0); [done|]. cbv zeta.
  destruct (cred_uid c =? in_uid inode); [by apply (class_access_eq _ 6)|].
  destruct (cred_gid c =? in_gid inode); [by apply (class_access_eq _ 3)|by apply (class_access_eq _ 0)].
Qed.

(** A member of the group of a file with mode 0o604 has no access, while others can read. *)
Lemma vfs_allowed_access_spec_witness :
  vfs_allowed_access (Some
    {| in_name := NP_null; in_kind := VFS_INODE_REG; in_ops := simplefs_file_ops; in_inode_ops := simplefs_inode_ops; in_ref_count := 0;
       in_size := 0; in_children := None; in_child_count := 0; in_child_capacity := 0; in_mode := 388; in_uid := 1;
       in_gid := 5; in_links := 1; in_private_data := PD_null |})
    (Some {| cred_uid := 2; cred_gid := 5 |}) = 0.
Proof.
  set (inode := {| in_name := _ |}). assert (0 ≤ in_mode inode) as Hm by (cbn; lia).
  rewrite (proj2 (vfs_allowed_access_spec inode {| cred_uid := 2; cred_gid := 5 |} Hm)). by vm_compute.
Defined.

(** ** Components *)

(** The text up to the first slash, and the components behind it. *)
Fixpoint split_path (path : list Z) : list Z * list (list Z) :=
  match path with
  | [] => ([], [])
  | c :: path =>
      let '(h, t) := split_path path in
      if c =? 47 then ([], match h with [] => t | _ => h :: t end) else (c :: h, t)
  end.

(** The components of a path: the pieces between slashes that are not empty. *)
Definition components (path : list Z) : list (list Z) :=
  let '(h, t) := split_path path in match h with [] => t | _ => h :: t end.

Lemma components_slash path : components (47 :: path) = components path.
Proof. unfold components. simpl. by destruct (split_path path) as [[] t]. Qed.

Lemma components_skip path : components (skip_slashes path) = components path.
Proof.
  induction path as [|c path IH]; [done|]. simpl. destruct (Z.eqb_spec c 47) as [->|]; [|done].
  by rewrite IH, components_slash.
Qed.

Lemma skip_slashes_head path : match skip_slashes path with c :: _ => c ≠ 47 | [] => True end.
Proof. induction path as [|c path IH]; simpl; [done|]. by destruct (Z.eqb_spec c 47). Qed.

Lemma skip_slashes_length path : (length (skip_slashes path) ≤ length path)%nat.
Proof. induction path as [|c path IH]; simpl; [done|]. case_if; simpl; lia. Qed.

(** What [take_component] takes is the text up to the slash, if it fits. *)
Lemma take_component_spec path n :
  0 ≤ n ≤ 31 →
  take_component n path
  = if n + Z.of_nat (length (split_path path).1) <=? 31
    then Some ((split_path path).1, drop (length (split_path path).1) path) else None.
Proof.
  revert n. induction path as [|c path IH]; intros n Hn; simpl.
  { by rewrite (proj2 (Z.leb_le _ _)) by lia. }
  destruct (split_path path) as [h t]. simpl in IH. destruct (Z.eqb_spec c 47) as [->|]; simpl.
  { by rewrite (proj2 (Z.leb_le _ _)) by lia. }
  rewrite u32_small by lia. destruct (Z.leb_spec 32 (n + 1)).
  { by rewrite (proj2 (Z.leb_gt _ _)) by lia. }
  rewrite IH by lia. replace (n + 1 + Z.of_nat (length h)) with (n + Z.of_nat (S (length h))) by lia.
  by destruct (_ <=? _).
Qed.

Lemma components_take path :
  match path with c :: _ => c ≠ 47 | [] => False end →
  components path = (split_path path).1 :: components (drop (length (split_path path).1) path) ∧
  (0 < length (split_path path).1)%nat.
Proof.
  destruct path as [|c path]; [done|]. intros Hc. unfold components at 1. simpl.
  destruct (split_path path) as [h t] eqn:E. rewrite (proj2 (Z.eqb_neq c 47)) by done. simpl.
  split; [f_equal|lia].
  assert (∀ p h t, split_path p = (h, t) → t = components (drop (length h) p)) as H; [|by apply H].
  clear. induction p as [|c p IH]; simpl; intros h t; [by intros [= <- <-]|].
  destruct (split_path p) as [h' t'] eqn:E. destruct (Z.eqb_spec c 47) as [->|].
  - intros [= <- <-]. simpl. rewrite components_slash. unfold components. by rewrite E.
  - intros [= <- <-]. simpl. by apply IH.
Qed.

Section walk.
Context {St Hp Io : Type}.
Implicit Types (v : vfs St Hp Io) (credentials : option vfs_credentials).

(** ** Resolution as a walk *)

Definition searchable (p : inode_ptr) credentials v : bool :=
  bool_decide (in_kind (get_inode p v) = VFS_INODE_DIR)
  && vfs_has_access (Some (get_inode p v)) credentials VFS_ACCESS_EXEC.

(** One step: from a searchable directory to the child of that name. *)
Definition step_child (p : inode_ptr) (component : list Z) credentials v : option inode_ptr :=
  if searchable p credentials v && (Z.of_nat (length component) <? 32)
  then lookup_child (get_inode p v) component v else None.

Fixpoint walk (p : inode_ptr) (cs : list (list Z)) credentials v : option inode_ptr :=
  match cs with
  | [] => Some p
  | c :: cs => step_child p c credentials v ≫= λ p, walk p cs credentials v
  end.

Lemma walk_app p cs ds credentials v :
  walk p (cs ++ ds) credentials v = walk p cs credentials v ≫= λ q, walk q ds credentials v.
Proof.
  revert p. induction cs as [|c cs IH]; intros p; [done|]. simpl.
  destruct (step_child p c credentials v) as [q|]; [apply IH|done].
Qed.

Lemma resolve_loop_spec fuel p cursor credentials v :
  (length cursor < fuel)%nat → match cursor with c :: _ => c ≠ 47 | [] => True end →
  resolve_loop fuel p cursor credentials v = walk p (components cursor) credentials v.
Proof.
  revert p cursor. induction fuel as [|fuel IH]; intros p cursor Hf Hc; [lia|].
  destruct cursor as [|c path]; [done|]. set (cursor := c :: path) in *.
  destruct (components_take cursor Hc) as [Ecs Hlen]. rewrite Ecs. cbn [resolve_loop].
  unfold cursor at 1. rewrite (take_component_spec cursor 0) by lia. cbn [walk].
  unfold step_child, searchable. rewrite <- negb_andb.
  destruct (bool_decide _ && vfs_has_access _ _ _); [|done]. cbn [negb andb]. rewrite Z.add_0_l.
  replace (Z.of_nat (length (split_path cursor).1) <? 32) with (Z.of_nat (length (split_path cursor).1) <=? 31)
    by (destruct (Z.leb_spec (Z.of_nat (length (split_path cursor).1)) 31),
          (Z.ltb_spec (Z.of_nat (length (split_path cursor).1)) 32); lia || done).
  destruct (_ <=? 31); [|done]. destruct (lookup_child _ _ v) as [q|]; [|done]. simpl.
  set (rest := drop _ cursor). pose proof (skip_slashes_length rest) as Hsk.
  assert (length rest < length cursor)%nat as Hrl by (unfold rest; rewrite length_drop; simpl in *; lia).
  rewrite IH; [by rewrite components_skip|simpl in *; lia|apply skip_slashes_head].
Qed.

Lemma resolve_path_walk path credentials v :
  vfs_resolve_path (Some path) credentials v
  = if default 0 (path !! 0%nat) =? 47
    then root_inode v ≫= λ root, walk root (components path) credentials v else None.
Proof.
  unfold vfs_resolve_path. destruct path as [|c path]; simpl; [by destruct (root_inode v)|].
  destruct (Z.eqb_spec c 47) as [->|]; simpl; [|by destruct (root_inode v)].
  destruct (root_inode v) as [root|]; [|done]. simpl. rewrite components_slash.
  pose proof (components_skip path) as Hc. pose proof (skip_slashes_head path) as Hh.
  pose proof (skip_slashes_length path) as Hl. destruct (skip_slashes path) as [|d rest]; [by rewrite <- Hc|].
  rewrite <- Hc. rewrite <- resolve_loop_spec with (fuel := S (S (length path))); [done| |done]. simpl in *. lia.
Qed.

(** ** The last component *)

Lemma split_path_app a b :
  split_path (a ++ 47 :: b) = ((split_path a).1, (split_path a).2 ++ components b).
Proof.
  induction a as [|c a IH]; simpl.
  - unfold components. by destruct (split_path b) as [[] t].
  - rewrite IH. destruct (split_path a) as [h t]. simpl. destruct (c =? 47); [|done]. by destruct h.
Qed.

Lemma components_app a b : components (a ++ 47 :: b) = components a ++ components b.
Proof. unfold components at 1 2. rewrite split_path_app. by destruct (split_path a) as [[] t]. Qed.

Lemma components_plain b : Forall (λ c, c ≠ 47) b → b ≠ [] → components b = [b].
Proof.
  intros Hb Hne. assert (split_path b = (b, [])) as E.
  { clear Hne. induction Hb as [|c b Hc Hb IH]; [done|]. simpl. rewrite IH.
    by rewrite (proj2 (Z.eqb_neq c 47)). }
  unfold components. rewrite E. by destruct b.
Qed.

(** The last slash splits the path. *)
Lemma last_slash_spec path :
  default 0 (path !! 0%nat) = 47 →
  ∃ a b, path = a ++ 47 :: b ∧ last_slash path = Z.of_nat (length a) ∧ Forall (λ c, c ≠ 47) b.
Proof.
  intros H0. unfold last_slash.
  assert (∀ n : Z, 0 < n ≤ Z.of_nat (length path) →
    let l := for_range 0 n (λ index last, if default 0 (path !! Z.to_nat index) =? 47 then index else last) 0 in
    0 ≤ l < n ∧ default 0 (path !! Z.to_nat l) = 47 ∧
    ∀ i, l < i < n → default 0 (path !! Z.to_nat i) ≠ 47) as Hl.
  { intros n Hn. cbv zeta.
    assert (∀ n, 0 ≤ n → let l := for_range 0 n (λ index last, if default 0 (path !! Z.to_nat index) =? 47 then index else last) 0 in
      (0 < n → 0 ≤ l < n) ∧ default 0 (path !! Z.to_nat l) = 47 ∧
      ∀ i, l < i < n → default 0 (path !! Z.to_nat i) ≠ 47) as H.
    { intros m Hm. apply (for_range_ind (λ n l, (0 < n → 0 ≤ l < n) ∧ default 0 (path !! Z.to_nat l) = 47 ∧
        ∀ i, l < i < n → default 0 (path !! Z.to_nat i) ≠ 47)); [done|split_and!; [lia|done|lia]|].
      intros k l Hk (H1&H2&H3). destruct (Z.eqb_spec (default 0 (path !! Z.to_nat k)) 47) as [E|E].
      - split_and!; [lia|done|lia].
      - split_and!; [intros _|done|].
        + destruct (decide (k = 0)) as [->|]; [done|lia].
        + intros i Hi. destruct (decide (i = k)) as [->|]; [done|]. apply H3. lia. }
    destruct (H n ltac:(lia)) as (H1&H2&H3). split_and!; [lia..|done|done]. }
  destruct path as [|c0 p0]; [done|]. set (path := c0 :: p0) in *.
  destruct (Hl (Z.of_nat (length path)) ltac:(simpl; lia)) as (Hr&Hs&Hno). set (l := for_range _ _ _ _) in *.
  exists (take (Z.to_nat l) path), (drop (S (Z.to_nat l)) path). split_and!.
  - rewrite <- (take_drop (Z.to_nat l) path) at 1. f_equal.
    destruct (path !! Z.to_nat l) as [c|] eqn:El; [|simpl in Hs; lia].
    simpl in Hs. rewrite (drop_S _ 47 (Z.to_nat l)); [done|by rewrite El, Hs].
  - rewrite length_take. lia.
  - apply Forall_lookup. intros i c Hi. rewrite lookup_drop in Hi.
    assert (S (Z.to_nat l) + i < length path)%nat by (by eapply lookup_lt_Some).
    specialize (Hno (l + 1 + Z.of_nat i) ltac:(lia)).
    replace (Z.to_nat (l + 1 + Z.of_nat i)) with (S (Z.to_nat l) + i)%nat in Hno by lia. by rewrite Hi in Hno.
Qed.

(** The last slash of a path of which we know it. *)
Lemma last_slash_app a b : Forall (λ c, c ≠ 47) b → default 0 ((a ++ 47 :: b) !! 0%nat) = 47 →
  last_slash (a ++ 47 :: b) = Z.of_nat (length a).
Proof.
  intros Hb H0. destruct (last_slash_spec _ H0) as (a'&b'&E&->&Hb'). f_equal.
  assert (∀ (l l' r r' : list Z), l ++ 47 :: r = l' ++ 47 :: r' → Forall (λ c, c ≠ 47) r →
    Forall (λ c, c ≠ 47) r' → length l = length l') as H; [|by eapply H].
  induction l as [|x l IH]; intros [|x' l'] r r'; simpl; intros [=] Hr Hr'; subst; [done| | |].
  - rewrite Forall_app, Forall_cons in Hr. naive_solver.
  - rewrite Forall_app, Forall_cons in Hr'. naive_solver.
  - f_equal. by eapply IH.
Qed.

Lemma resolve_parent_iff path credentials v parent leaf :
  vfs_resolve_parent (Some path) credentials v = Some (parent, leaf) ↔
  ∃ a, path = a ++ 47 :: leaf ∧ default 0 (path !! 0%nat) = 47 ∧ leaf ≠ [] ∧ Forall (λ c, c ≠ 47) leaf ∧
    Z.of_nat (length leaf) < VFS_NAME_MAX ∧ Z.of_nat (length a) < VFS_PATH_MAX ∧
    (root_inode v ≫= λ root, walk root (components a) credentials v) = Some parent ∧
    in_kind (get_inode parent v) = VFS_INODE_DIR.
Proof.
  unfold vfs_resolve_parent, VFS_NAME_MAX, VFS_PATH_MAX.
  destruct (Z.eqb_spec (default 0 (path !! 0%nat)) 47) as [H0|H0]; simpl.
  2:{ split; [done|]. intros (a&_&?&_). done. }
  destruct (last_slash_spec path H0) as (a&b&->&El&Hb). rewrite El.
  assert (Datatypes.length (a ++ (47%Z : Z) :: b) = Datatypes.length a + S (Datatypes.length b))%nat as Elen by (by rewrite length_app).
  assert (drop (Z.to_nat (Z.of_nat (length a) + 1)) (a ++ 47 :: b) = b) as ->.
  { replace (Z.to_nat _) with (length a + 1)%nat by lia. by rewrite <- drop_drop, drop_app_length. }
  rewrite Nat2Z.id, take_app_length.
  assert (∀ x leaf', a ++ 47 :: b = x ++ 47 :: leaf' → Forall (λ c, c ≠ 47) leaf' → x = a ∧ leaf' = b) as Huniq.
  { intros x leaf' E Hl. pose proof (last_slash_app x leaf' Hl ltac:(by rewrite <- E)) as E2. rewrite <- E, El in E2.
    apply app_inj_1 in E as [-> [= ->]]; [done|lia]. }
  assert (vfs_resolve_path (Some (if Z.of_nat (length a) =? 0 then [47] else a)) credentials v
    = root_inode v ≫= λ root, walk root (components a) credentials v) as ->.
  { destruct a as [|c a]; simpl; [by rewrite resolve_path_walk|]. rewrite resolve_path_walk.
    simpl in *. by rewrite H0. }
  destruct (Z.ltb_spec (Z.of_nat (length (a ++ 47 :: b))) 2).
  { split; [done|]. intros (x&E&_&Hne&Hf&_). destruct (Huniq _ _ E Hf) as [-> ->]. destruct b; [done|simpl in *; lia]. }
  destruct (Z.eqb_spec (Z.of_nat (length a)) (Z.of_nat (length (a ++ 47 :: b)) - 1)).
  { split; [done|]. intros (x&E&_&Hne&Hf&_). destruct (Huniq _ _ E Hf) as [-> ->]. destruct b; [done|simpl in *; lia]. }
  destruct (Z.leb_spec 32 (Z.of_nat (length b))).
  { split; [done|]. intros (x&E&_&Hne&Hf&?&_). destruct (Huniq _ _ E Hf) as [-> ->]. lia. }
  destruct (negb (Z.of_nat (length a) =? 0) && (128 <=? Z.of_nat (length a))) eqn:E128.
  { split; [done|]. intros (x&E&_&Hne&Hf&_&?&_). destruct (Huniq _ _ E Hf) as [-> ->]. zbool. lia. }
  assert (Z.of_nat (length a) < 128) by (zbool; lia).
  destruct (root_inode v ≫= _) as [q|] eqn:Ew; [case_bool_decide as Hk|].
  - split.
    + intros [= <- <-]. exists a. split_and!; try done. intros ->. simpl in *. lia.
    + intros (x&E&_&_&Hf&_&_&Hw&_). destruct (Huniq _ _ E Hf) as [-> ->]. by rewrite Ew in Hw; simplify_eq.
  - split; [done|]. intros (x&E&_&_&Hf&_&_&Hw&?). destruct (Huniq _ _ E Hf) as [-> ->].
    by rewrite Ew in Hw; simplify_eq.
  - split; [done|]. intros (x&E&_&_&Hf&_&_&Hw&?). destruct (Huniq _ _ E Hf) as [-> _]. congruence.
Qed.

(** C34: Resolving a path is a walk from the root along the components of the path (its
    pieces between slashes, however many slashes there are): each step needs a
    directory that the caller may search, a component of at most 31 characters and
    a child of that name; anything else, and a path that does not start with a
    slash, resolves to nothing. *)
Theorem vfs_resolve_path_spec path credentials v :
  vfs_resolve_path (Some path) credentials v
  = if default 0 (path !! 0%nat) =? 47
    then root_inode v ≫= λ root, walk root (components path) credentials v else None.
Proof. apply resolve_path_walk. Qed.

(** The parent of a path and the name of its leaf.  They are found exactly when the
    path is absolute, the text behind its last slash is a name of one to 31
    characters, the text before it is shorter than 128 and walks to a
    directory; and then resolving the whole path is one step more, to the child of
    that name. *)
Theorem vfs_resolve_parent_spec path credentials v parent leaf :
  (vfs_resolve_parent (Some path) credentials v = Some (parent, leaf) ↔
   ∃ a, path = a ++ 47 :: leaf ∧ default 0 (path !! 0%nat) = 47 ∧ leaf ≠ [] ∧ Forall (λ c, c ≠ 47) leaf ∧
     Z.of_nat (length leaf) < VFS_NAME_MAX ∧ Z.of_nat (length a) < VFS_PATH_MAX ∧
     (root_inode v ≫= λ root, walk root (components a) credentials v) = Some parent ∧
     in_kind (get_inode parent v) = VFS_INODE_DIR) ∧
  (vfs_resolve_parent (Some path) credentials v = Some (parent, leaf) →
   vfs_resolve_path (Some path) credentials v = step_child parent leaf credentials v).
Proof.
  split; [apply resolve_parent_iff|]. rewrite resolve_parent_iff.
  intros (a&->&H0&Hne&Hf&_&_&Hw&_). rewrite resolve_path_walk, H0. simpl. rewrite components_app, (components_plain leaf) by done.
  destruct (root_inode v) as [root|]; [|done]. simpl in *. rewrite walk_app, Hw. simpl.
  by destruct (step_child parent leaf credentials v).
Qed.

End walk.
