(* ===== verification/VfsFiles.v ===== *)
(** * Open files and pipes

    A pipe is a bounded queue of bytes; the reference counts of inodes and pipes are
    the numbers of open files that point to them, and a pipe's memory is given back
    exactly when its last file is closed.  The heap is used through the laws
    [KernelHeapLaws], which the kernel heap keeps ([Kheap]). *)

From stdpp Require Import gmap.
From S2P Require Import Prelude Mem Block Vnode Simplefs Vfs VfsPath.

Local Open Scope Z_scope.
Local Open Scope c_scope.

(** What the heap promises: [live h X] says that the addresses in use are [X].  A
    request of up to a page returns, with null or with an address that was not in
    use; a used address can be given back. *)
Class KernelHeapLaws {Hp : Type} `{KernelHeap Hp} (live : Hp → gset Z → Prop) : Prop := {
  law_kmalloc : ∀ h X size, live h X → 0 < size ≤ 4096 →
    ∃ a h', heap_kmalloc size h = Some (a, h') ∧ (a = 0 ∧ live h' X ∨ a ≠ 0 ∧ a ∉ X ∧ live h' ({[a]} ∪ X));
  law_kzalloc : ∀ h X size, live h X → 0 < size ≤ 4096 →
    ∃ a h', heap_kzalloc size h = Some (a, h') ∧ (a = 0 ∧ live h' X ∨ a ≠ 0 ∧ a ∉ X ∧ live h' ({[a]} ∪ X));
  law_kfree : ∀ h X a, live h X → a ∈ X → live (heap_kfree a h) (X ∖ {[a]});
}.

(** ** The queue of a pipe *)

Record pipe_ok (p : vfs_pipe) : Prop := {
  po_read : 0 ≤ read_index p < VFS_PIPE_BUFFER_SIZE;
  po_count : 0 ≤ buffered p ≤ VFS_PIPE_BUFFER_SIZE;
  po_write : write_index p = (read_index p + buffered p) mod VFS_PIPE_BUFFER_SIZE;
}.

(** The bytes waiting in the pipe, the oldest first. *)
Definition queue (p : vfs_pipe) : list Z :=
  (λ i, pipe_buffer p ((read_index p + i) mod VFS_PIPE_BUFFER_SIZE)) <$> seqZ 0 (buffered p).

Lemma queue_length p : pipe_ok p → Z.of_nat (length (queue p)) = buffered p.
Proof. intros []. unfold queue. rewrite length_fmap, length_seqZ. lia. Qed.

Lemma queue_cons p :
  pipe_ok p → 0 < buffered p →
  queue p = pipe_buffer p (read_index p) ::
    ((λ i, pipe_buffer p ((read_index p + 1 + i) mod VFS_PIPE_BUFFER_SIZE)) <$> seqZ 0 (buffered p - 1)).
Proof.
  intros [Hr Hc Hw] Hpos. unfold queue. rewrite seqZ_cons by lia. simpl. f_equal.
  - f_equal. rewrite Z.add_0_r. by apply Z.mod_small.
  - change (Z.succ 0) with (1 + 0). rewrite <- fmap_add_seqZ, <- list_fmap_compose.
    replace (Z.pred (buffered p)) with (buffered p - 1) by lia.
    apply list_fmap_ext. intros i x _. simpl. do 2 f_equal. lia.
Qed.

(** The loop of a read takes bytes from the front. *)
Lemma pipe_read_loop_spec fuel p copied len bytes :
  pipe_ok p → 0 ≤ copied ≤ len → len < 4294967296 → buffered p ≤ Z.of_nat fuel →
  let n := Z.min (len - copied) (buffered p) in
  let '(c, bytes', p') := pipe_read_loop fuel copied len bytes p in
  c = copied + n ∧ pipe_ok p' ∧ queue p' = drop (Z.to_nat n) (queue p) ∧
  (∀ k, bytes' k = if (copied <=? k) && (k <? copied + n)
                   then default 0 (queue p !! Z.to_nat (k - copied)) else bytes k) ∧
  pipe_inode p' = pipe_inode p ∧ reader_count p' = reader_count p ∧ writer_count p' = writer_count p.
Proof.
  revert p copied bytes. induction fuel as [|fuel IH]; intros p copied bytes Hok Hc Hl Hf n; simpl.
  { pose proof Hok as [_ Hb _]. assert (n = 0) as -> by lia. split_and!; try done; [lia|].
    intros k. case_if; [zbool; lia|done]. }
  pose proof Hok as [Hr Hb Hw]. unfold truthy.
  destruct (Z.ltb_spec copied len); destruct (Z.eqb_spec (buffered p) 0); bsimpl;
    try (assert (n = 0) as -> by lia; split_and!; try done; [lia|]; intros k; case_if; [zbool; lia|done]).
  unfold VFS_PIPE_BUFFER_SIZE in *. rewrite (u32_small (copied + 1)), (u32_small (read_index p + 1)),
    (u32_small (buffered p - 1)) by lia.
  set (p1 := {| pipe_inode := _ |}).
  assert (pipe_ok p1) as Hok1.
  { split; unfold p1, VFS_PIPE_BUFFER_SIZE; simpl; [apply Z.mod_pos_bound; lia|lia|].
    rewrite Hw. rewrite Zplus_mod_idemp_l. f_equal. lia. }
  assert (queue p = pipe_buffer p (read_index p) :: queue p1) as Eq.
  { rewrite queue_cons by (done || lia). f_equal. unfold queue, p1. simpl. apply list_fmap_ext.
    intros i x _. f_equal. unfold VFS_PIPE_BUFFER_SIZE. by rewrite Zplus_mod_idemp_l. }
  set (bytes1 := <[copied := _]> bytes).
  specialize (IH p1 (copied + 1) bytes1 Hok1 ltac:(lia) Hl ltac:(unfold p1; simpl; lia)). cbv zeta in IH.
  destruct (pipe_read_loop fuel (copied + 1) len bytes1 p1) as [[c bytes'] p'].
  destruct IH as (Ec&Hok'&Eq'&Hb'&Ei&Er&Ew). change (buffered p1) with (buffered p - 1) in *.
  split_and!; try done; [lia| |].
  - rewrite Eq', Eq. replace (Z.to_nat n) with (S (Z.to_nat (Z.min (len - (copied + 1)) (buffered p - 1)))) by lia. done.
  - intros k. rewrite Hb', Eq. unfold bytes1. destruct (decide (k = copied)) as [->|Hk].
    + rewrite (proj2 (Z.leb_gt (copied + 1) copied)) by lia.
      rewrite (proj2 (Z.leb_le copied copied)), (proj2 (Z.ltb_lt copied (copied + n))) by lia.
      bsimpl. rewrite arr_get_set_eq, Z.sub_diag. done.
    + rewrite arr_get_set_ne by done.
      destruct ((copied + 1 <=? k) && (k <? copied + 1 + Z.min (len - (copied + 1)) (buffered p - 1))) eqn:E1;
      destruct ((copied <=? k) && (k <? copied + n)) eqn:E2; try done; try (zbool; lia).
      zbool. replace (Z.to_nat (k - copied)) with (S (Z.to_nat (k - (copied + 1)))) by lia. done.
Qed.

(** The loop of a write puts bytes at the end. *)
Lemma queue_snoc p x :
  pipe_ok p → buffered p < VFS_PIPE_BUFFER_SIZE →
  let p' := {| pipe_inode := pipe_inode p; reader_count := reader_count p; writer_count := writer_count p;
               read_index := read_index p; write_index := (write_index p + 1) mod VFS_PIPE_BUFFER_SIZE;
               buffered := buffered p + 1; pipe_buffer := <[write_index p := x]> (pipe_buffer p) |} in
  pipe_ok p' ∧ queue p' = queue p ++ [x].
Proof.
  intros [Hr Hc Hw] Hlt p'. unfold VFS_PIPE_BUFFER_SIZE in *. split.
  - split; unfold p', VFS_PIPE_BUFFER_SIZE; simpl; [done|lia|]. rewrite Hw, Zplus_mod_idemp_l. f_equal. lia.
  - unfold queue, p', VFS_PIPE_BUFFER_SIZE. simpl. 
    replace (buffered p + 1) with (Z.of_nat (S (Z.to_nat (buffered p)))) by lia.
    rewrite seqZ_S, Z2Nat.id, fmap_app by lia. f_equal.
    + apply list_fmap_ext. intros i k Hi. apply lookup_seqZ in Hi as [-> Hi]. rewrite arr_get_set_ne; [done|].
      rewrite Hw. intros E. assert (buffered p = 0 + Z.of_nat i); [|lia].
      rewrite !(Z.mod_eq _ 1024) in E by lia. Z.to_euclidean_division_equations. lia.
    + simpl. rewrite Hw, Z.add_0_l, arr_get_set_eq. done.
Qed.

(** The bytes [lo, lo + n) of a buffer, as the pipe stores them. *)
Definition buffer_bytes (buffer : carray Z) (lo n : Z) : list Z := (λ k, u8 (buffer k)) <$> seqZ lo n.

Lemma pipe_write_loop_spec fuel p written len buffer :
  pipe_ok p → 0 ≤ written ≤ len → len < 4294967296 → VFS_PIPE_BUFFER_SIZE - buffered p ≤ Z.of_nat fuel →
  let n := Z.min (len - written) (VFS_PIPE_BUFFER_SIZE - buffered p) in
  let '(w, p') := pipe_write_loop fuel written len buffer p in
  w = written + n ∧ pipe_ok p' ∧ queue p' = queue p ++ buffer_bytes buffer written n ∧
  pipe_inode p' = pipe_inode p ∧ reader_count p' = reader_count p ∧ writer_count p' = writer_count p.
Proof.
  revert p written. induction fuel as [|fuel IH]; intros p written Hok Hw Hl Hf n; simpl.
  all: pose proof Hok as [Hr Hb _]; unfold VFS_PIPE_BUFFER_SIZE in *.
  { assert (n = 0) as -> by lia. unfold buffer_bytes. rewrite seqZ_nil, app_nil_r by lia. split_and!; try done. lia. }
  destruct (Z.ltb_spec written len); destruct (Z.ltb_spec (buffered p) 1024); bsimpl;
    try (assert (n = 0) as -> by lia; unfold buffer_bytes; rewrite seqZ_nil, app_nil_r by lia;
         split_and!; try done; lia).
  assert (0 ≤ write_index p < 1024) as Hwi.
  { rewrite (po_write p Hok). unfold VFS_PIPE_BUFFER_SIZE. apply Z.mod_pos_bound. lia. }
  rewrite (u32_small (written + 1)), (u32_small (write_index p + 1)), (u32_small (buffered p + 1)) by lia.
  destruct (queue_snoc p (u8 (buffer written)) Hok ltac:(unfold VFS_PIPE_BUFFER_SIZE; lia)) as [Hok1 Eq].
  unfold VFS_PIPE_BUFFER_SIZE in Hok1, Eq. set (p1 := {| pipe_inode := _ |}) in *.
  specialize (IH p1 (written + 1) Hok1 ltac:(lia) Hl ltac:(unfold p1; simpl; lia)). cbv zeta in IH.
  destruct (pipe_write_loop fuel (written + 1) len buffer p1) as [w p'].
  destruct IH as (Ew&Hok'&Eq'&Ei&Er&Ewc). change (buffered p1) with (buffered p + 1) in *.
  split_and!; try done; [lia|]. rewrite Eq', Eq, <- app_assoc. f_equal. unfold buffer_bytes.
  rewrite (seqZ_cons written) by lia. simpl. do 2 f_equal. f_equal; lia.
Qed.

Section files.
Context {St Hp Io : Type} `{!KernelHeap Hp} `{!ConsoleIO Io}.
Implicit Types (v : vfs St Hp Io) (f a : Z).

(** The file [f] is an end of the pipe at [a]. *)
Definition pipe_end f a v : Prop := vfs_pipe_from_file (Some f) v = Some a ∧ pipe_ok (pipes v a).

(** C7: A pipe is a queue of at most 1024 bytes.  A write through an end open for
    writing, while a reader exists, appends as many bytes as fit and returns their
    number, or says that it would block when none fits; a read through an end open
    for reading removes the oldest bytes, in order, and returns their number, and
    with nothing to read it reports the end of the data exactly when no writer is
    left.  Nothing else changes. *)
Theorem pipe_refines_queue f a v buffer length :
  pipe_end f a v → is_u32 length →
  let q := queue (pipes v a) in
  let room := VFS_PIPE_BUFFER_SIZE - Z.of_nat (Datatypes.length q) in
  (Z.land (f_flags (file_at f v)) VFS_O_WRONLY ≠ 0 → reader_count (pipes v a) ≠ 0 →
   let n := Z.min length room in
   let '(r, v') := vfs_pipe_write (Some f) (Some buffer) length v in
   r = (if n =? 0 then VFS_ERR_WOULD_BLOCK else n) ∧
   ∃ p', v' = set_pipe a p' v ∧ pipe_ok p' ∧ queue p' = q ++ buffer_bytes buffer 0 n ∧
     pipe_inode p' = pipe_inode (pipes v a) ∧ reader_count p' = reader_count (pipes v a) ∧
     writer_count p' = writer_count (pipes v a)) ∧
  (Z.land (f_flags (file_at f v)) VFS_O_RDONLY ≠ 0 →
   let n := Z.min length (Z.of_nat (Datatypes.length q)) in
   let '(r, buffer', v') := vfs_pipe_read (Some f) (Some buffer) length v in
   r = (if n =? 0 then if writer_count (pipes v a) =? 0 then 0 else VFS_ERR_WOULD_BLOCK else n) ∧
   (∃ b, buffer' = Some b ∧
      ∀ k, b k = if (0 <=? k) && (k <? n) then default 0 (q !! Z.to_nat k) else buffer k) ∧
   ∃ p', v' = set_pipe a p' v ∧ pipe_ok p' ∧ queue p' = drop (Z.to_nat n) q ∧
     pipe_inode p' = pipe_inode (pipes v a) ∧ reader_count p' = reader_count (pipes v a) ∧
     writer_count p' = writer_count (pipes v a)).
Proof.
  intros [Hf Hok] Hlen q room. unfold is_u32 in Hlen. pose proof Hok as [Hr Hb _].
  unfold room, q. rewrite (queue_length _ Hok). unfold vfs_pipe_write, vfs_pipe_read, pipe_inode_write, pipe_inode_read.
  rewrite Hf. change (default 0 (Some f)) with f. unfold VFS_PIPE_BUFFER_SIZE in *. split.
  - intros Hfl Hrc. rewrite (proj2 (Z.eqb_neq _ _) Hfl), (proj2 (Z.eqb_neq _ _) Hrc).
    pose proof (pipe_write_loop_spec (Z.to_nat 1024) (pipes v a) 0 length buffer Hok ltac:(lia) ltac:(lia)
      ltac:(unfold VFS_PIPE_BUFFER_SIZE; lia)) as Hw. cbv zeta in *. unfold VFS_PIPE_BUFFER_SIZE in Hw.
    destruct (pipe_write_loop _ 0 length buffer (pipes v a)) as [w p']. rewrite Z.sub_0_r in Hw.
    destruct Hw as (->&Hok'&Eq&Ei&Er&Ew). rewrite Z.add_0_l. unfold truthy.
    destruct (Z.eqb_spec (Z.min length (1024 - buffered (pipes v a))) 0) as [E|E]; bsimpl.
    + split; [done|]. by exists p'.
    + split; [apply i32_small; lia|]. by exists p'.
  - intros Hfl. rewrite (proj2 (Z.eqb_neq _ _) Hfl).
    pose proof (pipe_read_loop_spec (Z.to_nat (buffered (pipes v a))) (pipes v a) 0 length buffer Hok ltac:(lia)
      ltac:(lia) ltac:(lia)) as Hw. cbv zeta in *.
    destruct (pipe_read_loop _ 0 length buffer (pipes v a)) as [[c b] p']. rewrite Z.sub_0_r in Hw.
    destruct Hw as (->&Hok'&Eq&Hby&Ei&Er&Ew). rewrite Z.add_0_l in *. unfold truthy. rewrite Ew.
    assert (∃ b', Some b = Some b' ∧ ∀ k, b' k = (if (0 <=? k) && (k <? Z.min length (buffered (pipes v a)))
      then default 0 (queue (pipes v a) !! Z.to_nat k) else buffer k)) as Hbuf.
    { exists b. split; [done|]. intros k. rewrite Hby. by rewrite Z.sub_0_r. }
    destruct (Z.eqb_spec (Z.min length (buffered (pipes v a))) 0) as [E|E]; bsimpl.
    + destruct (writer_count (pipes v a) =? 0); (split_and!; [done|done|]; by exists p').
    + split_and!; [apply i32_small; lia|done|]. by exists p'.
Qed.

(** ** Reference counts *)

(** The number of open files for which [b] holds. *)
Definition opens_if (b : vfs_file → bool) v : Z := count_range 0 VFS_MAX_FILES (λ f, b (file_at f v)).
Definition opens_on (p : inode_ptr) (x : vfs_file) : bool := bool_decide (f_inode x = Some p).
Definition opens_with (p : inode_ptr) (bit : Z) (x : vfs_file) : bool :=
  opens_on p x && truthy (Z.land (f_flags x) bit).
Abbreviation opens p := (opens_if (opens_on p)).

Lemma opens_update b f v v' :
  0 ≤ f < VFS_MAX_FILES → (∀ g, g ≠ f → file_at g v' = file_at g v) →
  opens_if b v' = opens_if b v - (if b (file_at f v) then 1 else 0) + (if b (file_at f v') then 1 else 0).
Proof.
  intros Hf Hg. unfold opens_if.
  pose proof (count_range_point 0 VFS_MAX_FILES (λ f, b (file_at f v)) (λ f, b (file_at f v')) f Hf) as H.
  specialize (H ltac:(intros k Hk; cbv beta; by rewrite Hg)). cbv beta in H. lia.
Qed.

Lemma opens_bounds b v : 0 ≤ opens_if b v ≤ 32.
Proof. apply (count_range_bounds 0 32). lia. Qed.

Lemma opens_pos b f v : 0 ≤ f < VFS_MAX_FILES → b (file_at f v) = true → 0 < opens_if b v.
Proof.
  intros Hf Hb. pose proof (opens_bounds b v). destruct (Z.eq_dec (opens_if b v) 0) as [E|]; [|lia].
  unfold opens_if in E. rewrite count_range_zero in E. specialize (E f Hf). cbv beta in E. congruence.
Qed.

Lemma file_at_set f x g v :
  is_Some (file_table v) → file_at g (set_file f x v) = if decide (f = g) then x else file_at g v.
Proof. intros [t Ht]. unfold file_at, set_file. simpl. rewrite Ht. simpl. by rewrite arr_get_set. Qed.

Lemma file_at_set_inode p x g v : file_at g (set_inode p x v) = file_at g v.
Proof. by destruct p. Qed.

Lemma get_set_inode p x q v : get_inode q (set_inode p x v) = if decide (p = q) then x else get_inode q v.
Proof.
  destruct p as [i|a| |], q as [j|b| |]; simpl; try (by rewrite ?decide_False by congruence); try (by rewrite decide_True).
  - unfold set_vfs, set_node, node_vfs. simpl. rewrite arr_get_set.
    destruct (decide (i = j)) as [->|]; [by rewrite decide_True|by rewrite decide_False by congruence].
  - rewrite arr_get_set. destruct (decide (a = b)) as [->|]; [by rewrite decide_True|by rewrite decide_False by congruence].
Qed.

Lemma pipes_set_inode p x b v :
  pipes (set_inode p x v) b = if decide (p = IP_pipe b) then with_pipe_inode x (pipes v b) else pipes v b.
Proof.
  destruct p as [i|a| |]; try (by rewrite decide_False by congruence).
  cbn [set_inode pipes with_pipes]. rewrite arr_get_set. destruct (decide (a = b)) as [->|]; [by rewrite decide_True|by rewrite decide_False by congruence].
Qed.

Definition is_pipe (p : inode_ptr) : bool := match p with IP_pipe _ => true | _ => false end.

(** A pipe in use: its structure, and its three counts.  The pipe [fresh], if any, is
    being set up: its readers and writers are not counted yet. *)
Record pipe_live (fresh : option Z) a v : Prop := {
  pl_ok : pipe_ok (pipes v a);
  pl_kind : in_kind (pipe_inode (pipes v a)) = VFS_INODE_PIPE;
  pl_private : in_private_data (pipe_inode (pipes v a)) = PD_pipe a;
  pl_refs : in_ref_count (pipe_inode (pipes v a)) = opens (IP_pipe a) v;
  pl_readers : reader_count (pipes v a)
    = if decide (fresh = Some a) then 0 else opens_if (opens_with (IP_pipe a) VFS_O_RDONLY) v;
  pl_writers : writer_count (pipes v a)
    = if decide (fresh = Some a) then 0 else opens_if (opens_with (IP_pipe a) VFS_O_WRONLY) v;
}.

Context (live : Hp → gset Z → Prop) `{!KernelHeapLaws live}.

(** The consistency of the file table: free entries point nowhere, the reference
    count of an inode is the number of open files on it, and the open pipes are
    live and lie in heap memory in use. *)
Record table_ok (fresh : option Z) (X : gset Z) v : Prop := {
  to_heap : live (heap v) X;
  to_table : is_Some (file_table v);
  to_range : ∀ f, is_u32 (f_ref_count (file_at f v));
  to_free : ∀ f, 0 ≤ f < VFS_MAX_FILES → f_ref_count (file_at f v) = 0 ↔ f_inode (file_at f v) = None;
  to_plain : ∀ p, is_pipe p = false →
    in_ref_count (get_inode p v) = opens p v ∧ ∀ a, in_private_data (get_inode p v) ≠ PD_pipe a;
  to_pipe : ∀ a, 0 < opens (IP_pipe a) v → a ∈ X ∧ pipe_live fresh a v;
}.
Definition files_ok : gset Z → vfs St Hp Io → Prop := table_ok None.

(** Opening an inode, exactly. *)
Lemma open_inode_cases p flags v :
  is_Some (file_table v) →
  match vfs_open_inode p flags v with
  | (None, v') => v' = v ∧ ∀ f, 0 ≤ f < VFS_MAX_FILES → f_ref_count (file_at f v) ≠ 0
  | (Some f, v') =>
      0 ≤ f < VFS_MAX_FILES ∧ f_ref_count (file_at f v) = 0 ∧
      (∀ g, file_at g v' = if decide (f = g)
         then {| f_inode := Some p; f_flags := flags; f_offset := 0; f_ref_count := 1 |} else file_at g v) ∧
      (∀ q, get_inode q v' = if decide (p = q)
         then with_in_ref_count (in_ref_count (get_inode p v) ⊞ 1) (get_inode p v) else get_inode q v) ∧
      (∀ b, pipes v' b = with_pipe_inode (get_inode (IP_pipe b) v') (pipes v b)) ∧
      heap v' = heap v ∧ is_Some (file_table v')
  end.
Proof.
  intros [t Ht]. unfold vfs_open_inode, vfs_alloc_file. rewrite Ht.
  destruct (for_find 0 VFS_MAX_FILES _) as [f|] eqn:E.
  2:{ split; [done|]. intros f Hf. rewrite for_find_None in E. specialize (E f Hf).
      unfold file_at. rewrite Ht. by apply Z.eqb_neq. }
  apply for_find_Some in E as (Hf&E&_). apply Z.eqb_eq in E.
  assert (f_ref_count (file_at f v) = 0) as E0 by (unfold file_at; by rewrite Ht).
  set (v1 := set_file f _ v). assert (is_Some (file_table v1)) as Ht1 by (unfold v1; simpl; rewrite Ht; by eexists).
  set (v2 := set_file f _ v1). assert (is_Some (file_table v2)) as Ht2
    by (unfold v2; destruct Ht1 as [t1 Ht1]; simpl; simpl in Ht1; rewrite Ht1; by eexists).
  assert (∀ q, get_inode q v2 = get_inode q v) as Hi by (by intros []).
  assert (∀ q x, is_Some (file_table (set_inode q x v2))) as Ht3 by (by intros []).
  refine (conj Hf (conj E0 _)). split_and!; try done.
  - intros g. rewrite file_at_set_inode. unfold v2. rewrite file_at_set by done.
    destruct (decide (f = g)) as [->|Hn].
    + unfold v1. by rewrite file_at_set, decide_True by (done || by eexists).
    + unfold v1. by rewrite file_at_set, decide_False by (done || by eexists).
  - intros q. rewrite get_set_inode, Hi. destruct (decide (p = q)) as [->|]; [done|apply Hi].
  - intros b. rewrite pipes_set_inode, get_set_inode. destruct (decide (p = IP_pipe b)) as [->|]; [done|].
    simpl. by destruct (pipes v b).
  - by destruct p.
Qed.

Lemma opens_fresh p q f flags v v' :
  0 ≤ f < VFS_MAX_FILES → f_inode (file_at f v) = None →
  (∀ g, file_at g v' = if decide (f = g)
     then {| f_inode := Some p; f_flags := flags; f_offset := 0; f_ref_count := 1 |} else file_at g v) →
  opens q v' = opens q v + (if decide (p = q) then 1 else 0) ∧
  ∀ bit, opens_if (opens_with q bit) v'
    = opens_if (opens_with q bit) v + (if decide (p = q) then (if truthy (Z.land flags bit) then 1 else 0) else 0).
Proof.
  intros Hf Hnone Hg. assert (∀ g, g ≠ f → file_at g v' = file_at g v) as Hne
    by (intros g Hgf; by rewrite Hg, decide_False).
  assert (file_at f v' = {| f_inode := Some p; f_flags := flags; f_offset := 0; f_ref_count := 1 |}) as Ef
    by (by rewrite Hg, decide_True).
  split; [|intros bit]; rewrite (opens_update _ f v v' Hf Hne), Ef; unfold opens_with, opens_on; rewrite Hnone; simpl.
  - destruct (decide (p = q)) as [->|]; [rewrite bool_decide_true by done|rewrite bool_decide_false by congruence]; lia.
  - destruct (decide (p = q)) as [->|]; [rewrite bool_decide_true by done|rewrite bool_decide_false by congruence];
      bsimpl; lia.
Qed.

Lemma with_pipe_inode_id p : with_pipe_inode (pipe_inode p) p = p.
Proof. by destruct p. Qed.

(** Opening an inode that is not a pipe keeps the table consistent. *)
Lemma open_plain_ok fresh X p flags v :
  table_ok fresh X v → is_pipe p = false →
  match vfs_open_inode p flags v with
  | (None, v') => v' = v
  | (Some f, v') => table_ok fresh X v' ∧ f_ref_count (file_at f v) = 0
  end.
Proof.
  intros [H1 H2 H3 H4 H5 H6] Hpl. pose proof (open_inode_cases p flags v H2) as Hc.
  destruct (vfs_open_inode p flags v) as [[f|] v']; [|by destruct Hc].
  destruct Hc as (Hf&E0&Hg&Hi&Hpi&Hh&Ht).
  pose proof (λ q, opens_fresh p q f flags v v' Hf (proj1 (H4 f Hf) E0) Hg) as Hop.
  split; [|done]. split.
  - by rewrite Hh.
  - done.
  - intros g. rewrite Hg. case_decide; [done|apply H3].
  - intros g Hgr. rewrite Hg. case_decide; [done|by apply H4].
  - intros q Hq. rewrite Hi. destruct (Hop q) as [-> _]. destruct (H5 q Hq) as [Hr Hpr].
    destruct (decide (p = q)) as [->|]; [|split; [lia|done]].
    pose proof (opens_bounds (opens_on q) v). split; [|done]. simpl. rewrite Hr. apply u32_small. lia.
  - intros a. assert (p ≠ IP_pipe a) as Hne by (by intros ->).
    destruct (Hop (IP_pipe a)) as [Eo Ew]. rewrite decide_False in Eo by done. rewrite Eo, Z.add_0_r.
    intros Hpos. destruct (H6 a Hpos) as [Hin [P1 P2 P3 P4 P5 P6]]. split; [done|].
    assert (pipes v' a = pipes v a) as Epa.
    { rewrite Hpi, Hi, decide_False by done. apply with_pipe_inode_id. }
    split; rewrite Epa, ?Eo, ?Z.add_0_r; try done.
    + rewrite P5. case_decide; [done|]. by rewrite Ew, decide_False, Z.add_0_r.
    + rewrite P6. case_decide; [done|]. by rewrite Ew, decide_False, Z.add_0_r.
Qed.

(** Changing an entry apart from its inode and flags. *)
Lemma set_file_ok fresh X f x v :
  table_ok fresh X v → f_inode x = f_inode (file_at f v) → f_flags x = f_flags (file_at f v) →
  (f_ref_count x = 0 ↔ f_ref_count (file_at f v) = 0) → is_u32 (f_ref_count x) →
  table_ok fresh X (set_file f x v).
Proof.
  intros [H1 H2 H3 H4 H5 H6] Ein Efl Hr Hu. set (v' := set_file f x v).
  assert (∀ g, file_at g v' = if decide (f = g) then x else file_at g v) as Hg
    by (intros g; by apply file_at_set).
  assert (∀ q, opens q v' = opens q v) as Ho.
  { intros q. apply count_range_ext. intros g _. rewrite Hg. case_decide; [|done]. subst. unfold opens_on. by rewrite Ein. }
  assert (∀ q bit, opens_if (opens_with q bit) v' = opens_if (opens_with q bit) v) as Hw.
  { intros q bit. apply count_range_ext. intros g _. rewrite Hg. case_decide; [|done]. subst.
    unfold opens_with, opens_on. by rewrite Ein, Efl. }
  split; try done.
  - destruct H2 as [t Ht]. unfold v', set_file. simpl. rewrite Ht. by eexists.
  - intros g. rewrite Hg. case_decide; [done|apply H3].
  - intros g Hgr. rewrite Hg. case_decide as E; [|by apply H4]. subst. rewrite Hr, Ein. by apply H4.
  - intros q Hq. rewrite Ho. destruct (H5 q Hq) as [Hr' Hp']. by destruct q.
  - intros a. rewrite Ho. intros Hpos. destruct (H6 a Hpos) as [Hin [P1 P2 P3 P4 P5 P6]]. split; [done|].
    split; rewrite ?Ho, ?Hw; done.
Qed.

(** The last reference to the open file [f] on the inode [p] is dropped. *)
Lemma release_last f p v :
  is_Some (file_table v) → f_ref_count (file_at f v) = 1 → f_inode (file_at f v) = Some p →
  let dec := if truthy (in_ref_count (get_inode p v))
    then with_in_ref_count (in_ref_count (get_inode p v) ⊟ 1) (get_inode p v) else get_inode p v in
  ∃ v2, vfs_release_file (Some f) v = set_file f zero_file (release_pipe p (f_flags (file_at f v)) v2) ∧
    (∀ q, get_inode q v2 = if decide (p = q) then dec else get_inode q v) ∧
    (∀ b, pipes v2 b = with_pipe_inode (get_inode (IP_pipe b) v2) (pipes v b)) ∧
    (∀ g, g ≠ f → file_at g v2 = file_at g v) ∧ f_ref_count (file_at f v2) = 0 ∧
    heap v2 = heap v ∧ is_Some (file_table v2).
Proof.
  intros Ht Hr Hi dec. unfold vfs_release_file. rewrite Hr. change (1 =? 0) with false. cbv iota zeta.
  set (v1 := set_file f _ v).
  assert (file_at f v1 = with_f_ref_count 0 (file_at f v)) as Ef by (unfold v1; by rewrite file_at_set, decide_True).
  assert (∀ g, g ≠ f → file_at g v1 = file_at g v) as Hne
    by (intros g Hg; unfold v1; rewrite file_at_set by done; by rewrite decide_False).
  assert (∀ q, get_inode q v1 = get_inode q v) as Hq by (by intros []).
  assert (is_Some (file_table v1)) as Ht1 by (destruct Ht as [t Ht]; unfold v1; simpl; rewrite Ht; by eexists).
  rewrite Ef. cbn [f_ref_count with_f_ref_count f_inode f_flags]. change (truthy 0) with false. cbv iota. rewrite Hi.
  set (v2 := if truthy _ then _ else v1).
  assert (∀ g, file_at g v2 = file_at g v1) as Hg2 by (intros g; unfold v2; case_if; [apply file_at_set_inode|done]).
  exists v2. split_and!.
  - set (v3 := release_pipe p _ v2).
    assert (file_at f v3 = file_at f v2) as -> by (unfold v3, release_pipe; repeat case_match; done).
    rewrite Hg2, Ef. done.
  - intros q. unfold v2, dec. rewrite Hq. case_if.
    + rewrite get_set_inode. case_decide; [done|apply Hq].
    + rewrite Hq. case_decide; [by subst|done].
  - intros b. unfold v2. rewrite Hq. case_if; [|simpl; by rewrite with_pipe_inode_id].
    rewrite pipes_set_inode, get_set_inode. case_decide; [done|]. simpl. by rewrite with_pipe_inode_id.
  - intros g Hg. by rewrite Hg2, Hne.
  - by rewrite Hg2, Ef.
  - unfold v2. case_if; [by destruct p|done].
  - unfold v2. case_if; [by destruct p|done].
Qed.

Lemma opens_closed p q f v v' :
  0 ≤ f < VFS_MAX_FILES → f_inode (file_at f v) = Some p → file_at f v' = zero_file →
  (∀ g, g ≠ f → file_at g v' = file_at g v) →
  opens q v' = opens q v - (if decide (p = q) then 1 else 0) ∧
  ∀ bit, opens_if (opens_with q bit) v' = opens_if (opens_with q bit) v
    - (if decide (p = q) then (if truthy (Z.land (f_flags (file_at f v)) bit) then 1 else 0) else 0).
Proof.
  intros Hf Hi Hz Hne.
  split; [|intros bit]; rewrite (opens_update _ f v v' Hf Hne), Hz; unfold opens_with, opens_on; rewrite Hi; simpl.
  - destruct (decide (p = q)) as [->|]; [rewrite bool_decide_true by done|rewrite bool_decide_false by congruence]; lia.
  - destruct (decide (p = q)) as [->|]; [rewrite bool_decide_true by done|rewrite bool_decide_false by congruence];
      bsimpl; lia.
Qed.

(** The table after the last reference to [f] is dropped, given what became of the
    heap, the inodes and the pipes. *)
Lemma closed_ok fresh X X' f p v v' :
  table_ok fresh X v → 0 ≤ f < VFS_MAX_FILES → f_inode (file_at f v) = Some p →
  file_at f v' = zero_file → (∀ g, g ≠ f → file_at g v' = file_at g v) →
  live (heap v') X' → is_Some (file_table v') →
  (∀ q, is_pipe q = false → get_inode q v'
     = if decide (p = q) then with_in_ref_count (in_ref_count (get_inode p v) ⊟ 1) (get_inode p v)
       else get_inode q v) →
  (∀ b, p ≠ IP_pipe b → pipes v' b = pipes v b ∧ (b ∈ X → b ∈ X')) →
  (∀ a, p = IP_pipe a → 0 < opens p v' → a ∈ X' ∧ pipe_live fresh a v') →
  table_ok fresh X' v'.
Proof.
  intros [H1 H2 H3 H4 H5 H6] Hf Hi Hz Hne Hl Ht Hpl Hpi Hself.
  pose proof (λ q, opens_closed p q f v v' Hf Hi Hz Hne) as Hop.
  assert (∀ g, file_at g v' = if decide (f = g) then zero_file else file_at g v) as Hg.
  { intros g. case_decide as E; [by subst|]. apply Hne. congruence. }
  split; try done.
  - intros g. rewrite Hg. case_decide; [done|apply H3].
  - intros g Hgr. rewrite Hg. case_decide; [done|by apply H4].
  - intros q Hq. rewrite Hpl by done. destruct (Hop q) as [-> _]. destruct (H5 q Hq) as [Hr Hpr].
    destruct (decide (p = q)) as [->|]; [|split; [lia|done]].
    pose proof (opens_bounds (opens_on q) v). split; [|done]. simpl. rewrite Hr.
    pose proof (opens_pos (opens_on q) f v Hf ltac:(unfold opens_on; by rewrite Hi, bool_decide_true)).
    apply u32_small. lia.
  - intros a. destruct (decide (p = IP_pipe a)) as [E|E].
    + intros Hpos. apply Hself; [done|by rewrite E].
    + destruct (Hop (IP_pipe a)) as [Eo Ew]. rewrite decide_False in Eo by done. rewrite Eo, Z.sub_0_r.
      intros Hpos. destruct (H6 a Hpos) as [Hin [P1 P2 P3 P4 P5 P6]]. destruct (Hpi a E) as [Ep HX].
      split; [by apply HX|].
      split; rewrite Ep, ?Eo, ?Z.sub_0_r; try done.
      * rewrite P5. case_decide; [done|]. by rewrite Ew, decide_False, Z.sub_0_r.
      * rewrite P6. case_decide; [done|]. by rewrite Ew, decide_False, Z.sub_0_r.
Qed.

(** Closing the last reference to a file that is not a pipe. *)
Lemma release_plain_ok fresh X f p v :
  table_ok fresh X v → 0 ≤ f < VFS_MAX_FILES → f_ref_count (file_at f v) = 1 →
  f_inode (file_at f v) = Some p → is_pipe p = false →
  table_ok fresh X (vfs_release_file (Some f) v) ∧
  (∀ g, file_at g (vfs_release_file (Some f) v) = if decide (f = g) then zero_file else file_at g v) ∧
  heap (vfs_release_file (Some f) v) = heap v.
Proof.
  intros Hok Hf Hr Hi Hpl. pose proof Hok as [H1 H2 _ _ H5 _].
  destruct (release_last f p v H2 Hr Hi) as (v2&->&Hq2&Hp2&Hne2&_&Hh2&Ht2).
  destruct (H5 p Hpl) as [Hrp Hprv].
  pose proof (opens_pos (opens_on p) f v Hf ltac:(unfold opens_on; by rewrite Hi, bool_decide_true)) as Hpos.
  pose proof (opens_bounds (opens_on p) v) as Hbd.
  assert (truthy (in_ref_count (get_inode p v)) = true) as Htr.
  { unfold truthy. rewrite Hrp, (proj2 (Z.eqb_neq _ _)); [done|lia]. }
  rewrite Htr in Hq2.
  assert (release_pipe p (f_flags (file_at f v)) v2 = v2) as ->.
  { unfold release_pipe. rewrite Hq2, decide_True by done. simpl.
    destruct (in_private_data (get_inode p v)) eqn:E; [done|done|by destruct (Hprv a)]. }
  assert (∀ g, file_at g (set_file f zero_file v2) = if decide (f = g) then zero_file else file_at g v) as Hg.
  { intros g. rewrite file_at_set by done. case_decide; [done|]. apply Hne2. congruence. }
  split_and!; [|done|exact Hh2].
  apply (closed_ok fresh X X f p v); try done.
  - by rewrite Hg, decide_True.
  - intros g Hgf. by rewrite Hg, decide_False.
  - simpl. by rewrite Hh2.
  - destruct Ht2 as [t Ht2]. simpl. rewrite Ht2. by eexists.
  - intros q Hq. assert (get_inode q (set_file f zero_file v2) = get_inode q v2) as -> by (by destruct q).
    by rewrite Hq2.
  - intros b Hb. split; [|done]. simpl. rewrite Hp2, Hq2, decide_False by done. apply with_pipe_inode_id.
  - by intros a ->.
Qed.

(** The pipe part of a release, on a pipe. *)
Lemma release_pipe_eq a flags v2 :
  in_kind (pipe_inode (pipes v2 a)) = VFS_INODE_PIPE → in_private_data (pipe_inode (pipes v2 a)) = PD_pipe a →
  let drop_one bit n := if truthy (Z.land flags bit) && truthy n then n ⊟ 1 else n in
  let p' := with_counts (drop_one VFS_O_RDONLY (reader_count (pipes v2 a)))
              (drop_one VFS_O_WRONLY (writer_count (pipes v2 a))) (pipes v2 a) in
  release_pipe (IP_pipe a) flags v2
  = if in_ref_count (pipe_inode (pipes v2 a)) =? 0
    then with_heap (heap_kfree a (heap v2)) (set_pipe a p' v2) else set_pipe a p' v2.
Proof.
  intros Hk Hpr. unfold release_pipe. simpl. rewrite Hpr, Hk. rewrite bool_decide_true by done. simpl.
  by rewrite arr_get_set_eq.
Qed.

Lemma drop_count n b x : x = n → 0 ≤ n ≤ 32 → (b = true → 0 < n) →
  (if b && truthy x then x ⊟ 1 else x) = n - (if b then 1 else 0).
Proof.
  intros -> Hn Hb. unfold truthy. destruct b; simpl; [|lia]. specialize (Hb eq_refl).
  rewrite (proj2 (Z.eqb_neq n 0)) by lia. simpl. apply u32_small. lia.
Qed.

(** Closing the last reference to an end of a pipe.  The last end gives the memory back. *)
Lemma release_pipe_ok fresh X f a v :
  table_ok fresh X v → 0 ≤ f < VFS_MAX_FILES → f_ref_count (file_at f v) = 1 →
  f_inode (file_at f v) = Some (IP_pipe a) → (fresh = Some a → opens (IP_pipe a) v = 1) →
  let v' := vfs_release_file (Some f) v in
  table_ok fresh (if decide (opens (IP_pipe a) v = 1) then X ∖ {[a]} else X) v' ∧
  (∀ g, file_at g v' = if decide (f = g) then zero_file else file_at g v) ∧
  heap v' = (if decide (opens (IP_pipe a) v = 1) then heap_kfree a (heap v) else heap v).
Proof.
  intros Hok Hf Hr Hi Hfr v'. pose proof Hok as [H1 H2 _ _ H5 H6].
  destruct (release_last f (IP_pipe a) v H2 Hr Hi) as (v2&E&Hq2&Hp2&Hne2&_&Hh2&Ht2). cbv zeta in Hq2.
  pose proof (opens_pos (opens_on (IP_pipe a)) f v Hf ltac:(unfold opens_on; by rewrite Hi, bool_decide_true)) as Hpos.
  pose proof (opens_bounds (opens_on (IP_pipe a)) v) as Hbd.
  destruct (H6 a Hpos) as [HaX [P1 P2 P3 P4 P5 P6]].
  set (n := opens (IP_pipe a) v) in *.
  assert (truthy (in_ref_count (get_inode (IP_pipe a) v)) = true) as Htr.
  { unfold truthy. simpl. rewrite P4, (proj2 (Z.eqb_neq _ _)); [done|lia]. }
  rewrite Htr in Hq2.
  assert (pipe_inode (pipes v2 a) = with_in_ref_count (n - 1) (pipe_inode (pipes v a))) as Epi.
  { rewrite Hp2, Hq2, decide_True by done. simpl. rewrite P4. by rewrite u32_small by lia. }
  assert (reader_count (pipes v2 a) = reader_count (pipes v a) ∧ writer_count (pipes v2 a) = writer_count (pipes v a) ∧
    pipe_ok (pipes v2 a)) as (Erc&Ewc&Hpok2).
  { rewrite Hp2. simpl. split_and!; [done..|]. by destruct P1. }
  unfold v'. rewrite E. rewrite release_pipe_eq by (by rewrite Epi). rewrite Epi. cbn [in_ref_count with_in_ref_count].
  set (p' := with_counts _ _ _). set (v3 := if n - 1 =? 0 then _ else _).
  assert (∀ g, file_at g v3 = file_at g v2) as Hg3 by (intros g; unfold v3; by case_if).
  assert (is_Some (file_table v3)) as Ht3 by (unfold v3; by case_if).
  assert (∀ b, pipes v3 b = if decide (a = b) then p' else pipes v2 b) as Hp3.
  { intros b. transitivity (pipes (set_pipe a p' v2) b); [unfold v3; by case_if|]. simpl. apply arr_get_set. }
  assert (heap v3 = if decide (n = 1) then heap_kfree a (heap v) else heap v) as Hh3.
  { unfold v3. destruct (Z.eqb_spec (n - 1) 0), (decide (n = 1)); simpl; rewrite ?Hh2; lia || done. }
  assert (∀ g, file_at g (set_file f zero_file v3) = if decide (f = g) then zero_file else file_at g v) as Hg.
  { intros g. rewrite file_at_set by done. destruct (decide (f = g)); [done|]. rewrite Hg3. by apply Hne2. }
  pose proof (opens_closed (IP_pipe a) (IP_pipe a) f v (set_file f zero_file v3) Hf Hi ltac:(by rewrite Hg, decide_True)
    ltac:(intros g Hgf; by rewrite Hg, decide_False)) as [Eo Ew]. rewrite decide_True in Eo by done. fold n in Eo.
  split_and!; [|done|exact Hh3].
  apply (closed_ok fresh X _ f (IP_pipe a) v); try done.
  - by rewrite Hg, decide_True.
  - intros g Hgf. by rewrite Hg, decide_False.
  - change (heap (set_file f zero_file v3)) with (heap v3). rewrite Hh3.
    destruct (decide (n = 1)); [by apply law_kfree|done].
  - destruct Ht3 as [t Ht3]. simpl. rewrite Ht3. by eexists.
  - intros q Hq. assert (get_inode q (set_file f zero_file v3) = get_inode q v2) as ->.
    { destruct q; try done; unfold v3; by case_if. }
    by rewrite Hq2.
  - intros b Hb. assert (a ≠ b) as Hab by congruence. split.
    + simpl. rewrite Hp3, decide_False by done. rewrite Hp2, Hq2, decide_False by done. apply with_pipe_inode_id.
    + intros HbX. destruct (decide (n = 1)); [|done]. apply elem_of_difference. split; [done|]. by rewrite elem_of_singleton.
  - intros a' [= <-] Hpos'. rewrite Eo in Hpos'. rewrite decide_False by lia. split; [done|].
    assert (fresh ≠ Some a) as Hnf by (intros ->; specialize (Hfr eq_refl); lia).
    rewrite decide_False in P5, P6 by done.
    assert (pipes (set_file f zero_file v3) a = p') as Ep by (simpl; by rewrite Hp3, decide_True).
    split; rewrite Ep; unfold p'; simpl; rewrite ?Epi; try done.
    + by destruct Hpok2.
    + rewrite decide_False by done. rewrite Ew, decide_True by done. rewrite Erc.
      apply drop_count; [done|apply opens_bounds|]. intros Hb. apply (opens_pos _ f); [done|].
      unfold opens_with, opens_on. by rewrite Hi, bool_decide_true.
    + rewrite decide_False by done. rewrite Ew, decide_True by done. rewrite Ewc.
      apply drop_count; [done|apply opens_bounds|]. intros Hb. apply (opens_pos _ f); [done|].
      unfold opens_with, opens_on. by rewrite Hi, bool_decide_true.
Qed.

(** ** Creating a pipe *)

(** A step that keeps every open file and every inode that is not a pipe, and every
    pipe with an open file. *)
Lemma frame_ok fresh fresh' X X' v v' :
  table_ok fresh X v → live (heap v') X' → file_table v' = file_table v →
  (∀ p, is_pipe p = false → get_inode p v' = get_inode p v) →
  (∀ a, 0 < opens (IP_pipe a) v → pipe_live fresh a v → a ∈ X → a ∈ X' ∧ pipe_live fresh' a v') →
  table_ok fresh' X' v'.
Proof.
  intros [H1 H2 H3 H4 H5 H6] Hl Ht Hi Hps.
  assert (∀ g, file_at g v' = file_at g v) as Hg by (intros g; unfold file_at; by rewrite Ht).
  assert (∀ b, opens_if b v' = opens_if b v) as Ho
    by (intros b; apply count_range_ext; intros g _; by rewrite Hg).
  split; try done.
  - by rewrite Ht.
  - intros f. rewrite Hg. apply H3.
  - intros f Hf. rewrite Hg. by apply H4.
  - intros p Hpl. rewrite Hi, Ho by done. by apply H5.
  - intros a. rewrite Ho. intros Hpos. destruct (H6 a Hpos). by apply Hps.
Qed.

Lemma pipe_live_frame fresh a v v' :
  pipe_live fresh a v → pipes v' a = pipes v a → file_table v' = file_table v → pipe_live fresh a v'.
Proof.
  intros [P1 P2 P3 P4 P5 P6] Hp' Ht.
  assert (∀ b, opens_if b v' = opens_if b v) as Ho
    by (intros b; apply count_range_ext; intros g _; unfold file_at; by rewrite Ht).
  split; rewrite Hp', ?Ho; done.
Qed.

Lemma opens_none p bit v : opens p v = 0 → opens_if (opens_with p bit) v = 0.
Proof.
  unfold opens_if. rewrite !count_range_zero. intros H k Hk. unfold opens_with. by rewrite H.
Qed.

(** Opening an end of the pipe that is being set up. *)
Lemma open_fresh_ok Y a flags v :
  table_ok (Some a) Y v → a ∈ Y → pipe_live (Some a) a v →
  match vfs_open_inode (IP_pipe a) flags v with
  | (None, v') => v' = v
  | (Some f, v') => table_ok (Some a) Y v' ∧ pipe_live (Some a) a v' ∧
      0 ≤ f < VFS_MAX_FILES ∧ f_ref_count (file_at f v) = 0 ∧
      (∀ g, file_at g v' = if decide (f = g)
         then {| f_inode := Some (IP_pipe a); f_flags := flags; f_offset := 0; f_ref_count := 1 |} else file_at g v) ∧
      opens (IP_pipe a) v' = opens (IP_pipe a) v + 1 ∧
      (∀ bit, opens_if (opens_with (IP_pipe a) bit) v' = opens_if (opens_with (IP_pipe a) bit) v
         + (if truthy (Z.land flags bit) then 1 else 0)) ∧
      queue (pipes v' a) = queue (pipes v a)
  end.
Proof.
  intros [H1 H2 H3 H4 H5 H6] HaY [Q1 Q2 Q3 Q4 Q5 Q6].
  pose proof (open_inode_cases (IP_pipe a) flags v H2) as Hc.
  destruct (vfs_open_inode (IP_pipe a) flags v) as [[f|] v']; [|by destruct Hc].
  destruct Hc as (Hf&E0&Hg&Hi&Hpi&Hh&Ht).
  pose proof (λ q, opens_fresh (IP_pipe a) q f flags v v' Hf (proj1 (H4 f Hf) E0) Hg) as Hop.
  destruct (Hop (IP_pipe a)) as [Eo Ew]. rewrite decide_True in Eo by done.
  pose proof (opens_bounds (opens_on (IP_pipe a)) v) as Hbd.
  assert (pipe_live (Some a) a v') as Hlive.
  { rewrite decide_True in Q5, Q6 by done.
    split; rewrite Hpi, ?Hi, ?decide_True by done; simpl; try done; [by destruct Q1|].
    rewrite Q4, Eo. apply u32_small. lia. }
  refine (conj _ (conj Hlive (conj Hf (conj E0 (conj Hg (conj Eo (conj _ _))))))).
  - split; try done.
    + by rewrite Hh.
    + intros g. rewrite Hg. destruct (decide (f = g)); [done|apply H3].
    + intros g Hgr. rewrite Hg. destruct (decide (f = g)); [done|by apply H4].
    + intros q Hq. assert (IP_pipe a ≠ q) as Hne by (by intros <-).
      rewrite Hi, decide_False by done. destruct (Hop q) as [-> _]. rewrite decide_False, Z.add_0_r by done. by apply H5.
    + intros b Hpos. destruct (decide (a = b)) as [<-|Hab]; [done|].
      assert (IP_pipe a ≠ IP_pipe b) as Hne by congruence.
      destruct (Hop (IP_pipe b)) as [Eo' Ew']. rewrite decide_False in Eo' by done. rewrite Eo', Z.add_0_r in Hpos.
      destruct (H6 b Hpos) as [Hin [P1 P2 P3 P4 P5 P6]]. split; [done|].
      rewrite decide_False in P5, P6 by congruence.
      assert (pipes v' b = pipes v b) as Epa by (rewrite Hpi, Hi, decide_False by done; apply with_pipe_inode_id).
      split; rewrite Epa, ?Eo', ?Z.add_0_r; try done; rewrite decide_False by congruence;
        rewrite Ew', decide_False, Z.add_0_r by done; done.
  - intros bit. by rewrite Ew, decide_True.
  - by rewrite Hpi.
Qed.

(** The pipe that no file is open on any more is not special. *)
Lemma settle X a v : table_ok (Some a) X v → opens (IP_pipe a) v = 0 → files_ok X v.
Proof.
  intros Hok H0. apply (frame_ok (Some a) None X X v v); try done; [apply Hok|].
  intros b Hpos [P1 P2 P3 P4 P5 P6] HbX. assert (Some a ≠ Some b) by (intros [= ->]; lia).
  rewrite decide_False in P5, P6 by done. by split.
Qed.

(** What creating a pipe gives. *)
Record pipe_created (X : gset Z) v (f g a : Z) v' : Prop := {
  pc_ok : files_ok ({[a]} ∪ X) v';
  pc_fresh : a ∉ X;
  pc_files : 0 ≤ f < VFS_MAX_FILES ∧ 0 ≤ g < VFS_MAX_FILES ∧ f ≠ g;
  pc_unused : f_ref_count (file_at f v) = 0 ∧ f_ref_count (file_at g v) = 0;
  pc_read : file_at f v' = {| f_inode := Some (IP_pipe a); f_flags := VFS_O_RDONLY; f_offset := 0; f_ref_count := 1 |};
  pc_write : file_at g v' = {| f_inode := Some (IP_pipe a); f_flags := VFS_O_WRONLY; f_offset := 0; f_ref_count := 1 |};
  pc_others : ∀ h, h ≠ f → h ≠ g → file_at h v' = file_at h v;
  pc_counts : reader_count (pipes v' a) = 1 ∧ writer_count (pipes v' a) = 1;
  pc_queue : queue (pipes v' a) = [];
}.

(** The pipe in its fresh memory, before its ends are opened. *)
Lemma new_pipe_ok X a h v :
  files_ok X v → a ∉ X → live h ({[a]} ∪ X) →
  let v1 := set_pipe a (new_pipe a) (with_heap h v) in
  table_ok (Some a) ({[a]} ∪ X) v1 ∧ pipe_live (Some a) a v1 ∧ opens (IP_pipe a) v1 = 0 ∧
  queue (pipes v1 a) = [] ∧ ∀ g, file_at g v1 = file_at g v.
Proof.
  intros Hok Ha Hl v1.
  assert (opens (IP_pipe a) v = 0) as H0.
  { pose proof (opens_bounds (opens_on (IP_pipe a)) v). destruct (Z.eq_dec (opens (IP_pipe a) v) 0); [done|].
    destruct (to_pipe _ _ _ Hok a ltac:(lia)) as [? _]. done. }
  assert (pipes v1 a = new_pipe a) as Ep by (unfold v1; simpl; by rewrite arr_get_set_eq).
  assert (opens (IP_pipe a) v1 = 0) as H1 by exact H0.
  assert (pipe_live (Some a) a v1) as Hlive.
  { split; rewrite ?Ep, ?H1; try done; by rewrite decide_True. }
  split_and!; [|done|done|by rewrite Ep|done].
  apply (frame_ok None (Some a) X _ v v1 Hok); [done|done|by intros []|].
  intros b Hpos [P1 P2 P3 P4 P5 P6] HbX. assert (a ≠ b) as Hab by (intros ->; done).
  split; [set_solver|]. assert (pipes v1 b = pipes v b) as Eb by (unfold v1; simpl; by rewrite arr_get_set_ne).
  rewrite decide_False in P5, P6 by done.
  split; rewrite Eb; try done; rewrite decide_False by congruence; done.
Qed.

Lemma create_pipe_cases X v :
  files_ok X v →
  ∃ r rf wf v', vfs_create_pipe true v = Some (r, rf, wf, v') ∧
  ((r = -1 ∧ rf = None ∧ wf = None ∧ files_ok X v') ∨
   (r = 0 ∧ ∃ f g a, rf = Some f ∧ wf = Some g ∧ pipe_created X v f g a v')).
Proof.
  intros Hok. unfold vfs_create_pipe. simpl.
  destruct (law_kzalloc (heap v) X sizeof_vfs_pipe (to_heap _ _ _ Hok) ltac:(unfold sizeof_vfs_pipe; lia))
    as (a&h&->&[[-> Hl]|(Ha0&Ha&Hl)]).
  { eexists _, _, _, _. split; [reflexivity|]. left. split_and!; try done.
    apply (frame_ok None None X X v _ Hok); [done|done|by intros []|].
    intros b _ Hb HbX. split; [done|]. by apply (pipe_live_frame None b v). }
  rewrite (proj2 (Z.eqb_neq a 0)) by done.
  destruct (new_pipe_ok X a h v Hok Ha Hl) as (Hok1&Hl1&H01&Hq1&Hg1). set (v1 := set_pipe a _ _) in *.
  pose proof (open_fresh_ok ({[a]} ∪ X) a VFS_O_RDONLY v1 Hok1 ltac:(set_solver) Hl1) as Ho1.
  destruct (vfs_open_inode (IP_pipe a) VFS_O_RDONLY v1) as [[f|] v2].
  2:{ subst v2. eexists _, _, _, _. split; [reflexivity|]. left. split_and!; try done.
      apply (settle X a); [|done]. apply (frame_ok (Some a) (Some a) ({[a]} ∪ X) X v1 _ Hok1); try done.
      - simpl. replace X with (({[a]} ∪ X) ∖ {[a]}) by set_solver. apply law_kfree; [done|set_solver].
      - intros b Hpos Hpl Hb. assert (a ≠ b) by (intros ->; lia). split; [set_solver|]. by apply (pipe_live_frame (Some a) b v1). }
  destruct Ho1 as (Hok2&Hl2&Hf&Ef0&Hg2&Eo2&Ew2&Hq2).
  pose proof (open_fresh_ok ({[a]} ∪ X) a VFS_O_WRONLY v2 Hok2 ltac:(set_solver) Hl2) as Ho2.
  destruct (vfs_open_inode (IP_pipe a) VFS_O_WRONLY v2) as [[g|] v3].
  2:{ subst v3. eexists _, _, _, _. split; [reflexivity|]. left. split_and!; try done.
      assert (opens (IP_pipe a) v2 = 1) as E1 by lia.
      destruct (release_pipe_ok (Some a) ({[a]} ∪ X) f a v2 Hok2 Hf ltac:(by rewrite Hg2, decide_True)
        ltac:(by rewrite Hg2, decide_True) ltac:(done)) as (Hok3&Hg3&_).
      rewrite decide_True in Hok3 by done. replace (({[a]} ∪ X) ∖ {[a]}) with X in Hok3 by set_solver.
      apply (settle X a); [exact Hok3|].
      destruct (opens_closed (IP_pipe a) (IP_pipe a) f v2 (vfs_release_file (Some f) v2) Hf
        ltac:(by rewrite Hg2, decide_True) ltac:(by rewrite Hg3, decide_True)
        ltac:(intros k Hk; by rewrite Hg3, decide_False)) as [Eo3 _].
      rewrite decide_True, E1 in Eo3 by done. exact Eo3. }
  destruct Ho2 as (Hok3&Hl3&Hg&Eg0&Hg3&Eo3&Ew3&Hq3).
  assert (f ≠ g) as Hfg by (intros ->; rewrite Hg2, decide_True in Eg0 by done; done).
  eexists _, _, _, _. split; [reflexivity|]. right. split; [done|]. exists f, g, a. split_and!; try done.
  set (v4 := set_pipe a _ v3).
  assert (pipes v4 a = with_counts 1 1 (pipes v3 a)) as Ep by (unfold v4; simpl; by rewrite arr_get_set_eq).
  assert (∀ k, file_at k v4 = file_at k v3) as Hg4 by done.
  rewrite Hg2, decide_False in Eg0 by done.
  split; rewrite ?Ep, ?Hg4; try done.
  - apply (frame_ok (Some a) None ({[a]} ∪ X) _ v3 v4 Hok3); try done; [apply Hok3|by intros []|].
    intros b Hpos [P1 P2 P3 P4 P5 P6] HbX. split; [done|]. destruct (decide (a = b)) as [<-|Hab].
    + destruct Hl3 as [Q1 Q2 Q3 Q4 Q5 Q6].
      split; rewrite ?Ep; try done; [by destruct Q1|..]; rewrite decide_False by done; simpl.
      * change (opens_if (opens_with (IP_pipe a) VFS_O_RDONLY) v4) with (opens_if (opens_with (IP_pipe a) VFS_O_RDONLY) v3).
        rewrite Ew3, Ew2, opens_none by done. reflexivity.
      * change (opens_if (opens_with (IP_pipe a) VFS_O_WRONLY) v4) with (opens_if (opens_with (IP_pipe a) VFS_O_WRONLY) v3).
        rewrite Ew3, Ew2, opens_none by done. reflexivity.
    + assert (pipes v4 b = pipes v3 b) as Eb by (unfold v4; simpl; by rewrite arr_get_set_ne).
      rewrite decide_False in P5, P6 by congruence.
      split; rewrite Eb; try done; rewrite decide_False by done; done.
  - rewrite Hg3, decide_False, Hg2, decide_True by done. done.
  - by rewrite Hg3, decide_True.
  - intros k Hkf Hkg. rewrite Hg4. by rewrite Hg3, decide_False, Hg2, decide_False by done.
  - transitivity (queue (pipes v3 a)); [done|]. by rewrite Hq3, Hq2.
Qed.

(** ** Closing *)

Lemma release_shared f v :
  is_Some (file_table v) → 1 < f_ref_count (file_at f v) < 4294967296 →
  vfs_release_file (Some f) v = set_file f (with_f_ref_count (f_ref_count (file_at f v) - 1) (file_at f v)) v.
Proof.
  intros Ht Hr. unfold vfs_release_file. rewrite (proj2 (Z.eqb_neq _ 0)) by lia. cbv zeta.
  rewrite (u32_small (f_ref_count (file_at f v) - 1)) by lia.
  rewrite (file_at_set f _ f v Ht), decide_True by done. simpl. unfold truthy.
  by rewrite (proj2 (Z.eqb_neq _ 0)) by lia.
Qed.

(** The addresses in use after a close of [f]: the pipe of a last end is given back. *)
Definition after_close (X : gset Z) f v : gset Z :=
  match f_inode (file_at f v) with
  | Some (IP_pipe a) =>
      if (f_ref_count (file_at f v) =? 1) && (opens (IP_pipe a) v =? 1) then X ∖ {[a]} else X
  | _ => X
  end.

Lemma close_cases X f v :
  files_ok X v → 0 ≤ f < VFS_MAX_FILES → f_ref_count (file_at f v) ≠ 0 →
  let v' := vfs_close_file (Some f) v in
  files_ok (after_close X f v) v' ∧
  (∀ g, file_at g v' = if decide (f = g)
     then if f_ref_count (file_at f v) =? 1 then zero_file
          else with_f_ref_count (f_ref_count (file_at f v) - 1) (file_at f v)
     else file_at g v).
Proof.
  intros Hok Hf Hr v'. unfold v', vfs_close_file, after_close. pose proof (to_range _ _ _ Hok f) as Hu. unfold is_u32 in Hu.
  destruct (Z.eqb_spec (f_ref_count (file_at f v)) 1) as [E1|E1]; cbn [andb].
  - destruct (f_inode (file_at f v)) as [p|] eqn:Ei; [|by apply (to_free _ _ _ Hok f Hf) in Ei].
    destruct (is_pipe p) eqn:Ep.
    + destruct p as [|a| |]; try done.
      destruct (release_pipe_ok None X f a v Hok Hf E1 Ei ltac:(done)) as (Hok'&Hg&_). split; [|exact Hg].
      destruct (decide (opens (IP_pipe a) v = 1)) as [E|E];
        [rewrite (proj2 (Z.eqb_eq _ _) E)|rewrite (proj2 (Z.eqb_neq _ _) E)]; exact Hok'.
    + destruct (release_plain_ok None X f p v Hok Hf E1 Ei Ep) as (Hok'&Hg&_). split; [|exact Hg].
      by destruct p.
  - rewrite release_shared; [|apply Hok|lia].
    split; [|intros g; by apply file_at_set, Hok].
    replace (match f_inode (file_at f v) with Some (IP_pipe _) => X | _ => X end) with X by (by repeat case_match).
    apply set_file_ok; try done; unfold is_u32; simpl; lia.
Qed.

(** ** Sequences of calls *)

(** Nothing in the tree of names is a pipe. *)
Definition names_ok v : Prop :=
  (∀ k a, ent_inode (runtime_dir_entries (fs v) k) ≠ Some (IP_pipe a)) ∧ ∀ a, root_inode v ≠ Some (IP_pipe a).

Lemma walk_plain p cs credentials v q :
  names_ok v → is_pipe p = false → walk p cs credentials v = Some q → is_pipe q = false.
Proof.
  intros [Hn _]. revert p. induction cs as [|c cs IH]; intros p Hpl; simpl; [by intros [= <-]|].
  destruct (step_child p c credentials v) as [r|] eqn:E; [|done]. simpl. apply IH.
  unfold step_child, lookup_child, dir_child in E. repeat case_match; try done.
  destruct r as [|a| |]; try done. by apply Hn in E.
Qed.

Lemma resolve_plain path credentials v q :
  names_ok v → vfs_resolve_path path credentials v = Some q → is_pipe q = false.
Proof.
  intros Hn. destruct path as [path|]; [|unfold vfs_resolve_path; by destruct (root_inode v)].
  rewrite resolve_path_walk. case_if; [|done]. destruct (root_inode v) as [root|] eqn:Er; [|done]. simpl.
  apply walk_plain; [done|]. destruct root as [|a| |]; try done. destruct Hn as [_ Hn]. by destruct (Hn a).
Qed.

(** The calls that work on open files. *)
Inductive vfs_step : vfs St Hp Io → vfs St Hp Io → Prop :=
  | step_open path flags credentials v : vfs_step v (vfs_open_path true path flags credentials v).2
  | step_pipe v r rf wf v' : vfs_create_pipe true v = Some (r, rf, wf, v') → vfs_step v v'
  | step_retain f v : f_ref_count (file_at f v) < 4294967295 → vfs_step v (vfs_retain_file (Some f) v)
  | step_close f v : 0 ≤ f < VFS_MAX_FILES → vfs_step v (vfs_close_file (Some f) v)
  | step_pipe_read f buffer length v : 0 ≤ f < VFS_MAX_FILES → is_u32 length →
      vfs_step v (vfs_pipe_read (Some f) (Some buffer) length v).2
  | step_pipe_write f buffer length v : 0 ≤ f < VFS_MAX_FILES → is_u32 length →
      vfs_step v (vfs_pipe_write (Some f) (Some buffer) length v).2
  | step_seek (f : option Z) offset whence v : vfs_step v (vfs_seek_file f offset whence v).2
  | step_rewind (f : option Z) v : vfs_step v (vfs_rewind_file f v).

(** The tree of names and the mounted file system, apart from reference counts. *)
Definition same_names v v' : Prop :=
  runtime_dir_entries (fs v') = runtime_dir_entries (fs v) ∧ root_inode v' = root_inode v.

Lemma names_ok_same v v' : names_ok v → same_names v v' → names_ok v'.
Proof. intros [H1 H2] [E1 E2]. split; [by rewrite E1|by rewrite E2]. Qed.

Lemma open_inode_names p flags v : same_names v (vfs_open_inode p flags v).2.
Proof.
  unfold vfs_open_inode, vfs_alloc_file. destruct (file_table v); [|done].
  destruct (for_find _ _ _); [|done]. by destruct p.
Qed.

Lemma release_names (f : option Z) v : same_names v (vfs_release_file f v).
Proof.
  destruct f as [f|]; [|done]. unfold vfs_release_file. case_if; [done|]. case_if; [done|]. cbv zeta.
  assert (∀ p fl w, same_names v w → same_names v (release_pipe p fl w)) as Hrp.
  { intros p fl w Hw. unfold release_pipe. repeat case_match; done. }
  destruct (f_inode _) as [p|]; [|done]. split; simpl; apply Hrp; case_if; by destruct p.
Qed.

(** The pipe of an open file is live. *)
Lemma pipe_from_file_live X f a v :
  files_ok X v → 0 ≤ f < VFS_MAX_FILES → vfs_pipe_from_file (Some f) v = Some a → a ∈ X ∧ pipe_live None a v.
Proof.
  intros Hok Hf. unfold vfs_pipe_from_file, file_inode. destruct (f_inode (file_at f v)) as [p|] eqn:Ei; [|done].
  simpl. case_if; [done|]. destruct (in_private_data (get_inode p v)) as [|i|b] eqn:Ep; [done|done|]. intros [= <-].
  destruct (is_pipe p) eqn:Epl; [|by destruct (to_plain _ _ _ Hok p Epl) as [_ Hn]; destruct (Hn b)].
  destruct p as [|c| |]; try done.
  destruct (to_pipe _ _ _ Hok c) as [Hc Hl].
  { apply (opens_pos _ f); [done|]. unfold opens_on. by rewrite Ei, bool_decide_true. }
  simpl in Ep. rewrite (pl_private _ _ _ Hl) in Ep. by injection Ep as <-.
Qed.

(** A change of the bytes of a pipe only. *)
Lemma set_pipe_ok X a p' v :
  files_ok X v → pipe_ok p' → pipe_inode p' = pipe_inode (pipes v a) →
  reader_count p' = reader_count (pipes v a) → writer_count p' = writer_count (pipes v a) →
  files_ok X (set_pipe a p' v).
Proof.
  intros Hok Hp' Ei Er Ew. apply (frame_ok None None X X v _ Hok); [apply Hok|done|by intros []|].
  intros b Hpos Hl HbX. split; [done|]. destruct (decide (a = b)) as [<-|Hab].
  - assert (pipes (set_pipe a p' v) a = p') as Ep by (simpl; by rewrite arr_get_set_eq).
    destruct Hl as [P1 P2 P3 P4 P5 P6]. split; rewrite ?Ep, ?Ei, ?Er, ?Ew; try done.
  - apply (pipe_live_frame None b v); [done| |done]. simpl. by rewrite arr_get_set_ne.
Qed.

Lemma pipe_read_ok X f buffer length v :
  files_ok X v → 0 ≤ f < VFS_MAX_FILES → is_u32 length →
  files_ok X (vfs_pipe_read (Some f) (Some buffer) length v).2 ∧
  same_names v (vfs_pipe_read (Some f) (Some buffer) length v).2.
Proof.
  intros Hok Hf Hlen. unfold vfs_pipe_read, pipe_inode_read.
  destruct (vfs_pipe_from_file (Some f) v) as [a|] eqn:Ea; [|done]. case_if; [done|].
  destruct (pipe_from_file_live X f a v Hok Hf Ea) as [_ Hl]. unfold is_u32 in Hlen.
  pose proof (pl_ok _ _ _ Hl) as Hpok. pose proof (po_count _ Hpok) as Hcnt.
  pose proof (pipe_read_loop_spec (Z.to_nat (buffered (pipes v a))) (pipes v a) 0 length buffer Hpok ltac:(lia)
    ltac:(lia) ltac:(lia)) as Hr. cbv zeta in Hr.
  destruct (pipe_read_loop _ 0 length buffer (pipes v a)) as [[c b] p']. destruct Hr as (_&Hok'&_&_&Ei&Er&Ew).
  repeat case_if; (split; [by apply set_pipe_ok|done]).
Qed.

Lemma pipe_write_ok X f buffer length v :
  files_ok X v → 0 ≤ f < VFS_MAX_FILES → is_u32 length →
  files_ok X (vfs_pipe_write (Some f) (Some buffer) length v).2 ∧
  same_names v (vfs_pipe_write (Some f) (Some buffer) length v).2.
Proof.
  intros Hok Hf Hlen. unfold vfs_pipe_write, pipe_inode_write.
  destruct (vfs_pipe_from_file (Some f) v) as [a|] eqn:Ea; [|done]. case_if; [done|]. case_if; [done|].
  destruct (pipe_from_file_live X f a v Hok Hf Ea) as [_ Hl]. unfold is_u32 in Hlen.
  pose proof (pl_ok _ _ _ Hl) as Hpok. pose proof (po_count _ Hpok) as Hcnt.
  pose proof (pipe_write_loop_spec (Z.to_nat VFS_PIPE_BUFFER_SIZE) (pipes v a) 0 length buffer Hpok ltac:(lia)
    ltac:(lia) ltac:(unfold VFS_PIPE_BUFFER_SIZE in *; lia)) as Hr. cbv zeta in Hr.
  destruct (pipe_write_loop _ 0 length buffer (pipes v a)) as [c p']. destruct Hr as (_&Hok'&_&Ei&Er&Ew).
  repeat case_if; (split; [by apply set_pipe_ok|done]).
Qed.

Lemma offset_ok X f n v : files_ok X v → files_ok X (set_file f (with_f_offset n (file_at f v)) v).
Proof. intros Hok. apply set_file_ok; try done. apply (to_range _ _ _ Hok). Qed.

(** Every call keeps the file table consistent. *)
Lemma vfs_step_ok v v' X :
  vfs_step v v' → files_ok X v → names_ok v → (∃ X', files_ok X' v') ∧ names_ok v'.
Proof.
  intros Hstep Hok Hn. destruct Hstep as [path flags credentials v|v r rf wf v' E|f v Hr|f v Hf|f buffer length v Hf Hl|
    f buffer length v Hf Hl|f offset whence v|f v].
  - unfold vfs_open_path. destruct (vfs_resolve_path path credentials v) as [p|] eqn:Ep; [|by split; [exists X|]].
    repeat (case_if; [by split; [exists X|]|]).
    pose proof (open_plain_ok None X p flags v Hok (resolve_plain _ _ _ _ Hn Ep)) as Ho.
    pose proof (open_inode_names p flags v) as Hs.
    destruct (vfs_open_inode p flags v) as [[f|] v']; simpl in *.
    + destruct Ho as [Ho _]. split; [by exists X|by eapply names_ok_same].
    + subst v'. split; [by exists X|done].
  - destruct (create_pipe_cases X v Hok) as (r'&rf'&wf'&v''&E'&Hc). rewrite E' in E. injection E as <- <- <- <-.
    split; [destruct Hc as [(_&_&_&?)|(_&f&g&a&_&_&[])]; by eexists|]. eapply names_ok_same; [exact Hn|].
    revert E'. unfold vfs_create_pipe. simpl. destruct (heap_kzalloc _ _) as [[a h]|]; [|done]. case_if; [by intros [= <- <- <- <-]|].
    set (w := set_pipe _ _ _). pose proof (open_inode_names (IP_pipe a) VFS_O_RDONLY w) as H1.
    destruct (vfs_open_inode (IP_pipe a) VFS_O_RDONLY w) as [[f|] w1]; [|by intros [= <- <- <- <-]]. simpl in H1.
    pose proof (open_inode_names (IP_pipe a) VFS_O_WRONLY w1) as H2.
    destruct (vfs_open_inode (IP_pipe a) VFS_O_WRONLY w1) as [[g|] w2]; simpl in H2; intros [= <- <- <- <-].
    + destruct H1 as [A1 A2], H2 as [B1 B2]. split; simpl; [by rewrite B1, A1|by rewrite B2, A2].
    + destruct H1 as [A1 A2], H2 as [B1 B2]. destruct (release_names (Some f) w2) as [C1 C2].
      split; [etrans; [exact C1|]; by rewrite B1, A1|etrans; [exact C2|]; by rewrite B2, A2].
  - unfold vfs_retain_file, truthy. destruct (Z.eqb_spec (f_ref_count (file_at f v)) 0); simpl; [by split; [exists X|]|].
    pose proof (to_range _ _ _ Hok f) as Hu. unfold is_u32 in Hu. rewrite u32_small by lia.
    split; [exists X; apply set_file_ok; try done; unfold is_u32; simpl; lia|done].
  - split; [|eapply names_ok_same; [exact Hn|apply release_names]].
    destruct (Z.eq_dec (f_ref_count (file_at f v)) 0) as [E|E].
    + exists X. unfold vfs_close_file, vfs_release_file. by rewrite (proj2 (Z.eqb_eq _ 0)).
    + eexists. by apply close_cases.
  - destruct (pipe_read_ok X f buffer length v Hok Hf Hl) as [H1 H2]. split; [by exists X|by eapply names_ok_same].
  - destruct (pipe_write_ok X f buffer length v Hok Hf Hl) as [H1 H2]. split; [by exists X|by eapply names_ok_same].
  - unfold vfs_seek_file. destruct f as [f|]; [|by split; [exists X|]].
    repeat (case_match; try (by split; [exists X|])); (split; [exists X; by apply offset_ok|done]).
  - destruct f as [f|]; [|by split; [exists X|]]. split; [exists X; by apply offset_ok|done].
Qed.

(** ** Descriptor tables *)

(** How often the first [n] descriptors of a table are [f]. *)
Definition occurrences (t : carray (option Z)) (n f : Z) : Z := count_range 0 n (λ i, bool_decide (t i = Some f)).

(** Only reference counts differ, by [c]. *)
Definition refs_shifted (c : Z → Z) v v' : Prop :=
  v' = with_files (file_table v') v ∧ is_Some (file_table v') ∧
  ∀ g, file_at g v' = with_f_ref_count (f_ref_count (file_at g v) + c g) (file_at g v).

Lemma occurrences_snoc t k f : 0 ≤ k →
  occurrences t (k + 1) f = occurrences t k f + (if decide (t k = Some f) then 1 else 0).
Proof.
  intros Hk. unfold occurrences. rewrite count_range_snoc by done.
  destruct (decide (t k = Some f)) as [E|E]; [by rewrite bool_decide_true|by rewrite bool_decide_false].
Qed.

Lemma occurrences_mono t k n f : 0 ≤ k ≤ n → 0 ≤ occurrences t k f ≤ occurrences t n f.
Proof.
  intros Hk. unfold occurrences. rewrite (count_range_app 0 k n) by lia.
  pose proof (count_range_bounds 0 k (λ i, bool_decide (t i = Some f))).
  pose proof (count_range_bounds k n (λ i, bool_decide (t i = Some f))). lia.
Qed.

Lemma set_ref_shifted c v w f d :
  refs_shifted c v w →
  refs_shifted (λ g, c g + (if decide (f = g) then d else 0)) v
    (set_file f (with_f_ref_count (f_ref_count (file_at f w) + d) (file_at f w)) w).
Proof.
  intros (E&Ht&Hg). split_and!.
  - rewrite E. done.
  - destruct Ht as [t Ht]. simpl. rewrite Ht. by eexists.
  - intros g. rewrite file_at_set by done. rewrite !Hg. destruct (decide (f = g)) as [<-|]; simpl.
    + by rewrite Z.add_assoc.
    + by rewrite Z.add_0_r.
Qed.

(** The counts stay machine words. *)
Definition refs_room (src : carray (option Z)) (n : Z) v : Prop :=
  ∀ f, 0 < occurrences src n f → 0 < f_ref_count (file_at f v) ∧
    f_ref_count (file_at f v) + occurrences src n f < 4294967296.

Lemma clone_loop src n d v :
  is_Some (file_table v) → 0 ≤ n → refs_room src n v →
  let '(d', v') := for_range 0 n (λ index '(d, v), (<[index := src index]> d, share_file (src index) v)) (d, v) in
  (∀ i, d' i = if (0 <=? i) && (i <? n) then src i else d i) ∧ refs_shifted (occurrences src n) v v'.
Proof.
  intros Ht Hn Hroom.
  assert (∀ k, 0 ≤ k → k ≤ n →
    let '(d', v') := for_range 0 k (λ index '(d, v), (<[index := src index]> d, share_file (src index) v)) (d, v) in
    (∀ i, d' i = if (0 <=? i) && (i <? k) then src i else d i) ∧ refs_shifted (occurrences src k) v v') as H; [|by apply H].
  intros k Hk. apply (for_range_ind (λ k x, k ≤ n → let '(d', v') := x in
    (∀ i, d' i = if (0 <=? i) && (i <? k) then src i else d i) ∧ refs_shifted (occurrences src k) v v')); [done|..].
  - intros _. split; [intros i; case_if; [zbool; lia|done]|]. split_and!; [by destruct v|done|].
    intros g. unfold occurrences, count_range. simpl. rewrite Z.add_0_r. by destruct (file_at g v).
  - intros j [d' w] Hj IH Hjn. destruct (IH ltac:(lia)) as [Hd Hs]. split.
    + intros i. rewrite arr_get_set, Hd. destruct (decide (j = i)) as [->|Hji].
      * by rewrite (proj2 (Z.leb_le 0 i)), (proj2 (Z.ltb_lt i (i + 1))) by lia.
      * replace (i <? j + 1) with (i <? j); [done|]. destruct (Z.ltb_spec i j), (Z.ltb_spec i (j + 1)); lia || done.
    + unfold share_file. destruct (src j) as [f|] eqn:Ej.
      * pose proof (set_ref_shifted (occurrences src j) v w f 1 Hs) as H1. destruct Hs as (E&Hw&Hg).
        assert (occurrences src (j + 1) f = occurrences src j f + 1) as Eo by (rewrite occurrences_snoc, decide_True by (lia || done); lia).
        pose proof (occurrences_mono src (j + 1) n f ltac:(lia)). pose proof (occurrences_mono src j n f ltac:(lia)).
        destruct (Hroom f ltac:(lia)) as [Hr1 Hr2]. pose proof (Hg f) as Ef.
        rewrite u32_small by (rewrite Ef; simpl; lia).
        destruct H1 as (E1&Hw1&Hg1). split_and!; [done|done|]. intros g. rewrite Hg1.
        rewrite occurrences_snoc, Ej by lia.
        destruct (decide (f = g)) as [->|]; [by rewrite decide_True|by rewrite decide_False by congruence].
      * destruct Hs as (E&Hw&Hg). split_and!; [done|done|]. intros g. rewrite Hg, occurrences_snoc, Ej by lia.
        rewrite decide_False by done. by rewrite Z.add_0_r.
Qed.

Lemma detach_loop src n t v w :
  0 ≤ n → refs_room src n v → refs_shifted (occurrences src n) v w → (∀ i, 0 ≤ i < n → t i = src i) →
  let '(t', v') := for_range 0 n (λ index '(t, v), match t index with
                                    | None => (t, v)
                                    | Some f => (<[index := None]> t, vfs_release_file (Some f) v)
                                    end) (t, w) in
  (∀ i, t' i = if (0 <=? i) && (i <? n) then None else t i) ∧ refs_shifted (λ _, 0) v v'.
Proof.
  intros Hn Hroom Hw Hsrc. set (step := λ index '(t, v), _).
  assert (∀ k, 0 ≤ k → k ≤ n → let '(t', v') := for_range 0 k step (t, w) in
    (∀ i, t' i = if (0 <=? i) && (i <? k) then None else t i) ∧
    refs_shifted (λ g, occurrences src n g - occurrences src k g) v v') as H.
  2:{ specialize (H n Hn ltac:(lia)). destruct (for_range 0 n step (t, w)) as [t' v']. destruct H as (Hd&E&Ht&Hg).
      split; [done|]. split_and!; [done|done|]. intros g. rewrite Hg. by rewrite Z.sub_diag. }
  intros k Hk. apply (for_range_ind (λ k x, k ≤ n → let '(t', v') := x in
    (∀ i, t' i = if (0 <=? i) && (i <? k) then None else t i) ∧
    refs_shifted (λ g, occurrences src n g - occurrences src k g) v v')); [done|..].
  - intros _. split; [intros i; case_if; [zbool; lia|done]|]. destruct Hw as (E&Ht&Hg). split_and!; [done|done|].
    intros g. rewrite Hg. by rewrite Z.sub_0_r.
  - intros j [t1 w1] Hj IH Hjn. destruct (IH ltac:(lia)) as [Hd Hs]. unfold step.
    assert (t1 j = src j) as -> by (rewrite Hd; case_if; [zbool; lia|]; apply Hsrc; lia).
    destruct (src j) as [f|] eqn:Ej.
    + assert (occurrences src (j + 1) f = occurrences src j f + 1) as Eo by (rewrite occurrences_snoc, decide_True by (lia || done); lia).
      pose proof (occurrences_mono src (j + 1) n f ltac:(lia)) as M1. pose proof (occurrences_mono src j n f ltac:(lia)) as M2.
      destruct (Hroom f ltac:(lia)) as [Hr1 Hr2].
      pose proof (set_ref_shifted _ v w1 f (-1) Hs) as H1. destruct Hs as (E&Hw1&Hg). pose proof (Hg f) as Ef.
      rewrite release_shared; [|done|rewrite Ef; simpl; lia]. split.
      * intros i. rewrite arr_get_set, Hd. destruct (decide (j = i)) as [->|Hji].
        { by rewrite (proj2 (Z.leb_le 0 i)), (proj2 (Z.ltb_lt i (i + 1))) by lia. }
        { replace (i <? j + 1) with (i <? j); [done|]. destruct (Z.ltb_spec i j), (Z.ltb_spec i (j + 1)); lia || done. }
      * destruct H1 as (E1&Ht1&Hg1). split_and!; [done|done|]. intros g. rewrite Hg1. f_equal. f_equal.
        rewrite occurrences_snoc, Ej by lia.
        destruct (decide (f = g)) as [->|]; [rewrite decide_True by done|rewrite decide_False by congruence]; lia.
    + destruct Hs as (E&Hw1&Hg). split.
      * intros i. rewrite Hd. destruct (decide (j = i)) as [->|Hji].
        { rewrite (proj2 (Z.leb_le 0 i)), (proj2 (Z.ltb_lt i (i + 1))) by lia. rewrite (proj2 (Z.ltb_ge i i)) by lia.
          bsimpl. by rewrite Hsrc by lia. }
        { replace (i <? j + 1) with (i <? j); [done|]. destruct (Z.ltb_spec i j), (Z.ltb_spec i (j + 1)); lia || done. }
      * split_and!; [done|done|]. intros g. rewrite Hg, occurrences_snoc, Ej by lia.
        rewrite decide_False by done. by rewrite Z.add_0_r.
Qed.

(** ** The theorems *)

(** C6: From a consistent file table on, every sequence of opens, pipe creations,
    retains, closes, pipe transfers and seeks keeps it consistent: the reference count of
    every inode is the number of open files on it, a pipe counts exactly its open
    read and write ends, and the memory of every open pipe is in use. *)
Theorem vfs_files_reachable X v v' :
  files_ok X v → names_ok v → rtc vfs_step v v' → ∃ X', files_ok X' v'.
Proof.
  intros Hok Hn Hsteps. revert X Hok Hn. induction Hsteps as [v|v v1 v' Hstep _ IH]; intros X Hok Hn; [by exists X|].
  destruct (vfs_step_ok v v1 X Hstep Hok Hn) as [[X1 Hok1] Hn1]. by eapply IH.
Qed.

(** Closing an open file drops one reference, and touches no other open file.  The
    file goes away with its last reference, and the memory of a pipe is given back
    exactly when the last of its ends goes away. *)
Theorem vfs_close_file_spec X f v :
  files_ok X v → 0 ≤ f < VFS_MAX_FILES → f_ref_count (file_at f v) ≠ 0 →
  let v' := vfs_close_file (Some f) v in
  files_ok (after_close X f v) v' ∧
  (∀ g, file_at g v' = if decide (f = g)
     then if f_ref_count (file_at f v) =? 1 then zero_file
          else with_f_ref_count (f_ref_count (file_at f v) - 1) (file_at f v)
     else file_at g v).
Proof. apply close_cases. Qed.

(** Creating a pipe always returns.  It fails without a trace (the memory it took
    is given back), or gives two fresh open files, one to read and one to write, on
    an empty pipe with one reader and one writer in fresh memory. *)
Theorem vfs_create_pipe_spec X v :
  files_ok X v →
  ∃ r rf wf v', vfs_create_pipe true v = Some (r, rf, wf, v') ∧
  ((r = -1 ∧ rf = None ∧ wf = None ∧ files_ok X v') ∨
   (r = 0 ∧ ∃ f g a, rf = Some f ∧ wf = Some g ∧ pipe_created X v f g a v')).
Proof. apply create_pipe_cases. Qed.

(** Copying a descriptor table (for a fork) adds one reference per descriptor, also
    when two descriptors share a file; detaching the copy undoes exactly that: every
    open file and everything else is as before. *)
Theorem vfs_clone_detach v src n d :
  is_Some (file_table v) → 0 ≤ n → refs_room src n v →
  let '(r, d', v1) := vfs_clone_fds (Some d) (Some src) n v in
  r = 0 ∧ refs_shifted (occurrences src n) v v1 ∧
  ∃ t, d' = Some t ∧ (∀ i, 0 ≤ i < n → t i = src i) ∧
  ∃ t', (vfs_detach_fds d' n v1).1 = Some t' ∧ (∀ i, 0 ≤ i < n → t' i = None) ∧
    (vfs_detach_fds d' n v1).2 = with_files (file_table (vfs_detach_fds d' n v1).2) v ∧
    ∀ g, file_at g (vfs_detach_fds d' n v1).2 = file_at g v.
Proof.
  intros Ht Hn Hroom. unfold vfs_clone_fds.
  pose proof (clone_loop src n (fd_table_clear d n) v Ht Hn Hroom) as Hc.
  destruct (for_range 0 n _ (fd_table_clear d n, v)) as [t v1]. destruct Hc as [Hd Hs].
  assert (∀ i, 0 ≤ i < n → t i = src i) as Hti.
  { intros i Hi. rewrite Hd. by rewrite (proj2 (Z.leb_le 0 i)), (proj2 (Z.ltb_lt i n)) by lia. }
  split_and!; [done|done|]. exists t. split_and!; [done|done|]. unfold vfs_detach_fds.
  pose proof (detach_loop src n t v v1 Hn Hroom Hs Hti) as Hl.
  destruct (for_range 0 n _ (t, v1)) as [t' v2]. destruct Hl as (Hd'&E&_&Hg). simpl.
  exists t'. split_and!; [done| |done|].
  - intros i Hi. rewrite Hd'. by rewrite (proj2 (Z.leb_le 0 i)), (proj2 (Z.ltb_lt i n)) by lia.
  - intros g. rewrite Hg, Z.add_0_r. by destruct (file_at g v).
Qed.

End files.
