(* ===== verification/VfsBoot.v ===== *)
(** * Mounting the root ([src/kernel/vfs.c], [src/kernel/storage.c])

    The choice of the boot disk, the mounting of the root file system from the disk
    or from the boot module, the reinstallation of the disk from the module, and the
    boot counter.  The disk drivers are reached through the interface [DiskDrivers];
    console messages are left out.

    The theorems: [vfs_init] leaves a system without a root, or one whose open files,
    inodes and names are consistent ([files_ok] of [VfsFiles]); a reinstallation
    makes the disk a copy of the module. *)

From stdpp Require Import strings gmap.
From S2P Require Import Prelude Abi Mem Palloc Trace Block Vnode Simplefs Bootinfo Vfs VfsPath VfsFiles.

Local Open Scope Z_scope.
Local Open Scope c_scope.


(** What the storage layer uses of [pci.c], [ahci.c] and [ata.c]: each of the drivers
    looks for its controller and registers the disk it finds. *)
Class DiskDrivers (St : Type) := {
  pci_init : St → St;
  ahci_init : block_state St → St → Z * block_state St * St;
  ata_init : block_state St → St → Z * block_state St * St;
}.

Section boot.
Context {St Hp Io : Type} `{!KernelHeap Hp} `{!ConsoleIO Io} `{!DiskDrivers St}.

(** The memory in the state of the storage, which a ramdisk reads; the time that
    trace records carry; what local arrays hold before they are set. *)
Context (memory : St → carray Z) (now : Z) (stack : carray Z).

(** The file system with the static variables of [storage.c] and the trace ring. *)
Record boot_state := {
  files : vfs St Hp Io;
  boot_disk : option (block_device St);
  boot_partition_name : option (list Z);
  storage_initialized : Z;
  traces : trace;
}.
Implicit Types b : boot_state.

Definition with_files_of (v : vfs St Hp Io) b : boot_state :=
  {| files := v; boot_disk := boot_disk b; boot_partition_name := boot_partition_name b;
     storage_initialized := storage_initialized b; traces := traces b |}.
Definition with_boot_disk (d : option (block_device St)) (n : option (list Z)) b : boot_state :=
  {| files := files b; boot_disk := d; boot_partition_name := n;
     storage_initialized := storage_initialized b; traces := traces b |}.
Definition with_initialized (i : Z) b : boot_state :=
  {| files := files b; boot_disk := boot_disk b; boot_partition_name := boot_partition_name b;
     storage_initialized := i; traces := traces b |}.
Definition with_traces (t : trace) b : boot_state :=
  {| files := files b; boot_disk := boot_disk b; boot_partition_name := boot_partition_name b;
     storage_initialized := storage_initialized b; traces := t |}.

Definition log_trace (event a0 a1 a2 : Z) b : boot_state :=
  with_traces (trace_log now SYS_TRACE_CATEGORY_BLOCK event a0 a1 a2 (traces b)) b.

Definition with_storage_of (s : St) (v : vfs St Hp Io) : vfs St Hp Io := with_fs (with_storage s (fs v)) v.

(** The part of [storage_init] for one driver: the disk [disk] with the root on
    partition [partition], when the driver finds it. *)
Definition try_driver (init : block_state St → St → Z * block_state St * St) (disk partition : list Z) b
    : boot_state :=
  let v := files b in
  let '(r, bs, s) := init (blocks v) (storage (fs v)) in
  let b := with_files_of (with_blocks bs (with_storage_of s v)) b in
  if truthy r then b
  else match block_find (Some disk) bs with
       | Some d => with_boot_disk (Some d) (Some partition) b
       | None => with_boot_disk None (boot_partition_name b) b
       end.

Definition storage_init b : Z * boot_state :=
  if truthy (storage_initialized b) then (match boot_disk b with Some _ => 0 | None => -1 end, b)
  else
    let b := with_boot_disk None None (with_initialized 1 b) in
    let b := with_files_of (with_storage_of (pci_init (storage (fs (files b)))) (files b)) b in
    let b := try_driver ahci_init (c_bytes "ahci0") (c_bytes "ahci0p2") b in
    let b := match boot_disk b with
             | None => try_driver ata_init (c_bytes "ata0") (c_bytes "ata0p2") b
             | Some _ => b
             end in
    match boot_disk b, boot_partition_name b with
    | Some d, Some _ =>
        (0, log_trace SYS_TRACE_EVENT_BLOCK_STORAGE
              (match controller d with Some c => transport c | None => 0 end) (block_count d) 0 b)
    | _, _ => (-1, b)
    end.

Definition storage_boot_disk b : option (block_device St) := boot_disk b.
Definition storage_boot_partition_name b : option (list Z) := boot_partition_name b.

Definition vfs_mount_root (device : option (block_device St)) (v : vfs St Hp Io)
    : option (Z * option inode_ptr * vfs St Hp Io) :=
  match device with
  | None => Some (-1, None, v)
  | Some d =>
      match simplefs_mount stack (Some d) (fs v) with
      | None => None
      | Some (r, root, s) => Some (r, root, with_fs s v)
      end
  end.

Definition vfs_ensure_disk_rootfs_device b : Z * option (block_device St) * boot_state :=
  let '(r, b) := storage_init b in
  if truthy r then (-1, None, b)
  else match storage_boot_partition_name b with
  | None => (-1, None, b)
  | Some partition_name =>
      match block_find (Some partition_name) (blocks (files b)) with
      | Some rootfs_device => (0, Some rootfs_device, b)
      | None =>
          match storage_boot_disk b with
          | None => (-1, None, b)
          | Some disk_device =>
              let v := files b in
              let '(r, bs) := partition_register_rootfs (Some disk_device) (Some partition_name) stack
                                (blocks v) (storage (fs v)) in
              let b := with_files_of (with_blocks bs v) b in
              if truthy r then (-1, None, b)
              else match block_find (Some partition_name) (blocks (files b)) with
                   | None => (-1, None, b)
                   | Some rootfs_device => (0, Some rootfs_device, b)
                   end
          end
      end
  end.

(** The mount of [d] as the root; [kind] is 1 for the disk and 2 for the module. *)
Definition mount_as_root (kind writable : Z) (d : block_device St) b : option (Z * boot_state) :=
  match vfs_mount_root (Some d) (files b) with
  | None => None
  | Some (r, root, v) =>
      let b := with_files_of v b in
      if truthy r then Some (-1, b)
      else
        let b := with_files_of (with_root root writable (Some d) v) b in
        Some (0, log_trace SYS_TRACE_EVENT_BLOCK_ROOTFS kind writable (block_count d) b)
  end.

Definition vfs_try_mount_disk_root b : option (Z * boot_state) :=
  match vfs_ensure_disk_rootfs_device b with
  | (r, Some d, b) => if truthy r then Some (-1, b)
                      else mount_as_root 1 (if read_only d =? 0 then 1 else 0) d b
  | (_, None, b) => Some (-1, b)
  end.

Definition rootfs0 : option (list Z) := Some (c_bytes "rootfs0").

(** [fuel] bounds the length of the command lines of the modules. *)
Definition vfs_try_mount_ramdisk_root (fuel : nat) (info : option multiboot_info) b : option (Z * boot_state) :=
  let v := files b in
  match ramdisk_register_rootfs memory fuel info rootfs0 (storage (fs v)) (blocks v) with
  | None => None
  | Some (r, bs) =>
      let b := with_files_of (with_blocks bs v) b in
      if truthy r then Some (-1, b)
      else match block_find rootfs0 bs with
           | None => Some (-1, b)
           | Some d => mount_as_root 2 0 d b
           end
  end.

Definition no_root (v : vfs St Hp Io) : vfs St Hp Io := with_root None (root_writable v) (root_device v) v.

(** A file table without open files; [false] when there is no memory for it. *)
Definition setup_file_table (v : vfs St Hp Io) : option (bool * vfs St Hp Io) :=
  match file_table v with
  | Some _ => Some (true, with_files (Some (λ _, zero_file)) v)
  | None =>
      match heap_kzalloc (sizeof_vfs_file * VFS_MAX_FILES) (heap v) with
      | None => None
      | Some (a, h) =>
          let v := with_heap h v in
          if a =? 0 then Some (false, v) else Some (true, with_files (Some (λ _, zero_file)) v)
      end
  end.

Definition mount_by_policy (fuel : nat) (info : option multiboot_info) (policy : boot_root_policy) b
    : option (Z * boot_state) :=
  match policy with
  | BOOT_ROOT_DISK => vfs_try_mount_disk_root b
  | BOOT_ROOT_RAMDISK => vfs_try_mount_ramdisk_root fuel info b
  | BOOT_ROOT_AUTO =>
      match vfs_try_mount_disk_root b with
      | None => None
      | Some (r, b) => if truthy r then vfs_try_mount_ramdisk_root fuel info b else Some (0, b)
      end
  end.

(** The console and the terminal in [/dev]. *)
Definition attach_devices (v : vfs St Hp Io) : vfs St Hp Io :=
  let v := with_devices (with_in_ref_count 0 (console_inode v)) (with_in_ref_count 0 (tty_inode v)) v in
  let dev := vfs_resolve_path (Some (c_bytes "/dev")) None v in
  let '(r, v) := vfs_append_child dev (Some IP_console) v in
  if truthy r then no_root v
  else
    let '(r, v) := vfs_append_child dev (Some IP_tty) v in
    if truthy r then no_root v else v.

Definition vfs_init (fuel : nat) (info : option multiboot_info) (options : bootinfo) b : option boot_state :=
  match setup_file_table (with_root None 0 None (files b)) with
  | None => None
  | Some (ok, v) =>
      if negb ok then Some (with_files_of v b)
      else
        let b := with_files_of (with_blocks (block_init (blocks v)) v) b in
        match mount_by_policy fuel info (bootinfo_root_policy options) b with
        | None => None
        | Some (r, b) =>
            if truthy r then Some (with_files_of (no_root (files b)) b)
            else Some (with_files_of (attach_devices (files b)) b)
        end
  end.

(** ** Reinstalling the disk *)

(** The copy of the blocks from [block_index] on, in chunks through [buffer]. *)
Fixpoint reinstall_loop (fuel : nat) (block_index : Z) (source destination : block_device St)
    (buffer : carray Z) (s : St) : option (Z * St) :=
  match fuel with
  | O => None
  | S fuel =>
      if block_index <? block_count source then
        let remaining_blocks := block_count source ⊟ block_index in
        let current_chunk := if remaining_blocks <? VFS_REINSTALL_CHUNK_BLOCKS
                             then remaining_blocks else VFS_REINSTALL_CHUNK_BLOCKS in
        let '(r, buf) := block_read (Some source) block_index current_chunk (Some buffer) s in
        let buffer := default buffer buf in
        if truthy r then Some (-1, s)
        else
          let '(r, s) := block_write (Some destination) block_index current_chunk (Some buffer) s in
          if truthy r then Some (-1, s)
          else reinstall_loop fuel (block_index ⊞ VFS_REINSTALL_CHUNK_BLOCKS) source destination buffer s
      else Some (0, s)
  end.

(** Registered devices differ in their names, so a pointer to one is identified by it. *)
Definition same_device (d : option (block_device St)) (e : block_device St) : bool :=
  match d with Some d => bool_decide (name d = name e) | None => false end.

Definition vfs_reinstall_rootfs (fuel : nat) (options : bootinfo) b : option (Z * boot_state) :=
  if negb (bootinfo_recovery_enabled options) then Some (-1, b)
  else match block_find rootfs0 (blocks (files b)) with
  | None => Some (-1, b)
  | Some source =>
      if negb (same_device (root_device (files b)) source) then Some (-1, b)
      else match vfs_ensure_disk_rootfs_device b with
      | (r, Some destination, b) =>
          if truthy r then Some (-1, b)
          else if truthy (read_only destination) || negb (block_size source =? block_size destination)
                  || negb (block_count source =? block_count destination) then Some (-1, b)
          else
            match heap_kmalloc (block_size source ⊠ VFS_REINSTALL_CHUNK_BLOCKS) (heap (files b)) with
            | None => None
            | Some (buffer, h) =>
                let v := with_heap h (files b) in
                if buffer =? 0 then Some (-1, with_files_of v b)
                else match reinstall_loop fuel 0 source destination stack (storage (fs v)) with
                     | None => None
                     | Some (r, s) =>
                         let v := with_storage_of s v in
                         Some (r, with_files_of (with_heap (heap_kfree buffer (heap v)) v) b)
                     end
            end
      | (_, None, b) => Some (-1, b)
      end
  end.

(** ** The boot counter *)

Definition bootcount_path : option (list Z) := Some (c_bytes "/var/bootcount").

(** The counter's file, created when it does not exist. *)
Definition open_bootcount (v : vfs St Hp Io) : option (option Z * vfs St Hp Io) :=
  match vfs_open_path true bootcount_path VFS_O_RDWR None v with
  | (r, f, v) =>
      if negb (truthy r) then Some (f, v)
      else match vfs_create_path stack true bootcount_path VFS_O_RDWR VFS_MODE_FILE_DEFAULT None v with
           | None => None
           | Some (r, f, v) => Some (if truthy r then None else f, v)
           end
  end.

(** [None] when the read of the counter does not end, or a directory contains itself. *)
Definition vfs_storage_selftest (fuel : nat) (v : vfs St Hp Io) : option (Z * vfs St Hp Io) :=
  if root_writable v =? 0 then Some (0, v)
  else match open_bootcount v with
  | None => None
  | Some (None, v) => Some (-1, v)
  | Some (Some file, v) =>
      match vfs_read_file fuel (Some file) (Some (zero_bytes stack 0 16)) 8 v with
      | None => None
      | Some (read_result, buffer, v) =>
          if read_result <? 0 then Some (-1, vfs_close_file (Some file) v)
          else
            let text := default stack buffer <$> seqZ 0 read_result in
            let bootcount := (if 0 <? read_result then parse_hex32 text else 0) ⊞ 1 in
            let encoded : carray Z := λ k, default 0 (format_hex32 bootcount !! Z.to_nat k) in
            let '(r, v) := vfs_truncate_file (Some file) 0 v in
            if truthy r then Some (-1, vfs_close_file (Some file) v)
            else
              let v := vfs_rewind_file (Some file) v in
              let '(r, v) := vfs_write_file (Some file) (Some encoded) 8 v in
              if negb (r =? 8) then Some (-1, vfs_close_file (Some file) v)
              else Some (0, vfs_close_file (Some file) v)
      end
  end.

(** ** A mounted file system has no open file *)

(** No inode is open or belongs to a pipe, and no name stands for a pipe. *)
Record unopened (s : simplefs St) : Prop := {
  un_refs : ∀ i, in_ref_count (node_vfs i s) = 0;
  un_plain : ∀ i a, in_private_data (node_vfs i s) ≠ PD_pipe a;
  un_names : ∀ k a, ent_inode (runtime_dir_entries s k) ≠ Some (IP_pipe a);
}.

Lemma unopened_set_node i x s :
  in_ref_count (rt_vfs x) = 0 → (∀ a, in_private_data (rt_vfs x) ≠ PD_pipe a) →
  unopened s → unopened (set_node i x s).
Proof.
  intros Hr Hpl [H1 H2 H3]. split; [| |exact H3]; intros j; unfold node_vfs, set_node; cbn;
    rewrite arr_get_set; case_if; try done; [apply H1|apply H2].
Qed.

Lemma unopened_set_vfs i x s :
  in_ref_count x = 0 → (∀ a, in_private_data x ≠ PD_pipe a) → unopened s → unopened (set_vfs i x s).
Proof. intros. by apply unopened_set_node. Qed.

(** An update of an inode that keeps its reference count and its owner. *)
Lemma unopened_upd i g s :
  (∀ x, in_ref_count (rt_vfs (g x)) = in_ref_count (rt_vfs x)) →
  (∀ x, in_private_data (rt_vfs (g x)) = in_private_data (rt_vfs x)) →
  unopened s → unopened (set_node i (g (runtime_inodes s i)) s).
Proof.
  intros Hr Hpl [H1 H2 H3]. apply unopened_set_node; [rewrite Hr; apply H1|intros a; rewrite Hpl; apply H2|by split].
Qed.

Lemma unopened_set_entry slot e s :
  (∀ a, ent_inode e ≠ Some (IP_pipe a)) → unopened s →
  unopened (with_dir_entries (<[slot := e]> (runtime_dir_entries s)) s).
Proof. intros He [H1 H2 H3]. split; try done. intros k a. cbn. rewrite arr_get_set. case_if; [apply He|apply H3]. Qed.

Lemma unopened_append directory child s : unopened s → unopened (append_node directory child s).
Proof.
  intros H. unfold append_node. apply (unopened_upd directory (λ x, with_rt_vfs (with_in_child_count _ (rt_vfs x)) x));
    [done|done|]. by apply unopened_set_entry.
Qed.

Lemma populate_children_unopened populate n index directory entries s r s' :
  (∀ d s r s', unopened s → populate d s = Some (r, s') → unopened s') → unopened s →
  populate_children populate n index directory entries s = Some (r, s') → unopened s'.
Proof.
  intros Hpl. revert index s. induction n as [|n IH]; intros index s H; simpl; [by intros [= <- <-]|].
  case_if; [by intros [= <- <-]|]. case_if; [by intros [= <- <-]|].
  set (child := ent_inode_index entries index).
  assert (unopened (append_node directory child (simplefs_set_inode_name child (entry_name entries index) s))) as Hu.
  { apply unopened_append. by apply (unopened_upd child (λ x, with_rt_vfs (with_in_name _ (rt_vfs (with_rt_name _ x))) (with_rt_name _ x))). }
  case_if; [|by apply IH]. destruct (populate child _) as [[r1 s1]|] eqn:Ep; [|done].
  pose proof (Hpl _ _ _ _ Hu Ep). case_if; [by intros [= <- <-]|]. by apply IH.
Qed.

Lemma populate_unopened fuel directory s r s' :
  unopened s → simplefs_populate_directory stack fuel directory s = Some (r, s') → unopened s'.
Proof.
  revert directory s r s'. induction fuel as [|fuel IH]; intros directory s r s' H; cbn [simplefs_populate_directory]; [done|].
  case_if; [by intros [= <- <-]|]. case_if; [by intros [= <- <-]|]. case_if; [by intros [= <- <-]|].
  unfold simplefs_alloc_dir_slots.
  assert (∀ s, unopened s → unopened
    (set_vfs directory (with_in_child_count 0 (node_vfs directory (for_range 0 SIMPLEFS_DIRECTORY_CAPACITY
       (λ k, set_child_entry directory k null_entry) s)))
     (for_range 0 SIMPLEFS_DIRECTORY_CAPACITY (λ k, set_child_entry directory k null_entry) s))) as Hclear.
  { clear -stack. intros s H. apply (unopened_upd directory (λ x, with_rt_vfs (with_in_child_count _ (rt_vfs x)) x)); [done..|].
    apply for_range_inv; [done|]. intros k s1 _ H1. by apply unopened_set_entry. }
  assert (∀ s, unopened s → unopened (set_node directory (with_rt_populated 1 (runtime_inodes s directory)) s)) as Hfin.
  { intros s1 H1. by apply (unopened_upd directory (with_rt_populated 1)). }
  set (sl := if negb _ then _ else _). assert (unopened sl.2) as Hsl.
  { unfold sl. case_if; [done|]. case_if; [done|].
    apply (unopened_upd directory (λ x, with_rt_vfs (with_in_children _ _ (rt_vfs (with_rt_dir_slot_base _ x)))
      (with_rt_dir_slot_base _ x)) (with_next_slot _ s)); [done..|]. by destruct H. }
  destruct sl as [r1 s1]. cbn in Hsl. case_if; [by intros [= <- <-]|]. specialize (Hclear s1 Hsl).
  set (s2 := set_vfs _ _ _) in *. case_if; [intros [= <- <-]; by apply (Hfin s2)|].
  destruct (simplefs_read_dir_entries _ _ _ _) as [r2 entries]. case_if; [by intros [= <- <-]|].
  destruct (populate_children _ _ _ _ _ _) as [[r3 s3]|] eqn:Ep; [|done].
  apply populate_children_unopened in Ep; [|exact IH|done]. case_if; [by intros [= <- <-]|].
  intros [= <- <-]. by apply Hfin.
Qed.

Lemma load_inodes_unopened n index disk_inodes s :
  unopened s → unopened (load_inodes n index disk_inodes s).2.
Proof.
  revert index s. induction n as [|n IH]; intros index s H; simpl; [done|].
  repeat case_if; try apply IH; by apply unopened_set_node.
Qed.

Lemma mount_unopened device s r root s' :
  simplefs_mount stack device s = Some (r, root, s') → r = 0 →
  unopened s' ∧ ∃ i, root = Some (IP_node i).
Proof.
  unfold simplefs_mount. intros Em ->. revert Em. destruct device as [d|]; [|done].
  case_if; [done|]. destruct (block_read _ _ _ _ _) as [r1 scratch]. case_if; [done|]. case_if; [done|].
  destruct (read_tables _ _ _) as [[disk_inodes|] s1]; [|done]. unfold mount_tables.
  set (s0 := {| runtime_inodes := _ |}).
  pose proof (load_inodes_unopened (Z.to_nat (sb_inode_count (mounted_superblock s1))) 0 disk_inodes s0
    ltac:(by split)) as Hl.
  destruct (load_inodes _ _ _ _) as [ok s2]. case_if; [done|]. cbn in Hl.
  set (s3 := set_vfs _ _ _). assert (unopened s3) as H3.
  { apply (unopened_upd _ (λ x, with_rt_vfs (with_in_name _ (rt_vfs x)) x)); [done..|].
    by apply (unopened_upd _ (with_rt_name _)). }
  destruct (simplefs_populate_directory _ _ _ _) as [[r4 s4]|] eqn:Ep; [|done].
  apply populate_unopened in Ep; [|done]. case_if; [done|]. intros [= <- <-]. split; [done|by eexists].
Qed.

(** ** Initialisation *)

(** The parts of the system that mounting leaves alone. *)
Definition same_host (v v' : vfs St Hp Io) : Prop :=
  heap v' = heap v ∧ file_table v' = file_table v ∧ console_inode v' = console_inode v ∧ tty_inode v' = tty_inode v.

Lemma try_driver_host init disk partition b : same_host (files b) (files (try_driver init disk partition b)).
Proof. unfold try_driver. destruct (init _ _) as [[r bs] s]. case_if; [done|]. by destruct (block_find _ _). Qed.

Lemma same_host_trans v1 v2 v3 : same_host v1 v2 → same_host v2 v3 → same_host v1 v3.
Proof. unfold same_host. intros (?&?&?&?) (?&?&?&?). split_and!; congruence. Qed.

Lemma storage_init_host b : same_host (files b) (files (storage_init b).2).
Proof.
  unfold storage_init. case_if; [done|]. set (b1 := with_files_of _ _).
  assert (same_host (files b) (files b1)) as H1 by done.
  pose proof (try_driver_host ahci_init (c_bytes "ahci0") (c_bytes "ahci0p2") b1) as H2.
  set (b2 := try_driver ahci_init _ _ _) in *. pose proof (same_host_trans _ _ _ H1 H2) as H3.
  set (b3 := match boot_disk b2 with Some _ => _ | None => _ end).
  assert (same_host (files b) (files b3)) as H4.
  { unfold b3. destruct (boot_disk b2); [done|]. eapply same_host_trans; [done|apply try_driver_host]. }
  clearbody b3. by destruct (boot_disk b3), (boot_partition_name b3).
Qed.

Lemma ensure_host b : same_host (files b) (files (vfs_ensure_disk_rootfs_device b).2).
Proof.
  unfold vfs_ensure_disk_rootfs_device. pose proof (storage_init_host b) as H.
  destruct (storage_init b) as [r b1]. cbn in H. case_if; [done|].
  destruct (storage_boot_partition_name b1); [|done]. destruct (block_find _ _); [done|].
  destruct (storage_boot_disk b1); [|done]. destruct (partition_register_rootfs _ _ _ _ _) as [r2 bs].
  case_if; [done|]. by destruct (block_find _ _).
Qed.

(** What a mount that succeeds establishes. *)
Record mounted (writable : Z → Prop) (v v' : vfs St Hp Io) : Prop := {
  mo_host : same_host v v';
  mo_unopened : unopened (fs v');
  mo_root : ∃ i, root_inode v' = Some (IP_node i);
  mo_writable : writable (root_writable v');
}.

Lemma mount_as_root_cases (P : Z → Prop) kind w d b r b' :
  P w → mount_as_root kind w d b = Some (r, b') →
  same_host (files b) (files b') ∧ (r = 0 → mounted P (files b) (files b')).
Proof.
  unfold mount_as_root, vfs_mount_root. intros HP.
  destruct (simplefs_mount _ _ _) as [[[r1 root] s1]|] eqn:Em; [|done].
  case_if; intros [= <- <-]; [done|]. split; [done|]. intros _.
  apply mount_unopened in Em as [Hu [i ->]]; [|done]. split; [done|done|by exists i|done].
Qed.

Lemma try_disk_cases b r b' :
  vfs_try_mount_disk_root b = Some (r, b') →
  same_host (files b) (files b') ∧ (r = 0 → mounted (λ _, True) (files b) (files b')).
Proof.
  unfold vfs_try_mount_disk_root. pose proof (ensure_host b) as H.
  destruct (vfs_ensure_disk_rootfs_device b) as [[r1 d] b1]. cbn in H.
  destruct d as [d|]; [|by intros [= <- <-]]. case_if; [by intros [= <- <-]|].
  intros (H1&H2)%(mount_as_root_cases (λ _, True)); [|done]. split; [by eapply same_host_trans|].
  intros Hr. destruct (H2 Hr). split; [by eapply same_host_trans|done..].
Qed.

Lemma try_ramdisk_cases fuel info b r b' :
  vfs_try_mount_ramdisk_root fuel info b = Some (r, b') →
  same_host (files b) (files b') ∧ (r = 0 → mounted (λ w, w = 0) (files b) (files b')).
Proof.
  unfold vfs_try_mount_ramdisk_root. destruct (ramdisk_register_rootfs _ _ _ _ _ _) as [[r1 bs]|]; [|done].
  case_if; [by intros [= <- <-]|]. destruct (block_find _ _) as [d|]; [|by intros [= <- <-]].
  intros (H1&H2)%(mount_as_root_cases (λ w, w = 0)); [|done]. split; [done|].
  intros Hr. by destruct (H2 Hr).
Qed.

Lemma mount_by_policy_cases fuel info policy b r b' :
  mount_by_policy fuel info policy b = Some (r, b') →
  same_host (files b) (files b') ∧
  (r = 0 → mounted (λ w, policy = BOOT_ROOT_RAMDISK → w = 0) (files b) (files b')).
Proof.
  assert (∀ (P Q : Z → Prop) v v', (∀ w, P w → Q w) → mounted P v v' → mounted Q v v') as Hweak.
  { intros P Q v v' HPQ []. split; auto. }
  destruct policy; cbn [mount_by_policy].
  - destruct (vfs_try_mount_disk_root b) as [[r1 b1]|] eqn:Ed; [|done]. apply try_disk_cases in Ed as [H1 H2].
    case_if.
    + intros [H3 H4]%try_ramdisk_cases. split; [by eapply same_host_trans|]. intros Hr.
      destruct (H4 Hr). split; [by eapply same_host_trans|done..].
    + intros [= <- <-]. split; [done|]. intros _. eapply Hweak; [|apply H2; lia]. done.
  - intros [H1 H2]%try_disk_cases. split; [done|]. intros Hr. eapply Hweak; [|by apply H2]. done.
  - intros [H1 H2]%try_ramdisk_cases. split; [done|]. intros Hr. eapply Hweak; [|by apply H2]. done.
Qed.

(** Nothing is open. *)
Record quiet (v : vfs St Hp Io) : Prop := {
  qu_fs : unopened (fs v);
  qu_table : file_table v = Some (λ _, zero_file);
  qu_console : in_ref_count (console_inode v) = 0 ∧ ∀ a, in_private_data (console_inode v) ≠ PD_pipe a;
  qu_tty : in_ref_count (tty_inode v) = 0 ∧ ∀ a, in_private_data (tty_inode v) ≠ PD_pipe a;
  qu_root : ∀ a, root_inode v ≠ Some (IP_pipe a);
}.

Lemma quiet_names v : quiet v → names_ok v.
Proof. intros []. split; [apply qu_fs0|done]. Qed.

Lemma append_child_quiet dir child v :
  is_pipe child = false → (∀ p, dir = Some p → is_pipe p = false) → quiet v →
  quiet (vfs_append_child dir (Some child) v).2 ∧ heap (vfs_append_child dir (Some child) v).2 = heap v ∧
  root_inode (vfs_append_child dir (Some child) v).2 = root_inode v ∧
  root_writable (vfs_append_child dir (Some child) v).2 = root_writable v.
Proof.
  intros Hc Hd Hq. unfold vfs_append_child. destruct dir as [p|]; [|done]. specialize (Hd p eq_refl).
  case_if; [done|]. case_if; [done|]. cbv zeta. cbn [snd]. set (e := {| ent_name := _ |}).
  set (v1 := with_fs _ v). assert (quiet v1) as [F T [C1 C2] [Y1 Y2] R].
  { destruct Hq. split; try done. apply unopened_set_entry; [|done]. intros a [= ->]. done. }
  destruct p as [i|a| |]; [|done|..]; (split; [|done]); split; try done; cbn.
  apply unopened_set_vfs; [apply F|apply F|done].
Qed.

Lemma attach_quiet v : quiet v →
  quiet (attach_devices v) ∧ heap (attach_devices v) = heap v ∧
  (is_Some (root_inode (attach_devices v)) → root_writable (attach_devices v) = root_writable v).
Proof.
  intros Hq. unfold attach_devices. set (v0 := with_devices _ _ v).
  assert (quiet v0) as Hq0 by (destruct Hq as [? ? [? ?] [? ?] ?]; by split).
  set (dev := vfs_resolve_path _ _ _).
  assert (∀ p, dev = Some p → is_pipe p = false) as Hd.
  { intros p Ep. eapply resolve_plain; [by apply quiet_names|exact Ep]. }
  assert (∀ v, quiet v → quiet (no_root v)) as Hno by (intros v1 []; by split).
  destruct (append_child_quiet dev IP_console v0 eq_refl Hd Hq0) as (Q1&E1&R1&W1).
  destruct (vfs_append_child dev (Some IP_console) v0) as [r1 v1]. cbn in *.
  case_if; [split_and!; [by apply Hno|simpl; congruence|by intros []]|].
  destruct (append_child_quiet dev IP_tty v1 eq_refl Hd Q1) as (Q2&E2&R2&W2).
  destruct (vfs_append_child dev (Some IP_tty) v1) as [r2 v2]. cbn in *.
  case_if; [split_and!; [by apply Hno|simpl; congruence|by intros []]|]. split_and!; [done|congruence|congruence].
Qed.

Context (live : Hp → gset Z → Prop) `{!KernelHeapLaws live}.

Lemma quiet_ok X v : live (heap v) X → quiet v → files_ok live X v.
Proof.
  intros Hl Hq. pose proof Hq as [F T [C1 C2] [Y1 Y2] R].
  assert (∀ f, file_at f v = zero_file) as Hf by (intros f; unfold file_at; by rewrite T).
  assert (∀ q : vfs_file → bool, q zero_file = false → opens_if q v = 0) as H0.
  { intros q Hb. unfold opens_if. apply count_range_zero. intros f _. by rewrite Hf. }
  split.
  - done.
  - rewrite T. by eexists.
  - intros f. by rewrite Hf.
  - intros f _. by rewrite Hf.
  - intros p Hpl. rewrite H0 by done. destruct p as [i|a| |]; try done. split; [apply F|apply F].
  - intros a. rewrite H0 by done. lia.
Qed.

Lemma setup_table_cases X v :
  live (heap v) X → ∃ ok v', setup_file_table v = Some (ok, v') ∧
  (ok = true → ∃ X', live (heap v') X' ∧ file_table v' = Some (λ _, zero_file) ∧
     console_inode v' = console_inode v ∧ tty_inode v' = tty_inode v) ∧
  root_inode v' = root_inode v.
Proof.
  intros Hl. unfold setup_file_table. destruct (file_table v) as [t|] eqn:Et.
  - eexists _, _. split; [reflexivity|]. split; [|done]. intros _. by exists X.
  - destruct (law_kzalloc (heap v) X (sizeof_vfs_file * VFS_MAX_FILES) Hl ltac:(done)) as (a&h&->&Hc).
    destruct (Z.eqb_spec a 0) as [Ha|Ha]; eexists _, _; (split; [reflexivity|]); (split; [|done]); [done|].
    intros _. destruct Hc as [[? _]|(_&_&Hl')]; [done|]. by eexists.
Qed.

(** C35: When [vfs_init] finds a root file system, the system it leaves is consistent: it
    has a file table without open files, every inode has the reference count 0, and
    nothing in the tree of names is a pipe.  A forced ramdisk is never writable. *)
Theorem vfs_init_spec X fuel info options b b' :
  live (heap (files b)) X →
  (∀ a, in_private_data (console_inode (files b)) ≠ PD_pipe a) →
  (∀ a, in_private_data (tty_inode (files b)) ≠ PD_pipe a) →
  vfs_init fuel info options b = Some b' → is_Some (root_inode (files b')) →
  (∃ X', files_ok live X' (files b')) ∧ names_ok (files b') ∧ (∀ f, file_at f (files b') = zero_file) ∧
  (bootinfo_root_policy options = BOOT_ROOT_RAMDISK → root_writable (files b') = 0).
Proof.
  intros Hl Hcon Htty. unfold vfs_init.
  destruct (setup_table_cases X (with_root None 0 None (files b)) Hl) as (ok&v&->&Hok&Hroot).
  destruct ok; cbn [negb]; [|intros [= <-]; cbn; rewrite Hroot; by intros []].
  destruct (Hok eq_refl) as (X1&Hl1&Ht1&Hc1&Hy1).
  set (b1 := with_files_of _ b). destruct (mount_by_policy _ _ _ b1) as [[r b2]|] eqn:Em; [|done].
  apply mount_by_policy_cases in Em as [_ Hm]. case_if; [intros [= <-]; by intros []|].
  intros [= <-] Hr. destruct (Hm ltac:(lia)) as [(Hh&Ht&Hc&Hy) Hu [i Hi] Hw]. cbn in *.
  set (v2 := with_devices (with_in_ref_count 0 (console_inode (files b2)))
    (with_in_ref_count 0 (tty_inode (files b2))) (files b2)).
  assert (quiet v2) as Hq.
  { split; cbn; [done|by rewrite Ht| | |by rewrite Hi]; (split; [done|]); intros a;
      [rewrite Hc, Hc1; apply Hcon|rewrite Hy, Hy1; apply Htty]. }
  destruct (attach_quiet v2 Hq) as (Q&Eh&Ew). change (attach_devices v2) with (attach_devices (files b2)) in *.
  split_and!.
  - exists X1. apply quiet_ok; [|done]. rewrite Eh. cbn. by rewrite Hh.
  - by apply quiet_names.
  - intros f. unfold file_at. by rewrite (qu_table _ Q).
  - intros HP. rewrite Ew by done. by apply Hw.
Qed.

(** ** Reinstalling *)

Section reinstall.
Context (source destination : block_device St) (vs vd : St → carray Z)
  {Hs : BlockDevice source vs} {Hd : BlockDevice destination vd}.

(** Writes to the destination do not reach the source. *)
Definition independent : Prop :=
  ∀ op, write destination = Some op → ∀ i n buf s k, vs (op i n buf s).2 k = vs s k.

Lemma block_write_independent i n buf s :
  independent → ∀ k, vs (block_write (Some destination) i n (Some buf) s).2 k = vs s k.
Proof.
  intros Hi k. unfold block_write. repeat (case_if; [done|]). destruct (write destination) as [op|] eqn:Ew; [|done].
  by apply Hi.
Qed.

(** The blocks from [i] on are copied, or the call fails, and the rest of the
    destination stays. *)
Lemma reinstall_loop_spec fuel i buf s :
  independent → block_count source = block_count destination → block_count source ≤ 4294967288 →
  0 ≤ i ≤ block_count source + 7 → block_count source - i + 8 ≤ 8 * Z.of_nat fuel →
  ∃ r s', reinstall_loop fuel i source destination buf s = Some (r, s') ∧ (∀ k, vs s' k = vs s k) ∧
  (∀ k, k < i * 512 ∨ block_count source * 512 ≤ k → vd s' k = vd s k) ∧
  (r = 0 → ∀ k, i * 512 ≤ k < block_count source * 512 → vd s' k = vs s k).
Proof using Hs Hd.
  intros Hind Hcnt Hmax. pose proof (bd_count (d := source)) as Hc. revert i buf s.
  induction fuel as [|fuel IH]; intros i buf s Hi Hf; [lia|]. cbn [reinstall_loop].
  destruct (Z.ltb_spec i (block_count source)) as [Hlt|Hge].
  2:{ eexists _, _. split_and!; [reflexivity|done|done|intros _ k; lia]. }
  rewrite (u32_small (block_count source - i)) by lia. unfold VFS_REINSTALL_CHUNK_BLOCKS.
  set (n := if _ <? 8 then _ else 8). assert (n = Z.min 8 (block_count source - i)) as Hn by (unfold n; case_if; lia).
  assert (0 < n) by lia. clearbody n. destruct (block_read_cases source vs i n buf s) as (r&buf'&->&Hr&_); [lia..|]. cbn [default].
  unfold truthy. destruct (Z.eqb_spec r 0) as [->|Hr0]; cbn [negb].
  2:{ eexists _, _. split_and!; [reflexivity|done|done|done]. }
  destruct (Hr eq_refl) as (_&_&Hbuf).
  pose proof (block_write_cases destination vd i n buf' s ltac:(lia) ltac:(lia)) as Hw.
  pose proof (block_write_independent i n buf' s Hind) as Hvs.
  destruct (block_write _ _ _ _ _) as [r1 s1]. destruct Hw as [Hw Hkeep]. cbn [snd] in Hvs.
  unfold SIMPLEFS_BLOCK_SIZE in *.
  destruct (Z.eqb_spec r1 0) as [->|Hr1]; cbn [negb].
  2:{ eexists _, _. split_and!; [reflexivity|done| |done]. intros k Hk. apply Hkeep. lia. }
  destruct (Hw eq_refl) as (_&_&_&Hvd). rewrite u32_small by lia.
  destruct (IH (i + 8) buf' s1 ltac:(lia) ltac:(lia)) as (r2&s2&E&Hvs2&Hkeep2&Hcopy2).
  exists r2, s2. split_and!; [done|intros k; by rewrite Hvs2| |].
  - intros k Hk. rewrite Hkeep2 by lia. apply Hkeep. lia.
  - intros Hr2 k Hk. destruct (decide (k < (i + 8) * 512)) as [Hlow|Hhigh].
    + rewrite Hkeep2 by lia. rewrite Hvd, copy_bytes_in by lia.
      rewrite Hbuf, copy_bytes_in by lia. f_equal. lia.
    + rewrite Hcopy2 by lia. apply Hvs.
Qed.

(** A reinstallation returns, gives back the memory of its buffer, and writes nothing
    unless the system was started for recovery from the module.  When it reports success,
    every byte of the disk partition is the byte of the module. *)
Theorem vfs_reinstall_rootfs_spec X fuel options b b1 :
  live (heap (files b)) X → independent → block_count source ≤ 4294967288 →
  block_count source + 8 ≤ 8 * Z.of_nat fuel →
  block_find rootfs0 (blocks (files b)) = Some source →
  vfs_ensure_disk_rootfs_device b = (0, Some destination, b1) →
  ∃ r b', vfs_reinstall_rootfs fuel options b = Some (r, b') ∧ live (heap (files b')) X ∧
  (bootinfo_recovery_enabled options = false ∨ same_device (root_device (files b)) source = false → b' = b) ∧
  (r = 0 → block_count destination = block_count source ∧
     ∀ k, 0 ≤ k < block_count source * 512 →
       vd (storage (fs (files b'))) k = vs (storage (fs (files b1))) k).
Proof using Hs Hd KernelHeapLaws0.
  clear memory. intros Hl Hind Hmax Hfuel Hfind Hens. pose proof (ensure_host b) as (Hh&_). rewrite Hens in Hh. cbn in Hh.
  unfold vfs_reinstall_rootfs. destruct (bootinfo_recovery_enabled options); cbn [negb].
  2:{ eexists _, _. split_and!; [reflexivity|done|done|done]. }
  rewrite Hfind. destruct (same_device _ source); cbn [negb].
  2:{ eexists _, _. split_and!; [reflexivity|done|done|done]. }
  rewrite Hens. cbn [truthy negb Z.eqb]. case_if.
  { eexists _, _. split_and!; [reflexivity|by rewrite Hh|by intros []|done]. }
  zbool. pose proof (bd_size (d := source)) as Hsz. unfold SIMPLEFS_BLOCK_SIZE in Hsz. rewrite Hsz.
  destruct (law_kmalloc (heap (files b1)) X (512 ⊠ VFS_REINSTALL_CHUNK_BLOCKS) ltac:(by rewrite Hh) ltac:(done))
    as (a&h&->&Ha). destruct (Z.eqb_spec a 0) as [Ea|Ea].
  { destruct Ha as [[_ Hl']|[]]; [|done]. eexists _, _. split_and!; [reflexivity|done|by intros []|done]. }
  destruct Ha as [[? _]|(_&Hax&Hl')]; [done|].
  destruct (reinstall_loop_spec fuel 0 stack (storage (fs (files b1))) Hind ltac:(lia) Hmax) as (r&s'&E&_&_&Hcopy);
    [pose proof (bd_count (d := source)); lia|lia|]. cbn. rewrite E.
  eexists _, _. split_and!; [reflexivity| |by intros []|].
  - cbn. apply (law_kfree _ _ a) in Hl'; [|set_solver]. by replace (({[a]} ∪ X) ∖ {[a]}) with X in Hl' by set_solver.
  - intros ->. split; [lia|]. intros k Hk. cbn. by apply Hcopy.
Qed.

End reinstall.

End boot.

(** ** The digits of the boot counter *)

Lemma hex_digit_roundtrip d : 0 ≤ d < 16 → hex_digit_value (hex_digit d) = Some d.
Proof.
  intros Hd. unfold hex_digit, hex_digit_value. destruct (Z.ltb_spec d 10).
  - rewrite (proj2 (Z.leb_le _ _)), (proj2 (Z.leb_le _ _)) by lia. simpl. f_equal. lia.
  - rewrite (proj2 (Z.leb_le 48 _)), (proj2 (Z.leb_gt _ 57)) by lia. simpl.
    rewrite (proj2 (Z.leb_le 65 _)), (proj2 (Z.leb_le _ 70)) by lia. simpl. f_equal. lia.
Qed.

Lemma hex_step v j :
  is_u32 v → 0 ≤ j →
  Z.lor (u32 (Z.shiftl (Z.shiftr v (4 * (j + 1))) 4)) (Z.land (Z.shiftr v (4 * j)) 15) = Z.shiftr v (4 * j).
Proof.
  unfold is_u32. intros Hv Hj. set (w := Z.shiftr v (4 * j)).
  assert (0 ≤ w ≤ v) as Hw.
  { unfold w. rewrite Z.shiftr_div_pow2 by lia. split; [apply Z.div_pos; lia|].
    apply Z.div_le_upper_bound; [lia|]. pose proof (Z.pow_pos_nonneg 2 (4 * j)). nia. }
  replace (Z.shiftr v (4 * (j + 1))) with (Z.shiftr w 4) by (unfold w; rewrite Z.shiftr_shiftr by lia; f_equal; lia).
  assert (Z.shiftl (Z.shiftr w 4) 4 = Z.ldiff w 15) as ->.
  { change 15 with (Z.ones 4). symmetry. apply Z.ldiff_ones_r. lia. }
  assert (Z.ldiff w 15 = w / 16 * 16) as Ed.
  { change 15 with (Z.ones 4). rewrite Z.ldiff_ones_r, Z.shiftl_mul_pow2, Z.shiftr_div_pow2 by lia. done. }
  assert (0 ≤ Z.ldiff w 15 ≤ w) by (rewrite Ed; word_lia).
  rewrite u32_small by lia. apply Z.lor_ldiff_and.
Qed.

(** The boot counter's encoding is faithful: parsing the eight digits written for a
    number gives the number back. *)
Theorem parse_format_hex32 v : is_u32 v → parse_hex32 (format_hex32 v) = v.
Proof.
  intros Hv.
  change (format_hex32 v) with ((λ j, hex_digit (Z.land (Z.shiftr v (4 * j)) 15)) <$> [7; 6; 5; 4; 3; 2; 1; 0]).
  assert (∀ j text, 0 ≤ j →
    parse_hex_from (Z.shiftr v (4 * (j + 1))) (hex_digit (Z.land (Z.shiftr v (4 * j)) 15) :: text)
    = parse_hex_from (Z.shiftr v (4 * j)) text) as Hstep.
  { intros j text Hj. cbn [parse_hex_from]. rewrite hex_digit_roundtrip; [by rewrite hex_step|].
    change 15 with (Z.ones 4). rewrite Z.land_ones by lia. by apply Z.mod_pos_bound. }
  unfold parse_hex32. replace 0 with (Z.shiftr v (4 * (7 + 1))) at 1.
  2:{ rewrite Z.shiftr_div_pow2 by lia. unfold is_u32 in Hv. by apply Z.div_small. }
  cbn [fmap list_fmap].
  rewrite (Hstep 7), (Hstep 6), (Hstep 5), (Hstep 4), (Hstep 3), (Hstep 2), (Hstep 1), (Hstep 0) by done.
  apply Z.shiftr_0_r.
Qed.

Lemma parse_format_hex32_witness : parse_hex32 (format_hex32 3735928559) = 3735928559.
Proof. apply (parse_format_hex32 3735928559). split; [discriminate|reflexivity]. Defined.
