(* ===== verification/VfsHeap.v ===== *)
(** * The kernel heap below the file system

    The heap of [kheap.c] keeps the laws that [VfsFiles] asks of a heap, so the theorems
    about files and pipes hold over it; and concrete instances of them. *)

From stdpp Require Import strings gmap.
From S2P Require Import Prelude Mem Palloc Paging Kheap Block Vnode Simplefs SimplefsData Bootinfo Trace Vfs VfsPath VfsFiles VfsBoot.

Local Open Scope Z_scope.
Local Open Scope c_scope.

#[export] Instance kheap_heap : KernelHeap kheap :=
  {| heap_kmalloc := kmalloc; heap_kzalloc := kzalloc; heap_kfree := kfree |}.

(** The payload addresses in use are [X]. *)
Definition kheap_live (h : kheap) (X : gset Z) : Prop :=
  truthy (kheap_ready h) = true ∧
  ∃ bs, heap_ok h bs ∧ ∀ a, a ∈ X ↔ a ∈ ((payloads KERNEL_HEAP_BASE bs).*1).

Lemma outcome_live h X bs size p h' :
  heap_ok h bs → truthy (kheap_ready h) = true → (∀ a, a ∈ X ↔ a ∈ ((payloads KERNEL_HEAP_BASE bs).*1)) →
  0 < size → kmalloc_outcome h bs size p h' →
  p = 0 ∧ kheap_live h' X ∨ p ≠ 0 ∧ p ∉ X ∧ kheap_live h' ({[p]} ∪ X).
Proof.
  intros Hok Hr HX Hs (Hr'&_&[[-> Hok']|(n&bs'&Hn&_&Hlo&_&Hok'&Hperm&Hdis)]).
  { left. split; [done|]. split; [by rewrite Hr'|]. by exists bs. }
  right. assert (KERNEL_HEAP_BASE = 4160749568) as HB by done. split_and!.
  - lia.
  - rewrite HX. intros ([q k]&->&Hin)%list_elem_of_fmap. simpl in *.
    pose proof (payload_range _ _ _ _ _ _ _ (ho_seg _ _ Hok) Hin). apply Hdis in Hin. lia.
  - split; [by rewrite Hr'|]. exists bs'. split; [done|]. intros a. rewrite Hperm. simpl.
    rewrite elem_of_union, elem_of_singleton, elem_of_cons, HX. done.
Qed.

#[export] Instance kheap_laws : KernelHeapLaws kheap_live.
Proof.
  split.
  - intros h X size [Hr (bs&Hok&HX)] Hs.
    destruct (kmalloc_outcome_holds h bs size Hok Hr ltac:(unfold KMALLOC_MAX; lia)) as (p&h'&E&Ho).
    exists p, h'. split; [done|]. eapply outcome_live; try done. lia.
  - intros h X size [Hr (bs&Hok&HX)] Hs.
    destruct (kzalloc_outcome h bs size Hok Hr ltac:(unfold KMALLOC_MAX; lia)) as (p&h'&E&Ho&_).
    exists p, h'. split; [done|]. eapply outcome_live; try done. lia.
  - intros h X a [Hr (bs&Hok&HX)] Ha. apply HX in Ha as ([p n]&->&Hin)%list_elem_of_fmap. simpl.
    destruct (kfree_outcome h bs p n Hok Hin) as (bs'&Hok'&Hperm&_).
    split; [cbn [heap_kfree kheap_heap]; unfold kfree; by destruct (p =? 0)|]. exists bs'. split; [done|]. intros a.
    rewrite elem_of_difference, elem_of_singleton, HX, Hperm. simpl. rewrite elem_of_cons.
    split; [intros [[->|?] ?]; done|]. intros Ha. split; [by right|]. intros ->.
    apply list_elem_of_fmap in Ha as ([q k]&Eq&Hin'). simpl in Eq. subst q.
    pose proof (payloads_disjoint _ _ _ _ _ [] p n p k _ (ho_seg _ _ Hok) Hperm Hin') as Hd.
    pose proof (payload_range _ _ _ _ _ _ _ (ho_seg _ _ Hok) Hin).
    pose proof (payload_range _ _ _ _ _ _ _ (ho_seg _ _ Hok') Hin'). lia.
Qed.

(** ** A running system *)

(** A keyboard with a line of waiting characters, and what the console has shown. *)
#[export] Instance list_console : ConsoleIO (list Z * list Z) :=
  {| input_poll o := o;
     input_try_read_char '(i, o) := match i with c :: i => (Some c, (i, o)) | [] => (None, (i, o)) end;
     console_write_len bytes '(i, o) := (i, o ++ bytes) |}.

(** A mounted system with no open file. *)
Definition demo_vfs : vfs (carray Z) kheap (list Z * list Z) :=
  {| fs := demo_fs; console_inode := initial_console_inode; tty_inode := initial_tty_inode;
     pipes := λ _, new_pipe 0; file_table := Some (λ _, zero_file); root_inode := Some (IP_node 0);
     root_writable := 1; root_device := Some mem_disk;
     blocks := {| devices := λ _, None; controllers := λ _, None |};
     heap := w_heap; io := ([], []) |}.

(** With a pipe, whose ends are the files 0 and 1. *)
Definition piped_vfs : vfs (carray Z) kheap (list Z * list Z) :=
  match vfs_create_pipe true demo_vfs with Some (_, _, _, v) => v | None => demo_vfs end.

Lemma demo_vfs_ok : files_ok kheap_live ∅ demo_vfs.
Proof.
  assert (∀ b, b zero_file = false → opens_if b demo_vfs = 0) as H0.
  { intros b Hb. unfold opens_if. apply count_range_zero. intros f _. exact Hb. }
  split; try done.
  - split; [done|]. exists [(16368, true)]. split; [apply w_heap_ok|]. intros a. simpl. set_solver.
  - intros p Hp. rewrite H0 by done. split.
    + destruct p as [i|a| |]; try done. cbn. unfold node_vfs. cbn. unfold demo_node. by destruct (i =? 1).
    + intros a. destruct p as [i|b| |]; try done. cbn. unfold node_vfs. cbn. unfold demo_node. by destruct (i =? 1).
Qed.

Lemma piped_vfs_created : pipe_created kheap_live ∅ demo_vfs 0 1 (KERNEL_HEAP_BASE + 16) piped_vfs.
Proof.
  destruct (create_pipe_cases kheap_live ∅ demo_vfs demo_vfs_ok) as (r&rf&wf&v'&E&H).
  assert ((λ '(r, rf, wf, v), (r, rf, wf, f_inode (file_at 0 v))) <$> vfs_create_pipe true demo_vfs
    = Some (0, Some 0, Some 1, Some (IP_pipe (KERNEL_HEAP_BASE + 16)))) as Hv by by vm_compute.
  rewrite E in Hv. injection Hv as -> -> -> Hi. destruct H as [(?&_)|(_&f&g&a&[= <-]&[= <-]&Hc)]; [done|].
  assert (piped_vfs = v') as -> by (unfold piped_vfs; by rewrite E).
  rewrite (pc_read _ _ _ _ _ _ _ Hc) in Hi. injection Hi as ->. exact Hc.
Qed.

Lemma piped_vfs_ok : files_ok kheap_live {[KERNEL_HEAP_BASE + 16]} piped_vfs.
Proof.
  pose proof (pc_ok _ _ _ _ _ _ _ piped_vfs_created) as H.
  replace ({[KERNEL_HEAP_BASE + 16]} ∪ ∅ : gset Z) with ({[KERNEL_HEAP_BASE + 16]} : gset Z) in H by set_solver.
  exact H.
Qed.

Lemma vfs_create_pipe_spec_witness :
  ∃ f g a v', vfs_create_pipe true demo_vfs = Some (0, Some f, Some g, v') ∧
  pipe_created kheap_live ∅ demo_vfs f g a v'.
Proof.
  destruct (vfs_create_pipe_spec kheap_live ∅ demo_vfs demo_vfs_ok) as (r&rf&wf&v'&E&[(->&_)|(->&f&g&a&->&->&Hc)]).
  - assert ((λ '(r, _, _, _), r) <$> vfs_create_pipe true demo_vfs = Some 0) as Hv by by vm_compute.
    rewrite E in Hv. discriminate Hv.
  - by exists f, g, a, v'.
Defined.

(** A write of three bytes, then a read of two. *)
Definition wrote_vfs := (vfs_pipe_write (Some 1) (Some (λ k, 65 + k)) 3 piped_vfs).2.

Lemma pipe_refines_queue_witness :
  queue (pipes wrote_vfs (KERNEL_HEAP_BASE + 16)) = [65; 66; 67] ∧
  (vfs_pipe_read (Some 0) (Some (λ _, 0)) 2 wrote_vfs).1.1 = 2.
Proof.
  split.
  - pose proof (pipe_refines_queue 1 (KERNEL_HEAP_BASE + 16) piped_vfs (λ k, 65 + k) 3) as H.
    destruct H as [H _]; [split; [by vm_compute|by split; vm_compute]|done|].
    specialize (H ltac:(by vm_compute) ltac:(by vm_compute)). unfold wrote_vfs.
    destruct (vfs_pipe_write _ _ _ _) as [r v']. destruct H as (_&p'&->&_&Eq&_). cbn.
    rewrite arr_get_set_eq, Eq. by vm_compute.
  - pose proof (pipe_refines_queue 0 (KERNEL_HEAP_BASE + 16) wrote_vfs (λ _, 0) 2) as H.
    destruct H as [_ H]; [split; [by vm_compute|by split; vm_compute]|done|].
    specialize (H ltac:(by vm_compute)). destruct (vfs_pipe_read _ _ _ _) as [[r b] v'].
    destruct H as (Er&_). cbn [fst]. rewrite Er. by vm_compute.
Defined.

(** After a write the read end goes away, and then the write end. *)
Lemma vfs_files_reachable_witness :
  ∃ X, files_ok kheap_live X (vfs_close_file (Some 1) (vfs_close_file (Some 0) wrote_vfs)).
Proof.
  unfold wrote_vfs. apply (vfs_files_reachable kheap_live {[KERNEL_HEAP_BASE + 16]} piped_vfs); [apply piped_vfs_ok| |].
  - split; [intros k a; by vm_compute|intros a; by vm_compute].
  - eapply rtc_l; [by apply (step_pipe_write 1 (λ k, 65 + k) 3)|].
    eapply rtc_l; [by apply (step_close 0)|]. eapply rtc_l; [by apply (step_close 1)|]. apply rtc_refl.
Defined.

(** Closing the read end keeps the pipe. *)
Lemma vfs_close_file_spec_witness :
  files_ok kheap_live {[KERNEL_HEAP_BASE + 16]} (vfs_close_file (Some 0) piped_vfs) ∧
  file_at 0 (vfs_close_file (Some 0) piped_vfs) = zero_file.
Proof.
  pose proof (vfs_close_file_spec kheap_live {[KERNEL_HEAP_BASE + 16]} 0 piped_vfs piped_vfs_ok
    ltac:(by vm_compute) ltac:(by vm_compute)) as [Hok Hg]. split; [|by rewrite Hg].
  assert (after_close {[KERNEL_HEAP_BASE + 16]} 0 piped_vfs = {[KERNEL_HEAP_BASE + 16]}) as E; [|by rewrite E in Hok].
  unfold after_close. rewrite (pc_read _ _ _ _ _ _ _ piped_vfs_created). by vm_compute.
Defined.

Lemma piped_refs_room : refs_room (λ i, Some (i mod 2)) 3 piped_vfs.
Proof.
  intros f Hf. destruct (decide (f = 0)) as [->|H0]; [by vm_compute|].
  destruct (decide (f = 1)) as [->|H1]; [by vm_compute|]. exfalso. unfold occurrences in Hf.
  rewrite (proj2 (count_range_zero _ _ _)) in Hf; [lia|]. intros i Hi. apply bool_decide_false. intros [= E].
  pose proof (Z.mod_pos_bound i 2). lia.
Qed.

(** A table of three descriptors, two of them the same end. *)
Lemma vfs_clone_detach_witness :
  let '(r, d, v) := vfs_clone_fds (Some (λ _, None)) (Some (λ i, Some (i mod 2))) 3 piped_vfs in
  r = 0 ∧ f_ref_count (file_at 0 v) = 3 ∧ file_at 0 (vfs_detach_fds d 3 v).2 = file_at 0 piped_vfs.
Proof.
  pose proof (vfs_clone_detach piped_vfs (λ i, Some (i mod 2)) 3 (λ _, None)
    (to_table _ _ _ _ piped_vfs_ok) ltac:(done) piped_refs_room) as H.
  destruct (vfs_clone_fds _ _ _ _) as [[r d] v]. destruct H as (Hr&[_ [_ Hs]]&t&_&_&t'&_&_&_&Hg).
  split_and!; [done| |apply Hg]. rewrite Hs. by vm_compute.
Defined.

(** ** A boot from the module *)

(** A storage of memory and one disk; no driver finds a controller. *)
#[export] Instance no_drivers : DiskDrivers (carray Z * carray Z) :=
  {| pci_init s := s; ahci_init bs s := (-1, bs, s); ata_init bs s := (-1, bs, s) |}.

Definition put_words (m : carray Z) (a : Z) (ws : list Z) : carray Z :=
  (foldl (λ '(m, a) w, (store32 m a w, a + 4)) (m, a) ws).1.

Definition put_text (m : carray Z) (a : Z) (text : list Z) : carray Z :=
  (foldl (λ '(m, a) c, (<[a := c]> m, a + 1)) (m, a) text).1.

(** A file system of eight blocks at 8192 whose root has the one directory [dev], and the
    description of the module at 4096. *)
Definition boot_memory : carray Z :=
  let m := put_words (λ _, 0) 4096 [8192; 12288; 0; 0] in
  let m := put_words m 8192
    [SIMPLEFS_MAGIC; SIMPLEFS_VERSION; 512; 8; 2; 1; 1; 2; 1; 3; 1; 4; 0; 0] in
  let m := put_words m (8192 + 512) [SIMPLEFS_INODE_DIR; 32; 4; 1; 1; 493; 0; 0; SIMPLEFS_INODE_DIR; 0; 0; 0; 0; 493; 0; 0] in
  let m := put_words (put_words m (8192 + 1024) [3]) (8192 + 1536) [31] in
  put_text (put_words m (8192 + 2048) [1]) (8192 + 2052) [100; 101; 118].

Definition booting : boot_state (St := carray Z * carray Z) (Hp := kheap) (Io := list Z * list Z) :=
  {| files := {| fs := {| runtime_inodes := fresh_node; runtime_dir_entries := λ _, null_entry;
                          inode_table_image := λ _, 0; mounted_device := None; mounted_superblock := demo_superblock;
                          inode_bitmap := λ _, 0; block_bitmap := λ _, 0; mounted_inode_count := 0;
                          next_dir_entry_slot := 0; block_scratch := λ _, 0; storage := (boot_memory, λ _, 0) |};
                 console_inode := initial_console_inode; tty_inode := initial_tty_inode; pipes := λ _, new_pipe 0;
                 file_table := None; root_inode := None; root_writable := 0; root_device := None;
                 blocks := no_devices; heap := w_heap; io := ([], []) |};
     boot_disk := None; boot_partition_name := None; storage_initialized := 0;
     traces := {| trace_ring := λ _, zero_record; trace_next_sequence := 0; trace_count := 0; trace_ready := 1 |} |}.

Definition auto_options : bootinfo :=
  {| root_policy_value := BOOT_ROOT_AUTO; boot_flags_value := 1; framebuffer_info_value := no_framebuffer |}.

Abbreviation booted := (vfs_init fst 0 (λ _, 0) 10 (Some module_info) auto_options booting).

Lemma w_heap_live : kheap_live w_heap ∅.
Proof. split; [done|]. exists [(16368, true)]. split; [apply w_heap_ok|]. intros a. simpl. set_solver. Qed.

Definition boot_report (b : boot_state (St := carray Z * carray Z) (Hp := kheap) (Io := list Z * list Z)) :=
  (root_inode (files b), (vfs_open_path true console_path VFS_O_RDONLY None (files b)).1.1).

Lemma booted_report : boot_report <$> booted = Some (Some (IP_node 0), 0).
Proof. by vm_compute. Qed.

(** The console can be opened after the boot. *)
Lemma vfs_init_spec_witness :
  ∃ b X, booted = Some b ∧ files_ok kheap_live X (files b) ∧
  (vfs_open_path true console_path VFS_O_RDONLY None (files b)).1.1 = 0.
Proof.
  destruct (fmap_Some_1 _ _ _ booted_report) as (b&E&[= Hroot Hopen]).
  destruct (vfs_init_spec fst 0 (λ _, 0) kheap_live ∅ 10 (Some module_info) auto_options booting b
    w_heap_live (λ _, ltac:(discriminate)) (λ _, ltac:(discriminate)) E (mk_is_Some _ _ (eq_sym Hroot))) as ([X Hok]&_).
  exists b, X. split; [exact E|]. split; [exact Hok|]. symmetry. exact Hopen.
Defined.

(** A system running from the module with an empty disk of the same size. *)
Definition module_disk : block_device (carray Z * carray Z) :=
  rootfs_ramdisk fst (c_bytes "rootfs0") {| base := 8192; byte_length := 4096 |}.

#[export] Instance module_disk_device : BlockDevice module_disk (λ s k, s.1 (8192 + k)).
Proof. apply (ramdisk_device fst (c_bytes "rootfs0") {| base := 8192; byte_length := 4096 |}); done. Qed.

Definition disk_partition : block_device (carray Z * carray Z) :=
  {| name := Some (c_bytes "ahci0p2"); block_size := 512; block_count := 8; read_only := 0;
     read := Some (λ i n buf s, (0, copy_bytes buf 0 s.2 (i * 512) (n * 512)));
     write := Some (λ i n buf s, (0, (s.1, copy_bytes s.2 (i * 512) buf 0 (n * 512)))); controller := None |}.

#[export] Instance disk_partition_device : BlockDevice disk_partition snd.
Proof.
  split; [done|simpl; lia|..].
  - eexists. split; [reflexivity|]. intros i n buf s Hi Hn Hin. split; [done|]. intros k Hk. simpl.
    unfold SIMPLEFS_BLOCK_SIZE in *. apply copy_bytes_out. lia.
  - intros op [= <-] i n buf s Hi Hn Hin. split; [done|]. intros k Hk. simpl.
    unfold SIMPLEFS_BLOCK_SIZE in *. apply copy_bytes_out. lia.
Qed.

Definition recovering : boot_state (St := carray Z * carray Z) (Hp := kheap) (Io := list Z * list Z) :=
  let v := files booting in
  let bs := {| devices := λ i, if i =? 0 then Some module_disk else if i =? 1 then Some disk_partition else None;
               controllers := λ _, None |} in
  {| files := with_blocks bs (with_root None 0 (Some module_disk) v);
     boot_disk := Some disk_partition; boot_partition_name := Some (c_bytes "ahci0p2"); storage_initialized := 1;
     traces := traces booting |}.

Lemma reinstall_report :
  fst <$> vfs_reinstall_rootfs 0 (λ _, 0) 2 auto_options recovering = Some 0.
Proof. by vm_compute. Qed.

Lemma recovering_ensure : vfs_ensure_disk_rootfs_device 0 (λ _, 0) recovering = (0, Some disk_partition, recovering).
Proof. reflexivity. Qed.

(** The module arrives on the disk. *)
Lemma vfs_reinstall_rootfs_spec_witness :
  ∃ b', vfs_reinstall_rootfs 0 (λ _, 0) 2 auto_options recovering = Some (0, b') ∧
  ∀ k, 0 ≤ k < 4096 → (storage (fs (files b'))).2 k = boot_memory (8192 + k).
Proof.
  destruct (vfs_reinstall_rootfs_spec 0 (λ _, 0) kheap_live module_disk disk_partition
    (λ s k, s.1 (8192 + k)) snd ∅ 2 auto_options recovering recovering w_heap_live) as (r&b'&E&_&_&Hcopy).
  - intros op [= <-] i n buf s k. reflexivity.
  - vm_compute. discriminate.
  - vm_compute. discriminate.
  - reflexivity.
  - exact recovering_ensure.
  - pose proof reinstall_report as Hv. rewrite E in Hv. injection Hv as ->. exists b'. split; [exact E|].
    destruct (Hcopy eq_refl) as [_ Hk]. exact Hk.
Defined.
