(* ===== verification/Exec.v ===== *)
(** * Program loading ([src/kernel/exec.c])

    The ELF loader, the user stack with its arguments, the copy-on-write copy of an
    image and its release.  The loader reads files, so its state is the file system;
    the machine (physical memory, page tables and frames) is inside the heap, which
    maps its pages through it ([KernelMachine]). *)

From stdpp Require Import strings.
From S2P Require Import Prelude Mem Palloc Paging Usercopy Kheap Block Vnode Simplefs Vfs.

Local Open Scope Z_scope.
Local Open Scope c_scope.

Definition ELF_CLASS_32 : Z := 1.
Definition ELF_DATA_LSB : Z := 1.
Definition ELF_MACHINE_386 : Z := 3.
Definition ELF_TYPE_EXEC : Z := 2.
Definition ELF_PROGRAM_LOAD : Z := 1.
Definition ELF_FLAG_WRITE : Z := 2.
Definition ELF_MAX_PROGRAM_HEADERS : Z := 8.
Definition EXEC_MAX_MAPPED_PAGES : Z := 32.
Definition EXEC_USER_STACK_TOP : Z := 8388608.
Definition EXEC_MAX_ARGS : Z := 8.
Definition EXEC_ARG_MAX : Z := 64.
Definition sizeof_elf32_header : Z := 52.
Definition sizeof_elf32_program_header : Z := 32.

(** The fields that are read. *)
Record elf32_header := {
  eh_ident : list Z; eh_type : Z; eh_machine : Z; eh_entry : Z; eh_phoff : Z; eh_phentsize : Z; eh_phnum : Z;
}.

Definition elf32_header_at (m : carray Z) : elf32_header :=
  {| eh_ident := m <$> seqZ 0 16; eh_type := load16 m 16; eh_machine := load16 m 18; eh_entry := load32 m 24;
     eh_phoff := load32 m 28; eh_phentsize := load16 m 42; eh_phnum := load16 m 44 |}.

Record elf32_program_header := {
  ph_type : Z; ph_offset : Z; ph_vaddr : Z; ph_filesz : Z; ph_memsz : Z; ph_flags : Z;
}.

Definition elf32_program_header_at (m : carray Z) (a : Z) : elf32_program_header :=
  {| ph_type := load32 m a; ph_offset := load32 m (a + 4); ph_vaddr := load32 m (a + 8);
     ph_filesz := load32 m (a + 16); ph_memsz := load32 m (a + 20); ph_flags := load32 m (a + 24) |}.

Record exec_image := {
  entry_point : Z;
  image_stack_top : Z;
  mapped_virtuals : carray Z;
  mapped_pages : carray Z;
  mapped_page_count : Z;
}.

Definition with_stack_top (x : Z) (i : exec_image) : exec_image :=
  {| entry_point := entry_point i; image_stack_top := x; mapped_virtuals := mapped_virtuals i;
     mapped_pages := mapped_pages i; mapped_page_count := mapped_page_count i |}.
Definition with_entry_point (x : Z) (i : exec_image) : exec_image :=
  {| entry_point := x; image_stack_top := image_stack_top i; mapped_virtuals := mapped_virtuals i;
     mapped_pages := mapped_pages i; mapped_page_count := mapped_page_count i |}.

Definition align_down (value alignment : Z) : Z := Z.land value (not32 (alignment - 1)).

Definition exec_reset_image (i : exec_image) : exec_image :=
  {| entry_point := 0; image_stack_top := 0;
     mapped_virtuals := arr_fill 0 EXEC_MAX_MAPPED_PAGES 0 (mapped_virtuals i);
     mapped_pages := arr_fill 0 EXEC_MAX_MAPPED_PAGES 0 (mapped_pages i); mapped_page_count := 0 |}.

Definition zero_user_page (physical_address : Z) (s : vm) : vm := zero_page physical_address s.

(** Each turn writes at least one byte, so [length] turns are enough. *)
Fixpoint exec_write_loop (fuel : nat) (directory_phys virtual_address : Z) (src : carray Z)
    (length written : Z) (s : vm) : Z * vm :=
  if written <? length then
    match fuel with
    | O => (-1, s)
    | S fuel =>
        let cursor := virtual_address ⊞ written in
        let physical_page := paging_resolve_physical_in directory_phys cursor s in
        if physical_page =? 0 then (-1, s)
        else
          let page_offset := Z.land cursor (PAGE_SIZE - 1) in
          let chunk := PAGE_SIZE ⊟ page_offset in
          let chunk := if length ⊟ written <? chunk then length ⊟ written else chunk in
          exec_write_loop fuel directory_phys virtual_address src length (written ⊞ chunk)
            (with_pmem (copy_bytes (pmem s) (physical_page ⊞ page_offset) src written chunk) s)
    end
  else (0, s).

Definition exec_write_user (directory_phys virtual_address : Z) (src : carray Z) (length : Z) (s : vm) : Z * vm :=
  exec_write_loop (Z.to_nat length) directory_phys virtual_address src length 0 s.

Definition exec_track_mapping (i : exec_image) (virtual_address physical_address : Z) : Z * exec_image :=
  if EXEC_MAX_MAPPED_PAGES <=? mapped_page_count i then (-1, i)
  else (0, {| entry_point := entry_point i; image_stack_top := image_stack_top i;
              mapped_virtuals := <[mapped_page_count i := virtual_address]> (mapped_virtuals i);
              mapped_pages := <[mapped_page_count i := physical_address]> (mapped_pages i);
              mapped_page_count := mapped_page_count i ⊞ 1 |}).

Definition exec_mapping_flags (page_flags : Z) : Z :=
  let fl := PAGE_USER in
  let fl := if truthy (Z.land page_flags PAGE_WRITABLE) then Z.lor fl PAGE_WRITABLE else fl in
  if truthy (Z.land page_flags PAGE_COPY_ON_WRITE) then Z.lor fl PAGE_COPY_ON_WRITE else fl.

(** The first seven bytes: [0x7F], the letters ELF, and the three numbers. *)
Definition ELF_IDENT : list Z := [127; 69; 76; 70; ELF_CLASS_32; ELF_DATA_LSB; 1].

Definition exec_validate_header (h : elf32_header) (image_length : Z) : Z :=
  if image_length <? sizeof_elf32_header then -1
  else if negb (bool_decide (take 7 (eh_ident h) = ELF_IDENT)) then -1
  else if negb (eh_type h =? ELF_TYPE_EXEC) || negb (eh_machine h =? ELF_MACHINE_386) then -1
  else if negb (eh_phentsize h =? sizeof_elf32_program_header) || (eh_phnum h =? 0) then -1
  else
    let ph_end := eh_phoff h ⊞ (eh_phnum h ⊠ eh_phentsize h) in
    if (ph_end <? eh_phoff h) || (image_length <? ph_end) then -1 else 0.

Definition exec_segment_in_user_range (p : elf32_program_header) : bool :=
  let stack_guard := EXEC_USER_STACK_TOP - PAGE_SIZE in
  if ph_memsz p <? ph_filesz p then false
  else
    let segment_start := ph_vaddr p in
    let segment_end := segment_start ⊞ ph_memsz p in
    if segment_end <? segment_start then false
    else negb ((segment_start <? USER_VIRT_BASE) || (stack_guard <? segment_end)).

Definition free_page (page : Z) (s : vm) : vm := with_frames (palloc_free_page page (frames s)) s.

(** A zeroed frame mapped at [va] and entered in the image; [false] after the clean-up
    of a failure. *)
Definition map_fresh_page (directory_phys va fl : Z) (i : exec_image) (s : vm) : bool * exec_image * vm :=
  let '(physical_page, s) := paging_alloc_page s in
  if physical_page =? 0 then (false, i, s)
  else
    let s := zero_user_page physical_page s in
    let '(r, s) := paging_map_page_in directory_phys va physical_page fl s in
    if truthy r then (false, i, free_page physical_page s)
    else
      let '(r, i) := exec_track_mapping i va physical_page in
      if truthy r then (false, i, free_page physical_page (paging_unmap_page_in directory_phys va s))
      else (true, i, s).

(** The first loop of [exec_map_segment], [n] pages to go. *)
Fixpoint map_segment_pages (n : nat) (directory_phys segment_page fl : Z) (i : exec_image) (s : vm)
    : bool * exec_image * vm :=
  match n with
  | O => (true, i, s)
  | S n =>
      if truthy (paging_resolve_physical_in directory_phys segment_page s) then (false, i, s)
      else
        let '(ok, i, s) := map_fresh_page directory_phys segment_page fl i s in
        if negb ok then (false, i, s)
        else map_segment_pages n directory_phys (segment_page ⊞ PAGE_SIZE) fl i s
  end.

Definition exec_map_stack (directory_phys : Z) (i : exec_image) (s : vm) : Z * exec_image * vm :=
  let '(ok, i, s) := map_fresh_page directory_phys (EXEC_USER_STACK_TOP - PAGE_SIZE)
                       (Z.lor PAGE_USER PAGE_WRITABLE) i s in
  if ok then (0, with_stack_top EXEC_USER_STACK_TOP i, s) else (-1, i, s).

(** ** The initial stack *)

(** One word pushed below [stack_pointer]; [None] when it does not fit. *)
Definition push_word (directory_phys stack_base stack_pointer value : Z) (s : vm) : option Z * vm :=
  let stack_pointer := stack_pointer ⊟ 4 in
  if stack_pointer <? stack_base then (None, s)
  else
    let '(r, s) := exec_write_user directory_phys stack_pointer (store32 (λ _, 0) 0 value) 4 s in
    (if truthy r then None else Some stack_pointer, s).

(** A C string with its final zero, as the bytes at its address. *)
Definition string_bytes (text : list Z) : carray Z := λ k, default 0 (text !! Z.to_nat k).

(** The first loop of [exec_prepare_stack], [n] strings to go: the stack pointer and the
    addresses of the strings. *)
Fixpoint push_strings (n : nat) (directory_phys stack_base stack_pointer index : Z)
    (argv : option (carray (option (list Z)))) (arg_addresses : carray Z) (s : vm)
    : option (Z * carray Z) * vm :=
  match n with
  | O => (Some (stack_pointer, arg_addresses), s)
  | S n =>
      match argv ≫= (λ argv : carray (option (list Z)), argv index) with
      | None => (None, s)
      | Some text =>
          let length := Z.of_nat (Datatypes.length text) + 1 in
          if EXEC_ARG_MAX <? length then (None, s)
          else
            let stack_pointer := stack_pointer ⊟ length in
            if stack_pointer <? stack_base then (None, s)
            else
              let '(r, s) := exec_write_user directory_phys stack_pointer (string_bytes text) length s in
              if truthy r then (None, s)
              else push_strings n directory_phys stack_base stack_pointer (index + 1) argv
                     (<[index := stack_pointer]> arg_addresses) s
      end
  end.

(** The second loop: the pointers to the strings [index - 1], ..., 0. *)
Fixpoint push_pointers (index : nat) (directory_phys stack_base stack_pointer : Z) (arg_addresses : carray Z)
    (s : vm) : option Z * vm :=
  match index with
  | O => (Some stack_pointer, s)
  | S index =>
      match push_word directory_phys stack_base stack_pointer (arg_addresses (Z.of_nat index)) s with
      | (None, s) => (None, s)
      | (Some stack_pointer, s) => push_pointers index directory_phys stack_base stack_pointer arg_addresses s
      end
  end.

Definition exec_prepare_stack (directory_phys : Z) (image : option exec_image)
    (argv : option (carray (option (list Z)))) (argc : Z) (s : vm) : Z * option exec_image * vm :=
  let stack_base := EXEC_USER_STACK_TOP - PAGE_SIZE in
  match image with
  | None => (-1, None, s)
  | Some i =>
      if (directory_phys =? 0) || (EXEC_MAX_ARGS <? argc) then (-1, image, s)
      else
        match push_strings (Z.to_nat argc) directory_phys stack_base EXEC_USER_STACK_TOP 0 argv (λ _, 0) s with
        | (None, s) => (-1, image, s)
        | (Some (stack_pointer, arg_addresses), s) =>
            match push_word directory_phys stack_base (Z.land stack_pointer (not32 3)) 0 s with
            | (None, s) => (-1, image, s)
            | (Some stack_pointer, s) =>
                match push_pointers (Z.to_nat argc) directory_phys stack_base stack_pointer arg_addresses s with
                | (None, s) => (-1, image, s)
                | (Some stack_pointer, s) =>
                    match push_word directory_phys stack_base stack_pointer argc s with
                    | (None, s) => (-1, image, s)
                    | (Some stack_pointer, s) => (0, Some (with_stack_top stack_pointer i), s)
                    end
                end
            end
        end
  end.

(** ** Release and copy *)

Definition release_mapping (directory_phys va : Z) (s : vm) : vm :=
  match paging_lookup_page_in directory_phys va s with
  | Some (physical_page, _) => free_page physical_page (paging_unmap_page_in directory_phys va s)
  | None => s
  end.

Definition exec_release_image (directory_phys : Z) (image : option exec_image) (s : vm) : option exec_image * vm :=
  match image with
  | None => (None, s)
  | Some i =>
      (Some (exec_reset_image i),
       for_range 0 (mapped_page_count i) (λ index, release_mapping directory_phys (mapped_virtuals i index)) s)
  end.

(** The flags of a copied page: a writable page becomes copy-on-write in both spaces. *)
Definition clone_flags (page_flags : Z) : Z :=
  let fl := exec_mapping_flags page_flags in
  if truthy (Z.land fl PAGE_WRITABLE) then Z.lor (Z.land fl (not32 PAGE_WRITABLE)) PAGE_COPY_ON_WRITE else fl.

(** One turn of the loop of [exec_clone_image]: [false] for a failure, with the parts of
    the turn undone. *)
Definition clone_page (source_dir target_dir va : Z) (target : exec_image) (s : vm) : bool * exec_image * vm :=
  match paging_lookup_page_in source_dir va s with
  | None => (false, target, s)
  | Some (source_page, page_flags) =>
      let target_flags := clone_flags page_flags in
      let '(r, s) := if truthy (Z.land (exec_mapping_flags page_flags) PAGE_WRITABLE)
                     then paging_map_page_in source_dir va source_page target_flags s else (0, s) in
      if truthy r then (false, target, s)
      else
        let '(r, p) := palloc_retain_page source_page (frames s) in
        let s := with_frames p s in
        if truthy r then (false, target, s)
        else
          let '(r, s) := paging_map_page_in target_dir va source_page target_flags s in
          if truthy r then (false, target, free_page source_page s)
          else
            let '(r, target) := exec_track_mapping target va source_page in
            if truthy r then (false, target, free_page source_page (paging_unmap_page_in target_dir va s))
            else (true, target, s)
  end.

Fixpoint clone_pages (n : nat) (index source_dir target_dir : Z) (source target : exec_image) (s : vm)
    : bool * exec_image * vm :=
  match n with
  | O => (true, target, s)
  | S n =>
      let '(ok, target, s) := clone_page source_dir target_dir (mapped_virtuals source index) target s in
      if negb ok then (false, target, s)
      else clone_pages n (index + 1) source_dir target_dir source target s
  end.

Definition exec_clone_image (source_dir target_dir : Z) (source target : option exec_image) (s : vm)
    : Z * option exec_image * vm :=
  match source, target with
  | Some src, Some tgt =>
      if (source_dir =? 0) || (target_dir =? 0) then (-1, target, s)
      else
        let tgt := with_stack_top (image_stack_top src) (with_entry_point (entry_point src) (exec_reset_image tgt)) in
        let '(ok, tgt, s) := clone_pages (Z.to_nat (mapped_page_count src)) 0 source_dir target_dir src tgt s in
        if ok then (0, Some tgt, s)
        else let '(tgt, s) := exec_release_image target_dir (Some tgt) s in (-1, tgt, s)
  | _, _ => (-1, target, s)
  end.

(** ** Loading *)

(** What the loader and the processes use of the heap: the machine below it. *)
Class KernelMachine (Hp : Type) := {
  heap_vm : Hp → vm;
  set_heap_vm : vm → Hp → Hp;
  heap_vm_set s h : heap_vm (set_heap_vm s h) = s;
}.

#[export] Instance kheap_machine : KernelMachine kheap.
Proof. by refine {| heap_vm := machine; set_heap_vm := with_machine |}. Defined.

Section load.
Context {St Hp Io : Type} `{!KernelHeap Hp} `{!ConsoleIO Io} `{!KernelMachine Hp}.
Implicit Types v : vfs St Hp Io.

Definition vm_of v : vm := heap_vm (heap v).
Definition with_vm (s : vm) v : vfs St Hp Io := with_heap (set_heap_vm s (heap v)) v.

(** [fuel] bounds the length of a line of the console, [stack] is what local arrays hold
    before they are set. *)
Context (fuel : nat) (stack : carray Z).

(** [None] for a console line longer than [fuel]. *)
Definition exec_read_exact (f : Z) (offset : Z) (buffer : carray Z) (length : Z) v
    : option (Z * carray Z * vfs St Hp Io) :=
  let v := set_file f (with_f_offset offset (file_at f v)) v in
  match vfs_read_file fuel (Some f) (Some buffer) length v with
  | None => None
  | Some (read_result, buf, v) =>
      Some (if read_result =? i32 length then 0 else -1, default buffer buf, v)
  end.

(** The second loop of [exec_map_segment]; each turn copies at least one byte, so
    [filesz] turns are enough. *)
Fixpoint copy_segment_loop (turns : nat) (directory_phys f file_offset remaining_file_bytes virtual_address : Z) v
    : option (Z * vfs St Hp Io) :=
  if truthy remaining_file_bytes then
    match turns with
    | O => None
    | S turns =>
        let physical_page := paging_resolve_physical_in directory_phys virtual_address (vm_of v) in
        if physical_page =? 0 then Some (-1, v)
        else
          let page_offset := Z.land virtual_address (PAGE_SIZE - 1) in
          let chunk := PAGE_SIZE ⊟ page_offset in
          let chunk := if remaining_file_bytes <? chunk then remaining_file_bytes else chunk in
          let a := physical_page + page_offset in
          match exec_read_exact f file_offset (λ k, pmem (vm_of v) (a + k)) chunk v with
          | None => None
          | Some (r, bytes, v) =>
              let v := with_vm (with_pmem (copy_bytes (pmem (vm_of v)) a bytes 0 chunk) (vm_of v)) v in
              if truthy r then Some (-1, v)
              else copy_segment_loop turns directory_phys f (file_offset ⊞ chunk) (remaining_file_bytes ⊟ chunk)
                     (virtual_address ⊞ chunk) v
          end
    end
  else Some (0, v).

Definition exec_map_segment (directory_phys f image_length : Z) (p : elf32_program_header) (i : exec_image) v
    : option (Z * exec_image * vfs St Hp Io) :=
  if negb (exec_segment_in_user_range p) then Some (-1, i, v)
  else if image_length <? ph_offset p ⊞ ph_filesz p then Some (-1, i, v)
  else
    let segment_page := align_down (ph_vaddr p) PAGE_SIZE in
    let segment_end := Paging.align_up (ph_vaddr p ⊞ ph_memsz p) PAGE_SIZE in
    let fl := if truthy (Z.land (ph_flags p) ELF_FLAG_WRITE) then Z.lor PAGE_USER PAGE_WRITABLE else PAGE_USER in
    let '(ok, i, s) := map_segment_pages (Z.to_nat ((segment_end - segment_page) / PAGE_SIZE)) directory_phys
                         segment_page fl i (vm_of v) in
    let v := with_vm s v in
    if negb ok then Some (-1, i, v)
    else match copy_segment_loop (Z.to_nat (ph_filesz p)) directory_phys f (ph_offset p) (ph_filesz p) (ph_vaddr p) v with
         | None => None
         | Some (r, v) => Some (r, i, v)
         end.

(** The loop over the program headers, [n] to go: the number of segments loaded, [None]
    inside for a failed one. *)
Fixpoint load_segments (n : nat) (index directory_phys f image_length : Z) (headers : carray Z)
    (loadable_segments : Z) (i : exec_image) v : option (option Z * exec_image * vfs St Hp Io) :=
  match n with
  | O => Some (Some loadable_segments, i, v)
  | S n =>
      let p := elf32_program_header_at headers (sizeof_elf32_program_header * index) in
      if negb (ph_type p =? ELF_PROGRAM_LOAD) || (ph_memsz p =? 0)
      then load_segments n (index + 1) directory_phys f image_length headers loadable_segments i v
      else match exec_map_segment directory_phys f image_length p i v with
           | None => None
           | Some (r, i, v) =>
               if truthy r then Some (None, i, v)
               else load_segments n (index + 1) directory_phys f image_length headers (loadable_segments ⊞ 1) i v
           end
  end.

(** The end of a failed load. *)
Definition fail_load (directory_phys f : Z) (i : exec_image) v : Z * option exec_image * vfs St Hp Io :=
  let v := vfs_close_file (Some f) v in
  let '(i, s) := exec_release_image directory_phys (Some i) (vm_of v) in
  (-1, i, with_vm s v).

Definition exec_load_path (directory_phys : Z) (path : option (list Z)) (image : option exec_image) v
    : option (Z * option exec_image * vfs St Hp Io) :=
  match path, image with
  | Some _, Some i =>
      if directory_phys =? 0 then Some (-1, image, v)
      else
        let i := exec_reset_image i in
        match vfs_open_path true path VFS_O_RDONLY None v with
        | (r, Some f, v) =>
            let image_length := match file_inode f v with Some inode => in_size inode | None => 0 end in
            match exec_read_exact f 0 stack sizeof_elf32_header v with
            | None => None
            | Some (r, bytes, v) =>
                if truthy r then Some (-1, Some i, vfs_close_file (Some f) v)
                else
                  let h := elf32_header_at bytes in
                  if truthy (exec_validate_header h image_length) || (ELF_MAX_PROGRAM_HEADERS <? eh_phnum h)
                  then Some (-1, Some i, vfs_close_file (Some f) v)
                  else match exec_read_exact f (eh_phoff h) stack (eh_phnum h ⊠ sizeof_elf32_program_header) v with
                  | None => None
                  | Some (r, headers, v) =>
                      if truthy r then Some (-1, Some i, vfs_close_file (Some f) v)
                      else match load_segments (Z.to_nat (eh_phnum h)) 0 directory_phys f image_length headers 0 i v with
                      | None => None
                      | Some (None, i, v) => Some (fail_load directory_phys f i v)
                      | Some (Some loadable_segments, i, v) =>
                          if loadable_segments =? 0 then Some (fail_load directory_phys f i v)
                          else
                            let '(r, i, s) := exec_map_stack directory_phys i (vm_of v) in
                            let v := with_vm s v in
                            if truthy r then Some (fail_load directory_phys f i v)
                            else Some (0, Some (with_entry_point (eh_entry h) i), vfs_close_file (Some f) v)
                      end
                  end
            end
        | (_, None, v) => Some (-1, Some i, v)
        end
  | _, _ => Some (-1, image, v)
  end.

End load.
