(* ===== verification/Task.v ===== *)
(** * Tasks ([src/kernel/proc.c], data and paths)

    The task structure, the interrupt frames of [idt.h], and the functions of a single
    task: its reset, its descriptors, and the normalisation of paths against its working
    directory.  [Proc] has the operations of the kernel on the task table, [TaskPath] the
    theorems about paths. *)

From stdpp Require Import strings.
From S2P Require Import Prelude Abi Mem Palloc Paging Kstack Block Vnode Simplefs Vfs VfsPath Exec.

Local Open Scope Z_scope.
Local Open Scope c_scope.

Definition MAX_TASKS : Z := 8.
Definition TASK_EFLAGS : Z := 514.
Definition PROC_IO_CHUNK : Z := 256.
Definition PROC_PATH_MAX : Z := VFS_PATH_MAX.
Definition PROC_PATH_COMPONENT_MAX : Z := VFS_NAME_MAX.
Definition PROC_PATH_COMPONENTS_MAX : Z := 24.
Definition PROC_DEFAULT_TTY : list Z := c_bytes "/dev/console".

Inductive task_state :=
  TASK_UNUSED | TASK_RUNNABLE | TASK_RUNNING | TASK_BLOCKED | TASK_SLEEPING | TASK_ZOMBIE.
Inductive task_kind := TASK_KERNEL | TASK_USER.
Inductive task_block_reason :=
  TASK_BLOCK_NONE | TASK_BLOCK_WAITPID | TASK_BLOCK_IO_READ | TASK_BLOCK_IO_WRITE | TASK_BLOCK_NET_PING.

(** The entry points of kernel tasks. *)
Inductive task_entry := idle_entry | worker_entry.

#[export] Instance task_state_eq_dec : EqDecision task_state.
Proof. solve_decision. Defined.
#[export] Instance task_kind_eq_dec : EqDecision task_kind.
Proof. solve_decision. Defined.
#[export] Instance task_block_reason_eq_dec : EqDecision task_block_reason.
Proof. solve_decision. Defined.

(** The strings are without their final zero. *)
Record task := {
  pid : Z;
  parent_pid : Z;
  state : task_state;
  kind : task_kind;
  saved_esp : Z;
  page_directory_phys : Z;
  kstack : kernel_stack;
  image : exec_image;
  task_name : list Z;
  entry : option task_entry;
  arg : option (list Z);
  run_ticks : Z;
  switches : Z;
  exit_status : Z;
  wait_target_pid : Z;
  wait_status_user : Z;
  wake_tick : Z;
  reap_ready : Z;
  cwd : list Z;
  uid : Z;
  gid : Z;
  session_id : Z;
  process_group_id : Z;
  tty_name : list Z;
  block_reason : task_block_reason;
  blocked_fd : Z;
  blocked_user_buffer : Z;
  blocked_length : Z;
  blocked_done : Z;
  fd_table : carray (option Z);
}.

Definition with_pid (x : Z) (t : task) : task :=
  {| pid := x; parent_pid := parent_pid t; state := state t; kind := kind t; saved_esp := saved_esp t;
     page_directory_phys := page_directory_phys t; kstack := kstack t; image := image t;
     task_name := task_name t; entry := entry t; arg := arg t; run_ticks := run_ticks t;
     switches := switches t; exit_status := exit_status t; wait_target_pid := wait_target_pid t;
     wait_status_user := wait_status_user t; wake_tick := wake_tick t; reap_ready := reap_ready t;
     cwd := cwd t; uid := uid t; gid := gid t; session_id := session_id t;
     process_group_id := process_group_id t; tty_name := tty_name t; block_reason := block_reason t;
     blocked_fd := blocked_fd t; blocked_user_buffer := blocked_user_buffer t;
     blocked_length := blocked_length t; blocked_done := blocked_done t; fd_table := fd_table t |}.
Definition with_parent_pid (x : Z) (t : task) : task :=
  {| pid := pid t; parent_pid := x; state := state t; kind := kind t; saved_esp := saved_esp t;
     page_directory_phys := page_directory_phys t; kstack := kstack t; image := image t;
     task_name := task_name t; entry := entry t; arg := arg t; run_ticks := run_ticks t;
     switches := switches t; exit_status := exit_status t; wait_target_pid := wait_target_pid t;
     wait_status_user := wait_status_user t; wake_tick := wake_tick t; reap_ready := reap_ready t;
     cwd := cwd t; uid := uid t; gid := gid t; session_id := session_id t;
     process_group_id := process_group_id t; tty_name := tty_name t; block_reason := block_reason t;
     blocked_fd := blocked_fd t; blocked_user_buffer := blocked_user_buffer t;
     blocked_length := blocked_length t; blocked_done := blocked_done t; fd_table := fd_table t |}.
Definition with_state (x : task_state) (t : task) : task :=
  {| pid := pid t; parent_pid := parent_pid t; state := x; kind := kind t; saved_esp := saved_esp t;
     page_directory_phys := page_directory_phys t; kstack := kstack t; image := image t;
     task_name := task_name t; entry := entry t; arg := arg t; run_ticks := run_ticks t;
     switches := switches t; exit_status := exit_status t; wait_target_pid := wait_target_pid t;
     wait_status_user := wait_status_user t; wake_tick := wake_tick t; reap_ready := reap_ready t;
     cwd := cwd t; uid := uid t; gid := gid t; session_id := session_id t;
     process_group_id := process_group_id t; tty_name := tty_name t; block_reason := block_reason t;
     blocked_fd := blocked_fd t; blocked_user_buffer := blocked_user_buffer t;
     blocked_length := blocked_length t; blocked_done := blocked_done t; fd_table := fd_table t |}.
Definition with_kind (x : task_kind) (t : task) : task :=
  {| pid := pid t; parent_pid := parent_pid t; state := state t; kind := x; saved_esp := saved_esp t;
     page_directory_phys := page_directory_phys t; kstack := kstack t; image := image t;
     task_name := task_name t; entry := entry t; arg := arg t; run_ticks := run_ticks t;
     switches := switches t; exit_status := exit_status t; wait_target_pid := wait_target_pid t;
     wait_status_user := wait_status_user t; wake_tick := wake_tick t; reap_ready := reap_ready t;
     cwd := cwd t; uid := uid t; gid := gid t; session_id := session_id t;
     process_group_id := process_group_id t; tty_name := tty_name t; block_reason := block_reason t;
     blocked_fd := blocked_fd t; blocked_user_buffer := blocked_user_buffer t;
     blocked_length := blocked_length t; blocked_done := blocked_done t; fd_table := fd_table t |}.
Definition with_saved_esp (x : Z) (t : task) : task :=
  {| pid := pid t; parent_pid := parent_pid t; state := state t; kind := kind t; saved_esp := x;
     page_directory_phys := page_directory_phys t; kstack := kstack t; image := image t;
     task_name := task_name t; entry := entry t; arg := arg t; run_ticks := run_ticks t;
     switches := switches t; exit_status := exit_status t; wait_target_pid := wait_target_pid t;
     wait_status_user := wait_status_user t; wake_tick := wake_tick t; reap_ready := reap_ready t;
     cwd := cwd t; uid := uid t; gid := gid t; session_id := session_id t;
     process_group_id := process_group_id t; tty_name := tty_name t; block_reason := block_reason t;
     blocked_fd := blocked_fd t; blocked_user_buffer := blocked_user_buffer t;
     blocked_length := blocked_length t; blocked_done := blocked_done t; fd_table := fd_table t |}.
Definition with_directory (x : Z) (t : task) : task :=
  {| pid := pid t; parent_pid := parent_pid t; state := state t; kind := kind t; saved_esp := saved_esp t;
     page_directory_phys := x; kstack := kstack t; image := image t; task_name := task_name t;
     entry := entry t; arg := arg t; run_ticks := run_ticks t; switches := switches t;
     exit_status := exit_status t; wait_target_pid := wait_target_pid t;
     wait_status_user := wait_status_user t; wake_tick := wake_tick t; reap_ready := reap_ready t;
     cwd := cwd t; uid := uid t; gid := gid t; session_id := session_id t;
     process_group_id := process_group_id t; tty_name := tty_name t; block_reason := block_reason t;
     blocked_fd := blocked_fd t; blocked_user_buffer := blocked_user_buffer t;
     blocked_length := blocked_length t; blocked_done := blocked_done t; fd_table := fd_table t |}.
Definition with_kstack (x : kernel_stack) (t : task) : task :=
  {| pid := pid t; parent_pid := parent_pid t; state := state t; kind := kind t; saved_esp := saved_esp t;
     page_directory_phys := page_directory_phys t; kstack := x; image := image t; task_name := task_name t;
     entry := entry t; arg := arg t; run_ticks := run_ticks t; switches := switches t;
     exit_status := exit_status t; wait_target_pid := wait_target_pid t;
     wait_status_user := wait_status_user t; wake_tick := wake_tick t; reap_ready := reap_ready t;
     cwd := cwd t; uid := uid t; gid := gid t; session_id := session_id t;
     process_group_id := process_group_id t; tty_name := tty_name t; block_reason := block_reason t;
     blocked_fd := blocked_fd t; blocked_user_buffer := blocked_user_buffer t;
     blocked_length := blocked_length t; blocked_done := blocked_done t; fd_table := fd_table t |}.
Definition with_image (x : exec_image) (t : task) : task :=
  {| pid := pid t; parent_pid := parent_pid t; state := state t; kind := kind t; saved_esp := saved_esp t;
     page_directory_phys := page_directory_phys t; kstack := kstack t; image := x; task_name := task_name t;
     entry := entry t; arg := arg t; run_ticks := run_ticks t; switches := switches t;
     exit_status := exit_status t; wait_target_pid := wait_target_pid t;
     wait_status_user := wait_status_user t; wake_tick := wake_tick t; reap_ready := reap_ready t;
     cwd := cwd t; uid := uid t; gid := gid t; session_id := session_id t;
     process_group_id := process_group_id t; tty_name := tty_name t; block_reason := block_reason t;
     blocked_fd := blocked_fd t; blocked_user_buffer := blocked_user_buffer t;
     blocked_length := blocked_length t; blocked_done := blocked_done t; fd_table := fd_table t |}.
Definition with_task_name (x : list Z) (t : task) : task :=
  {| pid := pid t; parent_pid := parent_pid t; state := state t; kind := kind t; saved_esp := saved_esp t;
     page_directory_phys := page_directory_phys t; kstack := kstack t; image := image t; task_name := x;
     entry := entry t; arg := arg t; run_ticks := run_ticks t; switches := switches t;
     exit_status := exit_status t; wait_target_pid := wait_target_pid t;
     wait_status_user := wait_status_user t; wake_tick := wake_tick t; reap_ready := reap_ready t;
     cwd := cwd t; uid := uid t; gid := gid t; session_id := session_id t;
     process_group_id := process_group_id t; tty_name := tty_name t; block_reason := block_reason t;
     blocked_fd := blocked_fd t; blocked_user_buffer := blocked_user_buffer t;
     blocked_length := blocked_length t; blocked_done := blocked_done t; fd_table := fd_table t |}.
Definition with_entry (x0 : option task_entry) (x1 : option (list Z)) (t : task) : task :=
  {| pid := pid t; parent_pid := parent_pid t; state := state t; kind := kind t; saved_esp := saved_esp t;
     page_directory_phys := page_directory_phys t; kstack := kstack t; image := image t;
     task_name := task_name t; entry := x0; arg := x1; run_ticks := run_ticks t; switches := switches t;
     exit_status := exit_status t; wait_target_pid := wait_target_pid t;
     wait_status_user := wait_status_user t; wake_tick := wake_tick t; reap_ready := reap_ready t;
     cwd := cwd t; uid := uid t; gid := gid t; session_id := session_id t;
     process_group_id := process_group_id t; tty_name := tty_name t; block_reason := block_reason t;
     blocked_fd := blocked_fd t; blocked_user_buffer := blocked_user_buffer t;
     blocked_length := blocked_length t; blocked_done := blocked_done t; fd_table := fd_table t |}.
Definition with_run_ticks (x : Z) (t : task) : task :=
  {| pid := pid t; parent_pid := parent_pid t; state := state t; kind := kind t; saved_esp := saved_esp t;
     page_directory_phys := page_directory_phys t; kstack := kstack t; image := image t;
     task_name := task_name t; entry := entry t; arg := arg t; run_ticks := x; switches := switches t;
     exit_status := exit_status t; wait_target_pid := wait_target_pid t;
     wait_status_user := wait_status_user t; wake_tick := wake_tick t; reap_ready := reap_ready t;
     cwd := cwd t; uid := uid t; gid := gid t; session_id := session_id t;
     process_group_id := process_group_id t; tty_name := tty_name t; block_reason := block_reason t;
     blocked_fd := blocked_fd t; blocked_user_buffer := blocked_user_buffer t;
     blocked_length := blocked_length t; blocked_done := blocked_done t; fd_table := fd_table t |}.
Definition with_switches (x : Z) (t : task) : task :=
  {| pid := pid t; parent_pid := parent_pid t; state := state t; kind := kind t; saved_esp := saved_esp t;
     page_directory_phys := page_directory_phys t; kstack := kstack t; image := image t;
     task_name := task_name t; entry := entry t; arg := arg t; run_ticks := run_ticks t; switches := x;
     exit_status := exit_status t; wait_target_pid := wait_target_pid t;
     wait_status_user := wait_status_user t; wake_tick := wake_tick t; reap_ready := reap_ready t;
     cwd := cwd t; uid := uid t; gid := gid t; session_id := session_id t;
     process_group_id := process_group_id t; tty_name := tty_name t; block_reason := block_reason t;
     blocked_fd := blocked_fd t; blocked_user_buffer := blocked_user_buffer t;
     blocked_length := blocked_length t; blocked_done := blocked_done t; fd_table := fd_table t |}.
Definition with_exit_status (x : Z) (t : task) : task :=
  {| pid := pid t; parent_pid := parent_pid t; state := state t; kind := kind t; saved_esp := saved_esp t;
     page_directory_phys := page_directory_phys t; kstack := kstack t; image := image t;
     task_name := task_name t; entry := entry t; arg := arg t; run_ticks := run_ticks t;
     switches := switches t; exit_status := x; wait_target_pid := wait_target_pid t;
     wait_status_user := wait_status_user t; wake_tick := wake_tick t; reap_ready := reap_ready t;
     cwd := cwd t; uid := uid t; gid := gid t; session_id := session_id t;
     process_group_id := process_group_id t; tty_name := tty_name t; block_reason := block_reason t;
     blocked_fd := blocked_fd t; blocked_user_buffer := blocked_user_buffer t;
     blocked_length := blocked_length t; blocked_done := blocked_done t; fd_table := fd_table t |}.
Definition with_wait (x0 : Z) (x1 : Z) (t : task) : task :=
  {| pid := pid t; parent_pid := parent_pid t; state := state t; kind := kind t; saved_esp := saved_esp t;
     page_directory_phys := page_directory_phys t; kstack := kstack t; image := image t;
     task_name := task_name t; entry := entry t; arg := arg t; run_ticks := run_ticks t;
     switches := switches t; exit_status := exit_status t; wait_target_pid := x0; wait_status_user := x1;
     wake_tick := wake_tick t; reap_ready := reap_ready t; cwd := cwd t; uid := uid t; gid := gid t;
     session_id := session_id t; process_group_id := process_group_id t; tty_name := tty_name t;
     block_reason := block_reason t; blocked_fd := blocked_fd t; blocked_user_buffer := blocked_user_buffer t;
     blocked_length := blocked_length t; blocked_done := blocked_done t; fd_table := fd_table t |}.
Definition with_wake_tick (x : Z) (t : task) : task :=
  {| pid := pid t; parent_pid := parent_pid t; state := state t; kind := kind t; saved_esp := saved_esp t;
     page_directory_phys := page_directory_phys t; kstack := kstack t; image := image t;
     task_name := task_name t; entry := entry t; arg := arg t; run_ticks := run_ticks t;
     switches := switches t; exit_status := exit_status t; wait_target_pid := wait_target_pid t;
     wait_status_user := wait_status_user t; wake_tick := x; reap_ready := reap_ready t; cwd := cwd t;
     uid := uid t; gid := gid t; session_id := session_id t; process_group_id := process_group_id t;
     tty_name := tty_name t; block_reason := block_reason t; blocked_fd := blocked_fd t;
     blocked_user_buffer := blocked_user_buffer t; blocked_length := blocked_length t;
     blocked_done := blocked_done t; fd_table := fd_table t |}.
Definition with_reap_ready (x : Z) (t : task) : task :=
  {| pid := pid t; parent_pid := parent_pid t; state := state t; kind := kind t; saved_esp := saved_esp t;
     page_directory_phys := page_directory_phys t; kstack := kstack t; image := image t;
     task_name := task_name t; entry := entry t; arg := arg t; run_ticks := run_ticks t;
     switches := switches t; exit_status := exit_status t; wait_target_pid := wait_target_pid t;
     wait_status_user := wait_status_user t; wake_tick := wake_tick t; reap_ready := x; cwd := cwd t;
     uid := uid t; gid := gid t; session_id := session_id t; process_group_id := process_group_id t;
     tty_name := tty_name t; block_reason := block_reason t; blocked_fd := blocked_fd t;
     blocked_user_buffer := blocked_user_buffer t; blocked_length := blocked_length t;
     blocked_done := blocked_done t; fd_table := fd_table t |}.
Definition with_cwd (x : list Z) (t : task) : task :=
  {| pid := pid t; parent_pid := parent_pid t; state := state t; kind := kind t; saved_esp := saved_esp t;
     page_directory_phys := page_directory_phys t; kstack := kstack t; image := image t;
     task_name := task_name t; entry := entry t; arg := arg t; run_ticks := run_ticks t;
     switches := switches t; exit_status := exit_status t; wait_target_pid := wait_target_pid t;
     wait_status_user := wait_status_user t; wake_tick := wake_tick t; reap_ready := reap_ready t; cwd := x;
     uid := uid t; gid := gid t; session_id := session_id t; process_group_id := process_group_id t;
     tty_name := tty_name t; block_reason := block_reason t; blocked_fd := blocked_fd t;
     blocked_user_buffer := blocked_user_buffer t; blocked_length := blocked_length t;
     blocked_done := blocked_done t; fd_table := fd_table t |}.
Definition with_uid (x : Z) (t : task) : task :=
  {| pid := pid t; parent_pid := parent_pid t; state := state t; kind := kind t; saved_esp := saved_esp t;
     page_directory_phys := page_directory_phys t; kstack := kstack t; image := image t;
     task_name := task_name t; entry := entry t; arg := arg t; run_ticks := run_ticks t;
     switches := switches t; exit_status := exit_status t; wait_target_pid := wait_target_pid t;
     wait_status_user := wait_status_user t; wake_tick := wake_tick t; reap_ready := reap_ready t;
     cwd := cwd t; uid := x; gid := gid t; session_id := session_id t; process_group_id := process_group_id t;
     tty_name := tty_name t; block_reason := block_reason t; blocked_fd := blocked_fd t;
     blocked_user_buffer := blocked_user_buffer t; blocked_length := blocked_length t;
     blocked_done := blocked_done t; fd_table := fd_table t |}.
Definition with_gid (x : Z) (t : task) : task :=
  {| pid := pid t; parent_pid := parent_pid t; state := state t; kind := kind t; saved_esp := saved_esp t;
     page_directory_phys := page_directory_phys t; kstack := kstack t; image := image t;
     task_name := task_name t; entry := entry t; arg := arg t; run_ticks := run_ticks t;
     switches := switches t; exit_status := exit_status t; wait_target_pid := wait_target_pid t;
     wait_status_user := wait_status_user t; wake_tick := wake_tick t; reap_ready := reap_ready t;
     cwd := cwd t; uid := uid t; gid := x; session_id := session_id t; process_group_id := process_group_id t;
     tty_name := tty_name t; block_reason := block_reason t; blocked_fd := blocked_fd t;
     blocked_user_buffer := blocked_user_buffer t; blocked_length := blocked_length t;
     blocked_done := blocked_done t; fd_table := fd_table t |}.
Definition with_session (x0 : Z) (x1 : Z) (t : task) : task :=
  {| pid := pid t; parent_pid := parent_pid t; state := state t; kind := kind t; saved_esp := saved_esp t;
     page_directory_phys := page_directory_phys t; kstack := kstack t; image := image t;
     task_name := task_name t; entry := entry t; arg := arg t; run_ticks := run_ticks t;
     switches := switches t; exit_status := exit_status t; wait_target_pid := wait_target_pid t;
     wait_status_user := wait_status_user t; wake_tick := wake_tick t; reap_ready := reap_ready t;
     cwd := cwd t; uid := uid t; gid := gid t; session_id := x0; process_group_id := x1;
     tty_name := tty_name t; block_reason := block_reason t; blocked_fd := blocked_fd t;
     blocked_user_buffer := blocked_user_buffer t; blocked_length := blocked_length t;
     blocked_done := blocked_done t; fd_table := fd_table t |}.
Definition with_tty_name (x : list Z) (t : task) : task :=
  {| pid := pid t; parent_pid := parent_pid t; state := state t; kind := kind t; saved_esp := saved_esp t;
     page_directory_phys := page_directory_phys t; kstack := kstack t; image := image t;
     task_name := task_name t; entry := entry t; arg := arg t; run_ticks := run_ticks t;
     switches := switches t; exit_status := exit_status t; wait_target_pid := wait_target_pid t;
     wait_status_user := wait_status_user t; wake_tick := wake_tick t; reap_ready := reap_ready t;
     cwd := cwd t; uid := uid t; gid := gid t; session_id := session_id t;
     process_group_id := process_group_id t; tty_name := x; block_reason := block_reason t;
     blocked_fd := blocked_fd t; blocked_user_buffer := blocked_user_buffer t;
     blocked_length := blocked_length t; blocked_done := blocked_done t; fd_table := fd_table t |}.
Definition with_block_reason (x : task_block_reason) (t : task) : task :=
  {| pid := pid t; parent_pid := parent_pid t; state := state t; kind := kind t; saved_esp := saved_esp t;
     page_directory_phys := page_directory_phys t; kstack := kstack t; image := image t;
     task_name := task_name t; entry := entry t; arg := arg t; run_ticks := run_ticks t;
     switches := switches t; exit_status := exit_status t; wait_target_pid := wait_target_pid t;
     wait_status_user := wait_status_user t; wake_tick := wake_tick t; reap_ready := reap_ready t;
     cwd := cwd t; uid := uid t; gid := gid t; session_id := session_id t;
     process_group_id := process_group_id t; tty_name := tty_name t; block_reason := x;
     blocked_fd := blocked_fd t; blocked_user_buffer := blocked_user_buffer t;
     blocked_length := blocked_length t; blocked_done := blocked_done t; fd_table := fd_table t |}.
Definition with_blocked (x0 : Z) (x1 : Z) (x2 : Z) (x3 : Z) (t : task) : task :=
  {| pid := pid t; parent_pid := parent_pid t; state := state t; kind := kind t; saved_esp := saved_esp t;
     page_directory_phys := page_directory_phys t; kstack := kstack t; image := image t;
     task_name := task_name t; entry := entry t; arg := arg t; run_ticks := run_ticks t;
     switches := switches t; exit_status := exit_status t; wait_target_pid := wait_target_pid t;
     wait_status_user := wait_status_user t; wake_tick := wake_tick t; reap_ready := reap_ready t;
     cwd := cwd t; uid := uid t; gid := gid t; session_id := session_id t;
     process_group_id := process_group_id t; tty_name := tty_name t; block_reason := block_reason t;
     blocked_fd := x0; blocked_user_buffer := x1; blocked_length := x2; blocked_done := x3;
     fd_table := fd_table t |}.
Definition with_blocked_done (x : Z) (t : task) : task :=
  {| pid := pid t; parent_pid := parent_pid t; state := state t; kind := kind t; saved_esp := saved_esp t;
     page_directory_phys := page_directory_phys t; kstack := kstack t; image := image t;
     task_name := task_name t; entry := entry t; arg := arg t; run_ticks := run_ticks t;
     switches := switches t; exit_status := exit_status t; wait_target_pid := wait_target_pid t;
     wait_status_user := wait_status_user t; wake_tick := wake_tick t; reap_ready := reap_ready t;
     cwd := cwd t; uid := uid t; gid := gid t; session_id := session_id t;
     process_group_id := process_group_id t; tty_name := tty_name t; block_reason := block_reason t;
     blocked_fd := blocked_fd t; blocked_user_buffer := blocked_user_buffer t;
     blocked_length := blocked_length t; blocked_done := x; fd_table := fd_table t |}.
Definition with_fd_table (x : carray (option Z)) (t : task) : task :=
  {| pid := pid t; parent_pid := parent_pid t; state := state t; kind := kind t; saved_esp := saved_esp t;
     page_directory_phys := page_directory_phys t; kstack := kstack t; image := image t;
     task_name := task_name t; entry := entry t; arg := arg t; run_ticks := run_ticks t;
     switches := switches t; exit_status := exit_status t; wait_target_pid := wait_target_pid t;
     wait_status_user := wait_status_user t; wake_tick := wake_tick t; reap_ready := reap_ready t;
     cwd := cwd t; uid := uid t; gid := gid t; session_id := session_id t;
     process_group_id := process_group_id t; tty_name := tty_name t; block_reason := block_reason t;
     blocked_fd := blocked_fd t; blocked_user_buffer := blocked_user_buffer t;
     blocked_length := blocked_length t; blocked_done := blocked_done t; fd_table := x |}.

(** ** Interrupt frames *)

(** [interrupt_user_frame_t]; for an interrupt from the kernel the last two fields are
    not part of the frame. *)
Record interrupt_frame := {
  fr_gs : Z; fr_fs : Z; fr_es : Z; fr_ds : Z; fr_edi : Z; fr_esi : Z; fr_ebp : Z; fr_esp : Z; fr_ebx : Z;
  fr_edx : Z; fr_ecx : Z; fr_eax : Z; fr_int_no : Z; fr_err_code : Z; fr_eip : Z; fr_cs : Z; fr_eflags : Z;
  fr_user_esp : Z; fr_user_ss : Z;
}.

Definition sizeof_interrupt_frame : Z := 68.
Definition sizeof_interrupt_user_frame : Z := 76.

Definition with_eax (x : Z) (f : interrupt_frame) : interrupt_frame :=
  {| fr_gs := fr_gs f; fr_fs := fr_fs f; fr_es := fr_es f; fr_ds := fr_ds f; fr_edi := fr_edi f;
     fr_esi := fr_esi f; fr_ebp := fr_ebp f; fr_esp := fr_esp f; fr_ebx := fr_ebx f; fr_edx := fr_edx f;
     fr_ecx := fr_ecx f; fr_eax := x; fr_int_no := fr_int_no f; fr_err_code := fr_err_code f;
     fr_eip := fr_eip f; fr_cs := fr_cs f; fr_eflags := fr_eflags f; fr_user_esp := fr_user_esp f;
     fr_user_ss := fr_user_ss f |}.

Definition interrupt_from_user (f : interrupt_frame) : bool := Z.land (fr_cs f) 3 =? 3.

Definition GDT_KERNEL_CODE_SELECTOR : Z := 8.
Definition GDT_KERNEL_DATA_SELECTOR : Z := 16.
Definition GDT_USER_CODE_SELECTOR : Z := 27.
Definition GDT_USER_DATA_SELECTOR : Z := 35.

(** [bootstrap] is the address of [task_bootstrap]. *)
Definition task_prepare_kernel_frame (bootstrap : Z) (f : interrupt_frame) : interrupt_frame :=
  {| fr_gs := GDT_KERNEL_DATA_SELECTOR; fr_fs := GDT_KERNEL_DATA_SELECTOR; fr_es := GDT_KERNEL_DATA_SELECTOR;
     fr_ds := GDT_KERNEL_DATA_SELECTOR; fr_edi := 0; fr_esi := 0; fr_ebp := 0; fr_esp := 0; fr_ebx := 0;
     fr_edx := 0; fr_ecx := 0; fr_eax := 0; fr_int_no := 0; fr_err_code := 0; fr_eip := bootstrap;
     fr_cs := GDT_KERNEL_CODE_SELECTOR; fr_eflags := TASK_EFLAGS; fr_user_esp := fr_user_esp f;
     fr_user_ss := fr_user_ss f |}.

Definition task_prepare_user_frame (entry_point user_stack_top : Z) : interrupt_frame :=
  {| fr_gs := GDT_USER_DATA_SELECTOR; fr_fs := GDT_USER_DATA_SELECTOR; fr_es := GDT_USER_DATA_SELECTOR;
     fr_ds := GDT_USER_DATA_SELECTOR; fr_edi := 0; fr_esi := 0; fr_ebp := 0; fr_esp := 0; fr_ebx := 0;
     fr_edx := 0; fr_ecx := 0; fr_eax := 0; fr_int_no := 0; fr_err_code := 0; fr_eip := entry_point;
     fr_cs := GDT_USER_CODE_SELECTOR; fr_eflags := TASK_EFLAGS; fr_user_esp := user_stack_top;
     fr_user_ss := GDT_USER_DATA_SELECTOR |}.

(** ** One task *)

Definition task_reset_image (i : exec_image) : exec_image := exec_reset_image i.

(** A null task is the superuser. *)
Definition proc_fill_credentials (t : option task) : vfs_credentials :=
  match t with
  | None => {| cred_uid := 0; cred_gid := 0 |}
  | Some t => {| cred_uid := uid t; cred_gid := gid t |}
  end.

Definition task_clear_blocked_io (t : task) : task := with_blocked 0 0 0 0 (with_block_reason TASK_BLOCK_NONE t).

Definition no_kstack : kernel_stack := {| guard_base := 0; stack_base := 0; stack_top := 0 |}.

Definition task_reset (t : task) : task :=
  {| pid := 0; parent_pid := 0; state := TASK_UNUSED; kind := TASK_KERNEL; saved_esp := 0;
     page_directory_phys := 0; kstack := no_kstack; image := task_reset_image (image t); task_name := [];
     entry := None; arg := None; run_ticks := 0; switches := 0; exit_status := 0; wait_target_pid := -1;
     wait_status_user := 0; wake_tick := 0; reap_ready := 0; cwd := [47]; uid := 0; gid := 0; session_id := 0;
     process_group_id := 0; tty_name := []; block_reason := TASK_BLOCK_NONE; blocked_fd := 0;
     blocked_user_buffer := 0; blocked_length := 0; blocked_done := 0;
     fd_table := arr_fill 0 VFS_MAX_FDS None (fd_table t) |}.

(** An entry of the table before [proc_init]. *)
Definition zero_task : task :=
  {| pid := 0; parent_pid := 0; state := TASK_UNUSED; kind := TASK_KERNEL; saved_esp := 0;
     page_directory_phys := 0; kstack := no_kstack;
     image := {| entry_point := 0; image_stack_top := 0; mapped_virtuals := λ _, 0; mapped_pages := λ _, 0;
                 mapped_page_count := 0 |};
     task_name := []; entry := None; arg := None; run_ticks := 0; switches := 0; exit_status := 0; wait_target_pid := 0;
     wait_status_user := 0; wake_tick := 0; reap_ready := 0; cwd := []; uid := 0; gid := 0; session_id := 0;
     process_group_id := 0; tty_name := []; block_reason := TASK_BLOCK_NONE; blocked_fd := 0;
     blocked_user_buffer := 0; blocked_length := 0; blocked_done := 0; fd_table := λ _, None |}.

(** [cursor[1] != 0] after a slash starts the last name anew. *)
Fixpoint basename_from (last cursor : list Z) : list Z :=
  match cursor with
  | [] => last
  | c :: rest => basename_from (if (c =? 47) && negb (bool_decide (rest = [])) then rest else last) rest
  end.

Definition path_basename (path : option (list Z)) : list Z :=
  match path with None => [] | Some path => basename_from path path end.

Definition task_set_name (name : option (list Z)) (t : task) : task :=
  with_task_name (string_copy (default [] name) SYS_NAME_MAX) t.
Definition task_set_tty (name : option (list Z)) (t : task) : task :=
  with_tty_name (string_copy (default [] name) SYS_NAME_MAX) t.

(** The path itself, or the terminal of the task; [None] when it has none. *)
Definition proc_effective_path (t : task) (path : list Z) (resolved_length : Z) : option (list Z) :=
  if bool_decide (path = c_bytes "/dev/tty") then
    match tty_name t with [] => None | tty => Some (string_copy tty resolved_length) end
  else Some path.

Definition proc_allocate_fd_slot (t : task) : Z :=
  match for_find 0 VFS_MAX_FDS (λ i, match fd_table t i with None => true | _ => false end) with
  | Some i => i | None => -1 end.

Definition proc_allocate_fd_slot_excluding (excluded_fd : Z) (t : task) : Z :=
  match for_find 0 VFS_MAX_FDS (λ i, negb (i =? excluded_fd) && match fd_table t i with None => true | _ => false end) with
  | Some i => i | None => -1 end.

Definition proc_install_fd (fd : Z) (file : option Z) (t : task) : Z * task :=
  match file with
  | None => (-1, t)
  | Some _ =>
      if (fd <? 0) || (VFS_MAX_FDS <=? fd) || match fd_table t fd with Some _ => true | None => false end then (-1, t)
      else (fd, with_fd_table (<[fd := file]> (fd_table t)) t)
  end.

Definition proc_lookup_fd (t : option task) (fd : Z) : option Z :=
  match t with None => None | Some t => if VFS_MAX_FDS <=? fd then None else fd_table t fd end.

Definition proc_wait_matches (parent child : task) (target_pid : Z) : bool :=
  if bool_decide (state child = TASK_UNUSED) || negb (parent_pid child =? pid parent) then false
  else (target_pid <? 0) || (pid child =? u32 target_pid).

(** ** Paths *)

Definition proc_push_component (components : list (list Z)) (c : list Z) : option (list (list Z)) :=
  let length := Z.of_nat (length c) in
  if (length =? 0) || (PROC_PATH_COMPONENT_MAX <=? length)
     || (PROC_PATH_COMPONENTS_MAX <=? Z.of_nat (Datatypes.length components)) then None
  else Some (components ++ [c]).

(** The name at the cursor, up to a slash or the end. *)
Fixpoint take_name (cursor : list Z) : list Z * list Z :=
  match cursor with
  | [] => ([], [])
  | c :: rest => if c =? 47 then ([], cursor) else let '(name, rest) := take_name rest in (c :: name, rest)
  end.

(** Every turn moves the cursor, so the length of the path bounds the turns. *)
Fixpoint consume_loop (fuel : nat) (components : list (list Z)) (cursor : list Z) : option (list (list Z)) :=
  match fuel with
  | O => None
  | S fuel =>
      match skip_slashes cursor with
      | [] => Some components
      | cursor =>
          let '(name, rest) := take_name cursor in
          if bool_decide (name = [46]) then consume_loop fuel components rest
          else if bool_decide (name = [46; 46]) then consume_loop fuel (removelast components) rest
          else match proc_push_component components name with
               | None => None
               | Some components => consume_loop fuel components rest
               end
      end
  end.

Definition proc_consume_path (components : list (list Z)) (path : list Z) : option (list (list Z)) :=
  consume_loop (S (length path)) components path.

(** The components written behind a slash, [offset] characters being written. *)
Fixpoint write_components (offset : Z) (components : list (list Z)) (max_length : Z) : option (list Z) :=
  match components with
  | [] => Some []
  | c :: rest =>
      if max_length <=? offset + Z.of_nat (length c) + 1 then None
      else match rest with
           | [] => Some c
           | _ => (λ text, c ++ 47 :: text) <$> write_components (offset + Z.of_nat (length c) + 1) rest max_length
           end
  end.

Definition proc_normalize_path (t : option task) (path : option (list Z)) (max_length : Z) : option (list Z) :=
  match t, path with
  | Some t, Some (c :: text) =>
      if max_length <? 2 then None
      else
        match (if negb (c =? 47) then proc_consume_path [] (cwd t) else Some []) with
        | None => None
        | Some components =>
            match proc_consume_path components (c :: text) with
            | None => None
            | Some components => (47 ::.) <$> write_components 1 components max_length
            end
        end
  | _, _ => None
  end.
