(* ===== verification/TaskPath.v ===== *)
(** * Normal forms of paths

    [proc_normalize_path] computes the canonical form of a path: the names between slashes, [.]
    dropped and [..] undoing the name before it, taken from the working
    directory unless the path is absolute.  A normal form is absolute, has no empty name, no [.]
    and no [..], and is its own normal form. *)

From stdpp Require Import strings.
From S2P Require Import Prelude Abi Mem Block Vnode Vfs VfsPath Exec Task.

Local Open Scope Z_scope.
Local Open Scope c_scope.

(** One name behind the names [cs]. *)
Definition canon_step (o : option (list (list Z))) (name : list Z) : option (list (list Z)) :=
  cs ← o;
  if decide (name = [46]) then Some cs
  else if decide (name = [46; 46]) then Some (removelast cs)
  else if decide ((length name ≤ 31)%nat ∧ (length cs < 24)%nat) then Some (cs ++ [name]) else None.

(** The path from the root. *)
Definition from_root (t : task) (path : list Z) : list Z :=
  match path with 47 :: _ => path | _ => cwd t ++ 47 :: path end.

(** The text of a sequence of names. *)
Definition render (cs : list (list Z)) : list Z :=
  match cs with [] => [47] | _ => concat ((47 ::.) <$> cs) end.

Lemma canon_none names : foldl canon_step None names = None.
Proof. by induction names. Qed.

Lemma take_name_split path :
  take_name path = ((split_path path).1, drop (length (split_path path).1) path).
Proof.
  induction path as [|c path IH]; [done|]. simpl. rewrite IH. destruct (split_path path) as [h t]. simpl.
  by destruct (c =? 47).
Qed.

Lemma split_path_length path : (length (split_path path).1 ≤ length path)%nat.
Proof.
  induction path as [|c path IH]; [done|]. simpl. destruct (split_path path) as [h t]. simpl in *. case_if; simpl; lia.
Qed.

Lemma consume_loop_spec fuel cs path :
  (length path < fuel)%nat → consume_loop fuel cs path = foldl canon_step (Some cs) (components path).
Proof.
  revert cs path. induction fuel as [|fuel IH]; intros cs path Hf; [lia|]. cbn [consume_loop].
  rewrite <- (components_skip path). pose proof (skip_slashes_head path) as Hh. pose proof (skip_slashes_length path) as Hl.
  destruct (skip_slashes path) as [|c rest] eqn:Es; [done|]. rewrite take_name_split.
  destruct (components_take (c :: rest) Hh) as [-> Hne]. pose proof (split_path_length (c :: rest)) as Hs. simpl in Hl.
  set (name := (split_path (c :: rest)).1) in *. cbn [foldl canon_step mbind option_bind].
  assert (length (drop (length name) (c :: rest)) < fuel)%nat as Hd.
  { rewrite length_drop. simpl in *. lia. }
  rewrite !bool_decide_decide.
  destruct (decide (name = [46])); [by apply IH|].
  destruct (decide (name = [46; 46])); [by apply IH|].
  unfold proc_push_component, PROC_PATH_COMPONENT_MAX, VFS_NAME_MAX, PROC_PATH_COMPONENTS_MAX.
  destruct (Z.eqb_spec (Z.of_nat (length name)) 0); [lia|]. simpl orb.
  destruct (Z.leb_spec 32 (Z.of_nat (length name))); simpl orb.
  { rewrite decide_False by lia. by rewrite canon_none. }
  destruct (Z.leb_spec 24 (Z.of_nat (length cs))).
  { rewrite decide_False by lia. by rewrite canon_none. }
  rewrite decide_True by lia. by apply IH.
Qed.

(** What is written is the text of the names, if it fits. *)
Lemma write_components_spec offset cs max_length :
  cs ≠ [] →
  write_components offset cs max_length
  = if decide (offset + Z.of_nat (length (render cs)) < max_length) then Some (drop 1 (render cs)) else None.
Proof.
  intros Hne. revert offset. induction cs as [|c cs IH]; intros offset; [done|]. simpl write_components.
  destruct cs as [|d cs].
  - simpl. rewrite !app_nil_r. destruct (Z.leb_spec max_length (offset + Z.of_nat (length c) + 1)).
    + by rewrite decide_False by lia.
    + by rewrite decide_True by lia.
  - rewrite (IH ltac:(done) (offset + Z.of_nat (length c) + 1)).
    assert (render (c :: d :: cs) = 47 :: c ++ render (d :: cs)) as -> by done.
    assert (render (d :: cs) = 47 :: drop 1 (render (d :: cs))) as Hr by done. cbn [length]. rewrite length_app.
    destruct (Z.leb_spec max_length (offset + Z.of_nat (length c) + 1)).
    + by rewrite decide_False by lia.
    + case_decide; [|by rewrite decide_False by lia]. rewrite decide_True by lia. done.
Qed.

(** The names of a normal form. *)
Definition normal_name (c : list Z) : Prop :=
  c ≠ [] ∧ 47 ∉ c ∧ c ≠ [46] ∧ c ≠ [46; 46] ∧ (length c ≤ 31)%nat.
Definition normal (cs : list (list Z)) : Prop := Forall normal_name cs ∧ (length cs ≤ 24)%nat.

Lemma components_names path : Forall (λ c, c ≠ [] ∧ 47 ∉ c) (components path).
Proof.
  assert (47 ∉ (split_path path).1 ∧ Forall (λ c, c ≠ [] ∧ 47 ∉ c) (split_path path).2) as [H1 H2].
  { induction path as [|c path IH]; simpl; [split; [apply not_elem_of_nil|done]|].
    destruct (split_path path) as [h t]. destruct IH as [IH1 IH2]. destruct (Z.eqb_spec c 47) as [->|]; simpl in *.
    - split; [apply not_elem_of_nil|]. destruct h; [done|]. by constructor.
    - split; [|done]. rewrite elem_of_cons. naive_solver. }
  unfold components. destruct (split_path path) as [[|c h] t]; [done|]. by constructor.
Qed.

Lemma components_single c : c ≠ [] → 47 ∉ c → components c = [c].
Proof.
  intros Hne Hs. assert (split_path c = (c, [])) as E.
  { clear Hne. induction c as [|x c IH]; [done|]. simpl. apply not_elem_of_cons in Hs as [Hx Hs].
    rewrite IH by done. by destruct (Z.eqb_spec x 47). }
  unfold components. rewrite E. by destruct c.
Qed.

Lemma components_render cs : Forall (λ c, c ≠ [] ∧ 47 ∉ c) cs → components (render cs) = cs.
Proof.
  intros H. destruct cs as [|c cs]; [done|]. unfold render.
  assert (∀ ds, Forall (λ c, c ≠ [] ∧ 47 ∉ c) ds → components (concat ((47 ::.) <$> ds)) = ds) as Hc; [|by apply Hc].
  clear. induction ds as [|d ds IH]; intros Hd; [done|]. apply Forall_cons in Hd as [[? ?] Hd]. simpl.
  rewrite components_slash. destruct ds as [|e ds]; simpl.
  - rewrite app_nil_r. by apply components_single.
  - rewrite components_app, components_single by done. simpl. f_equal.
    rewrite <- components_slash. by apply IH.
Qed.

Lemma canon_normal names cs cs' :
  Forall (λ c, c ≠ [] ∧ 47 ∉ c) names → normal cs → foldl canon_step (Some cs) names = Some cs' → normal cs'.
Proof.
  intros Hn. revert cs. induction Hn as [|c names [Hc Hs] _ IH]; intros cs Hcs; cbn [foldl].
  { by intros [= <-]. }
  unfold canon_step at 2. cbn [mbind option_bind]. destruct Hcs as [Hf Hl].
  case_decide; [by apply IH|]. case_decide.
  - apply IH. destruct cs as [|x cs _] using rev_ind; [done|]. rewrite removelast_last.
    apply Forall_app in Hf as [? _]. rewrite length_app in Hl. split; [done|]. simpl in Hl. lia.
  - case_decide as Hlim; [|by rewrite canon_none]. apply IH. split; [|rewrite length_app; simpl; lia].
    apply Forall_app. split; [done|]. constructor; [|done]. by split_and!; [..|lia].
Qed.

Lemma canon_again cs ds :
  normal (cs ++ ds) → foldl canon_step (Some cs) ds = Some (cs ++ ds).
Proof.
  revert cs. induction ds as [|d ds IH]; intros cs [Hf Hl]; [by rewrite app_nil_r|]. cbn [foldl].
  apply Forall_app in Hf as Hd. destruct Hd as [_ [(?&?&?&?&?) _]%Forall_cons].
  unfold canon_step at 2. cbn [mbind option_bind]. rewrite length_app in Hl. simpl in Hl.
  rewrite !decide_False by done. rewrite decide_True by (split; lia || done).
  rewrite (IH (cs ++ [d])); rewrite <- app_assoc; [done|]. split; [done|]. rewrite length_app. simpl. lia.
Qed.

Lemma normalize_cases t path max_length :
  2 ≤ max_length → path ≠ [] →
  proc_normalize_path (Some t) (Some path) max_length
  = cs ← foldl canon_step (Some []) (components (from_root t path));
    if decide (cs = [] ∨ Z.of_nat (length (render cs)) + 1 < max_length) then Some (render cs) else None.
Proof.
  intros Hm Hp. destruct path as [|c text]; [done|]. unfold proc_normalize_path.
  destruct (Z.ltb_spec max_length 2); [lia|].
  set (start := if negb (c =? 47) then _ else _).
  assert ((start ≫= λ cs, proc_consume_path cs (c :: text))
    = foldl canon_step (Some []) (components (from_root t (c :: text)))) as E.
  { unfold start, proc_consume_path. destruct (Z.eqb_spec c 47) as [->|Hc]; simpl negb; cbn iota.
    - cbn [mbind option_bind]. by rewrite consume_loop_spec by lia.
    - rewrite consume_loop_spec by lia.
      assert (from_root t (c :: text) = cwd t ++ 47 :: c :: text) as -> by (destruct c as [|p|p]; by repeat (destruct p; try done)).
      rewrite components_app, foldl_app. destruct (foldl _ _ (components (cwd t))) as [cs|]; cbn [mbind option_bind].
      + by rewrite consume_loop_spec by lia.
      + by rewrite canon_none. }
  rewrite <- E. destruct start as [cs0|]; [|done]. cbn [mbind option_bind].
  destruct (proc_consume_path cs0 (c :: text)) as [[|d cs]|]; [done| |done]. cbn [mbind option_bind].
  rewrite write_components_spec by done. repeat case_decide; try done; exfalso; naive_solver lia.
Qed.

(** Normalising a path gives its canonical form: the names of the path, taken from the working
    directory unless it starts with a slash, with [.] dropped and [..] undoing the name before it
    (at the root it does nothing).  It fails exactly when a name has more than 31
    characters, more than 24 names are pending, or the result does not
    leave two bytes of the buffer free. *)
Theorem proc_normalize_path_spec t path max_length :
  proc_normalize_path (Some t) (Some path) max_length
  = if decide (2 ≤ max_length ∧ path ≠ []) then
      cs ← foldl canon_step (Some []) (components (from_root t path));
      if decide (cs = [] ∨ Z.of_nat (length (render cs)) + 1 < max_length) then Some (render cs) else None
    else None.
Proof.
  case_decide as H; [destruct H; by apply normalize_cases|]. destruct path as [|c text]; [done|]. unfold proc_normalize_path.
  destruct (Z.ltb_spec max_length 2); [done|]. exfalso. by apply H.
Qed.

(** A normalised path is in normal form: it is the text of at most 24 names, none
    of them empty, [.] or [..], and none with a slash or more than 31 characters; and normalising it again,
    for whatever working directory, returns it unchanged. *)
Theorem proc_normalize_path_idempotent t path max_length r :
  proc_normalize_path (Some t) (Some path) max_length = Some r →
  (∃ cs, normal cs ∧ r = render cs ∧ components r = cs) ∧
  ∀ t', proc_normalize_path (Some t') (Some r) max_length = Some r.
Proof.
  intros H. assert (2 ≤ max_length ∧ path ≠ []) as [Hm Hp].
  { destruct path as [|c text]; [done|]. unfold proc_normalize_path in H. by destruct (Z.ltb_spec max_length 2). }
  rewrite normalize_cases in H by done.
  destruct (foldl canon_step (Some []) _) as [cs|] eqn:Ef; [|done]. cbn [mbind option_bind] in H.
  case_decide as Hl; [|done]. injection H as <-.
  assert (normal cs) as Hn.
  { eapply canon_normal; [apply components_names| |done]. split; [done|simpl; lia]. }
  assert (components (render cs) = cs) as Hc.
  { apply components_render. eapply Forall_impl; [apply Hn|]. by intros c (?&?&_). }
  split; [by exists cs|]. intros t'. rewrite normalize_cases; [|done|by destruct cs].
  assert (from_root t' (render cs) = render cs) as -> by (by destruct cs). rewrite Hc, (canon_again [] cs) by done.
  cbn [mbind option_bind]. by rewrite decide_True.
Qed.

(** The path [../a//./b] from [/home]. *)
Lemma proc_normalize_path_idempotent_witness :
  proc_normalize_path (Some zero_task) (Some (c_bytes "/a/b")) 64 = Some (c_bytes "/a/b").
Proof.
  assert (proc_normalize_path (Some (with_cwd (c_bytes "/home") zero_task)) (Some (c_bytes "../a//./b")) 64 = Some (c_bytes "/a/b"))
    as E by by vm_compute.
  exact (proj2 (proc_normalize_path_idempotent _ _ _ _ E) zero_task).
Defined.
