(* ===== verification/Proc.v ===== *)
(** * Processes and scheduling ([src/kernel/proc.c], [src/kernel/pit.c])

    The task table and the operations of the kernel on it: creation, scheduling, blocking
    and waking, fork, exec, exit and wait, and the descriptor calls.  A task pointer is an index of the
    table.  An interrupt frame is found by its address ([kframes]); the bytes of kernel
    memory that kernel tasks pass to system calls are [kmem].  The network stack is the
    interface [NetStack]; console messages are left out.  This file has the
    definitions; [ProcSched] and [ProcWait] have the theorems.

    [None] is a call that does not return within [fuel] characters of console input, or a
    directory on the disk that contains itself. *)

From stdpp Require Import strings.
From S2P Require Import Prelude Abi Mem Palloc Trace Paging Usercopy Block Kstack Vnode Simplefs Vfs Exec Task.

Local Open Scope Z_scope.
Local Open Scope c_scope.

(** ** The clock *)

Record pit := { tick_count : Z; hardware_tick_seen : Z; fallback_announced : Z }.

Definition pit_handle_tick (p : pit) : pit :=
  {| tick_count := tick_count p ⊞ 1; hardware_tick_seen := 1; fallback_announced := fallback_announced p |}.

Definition pit_ensure_progress (p : pit) : pit :=
  if truthy (hardware_tick_seen p) then p
  else {| tick_count := tick_count p ⊞ 1; hardware_tick_seen := hardware_tick_seen p; fallback_announced := 1 |}.

Definition pit_hardware_tick_seen (p : pit) : bool := truthy (hardware_tick_seen p).
Definition pit_ticks (p : pit) : Z := tick_count p.

(** ** The network, as processes use it *)

(** The calls of [net.c]: they read the clock and write trace records.  A poll for the
    result of a ping gives its status and the result. *)
Class NetStack (Net : Type) := {
  net_poll : Z → Net → trace → Net * trace;
  net_ping4_start : Z → Z → Z → Z → Net → trace → Z * Net * trace;
  net_ping4_poll_result : Z → Net → Z * Z * Net;
}.


(** [(uint32_t)-1] *)
Definition ERR : Z := 4294967295.

Section proc.
Context {St Hp Io Net : Type} `{!KernelHeap Hp} `{!ConsoleIO Io} `{!KernelMachine Hp} `{!NetStack Net}.

(** ** The state *)

Record kernel := {
  tasks : carray task;
  current_task : option Z;
  idle_task : option Z;
  init_task : option Z;
  next_pid : Z;
  last_logged_tick : Z;
  kframes : carray interrupt_frame;
  kmem : carray Z;
  esp0 : Z;
  stacks : kstacks;
  sys : vfs St Hp Io;
  clock : pit;
  net : Net;
  ring : trace;
}.

Definition with_tasks (x : carray task) (k : kernel) : kernel :=
  {| tasks := x; current_task := current_task k; idle_task := idle_task k; init_task := init_task k;
     next_pid := next_pid k; last_logged_tick := last_logged_tick k; kframes := kframes k; kmem := kmem k;
     esp0 := esp0 k; stacks := stacks k; sys := sys k; clock := clock k; net := net k; ring := ring k |}.
Definition with_current (x : option Z) (k : kernel) : kernel :=
  {| tasks := tasks k; current_task := x; idle_task := idle_task k; init_task := init_task k;
     next_pid := next_pid k; last_logged_tick := last_logged_tick k; kframes := kframes k; kmem := kmem k;
     esp0 := esp0 k; stacks := stacks k; sys := sys k; clock := clock k; net := net k; ring := ring k |}.
Definition with_idle (x : option Z) (k : kernel) : kernel :=
  {| tasks := tasks k; current_task := current_task k; idle_task := x; init_task := init_task k;
     next_pid := next_pid k; last_logged_tick := last_logged_tick k; kframes := kframes k; kmem := kmem k;
     esp0 := esp0 k; stacks := stacks k; sys := sys k; clock := clock k; net := net k; ring := ring k |}.
Definition with_init (x : option Z) (k : kernel) : kernel :=
  {| tasks := tasks k; current_task := current_task k; idle_task := idle_task k; init_task := x;
     next_pid := next_pid k; last_logged_tick := last_logged_tick k; kframes := kframes k; kmem := kmem k;
     esp0 := esp0 k; stacks := stacks k; sys := sys k; clock := clock k; net := net k; ring := ring k |}.
Definition with_next_pid (x : Z) (k : kernel) : kernel :=
  {| tasks := tasks k; current_task := current_task k; idle_task := idle_task k; init_task := init_task k;
     next_pid := x; last_logged_tick := last_logged_tick k; kframes := kframes k; kmem := kmem k;
     esp0 := esp0 k; stacks := stacks k; sys := sys k; clock := clock k; net := net k; ring := ring k |}.
Definition with_logged (x : Z) (k : kernel) : kernel :=
  {| tasks := tasks k; current_task := current_task k; idle_task := idle_task k; init_task := init_task k;
     next_pid := next_pid k; last_logged_tick := x; kframes := kframes k; kmem := kmem k; esp0 := esp0 k;
     stacks := stacks k; sys := sys k; clock := clock k; net := net k; ring := ring k |}.
Definition with_kframes (x : carray interrupt_frame) (k : kernel) : kernel :=
  {| tasks := tasks k; current_task := current_task k; idle_task := idle_task k; init_task := init_task k;
     next_pid := next_pid k; last_logged_tick := last_logged_tick k; kframes := x; kmem := kmem k;
     esp0 := esp0 k; stacks := stacks k; sys := sys k; clock := clock k; net := net k; ring := ring k |}.
Definition with_kmem (x : carray Z) (k : kernel) : kernel :=
  {| tasks := tasks k; current_task := current_task k; idle_task := idle_task k; init_task := init_task k;
     next_pid := next_pid k; last_logged_tick := last_logged_tick k; kframes := kframes k; kmem := x;
     esp0 := esp0 k; stacks := stacks k; sys := sys k; clock := clock k; net := net k; ring := ring k |}.
Definition with_esp0 (x : Z) (k : kernel) : kernel :=
  {| tasks := tasks k; current_task := current_task k; idle_task := idle_task k; init_task := init_task k;
     next_pid := next_pid k; last_logged_tick := last_logged_tick k; kframes := kframes k; kmem := kmem k;
     esp0 := x; stacks := stacks k; sys := sys k; clock := clock k; net := net k; ring := ring k |}.
Definition with_stacks (x : kstacks) (k : kernel) : kernel :=
  {| tasks := tasks k; current_task := current_task k; idle_task := idle_task k; init_task := init_task k;
     next_pid := next_pid k; last_logged_tick := last_logged_tick k; kframes := kframes k; kmem := kmem k;
     esp0 := esp0 k; stacks := x; sys := sys k; clock := clock k; net := net k; ring := ring k |}.
Definition with_sys (x : vfs St Hp Io) (k : kernel) : kernel :=
  {| tasks := tasks k; current_task := current_task k; idle_task := idle_task k; init_task := init_task k;
     next_pid := next_pid k; last_logged_tick := last_logged_tick k; kframes := kframes k; kmem := kmem k;
     esp0 := esp0 k; stacks := stacks k; sys := x; clock := clock k; net := net k; ring := ring k |}.
Definition with_clock (x : pit) (k : kernel) : kernel :=
  {| tasks := tasks k; current_task := current_task k; idle_task := idle_task k; init_task := init_task k;
     next_pid := next_pid k; last_logged_tick := last_logged_tick k; kframes := kframes k; kmem := kmem k;
     esp0 := esp0 k; stacks := stacks k; sys := sys k; clock := x; net := net k; ring := ring k |}.
Definition with_net (x0 : Net) (x1 : trace) (k : kernel) : kernel :=
  {| tasks := tasks k; current_task := current_task k; idle_task := idle_task k; init_task := init_task k;
     next_pid := next_pid k; last_logged_tick := last_logged_tick k; kframes := kframes k; kmem := kmem k;
     esp0 := esp0 k; stacks := stacks k; sys := sys k; clock := clock k; net := x0; ring := x1 |}.
Definition with_ring (x : trace) (k : kernel) : kernel :=
  {| tasks := tasks k; current_task := current_task k; idle_task := idle_task k; init_task := init_task k;
     next_pid := next_pid k; last_logged_tick := last_logged_tick k; kframes := kframes k; kmem := kmem k;
     esp0 := esp0 k; stacks := stacks k; sys := sys k; clock := clock k; net := net k; ring := x |}.

Implicit Types (k : kernel) (t : Z) (frame : Z).

Definition task_at t k : task := tasks k t.
Definition set_task t (x : task) k : kernel := with_tasks (<[t := x]> (tasks k)) k.
Definition upd_task t (g : task → task) k : kernel := set_task t (g (task_at t k)) k.
Definition cur k : option task := (λ t, task_at t k) <$> current_task k.
Definition frame_at frame k : interrupt_frame := kframes k frame.
Definition set_eax frame (x : Z) k : kernel :=
  with_kframes (<[frame := with_eax x (kframes k frame)]> (kframes k)) k.
Definition vmem k : vm := vm_of (sys k).
Definition with_vmem (s : vm) k : kernel := with_sys (with_vm s (sys k)) k.
Definition log_proc (event a0 a1 a2 : Z) k : kernel :=
  with_ring (trace_log (pit_ticks (clock k)) SYS_TRACE_CATEGORY_PROC event a0 a1 a2 (ring k)) k.

(** ** Task table *)

Definition task_find_by_pid (p : Z) k : option Z :=
  if p =? 0 then None
  else for_find 0 MAX_TASKS (λ i, negb (bool_decide (state (tasks k i) = TASK_UNUSED)) && (pid (tasks k i) =? p)).

Definition task_close_files t k : kernel :=
  let '(fds, v) := vfs_detach_fds (Some (fd_table (task_at t k))) VFS_MAX_FDS (sys k) in
  upd_task t (with_fd_table (default (fd_table (task_at t k)) fds)) (with_sys v k).

(** The image of a task released in its address space. *)
Definition task_release_image t k : kernel :=
  let dir := page_directory_phys (task_at t k) in
  if negb (truthy dir) then k
  else
    let '(i, s) := exec_release_image dir (Some (image (task_at t k))) (vmem k) in
    upd_task t (with_image (default (image (task_at t k)) i)) (with_vmem s k).

Definition task_release_kstack t k : kernel :=
  let '(st, ks, s) := kstack_free (Some (kstack (task_at t k))) (stacks k) (vmem k) in
  upd_task t (with_kstack (default (kstack (task_at t k)) st)) (with_stacks ks (with_vmem s k)).

Definition task_release_resources t k : kernel :=
  let k := task_close_files t k in
  let k := task_release_image t k in
  let dir := page_directory_phys (task_at t k) in
  let k := if truthy dir && negb (dir =? kernel_page_directory_phys (vmem k))
           then with_vmem (paging_destroy_address_space dir (vmem k)) k else k in
  let k := task_release_kstack t k in
  let k := if bool_decide (init_task k = Some t) then with_init None k else k in
  let k := if bool_decide (idle_task k = Some t) then with_idle None k else k in
  upd_task t task_reset k.

Definition task_find_unused k : option Z * kernel :=
  match for_find 0 MAX_TASKS (λ i, bool_decide (state (tasks k i) = TASK_UNUSED)) with
  | Some t => (Some t, upd_task t task_reset k)
  | None => (None, k)
  end.

Definition task_setup_kernel_stack t k : Z * kernel :=
  let '(r, st, ks, s) := kstack_alloc (Some (kstack (task_at t k))) (stacks k) (vmem k) in
  (r, upd_task t (with_kstack (default (kstack (task_at t k)) st)) (with_stacks ks (with_vmem s k))).

Definition task_setup_stdio t k : Z * kernel :=
  let credentials := proc_fill_credentials (Some (task_at t k)) in
  let '(r, fds, v) := vfs_attach_stdio (Some (fd_table (task_at t k))) VFS_MAX_FDS (Some credentials) (sys k) in
  (r, upd_task t (with_fd_table (default (fd_table (task_at t k)) fds)) (with_sys v k)).

(** ** Waking and choosing *)

Definition wake_sleeper (ticks t : Z) k : kernel :=
  let x := task_at t k in
  if negb (bool_decide (state x = TASK_SLEEPING)) then k
  else if i32 (ticks ⊟ wake_tick x) <? 0 then k
  else set_task t (with_state TASK_RUNNABLE (with_wake_tick 0 x)) k.

Definition proc_wake_sleepers k : kernel :=
  for_range 0 MAX_TASKS (wake_sleeper (pit_ticks (clock k))) k.

Definition proc_has_child (parent : task) (target_pid : Z) k : bool :=
  match for_find 0 MAX_TASKS (λ i, proc_wait_matches parent (tasks k i) target_pid) with
  | Some _ => true | None => false end.

Definition proc_user_buffer_writable (directory_phys virtual_address length : Z) k : bool :=
  paging_user_range_writable_in directory_phys virtual_address length (vmem k).

Definition proc_find_zombie_child (parent : task) (target_pid : Z) k : option Z :=
  for_find 0 MAX_TASKS (λ i, proc_wait_matches parent (tasks k i) target_pid
                             && bool_decide (state (tasks k i) = TASK_ZOMBIE)).

Definition reapable t k : bool :=
  negb (bool_decide (current_task k = Some t)) && bool_decide (state (task_at t k) = TASK_ZOMBIE)
  && truthy (reap_ready (task_at t k)).

Definition proc_collect_reapable_zombies k : kernel :=
  for_range 0 MAX_TASKS (λ t k, if reapable t k then task_release_resources t k else k) k.

Definition proc_pick_next k : option Z :=
  let start_index := match current_task k with Some t => t + 1 | None => 0 end in
  let slot index := (start_index + index) mod MAX_TASKS in
  match for_find 0 MAX_TASKS (λ index, negb (bool_decide (idle_task k = Some (slot index)))
                                       && bool_decide (state (tasks k (slot index)) = TASK_RUNNABLE)) with
  | Some index => Some (slot index)
  | None =>
      match idle_task k with
      | Some t => if bool_decide (state (tasks k t) = TASK_RUNNABLE) then Some t else current_task k
      | None => current_task k
      end
  end.

Definition proc_log_switch (from to : option Z) k : kernel :=
  if bool_decide (from = to) || bool_decide (to = None) then k
  else if pit_ticks (clock k) ⊟ last_logged_tick k <? 50 then k
  else with_logged (pit_ticks (clock k)) k.

Definition proc_activate_task t k : kernel :=
  let k := proc_log_switch (current_task k) (Some t) k in
  let k := with_current (Some t) k in
  let k := with_vmem (paging_switch_directory (page_directory_phys (task_at t k)) (vmem k)) k in
  let k := with_esp0 (stack_top (kstack (task_at t k))) k in
  upd_task t (λ x, with_switches (switches x ⊞ 1) (with_state TASK_RUNNING x)) k.

(** ** Exit and wait *)

(** The new parent of the children of a task that ends. *)
Definition adopter (parent : Z) k : Z :=
  match init_task k with
  | Some i =>
      if negb (i =? parent) && negb (bool_decide (state (task_at i k) = TASK_UNUSED))
         && negb (bool_decide (state (task_at i k) = TASK_ZOMBIE))
      then pid (task_at i k) else 0
  | None => 0
  end.

Definition reparent_child (old_parent_pid new_parent_pid t : Z) k : kernel :=
  let x := task_at t k in
  if bool_decide (state x = TASK_UNUSED) || negb (parent_pid x =? old_parent_pid) then k
  else
    let x := with_parent_pid new_parent_pid x in
    set_task t (if (new_parent_pid =? 0) && bool_decide (state x = TASK_ZOMBIE) then with_reap_ready 1 x else x) k.

(** The pid of the parent is read anew for every child: a task is its own child only
    when its parent is itself. *)
Definition proc_reparent_children (parent : Z) k : kernel :=
  let new_parent_pid := adopter parent k in
  for_range 0 MAX_TASKS (λ t k, reparent_child (pid (task_at parent k)) new_parent_pid t k) k.

(** The four bytes of a status. *)
Definition status_bytes (status : Z) : carray Z := store32 (λ _, 0) 0 (u32 status).

Definition proc_finish_blocked_wait (parent child : Z) k : kernel :=
  let p := task_at parent k in
  let c := task_at child k in
  let '(r, s) := if truthy (wait_status_user p)
                 then user_copy_to_in (page_directory_phys p) (wait_status_user p) (Some (status_bytes (exit_status c)))
                        4 (vmem k)
                 else (0, vmem k) in
  let k := with_vmem s k in
  let k := set_eax (saved_esp p) (if truthy r then ERR else pid c) k in
  let k := upd_task parent (λ p, with_block_reason TASK_BLOCK_NONE (with_wait (-1) 0 p)) k in
  let k := if bool_decide (state (task_at parent k) = TASK_BLOCKED)
           then upd_task parent (with_state TASK_RUNNABLE) k else k in
  upd_task child (with_reap_ready 1) k.

Definition proc_notify_parent_exit (child : Z) k : kernel :=
  let c := task_at child k in
  if parent_pid c =? 0 then upd_task child (with_reap_ready 1) k
  else match task_find_by_pid (parent_pid c) k with
       | None => upd_task child (λ c, with_reap_ready 1 (with_parent_pid 0 c)) k
       | Some parent =>
           let p := task_at parent k in
           if negb (bool_decide (state p = TASK_BLOCKED))
              || negb (bool_decide (block_reason p = TASK_BLOCK_WAITPID))
              || negb (proc_wait_matches p c (wait_target_pid p)) then k
           else proc_finish_blocked_wait parent child k
       end.

Definition proc_collect_zombie_now (parent child status_user frame : Z) k : Z * kernel :=
  let p := task_at parent k in
  let c := task_at child k in
  let '(r, s) := if truthy status_user
                 then user_copy_to_in (page_directory_phys p) status_user (Some (status_bytes (exit_status c))) 4 (vmem k)
                 else (0, vmem k) in
  let k := with_vmem s k in
  if truthy r then (-1, set_eax frame ERR k)
  else (0, task_release_resources child (set_eax frame (pid c) k)).

(** ** Blocked input and output *)

Definition wake_blocked t k : kernel :=
  if bool_decide (state (task_at t k) = TASK_BLOCKED) then upd_task t (with_state TASK_RUNNABLE) k else k.

Definition proc_complete_blocked_io t (result : Z) k : kernel :=
  if saved_esp (task_at t k) =? 0 then k
  else wake_blocked t (upd_task t task_clear_blocked_io (set_eax (saved_esp (task_at t k)) (u32 result) k)).

Definition proc_complete_blocked_ping t (result : Z) k : kernel :=
  if saved_esp (task_at t k) =? 0 then k
  else
    let k := set_eax (saved_esp (task_at t k)) (u32 result) k in
    let k := upd_task t (with_block_reason TASK_BLOCK_NONE) k in
    let k := log_proc SYS_TRACE_EVENT_PROC_PING_WAKE (pid (task_at t k)) (u32 result) 0 k in
    wake_blocked t k.

(** What a transfer that fails reports: what was done before, or -1. *)
Definition done_or_error (done : Z) : Z := if truthy done then i32 done else -1.

Definition clip_chunk (chunk : Z) : Z := if PROC_IO_CHUNK <? chunk then PROC_IO_CHUNK else chunk.

Section io.
Context (fuel : nat) (stack : carray Z).

(** The loop of [proc_retry_blocked_read]; every turn but the last moves at least one
    byte, so [blocked_length] turns and one are enough. *)
Fixpoint retry_read_loop (turns : nat) (file t : Z) k : option kernel :=
  match turns with
  | O => None
  | S turns =>
      let x := task_at t k in
      if negb (blocked_done x <? blocked_length x) then Some (proc_complete_blocked_io t (i32 (blocked_done x)) k)
      else
        let chunk := clip_chunk (blocked_length x ⊟ blocked_done x) in
        '(read_result, buffer, v) ← vfs_read_file fuel (Some file) (Some stack) chunk (sys k);
        let k := with_sys v k in
        if read_result =? VFS_ERR_WOULD_BLOCK
        then Some (if truthy (blocked_done x) then proc_complete_blocked_io t (i32 (blocked_done x)) k else k)
        else if read_result <? 0 then Some (proc_complete_blocked_io t (done_or_error (blocked_done x)) k)
        else if read_result =? 0 then Some (proc_complete_blocked_io t (i32 (blocked_done x)) k)
        else
          let '(r, s) := user_copy_to_in (page_directory_phys x) (blocked_user_buffer x ⊞ blocked_done x) buffer
                           read_result (vmem k) in
          let k := with_vmem s k in
          if truthy r then Some (proc_complete_blocked_io t (done_or_error (blocked_done x)) k)
          else
            let done := blocked_done x ⊞ read_result in
            let k := upd_task t (with_blocked_done done) k in
            if read_result <? chunk then Some (proc_complete_blocked_io t (i32 done) k)
            else retry_read_loop turns file t k
  end.

Definition proc_retry_blocked_read t k : option kernel :=
  let x := task_at t k in
  if negb (bool_decide (block_reason x = TASK_BLOCK_IO_READ)) then Some k
  else match proc_lookup_fd (Some x) (blocked_fd x) with
       | None => Some (proc_complete_blocked_io t (done_or_error (blocked_done x)) k)
       | Some file => retry_read_loop (S (Z.to_nat (blocked_length x))) file t k
       end.

Fixpoint retry_write_loop (turns : nat) (file t : Z) k : option kernel :=
  match turns with
  | O => None
  | S turns =>
      let x := task_at t k in
      if negb (blocked_done x <? blocked_length x) then Some (proc_complete_blocked_io t (i32 (blocked_done x)) k)
      else
        let chunk := clip_chunk (blocked_length x ⊟ blocked_done x) in
        let '(r, staging) := user_copy_from_in (page_directory_phys x) (Some stack)
                               (blocked_user_buffer x ⊞ blocked_done x) chunk (vmem k) in
        if truthy r then Some (proc_complete_blocked_io t (done_or_error (blocked_done x)) k)
        else
          let '(write_result, v) := vfs_write_file (Some file) staging chunk (sys k) in
          let k := with_sys v k in
          if write_result =? VFS_ERR_WOULD_BLOCK
          then Some (if truthy (blocked_done x) then proc_complete_blocked_io t (i32 (blocked_done x)) k else k)
          else if write_result <? 0 then Some (proc_complete_blocked_io t (done_or_error (blocked_done x)) k)
          else
            let done := blocked_done x ⊞ write_result in
            let k := upd_task t (with_blocked_done done) k in
            if write_result <? chunk then Some (proc_complete_blocked_io t (i32 done) k)
            else retry_write_loop turns file t k
  end.

Definition proc_retry_blocked_write t k : option kernel :=
  let x := task_at t k in
  if negb (bool_decide (block_reason x = TASK_BLOCK_IO_WRITE)) then Some k
  else match proc_lookup_fd (Some x) (blocked_fd x) with
       | None => Some (proc_complete_blocked_io t (done_or_error (blocked_done x)) k)
       | Some file => retry_write_loop (S (Z.to_nat (blocked_length x))) file t k
       end.

Definition service_io t k : option kernel :=
  let x := task_at t k in
  if negb (bool_decide (state x = TASK_BLOCKED)) then Some k
  else if bool_decide (block_reason x = TASK_BLOCK_IO_READ) then proc_retry_blocked_read t k
  else if bool_decide (block_reason x = TASK_BLOCK_IO_WRITE) then proc_retry_blocked_write t k
  else Some k.

(** A loop whose body may not return. *)
Definition for_each_task (body : Z → kernel → option kernel) k : option kernel :=
  for_range 0 MAX_TASKS (λ t (o : option kernel), o ≫= body t) (Some k).

Definition proc_service_blocked_io k : option kernel := for_each_task service_io k.

Definition service_net t k : kernel :=
  let x := task_at t k in
  if negb (bool_decide (state x = TASK_BLOCKED)) || negb (bool_decide (block_reason x = TASK_BLOCK_NET_PING)) then k
  else
    let '(status, result, n) := net_ping4_poll_result (pid x) (net k) in
    let k := with_net n (ring k) k in
    if status =? 1 then proc_complete_blocked_ping t result k
    else if status <? 0 then proc_complete_blocked_ping t SYS_PING_ERR_INVALID k
    else k.

Definition proc_service_blocked_net k : kernel := for_range 0 MAX_TASKS service_net k.

(** ** The scheduler *)

(** The part of [proc_schedule] before the choice. *)
Definition save_current frame k : kernel :=
  match current_task k with
  | None => k
  | Some t =>
      upd_task t (λ x, let x := with_run_ticks (run_ticks x ⊞ 1) (with_saved_esp frame x) in
                       if bool_decide (state x = TASK_RUNNING) then with_state TASK_RUNNABLE x else x) k
  end.

Definition poll_devices k : kernel :=
  let k := with_clock (pit_ensure_progress (clock k)) k in
  let k := proc_wake_sleepers k in
  let k := with_sys (with_io (input_poll (io (sys k))) (sys k)) k in
  let '(n, r) := net_poll (pit_ticks (clock k)) (net k) (ring k) in
  proc_service_blocked_net (with_net n r k).

Definition proc_schedule frame k : option (Z * kernel) :=
  let k := poll_devices (save_current frame k) in
  k ← proc_service_blocked_io k;
  let k := proc_collect_reapable_zombies k in
  Some (match proc_pick_next k with
        | None => (frame, k)
        | Some t => let k := proc_activate_task t k in (saved_esp (task_at t k), k)
        end).

Definition proc_enter_initial_task k : option (Z * kernel) :=
  match proc_pick_next k with
  | None => None
  | Some t => let k := proc_activate_task t k in Some (saved_esp (task_at t k), k)
  end.

Definition proc_current_pid k : Z := match cur k with Some x => pid x | None => 0 end.
Definition proc_current_ticks k : Z := pit_ticks (clock k).

(** [None] is a null frame. *)
Definition proc_preemptible_from_interrupt (frame : option Z) k : bool :=
  match frame, cur k with
  | Some frame, Some x => negb (bool_decide (kind x = TASK_USER) && negb (interrupt_from_user (frame_at frame k)))
  | _, _ => true
  end.

(** ** Descriptors of the current task *)

(** The result of a call that needs the current task. *)
Definition upd_cur (g : task → task) k : kernel :=
  match current_task k with Some t => upd_task t g k | None => k end.

Definition cur_credentials k : option vfs_credentials := Some (proc_fill_credentials (cur k)).

Definition proc_open_fd (path : option (list Z)) (flags : Z) k : option (Z * kernel) :=
  match current_task k, proc_normalize_path (cur k) path PROC_PATH_MAX with
  | Some t, Some absolute_path =>
      if (Z.land flags VFS_O_RDWR =? 0)
         || truthy (Z.land flags (not32 (Z.lor (Z.lor VFS_O_RDWR VFS_O_CREATE) VFS_O_TRUNC))) then Some (-1, k)
      else
        let fd := proc_allocate_fd_slot (task_at t k) in
        if fd <? 0 then Some (-1, k)
        else match proc_effective_path (task_at t k) absolute_path PROC_PATH_MAX with
        | None => Some (-1, k)
        | Some effective_path =>
            let credentials := cur_credentials k in
            let open_flags := Z.land flags (not32 VFS_O_CREATE) in
            let '(r, file, v) := vfs_open_path true (Some effective_path) open_flags credentials (sys k) in
            opened ← (if negb (truthy r) then Some (file, v)
                      else if Z.land flags VFS_O_CREATE =? 0 then Some (None, v)
                      else '(r, file, v) ← vfs_create_path stack true (Some effective_path) open_flags
                                             VFS_MODE_FILE_DEFAULT credentials v;
                           Some (if truthy r then None else file, v));
            let '(file, v) := opened in
            match file with
            | None => Some (-1, with_sys v k)
            | Some f =>
                let '(r, v) := if truthy (Z.land flags VFS_O_TRUNC) && truthy (Z.land flags VFS_O_WRONLY)
                               then vfs_truncate_file (Some f) 0 v else (0, v) in
                if truthy r then Some (-1, with_sys (vfs_close_file (Some f) v) k)
                else
                  let '(r, x) := proc_install_fd fd (Some f) (task_at t k) in
                  if r <? 0 then Some (-1, with_sys (vfs_close_file (Some f) v) k)
                  else Some (fd, set_task t x (with_sys v k))
            end
        end
  | _, _ => Some (-1, k)
  end.

Definition proc_close_fd (fd : Z) k : Z * kernel :=
  match current_task k with
  | None => (-1, k)
  | Some t =>
      if VFS_MAX_FDS <=? fd then (-1, k)
      else match fd_table (task_at t k) fd with
           | None => (-1, k)
           | Some f =>
               let k := upd_task t (λ x, with_fd_table (<[fd := None]> (fd_table x)) x) k in
               (0, with_sys (vfs_close_file (Some f) (sys k)) k)
           end
  end.

Definition proc_read_fd (fd : Z) (buffer : option (carray Z)) (length : Z) k
    : option (Z * option (carray Z) * kernel) :=
  match cur k with
  | None => Some (-1, buffer, k)
  | Some x =>
      '(r, buffer, v) ← vfs_read_fd fuel (Some (fd_table x)) VFS_MAX_FDS fd buffer length (sys k);
      Some (r, buffer, with_sys v k)
  end.

Definition proc_write_fd (fd : Z) (buffer : option (carray Z)) (length : Z) k : Z * kernel :=
  match cur k with
  | None => (-1, k)
  | Some x =>
      let '(r, v) := vfs_write_fd (Some (fd_table x)) VFS_MAX_FDS fd buffer length (sys k) in (r, with_sys v k)
  end.

Definition proc_seek_fd (fd offset whence : Z) k : Z * kernel :=
  match proc_lookup_fd (cur k) fd with
  | None => (-1, k)
  | Some f => let '(r, v) := vfs_seek_file (Some f) offset whence (sys k) in (r, with_sys v k)
  end.

Definition proc_mkdir (path : option (list Z)) k : option (Z * kernel) :=
  match proc_normalize_path (cur k) path PROC_PATH_MAX with
  | None => Some (-1, k)
  | Some absolute_path =>
      '(r, v) ← vfs_mkdir_path stack (Some absolute_path) VFS_MODE_DIR_DEFAULT (cur_credentials k) (sys k);
      Some (r, with_sys v k)
  end.

Definition proc_unlink (path : option (list Z)) k : option (Z * kernel) :=
  match proc_normalize_path (cur k) path PROC_PATH_MAX with
  | None => Some (-1, k)
  | Some absolute_path =>
      '(r, v) ← vfs_unlink_path stack (Some absolute_path) (cur_credentials k) (sys k);
      Some (r, with_sys v k)
  end.

Definition proc_stat (path : option (list Z)) (stat : option vfs_stat) k : Z * option vfs_stat :=
  match cur k, stat, proc_normalize_path (cur k) path PROC_PATH_MAX with
  | Some x, Some _, Some absolute_path =>
      match proc_effective_path x absolute_path PROC_PATH_MAX with
      | None => (-1, stat)
      | Some effective_path => vfs_stat_path (Some effective_path) (cur_credentials k) stat (sys k)
      end
  | _, _, _ => (-1, stat)
  end.

Definition proc_getcwd (length : Z) k : option (list Z) :=
  match cur k with
  | None => None
  | Some x => if (length =? 0) || (length <? Z.of_nat (Datatypes.length (cwd x)) + 1) then None else Some (cwd x)
  end.

Definition no_stat : vfs_stat :=
  {| st_kind := VFS_INODE_NONE; st_size := 0; st_child_count := 0; st_mode := 0; st_uid := 0; st_gid := 0; st_links := 0 |}.

Definition proc_chdir (path : option (list Z)) k : Z * kernel :=
  match proc_normalize_path (cur k) path PROC_PATH_MAX with
  | None => (-1, k)
  | Some absolute_path =>
      let credentials := cur_credentials k in
      let '(r, stat) := vfs_stat_path (Some absolute_path) credentials (Some no_stat) (sys k) in
      if truthy r || negb (bool_decide (st_kind <$> stat = Some VFS_INODE_DIR))
         || truthy (vfs_access_path (Some absolute_path) credentials VFS_ACCESS_EXEC (sys k)) then (-1, k)
      else (0, upd_cur (with_cwd (string_copy absolute_path PROC_PATH_MAX)) k)
  end.

Definition proc_dup (fd : Z) k : Z * kernel :=
  match current_task k, proc_lookup_fd (cur k) fd with
  | Some t, Some f =>
      let new_fd := proc_allocate_fd_slot (task_at t k) in
      if new_fd <? 0 then (-1, k)
      else
        let k := with_sys (vfs_retain_file (Some f) (sys k)) k in
        (new_fd, upd_task t (λ x, with_fd_table (<[new_fd := Some f]> (fd_table x)) x) k)
  | _, _ => (-1, k)
  end.

Definition proc_dup2 (oldfd newfd : Z) k : Z * kernel :=
  match current_task k, proc_lookup_fd (cur k) oldfd with
  | Some t, Some f =>
      if VFS_MAX_FDS <=? newfd then (-1, k)
      else if oldfd =? newfd then (newfd, k)
      else
        let k := match fd_table (task_at t k) newfd with Some _ => (proc_close_fd newfd k).2 | None => k end in
        let k := with_sys (vfs_retain_file (Some f) (sys k)) k in
        (newfd, upd_task t (λ x, with_fd_table (<[newfd := Some f]> (fd_table x)) x) k)
  | _, _ => (-1, k)
  end.

Definition proc_getuid k : Z := match cur k with Some x => uid x | None => 0 end.
Definition proc_getgid k : Z := match cur k with Some x => gid x | None => 0 end.

Definition proc_setuid (u : Z) k : Z * kernel :=
  match cur k with
  | Some x => if truthy (uid x) then (-1, k) else (0, upd_cur (with_uid u) k)
  | None => (-1, k)
  end.

Definition proc_setgid (g : Z) k : Z * kernel :=
  match cur k with
  | Some x => if truthy (uid x) then (-1, k) else (0, upd_cur (with_gid g) k)
  | None => (-1, k)
  end.

Definition proc_setsid k : Z * kernel :=
  match cur k with
  | Some x => (i32 (pid x), upd_cur (λ x, with_tty_name [] (with_session (pid x) (pid x) x)) k)
  | None => (-1, k)
  end.

Definition proc_gettty (length : Z) k : option (list Z) :=
  match cur k with
  | None => None
  | Some x => if (length =? 0) || bool_decide (tty_name x = [])
                 || (length <? Z.of_nat (Datatypes.length (tty_name x)) + 1) then None else Some (tty_name x)
  end.

Definition close_some (f : option Z) (v : vfs St Hp Io) : vfs St Hp Io :=
  match f with Some _ => vfs_close_file f v | None => v end.

(** The descriptors of the two ends, [None] for -1. *)
Definition proc_pipe k : option (option (Z * Z) * kernel) :=
  match current_task k with
  | None => Some (None, k)
  | Some t =>
      let read_fd := proc_allocate_fd_slot (task_at t k) in
      if read_fd <? 0 then Some (None, k)
      else
        let write_fd := proc_allocate_fd_slot_excluding read_fd (task_at t k) in
        if write_fd <? 0 then Some (None, k)
        else
          '(r, read_file, write_file, v) ← vfs_create_pipe true (sys k);
          let fail (x : task) :=
            Some (None, set_task t (with_fd_table (<[write_fd := None]> (<[read_fd := None]> (fd_table x))) x)
                          (with_sys (close_some write_file (close_some read_file v)) k)) in
          if truthy r then fail (task_at t k)
          else
            let '(r, x) := proc_install_fd read_fd read_file (task_at t k) in
            if r <? 0 then fail x
            else
              let '(r, x) := proc_install_fd write_fd write_file x in
              if r <? 0 then fail x
              else Some (Some (read_fd, write_fd), set_task t x (with_sys v k))
  end.

Record sys_procinfo := {
  pi_pid : Z; pi_parent_pid : Z; pi_sid : Z; pi_pgid : Z; pi_state : task_state; pi_kind : task_kind;
  pi_run_ticks : Z; pi_uid : Z; pi_gid : Z; pi_name : list Z; pi_tty : list Z;
}.

Definition procinfo_of (x : task) : sys_procinfo :=
  {| pi_pid := pid x; pi_parent_pid := parent_pid x; pi_sid := session_id x; pi_pgid := process_group_id x;
     pi_state := state x; pi_kind := kind x; pi_run_ticks := run_ticks x; pi_uid := uid x; pi_gid := gid x;
     pi_name := string_copy (task_name x) SYS_NAME_MAX; pi_tty := string_copy (tty_name x) SYS_NAME_MAX |}.

(** The loop from [slot] on, [seen] tasks before it. *)
Fixpoint procinfo_from (n : nat) (slot seen index : Z) k : option sys_procinfo :=
  match n with
  | O => None
  | S n =>
      if bool_decide (state (tasks k slot) = TASK_UNUSED) then procinfo_from n (slot + 1) seen index k
      else if negb (seen =? index) then procinfo_from n (slot + 1) (seen + 1) index k
      else Some (procinfo_of (tasks k slot))
  end.

(** 1 and no record past the last task. *)
Definition proc_procinfo (index : Z) k : Z * option sys_procinfo :=
  match procinfo_from (Z.to_nat MAX_TASKS) 0 0 index k with Some i => (0, Some i) | None => (1, None) end.

Definition proc_readdir (path : option (list Z)) (index : Z) (entry : option vfs_dirent_info) k
    : Z * option vfs_dirent_info :=
  match entry, proc_normalize_path (cur k) path PROC_PATH_MAX with
  | Some _, Some absolute_path => vfs_readdir_path (Some absolute_path) (cur_credentials k) index entry (sys k)
  | _, _ => (-1, entry)
  end.

(** ** System calls *)

(** The transfers of [proc_sys_read] and [proc_sys_write] between the staging buffer and
    the caller, whose memory is the user's or the kernel's. *)
Definition copy_out (user : bool) (a : Z) (bytes : option (carray Z)) (n : Z) k : Z * kernel :=
  if user then let '(r, s) := user_copy_to a bytes n (vmem k) in (r, with_vmem s k)
  else (0, with_kmem (copy_bytes (kmem k) a (default stack bytes) 0 n) k).

Definition copy_in (user : bool) (a n : Z) k : Z * option (carray Z) :=
  if user then user_copy_from (Some stack) a n (vmem k) else (0, Some (copy_bytes stack 0 (kmem k) a n)).

Definition block_on_io (reason : task_block_reason) (fd buffer_user length : Z) k : kernel :=
  upd_cur (λ x, with_state TASK_BLOCKED (with_blocked fd buffer_user length 0 (with_block_reason reason x))) k.

(** The result in the frame, and the frame. *)
Definition return_to frame (x : Z) k : option (Z * kernel) := Some (frame, set_eax frame x k).

Definition done_or_err (done : Z) : Z := if truthy done then done else ERR.

Fixpoint sys_read_loop (turns : nat) (frame fd buffer_user length file done : Z) k : option (Z * kernel) :=
  match turns with
  | O => None
  | S turns =>
      if negb (done <? length) then return_to frame done k
      else
        let user := interrupt_from_user (frame_at frame k) in
        let chunk := clip_chunk (length ⊟ done) in
        '(read_result, buffer, v) ← vfs_read_file fuel (Some file) (Some stack) chunk (sys k);
        let k := with_sys v k in
        if read_result =? VFS_ERR_WOULD_BLOCK then
          if truthy done || negb user then return_to frame (done_or_err done) k
          else proc_schedule frame (block_on_io TASK_BLOCK_IO_READ fd buffer_user length k)
        else if read_result <? 0 then return_to frame (done_or_err done) k
        else if read_result =? 0 then return_to frame done k
        else
          let '(r, k) := copy_out user (buffer_user ⊞ done) buffer read_result k in
          if truthy r then return_to frame (done_or_err done) k
          else
            let done := done ⊞ read_result in
            if read_result <? chunk then return_to frame done k
            else sys_read_loop turns frame fd buffer_user length file done k
  end.

Definition proc_sys_read (frame fd buffer_user length : Z) k : option (Z * kernel) :=
  match current_task k with
  | None => return_to frame ERR k
  | Some _ =>
      if buffer_user =? 0 then return_to frame ERR k
      else if length =? 0 then return_to frame 0 k
      else match proc_lookup_fd (cur k) fd with
           | None => return_to frame ERR k
           | Some file => sys_read_loop (S (Z.to_nat length)) frame fd buffer_user length file 0 k
           end
  end.

Fixpoint sys_write_loop (turns : nat) (frame fd buffer_user length file done : Z) k : option (Z * kernel) :=
  match turns with
  | O => None
  | S turns =>
      if negb (done <? length) then return_to frame done k
      else
        let user := interrupt_from_user (frame_at frame k) in
        let chunk := clip_chunk (length ⊟ done) in
        let '(r, staging) := copy_in user (buffer_user ⊞ done) chunk k in
        if truthy r then return_to frame (done_or_err done) k
        else
          let '(write_result, v) := vfs_write_file (Some file) staging chunk (sys k) in
          let k := with_sys v k in
          if write_result =? VFS_ERR_WOULD_BLOCK then
            if truthy done || negb user then return_to frame (done_or_err done) k
            else proc_schedule frame (block_on_io TASK_BLOCK_IO_WRITE fd buffer_user length k)
          else if write_result <? 0 then return_to frame (done_or_err done) k
          else
            let done := done ⊞ write_result in
            if write_result <? chunk then return_to frame done k
            else sys_write_loop turns frame fd buffer_user length file done k
  end.

Definition proc_sys_write (frame fd buffer_user length : Z) k : option (Z * kernel) :=
  match current_task k with
  | None => return_to frame ERR k
  | Some _ =>
      if buffer_user =? 0 then return_to frame ERR k
      else if length =? 0 then return_to frame 0 k
      else match proc_lookup_fd (cur k) fd with
           | None => return_to frame ERR k
           | Some file => sys_write_loop (S (Z.to_nat length)) frame fd buffer_user length file 0 k
           end
  end.

Definition fd_bytes (a b : Z) : carray Z := store32 (store32 (λ _, 0) 0 (u32 a)) 4 (u32 b).

Definition proc_sys_pipe (frame fds_user : Z) k : option (Z * kernel) :=
  match current_task k with
  | None => return_to frame ERR k
  | Some _ =>
      if fds_user =? 0 then return_to frame ERR k
      else
        '(fds, k) ← proc_pipe k;
        match fds with
        | None => return_to frame ERR k
        | Some (read_fd, write_fd) =>
            let '(r, k) := copy_out (interrupt_from_user (frame_at frame k)) fds_user
                             (Some (fd_bytes read_fd write_fd)) 8 k in
            if truthy r
            then return_to frame ERR (proc_close_fd write_fd (proc_close_fd read_fd k).2).2
            else return_to frame 0 k
        end
  end.

Definition proc_sys_exit (frame status : Z) k : option (Z * kernel) :=
  match current_task k with
  | None => Some (frame, k)
  | Some t =>
      let k := proc_reparent_children t (task_close_files t k) in
      let k := upd_task t (λ x, with_state TASK_ZOMBIE (task_clear_blocked_io
                 (with_wait (-1) 0 (with_exit_status status x)))) k in
      let k := upd_task t (λ x, with_reap_ready (if parent_pid x =? 0 then 1 else 0) x) k in
      let x := task_at t k in
      let k := log_proc SYS_TRACE_EVENT_PROC_EXIT (pid x) (u32 status) (parent_pid x) k in
      proc_schedule frame (proc_notify_parent_exit t k)
  end.

Definition proc_sys_waitpid (frame target_pid status_user : Z) k : option (Z * kernel) :=
  match current_task k with
  | None => return_to frame ERR k
  | Some t =>
      let x := task_at t k in
      if negb (bool_decide (kind x = TASK_USER)) || negb (interrupt_from_user (frame_at frame k))
      then return_to frame ERR k
      else if (target_pid =? 0)
              || (truthy status_user && negb (proc_user_buffer_writable (page_directory_phys x) status_user 4 k))
      then return_to frame ERR k
      else match proc_find_zombie_child x target_pid k with
           | Some child => Some (frame, (proc_collect_zombie_now t child status_user frame k).2)
           | None =>
               if negb (proc_has_child x target_pid k) then return_to frame ERR k
               else
                 let k := upd_task t (λ x, with_state TASK_BLOCKED (with_block_reason TASK_BLOCK_WAITPID
                            (with_wait target_pid status_user x))) k in
                 proc_schedule frame k
           end
  end.

Definition proc_sys_sleep (frame ticks : Z) k : option (Z * kernel) :=
  match current_task k with
  | None => return_to frame ERR k
  | Some t =>
      if ticks =? 0 then proc_schedule frame (set_eax frame 0 k)
      else
        let k := upd_task t (λ x, with_state TASK_SLEEPING (with_wake_tick (pit_ticks (clock k) ⊞ ticks) x)) k in
        proc_schedule frame (set_eax frame 0 k)
  end.

Definition proc_sys_ping4 (frame destination_ipv4 timeout_ticks : Z) k : option (Z * kernel) :=
  match current_task k with
  | None => return_to frame (u32 SYS_PING_ERR_INVALID) k
  | Some t =>
      let '(result, n, r) := net_ping4_start (pit_ticks (clock k)) (pid (task_at t k)) destination_ipv4 timeout_ticks
                               (net k) (ring k) in
      let k := with_net n r k in
      if truthy result then return_to frame (u32 result) k
      else
        let k := log_proc SYS_TRACE_EVENT_PROC_PING_BLOCK (pid (task_at t k)) destination_ipv4 timeout_ticks k in
        proc_schedule frame (upd_task t (λ x, with_state TASK_BLOCKED (with_block_reason TASK_BLOCK_NET_PING x)) k)
  end.

(** ** Creation of tasks, fork and exec *)

(** Argument vectors are arrays of strings. *)
Definition task_load_user_image t (path : option (list Z)) (argv : option (carray (option (list Z)))) (argc : Z) k
    : option (Z * kernel) :=
  match path with
  | None => Some (-1, k)
  | Some _ =>
      let dir := page_directory_phys (task_at t k) in
      '(r, i, v) ← exec_load_path fuel stack dir path (Some (image (task_at t k))) (sys k);
      let k := upd_task t (with_image (default (image (task_at t k)) i)) (with_sys v k) in
      if truthy r then Some (-1, k)
      else
        let '(r, i, s) := exec_prepare_stack dir (Some (image (task_at t k))) argv argc (vmem k) in
        let k := upd_task t (with_image (default (image (task_at t k)) i)) (with_vmem s k) in
        if truthy r then
          let '(i, s) := exec_release_image dir (Some (image (task_at t k))) (vmem k) in
          let k := upd_task t (with_image (default (image (task_at t k)) i)) (with_vmem s k) in
          Some (-1, upd_task t (λ x, with_image (task_reset_image (image x)) x) k)
        else Some (0, upd_task t (task_set_name (Some (path_basename path))) k)
  end.

(** [bootstrap] is the address of [task_bootstrap]. *)
Definition proc_create_kernel_task (bootstrap : Z) (name : list Z) (e : task_entry) (a : option (list Z)) k
    : option Z * kernel :=
  match task_find_unused k with
  | (None, k) => (None, k)
  | (Some t, k) =>
      let '(r, k) := task_setup_kernel_stack t k in
      if truthy r then (None, upd_task t task_reset k)
      else
        let '(r, k) := task_setup_stdio t k in
        if truthy r then (None, task_release_resources t k)
        else
          let frame := stack_top (kstack (task_at t k)) ⊟ sizeof_interrupt_frame in
          let k := with_kframes (<[frame := task_prepare_kernel_frame bootstrap (kframes k frame)]> (kframes k)) k in
          let k := upd_task t (λ x,
            with_entry (Some e) a (task_set_name (Some name) (with_saved_esp frame
              (with_directory (kernel_page_directory_phys (vmem k)) (with_kind TASK_KERNEL x))))) k in
          let k := with_next_pid (next_pid k ⊞ 1) (upd_task t (with_pid (next_pid k)) k) in
          (Some t, upd_task t (with_state TASK_RUNNABLE) k)
  end.

Definition proc_create_user_task (path : list Z) k : option (option Z * kernel) :=
  match task_find_unused k with
  | (None, k) => Some (None, k)
  | (Some t, k) =>
      let '(r, k) := task_setup_kernel_stack t k in
      if truthy r then Some (None, upd_task t task_reset k)
      else
        let '(r, k) := task_setup_stdio t k in
        if truthy r then Some (None, task_release_resources t k)
        else
          let '(dir, s) := paging_create_address_space (vmem k) in
          let k := upd_task t (with_directory dir) (with_vmem s k) in
          if dir =? 0 then Some (None, task_release_resources t k)
          else
            let argv : carray (option (list Z)) := λ _, Some (path_basename (Some path)) in
            '(r, k) ← task_load_user_image t (Some path) (Some argv) 1 k;
            if truthy r then Some (None, task_release_resources t k)
            else
              let x := task_at t k in
              let frame := stack_top (kstack x) ⊟ sizeof_interrupt_user_frame in
              let k := with_kframes (<[frame := task_prepare_user_frame (entry_point (image x))
                                                  (image_stack_top (image x))]> (kframes k)) k in
              let k := upd_task t (λ x, with_saved_esp frame (with_kind TASK_USER x)) k in
              let p := next_pid k in
              let k := with_next_pid (p ⊞ 1) k in
              Some (Some t, upd_task t (λ x, with_state TASK_RUNNABLE (task_set_tty (Some PROC_DEFAULT_TTY)
                (with_session p p (with_gid 0 (with_uid 0 (with_pid p x)))))) k)
  end.

Definition proc_init (bootstrap : Z) k : kernel :=
  let k := for_range 0 MAX_TASKS (λ t k, upd_task t task_reset k) k in
  let k := with_init None (with_current None k) in
  let '(t, k) := proc_create_kernel_task bootstrap (c_bytes "idle") idle_entry None k in
  let k := with_idle t k in
  match t with
  | None => k
  | Some t => with_logged 0 (with_esp0 (stack_top (kstack (task_at t k))) k)
  end.

(** [serial] says whether there is a serial console. *)
Definition proc_start_boot_tasks (serial : bool) (bootstrap : Z) k : option kernel :=
  '(t, k) ← proc_create_user_task (c_bytes "/bin/init") k;
  let k := with_init t k in
  if negb serial then Some k
  else
    let worker name k := (proc_create_kernel_task bootstrap name worker_entry (Some name) k).2 in
    Some (worker (c_bytes "worker-b") (worker (c_bytes "worker-a") k)).

(** The string in a buffer. *)
Definition buffer_string (n : Z) (bytes : option (carray Z)) : list Z :=
  default [] (bytes ≫= λ m, string_at (Z.to_nat n) m 0).

(** The word at a user address. *)
Definition user_word (dir a : Z) k : option Z :=
  let '(r, bytes) := user_copy_from_in dir (Some (λ _, 0)) a 4 (vmem k) in
  if truthy r then None else Some (load32 (default (λ _, 0) bytes) 0).

(** The loop of [proc_copy_exec_args], [n] pointers to go: the strings and how many. *)
Fixpoint copy_args_loop (n : nat) (dir argv_user index : Z) (argv : carray (option (list Z))) k
    : option (carray (option (list Z)) * Z) :=
  match n with
  | O => Some (argv, index)
  | S n =>
      match user_word dir (argv_user ⊞ (index ⊠ 4)) k with
      | None => None
      | Some arg_address =>
          if arg_address =? 0 then Some (argv, index)
          else
            let '(r, bytes) := user_copy_string_from_in dir (Some stack) arg_address EXEC_ARG_MAX (vmem k) in
            if truthy r then None
            else copy_args_loop n dir argv_user (index + 1)
                   (<[index := Some (buffer_string EXEC_ARG_MAX bytes)]> argv) k
      end
  end.

Definition proc_copy_exec_args (default_argv0 : list Z) (argv_user : Z) k : option (carray (option (list Z)) * Z) :=
  let dir := match cur k with Some x => page_directory_phys x | None => 0 end in
  let copied :=
    if argv_user =? 0 then Some (λ _, None, 0)
    else match copy_args_loop (Z.to_nat EXEC_MAX_ARGS) dir argv_user 0 (λ _, None) k with
         | None => None
         | Some (argv, index) =>
             if negb (index =? EXEC_MAX_ARGS) then Some (argv, index)
             else match user_word dir (argv_user ⊞ (index ⊠ 4)) k with
                  | Some terminator => if truthy terminator then None else Some (argv, index)
                  | None => None
                  end
         end in
  match copied with
  | None => None
  | Some (argv, index) => if index =? 0 then Some (<[0 := Some default_argv0]> argv, 1) else Some (argv, index)
  end.

Definition no_image : exec_image :=
  {| entry_point := 0; image_stack_top := 0; mapped_virtuals := λ _, 0; mapped_pages := λ _, 0; mapped_page_count := 0 |}.

(** The replacement of the image of the current task [t] by one that is loaded. *)
Definition switch_image t (path : list Z) (new_directory : Z) (new_image : exec_image) k : Z * kernel :=
  let old_directory := page_directory_phys (task_at t k) in
  let old_image := image (task_at t k) in
  let k := upd_task t (λ x, task_set_name (Some (path_basename (Some path)))
             (with_image new_image (with_directory new_directory x))) k in
  let new_frame := stack_top (kstack (task_at t k)) ⊟ sizeof_interrupt_user_frame in
  let k := with_kframes (<[new_frame := task_prepare_user_frame (entry_point new_image)
                                          (image_stack_top new_image)]> (kframes k)) k in
  let k := upd_task t (with_saved_esp new_frame) k in
  let k := with_vmem (paging_switch_directory new_directory (vmem k)) k in
  let k := with_esp0 (stack_top (kstack (task_at t k))) k in
  let k := log_proc SYS_TRACE_EVENT_PROC_EXEC (pid (task_at t k)) (entry_point new_image) new_directory k in
  let k := with_vmem (exec_release_image old_directory (Some old_image) (vmem k)).2 k in
  let k := if truthy old_directory && negb (old_directory =? kernel_page_directory_phys (vmem k))
           then with_vmem (paging_destroy_address_space old_directory (vmem k)) k else k in
  (saved_esp (task_at t k), k).

Definition proc_sys_execv (frame path_user argv_user : Z) k : option (Z * kernel) :=
  match current_task k with
  | None => return_to frame ERR k
  | Some t =>
      if negb (bool_decide (kind (task_at t k) = TASK_USER)) || negb (interrupt_from_user (frame_at frame k))
      then return_to frame ERR k
      else
        let '(r, bytes) := user_copy_string_from (Some stack) path_user PROC_PATH_MAX (vmem k) in
        if truthy r then return_to frame ERR k
        else
          match proc_normalize_path (cur k) (Some (buffer_string PROC_PATH_MAX bytes)) PROC_PATH_MAX with
          | None => return_to frame ERR k
          | Some absolute_path =>
              match proc_copy_exec_args (path_basename (Some absolute_path)) argv_user k with
              | None => return_to frame ERR k
              | Some (argv, argc) =>
                  if truthy (vfs_access_path (Some absolute_path) (cur_credentials k) VFS_ACCESS_EXEC (sys k))
                  then return_to frame ERR k
                  else
                    let '(new_directory, s) := paging_create_address_space (vmem k) in
                    let k := with_vmem s k in
                    if new_directory =? 0 then return_to frame ERR k
                    else
                      '(r, i, v) ← exec_load_path fuel stack new_directory (Some absolute_path) (Some no_image) (sys k);
                      let k := with_sys v k in
                      let '(r, i, s) := if truthy r then (-1, i, vmem k)
                                        else exec_prepare_stack new_directory i (Some argv) argc (vmem k) in
                      let k := with_vmem s k in
                      if truthy r then
                        let k := with_vmem (exec_release_image new_directory i (vmem k)).2 k in
                        return_to frame ERR (with_vmem (paging_destroy_address_space new_directory (vmem k)) k)
                      else Some (switch_image t absolute_path new_directory (default no_image i) k)
              end
          end
  end.

Definition proc_sys_exec (frame path_user : Z) k : option (Z * kernel) := proc_sys_execv frame path_user 0 k.

(** The end of a failed fork. *)
Definition fail_fork frame (child : Z) k : option (Z * kernel) := return_to frame ERR (task_release_resources child k).

(** The child of the current task [t], its resources being set up. *)
Definition start_child frame t (child : Z) k : kernel :=
  let x := task_at t k in
  let child_frame := stack_top (kstack (task_at child k)) ⊟ sizeof_interrupt_user_frame in
  let k := with_kframes (<[child_frame := with_eax 0 (frame_at frame k)]> (kframes k)) k in
  let p := next_pid k in
  let k := with_next_pid (p ⊞ 1) k in
  let k := upd_task child (λ c,
    with_state TASK_RUNNABLE (with_tty_name (string_copy (tty_name x) SYS_NAME_MAX)
      (with_session (session_id x) (process_group_id x) (with_gid (gid x) (with_uid (uid x)
        (with_cwd (string_copy (cwd x) PROC_PATH_MAX) (with_parent_pid (pid x) (with_pid p
          (task_set_name (Some (task_name x)) (with_saved_esp child_frame (with_kind TASK_USER c))))))))))) k in
  log_proc SYS_TRACE_EVENT_PROC_FORK (pid x) p (page_directory_phys (task_at child k)) (set_eax frame p k).

Definition proc_sys_fork frame k : option (Z * kernel) :=
  let '(slot, k) := task_find_unused k in
  match current_task k, slot with
  | Some t, Some child =>
      if negb (bool_decide (kind (task_at t k) = TASK_USER)) || negb (interrupt_from_user (frame_at frame k))
      then return_to frame ERR k
      else
        let '(r, k) := task_setup_kernel_stack child k in
        if truthy r then return_to frame ERR (upd_task child task_reset k)
        else
          let '(r, fds, v) := vfs_clone_fds (Some (fd_table (task_at child k))) (Some (fd_table (task_at t k)))
                                VFS_MAX_FDS (sys k) in
          let k := upd_task child (with_fd_table (default (fd_table (task_at child k)) fds)) (with_sys v k) in
          if truthy r then fail_fork frame child k
          else
            let '(dir, s) := paging_create_address_space (vmem k) in
            let k := upd_task child (with_directory dir) (with_vmem s k) in
            if dir =? 0 then fail_fork frame child k
            else
              let '(r, i, s) := exec_clone_image (page_directory_phys (task_at t k)) dir (Some (image (task_at t k)))
                                  (Some (image (task_at child k))) (vmem k) in
              let k := upd_task child (with_image (default (image (task_at child k)) i)) (with_vmem s k) in
              if truthy r then fail_fork frame child k
              else Some (frame, start_child frame t child k)
  | _, _ => return_to frame ERR k
  end.

End io.

End proc.
Arguments kernel : clear implicits.
