(* ===== verification/ProcLive.v ===== *)
(** * Progress of the scheduler

    [proc_schedule] returns: the transfers that it retries end, because a file never moves
    more than it is asked for, and the console has finitely many characters waiting
    ([ConsoleLaws]).  And it is fair: a task that can run is chosen within
    eight calls. *)

From stdpp Require Import strings.
From S2P Require Import Prelude Abi Mem Palloc Trace Paging Usercopy Kheap Kstack Block Vnode Simplefs Vfs VfsHeap Exec Task Proc ProcSched.

Local Open Scope Z_scope.
Local Open Scope c_scope.

(** ** Files move at most what they are asked to move *)

(** [pending] bounds the characters that can be read before the next poll of the keyboard. *)
Class ConsoleLaws {Io : Type} `{!ConsoleIO Io} (pending : Io → nat) := {
  try_read_some o c o' : input_try_read_char o = (Some c, o') → (pending o' < pending o)%nat;
  try_read_none o o' : input_try_read_char o = (None, o') → (pending o' ≤ pending o)%nat;
  write_pending bytes o : (pending (console_write_len bytes o) ≤ pending o)%nat;
}.

Section files.
Context {St Hp Io : Type} `{!KernelHeap Hp} `{!ConsoleIO Io} (pending : Io → nat) `{!ConsoleLaws pending}.
Implicit Types v : vfs St Hp Io.

(** The lengths of the transfers of processes. *)
Definition small (length : Z) : Prop := 0 ≤ length ≤ PROC_IO_CHUNK.

Lemma i32_between n length : 0 ≤ n ≤ length → small length → i32 n = n.
Proof. unfold small, PROC_IO_CHUNK. intros. apply i32_small. lia. Qed.

Lemma console_read_returns fuel count length bytes o :
  small length → 0 ≤ count ≤ length → (pending o < fuel)%nat →
  ∃ r b o', console_read_loop fuel count length bytes o = Some (r, b, o') ∧ r ≤ length ∧ (pending o' ≤ pending o)%nat.
Proof.
  intros Hl. revert count bytes o. induction fuel as [|fuel IH]; intros count bytes o Hc Hf; [lia|]. cbn [console_read_loop].
  destruct (Z.ltb_spec count length) as [Hlt|Hge].
  2:{ exists (i32 count), bytes, o. rewrite (i32_between count length) by done. split_and!; [done|lia|done]. }
  destruct (input_try_read_char o) as [[c|] o1] eqn:Er.
  2:{ apply try_read_none in Er. eexists _, _, _. split; [done|]. split; [|done].
      case_if; [rewrite (i32_between count length) by done; lia|]. unfold VFS_ERR_WOULD_BLOCK. lia. }
  apply try_read_some in Er. set (ch := if c =? 13 then 10 else c).
  assert (count ⊞ 1 = count + 1) as E1 by (unfold small, PROC_IO_CHUNK in Hl; word_lia).
  destruct ((ch =? 8) || (ch =? 127)).
  - destruct (Z.eqb_spec count 0) as [->|Hn].
    + destruct (IH 0 bytes o1) as (r&b&o2&Eo&?&?); [lia..|]. exists r, b, o2. split_and!; [done|done|lia].
    + assert (count ⊟ 1 = count - 1) as -> by (unfold small, PROC_IO_CHUNK in Hl; word_lia).
      pose proof (write_pending [8; 32; 8] o1).
      destruct (IH (count - 1) bytes (console_write_len [8; 32; 8] o1)) as (r&b&o2&Eo&?&?); [lia..|].
      exists r, b, o2. split_and!; [done|done|lia].
  - pose proof (write_pending [ch] o1). case_if.
    + eexists _, _, _. split; [done|]. rewrite E1, (i32_between _ length) by (done || lia). lia.
    + rewrite E1. destruct (IH (count + 1) (<[count:=ch]> bytes) (console_write_len [ch] o1)) as (r&b&o2&Eo&?&?); [lia..|].
      exists r, b, o2. split_and!; [done|done|lia].
Qed.

Lemma pipe_read_bound fuel copied length bytes p :
  small length → 0 ≤ copied ≤ length → 0 ≤ (pipe_read_loop fuel copied length bytes p).1.1 ≤ length.
Proof.
  intros Hl. revert copied bytes p. induction fuel as [|fuel IH]; intros copied bytes p Hc; cbn [pipe_read_loop]; [done|].
  case_if; [|done]. zbool. apply IH. unfold small, PROC_IO_CHUNK in Hl. word_lia.
Qed.

Lemma pipe_write_bound fuel written length buffer p :
  small length → 0 ≤ written ≤ length → 0 ≤ (pipe_write_loop fuel written length buffer p).1 ≤ length.
Proof.
  intros Hl. revert written p. induction fuel as [|fuel IH]; intros written p Hc; cbn [pipe_write_loop]; [done|].
  case_if; [|done]. zbool. apply IH. unfold small, PROC_IO_CHUNK in Hl. word_lia.
Qed.

(** The size of one step of a file transfer. *)
Lemma chunk_bound length copied file_offset :
  small length → 0 ≤ copied < length →
  let chunk := Simplefs.min_u32 (length ⊟ copied) (SIMPLEFS_BLOCK_SIZE - file_offset mod SIMPLEFS_BLOCK_SIZE) in
  0 ≤ copied ⊞ chunk ≤ length.
Proof.
  unfold small, PROC_IO_CHUNK. intros Hl Hc. cbv zeta. unfold Simplefs.min_u32, SIMPLEFS_BLOCK_SIZE.
  pose proof (Z.mod_pos_bound file_offset 512). assert (length ⊟ copied = length - copied) as -> by word_lia.
  case_if; zbool; word_lia.
Qed.

Lemma regular_read_bound fuel node offset length copied destination (s : simplefs St) :
  small length → 0 ≤ copied ≤ length →
  0 ≤ (regular_read_loop fuel node offset length copied destination s).1.1.1 ≤ length.
Proof.
  intros Hl. revert copied destination s.
  induction fuel as [|fuel IH]; intros copied destination s Hc; cbn [regular_read_loop]; [done|].
  destruct (Z.ltb_spec copied length) as [Hlt|]; [|done]. cbv zeta.
  pose proof (chunk_bound length copied (offset ⊞ copied) Hl ltac:(lia)) as Hb. cbv zeta in Hb.
  case_if; [done|]. case_if.
  - destruct (simplefs_read_blocks _ _ _ _) as [r b]. case_if; [done|by apply IH].
  - destruct (simplefs_read_blocks _ _ _ _) as [r b]. case_if; [done|by apply IH].
Qed.

Lemma regular_write_bound fuel node offset length written buffer (s : simplefs St) :
  small length → 0 ≤ written ≤ length →
  0 ≤ (regular_write_loop fuel node offset length written buffer s).1.1 ≤ length.
Proof.
  intros Hl. revert written s.
  induction fuel as [|fuel IH]; intros written s Hc; cbn [regular_write_loop]; [done|].
  destruct (Z.ltb_spec written length) as [Hlt|]; [|done]. cbv zeta.
  pose proof (chunk_bound length written (offset ⊞ written) Hl ltac:(lia)) as Hb. cbv zeta in Hb.
  case_if.
  - destruct (simplefs_write_blocks _ _ _ _) as [r b]. case_if; [done|by apply IH].
  - destruct (simplefs_read_blocks _ _ _ _) as [r b]. case_if; [done|].
    destruct (simplefs_write_blocks _ _ _ _) as [r1 b1]. case_if; [done|by apply IH].
Qed.

Lemma regular_read_result file inode buffer length (s : simplefs St) :
  small length → (simplefs_regular_read file inode buffer length s).1.1.1 ≤ length.
Proof.
  intros Hl. unfold simplefs_regular_read. assert (0 ≤ length) by (unfold small in Hl; lia).
  destruct buffer as [destination|]; [|cbn; lia]. destruct (private_node inode) as [node|]; [|cbn; lia]. cbv zeta.
  case_if; [cbn; lia|]. set (n := if _ <? length then _ else _).
  assert (small n ∧ n ≤ length) as [Hn Hle].
  { unfold n, small in *. case_if; zbool; [|lia]. pose proof (u32_range (d_size (node_disk node s) - f_offset file)).
    unfold is_u32 in *. lia. }
  clearbody n. pose proof (regular_read_bound (Z.to_nat n) node (f_offset file) n 0 destination s Hn ltac:(unfold small in Hn; lia)) as Hb.
  destruct (regular_read_loop _ _ _ _ _ _ _) as [[[copied early] dst] s']. cbn [fst snd] in Hb.
  case_if; cbn; [case_if|]; rewrite ?(i32_between copied n) by done; lia.
Qed.

Lemma regular_write_result file inode buffer length (s : simplefs St) :
  small length → (simplefs_regular_write file inode buffer length s).1.1 ≤ length.
Proof.
  intros Hl. unfold simplefs_regular_write. assert (0 ≤ length) by (unfold small in Hl; lia).
  destruct buffer as [source|]; [|cbn; lia]. case_if; [cbn; lia|].
  destruct (private_node inode) as [node|]; [|cbn; lia]. cbv zeta.
  do 3 (case_if; [cbn; lia|]).
  match goal with |- context [let '(r, s) := ?e in _] => destruct e as [r s1] end. case_if; [cbn; lia|].
  pose proof (regular_write_bound (Z.to_nat length) node (f_offset file) length 0 source s1 Hl ltac:(lia)) as Hb.
  destruct (regular_write_loop _ _ _ _ _ _ _) as [[written early] s']. cbn [fst snd] in Hb.
  case_if; cbn; [case_if|]; rewrite ?(i32_between written length) by done; lia.
Qed.

(** A read returns when there is fuel for the characters that wait. *)
Lemma read_file_returns fuel f buffer length v :
  small length → (pending (io v) < fuel)%nat →
  ∃ r b v', vfs_read_file fuel f buffer length v = Some (r, b, v') ∧ r ≤ length ∧ (pending (io v') ≤ pending (io v))%nat.
Proof.
  intros Hl Hf. assert (-1 ≤ length ∧ 0 ≤ length) as [Hm Hz] by (unfold small in Hl; lia).
  assert (∃ r b v', Some (-1, buffer, v) = Some (r, b, v') ∧ r ≤ length ∧ (pending (io v') ≤ pending (io v))%nat) as Hfail
    by (by eexists _, _, _).
  unfold vfs_read_file. destruct f as [f|]; [|done]. destruct (file_inode f v) as [inode|]; [|done].
  do 2 (case_if; [done|]). unfold file_read. destruct (in_ops inode).
  - done.
  - unfold console_inode_read. destruct buffer as [bytes|]; [|done].
    case_if; [by eexists _, _, _|].
    destruct (console_read_returns fuel 0 length bytes (io v) Hl ltac:(lia) Hf) as (r&b&o&->&Hr&Ho).
    by eexists _, _, _.
  - eexists _, _, _. split; [by rewrite <- !surjective_pairing|].
    unfold pipe_inode_read. destruct (vfs_pipe_from_file (Some f) v) as [a|]; [|done]. destruct buffer as [bytes|]; [|done].
    case_if; [done|]. pose proof (pipe_read_bound (Z.to_nat (buffered (pipes v a))) 0 length bytes (pipes v a) Hl ltac:(lia)) as Hb.
    destruct (pipe_read_loop _ _ _ _ _) as [[copied b] p]. cbn [fst snd] in Hb.
    case_if; [split; [|done]; cbn; rewrite (i32_between copied length) by done; lia|].
    case_if; split; cbn; unfold VFS_ERR_WOULD_BLOCK; done || lia.
  - pose proof (regular_read_result (file_at f v) inode buffer length (fs v) Hl) as Hr.
    destruct (simplefs_regular_read _ _ _ _ _) as [[[r file] b] s]. by eexists _, _, _.
Qed.

Lemma write_file_result f buffer length v :
  small length → let '(r, v') := vfs_write_file f buffer length v in r ≤ length ∧ (pending (io v') ≤ pending (io v))%nat.
Proof.
  intros Hl. assert (-1 ≤ length ∧ 0 ≤ length) as [Hm Hz] by (unfold small in Hl; lia).
  unfold vfs_write_file. destruct f as [f|]; [|done]. destruct (file_inode f v) as [inode|]; [|done].
  do 2 (case_if; [done|]). unfold file_write. destruct (in_ops inode).
  - done.
  - unfold console_inode_write. destruct buffer as [bytes|]; [|done].
    rewrite (i32_between length length) by (done || lia). split; [done|]. apply write_pending.
  - unfold pipe_inode_write. destruct (vfs_pipe_from_file (Some f) v) as [a|]; [|done]. destruct buffer as [bytes|]; [|done].
    do 2 (case_if; [done|]).
    pose proof (pipe_write_bound (Z.to_nat VFS_PIPE_BUFFER_SIZE) 0 length bytes (pipes v a) Hl ltac:(lia)) as Hb.
    destruct (pipe_write_loop _ _ _ _ _) as [written p]. cbn [fst] in Hb.
    case_if; [rewrite (i32_between written length) by done|unfold VFS_ERR_WOULD_BLOCK]; split; done || lia.
  - pose proof (regular_write_result (file_at f v) inode buffer length (fs v) Hl) as Hr.
    destruct (simplefs_regular_write _ _ _ _ _) as [[r file] s]. done.
Qed.

End files.

(** ** The scheduler returns *)

Section sched.
Context {St Hp Io Net : Type} `{!KernelHeap Hp} `{!ConsoleIO Io} `{!KernelMachine Hp} `{!NetStack Net}.
Context (pending : Io → nat) `{!ConsoleLaws pending}.
Implicit Types (k : kernel St Hp Io Net) (t : Z) (frame : Z).

Definition waiting k : nat := pending (io (sys k)).

(** The counters of a blocked transfer are words. *)
Definition transfer_wf (x : task) : Prop := 0 ≤ blocked_done x ∧ blocked_length x < 4294967296.

Lemma complete_io_sys t r k : sys (proc_complete_blocked_io t r k) = sys k.
Proof. unfold proc_complete_blocked_io. case_if; [done|]. unfold wake_blocked. by case_if. Qed.

Lemma complete_ping_sys t r k : sys (proc_complete_blocked_ping t r k) = sys k.
Proof. unfold proc_complete_blocked_ping. case_if; [done|]. unfold wake_blocked. cbv zeta. by case_if. Qed.

Lemma chunk_small length done : 0 ≤ done < length → length < 4294967296 →
  let chunk := clip_chunk (length ⊟ done) in small chunk ∧ 0 < chunk ∧ chunk ≤ length - done.
Proof.
  intros Hd Hl. cbv zeta. unfold clip_chunk, small, PROC_IO_CHUNK. assert (length ⊟ done = length - done) as -> by word_lia.
  case_if; zbool; lia.
Qed.

Lemma advance length done r chunk : 0 ≤ done < length → length < 4294967296 → 0 < chunk ≤ length - done →
  chunk ≤ r → r ≤ chunk → done ⊞ r = done + chunk.
Proof. intros. word_lia. Qed.

Lemma retry_read_returns fuel stack turns file t k :
  transfer_wf (tasks k t) → blocked_length (tasks k t) - blocked_done (tasks k t) < Z.of_nat turns → (0 < turns)%nat →
  (waiting k < fuel)%nat →
  ∃ k', retry_read_loop fuel stack turns file t k = Some k' ∧ (waiting k' ≤ waiting k)%nat.
Proof.
  revert k. induction turns as [|turns IH]; intros k [Hd Hl] Ht Hpos Hf; [lia|]. cbn [retry_read_loop].
  unfold task_at. cbv zeta. set (x := tasks k t) in *.
  assert (∀ r k1, (waiting k1 ≤ waiting k)%nat → ∃ k', Some (proc_complete_blocked_io t r k1) = Some k' ∧
    (waiting k' ≤ waiting k)%nat) as Hdone.
  { intros r k1 Hk1. eexists. split; [done|]. unfold waiting. by rewrite complete_io_sys. }
  case_if; [by apply Hdone|]. zbool.
  destruct (chunk_small (blocked_length x) (blocked_done x)) as (Hs&Hc&Hcl); [lia|done|].
  set (chunk := clip_chunk _) in *.
  destruct (read_file_returns pending fuel (Some file) (Some stack) chunk (sys k) Hs Hf) as (r&b&v&->&Hr&Hw).
  cbn [mbind option_bind]. set (k1 := with_sys v k). assert (waiting k1 ≤ waiting k)%nat as Hk1 by done.
  assert (tasks k1 = tasks k) as Et1 by done. clearbody k1.
  case_if; [case_if; [by apply Hdone|by exists k1]|]. do 2 (case_if; [by apply Hdone|]). zbool.
  destruct (user_copy_to_in _ _ _ _ _) as [r1 s1]. set (k2 := with_vmem s1 k1).
  assert (waiting k2 ≤ waiting k)%nat as Hk2 by done. assert (tasks k2 = tasks k) as Et2 by done. clearbody k2.
  case_if; [by apply Hdone|]. case_if; [by apply Hdone|]. zbool.
  rewrite (advance (blocked_length x) _ _ chunk) by lia.
  destruct (IH (upd_task t (with_blocked_done (blocked_done x + chunk)) k2)) as (k'&Ek&Hk').
  - rewrite tasks_upd_eq, Et2. split; cbn; [lia|done].
  - rewrite tasks_upd_eq, Et2. cbn. fold x. lia.
  - lia.
  - change (waiting k2 < fuel)%nat. lia.
  - exists k'. split; [done|]. change (waiting k' ≤ waiting k2)%nat in Hk'. lia.
Qed.

Lemma retry_write_returns stack turns file t k :
  transfer_wf (tasks k t) → blocked_length (tasks k t) - blocked_done (tasks k t) < Z.of_nat turns → (0 < turns)%nat →
  ∃ k', retry_write_loop stack turns file t k = Some k' ∧ (waiting k' ≤ waiting k)%nat.
Proof.
  revert k. induction turns as [|turns IH]; intros k [Hd Hl] Ht Hpos; [lia|]. cbn [retry_write_loop].
  unfold task_at. cbv zeta. set (x := tasks k t) in *.
  assert (∀ r k1, (waiting k1 ≤ waiting k)%nat → ∃ k', Some (proc_complete_blocked_io t r k1) = Some k' ∧
    (waiting k' ≤ waiting k)%nat) as Hdone.
  { intros r k1 Hk1. eexists. split; [done|]. unfold waiting. by rewrite complete_io_sys. }
  case_if; [by apply Hdone|]. zbool.
  destruct (chunk_small (blocked_length x) (blocked_done x)) as (Hs&Hc&Hcl); [lia|done|].
  set (chunk := clip_chunk _) in *. destruct (user_copy_from_in _ _ _ _ _) as [r1 staging].
  case_if; [by apply Hdone|]. pose proof (write_file_result pending (Some file) staging chunk (sys k) Hs) as Hw.
  destruct (vfs_write_file _ _ _ _) as [r v]. destruct Hw as [Hr Hw]. set (k1 := with_sys v k).
  assert (waiting k1 ≤ waiting k)%nat as Hk1 by done. assert (tasks k1 = tasks k) as Et1 by done. clearbody k1.
  case_if; [case_if; [by apply Hdone|by exists k1]|]. do 2 (case_if; [by apply Hdone|]). zbool.
  rewrite (advance (blocked_length x) _ _ chunk) by lia.
  destruct (IH (upd_task t (with_blocked_done (blocked_done x + chunk)) k1)) as (k'&Ek&Hk').
  - rewrite tasks_upd_eq, Et1. split; cbn; [lia|done].
  - rewrite tasks_upd_eq, Et1. cbn. fold x. lia.
  - lia.
  - exists k'. split; [done|]. change (waiting k' ≤ waiting k1)%nat in Hk'. lia.
Qed.

Lemma service_io_returns fuel stack t k :
  transfer_wf (tasks k t) → (waiting k < fuel)%nat →
  ∃ k', service_io fuel stack t k = Some k' ∧ (waiting k' ≤ waiting k)%nat ∧ ∀ u, u ≠ t → tasks k' u = tasks k u.
Proof.
  intros Hx Hf. unfold service_io. cbv zeta. unfold task_at.
  assert (∃ k', Some k = Some k' ∧ (waiting k' ≤ waiting k)%nat ∧ ∀ u, u ≠ t → tasks k' u = tasks k u) as Hsame by (by exists k).
  case_bool_decide as Hb; cbn [negb]; [|done].
  assert (∀ r, ∃ k', Some (proc_complete_blocked_io t r k) = Some k' ∧ (waiting k' ≤ waiting k)%nat ∧
    ∀ u, u ≠ t → tasks k' u = tasks k u) as Hdone.
  { intros r. eexists. split; [done|]. unfold waiting. rewrite complete_io_sys. split; [done|].
    by apply (sv_others _ _ _ (complete_io_serves t r k Hb)). }
  unfold proc_retry_blocked_read, proc_retry_blocked_write, task_at. cbv zeta.
  case_bool_decide as Hr; [|case_bool_decide as Hw]; cbn [negb]; [| |done];
    (destruct (proc_lookup_fd _ _) as [file|]; [|done]).
  - destruct (retry_read_returns fuel stack (S (Z.to_nat (blocked_length (tasks k t)))) file t k Hx) as (k'&Ek&Hk');
      [destruct Hx; lia|lia|done|]. exists k'. split_and!; [done..|]. apply (sv_others t). by eapply retry_read_serves.
  - destruct (retry_write_returns stack (S (Z.to_nat (blocked_length (tasks k t)))) file t k Hx) as (k'&Ek&Hk');
      [destruct Hx; lia|lia|]. exists k'. split_and!; [done..|]. apply (sv_others t). by eapply retry_write_serves.
Qed.

Lemma service_all_returns fuel stack k :
  (∀ t, 0 ≤ t < MAX_TASKS → transfer_wf (tasks k t)) → (waiting k < fuel)%nat →
  ∃ k', proc_service_blocked_io fuel stack k = Some k'.
Proof.
  intros Hx Hf. unfold proc_service_blocked_io, for_each_task.
  destruct (for_range_ind (λ i (o : option (kernel St Hp Io Net)), ∃ k', o = Some k' ∧ (waiting k' ≤ waiting k)%nat ∧
    ∀ t, i ≤ t → tasks k' t = tasks k t) 0 MAX_TASKS (λ t (o : option (kernel St Hp Io Net)), o ≫= service_io fuel stack t) (Some k))
    as (k'&Ek&_); [done|by exists k| |by exists k'].
  intros t o Ht (k1&->&Hw&Hsame). cbn.
  destruct (service_io_returns fuel stack t k1) as (k2&->&Hw2&Ho); [rewrite Hsame by lia; by apply Hx|lia|].
  exists k2. split_and!; [done|lia|]. intros u Hu. rewrite Ho by lia. apply Hsame. lia.
Qed.

Lemma wake_sleepers_sys k : sys (proc_wake_sleepers k) = sys k.
Proof.
  unfold proc_wake_sleepers. apply (for_range_inv (λ k', sys k' = sys k)); [done|].
  intros t k1 _ <-. unfold wake_sleeper. by repeat case_if.
Qed.

Lemma service_net_sys k : sys (proc_service_blocked_net k) = sys k.
Proof.
  unfold proc_service_blocked_net. apply (for_range_inv (λ k', sys k' = sys k)); [done|].
  intros t k1 _ <-. unfold service_net. cbv zeta. case_if; [done|].
  destruct (net_ping4_poll_result _ _) as [[status result] n]. by repeat case_if; rewrite ?complete_ping_sys.
Qed.

Lemma poll_sys k : io (sys (poll_devices k)) = input_poll (io (sys k)).
Proof.
  unfold poll_devices. cbv zeta. destruct (net_poll _ _ _) as [n r]. rewrite service_net_sys. cbn.
  by rewrite wake_sleepers_sys.
Qed.

(** The counters of transfers survive the phases before the retries. *)
Lemma save_current_transfer frame k t :
  blocked_done (tasks (save_current frame k) t) = blocked_done (tasks k t) ∧
  blocked_length (tasks (save_current frame k) t) = blocked_length (tasks k t) ∧ sys (save_current frame k) = sys k.
Proof.
  unfold save_current. destruct (current_task k) as [c|]; [|done]. rewrite tasks_upd.
  destruct (decide (c = t)) as [->|]; [|done]. cbv zeta. by case_bool_decide.
Qed.

Definition same_transfers k k' : Prop :=
  ∀ t, blocked_done (tasks k' t) = blocked_done (tasks k t) ∧ blocked_length (tasks k' t) = blocked_length (tasks k t).

Lemma upd_transfers t g k k' :
  (∀ x, blocked_done (g x) = blocked_done x ∧ blocked_length (g x) = blocked_length x) →
  same_transfers k k' → same_transfers k (upd_task t g k').
Proof. intros Hg H u. rewrite tasks_upd. case_decide; [|apply H]. destruct (Hg (tasks k' u)) as [-> ->]. apply H. Qed.

Lemma complete_ping_transfers t r k k' : same_transfers k k' → same_transfers k (proc_complete_blocked_ping t r k').
Proof.
  intros H. unfold proc_complete_blocked_ping. case_if; [done|]. unfold wake_blocked. cbv zeta.
  set (k1 := upd_task t _ (set_eax _ _ k')). assert (same_transfers k k1) as H1 by (by apply upd_transfers).
  clearbody k1. set (k2 := log_proc _ _ _ _ k1). assert (same_transfers k k2) as H2 by done. clearbody k2.
  case_if; [by apply upd_transfers|done].
Qed.

Lemma poll_transfers k : same_transfers k (poll_devices k).
Proof.
  unfold poll_devices. cbv zeta.
  set (k1 := proc_wake_sleepers _).
  assert (same_transfers k k1) as H1.
  { apply (for_range_inv (same_transfers k)); [done|]. intros t k2 _ H. unfold wake_sleeper. do 2 (case_if; [done|]).
    intros u. cbn. rewrite arr_get_set. destruct (decide (t = u)) as [->|]; apply H. }
  clearbody k1. set (k3 := with_sys _ k1). assert (same_transfers k k3) as H3 by done. clearbody k3.
  destruct (net_poll _ _ _) as [n r]. apply (for_range_inv (same_transfers k)); [done|]. intros t k4 _ H.
  unfold service_net. cbv zeta. case_if; [done|]. destruct (net_ping4_poll_result _ _) as [[status result] n'].
  assert (same_transfers k (with_net n' (ring k4) k4)) as H5 by done. set (k5 := with_net n' _ k4) in *. clearbody k5.
  repeat case_if; by try apply complete_ping_transfers.
Qed.

Lemma schedule_returns fuel stack frame k :
  (∀ t, 0 ≤ t < MAX_TASKS → transfer_wf (tasks k t)) → (pending (input_poll (io (sys k))) < fuel)%nat →
  ∃ f k', proc_schedule fuel stack frame k = Some (f, k').
Proof.
  intros Hx Hf. unfold proc_schedule. cbv zeta.
  destruct (service_all_returns fuel stack (poll_devices (save_current frame k))) as (k1&->).
  - intros t Ht. destruct (save_current_transfer frame k t) as (E1&E2&_).
    destruct (poll_transfers (save_current frame k) t) as [E3 E4]. unfold transfer_wf. rewrite E3, E4, E1, E2. by apply Hx.
  - unfold waiting. rewrite poll_sys. by destruct (save_current_transfer frame k 0) as (_&_&->).
  - cbn [mbind option_bind]. by destruct (proc_pick_next _); eexists _, _.
Qed.

(** C29: The scheduler returns.  Whatever tasks are blocked on whatever files, pipes and pings, a
    call of [proc_schedule] ends, provided that finitely many characters wait at
    the console after the poll of the keyboard. *)
Theorem proc_schedule_returns fuel stack frame k :
  (∀ t, 0 ≤ t < MAX_TASKS → transfer_wf (tasks k t)) → (pending (input_poll (io (sys k))) < fuel)%nat →
  ∃ f k', proc_schedule fuel stack frame k = Some (f, k').
Proof. apply schedule_returns. Qed.

(** ** Fairness *)

(** The task can run: it is the current task, or it is ready. *)
Definition can_run k t : Prop :=
  0 ≤ t < MAX_TASKS ∧ idle_task k ≠ Some t ∧
  (state (tasks k t) = TASK_RUNNABLE ∨ state (tasks k t) = TASK_RUNNING ∧ current_task k = Some t).

(** One call: the task is chosen, or it has come closer to the start of the search. *)
Lemma schedule_closer fuel stack frame k f k' t :
  can_run k t → (∀ i, idle_task k = Some i → state (tasks k i) ≠ TASK_ZOMBIE) →
  proc_schedule fuel stack frame k = Some (f, k') →
  current_task k' = Some t ∨ distance k' t < distance k t.
Proof.
  intros (Ht&Hi&Hs) Hz (k1&Hph&Hk')%schedule_cases. pose proof (save_current_effect frame k) as (Ec&Ei&_&Et).
  destruct (Et t) as (_&_&_&Es). pose proof (ph_current _ _ Hph) as Hc.
  assert (state (tasks (save_current frame k) t) = TASK_RUNNABLE) as Hsr.
  { rewrite Es. destruct Hs as [->|[-> Hcur]]; [by repeat case_decide|]. by rewrite (decide_True _ _ Hcur). }
  assert (ready k1 t) as Hr.
  { split_and!; [apply Ht|apply Ht| |].
    - destruct (ph_idle _ _ Hph) as [->|(i&Hii&His)]; [by rewrite Ei|]. exfalso. rewrite Ei in Hii.
      destruct (Et i) as (_&_&_&Esi). rewrite Esi in His. apply (Hz i Hii). repeat case_decide; congruence.
    - destruct (ph_moves _ _ Hph t) as [|y ??|y ??|y ??]; congruence. }
  assert (distance k t = distance k1 t) as -> by (unfold distance, search_start; by rewrite Hc, Ec).
  destruct (proc_pick_next k1) as [c|] eqn:Epk.
  2:{ exfalso. destruct (pick_next_cases k1) as [(u&Hu&_)|[Hno _]]; [congruence|by destruct (Hno t)]. }
  destruct Hk' as [-> ->]. pose proof (activate_effect c k1) as (C&_).
  destruct (decide (c = t)) as [->|Hne]; [by left|]. right. by apply (pick_next_closer k1 _ t c).
Qed.

(** C28: The scheduler is fair.  A task that can run, and stays so, is chosen by one of
    any eight consecutive calls of [proc_schedule], whatever else happens in the kernel
    between them; between two calls only the task chosen by the first one is current. *)
Theorem proc_schedule_fair fuel stack (frame result : nat → Z) (before after : nat → kernel St Hp Io Net) t :
  (∀ n, (n < 8)%nat → proc_schedule fuel stack (frame n) (before n) = Some (result n, after n)) →
  (∀ n, (n < 8)%nat → can_run (before n) t ∧
    ∀ i, idle_task (before n) = Some i → state (tasks (before n) i) ≠ TASK_ZOMBIE) →
  (∀ n, (n < 7)%nat → current_task (before (S n)) = current_task (after n)) →
  ∃ n, (n < 8)%nat ∧ current_task (after n) = Some t.
Proof.
  intros Hcall Hrun Hlink.
  assert (∀ n, (n ≤ 8)%nat → (∃ m, (m < n)%nat ∧ current_task (after m) = Some t) ∨
    (n = 0%nat ∨ ∃ m, n = S m ∧ distance (after m) t < 8 - Z.of_nat n)) as Hind.
  { induction n as [|n IH]; intros Hn; [right; by left|].
    destruct IH as [(m&?&?)|IH]; [lia|left; exists m; split; [lia|done]|].
    destruct (Hrun n) as [Hr Hz]; [lia|].
    destruct (schedule_closer _ _ _ _ _ _ t Hr Hz (Hcall n ltac:(lia))) as [Hc|Hd]; [left; exists n; split; [lia|done]|].
    right. right. exists n. split; [done|]. destruct IH as [->|(m&->&IH)].
    - pose proof (distance_range (before 0%nat) t) as Hb. unfold MAX_TASKS in Hb. lia.
    - assert (distance (before (S m)) t = distance (after m) t) as E; [|lia].
      unfold distance, search_start. by rewrite Hlink by lia. }
  destruct (Hind 8%nat) as [(m&?&?)|[?|(m&Em&Hd)]]; [lia|by exists m|lia|].
  pose proof (distance_range (after m) t). lia.
Qed.

End sched.
