(* ===== verification/Tty.v ===== *)
(** * The terminal: keyboard, console and the console device

    The drivers of [Input] and [Console] implement the interface [ConsoleIO] through which the
    virtual file system reads and writes the console, and keep the laws that the theorems of the
    scheduler rely on.  Reading the console device edits a line as a list of characters; a line
    that is typed on the keyboard arrives in the buffer of the reader and on the screens. *)

From S2P Require Import Prelude Mem Ports Input InputKeys Vga Framebuffer Console Kheap Vnode Simplefs Block Vfs VfsHeap ProcLive.

Local Open Scope Z_scope.
Local Open Scope c_scope.

(** ** Line editing *)

(** [st o a s]: the characters [a] can be read from the console [o], and [s] has been written to it. *)
Class ConsoleText {Io : Type} `{!ConsoleIO Io} (st : Io → list Z → list Z → Prop) := {
  text_bytes o a s : st o a s → Forall is_u8 a;
  text_read_some o c a s : st o (c :: a) s → ∃ o', input_try_read_char o = (Some c, o') ∧ st o' a s;
  text_read_none o s : st o [] s → ∃ o', input_try_read_char o = (None, o') ∧ st o' [] s;
  text_write o a s bytes : Forall is_u8 bytes → st o a s → st (console_write_len bytes o) a (s ++ bytes);
}.

(** The line that results from the characters [a] behind [line] with room for [room] characters, what
    is left of them, and what is written to the console: a carriage return counts as the end
    of the line, backspace and delete take the last character back. *)
Fixpoint edit (room : nat) (line a : list Z) : list Z * list Z * list Z :=
  if decide (room ≤ length line)%nat then (line, a, [])
  else
    match a with
    | [] => (line, [], [])
    | c :: a =>
        let c := if c =? 13 then 10 else c in
        if (c =? 8) || (c =? 127) then
          match line with
          | [] => edit room [] a
          | _ => let '(l, rest, echo) := edit room (removelast line) a in (l, rest, [8; 32; 8] ++ echo)
          end
        else if c =? 10 then (line ++ [10], a, [10])
        else let '(l, rest, echo) := edit room (line ++ [c]) a in (l, rest, c :: echo)
    end.

(** A text without control characters of the editor is read as it is. *)
Lemma edit_plain room line text rest :
  Forall (λ c, c ≠ 8 ∧ c ≠ 10 ∧ c ≠ 13 ∧ c ≠ 127) text → (length line + length text < room)%nat →
  edit room line (text ++ 10 :: rest) = (line ++ text ++ [10], rest, text ++ [10]).
Proof.
  intros Ht. revert line. induction Ht as [|c text (?&?&?&?) Ht IH]; intros line Hr; cbn [app edit].
  - rewrite decide_False by (simpl in Hr; lia). done.
  - simpl in Hr. rewrite decide_False by lia. rewrite (proj2 (Z.eqb_neq c 13)) by done. cbv zeta.
    rewrite (proj2 (Z.eqb_neq c 8)), (proj2 (Z.eqb_neq c 127)), (proj2 (Z.eqb_neq c 10)) by done. cbn [orb].
    rewrite IH by (rewrite length_app; simpl; lia). by rewrite <- app_assoc.
Qed.

Section reading.
Context {Io : Type} `{!ConsoleIO Io} (st : Io → list Z → list Z → Prop) `{!ConsoleText st}.

Lemma slice_prefix {A} (bytes : carray A) (n m : nat) : (m ≤ n)%nat → slice bytes 0 m = take m (slice bytes 0 n).
Proof.
  intros Hm. apply list_eq. intros i. destruct (decide (i < m)%nat).
  - rewrite lookup_take_lt by done. by rewrite !slice_lookup by lia.
  - rewrite lookup_take_ge by lia. apply lookup_ge_None_2. rewrite slice_length. lia.
Qed.

Lemma slice_put (bytes : carray Z) line c :
  slice bytes 0 (length line) = line → slice (<[Z.of_nat (length line) := c]> bytes) 0 (length (line ++ [c])) = line ++ [c].
Proof.
  intros Hl. rewrite length_app. simpl length. apply list_eq. intros i. destruct (decide (i < length line + 1)%nat).
  - rewrite slice_lookup by done. rewrite Z.add_0_l. destruct (decide (i = length line)) as [->|Hne].
    + by rewrite arr_get_set_eq, lookup_app_r, Nat.sub_diag by lia.
    + rewrite arr_get_set_ne by lia. rewrite lookup_app_l by lia. rewrite <- Hl. by rewrite slice_lookup by lia.
  - rewrite !lookup_ge_None_2; [done|rewrite length_app; simpl; lia|rewrite slice_length; lia].
Qed.

(** The value that the read returns for a line. *)
Definition read_result (line : list Z) : Z := match line with [] => VFS_ERR_WOULD_BLOCK | _ => Z.of_nat (length line) end.

Lemma read_result_count (line : list Z) (n : Z) :
  n = Z.of_nat (length line) → n ≤ 2147483647 → (if truthy n then i32 n else VFS_ERR_WOULD_BLOCK) = read_result line.
Proof. intros -> Hn. destruct line; [done|]. unfold truthy. simpl length in *. rewrite (proj2 (Z.eqb_neq _ _)) by lia. cbn [negb]. by rewrite i32_small by lia. Qed.

Lemma read_loop_edits a : ∀ fuel line length bytes o s,
  st o a s → (List.length a < fuel)%nat → 0 < length ≤ 2147483647 → (List.length line ≤ Z.to_nat length)%nat →
  slice bytes 0 (List.length line) = line →
  let '(line', rest, echo) := edit (Z.to_nat length) line a in
  ∃ bytes' o', console_read_loop fuel (Z.of_nat (List.length line)) length bytes o = Some (read_result line', bytes', o')
    ∧ slice bytes' 0 (List.length line') = line' ∧ st o' rest (s ++ echo).
Proof.
  induction a as [|c a IH]; intros [|fuel] line length bytes o s Hst Hf Hl Hr Hb; try (simpl in Hf; lia); cbn [console_read_loop edit].
  all: destruct (decide (Z.to_nat length ≤ List.length line)%nat).
  1,3: rewrite (proj2 (Z.ltb_ge _ _)) by lia; rewrite i32_small by lia; exists bytes, o; rewrite app_nil_r;
    destruct line as [|x line]; [simpl in *; lia|done].
  all: rewrite (proj2 (Z.ltb_lt _ _)) by lia.
  - destruct (text_read_none o s Hst) as (o'&->&Hst'). exists bytes, o'. rewrite app_nil_r, (read_result_count line) by lia. done.
  - pose proof (text_bytes _ _ _ Hst) as Hc. apply Forall_cons in Hc as [Hc _].
    destruct (text_read_some o c a s Hst) as (o'&->&Hst'). cbv zeta. set (c1 := if c =? 13 then 10 else c).
    assert (is_u8 c1) as Hc1 by (unfold c1; by case_if). simpl in Hf. destruct ((c1 =? 8) || (c1 =? 127)).
    + destruct line as [|x line]; [change (Z.of_nat (List.length (@nil Z)) =? 0) with true; apply (IH fuel [] length bytes o' s); try done; lia|].
      set (line1 := removelast (x :: line)). assert (x :: line = line1 ++ [List.last (x :: line) 0]) as El by (by apply app_removelast_last).
      assert (List.length (x :: line) = S (List.length line1)) as Hlen by (rewrite El at 1; rewrite length_app; simpl; lia).
      rewrite Hlen. rewrite (proj2 (Z.eqb_neq _ _)) by lia. rewrite u32_small by lia.
      replace (Z.of_nat (S (List.length line1)) - 1) with (Z.of_nat (List.length line1)) by lia.
      specialize (IH fuel line1 length bytes _ (s ++ [8; 32; 8]) (text_write o' a s [8; 32; 8] ltac:(by repeat constructor) Hst')).
      destruct (edit _ line1 a) as [[l rest] echo]. rewrite app_assoc. apply IH; [lia|done|lia|].
      rewrite (slice_prefix bytes (List.length (x :: line))) by lia. rewrite Hb, El. by rewrite take_app_length.
    + pose proof (slice_put bytes line c1 Hb) as Hb1. pose proof (text_write o' a s [c1] (proj2 (Forall_singleton _ _) Hc1) Hst') as Hst1.
      rewrite u32_small by lia. destruct (Z.eqb_spec c1 10) as [E10|E10].
      * rewrite i32_small by lia. rewrite E10 in *. eexists _, _. split; [|by split]. do 3 f_equal.
        unfold read_result. destruct (line ++ [10]) eqn:E; [by destruct line|]. rewrite <- E, length_app. simpl. lia.
      * specialize (IH fuel (line ++ [c1]) length (<[Z.of_nat (List.length line) := c1]> bytes) _ _ Hst1). destruct (edit _ (line ++ [c1]) a) as [[l rest] echo].
        rewrite length_app in IH. simpl List.length in IH. replace (Z.of_nat (List.length line) + 1) with (Z.of_nat (List.length line + 1)) by lia.
        replace (s ++ c1 :: echo) with ((s ++ [c1]) ++ echo) by (by rewrite <- app_assoc).
        apply IH; [lia|done|lia|]. rewrite length_app in Hb1. exact Hb1.
Qed.

(** C23: Reading the console device edits a line.  Given the characters that can be read, the read returns, and the buffer
    then starts with the edited line: the characters up to the end of the line or as
    many as there are and fit, less those that were taken back.  The characters behind stay for the next
    read, what was typed is echoed, and the result is the length of the line, or that the reader has to
    wait when it is empty. *)
Theorem console_read_edits {St Hp} `{!KernelHeap Hp} fuel bytes length (v : vfs St Hp Io) a s :
  st (io v) a s → (List.length a < fuel)%nat → 0 < length ≤ 2147483647 →
  let '(line, rest, echo) := edit (Z.to_nat length) [] a in
  ∃ bytes' o, console_inode_read fuel (Some bytes) length v = Some (read_result line, Some bytes', with_io o v)
    ∧ slice bytes' 0 (List.length line) = line ∧ st o rest (s ++ echo).
Proof.
  intros Hst Hf Hl. pose proof (read_loop_edits a fuel [] length bytes (io v) s Hst Hf Hl ltac:(simpl; lia) eq_refl) as H.
  unfold console_inode_read. rewrite (proj2 (Z.eqb_neq _ _)) by lia. destruct (edit _ _ _) as [[line rest] echo].
  change (Z.of_nat (List.length [])) with 0 in H. destruct H as (bytes'&o&->&Hb&Hs). by exists bytes', o.
Qed.
End reading.

(** ** The drivers as a console *)

Section tty.
Context {P V : Type} `{!PortIO P} `{!UartLaws P} `{!KeyboardLaws P} `{!SynthKeyboard V}.

(** Input and output devices with the states of their drivers. *)
Record tty_state := { tin : inputsys P V; tscreen : vga; tfb : framebuffer }.

Definition with_tin (n : inputsys P V) (t : tty_state) : tty_state := {| tin := n; tscreen := tscreen t; tfb := tfb t |}.

(** The part of the console; both drivers use the same ports. *)
Definition tty_console (t : tty_state) : console P :=
  {| com_present := serial_present (tin t); com_ports := ports (tin t); screen := tscreen t; fb := tfb t |}.
Definition with_console (c : console P) (t : tty_state) : tty_state :=
  {| tin := set_ports (com_ports c) (tin t); tscreen := screen c; tfb := fb c |}.

(** Enough turns for the loops of the drivers. *)
Definition poll_fuel (t : tty_state) : nat := S (Nat.max (length (rx (ports (tin t)))) (length (kbd (ports (tin t))))).
Definition write_fuel (t : tty_state) : nat := S (Nat.max (tx_busy (ports (tin t))) tx_bound).

Definition poll_state (t : tty_state) : tty_state :=
  match Input.input_poll (poll_fuel t) (tin t) with Some n => with_tin n t | None => t end.
Definition read_state (t : tty_state) : option Z * tty_state :=
  match Input.input_try_read_char (poll_fuel t) (tin t) with Some (c, n) => (c, with_tin n t) | None => (None, t) end.
Definition write_state (bytes : list Z) (t : tty_state) : tty_state :=
  match Console.console_write_len (write_fuel t) bytes (tty_console t) with Some c => with_console c t | None => t end.

(** The queue is a queue, and the serial line is used only when it is there. *)
Definition tty_ok (t : tty_state) : Prop := backends_ok (tin t) ∧ ∃ q, queue_rep q (inp (tin t)).

(** The characters that the next poll makes available. *)
Definition incoming (n : inputsys P V) : list Z := waiting_chars n ++ (decode_all (flags_of (inp n)) (waiting_codes n)).2.

(** A poll leaves nothing to decode. *)
Lemma poll_state_effect t q :
  backends_ok (tin t) → queue_rep q (inp (tin t)) →
  ∃ n, Input.input_poll (poll_fuel t) (tin t) = Some n ∧ poll_state t = with_tin n t ∧ backends_ok n
    ∧ queue_rep (add_chars q (incoming (tin t))) (inp n)
    ∧ rx (ports n) = left_over (tin t) INPUT_BACKEND_SERIAL (rx (ports (tin t)))
    ∧ kbd (ports n) = left_over (tin t) INPUT_BACKEND_I8042 (kbd (ports (tin t)))
    ∧ tx (ports n) = tx (ports (tin t)) ∧ synth n = (hyperv_keyboard_poll (synth (tin t))).2
    ∧ input_backends (inp n) = input_backends (inp (tin t)) ∧ serial_present n = serial_present (tin t).
Proof.
  intros Hok Hq. destruct (poll_effect (poll_fuel t) (tin t) q) as (n&E&Hq'&_&Hb&Hs&Hr&Hk&Ht&Hy); try done; [unfold poll_fuel; lia..|].
  exists n. unfold poll_state. rewrite E. split_and!; try done. unfold backends_ok, has_backend in *. by rewrite Hb, Hs.
Qed.

Lemma read_state_effect t q :
  backends_ok (tin t) → queue_rep q (inp (tin t)) →
  ∃ n, poll_state t = with_tin n t ∧ queue_rep (add_chars q (incoming (tin t))) (inp n) ∧ backends_ok n ∧
  ∃ n', read_state t = (head (add_chars q (incoming (tin t))), with_tin n' t) ∧ ports n' = ports n ∧ synth n' = synth n
    ∧ serial_present n' = serial_present n ∧ input_backends (inp n') = input_backends (inp n)
    ∧ queue_rep (tail (add_chars q (incoming (tin t)))) (inp n').
Proof.
  intros Hok Hq. destruct (poll_state_effect t q Hok Hq) as (n&E&Ep&Hbo&Hq'&_). exists n. split; [done|]. split; [done|]. split; [done|].
  unfold read_state, Input.input_try_read_char. rewrite E. cbn [mbind option_bind]. pose proof (pop_rep _ _ Hq') as Hp.
  destruct (add_chars q (incoming (tin t))) as [|c l].
  - rewrite Hp. exists (upd_input (λ _, inp n) n). by split_and!.
  - destruct Hp as (s'&->&Hs'&Hb). exists (upd_input (λ _, s') n). by split_and!.
Qed.

(** Writing does not touch the keyboard. *)
Lemma write_char_kbd fuel present c p p' : serial_write_char fuel present c p = Some p' → kbd p' = kbd p.
Proof.
  unfold serial_write_char. destruct present; cbn [negb]; [|by intros [= <-]].
  assert (∀ fuel p p', wait_until fuel (serial_tx_ready true) p = Some p' → kbd p' = kbd p) as Hw.
  { clear. intros fuel. induction fuel as [|fuel IH]; intros p p'; cbn [wait_until]; [done|].
    pose proof (lsr_keeps p) as Hk. unfold serial_tx_ready at 1. cbn [negb]. destruct (inb (COM1 + 5) p) as [v p1]. cbn [snd] in Hk.
    case_if; [intros [= <-]; done|intros ->%IH; done]. }
  destruct (wait_until _ _ p) as [p1|] eqn:E; [|done]. cbn [mbind option_bind]. intros [= <-]. rewrite write_keeps. by apply (Hw fuel).
Qed.

Lemma write_len_kbd fuel bytes (c c' : console P) : Console.console_write_len fuel bytes c = Some c' → kbd (com_ports c') = kbd (com_ports c).
Proof.
  revert c. induction bytes as [|ch bytes IH]; intros c; cbn [Console.console_write_len]; [by intros [= <-]|].
  unfold console_write_char. destruct (serial_write_char _ _ _ _) as [p|] eqn:E; [|done]. cbn [mbind option_bind].
  intros ->%IH. by apply write_char_kbd in E.
Qed.

Lemma write_state_effect bytes t :
  ∃ c, Console.console_write_len (write_fuel t) bytes (tty_console t) = Some c ∧ write_state bytes t = with_console c t
    ∧ rx (com_ports c) = rx (ports (tin t)) ∧ kbd (com_ports c) = kbd (ports (tin t)) ∧ com_present c = serial_present (tin t).
Proof.
  destruct (console_write_effect (write_fuel t) bytes (tty_console t)) as (c&E&Hp&Hr&_); [unfold enough, write_fuel; cbn; lia|].
  exists c. unfold write_state. rewrite E. split_and!; try done. by apply write_len_kbd in E.
Qed.

Lemma poll_state_ok t : tty_ok t → tty_ok (poll_state t).
Proof. intros [Hb [q Hq]]. destruct (poll_state_effect t q Hb Hq) as (n&_&->&Hbo&Hq'&_). split; [done|]. by eexists. Qed.

Lemma read_state_ok t : tty_ok t → tty_ok (read_state t).2.
Proof.
  intros [Hb [q Hq]]. destruct (read_state_effect t q Hb Hq) as (n&_&_&Hbo&n'&->&_&_&Hs&Hbk&Hq'). split; [|by eexists].
  unfold backends_ok, has_backend in *. cbn [snd with_tin tin]. by rewrite Hbk, Hs.
Qed.

Lemma write_state_ok bytes t : tty_ok t → tty_ok (write_state bytes t).
Proof. intros [Hb Hq]. by destruct (write_state_effect bytes t) as (c&_&->&_). Qed.

(** Consoles in a good state, which the operations keep. *)
Definition tty := { t : tty_state | tty_ok t }.

#[export] Instance tty_io : ConsoleIO tty :=
  {| Vfs.input_poll t := exist _ (poll_state (`t)) (poll_state_ok _ (proj2_sig t));
     Vfs.input_try_read_char t := ((read_state (`t)).1, exist _ (read_state (`t)).2 (read_state_ok _ (proj2_sig t)));
     Vfs.console_write_len bytes t := exist _ (write_state bytes (`t)) (write_state_ok _ _ (proj2_sig t)) |}.

(** What is asked of the synthetic keyboard: a poll takes everything that has arrived, and nothing arrives
    between two polls in a row.  The first half is what [HypervKeyboard] shows of the driver (a
    poll leaves its ring empty); the second is an assumption about the host, to which the driver's
    model grants new key strokes before every poll. *)
Class SynthLaws := { poll_twice v : (hyperv_keyboard_poll (hyperv_keyboard_poll v).2).1 = [] }.
Context `{!SynthLaws}.

(** The characters and codes that wait in the queue and at the devices. *)
Definition tty_pending (t : tty) : nat :=
  Z.to_nat (input_queue_buffered (inp (tin (`t)))) + length (rx (ports (tin (`t)))) + length (kbd (ports (tin (`t))))
  + length (hyperv_keyboard_poll (synth (tin (`t)))).1.

Lemma decode_all_length f codes : (length (decode_all f codes).2 ≤ length codes)%nat.
Proof.
  revert f. induction codes as [|code codes IH]; intros f; cbn [decode_all]; [simpl; lia|].
  destruct (decode f code) as [f1 c]. specialize (IH f1). destruct (decode_all f1 codes) as [f2 l]. cbn [snd] in *.
  rewrite length_app. destruct c; simpl; lia.
Qed.

Lemma incoming_length (n : inputsys P V) :
  (length (incoming n) + length (left_over n INPUT_BACKEND_SERIAL (rx (ports n))) + length (left_over n INPUT_BACKEND_I8042 (kbd (ports n)))
   ≤ length (rx (ports n)) + length (kbd (ports n)) + length (hyperv_keyboard_poll (synth n)).1)%nat.
Proof.
  unfold incoming, waiting_chars, left_over. rewrite length_app. pose proof (decode_all_length (flags_of (inp n)) (waiting_codes n)) as Hd.
  unfold waiting_codes in Hd at 2. rewrite length_app in Hd.
  assert (length (key_codes (kbd (ports n))) ≤ length (kbd (ports n)))%nat by (unfold key_codes; rewrite length_fmap; apply length_filter).
  destruct (has_backend n INPUT_BACKEND_SERIAL), (has_backend n INPUT_BACKEND_I8042); simpl in *; lia.
Qed.

(** A read takes one character, if one waits. *)
Lemma read_pending (t : tty) :
  let '(c, t') := Vfs.input_try_read_char t in (tty_pending t' + (match c with Some _ => 1 | None => 0 end) ≤ tty_pending t)%nat.
Proof.
  destruct t as [t [Hb [q Hq]]]. cbn [Vfs.input_try_read_char tty_io]. unfold tty_pending. cbn [proj1_sig].
  destruct (read_state_effect t q Hb Hq) as (n&Ep&Hqn&_&n'&Er&Epo&Esy&_&_&Hq').
  destruct (poll_state_effect t q Hb Hq) as (n1&_&Ep1&_&_&Hr&Hk&_&Hy&_). assert (n1 = n) as -> by (rewrite Ep in Ep1; by injection Ep1).
  rewrite Er. cbn [fst snd with_tin tin]. rewrite Epo, Esy, Hy, poll_twice, Hr, Hk.
  rewrite (qr_length _ _ Hq'), (qr_length _ _ Hq), !Nat2Z.id. pose proof (incoming_length (tin t)).
  assert (length (add_chars q (incoming (tin t))) ≤ length q + length (incoming (tin t)))%nat
    by (unfold add_chars; rewrite length_take, length_app; lia).
  destruct (add_chars q (incoming (tin t))); simpl in *; lia.
Qed.

#[export] Instance tty_laws : ConsoleLaws tty_pending.
Proof.
  split.
  - intros o c o' E. pose proof (read_pending o) as Hp. rewrite E in Hp. lia.
  - intros o o' E. pose proof (read_pending o) as Hp. rewrite E in Hp. lia.
  - intros bytes [t Ht]. cbn [Vfs.console_write_len tty_io]. unfold tty_pending. cbn [proj1_sig].
    destruct (write_state_effect bytes t) as (c&_&->&Hr&Hk&_). cbn [with_console tin set_ports inp ports synth]. by rewrite Hr, Hk.
Qed.

(** [a] can be read: it is in the queue or waits at the devices; [s] is on the screens, and has
    been sent over the serial line. *)
Record tty_text (t : tty) (a s : list Z) : Prop := {
  tt_bytes : Forall is_u8 a;
  tt_queue : ∃ q, queue_rep q (inp (tin (`t))) ∧ a = add_chars q (incoming (tin (`t)));
  tt_shows : let m := mode (tfb (`t)) in
    console_shows (layout s) (foldl (λ g ch, term_write (framebuffer_rows m) (framebuffer_columns m) ch g) blank_terminal s) (tty_console (`t));
  tt_sent : serial_present (tin (`t)) = true → tx (ports (tin (`t))) = s;
}.

(** After a poll nothing is coming in. *)
Lemma incoming_drained (n n' : inputsys P V) :
  rx (ports n') = left_over n INPUT_BACKEND_SERIAL (rx (ports n)) → kbd (ports n') = left_over n INPUT_BACKEND_I8042 (kbd (ports n)) →
  synth n' = (hyperv_keyboard_poll (synth n)).2 → input_backends (inp n') = input_backends (inp n) → incoming n' = [].
Proof.
  intros Hr Hk Hy Hb. unfold incoming, waiting_chars, waiting_codes, left_over, has_backend in *. rewrite Hy, poll_twice, Hr, Hk, Hb.
  by destruct (negb (Z.land _ INPUT_BACKEND_SERIAL =? 0)), (negb (Z.land _ INPUT_BACKEND_I8042 =? 0)).
Qed.

Lemma read_text t a s :
  tty_text t a s → ∃ t', Vfs.input_try_read_char t = (head a, t') ∧ tty_text t' (tail a) s.
Proof.
  intros [Hby (q&Hq&->) Hsh Hse]. destruct t as [t Hok]. pose proof (proj1 Hok) as Hb. cbn [proj1_sig] in *.
  destruct (read_state_effect t q Hb Hq) as (n&Ep&Hqn&_&n'&Er&Epo&Esy&Esp&Ebk&Hq').
  destruct (poll_state_effect t q Hb Hq) as (n1&_&Ep1&_&_&Hr&Hk&Ht&Hy&Hbk&Hsp). assert (n1 = n) as -> by (rewrite Ep in Ep1; by injection Ep1).
  cbn [Vfs.input_try_read_char tty_io proj1_sig]. eexists. split; [apply (f_equal2 pair); [exact (f_equal fst Er)|reflexivity]|].
  assert (incoming n' = []) as Hin by (apply (incoming_drained (tin t)); congruence).
  split; cbn [proj1_sig]; rewrite ?Er; cbn [snd with_tin tin tfb].
  - destruct (add_chars _ _); [done|]. by apply Forall_cons in Hby as [_ ?].
  - eexists. split; [exact Hq'|]. rewrite Hin. by rewrite (add_chars_nil _ (inp n')).
  - exact Hsh.
  - rewrite Esp, Hsp, Epo, Ht. done.
Qed.

#[export] Instance tty_text_laws : ConsoleText tty_text.
Proof.
  split.
  - by intros o a s [].
  - intros o c a s Ho. apply (read_text o (c :: a) s Ho).
  - intros o s Ho. apply (read_text o [] s Ho).
  - intros [t Hok] a s bytes Hb [Hby (q&Hq&Ha) Hsh Hse]. cbn [proj1_sig] in *. cbn [Vfs.console_write_len tty_io].
    destruct (write_state_effect bytes t) as (c&Ew&Es&Hr&Hk&Hp).
    destruct (message_shows (write_fuel t) bytes _ _ (tty_console t) ltac:(unfold enough, write_fuel; cbn; lia) Hb Hsh) as (c1&Ew1&Hs1&Ht1&_&Hm1&_).
    rewrite Ew in Ew1. injection Ew1 as <-.
    split; cbn [proj1_sig]; rewrite ?Es; cbn [with_console tin tfb set_ports inp ports serial_present].
    + done.
    + exists q. split; [done|]. rewrite Ha. unfold incoming, waiting_chars, waiting_codes, has_backend. cbn [set_ports inp ports synth]. by rewrite Hr, Hk.
    + change (fb (tty_console t)) with (tfb t) in *. unfold layout in *. rewrite Hm1, !foldl_app. destruct Hs1 as [Hs1 Hd1]. split; [exact Hs1|exact Hd1].
    + intros Hpr. rewrite Ht1. cbn [tty_console com_present com_ports]. rewrite Hpr, Hse by done. done.
Qed.

(** A terminal at rest that shows [s], at whose keyboard the scan codes [codes] wait. *)
Record keys_wait (t : tty) (codes s : list Z) : Prop := {
  kw_backend : has_backend (tin (`t)) INPUT_BACKEND_I8042 = true;
  kw_codes : kbd (ports (tin (`t))) = pair false <$> codes;
  kw_serial : waiting_chars (tin (`t)) = [];
  kw_synth : (hyperv_keyboard_poll (synth (tin (`t)))).1 = [];
  kw_queue : queue_rep [] (inp (tin (`t)));
  kw_flags : flags_of (inp (tin (`t))) = at_rest false;
  kw_shows : let m := mode (tfb (`t)) in
    console_shows (layout s) (foldl (λ g ch, term_write (framebuffer_rows m) (framebuffer_columns m) ch g) blank_terminal s) (tty_console (`t));
  kw_sent : serial_present (tin (`t)) = true → tx (ports (tin (`t))) = s;
}.

Lemma keys_text t codes s text :
  keys_wait t codes s → (decode_all (at_rest false) codes).2 = text → Forall is_u8 text → (length text ≤ 256)%nat → tty_text t text s.
Proof.
  intros [Hb Hk Hc Hy Hq Hf Hs Ht] Hd Hby Hl. split; [done| |done|done]. exists []. split; [done|].
  unfold incoming, waiting_codes. rewrite Hc, Hb, Hy, Hk, Hf, app_nil_r.
  assert (key_codes (pair false <$> codes) = codes) as ->.
  { unfold key_codes. clear. induction codes as [|c codes IH]; [done|]. rewrite fmap_cons, filter_cons_True by done. rewrite fmap_cons. by f_equal. }
  rewrite Hd. unfold add_chars. by rewrite !app_nil_l, take_ge.
Qed.

(** C16: A typed line is read.  When the keys of a line of printable characters and tabs and the return key wait at the
    keyboard of a terminal at rest, a read of the console device returns the line with its
    end, and the line has appeared on the text screen and the framebuffer behind what they
    showed, and on the serial line; nothing is left to read. *)
Theorem typed_line_read {St Hp} `{!KernelHeap Hp} text codes fuel bytes n (v : vfs St Hp tty) s :
  Forall (λ c, c ∈ typeable ∧ c ≠ 8 ∧ c ≠ 10) text → mapM keystrokes (text ++ [10]) = Some codes →
  keys_wait (io v) (concat codes) s → (length text < 256)%nat → Z.of_nat (length text) < n ≤ 2147483647 → (S (length text) < fuel)%nat →
  ∃ bytes' o, console_inode_read fuel (Some bytes) n v = Some (Z.of_nat (S (length text)), Some bytes', with_io o v)
    ∧ slice bytes' 0 (S (length text)) = text ++ [10] ∧ tty_text o [] (s ++ text ++ [10]).
Proof.
  intros Htext Hkeys Hwait Hl Hn Hf.
  assert (∀ c, c ∈ typeable → is_u8 c ∧ c ≠ 13 ∧ c ≠ 127) as Hty.
  { intros c Hc. unfold typeable in Hc. rewrite elem_of_app, elem_of_seqZ in Hc. unfold is_u8. set_unfold in Hc. lia. }
  assert (Forall (λ c, c ∈ typeable) (text ++ [10])) as Hall.
  { apply Forall_app_2; [eapply Forall_impl; [exact Htext|by intros c [? _]]|]. apply Forall_singleton. unfold typeable. set_solver. }
  destruct (typed_decode false (text ++ [10]) Hall) as (codes'&Hk'&Hd). rewrite Hkeys in Hk'. injection Hk' as <-.
  assert (tty_text (io v) (text ++ [10]) s) as Htt.
  { apply (keys_text _ (concat codes)); [done|by rewrite Hd| |rewrite length_app; simpl; lia]. eapply Forall_impl; [exact Hall|]. by intros c (?&_)%Hty. }
  pose proof (read_loop_edits tty_text (text ++ [10]) fuel [] n bytes (io v) s Htt ltac:(rewrite length_app; simpl; lia) ltac:(lia) ltac:(simpl; lia) eq_refl) as Hr.
  rewrite edit_plain in Hr; [|eapply Forall_impl; [exact Htext|]; intros c (Hc&?&?); by destruct (Hty c Hc) as (?&?&?)|simpl; lia].
  unfold console_inode_read. rewrite (proj2 (Z.eqb_neq _ _)) by lia. change (Z.of_nat (length [])) with 0 in Hr. destruct Hr as (bytes'&o&->&Hb&Hs).
  rewrite app_nil_l, length_app, Nat.add_1_r in Hb. exists bytes', o. split; [|by split]. do 3 f_equal.
  unfold read_result. rewrite app_nil_l. destruct (text ++ [10]) eqn:E; [by destruct text|]. rewrite <- E, length_app, Nat.add_1_r. done.
Qed.
End tty.

Arguments tty_state : clear implicits.

(** ** Examples *)

(** The console of [VfsHeap]: a line of waiting characters, and what has been written. *)
Definition list_text (o : list Z * list Z) (a s : list Z) : Prop := o = (a, s) ∧ Forall is_u8 a.

#[export] Instance list_text_laws : ConsoleText list_text.
Proof.
  split.
  - by intros o a s [_ ?].
  - intros o c a s [-> Ha]. eexists. split; [done|]. split; [done|]. by apply Forall_cons in Ha as [_ ?].
  - intros o s [-> _]. eexists. split; [done|]. by split.
  - intros o a s bytes _ [-> Ha]. by split.
Qed.

(** The keys "lx", backspace, "s", carriage return and "p". *)
Lemma console_read_edits_witness :
  ∃ bytes' o, console_inode_read 7 (Some (λ _, 0)) 64 (with_io ([108; 120; 8; 115; 13; 112], []) demo_vfs)
      = Some (3, Some bytes', with_io o (with_io ([108; 120; 8; 115; 13; 112], []) demo_vfs))
    ∧ slice bytes' 0 3 = [108; 115; 10] ∧ o = ([112], [108; 120; 8; 32; 8; 115; 10]).
Proof.
  destruct (console_read_edits list_text 7 (λ _, 0) 64 (with_io ([108; 120; 8; 115; 13; 112], []) demo_vfs)
    [108; 120; 8; 115; 13; 112] []) as (bytes'&o&E&Hb&[Ho _]); [split; [done|apply (bool_decide_unpack _); by vm_compute]|simpl; lia|lia|].
  exists bytes', o. split; [exact E|]. split; [exact Hb|exact Ho].
Defined.

#[export] Instance list_keyboard_laws : SynthLaws (V := list Z).
Proof. by split. Qed.

(** The devices of [InputKeys] with the keys of "ls" and return waiting, an empty screen and no framebuffer. *)
Definition keys_state : tty_state port_devices (list Z) :=
  {| tin := {| inp := with_backends 7 blank_input; serial_present := true;
               ports := {| pd_rx := []; pd_tx := []; pd_busy := 0; pd_kbd := pair false <$> [38; 166; 31; 159; 28; 156] |};
               synth := [] |};
     tscreen := blank_vga; tfb := off_framebuffer |}.

Lemma keys_state_ok : tty_ok keys_state.
Proof. split; [done|]. exists []. split; [done|simpl; lia|done|done|by intros []]. Qed.

Definition keys_vfs : vfs (carray Z) kheap tty :=
  {| fs := fs demo_vfs; console_inode := console_inode demo_vfs; tty_inode := tty_inode demo_vfs; pipes := pipes demo_vfs;
     file_table := file_table demo_vfs; root_inode := root_inode demo_vfs; root_writable := root_writable demo_vfs;
     root_device := root_device demo_vfs; blocks := blocks demo_vfs; heap := heap demo_vfs; io := exist _ keys_state keys_state_ok |}.

Lemma typed_line_read_witness :
  ∃ bytes' o, console_inode_read 4 (Some (λ _, 0)) 64 keys_vfs = Some (3, Some bytes', with_io o keys_vfs)
    ∧ slice bytes' 0 3 = [108; 115; 10] ∧ shows ([[108; 115]], []) (tscreen (`o)).
Proof.
  destruct (typed_line_read [108; 115] [[38; 166]; [31; 159]; [28; 156]] 4 (λ _, 0) 64 keys_vfs []) as (bytes'&o&E&Hb&Ho).
  - apply (bool_decide_unpack _). by vm_compute.
  - by vm_compute.
  - split; try done; [split; [done|simpl; lia|done|done|by intros []]|split; [apply init_shows|done]].
  - simpl. lia.
  - simpl. lia.
  - simpl. lia.
  - exists bytes', o. split; [exact E|]. split; [exact Hb|]. destruct Ho as [_ _ [Hs _] _]. exact Hs.
Defined.
