(* ===== verification/ProcWait.v ===== *)
(** * Ending and waiting

    What [proc_sys_exit] does to the task that ends, to its children and to a parent that
    waits; what [proc_sys_waitpid] reports; and two ways in which the report goes
    wrong: an exit is reported twice, and an adopted zombie is not reported. *)

From stdpp Require Import strings.
From S2P Require Import Prelude Abi Mem Palloc Trace Paging Usercopy Kheap Kstack Block Vnode Simplefs Vfs VfsFiles Exec Task Proc ProcSched.

Local Open Scope Z_scope.
Local Open Scope c_scope.

Section wait.
Context {St Hp Io Net : Type} `{!KernelHeap Hp} `{!ConsoleIO Io} `{!KernelMachine Hp} `{!NetStack Net}.
Implicit Types (k : kernel St Hp Io Net) (t : Z) (frame : Z).

(** ** Children of a task that ends *)

(** A task with parent [old] gets the parent [new]; a zombie without a parent can go. *)
Definition adopt (old new : Z) (x : task) : task :=
  if bool_decide (state x = TASK_UNUSED) || negb (parent_pid x =? old) then x
  else if (new =? 0) && bool_decide (state x = TASK_ZOMBIE) then with_reap_ready 1 (with_parent_pid new x)
  else with_parent_pid new x.

Lemma reparent_effect t k :
  same_table (with_tasks (tasks (proc_reparent_children t k)) k) (proc_reparent_children t k) ∧
  sys (proc_reparent_children t k) = sys k ∧
  ∀ u, tasks (proc_reparent_children t k) u
       = if decide (0 ≤ u < MAX_TASKS) then adopt (pid (tasks k t)) (adopter t k) (tasks k u) else tasks k u.
Proof.
  unfold proc_reparent_children. cbv zeta. set (new := adopter t k). set (old := pid (tasks k t)).
  assert (∀ x, pid (adopt old new x) = pid x) as Hpid by (intros x; unfold adopt; by repeat case_if).
  set (body := λ u k0, reparent_child _ _ _ _).
  pose proof (for_range_ind (λ i k', (same_table (with_tasks (tasks k') k) k' ∧ sys k' = sys k) ∧
    ∀ u, tasks k' u = if decide (0 ≤ u < i) then adopt old new (tasks k u) else tasks k u) 0 MAX_TASKS body k) as H.
  destruct H as [[H1 H2] H3]; [done|split; [done|]; intros u; by rewrite decide_False by lia| |by split_and!].
  intros i k' Hi [[(_&C&I&F) S'] IH]. unfold body, reparent_child, task_at.
  assert (pid (tasks k' t) = old) as Eo by (rewrite IH; case_decide; [by rewrite Hpid|done]).
  rewrite Eo, (IH i), decide_False by lia.
  set (y := if (new =? 0) && _ then _ else _).
  assert (adopt old new (tasks k i) = if bool_decide (state (tasks k i) = TASK_UNUSED) || negb (parent_pid (tasks k i) =? old)
    then tasks k i else y) as Ea by reflexivity.
  destruct (bool_decide (state (tasks k i) = TASK_UNUSED) || negb (parent_pid (tasks k i) =? old)).
  - split; [done|]. intros u. rewrite IH. destruct (decide (u = i)) as [->|Hne].
    + by rewrite decide_False, decide_True, Ea by lia.
    + destruct (decide (0 ≤ u < i)), (decide (0 ≤ u < i + 1)); done || lia.
  - split; [done|]. intros u. unfold set_task. cbn. rewrite arr_get_set. destruct (decide (i = u)) as [->|Hne].
    + by rewrite decide_True, Ea by lia.
    + rewrite IH. destruct (decide (0 ≤ u < i)), (decide (0 ≤ u < i + 1)); done || lia.
Qed.

Lemma detach_empties n table (v : vfs St Hp Io) :
  0 ≤ n → ∀ i, 0 ≤ i < n → (for_range 0 n (λ index '(t, v), match t index with
                                    | None => (t, v)
                                    | Some f => (<[index := None]> t, vfs_release_file (Some f) v)
                                    end) (table, v)).1 i = None.
Proof.
  intros Hn. set (step := λ index '(t, v), _).
  apply (for_range_ind (λ j x, ∀ i, 0 ≤ i < j → x.1 i = None)); [done|lia|].
  intros j [t w] Hj IH i Hi. unfold step. cbn [fst] in *. destruct (t j) as [f|] eqn:Ef; cbn [fst].
  - rewrite arr_get_set. case_decide; [done|]. apply IH. lia.
  - destruct (decide (i = j)) as [->|]; [done|]. apply IH. lia.
Qed.

Lemma close_files_effect t k :
  ∃ table, (∀ i, 0 ≤ i < VFS_MAX_FDS → table i = None) ∧
  same_table (upd_task t (with_fd_table table) k) (task_close_files t k) ∧
  init_task (task_close_files t k) = init_task k ∧ clock (task_close_files t k) = clock k.
Proof.
  unfold task_close_files. destruct (vfs_detach_fds (Some (fd_table (task_at t k))) VFS_MAX_FDS (sys k)) as [fds v] eqn:E.
  exists (default (fd_table (task_at t k)) fds). split; [|by split_and!]. unfold vfs_detach_fds in E.
  pose proof (detach_empties VFS_MAX_FDS (fd_table (task_at t k)) (sys k) ltac:(done)) as H.
  destruct (for_range _ _ _ _) as [table v']. injection E as <- <-. exact H.
Qed.

(** ** The state in which a task that ends calls the scheduler *)

(** The task [t] with its end recorded, and before that its files closed and its children given away. *)
Definition ended_task t (status : Z) k : kernel St Hp Io Net :=
  upd_task t (λ x, with_reap_ready (if parent_pid x =? 0 then 1 else 0) x)
    (upd_task t (λ x, with_state TASK_ZOMBIE (task_clear_blocked_io (with_wait (-1) 0 (with_exit_status status x)))) k).
Definition ended t (status : Z) k : kernel St Hp Io Net :=
  ended_task t status (proc_reparent_children t (task_close_files t k)).

Definition exiting t (status : Z) k : kernel St Hp Io Net :=
  let k := ended t status k in
  proc_notify_parent_exit t (log_proc SYS_TRACE_EVENT_PROC_EXIT (pid (task_at t k)) (u32 status) (parent_pid (task_at t k)) k).

Lemma exit_eq fuel stack frame status k t :
  current_task k = Some t →
  proc_sys_exit fuel stack frame status k = proc_schedule fuel stack frame (exiting t status k).
Proof. intros E. unfold proc_sys_exit. by rewrite E. Qed.

Lemma adopter_close t k : adopter t (task_close_files t k) = adopter t k.
Proof.
  destruct (close_files_effect t k) as (table&_&(T&_)&I&_). unfold adopter, task_at. rewrite I.
  destruct (init_task k) as [i|]; [|done]. rewrite T, tasks_upd.
  destruct (decide (t = i)) as [->|]; [|done]. by rewrite Z.eqb_refl.
Qed.

(** The fields that matter of every task after [ended]. *)
Definition has_ended t (status : Z) k k' : Prop :=
  current_task k' = current_task k ∧ idle_task k' = idle_task k ∧ kframes k' = kframes k ∧
  (state (tasks k' t) = TASK_ZOMBIE ∧ exit_status (tasks k' t) = status ∧ pid (tasks k' t) = pid (tasks k t) ∧
   parent_pid (tasks k' t) = parent_pid (tasks k t) ∧ ∀ i, 0 ≤ i < VFS_MAX_FDS → fd_table (tasks k' t) i = None) ∧
  ∀ u, u ≠ t → 0 ≤ u < MAX_TASKS → tasks k' u = adopt (pid (tasks k t)) (adopter t k) (tasks k u).

Lemma ended_task_effect t status k k1 k2 table :
  0 ≤ t < MAX_TASKS → parent_pid (tasks k t) ≠ pid (tasks k t) →
  (∀ i, 0 ≤ i < VFS_MAX_FDS → table i = None) → same_table (upd_task t (with_fd_table table) k) k1 →
  same_table (with_tasks (tasks k2) k1) k2 →
  (∀ u, tasks k2 u = if decide (0 ≤ u < MAX_TASKS) then adopt (pid (tasks k1 t)) (adopter t k) (tasks k1 u) else tasks k1 u) →
  has_ended t status k (ended_task t status k2).
Proof.
  intros Ht Hself Htab (T1&C1&I1&F1) (_&C2&I2&F2) T2. unfold ended_task.
  assert (tasks k1 t = with_fd_table table (tasks k t)) as E1 by (by rewrite T1, tasks_upd_eq).
  assert (tasks k2 t = tasks k1 t) as E2.
  { rewrite T2, decide_True by done. unfold adopt. rewrite E1. cbn. rewrite (proj2 (Z.eqb_neq _ _) Hself). by rewrite orb_true_r. }
  split_and!.
  - change (current_task k2 = current_task k). exact (eq_trans C2 C1).
  - change (idle_task k2 = idle_task k). exact (eq_trans I2 I1).
  - change (kframes k2 = kframes k). exact (eq_trans F2 F1).
  - by rewrite !tasks_upd_eq.
  - rewrite !tasks_upd_eq. done.
  - rewrite !tasks_upd_eq. cbn. by rewrite E2, E1.
  - rewrite !tasks_upd_eq. cbn. by rewrite E2, E1.
  - intros i Hi. rewrite !tasks_upd_eq. cbn. rewrite E2, E1. by apply Htab.
  - intros u Hu Hr. rewrite !tasks_upd_ne by done. rewrite T2, decide_True by done.
    rewrite E1, T1, tasks_upd_ne by done. done.
Qed.

Lemma ended_effect t status k :
  0 ≤ t < MAX_TASKS → parent_pid (tasks k t) ≠ pid (tasks k t) → has_ended t status k (ended t status k).
Proof.
  intros Ht Hself. destruct (close_files_effect t k) as (table&Htab&H1&_).
  destruct (reparent_effect t (task_close_files t k)) as (H2&_&T2). rewrite adopter_close in T2.
  exact (ended_task_effect t status k _ _ table Ht Hself Htab H1 H2 T2).
Qed.

(** ** The parent *)

(** The task [p] waits for the child [t]. *)
Definition waits_for (p t : Z) k : Prop :=
  task_find_by_pid (parent_pid (tasks k t)) k = Some p ∧ state (tasks k p) = TASK_BLOCKED ∧
  block_reason (tasks k p) = TASK_BLOCK_WAITPID ∧
  (wait_target_pid (tasks k p) < 0 ∨ pid (tasks k t) = u32 (wait_target_pid (tasks k p))).

(** The result of the wait of [p] when the child [c] ends with [status] and user memory is [s],
    and the memory with the status stored: -1 just when there is an address for the status and
    the copy to it fails. *)
Definition wait_result (p c : task) (status : Z) (s : vm) (eax : Z) (s' : vm) : Prop :=
  (wait_status_user p = 0 → eax = pid c ∧ s' = s) ∧
  (wait_status_user p ≠ 0 →
     let '(r, m) := user_copy_to_in (page_directory_phys p) (wait_status_user p) (Some (status_bytes status)) 4 s in
     s' = m ∧ eax = if r =? 0 then pid c else ERR).

Lemma wait_result_cases p c status s eax s' :
  wait_result p c status s eax s' → eax = pid c ∨ eax = ERR ∧ wait_status_user p ≠ 0.
Proof.
  intros [H0 H1]. destruct (decide (wait_status_user p = 0)) as [E|E]; [left; by apply H0|].
  specialize (H1 E). destruct (user_copy_to_in _ _ _ _ _) as [r m]. destruct H1 as [_ ->]. case_if; auto.
Qed.

(** The parent [p] after the report of the exit of [t], and the result in its frame. *)
Record reported (p t : Z) k k' : Prop := {
  rp_current : current_task k' = current_task k;
  rp_idle : idle_task k' = idle_task k;
  rp_parent : tasks k' p = with_state TASK_RUNNABLE (with_block_reason TASK_BLOCK_NONE (with_wait (-1) 0 (tasks k p)));
  rp_child : tasks k' t = with_reap_ready 1 (tasks k t);
  rp_others : ∀ u, u ≠ p → u ≠ t → tasks k' u = tasks k u;
  rp_frames : ∀ a, a ≠ saved_esp (tasks k p) → kframes k' a = kframes k a;
  rp_eax : wait_result (tasks k p) (tasks k t) (exit_status (tasks k t)) (vmem k)
    (fr_eax (kframes k' (saved_esp (tasks k p)))) (vmem k');
}.

Lemma finish_wait_effect p t k :
  p ≠ t → state (tasks k p) = TASK_BLOCKED → reported p t k (proc_finish_blocked_wait p t k).
Proof.
  intros Hne Hb. unfold proc_finish_blocked_wait. cbv zeta. unfold task_at at 1 2 3 4.
  match goal with |- context [let '(r, s) := ?e in _] => destruct e as [r s] eqn:Er end.
  set (k1 := set_eax _ _ _).
  assert (same_table (with_kframes (kframes k1) k) k1) as (T1&C1&I1&_) by done.
  assert (kframes k1 = <[saved_esp (tasks k p) := with_eax (if truthy r then ERR else pid (tasks k t)) (kframes k (saved_esp (tasks k p)))]>
    (kframes k)) as F1 by done.
  assert (vmem k1 = s) as V1 by apply heap_vm_set. clearbody k1. cbn in T1.
  set (k2 := upd_task p _ k1). assert (state (tasks k2 p) = TASK_BLOCKED) as Hb2 by (unfold k2; rewrite tasks_upd_eq; cbn; by rewrite T1).
  unfold task_at. rewrite bool_decide_true by done. split.
  - exact C1.
  - exact I1.
  - rewrite tasks_upd_ne, tasks_upd_eq by done. unfold k2. rewrite tasks_upd_eq. by rewrite T1.
  - rewrite tasks_upd_eq, tasks_upd_ne by done. unfold k2. rewrite tasks_upd_ne by done. by rewrite T1.
  - intros u Hp1 Ht1. rewrite !tasks_upd_ne by done. unfold k2. rewrite tasks_upd_ne by done. by rewrite T1.
  - intros a Ha. change (kframes k1 a = kframes k a). rewrite F1. by apply arr_get_set_ne.
  - change (vmem _) with (vmem k1) at 2. rewrite V1.
    change (fr_eax _) with (fr_eax (kframes k1 (saved_esp (tasks k p)))). rewrite F1, arr_get_set_eq. cbn [fr_eax with_eax].
    split; intros Hz.
    + rewrite Hz in Er. injection Er as <- <-. done.
    + assert (truthy (wait_status_user (tasks k p)) = true) as Hzt by (unfold truthy; by rewrite (proj2 (Z.eqb_neq _ _) Hz)).
      rewrite Hzt in Er. rewrite Er. split; [done|]. unfold truthy. by destruct (r =? 0).
Qed.

Lemma notify_waiting p t k :
  p ≠ t → waits_for p t k → parent_pid (tasks k t) ≠ 0 → parent_pid (tasks k t) = pid (tasks k p) →
  state (tasks k t) ≠ TASK_UNUSED → proc_notify_parent_exit t k = proc_finish_blocked_wait p t k.
Proof.
  intros Hne (Hf&Hb&Hr&Hm) Hz Hpp Hu. unfold proc_notify_parent_exit, task_at. cbv zeta.
  rewrite (proj2 (Z.eqb_neq _ _) Hz), Hf. rewrite !bool_decide_true by done. unfold proc_wait_matches.
  rewrite (bool_decide_false (state (tasks k t) = TASK_UNUSED)) by done. rewrite Hpp, Z.eqb_refl. simpl.
  destruct Hm as [Hm|Hm]; [by rewrite (proj2 (Z.ltb_lt _ _) Hm)|]. rewrite Hm, Z.eqb_refl. by rewrite orb_true_r.
Qed.

Lemma adopt_fields old new x :
  let y := adopt old new x in
  pid y = pid x ∧ state y = state x ∧ block_reason y = block_reason x ∧ wait_target_pid y = wait_target_pid x ∧
  wait_status_user y = wait_status_user x ∧ saved_esp y = saved_esp x ∧
  parent_pid y = if decide (state x ≠ TASK_UNUSED ∧ parent_pid x = old) then new else parent_pid x.
Proof.
  cbv zeta. unfold adopt. case_bool_decide as Hu; [by rewrite decide_False by tauto|].
  destruct (Z.eqb_spec (parent_pid x) old); simpl; [|by rewrite decide_False by tauto].
  rewrite decide_True by done. by case_if.
Qed.

Lemma adopt_reparents old new x :
  state x ≠ TASK_UNUSED → parent_pid x = old →
  adopt old new x = with_parent_pid new x ∨ adopt old new x = with_reap_ready 1 (with_parent_pid new x).
Proof. intros Hu <-. unfold adopt. rewrite bool_decide_false, Z.eqb_refl by done. simpl. case_if; auto. Qed.

Lemma ended_find q t status k k' :
  state (tasks k t) ≠ TASK_UNUSED → has_ended t status k k' → task_find_by_pid q k' = task_find_by_pid q k.
Proof.
  intros Hu (_&_&_&(Hz&_&Hpid&_&_)&Ho). unfold task_find_by_pid. case_if; [done|]. apply for_find_ext. intros i Hi.
  destruct (decide (i = t)) as [->|Hit].
  - rewrite Hpid, Hz. rewrite !bool_decide_false by done. done.
  - rewrite (Ho i Hit Hi). destruct (adopt_fields (pid (tasks k t)) (adopter t k) (tasks k i)) as (->&->&_). done.
Qed.

(** A parent that waits still waits for the task when that has ended. *)
Lemma ended_waits p t status k k' :
  0 ≤ t < MAX_TASKS → state (tasks k t) ≠ TASK_UNUSED → p ≠ t →
  waits_for p t k → has_ended t status k k' → 0 ≤ p < MAX_TASKS ∧ parent_pid (tasks k t) ≠ 0 ∧
  parent_pid (tasks k t) = pid (tasks k p) ∧ waits_for p t k'.
Proof.
  intros Ht Hu Hne (Hf&Hb&Hr&Hm) He. pose proof (ended_find (parent_pid (tasks k t)) t status k k' Hu He) as Ef.
  destruct He as (_&_&_&(Hz&_&Hpid&Hpp&_)&Ho). pose proof Hf as Hf0. unfold task_find_by_pid in Hf. destruct (Z.eqb_spec (parent_pid (tasks k t)) 0) as [|Hz0]; [done|].
  pose proof (for_find_Some _ _ _ _ Hf) as (Hp1&Hq&Hlt).
  apply andb_prop in Hq as [Hq1 Hq2%Z.eqb_eq]. split_and!; try lia; try done.
  destruct (adopt_fields (pid (tasks k t)) (adopter t k) (tasks k p)) as (A1&A2&A3&A4&A5&A6&_).
  unfold waits_for. rewrite Hpp, Hpid, (Ho p Hne Hp1), A2, A3, A4, Ef. done.
Qed.

(** The report changes the task that ends and at most a blocked parent. *)
Lemma notify_effect t k :
  state (tasks k t) = TASK_ZOMBIE →
  current_task (proc_notify_parent_exit t k) = current_task k ∧ idle_task (proc_notify_parent_exit t k) = idle_task k ∧
  (state (tasks (proc_notify_parent_exit t k) t) = TASK_ZOMBIE ∧
   exit_status (tasks (proc_notify_parent_exit t k) t) = exit_status (tasks k t) ∧
   pid (tasks (proc_notify_parent_exit t k) t) = pid (tasks k t) ∧
   fd_table (tasks (proc_notify_parent_exit t k) t) = fd_table (tasks k t)) ∧
  ∀ u, u ≠ t → tasks (proc_notify_parent_exit t k) u = tasks k u ∨
    state (tasks k u) = TASK_BLOCKED ∧ state (tasks (proc_notify_parent_exit t k) u) = TASK_RUNNABLE ∧
    parent_pid (tasks (proc_notify_parent_exit t k) u) = parent_pid (tasks k u).
Proof.
  intros Hz. unfold proc_notify_parent_exit, task_at. cbv zeta.
  assert (∀ g, (∀ x, state (g x) = state x ∧ exit_status (g x) = exit_status x ∧ pid (g x) = pid x ∧ fd_table (g x) = fd_table x) →
    let k' := upd_task t g k in current_task k' = current_task k ∧ idle_task k' = idle_task k ∧
    (state (tasks k' t) = TASK_ZOMBIE ∧ exit_status (tasks k' t) = exit_status (tasks k t) ∧ pid (tasks k' t) = pid (tasks k t) ∧
     fd_table (tasks k' t) = fd_table (tasks k t)) ∧
    ∀ u, u ≠ t → tasks k' u = tasks k u ∨ state (tasks k u) = TASK_BLOCKED ∧ state (tasks k' u) = TASK_RUNNABLE ∧
      parent_pid (tasks k' u) = parent_pid (tasks k u)) as Hone.
  { intros g Hg. cbv zeta. rewrite tasks_upd_eq. destruct (Hg (tasks k t)) as (->&->&->&->). split_and!; try done.
    intros u Hu. left. by apply tasks_upd_ne. }
  case_if; [by apply Hone|]. destruct (task_find_by_pid _ k) as [p|]; [|by apply Hone].
  case_if; [split_and!; try done; by left|]. zbool. bsimpl.
  match goal with H : bool_decide (state (tasks k p) = TASK_BLOCKED) = true |- _ => apply bool_decide_eq_true in H as Hb end.
  destruct (decide (p = t)) as [->|Hpt]; [congruence|]. destruct (finish_wait_effect p t k Hpt Hb) as [C I Pp Pc Po _ _].
  rewrite C, I, Pc. split_and!; try done. intros u Hu. destruct (decide (u = p)) as [->|Hup]; [right; by rewrite Pp|left; by apply Po].
Qed.


Lemma exiting_effect t status k :
  0 ≤ t < MAX_TASKS → parent_pid (tasks k t) ≠ pid (tasks k t) →
  let k' := exiting t status k in
  current_task k' = current_task k ∧ idle_task k' = idle_task k ∧
  (state (tasks k' t) = TASK_ZOMBIE ∧ exit_status (tasks k' t) = status ∧ pid (tasks k' t) = pid (tasks k t) ∧
   ∀ i, 0 ≤ i < VFS_MAX_FDS → fd_table (tasks k' t) i = None) ∧
  ∀ u, u ≠ t → 0 ≤ u < MAX_TASKS →
    (state (tasks k' u) = state (tasks k u) ∨ state (tasks k u) = TASK_BLOCKED ∧ state (tasks k' u) = TASK_RUNNABLE) ∧
    (state (tasks k u) ≠ TASK_UNUSED → parent_pid (tasks k u) = pid (tasks k t) → parent_pid (tasks k' u) = adopter t k).
Proof.
  intros Ht Hself. cbv zeta. unfold exiting. cbv zeta.
  destruct (ended_effect t status k Ht Hself) as (C1&I1&_&(Z1&S1&P1&_&F1)&O1). set (k1 := ended t status k) in *. clearbody k1.
  set (k2 := log_proc _ _ _ _ k1). assert (same_table k1 k2) as (T2&C2&I2&_) by done. clearbody k2.
  destruct (notify_effect t k2) as (C3&I3&(Z3&S3&P3&F3)&O3); [by rewrite T2|].
  rewrite C3, I3, Z3, S3, P3, F3, T2, C2, I2. split_and!; try done.
  intros u Hu Hr. specialize (O3 u Hu). rewrite T2, (O1 u Hu Hr) in O3.
  destruct (adopt_fields (pid (tasks k t)) (adopter t k) (tasks k u)) as (_&A2&_&_&_&_&A7). rewrite A2, A7 in O3.
  destruct O3 as [->|(Hb&Hs&->)].
  - rewrite A2, A7. split; [by left|]. intros ??. by rewrite decide_True.
  - split; [by right|]. intros ??. by rewrite decide_True.
Qed.

Lemma exiting_sched_wf t status k :
  sched_wf k → current_task k = Some t → idle_task k ≠ Some t → parent_pid (tasks k t) ≠ pid (tasks k t) →
  sched_wf (exiting t status k).
Proof.
  intros Hwf Hc Hi Hself. pose proof (sw_current _ Hwf t Hc) as Ht.
  destruct (exiting_effect t status k Ht Hself) as (C&I&(Z1&_)&O). split.
  - intros u. rewrite C. apply (sw_current _ Hwf).
  - intros u Hr Hu. rewrite C. destruct (decide (u = t)) as [->|Hne]; [done|].
    destruct (O u Hne Hr) as [[Hs|[_ Hs]] _]; [|congruence]. apply (sw_running _ Hwf); [done|congruence].
  - destruct (sw_idle _ Hwf) as (i&Ei&Hr&Hs). exists i. rewrite I. split_and!; try done; try lia.
    assert (i ≠ t) as Hne by congruence. destruct (O i Hne Hr) as [[->|[Hb _]] _]; [done|]. rewrite Hb in Hs. naive_solver.
Qed.

(** C30: The end of a task.  [proc_sys_exit] leaves the task as a zombie that keeps its pid and its
    status until it is collected, with all descriptors closed; every child of it is given
    to the first process, or to nobody when there is none; and another task runs next. *)
Theorem proc_sys_exit_spec fuel stack frame status k f k' t :
  sched_wf k → current_task k = Some t → idle_task k ≠ Some t → parent_pid (tasks k t) ≠ pid (tasks k t) →
  proc_sys_exit fuel stack frame status k = Some (f, k') →
  state (tasks k' t) = TASK_ZOMBIE ∧ exit_status (tasks k' t) = status ∧ pid (tasks k' t) = pid (tasks k t) ∧
  (∀ i, 0 ≤ i < VFS_MAX_FDS → fd_table (tasks k' t) i = None) ∧
  (∀ u, u ≠ t → 0 ≤ u < MAX_TASKS → state (tasks k u) ≠ TASK_UNUSED → parent_pid (tasks k u) = pid (tasks k t) →
     state (tasks k' u) = TASK_UNUSED ∨ parent_pid (tasks k' u) = adopter t k) ∧
  sched_wf k' ∧ ∃ c, current_task k' = Some c ∧ c ≠ t ∧ f = saved_esp (tasks k' c).
Proof.
  intros Hwf Hc Hi Hself. rewrite (exit_eq _ _ _ _ _ t) by done. pose proof (sw_current _ Hwf t Hc) as Ht.
  pose proof (exiting_sched_wf t status k Hwf Hc Hi Hself) as Hwf1.
  destruct (exiting_effect t status k Ht Hself) as (C1&I1&(Z1&S1&P1&F1)&O1). set (k1 := exiting t status k) in *. clearbody k1.
  intros H. pose proof (schedule_cases _ _ _ _ _ _ H) as (k2&Hph&Hk').
  destruct (schedule_effect _ _ _ _ _ _ Hwf1 H) as (Hwf'&c&Hc'&Hcr&_&_&Hnz&Hf&_).
  assert (c ≠ t) as Hct by congruence.
  destruct (chosen k1 k2 frame Hwf1 Hph) as (_&_&d&Hpk&_&Hds). rewrite Hpk in Hk'. destruct Hk' as [_ ->].
  pose proof (activate_effect d k2) as (C3&_&_&_&_&O3&T3). rewrite C3 in Hc'. injection Hc' as ->.
  pose proof (save_current_effect frame k1) as (Ec&_). pose proof (save_current_tasks frame k1 t) as Et.
  rewrite C1, Hc, decide_True in Et by done.
  destruct (suspended_fields frame (tasks k1 t)) as (Q1&_&Q3&Q4&Q5). rewrite <- Et in *.
  assert (tasks k2 t = tasks (save_current frame k1) t) as E2.
  { apply (ph_ended _ _ Hph); [by rewrite Ec, C1|rewrite Q5; congruence]. }
  assert (tasks (proc_activate_task c k2) t = tasks (save_current frame k1) t) as E3 by (rewrite O3; congruence).
  rewrite E3, Q1, Q3, Q4. split_and!; [rewrite Q5; congruence|exact S1|exact P1|exact F1| |exact Hwf'|by exists c].
  intros u Hu Hr Hnu Hpp. destruct (O1 u Hu Hr) as [_ Ha]. specialize (Ha Hnu Hpp).
  assert (tasks (save_current frame k1) u = tasks k1 u) as Es by (rewrite save_current_tasks; rewrite decide_False; congruence).
  assert (state (tasks k2 u) = TASK_UNUSED ∨ parent_pid (tasks k2 u) = adopter t k) as H2.
  { pose proof (ph_moves _ _ Hph u) as Hm. rewrite Es in Hm. destruct Hm as [|y ?? Hk|y ?? Hk|y ??]; [by right|right|right|by left].
    - by rewrite (kp_parent _ _ Hk).
    - by rewrite (kp_parent _ _ Hk). }
  destruct (decide (u = c)) as [->|Huc]; [|by rewrite O3]. right.
  rewrite T3. destruct H2 as [H2|H2]; [congruence|exact H2].
Qed.

(** ** The report to a parent that waits *)

(** Everything that is needed of the state in which the scheduler is called. *)
Record report_made (p t status : Z) k k' : Prop := {
  rm_current : current_task k' = current_task k;
  rm_parent : state (tasks k' p) = TASK_RUNNABLE ∧ block_reason (tasks k' p) = TASK_BLOCK_NONE ∧
    saved_esp (tasks k' p) = saved_esp (tasks k p) ∧ pid (tasks k' p) = pid (tasks k p) ∧ kind (tasks k' p) = kind (tasks k p);
  rm_child : state (tasks k' t) = TASK_ZOMBIE ∧ parent_pid (tasks k' t) = pid (tasks k p) ∧ pid (tasks k' t) = pid (tasks k t);
  rm_others : ∀ u, 0 ≤ u < MAX_TASKS → u ≠ p → u ≠ t →
    state (tasks k' u) = state (tasks k u) ∧ saved_esp (tasks k' u) = saved_esp (tasks k u);
  rm_eax : wait_result (tasks k p) (tasks k t) status (vmem (task_close_files t k))
    (fr_eax (kframes k' (saved_esp (tasks k p)))) (vmem k');
}.

Lemma adopt_kind old new x : kind (adopt old new x) = kind x ∧ page_directory_phys (adopt old new x) = page_directory_phys x.
Proof. unfold adopt. by repeat case_if. Qed.

Lemma ended_vmem t status k : vmem (ended t status k) = vmem (task_close_files t k).
Proof.
  destruct (reparent_effect t (task_close_files t k)) as (_&E&_). unfold ended.
  assert (∀ g (x : kernel St Hp Io Net), vmem (upd_task t g x) = vmem x) as Hv by done.
  unfold ended_task. rewrite !Hv. unfold vmem. by rewrite E.
Qed.

Lemma log_same event a0 a1 a2 k : same_table k (log_proc event a0 a1 a2 k).
Proof. done. Qed.

Lemma log_vmem event a0 a1 a2 k : vmem (log_proc event a0 a1 a2 k) = vmem k.
Proof. done. Qed.

Lemma notify_reports p t status k k1 k2 :
  0 ≤ t < MAX_TASKS → state (tasks k t) ≠ TASK_UNUSED → p ≠ t → waits_for p t k →
  has_ended t status k k1 → same_table k1 k2 → vmem k2 = vmem (task_close_files t k) →
  report_made p t status k (proc_notify_parent_exit t k2).
Proof.
  intros Ht Hu Hne Hw He (T2&C2&_&F2) V2.
  destruct (ended_waits p t status k _ Ht Hu Hne Hw He) as (Hp1&Hz0&Hpp&Hw1).
  destruct He as (C1&_&_&(Z1&S1&P1&PP1&_)&O1). pose proof (O1 p Hne Hp1) as Ep.
  assert (waits_for p t k2) as Hw2 by (unfold waits_for, task_find_by_pid in *; by rewrite T2).
  destruct (adopt_fields (pid (tasks k t)) (adopter t k) (tasks k p)) as (A1&A2&A3&A4&A5&A6&_).
  pose proof (adopt_kind (pid (tasks k t)) (adopter t k) (tasks k p)) as [A7 A8].
  rewrite (notify_waiting p t k2); rewrite ?T2; [|done|done|congruence|congruence|congruence].
  destruct Hw2 as (_&Hb&_). destruct (finish_wait_effect p t k2 Hne Hb) as [C3 _ Pp Pc Po _ Pe]. split.
  - by rewrite C3, C2.
  - rewrite Pp, T2, Ep. cbn. by rewrite A1, A6, A7.
  - rewrite Pc, T2. cbn. by rewrite Z1, PP1, P1, Hpp.
  - intros u Hr Hup Hut. rewrite (Po u Hup Hut), T2, (O1 u Hut Hr).
    destruct (adopt_fields (pid (tasks k t)) (adopter t k) (tasks k u)) as (_&->&_&_&_&->&_). done.
  - unfold wait_result in *. rewrite !T2, Ep, A5, A6, A8, P1, S1, V2 in Pe. exact Pe.
Qed.

Lemma exiting_reports p t status k :
  0 ≤ t < MAX_TASKS → parent_pid (tasks k t) ≠ pid (tasks k t) → state (tasks k t) ≠ TASK_UNUSED → p ≠ t →
  waits_for p t k → report_made p t status k (exiting t status k).
Proof.
  intros Ht Hself Hu Hne Hw.
  exact (notify_reports p t status k _ _ Ht Hu Hne Hw (ended_effect t status k Ht Hself) (log_same _ _ _ _ _)
    (eq_trans (log_vmem _ _ _ _ _) (ended_vmem t status k))).
Qed.

(** The same after the scheduler has run. *)
Lemma exit_reports fuel stack frame status k f k' p t :
  sched_wf k → current_task k = Some t → idle_task k ≠ Some t → parent_pid (tasks k t) ≠ pid (tasks k t) →
  state (tasks k t) ≠ TASK_UNUSED → p ≠ t → waits_for p t k → 0 ≤ p < MAX_TASKS →
  (∀ u, 0 ≤ u < MAX_TASKS → u ≠ p → state (tasks k u) = TASK_BLOCKED → saved_esp (tasks k u) ≠ saved_esp (tasks k p)) →
  proc_sys_exit fuel stack frame status k = Some (f, k') →
  (state (tasks k' p) = TASK_RUNNABLE ∨ current_task k' = Some p) ∧ saved_esp (tasks k' p) = saved_esp (tasks k p) ∧
  pid (tasks k' p) = pid (tasks k p) ∧ kind (tasks k' p) = kind (tasks k p) ∧
  (state (tasks k' t) = TASK_ZOMBIE ∧ parent_pid (tasks k' t) = pid (tasks k p) ∧ pid (tasks k' t) = pid (tasks k t)) ∧
  (∀ u, 0 ≤ u < MAX_TASKS → u ≠ t → state (tasks k' u) = TASK_ZOMBIE → state (tasks k u) = TASK_ZOMBIE) ∧
  wait_result (tasks k p) (tasks k t) status (vmem (task_close_files t k))
    (fr_eax (kframes k' (saved_esp (tasks k p)))) (vmem (exiting t status k)).
Proof.
  intros Hwf Hc Hi Hself Hu Hne Hw Hp1 Hfr. rewrite (exit_eq _ _ _ _ _ t) by done.
  pose proof (sw_current _ Hwf t Hc) as Ht. pose proof (exiting_sched_wf t status k Hwf Hc Hi Hself) as Hwf1.
  destruct (exiting_reports p t status k Ht Hself Hu Hne Hw) as [C1 (Ps&_&Pesp&Pp&Pk) (Cz&Cpp&Cp) O1 E1].
  set (k1 := exiting t status k) in *. clearbody k1. intros H.
  pose proof (schedule_cases _ _ _ _ _ _ H) as (k2&Hph&Hk').
  destruct (chosen k1 k2 frame Hwf1 Hph) as (_&_&d&Hpk&_&Hds). rewrite Hpk in Hk'. destruct Hk' as [_ ->].
  pose proof (activate_effect d k2) as (C3&_&F3&_&_&O3&T3). pose proof (save_current_tasks frame k1) as Et.
  rewrite C1, Hc in Et. pose proof (save_current_effect frame k1) as (Ec&_&Fs&_).
  assert (tasks k2 p = tasks k1 p) as E2.
  { pose proof (ph_moves _ _ Hph p) as Hm. rewrite Et, decide_False in Hm by congruence. inversion Hm; congruence. }
  pose proof (Et t) as Ett. rewrite decide_True in Ett by done.
  destruct (suspended_fields frame (tasks k1 t)) as (Q1&Q2&_&_&Q5). specialize (Q5 ltac:(congruence)). rewrite <- Ett, Cz in *.
  assert (tasks k2 t = tasks (save_current frame k1) t) as E2t.
  { apply (ph_ended _ _ Hph); [by rewrite Ec, C1|done]. }
  assert (d ≠ t) as Hdt by (intros ->; congruence).
  assert (kframes (proc_activate_task d k2) (saved_esp (tasks k p)) = kframes k1 (saved_esp (tasks k p))) as Ek.
  { rewrite F3, (ph_frames _ _ Hph), Fs; [done|]. intros u Hr. rewrite Et. destruct (decide (Some t = Some u)) as [[= <-]|Hut].
    - rewrite <- Ett. congruence.
    - intros Hb. destruct (decide (u = p)) as [->|Hup]; [congruence|]. destruct (O1 u Hr Hup ltac:(congruence)) as [Es ->].
      apply Hfr; congruence. }
  split_and!.
  - destruct (decide (p = d)) as [->|Hpd]; [right; exact C3|left]. by rewrite O3, E2.
  - destruct (decide (p = d)) as [->|Hpd]; [rewrite T3; cbn; by rewrite E2|by rewrite O3, E2].
  - destruct (decide (p = d)) as [->|Hpd]; [rewrite T3; cbn; by rewrite E2|by rewrite O3, E2].
  - destruct (decide (p = d)) as [->|Hpd]; [rewrite T3; cbn; by rewrite E2|by rewrite O3, E2].
  - rewrite O3, E2t by done. exact Q5.
  - rewrite O3, E2t, Q2 by done. exact Cpp.
  - rewrite O3, E2t, Q1 by done. exact Cp.
  - intros u Hr Hut. destruct (decide (u = d)) as [->|Hud]; [by rewrite T3|]. rewrite O3 by done. intros Hz.
    pose proof (ph_moves _ _ Hph u) as Hm. rewrite Et, decide_False in Hm by congruence.
    assert (state (tasks k1 u) = TASK_ZOMBIE) as Hz1 by (inversion Hm as [Eq|y|y ? Hor|y]; [by rewrite <- Eq in Hz|congruence|destruct Hor; congruence|congruence]).
    destruct (decide (u = p)) as [->|Hup]; [congruence|]. destruct (O1 u Hr Hup Hut) as [Es _]. congruence.
  - rewrite Ek. exact E1.
Qed.

(** C31: The exit of a child wakes a parent that waits for it.  The parent can run
    again, or runs already.  When it passed no address for the status, the result of its call is
    the pid of the child.  When it passed one, the four bytes of the status are copied there, into
    user memory as it is after the child's files are closed: the result is the pid of the
    child when the copy succeeds and -1 when it fails, and the scheduler is called in a
    state ([exiting]) with the memory that the copy left.  The frames of blocked tasks are at
    different addresses. *)
Theorem proc_exit_wakes_parent fuel stack frame status k f k' p t :
  sched_wf k → current_task k = Some t → idle_task k ≠ Some t → parent_pid (tasks k t) ≠ pid (tasks k t) →
  state (tasks k t) ≠ TASK_UNUSED → p ≠ t → waits_for p t k → 0 ≤ p < MAX_TASKS →
  (∀ u, 0 ≤ u < MAX_TASKS → u ≠ p → state (tasks k u) = TASK_BLOCKED → saved_esp (tasks k u) ≠ saved_esp (tasks k p)) →
  proc_sys_exit fuel stack frame status k = Some (f, k') →
  (state (tasks k' p) = TASK_RUNNABLE ∨ current_task k' = Some p) ∧
  proc_schedule fuel stack frame (exiting t status k) = Some (f, k') ∧
  (wait_status_user (tasks k p) = 0 →
     fr_eax (kframes k' (saved_esp (tasks k' p))) = pid (tasks k t) ∧
     vmem (exiting t status k) = vmem (task_close_files t k)) ∧
  (wait_status_user (tasks k p) ≠ 0 →
     let '(r, s) := user_copy_to_in (page_directory_phys (tasks k p)) (wait_status_user (tasks k p))
                      (Some (status_bytes status)) 4 (vmem (task_close_files t k)) in
     vmem (exiting t status k) = s ∧
     fr_eax (kframes k' (saved_esp (tasks k' p))) = if r =? 0 then pid (tasks k t) else ERR).
Proof.
  intros Hwf Hc Hi Hself Hu Hne Hw Hp1 Hfr H.
  destruct (exit_reports _ _ _ _ _ _ _ p t Hwf Hc Hi Hself Hu Hne Hw Hp1 Hfr H) as (Hs&->&_&_&_&_&He).
  rewrite (exit_eq _ _ _ _ _ t) in H by done. split; [done|]. split; [done|exact He].
Qed.

(** ** Collecting *)

Lemma find_zombie_only x t target k :
  0 ≤ t < MAX_TASKS → state (tasks k t) = TASK_ZOMBIE → proc_wait_matches x (tasks k t) target = true →
  (∀ u, 0 ≤ u < MAX_TASKS → u ≠ t → state (tasks k u) ≠ TASK_ZOMBIE) → proc_find_zombie_child x target k = Some t.
Proof.
  intros Ht Hz Hm Ho. unfold proc_find_zombie_child. apply for_find_is; [done| |].
  - by rewrite Hm, bool_decide_true.
  - intros u Hu. rewrite (bool_decide_false (state (tasks k u) = TASK_ZOMBIE)); [by rewrite andb_false_r|]. apply Ho; lia.
Qed.

(** A call of [waitpid] without a status by the current task [p], a user task. *)
Lemma waitpid_collects fuel stack frame target k p t :
  current_task k = Some p → kind (tasks k p) = TASK_USER → interrupt_from_user (kframes k frame) = true → target ≠ 0 →
  proc_find_zombie_child (tasks k p) target k = Some t →
  ∃ k', proc_sys_waitpid fuel stack frame target 0 k = Some (frame, k') ∧
    fr_eax (kframes k' frame) = pid (tasks k t) ∧ state (tasks k' t) = TASK_UNUSED ∧ ∀ u, u ≠ t → tasks k' u = tasks k u.
Proof.
  intros Hc Hk Hu Hz Hf. unfold proc_sys_waitpid. rewrite Hc. cbv zeta. unfold task_at, frame_at.
  rewrite bool_decide_true, Hu by done. rewrite (proj2 (Z.eqb_neq _ _) Hz). cbn [negb orb andb].
  change (truthy 0) with false. cbn [andb]. rewrite Hf. eexists. split; [done|].
  unfold proc_collect_zombie_now. change (truthy 0) with false. cbv zeta. cbn iota. change (truthy 0) with false. cbn iota. cbn [snd].
  set (k1 := set_eax _ _ _). destruct (release_effect t k1) as (_&_&F&O&U). rewrite F, U. split_and!; [|done|].
  - unfold k1. cbn. by rewrite arr_get_set_eq.
  - intros u Hut. by rewrite O.
Qed.

(** The exit of a child is reported twice.  A child ends while its parent waits, for
    which the parent gets the pid of the child as the result; the child stays in the table, because it is
    still the current task when the scheduler removes the zombies that have been reported.  When the
    parent runs next and calls [waitpid(-1)] again, it gets the same pid once more, although
    it has no child left. *)
Theorem waitpid_reports_twice fuel stack frame status k f k' p t frame' :
  sched_wf k → current_task k = Some t → idle_task k ≠ Some t → parent_pid (tasks k t) ≠ pid (tasks k t) →
  state (tasks k t) ≠ TASK_UNUSED → p ≠ t → waits_for p t k → 0 ≤ p < MAX_TASKS → wait_status_user (tasks k p) = 0 →
  (∀ u, 0 ≤ u < MAX_TASKS → u ≠ p → state (tasks k u) = TASK_BLOCKED → saved_esp (tasks k u) ≠ saved_esp (tasks k p)) →
  (∀ u, 0 ≤ u < MAX_TASKS → state (tasks k u) ≠ TASK_ZOMBIE) →
  kind (tasks k p) = TASK_USER →
  proc_sys_exit fuel stack frame status k = Some (f, k') → current_task k' = Some p →
  interrupt_from_user (kframes k' frame') = true →
  fr_eax (kframes k' (saved_esp (tasks k' p))) = pid (tasks k t) ∧
  ∃ k'', proc_sys_waitpid fuel stack frame' (-1) 0 k' = Some (frame', k'') ∧
    fr_eax (kframes k'' frame') = pid (tasks k t).
Proof.
  intros Hwf Hc Hi Hself Hu Hne Hw Hp1 Hz0 Hfr Hnz Hku H Hc' Hu'.
  destruct (exit_reports _ _ _ _ _ _ _ p t Hwf Hc Hi Hself Hu Hne Hw Hp1 Hfr H) as (_&Eesp&Epid&Ek&(Cz&Cpp&Cp)&Hoz&He).
  apply wait_result_cases in He. rewrite Eesp. split; [naive_solver|].
  pose proof (sw_current _ Hwf t Hc) as Ht.
  destruct (waitpid_collects fuel stack frame' (-1) k' p t) as (k''&Ew&He''&_); try done.
  - by rewrite Ek.
  - apply find_zombie_only; try done.
    + unfold proc_wait_matches. rewrite bool_decide_false by congruence. by rewrite Cpp, Epid, Z.eqb_refl.
    + intros u Hr Hut Hz. by apply (Hnz u Hr), (Hoz u).
  - exists k''. split; [done|]. congruence.
Qed.

Lemma notify_others u t k :
  u ≠ t → task_find_by_pid (parent_pid (tasks k t)) k ≠ Some u → tasks (proc_notify_parent_exit t k) u = tasks k u.
Proof.
  intros Hu Hf. unfold proc_notify_parent_exit, task_at. cbv zeta.
  case_if; [by apply tasks_upd_ne|]. destruct (task_find_by_pid _ k) as [p|]; [|by apply tasks_upd_ne].
  case_if; [done|]. zbool. bsimpl.
  match goal with H : bool_decide (state (tasks k p) = TASK_BLOCKED) = true |- _ => apply bool_decide_eq_true in H as Hb end.
  destruct (decide (p = t)) as [->|Hpt].
  - unfold proc_finish_blocked_wait. cbv zeta.
    match goal with |- context [let '(r, s) := ?e in _] => destruct e as [r s] end.
    rewrite tasks_upd_ne by done. case_if; by rewrite !tasks_upd_ne by done.
  - destruct (finish_wait_effect p t k Hpt Hb) as [_ _ _ _ Po _ _]. apply Po; congruence.
Qed.

Lemma notify_untouched u t status k k1 k2 :
  state (tasks k t) ≠ TASK_UNUSED → u ≠ t → 0 ≤ u < MAX_TASKS → task_find_by_pid (parent_pid (tasks k t)) k ≠ Some u →
  has_ended t status k k1 → same_table k1 k2 →
  tasks (proc_notify_parent_exit t k2) u = adopt (pid (tasks k t)) (adopter t k) (tasks k u).
Proof.
  intros Hu Hut Hr Hf He (T2&_). pose proof (ended_find (parent_pid (tasks k t)) t status k k1 Hu He) as Ef.
  destruct He as (_&_&_&(_&_&_&Hpp&_)&Ho). rewrite notify_others; rewrite ?T2; [by apply Ho|done|].
  unfold task_find_by_pid in *. by rewrite T2, Hpp, Ef.
Qed.

Lemma exiting_others u t status k :
  0 ≤ t < MAX_TASKS → parent_pid (tasks k t) ≠ pid (tasks k t) → state (tasks k t) ≠ TASK_UNUSED → u ≠ t →
  0 ≤ u < MAX_TASKS → task_find_by_pid (parent_pid (tasks k t)) k ≠ Some u →
  tasks (exiting t status k) u = adopt (pid (tasks k t)) (adopter t k) (tasks k u).
Proof.
  intros Ht Hself Hu Hut Hr Hf.
  exact (notify_untouched u t status k _ _ Hu Hut Hr Hf (ended_effect t status k Ht Hself) (log_same _ _ _ _ _)).
Qed.

(** The exit of a task can leave the first process waiting for a child that has ended.  A task
    that ends gives its children to the first process, zombies too, but nobody
    tells the first process: while it is blocked in [waitpid(-1)], and the task that ends is not
    its own child, it stays blocked, although a zombie that it waits for is in the table. *)
Theorem adopted_zombie_not_reported fuel stack frame status k f k' i z t :
  sched_wf k → current_task k = Some t → idle_task k ≠ Some t → parent_pid (tasks k t) ≠ pid (tasks k t) →
  state (tasks k t) ≠ TASK_UNUSED → init_task k = Some i → 0 ≤ i < MAX_TASKS → i ≠ t → pid (tasks k i) ≠ 0 →
  state (tasks k i) = TASK_BLOCKED → block_reason (tasks k i) = TASK_BLOCK_WAITPID → wait_target_pid (tasks k i) = -1 →
  task_find_by_pid (parent_pid (tasks k t)) k ≠ Some i →
  0 ≤ z < MAX_TASKS → z ≠ t → state (tasks k z) = TASK_ZOMBIE → parent_pid (tasks k z) = pid (tasks k t) →
  reap_ready (tasks k z) = 0 → task_find_by_pid (parent_pid (tasks k t)) k ≠ Some z →
  proc_sys_exit fuel stack frame status k = Some (f, k') →
  state (tasks k' i) = TASK_BLOCKED ∧ block_reason (tasks k' i) = TASK_BLOCK_WAITPID ∧
  state (tasks k' z) = TASK_ZOMBIE ∧ proc_wait_matches (tasks k' i) (tasks k' z) (wait_target_pid (tasks k' i)) = true.
Proof.
  intros Hwf Hc Hidle Hself Hu Hi Hir Hit Hip Hib Hiw Hit1 Hfi Hzr Hzt Hz Hzp Hzre Hfz.
  rewrite (exit_eq _ _ _ _ _ t) by done. pose proof (sw_current _ Hwf t Hc) as Ht.
  pose proof (exiting_sched_wf t status k Hwf Hc Hidle Hself) as Hwf1.
  destruct (exiting_effect t status k Ht Hself) as (C1&_&_&_).
  assert (adopter t k = pid (tasks k i)) as Ea.
  { unfold adopter, task_at. rewrite Hi, Hib. rewrite (proj2 (Z.eqb_neq _ _) Hit). done. }
  pose proof (exiting_others i t status k Ht Hself Hu Hit Hir Hfi) as Ei.
  pose proof (exiting_others z t status k Ht Hself Hu Hzt Hzr Hfz) as Ez. rewrite Ea in Ei, Ez.
  destruct (adopt_fields (pid (tasks k t)) (pid (tasks k i)) (tasks k i)) as (I1&I2&I3&I4&_).
  assert (adopt (pid (tasks k t)) (pid (tasks k i)) (tasks k z) = with_parent_pid (pid (tasks k i)) (tasks k z)) as Az.
  { unfold adopt. rewrite Hzp, Z.eqb_refl, Hz. by rewrite (proj2 (Z.eqb_neq _ _) Hip). }
  rewrite Az in Ez. rewrite <- Ei in I1, I2, I3, I4. set (k1 := exiting t status k) in *. clearbody k1. intros H.
  pose proof (schedule_cases _ _ _ _ _ _ H) as (k2&Hph&Hk').
  destruct (chosen k1 k2 frame Hwf1 Hph) as (_&_&d&Hpk&_&Hds). rewrite Hpk in Hk'. destruct Hk' as [_ ->].
  pose proof (activate_effect d k2) as (_&_&_&_&_&O3&_). pose proof (save_current_tasks frame k1) as Et. rewrite C1, Hc in Et.
  assert (tasks k2 i = tasks k1 i) as E2i.
  { pose proof (ph_moves _ _ Hph i) as Hm. rewrite Et, decide_False in Hm by congruence. inversion Hm; congruence. }
  assert (tasks k2 z = tasks k1 z) as E2z.
  { pose proof (ph_moves _ _ Hph z) as Hm. rewrite Et, decide_False in Hm by congruence.
    inversion Hm as [|y|y|y ?? Hr]; try (rewrite Ez in *; cbn in *; congruence). rewrite Ez in Hr. cbn in Hr. by rewrite Hzre in Hr. }
  rewrite !O3 by (intros ->; rewrite ?E2i, ?E2z, ?Ez in Hds; cbn in Hds; congruence).
  rewrite E2i, E2z, I2, I3, I4, Ez. split_and!; try done. unfold proc_wait_matches. cbn. rewrite Hz, I1, Z.eqb_refl, Hit1. done.
Qed.

End wait.
