(* ===== verification/ProcDemo.v ===== *)
(** * Concrete processes

    A small system with an idle task, a first process and a child, and the theorems
    about scheduling, ending and waiting at work on it. *)

From stdpp Require Import strings.
From S2P Require Import Prelude Abi Mem Palloc Trace Paging Usercopy Kheap Kstack Block Vnode Simplefs SimplefsData Vfs VfsFiles VfsHeap Exec Task Proc ProcSched ProcLive ProcWait.

Local Open Scope Z_scope.
Local Open Scope c_scope.

(** No network. *)
#[export] Instance no_network : NetStack unit :=
  {| net_poll _ n r := (n, r); net_ping4_start _ _ _ _ n r := (SYS_PING_ERR_INVALID, n, r);
     net_ping4_poll_result _ n := (-1, 0, n) |}.

#[export] Instance list_console_laws : ConsoleLaws (λ o : list Z * list Z, length o.1).
Proof.
  split.
  - intros [[|c i] o] d [i' o']; cbn; [done|]. intros [= <- <- <-]. lia.
  - intros [[|c i] o] [i' o']; cbn; [by intros [= <- <-]|done].
  - by intros bytes [i o].
Qed.

Definition demo_frame : interrupt_frame := task_prepare_user_frame 4194304 8388608.

(** The idle task in slot 0, the first process in slot 1 and its child in slot 2, which is running. *)
Definition demo_idle : task := with_pid 1 (with_state TASK_RUNNABLE (with_saved_esp 4096 (with_directory 4096 (task_reset zero_task)))).
Definition demo_init : task :=
  with_pid 2 (with_kind TASK_USER (with_state TASK_RUNNABLE (with_saved_esp 8192 (with_directory 8192 (task_reset zero_task))))).
Definition demo_child : task :=
  with_pid 3 (with_parent_pid 2 (with_kind TASK_USER (with_state TASK_RUNNING (with_directory 12288 (task_reset zero_task))))).

Definition demo_tasks (init child : task) : carray task :=
  λ t, if t =? 0 then demo_idle else if t =? 1 then init else if t =? 2 then child else task_reset zero_task.

Definition demo_kernel (table : carray task) (ticks : Z) : kernel (carray Z) kheap (list Z * list Z) unit :=
  {| tasks := table; current_task := Some 2; idle_task := Some 0; init_task := Some 1; next_pid := 4; last_logged_tick := 0;
     kframes := λ _, demo_frame; kmem := λ _, 0; esp0 := 0; stacks := {| kstack_slots := λ _, 0; kstack_ready := 1; kstack_active_count := 0 |};
     sys := demo_vfs; clock := {| tick_count := ticks; hardware_tick_seen := 1; fallback_announced := 0 |};
     net := tt; ring := {| trace_ring := λ _, zero_record; trace_next_sequence := 0; trace_count := 0; trace_ready := 1 |} |}.

(** The child is interrupted at tick 10, the first process runs next. *)
Abbreviation busy := (demo_kernel (demo_tasks demo_init demo_child) 10).

Lemma demo_wf table ticks :
  table 0 = demo_idle → (∀ t, 0 ≤ t < MAX_TASKS → state (table t) = TASK_RUNNING → t = 2) → sched_wf (demo_kernel table ticks).
Proof.
  intros H0 Hr. split.
  - by intros t [= <-].
  - intros t Ht Hs. cbn. f_equal. symmetry. by apply Hr.
  - exists 0. cbn. rewrite H0. split_and!; [done..|by left].
Qed.

Ltac demo_slots t := assert (t = 0 ∨ t = 1 ∨ t = 2 ∨ 2 < t) as [->|[->|[->|?]]] by lia.

Lemma demo_tasks_high init child t : 2 < t → demo_tasks init child t = task_reset zero_task.
Proof. intros. unfold demo_tasks. by repeat (case_if; [zbool; lia|]). Qed.

Lemma busy_wf : sched_wf busy.
Proof.
  apply demo_wf; [done|]. intros t Ht. unfold MAX_TASKS in Ht. demo_slots t; try done. by rewrite demo_tasks_high.
Qed.

Lemma busy_schedule :
  (λ '(f, k), (f, current_task k)) <$> proc_schedule 1 (λ _, 0) 5000 busy = Some (8192, Some 1).
Proof. by vm_compute. Qed.

Lemma proc_schedule_switch_witness :
  ∃ k', proc_schedule 1 (λ _, 0) 5000 busy = Some (8192, k') ∧ current_task k' = Some 1 ∧ cr3 (vmem k') = 8192.
Proof.
  pose proof busy_schedule as H. destruct (proc_schedule 1 (λ _, 0) 5000 busy) as [[f k']|] eqn:E; [|done].
  injection H as -> Hc. exists k'. split_and!; [done|done|].
  destruct (proc_schedule_switch 1 (λ _, 0) 5000 busy 8192 k' busy_wf E) as (_&t&Ht&_&_&_&_&_&_&_&Hd&_).
  rewrite Hc in Ht. injection Ht as <-. by apply Hd.
Defined.

Lemma proc_schedule_returns_witness : ∃ f k', proc_schedule 1 (λ _, 0) 5000 busy = Some (f, k').
Proof.
  apply (proc_schedule_returns (λ o, length o.1)); [|cbn; lia].
  intros t Ht. unfold MAX_TASKS in Ht. cbn. demo_slots t; try done. by rewrite demo_tasks_high.
Defined.

(** The first process waits for a child. *)
Definition waiting_init : task := with_state TASK_BLOCKED (with_block_reason TASK_BLOCK_WAITPID (with_wait (-1) 0 demo_init)).
Abbreviation alone := (demo_kernel (demo_tasks waiting_init demo_child) 10).

Lemma alone_wf : sched_wf alone.
Proof.
  apply demo_wf; [done|]. intros t Ht. unfold MAX_TASKS in Ht. demo_slots t; try done. by rewrite demo_tasks_high.
Qed.

Lemma alone_schedule :
  (λ '(f, k), (f, current_task k)) <$> proc_schedule 1 (λ _, 0) 5000 alone = Some (5000, Some 2).
Proof. by vm_compute. Qed.

Lemma alone_can_run : can_run alone 2 ∧ ∀ i, idle_task alone = Some i → state (tasks alone i) ≠ TASK_ZOMBIE.
Proof. split; [|by intros i [= <-]]. split_and!; [done..|]. by right. Qed.

(** The only task that can run is chosen by every call. *)
Lemma proc_schedule_fair_witness :
  ∃ k', proc_schedule 1 (λ _, 0) 5000 alone = Some (5000, k') ∧ ∃ n, (n < 8)%nat ∧ current_task k' = Some 2.
Proof.
  pose proof alone_schedule as H. destruct (proc_schedule 1 (λ _, 0) 5000 alone) as [[f k']|] eqn:E; [|done].
  injection H as -> Hc. exists k'. split; [done|].
  apply (proc_schedule_fair 1 (λ _, 0) (λ _, 5000) (λ _, 5000) (λ _, alone) (λ _, k') 2).
  - intros n _. exact E.
  - intros n _. exact alone_can_run.
  - intros n _. symmetry. exact Hc.
Defined.

(** A sleep of 5 ticks that started three ticks before the counter wraps, when it ends and one tick before. *)
Definition sleeping_init : task := with_state TASK_SLEEPING (with_wake_tick 2 demo_init).
Lemma proc_sleep_wakes_witness :
  state (tasks (proc_wake_sleepers (demo_kernel (demo_tasks sleeping_init demo_child) 2)) 1) = TASK_RUNNABLE ∧
  state (tasks (proc_wake_sleepers (demo_kernel (demo_tasks sleeping_init demo_child) 1)) 1) = TASK_SLEEPING.
Proof.
  split.
  - rewrite (proj1 (proc_sleep_wakes (demo_kernel (demo_tasks sleeping_init demo_child) 2) 1 4294967293 5 5
      ltac:(done) ltac:(done) ltac:(done) ltac:(done) ltac:(lia)) ltac:(lia) ltac:(lia)). done.
  - rewrite (proj1 (proc_sleep_wakes (demo_kernel (demo_tasks sleeping_init demo_child) 1) 1 4294967293 5 4
      ltac:(done) ltac:(done) ltac:(done) ltac:(done) ltac:(lia)) ltac:(lia) ltac:(lia)). done.
Defined.

Lemma alone_exit :
  (λ '(f, k), (f, current_task k, interrupt_from_user (kframes k 8192))) <$> proc_sys_exit 1 (λ _, 0) 5000 7 alone
  = Some (8192, Some 1, true).
Proof. by vm_compute. Qed.

Lemma alone_waits : waits_for 1 2 alone.
Proof. unfold waits_for. split_and!; [by vm_compute|done|done|by left]. Qed.

Lemma proc_sys_exit_spec_witness :
  ∃ k', proc_sys_exit 1 (λ _, 0) 5000 7 alone = Some (8192, k') ∧ state (tasks k' 2) = TASK_ZOMBIE ∧ exit_status (tasks k' 2) = 7.
Proof.
  pose proof alone_exit as H. destruct (proc_sys_exit 1 (λ _, 0) 5000 7 alone) as [[f k']|] eqn:E; [|done].
  injection H as -> _ _. exists k'. split; [done|].
  destruct (proc_sys_exit_spec 1 (λ _, 0) 5000 7 alone 8192 k' 2 alone_wf eq_refl ltac:(discriminate) ltac:(discriminate) E)
    as (Hz&Hs&_). by split.
Defined.

Lemma alone_frames u :
  0 ≤ u < MAX_TASKS → u ≠ 1 → state (tasks alone u) = TASK_BLOCKED → saved_esp (tasks alone u) ≠ saved_esp (tasks alone 1).
Proof. intros Hu. unfold MAX_TASKS in Hu. cbn [tasks demo_kernel]. demo_slots u; try done. by rewrite (demo_tasks_high _ _ u). Qed.

Lemma proc_exit_wakes_parent_witness :
  ∃ k', proc_sys_exit 1 (λ _, 0) 5000 7 alone = Some (8192, k') ∧ current_task k' = Some 1 ∧
    fr_eax (kframes k' (saved_esp (tasks k' 1))) = 3.
Proof.
  pose proof alone_exit as H. destruct (proc_sys_exit 1 (λ _, 0) 5000 7 alone) as [[f k']|] eqn:E; [|done].
  injection H as -> Hc _. exists k'. split_and!; [done|done|].
  destruct (proc_exit_wakes_parent 1 (λ _, 0) 5000 7 alone 8192 k' 1 2 alone_wf eq_refl ltac:(discriminate) ltac:(discriminate)
    ltac:(discriminate) ltac:(discriminate) alone_waits ltac:(split; [discriminate|reflexivity]) alone_frames E) as (_&_&He&_).
  apply He. reflexivity.
Defined.

Lemma alone_no_zombie u : 0 ≤ u < MAX_TASKS → state (tasks alone u) ≠ TASK_ZOMBIE.
Proof.
  intros Hr. unfold MAX_TASKS in Hr. cbn [tasks demo_kernel]. demo_slots u; try done. by rewrite demo_tasks_high.
Qed.

Lemma waitpid_reports_twice_witness :
  ∃ k' k'', proc_sys_exit 1 (λ _, 0) 5000 7 alone = Some (8192, k') ∧
    proc_sys_waitpid 1 (λ _, 0) 8192 (-1) 0 k' = Some (8192, k'') ∧ fr_eax (kframes k'' 8192) = 3.
Proof.
  pose proof alone_exit as H. destruct (proc_sys_exit 1 (λ _, 0) 5000 7 alone) as [[f k']|] eqn:E; [|done].
  injection H as -> Hc Hu.
  destruct (waitpid_reports_twice 1 (λ _, 0) 5000 7 alone 8192 k' 1 2 8192 alone_wf eq_refl ltac:(discriminate)
    ltac:(discriminate) ltac:(discriminate) ltac:(discriminate) alone_waits ltac:(split; [discriminate|reflexivity]) eq_refl
    alone_frames alone_no_zombie eq_refl E Hc Hu) as (_&k''&Hw&He).
  exists k', k''. by split_and!.
Defined.

(** A task without a parent ends while its own child is a zombie, and the first process waits. *)
Definition demo_zombie : task := with_pid 5 (with_parent_pid 3 (with_state TASK_ZOMBIE (task_reset zero_task))).
Definition orphan_table : carray task := <[3 := demo_zombie]> (demo_tasks waiting_init (with_parent_pid 0 demo_child)).
Abbreviation orphaning := (demo_kernel orphan_table 10).

Lemma orphaning_exit : is_Some (proc_sys_exit 1 (λ _, 0) 5000 7 orphaning).
Proof.
  assert ((λ _, tt) <$> proc_sys_exit 1 (λ _, 0) 5000 7 orphaning = Some tt) as H by by vm_compute.
  by destruct (proc_sys_exit 1 (λ _, 0) 5000 7 orphaning).
Qed.

Lemma orphaning_wf : sched_wf orphaning.
Proof.
  apply demo_wf; [done|]. intros t Ht. unfold MAX_TASKS in Ht. unfold orphan_table. rewrite arr_get_set. case_decide; [by subst|].
  demo_slots t; try done. by rewrite demo_tasks_high.
Qed.

Lemma orphaning_parent p : task_find_by_pid (parent_pid (tasks orphaning 2)) orphaning ≠ Some p.
Proof. by vm_compute. Qed.

Lemma adopted_zombie_not_reported_witness :
  ∃ f k', proc_sys_exit 1 (λ _, 0) 5000 7 orphaning = Some (f, k') ∧
    state (tasks k' 1) = TASK_BLOCKED ∧ state (tasks k' 3) = TASK_ZOMBIE.
Proof.
  destruct orphaning_exit as [[f k'] E]. exists f, k'. split; [done|].
  destruct (adopted_zombie_not_reported 1 (λ _, 0) 5000 7 orphaning f k' 1 3 2 orphaning_wf eq_refl ltac:(discriminate)
    ltac:(discriminate) ltac:(discriminate) eq_refl ltac:(split; [discriminate|reflexivity]) ltac:(discriminate)
    ltac:(discriminate) eq_refl eq_refl eq_refl (orphaning_parent 1) ltac:(split; [discriminate|reflexivity]) ltac:(discriminate) eq_refl eq_refl eq_refl
    (orphaning_parent 3) E) as (Hi&_&Hz&_). by split.
Defined.
