(* ===== verification/ProcNet.v ===== *)
(** * Processes on the network

    The network stack of [Net] implements the interface [NetStack] of the process
    layer.  A task that waits for a ping is woken by the scheduler, with the
    result of the ping in the register its system call returns. *)

From stdpp Require Import strings.
From S2P Require Import Prelude Abi Mem Palloc Trace Net NetFrames NetPing Paging Usercopy Kheap Kstack Block Vnode Simplefs SimplefsData Vfs VfsFiles VfsHeap Exec Task Proc ProcSched ProcLive ProcDemo.

Local Open Scope Z_scope.
Local Open Scope c_scope.

(** The state of the stack and the card; the trace ring belongs to the kernel. *)
Definition net_system {D : Type} (n : net_state * D) (r : trace) : netsys D := {| ns := n.1; nic := n.2; log := r |}.

#[export] Instance net_stack {D : Type} `{!NetDevice D} : NetStack (net_state * D) := {|
  Proc.net_poll now n r := let n := Net.net_poll now (net_system n r) in ((ns n, nic n), log n);
  Proc.net_ping4_start now pid destination timeout n r :=
    let '(res, n) := Net.net_ping4_start now pid destination timeout (net_system n r) in (res, (ns n, nic n), log n);
  Proc.net_ping4_poll_result pid n :=
    let '(status, res, n) := Net.net_ping4_poll_result pid (net_system n blank_trace) in (status, res, (ns n, nic n));
|}.

Section ping.
Context {St Hp Io D : Type} `{!KernelHeap Hp} `{!ConsoleIO Io} `{!KernelMachine Hp} `{!NetDevice D}.
Implicit Types k : kernel St Hp Io (net_state * D).

Definition waits_for_ping k t : Prop := state (tasks k t) = TASK_BLOCKED ∧ block_reason (tasks k t) = TASK_BLOCK_NET_PING.

(** No other blocked task has the pid or the frame of [t]. *)
Definition alone k t : Prop :=
  ∀ u, 0 ≤ u < MAX_TASKS → u ≠ t → state (tasks k u) = TASK_BLOCKED →
    pid (tasks k u) ≠ pid (tasks k t) ∧ saved_esp (tasks k u) ≠ saved_esp (tasks k t).

(** A task that does not own the ping gets an answer that leaves the ping alone. *)
Lemma poll_result_other p (n : net_state * D) :
  owner_pid (ping n.1) ≠ p → Proc.net_ping4_poll_result p n = (-1, 0, n).
Proof.
  intros Hp0. destruct n as [s d]. cbn in *. unfold Net.net_ping4_poll_result. cbn.
  rewrite (proj2 (Z.eqb_neq _ _) Hp0), orb_true_r. done.
Qed.

(** Serving another task. *)
Lemma service_net_other u t k :
  0 ≤ u < MAX_TASKS → u ≠ t → alone k t → pid (tasks k t) = owner_pid (ping (net k).1) →
  let k' := service_net u k in
  net k' = net k ∧ (∀ v, v ≠ u → tasks k' v = tasks k v) ∧ kept (tasks k u) (tasks k' u)
  ∧ (state (tasks k' u) = TASK_BLOCKED → state (tasks k u) = TASK_BLOCKED)
  ∧ kframes k' (saved_esp (tasks k t)) = kframes k (saved_esp (tasks k t)).
Proof.
  intros Hu Hut Hal Hown. cbv zeta. unfold service_net, task_at. cbv zeta.
  case_bool_decide as Hb; cbn [negb orb]; [|by split_and!]. case_bool_decide as Hr; cbn [negb]; [|by split_and!].
  destruct (Hal u Hu Hut Hb) as [Hpid Hesp].
  rewrite poll_result_other by congruence. change (-1 =? 1) with false. change (-1 <? 0) with true. cbv iota.
  set (k1 := with_net _ _ k).
  destruct (complete_ping_serves u SYS_PING_ERR_INVALID k1 Hb) as [_ _ Ho _ Hk Hf].
  split_and!; [|exact Ho|exact Hk|intros _; exact Hb|by apply Hf].
  unfold proc_complete_blocked_ping. case_if; [done|]. unfold wake_blocked. by case_if.
Qed.

(** Serving the task that waits. *)
Lemma service_net_owner t k r n' :
  waits_for_ping k t → saved_esp (tasks k t) ≠ 0 → Proc.net_ping4_poll_result (pid (tasks k t)) (net k) = (1, r, n') →
  let k' := service_net t k in
  (∀ v, v ≠ t → tasks k' v = tasks k v) ∧ kept (tasks k t) (tasks k' t) ∧ state (tasks k' t) = TASK_RUNNABLE
  ∧ fr_eax (kframes k' (saved_esp (tasks k t))) = u32 r.
Proof.
  intros [Hb Hr] Hesp Hres. cbv zeta. unfold service_net, task_at. cbv zeta.
  rewrite bool_decide_true, bool_decide_true by done. cbn [negb orb]. rewrite Hres. change (1 =? 1) with true. cbv iota.
  set (k1 := with_net _ _ k). destruct (complete_ping_serves t r k1 Hb) as [_ _ Ho _ Hk _]. split; [exact Ho|]. split; [exact Hk|].
  unfold proc_complete_blocked_ping, task_at. change (tasks k1 t) with (tasks k t).
  rewrite (proj2 (Z.eqb_neq _ _) Hesp). cbv zeta. set (k2 := log_proc _ _ _ _ _). unfold wake_blocked, task_at.
  assert (tasks k2 t = with_block_reason TASK_BLOCK_NONE (tasks k t)) as E2 by exact (tasks_upd_eq t _ _).
  rewrite bool_decide_true by (by rewrite E2). split; [by rewrite tasks_upd_eq|].
  change (fr_eax ((<[saved_esp (tasks k t) := with_eax (u32 r) (kframes k (saved_esp (tasks k t)))]> (kframes k)) (saved_esp (tasks k t))) = u32 r).
  by rewrite arr_get_set_eq.
Qed.

(** The call of [t] has its result, and no blocked task shares its frame. *)
Definition settled t esp r k : Prop :=
  state (tasks k t) = TASK_RUNNABLE ∧ saved_esp (tasks k t) = esp ∧ fr_eax (kframes k esp) = u32 r
  ∧ ∀ u, 0 ≤ u < MAX_TASKS → state (tasks k u) = TASK_BLOCKED → saved_esp (tasks k u) ≠ esp.

Lemma settled_phase t esp r k k' : settled t esp r k → phase k k' → settled t esp r k'.
Proof.
  intros (Hs&He&Hf&Hal) [_ _ Hm Hfr _].
  assert (tasks k' t = tasks k t) as Et by (destruct (Hm t) as [|y ?|y ?|y ?]; congruence).
  unfold settled. rewrite Et, Hfr by done. split_and!; [done..|]. intros u Hu Hb.
  destruct (Hm u) as [|y ? Hy|y Hx _ Hk _|y ? Hy]; [by apply Hal|congruence| |congruence].
  rewrite (kp_esp _ _ Hk). by apply Hal.
Qed.

(** The round that asks the network wakes the task whose ping has ended. *)
Lemma service_blocked_net_wakes t k r n' :
  0 ≤ t < MAX_TASKS → waits_for_ping k t → saved_esp (tasks k t) ≠ 0 → alone k t →
  pid (tasks k t) = owner_pid (ping (net k).1) → Proc.net_ping4_poll_result (pid (tasks k t)) (net k) = (1, r, n') →
  settled t (saved_esp (tasks k t)) r (proc_service_blocked_net k).
Proof.
  intros Ht Hw Hesp Hal Hown Hres. unfold proc_service_blocked_net.
  set (P i k' := if decide (t < i) then settled t (saved_esp (tasks k t)) r k'
                 else tasks k' t = tasks k t ∧ net k' = net k ∧ alone k' t).
  cut (P MAX_TASKS (for_range 0 MAX_TASKS service_net k)); [unfold P; by rewrite decide_True by lia|].
  apply for_range_ind; [done|unfold P; by rewrite decide_False by lia|]. unfold P.
  intros u k' Hu IH. destruct (decide (t < u)) as [Hlt|Hge].
  { rewrite decide_True by lia. eapply settled_phase; [done|by apply service_net_phase]. }
  destruct IH as (Et&En&Hal'). destruct (decide (u = t)) as [->|Hut].
  - rewrite decide_True by lia. rewrite <- En, <- Et in Hres. rewrite <- Et in Hesp.
    assert (waits_for_ping k' t) as Hw' by (unfold waits_for_ping; by rewrite Et).
    destruct (service_net_owner t k' r n' Hw' Hesp Hres) as (Ho&Hk&Hs&Hf). rewrite <- Et.
    split_and!; [done|apply Hk|done|]. intros u Hu' Hb. destruct (decide (u = t)) as [->|Hne]; [congruence|].
    rewrite Ho in * by done. by apply Hal'.
  - rewrite decide_False by lia.
    destruct (service_net_other u t k' Hu Hut Hal') as (En'&Ho&Hk&Hb&_); [by rewrite Et, En|].
    split_and!; [by rewrite Ho|by rewrite En'|]. intros v Hv Hvt Hvb. rewrite (Ho t) by done.
    destruct (decide (v = u)) as [->|Hvu]; [|rewrite Ho in * by done; by apply Hal'].
    rewrite (kp_pid _ _ Hk), (kp_esp _ _ Hk). apply Hal'; auto.
Qed.

(** The clock after [pit_ensure_progress]. *)
Definition poll_tick k : Z := pit_ticks (pit_ensure_progress (clock k)).

Lemma with_sys_parts x k :
  tasks (with_sys x k) = tasks k ∧ net (with_sys x k) = net k ∧ clock (with_sys x k) = clock k.
Proof. done. Qed.

Lemma wake_sleepers_rest k : net (proc_wake_sleepers k) = net k ∧ clock (proc_wake_sleepers k) = clock k.
Proof.
  unfold proc_wake_sleepers.
  apply (for_range_inv (λ k1 : kernel St Hp Io (net_state * D), net k1 = net k ∧ clock k1 = clock k)); [done|].
  intros u k0 _ [<- <-]. unfold wake_sleeper. by repeat case_if.
Qed.

Lemma wake_sleepers_blocked k u :
  0 ≤ u < MAX_TASKS → state (tasks k u) = TASK_BLOCKED ∨ state (tasks (proc_wake_sleepers k) u) = TASK_BLOCKED →
  tasks (proc_wake_sleepers k) u = tasks k u.
Proof.
  intros Hu Hb. rewrite wake_sleepers_effect in * by done. case_decide as Hd; [|done]. destruct Hd, Hb as [Hb|Hb]; [congruence|].
  cbn in Hb. done.
Qed.

(** What reaches the network. *)
Lemma poll_devices_split k :
  ∃ k3, poll_devices k = (let '(n, r) := Proc.net_poll (poll_tick k) (net k) (ring k3) in proc_service_blocked_net (with_net n r k3))
    ∧ net k3 = net k
    ∧ ∀ u, 0 ≤ u < MAX_TASKS → state (tasks k u) = TASK_BLOCKED ∨ state (tasks k3 u) = TASK_BLOCKED → tasks k3 u = tasks k u.
Proof.
  unfold poll_devices. cbv zeta. set (k1 := with_clock _ k).
  assert (tasks k1 = tasks k ∧ net k1 = net k ∧ clock k1 = pit_ensure_progress (clock k)) as (T1&N1&C1) by done. clearbody k1.
  pose proof (wake_sleepers_rest k1) as [N2 C2]. pose proof (wake_sleepers_blocked k1) as T2.
  set (k2 := proc_wake_sleepers k1) in *. clearbody k2. set (k3 := with_sys _ k2).
  assert (tasks k3 = tasks k2 ∧ net k3 = net k2 ∧ clock k3 = clock k2) as (T3&N3&C3) by done. clearbody k3.
  exists k3. split_and!; [|congruence|].
  - unfold poll_tick. rewrite C3, C2, C1, N3, N2, N1. done.
  - intros u Hu Hb. rewrite T3, <- T1 in *. by apply T2.
Qed.

(** What a poll at tick [now] makes of the ping in [n], whatever the trace holds: it is finished, for
    its owner, with a result in [R]. *)
Definition poll_finishes (now : Z) (n : net_state * D) (R : Z → Prop) : Prop :=
  ∀ r, let p := ping (ns (Net.net_poll now (net_system n r))) in
    active p ≠ 0 ∧ owner_pid p = owner_pid (ping n.1) ∧ completed p ≠ 0 ∧ R (result p).

Lemma expired_finishes `{!NetDeviceLaws D} now (n : net_state * D) :
  net_ok n.1 → Net.ready n.1 ≠ 0 → active (ping n.1) ≠ 0 → expired now (ping n.1) →
  poll_finishes now n (λ r, r = SYS_PING_OK ∨ r = SYS_PING_ERR_TIMEOUT).
Proof.
  intros Hok Hr Ha Hexp r. cbv zeta.
  destruct (net_poll_expired now (net_system n r) Hr Ha Hexp) as [(Ha'&Hown'&_) Hc'].
  pose proof (net_poll_ok now (net_system n r) Hok) as Hok'. set (n' := Net.net_poll _ _) in *. clearbody n'. cbn in Ha', Hown'.
  destruct (no_ping_ok _ Hok') as [Hp0|Hp0]; [rewrite Hp0 in Ha'; cbn in Ha'; congruence|].
  destruct (po_result _ Hp0) as [[? _]|[_ Hres]]; [done|]. split_and!; [congruence|done..].
Qed.

Lemma reply_finishes `{!NetDeviceLaws D} now (n : net_state * D) :
  Net.ready n.1 ≠ 0 → active (ping n.1) ≠ 0 → (∀ r, reply_arrives 8 now (λ _, 0) (net_system n r)) →
  poll_finishes now n (λ r, r = SYS_PING_OK).
Proof.
  intros Hr Ha Hrep r. cbv zeta.
  destruct (net_poll_reply now (net_system n r) Hr (Hrep r)) as ((Ha'&Hown'&_)&Hc'&Hres).
  split_and!; [by rewrite Ha'|done|by rewrite Hc'|done].
Qed.

Lemma poll_devices_wakes t k R :
  0 ≤ t < MAX_TASKS → waits_for_ping k t → saved_esp (tasks k t) ≠ 0 → alone k t →
  pid (tasks k t) = owner_pid (ping (net k).1) → poll_finishes (poll_tick k) (net k) R →
  ∃ r, R r ∧ settled t (saved_esp (tasks k t)) r (poll_devices k).
Proof.
  intros Ht Hw Hesp Hal Hown Hfin. destruct (poll_devices_split k) as (k3&->&En&Eb).
  assert (tasks k3 t = tasks k t) as Et by (apply Eb; [done|left; apply Hw]).
  unfold Proc.net_poll. cbn [net_stack]. cbv zeta.
  destruct (Hfin (ring k3)) as (Ha'&Hown'&Hc'&Hres).
  set (n' := Net.net_poll _ _) in *. clearbody n'. exists (result (ping (ns n'))). split; [done|].
  rewrite <- Et. set (k4 := with_net _ _ k3). assert (tasks k4 = tasks k3 ∧ net k4 = (ns n', nic n')) as [E4 N4] by done. clearbody k4.
  rewrite <- E4. apply (service_blocked_net_wakes t k4 _ (ns (upd_ping (λ _, no_ping) n'), nic n'));
    [done|unfold waits_for_ping; by rewrite E4, Et|by rewrite E4, Et| | |].
  - intros u Hu Hut Hb. rewrite E4 in *. rewrite Et. assert (tasks k3 u = tasks k u) as Eu by (apply Eb; auto). rewrite Eu in *. by apply Hal.
  - rewrite E4, Et, Hown, N4. cbn. congruence.
  - rewrite E4, Et, Hown, <- Hown', N4. cbn. unfold Net.net_ping4_poll_result. cbn.
    rewrite (proj2 (Z.eqb_neq _ _) Ha'), Z.eqb_refl, (proj2 (Z.eqb_neq _ _) Hc'). done.
Qed.

(** The task can run, or runs, and the register its call returns holds [r]. *)
Definition ping_returned k t (esp r : Z) : Prop :=
  (state (tasks k t) = TASK_RUNNABLE ∨ state (tasks k t) = TASK_RUNNING) ∧ fr_eax (kframes k esp) = u32 r.

Lemma schedule_wakes fuel stack frame t k f k' R :
  0 ≤ t < MAX_TASKS → current_task k ≠ Some t →
  waits_for_ping k t → saved_esp (tasks k t) ≠ 0 → alone (save_current frame k) t →
  pid (tasks k t) = owner_pid (ping (net k).1) → poll_finishes (poll_tick k) (net k) R →
  proc_schedule fuel stack frame k = Some (f, k') → ∃ r, R r ∧ ping_returned k' t (saved_esp (tasks k t)) r.
Proof.
  intros Ht Hcur Hw Hesp Hal Hown Hfin. rewrite schedule_eq.
  assert (tasks (save_current frame k) t = tasks k t) as Et by (rewrite save_current_tasks; by rewrite decide_False).
  assert (net (save_current frame k) = net k ∧ clock (save_current frame k) = clock k) as [En Ec].
  { unfold save_current. by destruct (current_task k). }
  destruct (poll_devices_wakes t (save_current frame k) R) as (r&Hres&Hset);
    [done|unfold waits_for_ping; by rewrite Et|by rewrite Et|done|by rewrite Et, En|unfold poll_tick in *; by rewrite En, Ec|].
  rewrite Et in Hset. destruct (proc_service_blocked_io fuel stack _) as [k2|] eqn:E2; [|done]. cbn [mbind option_bind].
  apply service_all_phase in E2. pose proof (settled_phase _ _ _ _ _ (settled_phase _ _ _ _ _ Hset E2) (collect_phase k2)) as Hset'.
  intros H%(inj Some). exists r. split; [done|]. apply switch_cases in H. destruct Hset' as (Hs&_&Hf&_).
  destruct (proc_pick_next _) as [c|]; destruct H as [-> ->]; [|by split; [left|]].
  pose proof (activate_effect c (proc_collect_reapable_zombies k2)) as (_&_&F&_&_&O&T).
  split; [|by rewrite F]. destruct (decide (t = c)) as [->|Hne]; [right; by rewrite T|left; by rewrite O].
Qed.

(** C17: A process that waits for a ping gets its answer.  The next call of the scheduler returns.
    When the echo reply is among the (at most eight) frames that its poll of the network takes from
    the card, the task is runnable again, or running, and the register its call returns
    holds [SYS_PING_OK]; and a call of the scheduler at or after the deadline of the ping wakes
    the task in any case, with [SYS_PING_OK] or the error code of a timeout.  The ping belongs to the
    task, no other blocked task has its pid or frame, and finitely many characters wait at the
    console. *)
Theorem proc_ping_answered `{!NetDeviceLaws D} (waiting : Io → nat) `{!ConsoleLaws waiting} fuel stack frame t k :
  0 ≤ t < MAX_TASKS → current_task k ≠ Some t →
  waits_for_ping k t → saved_esp (tasks k t) ≠ 0 → alone (save_current frame k) t →
  net_ok (net k).1 → Net.ready (net k).1 ≠ 0 → active (ping (net k).1) ≠ 0 →
  pid (tasks k t) = owner_pid (ping (net k).1) →
  (∀ u, 0 ≤ u < MAX_TASKS → transfer_wf (tasks k u)) → (waiting (input_poll (io (sys k))) < fuel)%nat →
  ∃ f k', proc_schedule fuel stack frame k = Some (f, k') ∧
    ((∀ r, reply_arrives 8 (poll_tick k) (λ _, 0) (net_system (net k) r)) →
       ping_returned k' t (saved_esp (tasks k t)) SYS_PING_OK) ∧
    (expired (poll_tick k) (ping (net k).1) →
       ∃ r, (r = SYS_PING_OK ∨ r = SYS_PING_ERR_TIMEOUT) ∧ ping_returned k' t (saved_esp (tasks k t)) r).
Proof.
  intros Ht Hcur Hw Hesp Hal Hok Hr Ha Hown Hx Hf.
  destruct (schedule_returns waiting fuel stack frame k Hx Hf) as (f&k'&E). exists f, k'. split; [done|]. split.
  - intros Hrep. destruct (schedule_wakes fuel stack frame t k f k' (λ r, r = SYS_PING_OK)) as (r&->&H); try done.
    by apply reply_finishes.
  - intros Hexp. apply (schedule_wakes fuel stack frame t k f k' _ Ht Hcur Hw Hesp Hal Hown); [|done].
    by apply expired_finishes.
Qed.
End ping.

(** ** A process that waits *)

(** The gateway's answer to the ping with identifier 1, and a card that holds it until it is read. *)
Definition gateway_reply : list Z :=
  let gateway := ns (wire_host [82; 85; 10; 0; 2; 2] NET_QEMU_GATEWAY) in
  slice (icmp_frame gateway NET_ICMP_ECHO_REPLY NET_QEMU_IPV4 test_mac 1 1 (Some (echo_payload, 0)) 8) 0 50.

Record answering := { reply_queued : bool }.

#[export] Instance answering_card : NetDevice answering := {|
  e1000_init d := (0, d);
  e1000_get_mac _ := Some test_mac;
  e1000_transmit frame d := (Z.of_nat (length frame), d);
  e1000_receive f _ d := if reply_queued d then (50, fill_buffer f gateway_reply, {| reply_queued := false |}) else (0, f, d);
|}.

Lemma gateway_reply_bytes : Forall is_u8 gateway_reply.
Proof. vm_compute. by repeat constructor. Qed.

#[export] Instance answering_card_laws : NetDeviceLaws answering.
Proof.
  split.
  - intros d m [= <-]. split; [done|]. by repeat constructor.
  - intros f capacity [[]] r f' d' [= <- <- <-] Hf; [|done]. apply fill_buffer_bytes; [apply gateway_reply_bytes|done].
Qed.

(** The first process has pinged the gateway, whose hardware address is known, at tick 7 with a timeout of 5 ticks. *)
Definition pinging_init : task := with_state TASK_BLOCKED (with_block_reason TASK_BLOCK_NET_PING demo_init).
Definition knowing_net : netsys answering :=
  upd (arp_cache_store NET_QEMU_GATEWAY [82; 85; 10; 0; 2; 2])
    (net_init 0 {| ns := zero_net; nic := {| reply_queued := true |}; log := blank_trace |}).2.
Definition pinging_net : net_state * answering :=
  let n := (Net.net_ping4_start 7 2 NET_QEMU_GATEWAY 5 knowing_net).2 in (ns n, nic n).

Definition pinging : kernel (carray Z) kheap (list Z * list Z) (net_state * answering) :=
  let k := demo_kernel (demo_tasks pinging_init demo_child) 9 in
  {| tasks := tasks k; current_task := current_task k; idle_task := idle_task k; init_task := init_task k;
     next_pid := next_pid k; last_logged_tick := last_logged_tick k; kframes := kframes k; kmem := kmem k;
     esp0 := esp0 k; stacks := stacks k; sys := sys k; clock := clock k; net := pinging_net; ring := ring k |}.

Lemma pinging_alone : alone (save_current 5000 pinging) 1.
Proof.
  intros u Hu Hne. rewrite !save_current_tasks. unfold MAX_TASKS in Hu. demo_slots u; [done|done|done|].
  cbn. rewrite decide_False by (intros [= ?]; lia). by rewrite demo_tasks_high.
Qed.

Lemma pinging_net_ok : net_ok pinging_net.1.
Proof.
  unfold pinging_net. cbv zeta. apply net_ping4_start_ok; [done|].
  destruct (net_init_ok 0 {| ns := zero_net; nic := {| reply_queued := true |}; log := blank_trace |}) as [[]].
  split; try done; [by right|]. split; [done|]. by repeat constructor.
Qed.

Lemma pinging_facts :
  current_task pinging ≠ Some 1 ∧ waits_for_ping pinging 1 ∧ saved_esp (tasks pinging 1) = 8192 ∧ Net.ready (net pinging).1 ≠ 0
  ∧ active (ping (net pinging).1) ≠ 0 ∧ pid (tasks pinging 1) = owner_pid (ping (net pinging).1).
Proof. split_and!; vm_compute; done. Qed.

Lemma pinging_transfers u : 0 ≤ u < MAX_TASKS → transfer_wf (tasks pinging u).
Proof. intros Hu. unfold MAX_TASKS in Hu. cbn. demo_slots u; try done. by rewrite demo_tasks_high. Qed.

Lemma pinging_reply r : reply_arrives 8 (poll_tick pinging) (λ _, 0) (net_system (net pinging) r).
Proof.
  left. split_and!; [split; vm_compute; done|vm_compute; done|].
  unfold echo_reply_for. vm_compute. intuition congruence.
Qed.

Lemma proc_ping_answered_witness :
  ∃ f k', proc_schedule 1 (λ _, 0) 5000 pinging = Some (f, k') ∧ fr_eax (kframes k' 8192) = u32 SYS_PING_OK.
Proof.
  destruct pinging_facts as (Hc&Hw&He&Hr&Ha&Ho).
  assert (saved_esp (tasks pinging 1) ≠ 0) as He0 by (rewrite He; lia). assert (0 ≤ 1 < MAX_TASKS) as Ht by (unfold MAX_TASKS; lia).
  assert ((length (input_poll (io (sys pinging))).1 < 1)%nat) as Hin by (cbn; lia).
  destruct (proc_ping_answered (λ o, length o.1) 1 (λ _, 0) 5000 1 pinging Ht Hc Hw He0 pinging_alone pinging_net_ok Hr Ha Ho
    pinging_transfers Hin) as (f&k'&E&Hrep&_).
  destruct (Hrep pinging_reply) as [_ Hf]. exists f, k'. rewrite He in Hf. split; [exact E|exact Hf].
Defined.
