(* ===== verification/Syscall.v ===== *)
(** * System calls ([src/kernel/syscall.c])

    The dispatcher of the trap [int 0x80]: the number and the arguments are registers of the
    frame, the result is its [eax].  The state is that of the process layer with the static variables of the
    storage layer, which a reinstallation of the root file system changes.  The structures that calls
    return are written out byte by byte; what a local variable holds before it is set is [stack]. *)

From stdpp Require Import strings.
From S2P Require Import Prelude Abi Mem Palloc Trace Net Paging Usercopy Block Kstack Vnode Simplefs Bootinfo Vfs VfsBoot Exec Task Proc.

Local Open Scope Z_scope.
Local Open Scope c_scope.

(** [net_get_info] of [net.c], as this file uses it. *)
Class NetInfo (N : Type) := { net_info : option (carray Z) → N → Z * option (carray Z) }.

#[export] Instance net_state_info {D : Type} : NetInfo (net_state * D) :=
  {| net_info info n := Net.net_get_info info {| ns := n.1; nic := n.2; log := blank_trace |} |}.

(** ** Structures in memory *)

Fixpoint store_words (m : carray Z) (offset : Z) (words : list Z) : carray Z :=
  match words with
  | [] => m
  | w :: words => store_words (store32 m offset w) (offset + 4) words
  end.

Fixpoint store_chars (m : carray Z) (offset : Z) (chars : list Z) : carray Z :=
  match chars with
  | [] => m
  | c :: chars => store_chars (<[offset := c]> m) (offset + 1) chars
  end.

(** A string with its end; what is behind it stays. *)
Definition store_string (m : carray Z) (offset : Z) (s : list Z) : carray Z := store_chars m offset (s ++ [0]).

(** The values of the enumerations. *)
Definition inode_kind_code (x : vfs_inode_kind) : Z :=
  match x with VFS_INODE_NONE => 0 | VFS_INODE_DEV => 1 | VFS_INODE_REG => 2 | VFS_INODE_DIR => 3 | VFS_INODE_PIPE => 4 end.
Definition task_state_code (x : task_state) : Z :=
  match x with
  | TASK_UNUSED => 0 | TASK_RUNNABLE => 1 | TASK_RUNNING => 2 | TASK_BLOCKED => 3 | TASK_SLEEPING => 4 | TASK_ZOMBIE => 5
  end.
Definition task_kind_code (x : task_kind) : Z := match x with TASK_KERNEL => 0 | TASK_USER => 1 end.
Definition root_policy_code (x : boot_root_policy) : Z :=
  match x with BOOT_ROOT_AUTO => 0 | BOOT_ROOT_DISK => 1 | BOOT_ROOT_RAMDISK => 2 end.

Definition sizeof_sys_stat : Z := 28.
Definition sizeof_sys_dirent : Z := 56.
Definition sizeof_sys_procinfo : Z := 100.
Definition sizeof_sys_bootinfo : Z := 8.
Definition sizeof_sys_trace_info : Z := 12.
Definition sizeof_sys_trace_record : Z := 28.

Section syscall.
Context {St Hp Io Net : Type} `{!KernelHeap Hp} `{!ConsoleIO Io} `{!KernelMachine Hp} `{!NetStack Net} `{!NetInfo Net} `{!DiskDrivers St}.
(** The fuel of reads of the console and of the copying of the root file system, what the stack
    holds, and the options of the boot loader. *)
Context (fuel copy_fuel : nat) (stack : carray Z) (boot : bootinfo).

(** The kernel with the static variables of [storage.c]. *)
Record machine := {
  krn : kernel St Hp Io Net;
  disk : option (block_device St);
  partition_name : option (list Z);
  storage_ready : Z;
}.

Definition with_krn (k : kernel St Hp Io Net) (m : machine) : machine :=
  {| krn := k; disk := disk m; partition_name := partition_name m; storage_ready := storage_ready m |}.

Implicit Types (k : kernel St Hp Io Net) (m : machine) (frame : Z).

(** ** Handlers *)

(** The path at an address of the caller. *)
Definition copy_path_from_frame frame (path_address path_length : Z) k : option (list Z) :=
  if (path_length =? 0) || (path_address =? 0) then None
  else if interrupt_from_user (frame_at frame k) then
    let '(r, path) := user_copy_string_from (Some stack) path_address path_length (vmem k) in
    if truthy r then None else Some (buffer_string path_length path)
  else
    let path := copy_bytes stack 0 (kmem k) path_address path_length in
    Some (buffer_string path_length (Some (<[path_length - 1 := 0]> path))).

(** The end of the handlers: the structure goes to the caller. *)
Definition copy_struct frame (address : Z) (bytes : carray Z) (size result : Z) k : Z * kernel St Hp Io Net :=
  let '(r, k) := copy_out stack (interrupt_from_user (frame_at frame k)) address (Some bytes) size k in
  (if truthy r then -1 else result, k).

Definition stat_bytes (st : vfs_stat) : carray Z :=
  store_words stack 0 [inode_kind_code (st_kind st); st_size st; st_child_count st; st_mode st; st_uid st; st_gid st; st_links st].

Definition sys_stat_handler frame (path_address stat_address : Z) k : Z * kernel St Hp Io Net :=
  if stat_address =? 0 then (-1, k)
  else match copy_path_from_frame frame path_address VFS_PATH_MAX k with
  | None => (-1, k)
  | Some path =>
      match proc_stat (Some path) (Some no_stat) k with
      | (0, Some st) => copy_struct frame stat_address (stat_bytes st) sizeof_sys_stat 0 k
      | _ => (-1, k)
      end
  end.

Definition dirent_bytes (e : vfs_dirent_info) : carray Z :=
  store_string (store_words stack 0 [inode_kind_code (de_kind e); de_size e; de_mode e; de_uid e; de_gid e; de_links e])
    24 (string_copy (de_name e) SYS_NAME_MAX).

Definition no_dirent : vfs_dirent_info :=
  {| de_kind := VFS_INODE_NONE; de_size := 0; de_mode := 0; de_uid := 0; de_gid := 0; de_links := 0; de_name := [] |}.

Definition sys_readdir_handler frame (path_address index entry_address : Z) k : Z * kernel St Hp Io Net :=
  if entry_address =? 0 then (-1, k)
  else match copy_path_from_frame frame path_address VFS_PATH_MAX k with
  | None => (-1, k)
  | Some path =>
      let '(result, entry) := proc_readdir (Some path) index (Some no_dirent) k in
      if truthy result then (result, k)
      else copy_struct frame entry_address (dirent_bytes (default no_dirent entry)) sizeof_sys_dirent 0 k
  end.

Definition procinfo_bytes (i : sys_procinfo) : carray Z :=
  store_string (store_string (store_words stack 0 [pi_pid i; pi_parent_pid i; pi_sid i; pi_pgid i; task_state_code (pi_state i);
    task_kind_code (pi_kind i); pi_run_ticks i; pi_uid i; pi_gid i]) 36 (pi_name i)) 68 (pi_tty i).

Definition sys_procinfo_handler frame (index info_address : Z) k : Z * kernel St Hp Io Net :=
  if info_address =? 0 then (-1, k)
  else match proc_procinfo index k with
  | (0, Some i) => copy_struct frame info_address (procinfo_bytes i) sizeof_sys_procinfo 0 k
  | (result, _) => (result, k)
  end.

Definition sys_bootinfo_handler frame (info_address : Z) k : Z * kernel St Hp Io Net :=
  if info_address =? 0 then (-1, k)
  else copy_struct frame info_address
         (store_words stack 0 [root_policy_code (bootinfo_root_policy boot); bootinfo_flags boot]) sizeof_sys_bootinfo 0 k.

Definition sys_netinfo_handler frame (info_address : Z) k : Z * kernel St Hp Io Net :=
  if info_address =? 0 then (-1, k)
  else match net_info (Some stack) (net k) with
  | (r, info) => if truthy r then (-1, k) else copy_struct frame info_address (default stack info) sizeof_sys_netinfo 0 k
  end.

Definition sys_traceinfo_handler frame (info_address : Z) k : Z * kernel St Hp Io Net :=
  if info_address =? 0 then (-1, k)
  else match trace_get_info (Some {| capacity := 0; count := 0; next_sequence := 0 |}) (ring k) with
  | (0, Some i) => copy_struct frame info_address (store_words stack 0 [capacity i; count i; next_sequence i]) sizeof_sys_trace_info 0 k
  | _ => (-1, k)
  end.

Definition record_bytes (r : sys_trace_record) : carray Z :=
  store_words stack 0 [sequence r; ticks r; category r; event r; arg0 r; arg1 r; arg2 r].

Definition sys_traceread_handler frame (seq record_address : Z) k : Z * kernel St Hp Io Net :=
  if record_address =? 0 then (-1, k)
  else
    let '(result, record) := trace_read seq (Some zero_record) (ring k) in
    if truthy result then (result, k)
    else copy_struct frame record_address (record_bytes (default zero_record record)) sizeof_sys_trace_record 0 k.

(** A string and its length, where it fits. *)
Definition string_handler frame (buffer_address buffer_length : Z) (s : option (list Z)) k : Z * kernel St Hp Io Net :=
  if (buffer_address =? 0) || (buffer_length =? 0) then (-1, k)
  else match s with
  | None => (-1, k)
  | Some s =>
      let result := Z.of_nat (length s) in
      if buffer_length <? u32 result ⊞ 1 then (-1, k)
      else copy_struct frame buffer_address (store_string stack 0 s) (u32 result ⊞ 1) result k
  end.

Definition sys_getcwd_handler frame (buffer_address buffer_length : Z) k : Z * kernel St Hp Io Net :=
  string_handler frame buffer_address buffer_length (proc_getcwd VFS_PATH_MAX k) k.
Definition sys_gettty_handler frame (buffer_address buffer_length : Z) k : Z * kernel St Hp Io Net :=
  string_handler frame buffer_address buffer_length (proc_gettty SYS_NAME_MAX k) k.

(** ** The dispatcher *)

(** A call whose result is left in the frame. *)
Definition finish frame (r : Z * kernel St Hp Io Net) : option (Z * kernel St Hp Io Net) :=
  let '(x, k) := r in return_to frame (u32 x) k.

(** A call with a path. *)
Definition with_path frame (call : list Z → kernel St Hp Io Net → option (Z * kernel St Hp Io Net)) k
    : option (Z * kernel St Hp Io Net) :=
  match copy_path_from_frame frame (fr_ebx (frame_at frame k)) VFS_PATH_MAX k with
  | None => return_to frame ERR k
  | Some path => '(r, k) ← call path k; return_to frame (u32 r) k
  end.

(** All calls but the reinstallation. *)
Definition kernel_call frame k : option (Z * kernel St Hp Io Net) :=
  let f := frame_at frame k in
  let ebx := fr_ebx f in let ecx := fr_ecx f in let edx := fr_edx f in
  let number := fr_eax f in
  if number =? SYS_WRITE then proc_sys_write fuel stack frame ebx ecx edx k
  else if number =? SYS_GETPID then return_to frame (proc_current_pid k) k
  else if number =? SYS_YIELD then proc_schedule fuel stack frame (set_eax frame 0 k)
  else if number =? SYS_EXIT then proc_sys_exit fuel stack frame (i32 ebx) k
  else if number =? SYS_WAITPID then proc_sys_waitpid fuel stack frame (i32 ebx) ecx k
  else if number =? SYS_EXEC then proc_sys_exec fuel stack frame ebx k
  else if number =? SYS_EXECV then proc_sys_execv fuel stack frame ebx ecx k
  else if number =? SYS_FORK then proc_sys_fork frame k
  else if number =? SYS_OPEN then with_path frame (λ path, proc_open_fd stack (Some path) ecx) k
  else if number =? SYS_CLOSE then finish frame (proc_close_fd ebx k)
  else if number =? SYS_READ then proc_sys_read fuel stack frame ebx ecx edx k
  else if number =? SYS_LSEEK then finish frame (proc_seek_fd ebx (i32 ecx) edx k)
  else if number =? SYS_MKDIR then with_path frame (λ path, proc_mkdir stack (Some path)) k
  else if number =? SYS_UNLINK then with_path frame (λ path, proc_unlink stack (Some path)) k
  else if number =? SYS_STAT then finish frame (sys_stat_handler frame ebx ecx k)
  else if number =? SYS_CHDIR then with_path frame (λ path k, Some (proc_chdir (Some path) k)) k
  else if number =? SYS_DUP then finish frame (proc_dup ebx k)
  else if number =? SYS_DUP2 then finish frame (proc_dup2 ebx ecx k)
  else if number =? SYS_SLEEP then proc_sys_sleep fuel stack frame ebx k
  else if number =? SYS_TICKS then return_to frame (proc_current_ticks k) k
  else if number =? SYS_READDIR then finish frame (sys_readdir_handler frame ebx ecx edx k)
  else if number =? SYS_PROCINFO then finish frame (sys_procinfo_handler frame ebx ecx k)
  else if number =? SYS_BOOTINFO then finish frame (sys_bootinfo_handler frame ebx k)
  else if number =? SYS_GETCWD then finish frame (sys_getcwd_handler frame ebx ecx k)
  else if number =? SYS_GETUID then return_to frame (proc_getuid k) k
  else if number =? SYS_GETGID then return_to frame (proc_getgid k) k
  else if number =? SYS_SETUID then finish frame (proc_setuid ebx k)
  else if number =? SYS_SETGID then finish frame (proc_setgid ebx k)
  else if number =? SYS_SETSID then finish frame (proc_setsid k)
  else if number =? SYS_GETTTY then finish frame (sys_gettty_handler frame ebx ecx k)
  else if number =? SYS_PIPE then proc_sys_pipe stack frame ebx k
  else if number =? SYS_NETINFO then finish frame (sys_netinfo_handler frame ebx k)
  else if number =? SYS_PING4 then proc_sys_ping4 fuel stack frame ebx ecx k
  else if number =? SYS_TRACEINFO then finish frame (sys_traceinfo_handler frame ebx k)
  else if number =? SYS_TRACEREAD then finish frame (sys_traceread_handler frame ebx ecx k)
  else return_to frame ERR k.

Definition storage_of m : boot_state :=
  {| files := sys (krn m); boot_disk := disk m; boot_partition_name := partition_name m;
     storage_initialized := storage_ready m; traces := ring (krn m) |}.
Definition with_storage_state (b : boot_state) m : machine :=
  {| krn := with_ring (traces b) (with_sys (files b) (krn m)); disk := boot_disk b;
     partition_name := boot_partition_name b; storage_ready := storage_initialized b |}.

(** The result is the frame to return to. *)
Definition syscall_dispatch frame m : option (Z * machine) :=
  if fr_eax (frame_at frame (krn m)) =? SYS_REINSTALL_ROOTFS then
    '(r, b) ← vfs_reinstall_rootfs (pit_ticks (clock (krn m))) stack copy_fuel boot (storage_of m);
    let m := with_storage_state b m in
    Some (frame, with_krn (set_eax frame (u32 r) (krn m)) m)
  else
    '(f, k) ← kernel_call frame (krn m);
    Some (f, with_krn k m).
End syscall.

Arguments machine : clear implicits.

(** ** What structures reveal *)

Lemma store_chars_outside m offset chars j :
  j < offset ∨ offset + Z.of_nat (length chars) ≤ j → store_chars m offset chars j = m j.
Proof.
  revert m offset. induction chars as [|c chars IH]; intros m offset Hj; cbn [store_chars]; [done|]. simpl length in Hj.
  rewrite IH by lia. by rewrite arr_get_set_ne by lia.
Qed.

Lemma store_words_outside m offset words j :
  j < offset ∨ offset + 4 * Z.of_nat (length words) ≤ j → store_words m offset words j = m j.
Proof.
  revert m offset. induction words as [|w words IH]; intros m offset Hj; cbn [store_words]; [done|]. simpl length in Hj.
  rewrite IH by lia. unfold store32, store_le. by rewrite ?arr_get_set_ne by lia.
Qed.

(** The bytes behind the name of a task in the structure that [SYS_PROCINFO] copies to the caller are
    what the kernel stack happened to hold. *)
Lemma procinfo_leaks stack i j :
  36 + Z.of_nat (length (pi_name i)) + 1 ≤ j < 68 → procinfo_bytes stack i j = stack j.
Proof.
  intros Hj. unfold procinfo_bytes, store_string. rewrite store_chars_outside by lia.
  rewrite store_chars_outside by (rewrite length_app; simpl; lia). apply store_words_outside. simpl. lia.
Qed.
