(* ===== verification/SyscallSafe.v ===== *)
(** * What system calls do to tasks

    Every system call leaves a consistent task table, in which exactly the task that
    is returned to runs, and nobody gains rights by it: the identities of a task change only by its own
    calls as the superuser, and a new task has those of its creator. *)

From stdpp Require Import strings.
From S2P Require Import Prelude Abi Mem Palloc Trace Net Paging Usercopy Block Kstack Vnode Simplefs Bootinfo Kheap Vfs VfsFiles VfsHeap VfsBoot Exec Task Proc ProcSched ProcWait ProcDemo Syscall.

Local Open Scope Z_scope.
Local Open Scope c_scope.

Section safe.
Context {St Hp Io Net : Type} `{!KernelHeap Hp} `{!ConsoleIO Io} `{!KernelMachine Hp} `{!NetStack Net} `{!NetInfo Net} `{!DiskDrivers St}.
Context (fuel copy_fuel : nat) (stack : carray Z) (boot : bootinfo).
Implicit Types (k : kernel St Hp Io Net) (t c : Z) (frame : Z).

(** ** Calls that leave states and identities alone *)

Definition same_identity (x y : task) : Prop := state y = state x ∧ uid y = uid x ∧ gid y = gid x.

Record same_ids k k' : Prop := {
  si_current : current_task k' = current_task k;
  si_idle : idle_task k' = idle_task k;
  si_tasks : ∀ t, same_identity (tasks k t) (tasks k' t);
}.

Lemma same_ids_trans k1 k2 k3 : same_ids k1 k2 → same_ids k2 k3 → same_ids k1 k3.
Proof.
  intros [C1 I1 T1] [C2 I2 T2]. split; [congruence|congruence|]. intros t.
  destruct (T1 t) as (?&?&?), (T2 t) as (?&?&?). unfold same_identity. split_and!; congruence.
Qed.

(** A state with the same task table. *)
Lemma ids_table k k' : tasks k' = tasks k → current_task k' = current_task k → idle_task k' = idle_task k → same_ids k k'.
Proof. intros Et ? ?. split; [done|done|]. intros t. by rewrite Et. Qed.

Lemma ids_refl k : same_ids k k.
Proof. by apply ids_table. Qed.

Lemma ids_upd t g k k' :
  same_ids k k' → same_identity (tasks k' t) (g (tasks k' t)) → same_ids k (upd_task t g k').
Proof.
  intros H Hg. eapply same_ids_trans; [exact H|]. split; [done|done|]. intros u. rewrite tasks_upd.
  destruct (decide (t = u)) as [->|]; [exact Hg|done].
Qed.

Lemma ids_set t x k k' : same_ids k k' → same_identity (tasks k' t) x → same_ids k (set_task t x k').
Proof.
  intros H Hg. eapply same_ids_trans; [exact H|]. split; [done|done|]. intros u. unfold set_task. cbn. rewrite arr_get_set.
  case_decide; [by subst|done].
Qed.

Lemma ids_upd_cur g k k' :
  same_ids k k' → (∀ t, same_identity (tasks k' t) (g (tasks k' t))) → same_ids k (upd_cur g k').
Proof. intros H Hg. unfold upd_cur. destruct (current_task k') as [t|]; [|done]. by apply ids_upd. Qed.

(** The parts of the state outside the task table. *)
Lemma ids_sys v k k' : same_ids k k' → same_ids k (with_sys v k').
Proof. intros H. eapply same_ids_trans; [exact H|]. by apply ids_table. Qed.
Lemma ids_vmem s k k' : same_ids k k' → same_ids k (with_vmem s k').
Proof. apply ids_sys. Qed.
Lemma ids_eax frame x k k' : same_ids k k' → same_ids k (set_eax frame x k').
Proof. intros H. eapply same_ids_trans; [exact H|]. by apply ids_table. Qed.
Lemma ids_log e a b d k k' : same_ids k k' → same_ids k (log_proc e a b d k').
Proof. intros H. eapply same_ids_trans; [exact H|]. by apply ids_table. Qed.

Lemma ids_frames x k k' : same_ids k k' → same_ids k (with_kframes x k').
Proof. intros H. eapply same_ids_trans; [exact H|]. by apply ids_table. Qed.
Lemma ids_esp0 x k k' : same_ids k k' → same_ids k (with_esp0 x k').
Proof. intros H. eapply same_ids_trans; [exact H|]. by apply ids_table. Qed.
Lemma ids_net n r k k' : same_ids k k' → same_ids k (with_net n r k').
Proof. intros H. eapply same_ids_trans; [exact H|]. by apply ids_table. Qed.

Lemma ids_copy_out user a bytes n k r k' : copy_out stack user a bytes n k = (r, k') → same_ids k k'.
Proof.
  unfold copy_out. destruct user; [destruct (user_copy_to _ _ _ _) as [r1 s]|]; intros [= <- <-]; [apply ids_vmem, ids_refl|by apply ids_table].
Qed.

(** A call that returns to its caller, leaving the tasks alone. *)
Definition returns k (r : option (Z * kernel St Hp Io Net)) : Prop := ∀ x k', r = Some (x, k') → same_ids k k'.

Lemma returns_some k x k' : same_ids k k' → returns k (Some (x, k')).
Proof. by intros H ?? [= <- <-]. Qed.
Lemma returns_to frame x k k' : same_ids k k' → returns k (return_to frame x k').
Proof. intros H. by apply returns_some, ids_eax. Qed.
Lemma returns_none k : returns k None.
Proof. done. Qed.
Lemma returns_pair k (r : Z * kernel St Hp Io Net) : same_ids k r.2 → returns k (Some r).
Proof. destruct r. apply returns_some. Qed.

Lemma install_fd_identity fd f x r y : proc_install_fd fd f x = (r, y) → same_identity x y.
Proof. unfold proc_install_fd. destruct f; [case_if|]; by intros [= <- <-]. Qed.

Create HintDb ids.
#[local] Hint Resolve ids_refl ids_sys ids_vmem ids_eax ids_log ids_frames ids_esp0 ids_net ids_upd ids_set ids_upd_cur returns_some returns_to returns_none returns_pair : ids.
#[local] Hint Extern 1 (same_identity _ _) => by split_and! : ids.
#[local] Ltac ids := cbn [fst snd]; auto 10 with ids.

Lemma open_fd_returns path flags k : returns k (proc_open_fd stack path flags k).
Proof.
  unfold proc_open_fd. destruct (current_task k) as [t|]; [|ids]. destruct (proc_normalize_path _ _ _) as [a|]; [|ids].
  case_if; [ids|]. cbv zeta. case_if; [ids|]. destruct (proc_effective_path _ _ _) as [e|]; [|ids].
  destruct (vfs_open_path _ _ _ _ _) as [[r file] v]. destruct (if negb (truthy r) then _ else _) as [[file1 v1]|]; [|apply returns_none].
  cbn [mbind option_bind]. destruct file1 as [f|]; [|ids]. destruct (if truthy _ && truthy _ then _ else _) as [r2 v2].
  case_if; [ids|]. destruct (proc_install_fd _ _ _) as [r3 x] eqn:Ei. case_if; [ids|].
  apply returns_some, ids_set; [ids|]. by apply install_fd_identity in Ei.
Qed.

Lemma close_fd_ids fd k : same_ids k (proc_close_fd fd k).2.
Proof.
  unfold proc_close_fd. destruct (current_task k) as [t|]; [|ids]. case_if; [ids|].
  destruct (fd_table _ fd); ids.
Qed.

Lemma seek_fd_ids fd offset whence k : same_ids k (proc_seek_fd fd offset whence k).2.
Proof. unfold proc_seek_fd. destruct (proc_lookup_fd _ _); [|ids]. destruct (vfs_seek_file _ _ _ _). ids. Qed.

Lemma mkdir_returns path k : returns k (proc_mkdir stack path k).
Proof.
  unfold proc_mkdir. destruct (proc_normalize_path _ _ _); [|ids]. destruct (vfs_mkdir_path _ _ _ _ _) as [[r v]|]; [|apply returns_none].
  cbn [mbind option_bind]. ids.
Qed.

Lemma unlink_returns path k : returns k (proc_unlink stack path k).
Proof.
  unfold proc_unlink. destruct (proc_normalize_path _ _ _); [|ids]. destruct (vfs_unlink_path _ _ _ _) as [[r v]|]; [|apply returns_none].
  cbn [mbind option_bind]. ids.
Qed.

Lemma chdir_ids path k : same_ids k (proc_chdir path k).2.
Proof.
  unfold proc_chdir. destruct (proc_normalize_path _ _ _); [|ids]. cbv zeta. destruct (vfs_stat_path _ _ _ _) as [r st].
  case_if; ids.
Qed.

Lemma dup_ids fd k : same_ids k (proc_dup fd k).2.
Proof.
  unfold proc_dup. destruct (current_task k) as [t|]; [|ids]. destruct (proc_lookup_fd _ _); [|ids].
  cbv zeta. case_if; ids.
Qed.

Lemma dup2_ids oldfd newfd k : same_ids k (proc_dup2 oldfd newfd k).2.
Proof.
  unfold proc_dup2. destruct (current_task k) as [t|]; [|ids]. destruct (proc_lookup_fd _ _); [|ids].
  case_if; [ids|]. case_if; [ids|]. cbv zeta. set (k1 := match fd_table _ _ with Some _ => _ | None => k end).
  assert (same_ids k k1) as H1 by (unfold k1; destruct (fd_table _ _); [apply close_fd_ids|apply ids_refl]). ids.
Qed.

Lemma setsid_ids k : same_ids k (proc_setsid k).2.
Proof. unfold proc_setsid. destruct (cur k); ids. Qed.

Lemma pipe_ids k r k' : proc_pipe k = Some (r, k') → same_ids k k'.
Proof.
  unfold proc_pipe. destruct (current_task k) as [t|]; [|intros [= <- <-]; ids]. cbv zeta.
  case_if; [intros [= <- <-]; ids|]. case_if; [intros [= <- <-]; ids|].
  destruct (vfs_create_pipe _ _) as [[[[r0 f1] f2] v]|]; [|done]. cbn [mbind option_bind].
  case_if; [intros [= <- <-]; ids|].
  destruct (proc_install_fd _ _ (task_at t k)) as [r1 x] eqn:Ei1. pose proof (install_fd_identity _ _ _ _ _ Ei1) as H1.
  case_if; [intros [= <- <-]; apply ids_set; [ids|exact H1]|].
  destruct (proc_install_fd _ _ x) as [r2 y] eqn:Ei2. pose proof (install_fd_identity _ _ _ _ _ Ei2) as H2.
  assert (same_identity (tasks k t) y) as H3 by (destruct H1 as (?&?&?), H2 as (?&?&?); unfold same_identity, task_at in *; split_and!; congruence).
  case_if; intros [= <- <-]; (apply ids_set; [ids|exact H3]).
Qed.

Lemma sys_pipe_returns frame fds k : returns k (proc_sys_pipe stack frame fds k).
Proof.
  unfold proc_sys_pipe. destruct (current_task k); [|ids]. case_if; [ids|].
  destruct (proc_pipe k) as [[r k1]|] eqn:Ep; [|apply returns_none]. pose proof (pipe_ids _ _ _ Ep) as H1. cbn [mbind option_bind].
  destruct r as [[a b]|]; [|ids]. destruct (copy_out _ _ _ _ _ _) as [r2 k2] eqn:Eo. apply ids_copy_out in Eo.
  assert (same_ids k k2) as H2 by (by eapply same_ids_trans). case_if; [|ids].
  apply returns_to. eapply same_ids_trans; [exact H2|]. eapply same_ids_trans; apply close_fd_ids.
Qed.

Lemma switch_image_ids t path dir image k : same_ids k (switch_image t path dir image k).2.
Proof. unfold switch_image. cbv zeta. case_if; ids. Qed.

Lemma execv_returns frame path argv k : returns k (proc_sys_execv fuel stack frame path argv k).
Proof.
  unfold proc_sys_execv. destruct (current_task k) as [t|]; [|ids]. case_if; [ids|].
  destruct (user_copy_string_from _ _ _ _) as [r bytes]. case_if; [ids|]. destruct (proc_normalize_path _ _ _); [|ids].
  destruct (proc_copy_exec_args _ _ _ _) as [[av ac]|]; [|ids]. case_if; [ids|].
  destruct (paging_create_address_space _) as [dir s]. cbv zeta. case_if; [ids|].
  destruct (exec_load_path _ _ _ _ _ _) as [[[r1 i1] v1]|]; [|apply returns_none]. cbn [mbind option_bind]. cbv zeta.
  destruct (if truthy r1 then _ else _) as [[r2 i2] s2]. case_if; [ids|]. apply returns_pair.
  eapply same_ids_trans; [|apply switch_image_ids]. ids.
Qed.

Lemma copy_struct_ids frame a bytes size result k : same_ids k (copy_struct stack frame a bytes size result k).2.
Proof. unfold copy_struct. destruct (copy_out _ _ _ _ _ _) as [r k'] eqn:E. by apply ids_copy_out in E. Qed.
#[local] Hint Resolve copy_struct_ids : ids.

Lemma stat_handler_ids frame a b k : same_ids k (sys_stat_handler stack frame a b k).2.
Proof. unfold sys_stat_handler. case_if; [ids|]. destruct (copy_path_from_frame _ _ _ _ _); [|ids]. destruct (proc_stat _ _ _) as [[] []]; ids. Qed.
Lemma readdir_handler_ids frame a i b k : same_ids k (sys_readdir_handler stack frame a i b k).2.
Proof. unfold sys_readdir_handler. case_if; [ids|]. destruct (copy_path_from_frame _ _ _ _ _); [|ids]. destruct (proc_readdir _ _ _ _). case_if; ids. Qed.
Lemma procinfo_handler_ids frame i a k : same_ids k (sys_procinfo_handler stack frame i a k).2.
Proof. unfold sys_procinfo_handler. case_if; [ids|]. destruct (proc_procinfo _ _) as [[] []]; ids. Qed.
Lemma bootinfo_handler_ids frame a k : same_ids k (sys_bootinfo_handler stack boot frame a k).2.
Proof. unfold sys_bootinfo_handler. case_if; ids. Qed.
Lemma netinfo_handler_ids frame a k : same_ids k (sys_netinfo_handler stack frame a k).2.
Proof. unfold sys_netinfo_handler. case_if; [ids|]. destruct (net_info _ _). case_if; ids. Qed.
Lemma traceinfo_handler_ids frame a k : same_ids k (sys_traceinfo_handler stack frame a k).2.
Proof. unfold sys_traceinfo_handler. case_if; [ids|]. destruct (trace_get_info _ _) as [[] []]; ids. Qed.
Lemma traceread_handler_ids frame i a k : same_ids k (sys_traceread_handler stack frame i a k).2.
Proof. unfold sys_traceread_handler. case_if; [ids|]. destruct (trace_read _ _ _). case_if; ids. Qed.
Lemma string_handler_ids frame a n s k : same_ids k (string_handler stack frame a n s k).2.
Proof. unfold string_handler. case_if; [ids|]. destruct s; [|ids]. cbv zeta. case_if; ids. Qed.
#[local] Hint Resolve stat_handler_ids readdir_handler_ids procinfo_handler_ids bootinfo_handler_ids netinfo_handler_ids
  traceinfo_handler_ids traceread_handler_ids string_handler_ids close_fd_ids seek_fd_ids chdir_ids dup_ids dup2_ids setsid_ids : ids.

Lemma finish_returns frame k r : same_ids k r.2 → returns k (finish frame r).
Proof. destruct r as [x k']. unfold finish. ids. Qed.

Lemma with_path_returns frame call k : (∀ path, returns k (call path k)) → returns k (with_path stack frame call k).
Proof.
  intros Hc. unfold with_path. destruct (copy_path_from_frame _ _ _ _ _) as [path|]; [|ids]. specialize (Hc path).
  destruct (call path k) as [[r k']|]; [|apply returns_none]. cbn [mbind option_bind]. apply returns_to. by eapply Hc.
Qed.

(** ** Calls that end in the scheduler *)

(** The slot is empty, or holds the task it held, with its identity. *)
Definition same_or_gone (x y : task) : Prop :=
  state y = TASK_UNUSED ∨ state x ≠ TASK_UNUSED ∧ uid y = uid x ∧ gid y = gid x.

Lemma moves_identity x y : moves x y → same_or_gone x y.
Proof.
  destruct 1 as [|y Hx Hy Hk|y Hx Hy Hk|y Hx Hy]; [destruct (decide (state x = TASK_UNUSED)); [by left|by right]| | |by left].
  all: right; split; [congruence|split; [apply (kp_uid _ _ Hk)|apply (kp_gid _ _ Hk)]].
Qed.

Lemma schedule_ids frame k f k' t :
  sched_wf k → proc_schedule fuel stack frame k = Some (f, k') → same_or_gone (tasks k t) (tasks k' t).
Proof.
  intros Hwf (k1&Hph&Hk')%schedule_cases. destruct (chosen k k1 frame Hwf Hph) as (_&_&d&Hpk&_&Hds). rewrite Hpk in Hk'. destruct Hk' as [_ ->].
  pose proof (activate_effect d k1) as (_&_&_&_&_&O&T). pose proof (moves_identity _ _ (ph_moves _ _ Hph t)) as Hm.
  assert (same_or_gone (tasks k t) (tasks k1 t)) as H1.
  { rewrite save_current_tasks in Hm. destruct (decide (current_task k = Some t)) as [_|_]; [|exact Hm].
    unfold suspended in Hm. cbv zeta in Hm. destruct Hm as [Hm|(Hu&Hm)]; [by left|]. right.
    destruct (decide (state (tasks k t) = TASK_UNUSED)) as [E|E]; [cbn in *; rewrite E in *; done|]. split; [done|].
    cbn in Hm. by case_bool_decide. }
  destruct (decide (t = d)) as [->|Htd]; [|by rewrite O].
  rewrite T. destruct H1 as [H1|H1]; [congruence|]. by right.
Qed.

(** The state in which the scheduler is called: the tasks are those there were. *)
Record leaves k k1 : Prop := {
  lv_wf : sched_wf k1;
  lv_tasks : ∀ t, (state (tasks k1 t) = TASK_UNUSED ↔ state (tasks k t) = TASK_UNUSED)
    ∧ uid (tasks k1 t) = uid (tasks k t) ∧ gid (tasks k1 t) = gid (tasks k t);
}.

(** A task that calls the kernel: it is the current one and runs, it is not the
    idle task, and not its own parent. *)
Record caller k c : Prop := {
  ca_wf : sched_wf k;
  ca_current : current_task k = Some c;
  ca_running : state (tasks k c) = TASK_RUNNING;
  ca_idle : idle_task k ≠ Some c;
  ca_parent : parent_pid (tasks k c) ≠ pid (tasks k c);
}.

(** What a call of the task [c] may do. *)
Record safe_step c k k' : Prop := {
  ss_wf : sched_wf k';
  ss_running : ∃ c', current_task k' = Some c' ∧ state (tasks k' c') = TASK_RUNNING;
  ss_tasks : ∀ t, same_or_gone (tasks k t) (tasks k' t)
    ∨ (t = c ∧ uid (tasks k c) = 0)
    ∨ (state (tasks k t) = TASK_UNUSED ∧ uid (tasks k' t) = uid (tasks k c) ∧ gid (tasks k' t) = gid (tasks k c));
}.

Lemma same_ids_wf k k' : same_ids k k' → sched_wf k → sched_wf k'.
Proof.
  intros [C I T] [W1 W2 (i&Hi&Hr&Hs)]. split.
  - intros t. rewrite C. apply W1.
  - intros t Ht Hst. rewrite C. apply W2; [done|]. by rewrite <- (proj1 (T t)).
  - exists i. rewrite I, (proj1 (T i)). done.
Qed.

Lemma same_ids_safe c k k' : caller k c → same_ids k k' → safe_step c k k'.
Proof.
  intros [Hwf Hc Hr _ _] Hs. split; [by eapply same_ids_wf|exists c; rewrite (si_current _ _ Hs), (proj1 (si_tasks _ _ Hs c)); done|].
  intros t. left. destruct (si_tasks _ _ Hs t) as (E1&E2&E3). unfold same_or_gone. rewrite E1.
  destruct (decide (state (tasks k t) = TASK_UNUSED)); [by left|by right].
Qed.

Lemma returns_safe c k r f k' : caller k c → returns k r → r = Some (f, k') → safe_step c k k'.
Proof. intros Hc Hr E. apply same_ids_safe; [done|]. by eapply Hr. Qed.

Lemma schedule_safe frame c k k1 f k' :
  leaves k k1 → proc_schedule fuel stack frame k1 = Some (f, k') → safe_step c k k'.
Proof.
  intros [Hwf Ht] E. destruct (schedule_effect _ _ _ _ _ _ Hwf E) as (Hwf'&c'&Hc'&_&Hr&_). split; [done|by exists c'|].
  intros t. left. destruct (schedule_ids frame k1 f k' t Hwf E) as [H|(H1&H2&H3)]; [by left|right]. destruct (Ht t) as (T1&T2&T3).
  split; [tauto|]. split; congruence.
Qed.

(** The current task stops running, or goes on, and calls the scheduler. *)
Lemma leaves_upd c g k k1 :
  caller k c → same_ids k k1 → (let x := tasks k1 c in state (g x) ≠ TASK_UNUSED ∧ uid (g x) = uid x ∧ gid (g x) = gid x) →
  leaves k (upd_task c g k1).
Proof.
  intros [Hwf Hc Hr Hi _] Hs Hg. pose proof (same_ids_wf _ _ Hs Hwf) as [W1 W2 (i&Hii&Hir&His)]. destruct Hs as [C I T]. cbv zeta in Hg. split.
  - split.
    + exact W1.
    + intros t Ht. rewrite tasks_upd. destruct (decide (c = t)) as [->|]; [by intros _; rewrite <- Hc, <- C|by apply W2].
    + exists i. split; [done|]. split; [done|]. rewrite tasks_upd, decide_False; [done|]. intros ->. congruence.
  - intros t. rewrite tasks_upd. destruct (T t) as (T1&T2&T3). destruct (decide (c = t)) as [->|]; [|rewrite T1; done].
    destruct Hg as (G1&G2&G3). split_and!; [|congruence|congruence]. rewrite Hr. split; congruence.
Qed.

Lemma leaves_same k k1 : sched_wf k → same_ids k k1 → leaves k k1.
Proof.
  intros Hwf Hs. split; [by eapply same_ids_wf|]. intros t. destruct (si_tasks _ _ Hs t) as (->&->&->). done.
Qed.

Lemma leaves_upd_cur c g k k1 :
  caller k c → same_ids k k1 → (let x := tasks k1 c in state (g x) ≠ TASK_UNUSED ∧ uid (g x) = uid x ∧ gid (g x) = gid x) →
  leaves k (upd_cur g k1).
Proof. intros Hc Hs Hg. unfold upd_cur. rewrite (si_current _ _ Hs), (ca_current _ _ Hc). by apply leaves_upd. Qed.

Lemma sleep_safe frame ticks c k f k' : caller k c → proc_sys_sleep fuel stack frame ticks k = Some (f, k') → safe_step c k k'.
Proof.
  intros Hc. unfold proc_sys_sleep. rewrite (ca_current _ _ Hc). cbv zeta. case_if; apply schedule_safe.
  - apply leaves_same; [apply Hc|]. ids.
  - pose proof (leaves_upd c (λ x, with_state TASK_SLEEPING (with_wake_tick (pit_ticks (clock k) ⊞ ticks) x)) k k Hc (ids_refl k) ltac:(done)) as [Hw Ht].
    split; [by destruct Hw|exact Ht].
Qed.

Lemma ping_safe frame dst timeout c k f k' : caller k c → proc_sys_ping4 fuel stack frame dst timeout k = Some (f, k') → safe_step c k k'.
Proof.
  intros Hc. unfold proc_sys_ping4. rewrite (ca_current _ _ Hc). destruct (net_ping4_start _ _ _ _ _ _) as [[r n] rg]. cbv zeta.
  case_if; [apply returns_safe; [done|ids]|]. apply schedule_safe. apply leaves_upd; [done|ids|done].
Qed.

Lemma read_loop_safe turns frame fd buffer length file n c k k1 f k' :
  caller k c → same_ids k k1 → sys_read_loop fuel stack turns frame fd buffer length file n k1 = Some (f, k') → safe_step c k k'.
Proof.
  intros Hc. revert n k1. induction turns as [|turns IH]; intros n k1 Hs; cbn [sys_read_loop]; [done|].
  assert (∀ x k2, same_ids k k2 → return_to frame x k2 = Some (f, k') → safe_step c k k') as Hret.
  { intros x k2 H2. apply returns_safe; [exact Hc|]. ids. }
  case_if; [by apply Hret|]. cbv zeta. destruct (vfs_read_file _ _ _ _ _) as [[[r b] v]|]; [|done]. cbn [mbind option_bind].
  case_if; [case_if; [by apply Hret; ids|]|].
  - apply schedule_safe. apply (leaves_upd_cur c); [done|ids|done].
  - case_if; [by apply Hret; ids|]. case_if; [by apply Hret; ids|].
    destruct (copy_out _ _ _ _ _ _) as [r2 k2] eqn:Eo. apply ids_copy_out in Eo.
    assert (same_ids k k2) as H2 by (eapply same_ids_trans; [|exact Eo]; ids).
    case_if; [by apply Hret|]. case_if; [by apply Hret|]. by apply IH.
Qed.

Lemma write_loop_safe turns frame fd buffer length file n c k k1 f k' :
  caller k c → same_ids k k1 → sys_write_loop fuel stack turns frame fd buffer length file n k1 = Some (f, k') → safe_step c k k'.
Proof.
  intros Hc. revert n k1. induction turns as [|turns IH]; intros n k1 Hs; cbn [sys_write_loop]; [done|].
  assert (∀ x k2, same_ids k k2 → return_to frame x k2 = Some (f, k') → safe_step c k k') as Hret.
  { intros x k2 H2. apply returns_safe; [exact Hc|]. ids. }
  case_if; [by apply Hret|]. cbv zeta. destruct (copy_in _ _ _ _ _) as [r1 staging]. case_if; [by apply Hret|].
  destruct (vfs_write_file _ _ _ _) as [r v]. case_if; [case_if; [by apply Hret; ids|]|].
  - apply schedule_safe. apply (leaves_upd_cur c); [done|ids|done].
  - case_if; [by apply Hret; ids|]. case_if; [by apply Hret; ids|]. apply IH. ids.
Qed.

Lemma sys_read_safe frame fd buffer length c k f k' :
  caller k c → proc_sys_read fuel stack frame fd buffer length k = Some (f, k') → safe_step c k k'.
Proof.
  intros Hc. unfold proc_sys_read. rewrite (ca_current _ _ Hc). case_if; [apply returns_safe; [done|ids]|].
  case_if; [apply returns_safe; [done|ids]|]. destruct (proc_lookup_fd _ _); [|apply returns_safe; [done|ids]].
  by apply read_loop_safe, ids_refl.
Qed.

Lemma sys_write_safe frame fd buffer length c k f k' :
  caller k c → proc_sys_write fuel stack frame fd buffer length k = Some (f, k') → safe_step c k k'.
Proof.
  intros Hc. unfold proc_sys_write. rewrite (ca_current _ _ Hc). case_if; [apply returns_safe; [done|ids]|].
  case_if; [apply returns_safe; [done|ids]|]. destruct (proc_lookup_fd _ _); [|apply returns_safe; [done|ids]].
  by apply write_loop_safe, ids_refl.
Qed.

(** ** Waiting, ending and creating *)

(** The slot [d] of a zombie, or an unused one, is emptied or left alone. *)
Lemma released_safe c d k k1 :
  caller k c → same_ids k k1 → state (tasks k d) = TASK_ZOMBIE → safe_step c k (task_release_resources d k1).
Proof.
  intros [Hwf Hc Hr _ _] Hs Hz. pose proof (same_ids_wf _ _ Hs Hwf) as [W1 W2 (i&Hi&Hir&His)]. destruct Hs as [C I T].
  destruct (release_effect d k1) as (RC&RI&_&RO&RU). destruct (T d) as (Td&_).
  assert (i ≠ d) as Hid by (intros ->; rewrite Td, Hz in His; by destruct His).
  assert (c ≠ d) as Hcd by (intros ->; by rewrite Hz in Hr).
  set (k2 := task_release_resources d k1) in *. clearbody k2.
  split.
  - split.
    + intros t. rewrite RC. apply W1.
    + intros t Ht. rewrite RC. destruct (decide (t = d)) as [->|Hne]; [congruence|]. rewrite RO by done. by apply W2.
    + exists i. rewrite RI by congruence. rewrite RO by done. done.
  - exists c. rewrite RC, C, RO by done. destruct (T c) as (->&_). done.
  - intros t. left. destruct (decide (t = d)) as [->|Hne]; [by left|]. rewrite RO by done. destruct (T t) as (T1&T2&T3).
    unfold same_or_gone. rewrite T1. destruct (decide (state (tasks k t) = TASK_UNUSED)); [by left|by right].
Qed.

Lemma waitpid_safe frame target status c k f k' :
  caller k c → proc_sys_waitpid fuel stack frame target status k = Some (f, k') → safe_step c k k'.
Proof.
  intros Hc. unfold proc_sys_waitpid. rewrite (ca_current _ _ Hc). cbv zeta. case_if; [apply returns_safe; [done|ids]|].
  case_if; [apply returns_safe; [done|ids]|]. destruct (proc_find_zombie_child _ _ _) as [d|] eqn:Ez.
  - unfold proc_find_zombie_child in Ez. apply for_find_Some in Ez as (_&Hz&_). apply andb_prop in Hz as [_ Hz%bool_decide_eq_true].
    unfold proc_collect_zombie_now. cbv zeta. destruct (if truthy status then _ else _) as [r s].
    case_if; intros [= <- <-]; cbn [snd]; [apply same_ids_safe; [done|ids]|]. apply released_safe; [done|ids|done].
  - case_if; [apply returns_safe; [done|ids]|]. apply schedule_safe. apply leaves_upd; [done|apply ids_refl|done].
Qed.

(** Tasks and their identities stay, whatever their states become. *)
Definition owners k k' : Prop :=
  ∀ t, (state (tasks k' t) = TASK_UNUSED ↔ state (tasks k t) = TASK_UNUSED) ∧ uid (tasks k' t) = uid (tasks k t) ∧ gid (tasks k' t) = gid (tasks k t).

Lemma owners_trans k1 k2 k3 : owners k1 k2 → owners k2 k3 → owners k1 k3.
Proof. intros H1 H2 t. destruct (H1 t) as (?&?&?), (H2 t) as (?&?&?). split_and!; [tauto|congruence|congruence]. Qed.

Lemma owners_table k k' : tasks k' = tasks k → owners k k'.
Proof. intros E t. by rewrite E. Qed.

Lemma owners_upd t g k k' :
  owners k k' → (let x := tasks k' t in (state (g x) = TASK_UNUSED ↔ state x = TASK_UNUSED) ∧ uid (g x) = uid x ∧ gid (g x) = gid x) →
  owners k (upd_task t g k').
Proof.
  intros H Hg. eapply owners_trans; [exact H|]. intros u. rewrite tasks_upd. destruct (decide (t = u)) as [->|]; [exact Hg|done].
Qed.

Lemma finish_wait_owners p t k : owners k (proc_finish_blocked_wait p t k).
Proof.
  unfold proc_finish_blocked_wait. cbv zeta. destruct (if truthy _ then _ else _) as [r s].
  apply owners_upd; [|done]. set (k1 := upd_task p _ _).
  assert (owners k k1) as H1 by (apply owners_upd; [by apply owners_table|done]). case_bool_decide as Hb; [|done].
  apply owners_upd; [done|]. unfold task_at in Hb. cbv zeta. split; [|done]. rewrite Hb. by split.
Qed.

Lemma notify_owners t k : owners k (proc_notify_parent_exit t k).
Proof.
  unfold proc_notify_parent_exit. cbv zeta. case_if; [apply owners_upd; [by apply owners_table|done]|].
  destruct (task_find_by_pid _ _); [|apply owners_upd; [by apply owners_table|done]].
  case_if; [by apply owners_table|apply finish_wait_owners].
Qed.

Lemma close_files_owners t k : owners k (task_close_files t k).
Proof.
  destruct (close_files_effect t k) as (table&_&(E&_)&_). eapply owners_trans; [|by apply owners_table].
  apply owners_upd; [by apply owners_table|done].
Qed.

Lemma reparent_owners t k : owners k (proc_reparent_children t k).
Proof. destruct (reparent_effect t k) as (_&_&E). intros u. rewrite E. case_decide; [|done]. unfold adopt. by repeat case_if. Qed.

Lemma ended_task_owners t status k : state (tasks k t) ≠ TASK_UNUSED → owners k (ended_task t status k).
Proof. intros Hu. unfold ended_task. apply owners_upd; [|done]. apply owners_upd; [by apply owners_table|]. cbn. by split_and!. Qed.

Lemma log_owners e a b d k : owners k (log_proc e a b d k).
Proof. by apply owners_table. Qed.

Lemma exiting_owners t status k : state (tasks k t) ≠ TASK_UNUSED → owners k (exiting t status k).
Proof.
  intros Hu. unfold exiting, ended. cbv zeta.
  pose proof (owners_trans _ _ _ (close_files_owners t k) (reparent_owners t (task_close_files t k))) as H2.
  set (k2 := proc_reparent_children t (task_close_files t k)) in *. clearbody k2.
  assert (state (tasks k2 t) ≠ TASK_UNUSED) as Hu2 by (destruct (H2 t) as [E _]; tauto).
  pose proof (owners_trans _ _ _ H2 (ended_task_owners t status k2 Hu2)) as H3.
  set (k3 := ended_task t status k2) in *. clearbody k3.
  eapply owners_trans; [exact H3|]. eapply owners_trans; [apply log_owners|apply notify_owners].
Qed.

Lemma exit_safe frame status c k f k' :
  caller k c → proc_sys_exit fuel stack frame status k = Some (f, k') → safe_step c k k'.
Proof.
  intros [Hwf Hc Hr Hi Hpar]. rewrite (exit_eq _ _ _ _ _ c) by done. apply schedule_safe. split; [by apply exiting_sched_wf|].
  apply exiting_owners. congruence.
Qed.

(** Only the slot [d] changes. *)
Definition aside d k k' : Prop :=
  current_task k' = current_task k ∧ idle_task k' = idle_task k ∧ ∀ u, u ≠ d → tasks k' u = tasks k u.

Lemma aside_upd d g k k' : aside d k k' → aside d k (upd_task d g k').
Proof. intros (C&I&T). split_and!; [done|done|]. intros u Hu. rewrite tasks_upd_ne by done. by apply T. Qed.
Lemma aside_table d k k' k'' :
  aside d k k' → tasks k'' = tasks k' → current_task k'' = current_task k' → idle_task k'' = idle_task k' → aside d k k''.
Proof. intros (C&I&T) E1 E2 E3. unfold aside. rewrite E1, E2, E3. done. Qed.

Lemma aside_safe c d k k' :
  caller k c → state (tasks k d) = TASK_UNUSED → aside d k k' →
  state (tasks k' d) = TASK_UNUSED
    ∨ (state (tasks k' d) = TASK_RUNNABLE ∧ uid (tasks k' d) = uid (tasks k c) ∧ gid (tasks k' d) = gid (tasks k c)) →
  safe_step c k k'.
Proof.
  intros [[W1 W2 (i&Hi&Hir&His)] Hc Hr _ _] Hd (C&I&T) Hs.
  assert (i ≠ d) as Hid by (intros ->; rewrite Hd in His; by destruct His).
  assert (c ≠ d) as Hcd by (intros ->; by rewrite Hd in Hr).
  split.
  - split.
    + intros t. rewrite C. apply W1.
    + intros t Ht Hst. rewrite C. destruct (decide (t = d)) as [->|Hne]; [destruct Hs as [Hs|[Hs _]]; congruence|]. rewrite T in Hst by done. by apply W2.
    + exists i. rewrite I, T by done. done.
  - exists c. rewrite C, T by done. done.
  - intros t. destruct (decide (t = d)) as [->|Hne].
    + destruct Hs as [Hs|(_&Hs1&Hs2)]; [left; by left|]. right. right. done.
    + rewrite T by done. left. unfold same_or_gone. destruct (decide (state (tasks k t) = TASK_UNUSED)); [by left|by right].
Qed.

Lemma find_unused_cases k r k1 :
  task_find_unused k = (r, k1) →
  match r with
  | Some d => state (tasks k d) = TASK_UNUSED ∧ aside d k k1 ∧ state (tasks k1 d) = TASK_UNUSED
  | None => k1 = k
  end.
Proof.
  unfold task_find_unused. destruct (for_find _ _ _) as [d|] eqn:E; intros [= <- <-]; [|done].
  apply for_find_Some in E as (_&E%bool_decide_eq_true&_). split; [done|]. split; [by apply aside_upd|by rewrite tasks_upd_eq].
Qed.

Lemma release_aside d k k1 :
  idle_task k ≠ Some d → aside d k k1 → aside d k (task_release_resources d k1) ∧ state (tasks (task_release_resources d k1) d) = TASK_UNUSED.
Proof.
  intros Hi (C&I&T). destruct (release_effect d k1) as (RC&RI&_&RO&RU). set (k2 := task_release_resources d k1) in *. clearbody k2.
  split; [|done]. split_and!; [congruence|rewrite RI; congruence|]. intros u Hu. rewrite RO by done. by apply T.
Qed.

Lemma return_to_cases frame x k f k' : return_to frame x k = Some (f, k') → k' = set_eax frame x k.
Proof. unfold return_to. intros E%(inj Some). by apply pair_equal_spec in E as [_ <-]. Qed.

Lemma fail_fork_safe frame c d k k1 f k' :
  caller k c → state (tasks k d) = TASK_UNUSED → aside d k k1 → fail_fork frame d k1 = Some (f, k') → safe_step c k k'.
Proof.
  intros Hc Hd Ha. unfold fail_fork.
  assert (idle_task k ≠ Some d) as Hi.
  { destruct (sw_idle _ (ca_wf _ _ Hc)) as (i&->&_&Hs). intros [= ->]. rewrite Hd in Hs. by destruct Hs. }
  intros ->%return_to_cases. destruct (release_aside d k k1 Hi Ha) as [Ha2 Hu]. revert Ha2 Hu.
  generalize (task_release_resources d k1). intros k2 Ha2 Hu.
  apply (aside_safe c d); [done|done|by apply (aside_table d k k2)|by left].
Qed.

Lemma start_child_effect frame t d k :
  d ≠ t → let k' := start_child frame t d k in
  aside d k k' ∧ state (tasks k' d) = TASK_RUNNABLE ∧ uid (tasks k' d) = uid (tasks k t) ∧ gid (tasks k' d) = gid (tasks k t).
Proof.
  intros Hne. cbv zeta. unfold start_child. cbv zeta. set (k1 := upd_task d _ _).
  assert (aside d k k1) as H1 by (by apply aside_upd). assert (state (tasks k1 d) = TASK_RUNNABLE ∧ uid (tasks k1 d) = uid (tasks k t) ∧ gid (tasks k1 d) = gid (tasks k t)) as H2.
  { unfold k1. by rewrite tasks_upd_eq. }
  clearbody k1. split; [by apply (aside_table d k k1)|exact H2].
Qed.

Lemma aside_return c d frame x k k1 f k' :
  caller k c → state (tasks k d) = TASK_UNUSED → aside d k k1 → state (tasks k1 d) = TASK_UNUSED →
  return_to frame x k1 = Some (f, k') → safe_step c k k'.
Proof.
  intros Hc Hd Ha Hu ->%return_to_cases. apply (aside_safe c d); [done|done|by apply (aside_table d k k1)|by left].
Qed.

(** The stages of a fork touch only the slot of the child. *)
Lemma setup_stack_aside d k k1 r k2 : aside d k k1 → task_setup_kernel_stack d k1 = (r, k2) → aside d k k2.
Proof.
  intros Ha. unfold task_setup_kernel_stack. destruct (kstack_alloc _ _ _) as [[[r1 st] ks] s].
  intros E. apply pair_equal_spec in E as [_ <-]. apply aside_upd. by apply (aside_table d k k1).
Qed.

Lemma fork_safe frame c k f k' : caller k c → proc_sys_fork frame k = Some (f, k') → safe_step c k k'.
Proof.
  intros Hc. unfold proc_sys_fork. destruct (task_find_unused k) as [slot k1] eqn:Ef. apply find_unused_cases in Ef.
  destruct slot as [d|]; [|subst k1; rewrite (ca_current _ _ Hc); apply returns_safe; [done|ids]].
  destruct Ef as (Hd&Ha1&Hu1). assert (c ≠ d) as Hcd by (intros ->; by rewrite (ca_running _ _ Hc) in Hd).
  rewrite (proj1 Ha1), (ca_current _ _ Hc). case_if; [by apply (aside_return c d)|].
  destruct (task_setup_kernel_stack d k1) as [r2 k2] eqn:E2. pose proof (setup_stack_aside d k k1 r2 k2 Ha1 E2) as Ha2.
  clear E2 Ha1 Hu1. case_if; [apply (aside_return c d); [done|done|by apply aside_upd|by rewrite tasks_upd_eq]|].
  destruct (vfs_clone_fds _ _ _ _) as [[r3 fds] v3]. cbv zeta. set (k3 := upd_task d _ _).
  assert (aside d k k3) as Ha3 by (apply aside_upd; by apply (aside_table d k k2)). clearbody k3. clear k2 Ha2.
  case_if; [by apply fail_fork_safe|]. destruct (paging_create_address_space _) as [dir s4]. set (k4 := upd_task d _ _).
  assert (aside d k k4) as Ha4 by (apply aside_upd; by apply (aside_table d k k3)). clearbody k4. clear k3 Ha3.
  case_if; [by apply fail_fork_safe|]. destruct (exec_clone_image _ _ _ _ _) as [[r5 i5] s5]. set (k5 := upd_task d _ _).
  assert (aside d k k5) as Ha5 by (apply aside_upd; by apply (aside_table d k k4)). clearbody k5. clear k4 Ha4.
  case_if; [by apply fail_fork_safe|]. destruct (start_child_effect frame c d k5 ltac:(done)) as (Ha6&S6&U6&G6).
  intros Er%(inj Some). apply pair_equal_spec in Er as [_ <-]. revert Ha6 S6 U6 G6. generalize (start_child frame c d k5).
  intros k6 Ha6 S6 U6 G6. destruct Ha5 as (C5&I5&T5). rewrite T5 in U6, G6 by done. apply (aside_safe c d); [done|done| |by right].
  destruct Ha6 as (C6&I6&T6). split_and!; [congruence|congruence|]. intros u Hu. by rewrite T6, T5.
Qed.

(** The superuser sets its identities. *)
Lemma set_id_safe c g k : caller k c → uid (tasks k c) = 0 → (∀ x, state (g x) = state x) → safe_step c k (upd_cur g k).
Proof.
  intros [Hwf Hc Hr Hi _] Hz Hg. unfold upd_cur. rewrite Hc. destruct Hwf as [W1 W2 (i&Hii&Hir&His)]. split.
  - split; [exact W1| |].
    + intros t Ht. rewrite tasks_upd. destruct (decide (c = t)) as [->|]; [done|by apply W2].
    + exists i. split; [done|]. split; [done|]. rewrite tasks_upd, decide_False; [done|congruence].
  - exists c. split; [done|]. rewrite tasks_upd_eq, Hg. done.
  - intros t. rewrite tasks_upd. destruct (decide (c = t)) as [->|]; [right; by left|]. left. unfold same_or_gone.
    destruct (decide (state (tasks k t) = TASK_UNUSED)); [by left|by right].
Qed.

Lemma safe_eax c k k' frame x : safe_step c k k' → safe_step c k (set_eax frame x k').
Proof. intros [[W1 W2 W3] R T]. by split. Qed.

Lemma setuid_safe frame u c k f k' : caller k c → finish frame (proc_setuid u k) = Some (f, k') → safe_step c k k'.
Proof.
  intros Hc. unfold proc_setuid, cur. rewrite (ca_current _ _ Hc). cbn [fmap option_fmap option_map]. case_if; intros ->%return_to_cases.
  - apply safe_eax, same_ids_safe; [done|ids].
  - apply safe_eax, set_id_safe; [done|by zbool|done].
Qed.
Lemma setgid_safe frame u c k f k' : caller k c → finish frame (proc_setgid u k) = Some (f, k') → safe_step c k k'.
Proof.
  intros Hc. unfold proc_setgid, cur. rewrite (ca_current _ _ Hc). cbn [fmap option_fmap option_map]. case_if; intros ->%return_to_cases.
  - apply safe_eax, same_ids_safe; [done|ids].
  - apply safe_eax, set_id_safe; [done|by zbool|done].
Qed.

(** ** The dispatcher *)

Lemma kernel_call_safe frame c k f k' : caller k c → kernel_call fuel stack boot frame k = Some (f, k') → safe_step c k k'.
Proof.
  intros Hc. unfold kernel_call. cbv zeta.
  assert (∀ r, returns k r → r = Some (f, k') → safe_step c k k') as Hret by (intros r; by apply returns_safe).
  case_if; [by apply sys_write_safe|]. case_if; [apply Hret; ids|]. case_if; [apply schedule_safe, leaves_same; [apply Hc|ids]|].
  case_if; [by apply exit_safe|]. case_if; [by apply waitpid_safe|]. case_if; [apply Hret, execv_returns|]. case_if; [apply Hret, execv_returns|].
  case_if; [by apply fork_safe|]. case_if; [apply Hret, with_path_returns; intros; apply open_fd_returns|].
  case_if; [apply Hret, finish_returns; ids|]. case_if; [by apply sys_read_safe|]. case_if; [apply Hret, finish_returns; ids|].
  case_if; [apply Hret, with_path_returns; intros; apply mkdir_returns|]. case_if; [apply Hret, with_path_returns; intros; apply unlink_returns|].
  case_if; [apply Hret, finish_returns; ids|]. case_if; [apply Hret, with_path_returns; intros; apply returns_pair, chdir_ids|].
  case_if; [apply Hret, finish_returns; ids|]. case_if; [apply Hret, finish_returns; ids|]. case_if; [by apply sleep_safe|].
  case_if; [apply Hret; ids|]. case_if; [apply Hret, finish_returns; ids|]. case_if; [apply Hret, finish_returns; ids|].
  case_if; [apply Hret, finish_returns; ids|]. case_if; [apply Hret, finish_returns; unfold sys_getcwd_handler; ids|].
  case_if; [apply Hret; ids|]. case_if; [apply Hret; ids|]. case_if; [by apply setuid_safe|]. case_if; [by apply setgid_safe|].
  case_if; [apply Hret, finish_returns; ids|]. case_if; [apply Hret, finish_returns; unfold sys_gettty_handler; ids|].
  case_if; [apply Hret, sys_pipe_returns|]. case_if; [apply Hret, finish_returns; ids|]. case_if; [by apply ping_safe|].
  case_if; [apply Hret, finish_returns; ids|]. case_if; [apply Hret, finish_returns; ids|]. apply Hret; ids.
Qed.

Lemma syscall_safe frame c (m m' : machine St Hp Io Net) f :
  caller (krn m) c → syscall_dispatch fuel copy_fuel stack boot frame m = Some (f, m') → safe_step c (krn m) (krn m').
Proof.
  intros Hc. unfold syscall_dispatch. case_if.
  - destruct (vfs_reinstall_rootfs _ _ _ _ _) as [[r b]|]; [|done]. cbn [mbind option_bind].
    intros Er%(inj Some). apply pair_equal_spec in Er as [_ <-]. cbn [krn with_krn with_storage_state].
    apply safe_eax, same_ids_safe; [done|]. by apply ids_table.
  - destruct (kernel_call _ _ _ _ _) as [[f1 k1]|] eqn:Ek; [|done]. cbn [mbind option_bind].
    intros Er%(inj Some). apply pair_equal_spec in Er as [_ <-]. by eapply kernel_call_safe.
Qed.

(** C2: No system call gives away rights.  Whatever call a task makes, every task that exists afterwards either existed before
    and has the user and group it had, or is the caller and was the superuser, or is new and has
    those of the caller. *)
Theorem syscall_no_escalation frame c (m m' : machine St Hp Io Net) f t :
  caller (krn m) c → syscall_dispatch fuel copy_fuel stack boot frame m = Some (f, m') →
  let x := tasks (krn m) t in let y := tasks (krn m') t in
  state y ≠ TASK_UNUSED →
  state x ≠ TASK_UNUSED ∧ uid y = uid x ∧ gid y = gid x
  ∨ t = c ∧ uid x = 0
  ∨ state x = TASK_UNUSED ∧ uid y = uid (tasks (krn m) c) ∧ gid y = gid (tasks (krn m) c).
Proof.
  intros Hc E x y Hy. destruct (ss_tasks _ _ _ (syscall_safe _ _ _ _ _ Hc E) t) as [[?|?]|[[-> ?]|?]]; [done|by left|right; by left|right; by right].
Qed.

(** C3: System calls keep the task table well-formed.  Whatever call a task makes, when it returns, only
    the current task is marked as running and the idle task can run: the table is one in which the
    scheduler works. *)
Theorem syscall_keeps_sched_wf frame c (m m' : machine St Hp Io Net) f :
  caller (krn m) c → syscall_dispatch fuel copy_fuel stack boot frame m = Some (f, m') →
  sched_wf (krn m') ∧ ∃ c', current_task (krn m') = Some c' ∧ state (tasks (krn m') c') = TASK_RUNNING.
Proof. intros Hc E. destruct (syscall_safe _ _ _ _ _ Hc E) as [? ? _]. done. Qed.
End safe.

(** ** Examples *)

#[export] Instance no_net_info : NetInfo unit := {| net_info info _ := (-1, info) |}.
#[export] Instance no_disks : DiskDrivers (carray Z) :=
  {| pci_init s := s; ahci_init b s := (-1, b, s); ata_init b s := (-1, b, s) |}.

(** The child of [ProcDemo] as user 1000, calling [number]. *)
Definition user_calls (number : Z) : machine (carray Z) kheap (list Z * list Z) unit :=
  {| krn := with_kframes (λ _, with_eax number demo_frame) (demo_kernel (demo_tasks demo_init (with_gid 1000 (with_uid 1000 demo_child))) 10);
     disk := None; partition_name := None; storage_ready := 0 |}.

Definition no_options : bootinfo :=
  {| root_policy_value := BOOT_ROOT_AUTO; boot_flags_value := 0; framebuffer_info_value := no_framebuffer |}.

Lemma user_caller number : caller (krn (user_calls number)) 2.
Proof.
  split; [|done|done|done|done].
  pose proof (demo_wf (demo_tasks demo_init (with_gid 1000 (with_uid 1000 demo_child))) 10 eq_refl) as [W1 W2 W3].
  - intros t Ht. demo_slots t; [done|done|done|by rewrite demo_tasks_high].
  - by split.
Qed.

Lemma user_setuid :
  (λ x : Z * machine (carray Z) kheap (list Z * list Z) unit, (fr_eax (kframes (krn x.2) 5000), state (tasks (krn x.2) 2)))
    <$> syscall_dispatch 1 1 (λ _, 0) no_options 5000 (user_calls SYS_SETUID) = Some (ERR, TASK_RUNNING).
Proof. by vm_compute. Qed.

(** The user asks to become the superuser, and is refused. *)
Lemma syscall_no_escalation_witness :
  ∃ f m', syscall_dispatch 1 1 (λ _, 0) no_options 5000 (user_calls SYS_SETUID) = Some (f, m')
    ∧ fr_eax (kframes (krn m') 5000) = ERR ∧ uid (tasks (krn m') 2) = 1000.
Proof.
  pose proof user_setuid as Hs.
  destruct (syscall_dispatch 1 1 (λ _, 0) no_options 5000 (user_calls SYS_SETUID)) as [[f m']|] eqn:E; [|discriminate Hs].
  exists f, m'. split; [reflexivity|]. apply (inj Some) in Hs. apply pair_equal_spec in Hs as [H1 H2]. cbn [snd] in H1, H2. split; [exact H1|].
  assert (state (tasks (krn m') 2) ≠ TASK_UNUSED) as Hu by (rewrite H2; discriminate).
  destruct (syscall_no_escalation 1 1 (λ _, 0) no_options 5000 2 (user_calls SYS_SETUID) m' f 2 (user_caller _) E Hu) as [(_&H&_)|[[_ H]|[H _]]];
    [exact H|discriminate H|discriminate H].
Defined.

Lemma user_yield : fst <$> syscall_dispatch 1 1 (λ _, 0) no_options 5000 (user_calls SYS_YIELD) = Some 8192.
Proof. by vm_compute. Qed.

(** The user gives up the processor. *)
Lemma syscall_keeps_sched_wf_witness :
  ∃ m', syscall_dispatch 1 1 (λ _, 0) no_options 5000 (user_calls SYS_YIELD) = Some (8192, m') ∧ sched_wf (krn m').
Proof.
  pose proof user_yield as Hs.
  destruct (syscall_dispatch 1 1 (λ _, 0) no_options 5000 (user_calls SYS_YIELD)) as [[f m']|] eqn:E; [|discriminate Hs].
  apply (inj Some) in Hs. cbn [fst] in Hs. subst f. exists m'. split; [reflexivity|].
  destruct (syscall_keeps_sched_wf 1 1 (λ _, 0) no_options 5000 2 (user_calls SYS_YIELD) m' 8192 (user_caller _) E) as [H _]. exact H.
Defined.
